(* ===== verification/_CoqProject ===== *)
-Q . S2P
Prelude.v
GoStrings.v
Queue.v
QueueRuns.v
QueueVerdict.v
Dispatch.v
Topology.v
TopologyOrder.v
Suites.v
Imports.v
Flow.v
FlowRuns.v
Hub.v
Agents.v
Limits.v
Sessions.v
AuthHandlers.v
NetworkPlan.v
Runes.v
Strconv.v
Url.v
CallText.v
Literals.v
LoadPlan.v
StarNode.v
Starlark.v
StarlarkTopology.v
Values.v
MockTypes.v
Templates.v
ProxyTarget.v
MockRequests.v
MockSchemas.v
MockService.v
MockPreviews.v
Format.v
Floats.v
Runner.v
LoadStats.v
LoadRun.v
StepRun.v
Containers.v
DockerRun.v
KubeRun.v
RemoteRun.v
Backends.v
Profiles.v
ProfileRecords.v
ProfileService.v
ProfileRuntime.v
Cron.v
Platform.v
BackendChoice.v
Launch.v
Environments.v
StepInputs.v
Artifacts.v
SingleSignOn.v
Catalog.v
