(* ===== verification/Prelude.v ===== *)
(** * BabelSuite: a model of the server's core and its correctness

    BabelSuite runs test suites.  A suite is a package of files whose
    [suite.star] declares steps and their dependencies; an execution resolves
    the suite with the suites it imports, hands the steps to a task queue that
    runs them on backends, some of them remote agents, and streams events and
    logs to the browser.  This library models the Go code under
    [src/backend/internal] that carries this logic.  Every definition keeps the
    name of the function or type it translates where it can; the other ones
    are parts of functions (the body of a loop, one critical section).

    ** The parts, and how they interact

    - Prelude (this file): time, errors, 64-bit arithmetic, the notation
      [check x := e in k] for Go's early return of an error, and [tally], the
      number of values of a map that satisfy a test.  GoStrings: package
      strings and [internal/strutil] on byte strings.
    - Suites ([internal/suites] types.go, validation.go, source_content.go):
      what a suite package is and which packages are accepted.
    - Topology, TopologyOrder ([internal/suites/topology.go], function
      [resolveTopology]): the steps of a resolved suite in levels.  Topology
      has the definitions, TopologyOrder the theorems.
    - Imports ([topology.go], [pre_hook.go], [dependency_runtime.go]): a suite
      with its imported suites and its pre-hook becomes the list of steps that
      [resolveTopology] orders.
    - Queue, QueueRuns, QueueVerdict, Dispatch ([internal/queue/queue.go]): the
      task queue; its state is [Memory].  Queue has one definition per method,
      QueueRuns the step relation and what holds in every reachable state,
      QueueVerdict the abstract scheduler it refines, Dispatch the dispatcher's
      loop with its wake channel and the goroutines of the tasks.
    - Flow, FlowRuns ([internal/execution] flow.go, runtime.go, types.go): the
      recorded state of executions.  [Flow.boot_tasks] is the batch an
      execution gives to the queue, built from a topology that TopologyOrder
      orders: [boot_tasks_ordered] is the precondition of the theorems of
      QueueVerdict.  FlowRuns interleaves the steps of one execution.
    - NetworkPlan ([internal/execution/network_plan.go]): the host names of
      the containers of an execution, from the same topology.
    - Hub ([internal/eventstream], [internal/logstream]): the streams the
      events and logs of an execution are appended to.
    - Agents ([internal/agent] coordinator.go, runtime_cache.go,
      broker_dispatcher.go, registry.go): assignments of steps to remote
      agents under leases, and the registry of agents.
    - Limits, Sessions, AuthHandlers ([internal/auth] ratelimit.go,
      lockout.go, jwt.go, handler.go): who may use the server.  AuthHandlers
      uses the other two and the interface [Store] of the user store, whose
      laws ([StoreLaws]) an implementation in memory satisfies.

    - Runes, Strconv, Url: what the code uses of Go's strings of runes and of
      the packages strconv, time (durations) and net/url, down to binary64
      numbers, quoted strings and escapes.  They have no code of their own.
    - CallText (scanner.go, the text part of topology.go), Literals and
      LoadPlan (load_plan.go, load_spec.go): the text of calls, the literals
      in it, and the traffic plans written with both, with their limits.
    - StarNode, Starlark, StarlarkTopology (starlark_eval.go): the steps a
      suite creates through the runtime methods, as a sequence of calls made by
      the interpreter; their ids, arguments and edges; and the composition with
      Imports and Topology.  The argument text Starlark writes is what LoadPlan
      reads.

    - Values, MockTypes, Templates, ProxyTarget, MockRequests, MockSchemas,
      MockService, MockPreviews ([internal/mocking]): the mocks a suite serves
      while it runs.  Values has decoded JSON and how Go prints it, MockTypes
      the operations and requests, Templates the language of texts with
      expressions (template.go), ProxyTarget the addresses the fallback proxy
      may connect to, MockRequests (request.go) what a request matches,
      MockSchemas (schema_runtime.go, cue_schema.go) the examples written as
      schemas, MockService (state.go, service.go, handler.go) the stateful
      service that composes them, MockPreviews (preview.go) the same rendering
      without a request.

    - Format, Floats: what the runners use of math, fmt and time, and lemmas on
      the rounding of binary64 numbers.  They have no code of their own.
    - Runner, LoadStats, LoadRun, StepRun ([internal/runner]): one step on the
      local backend.  Runner has the data and the computations over reported
      lines; LoadStats the statistics of a load step and LoadRun the step itself
      (load_executor.go, apisix_traffic.go), whose plan LoadPlan has read; StepRun
      (local.go, plugin_executor.go, security_executor.go) decides which way a
      step is run and whether its expectations hold.  [StepRun.Run] is the work
      of a task that Queue starts.
    - Containers, DockerRun, KubeRun, RemoteRun, Backends ([internal/runner]
      docker_exec.go, docker_labels.go, kubernetes*.go, remote.go, with
      [internal/agent/proto_convert.go] and [cmd/agent]): the same step in a
      container.  Containers has the names, scripts and artifact files;
      DockerRun the life of a container, which StepRun takes as an argument;
      KubeRun the pods and the third backend made of them; RemoteRun the request
      sent to an agent and the step it runs; Backends composes each with StepRun
      and compares them.  What Docker, a cluster or an agent answers to the calls
      of one run is an argument, a record of results; the run records the calls
      that change something.

    - Profiles, ProfileRecords, ProfileService ([internal/profiles],
      [suites/source_profiles.go]): the managed profiles of a suite.  Profiles
      has the definitions, ProfileRecords the lemmas on normalizing and merging,
      ProfileService the histories over a store that keeps its promises.
    - ProfileRuntime ([execution/profile_runtime.go]): the inheritance of the
      profile a run names, the overlay it gives each step, and the secrets read
      from Vault and the environment.
    - Platform ([internal/platform]): the settings, their validation and their
      file.  BackendChoice ([execution/backend.go]) makes of them, and of the
      registry of Agents, the catalogue a launch chooses its backend from.
    - Launch ([execution] runtime.go, runtime_store.go, runtime_cache.go,
      stream.go, topology.go, remote_workers.go, inventory.go): the requests
      that start and read executions, over the state of Flow; it composes
      Suites, Topology, BackendChoice, NetworkPlan and Queue.
    - StepInputs (runtime.go, the body of [runNode]; mock_reset.go): what a
      step of a launched execution is given, from Imports, NetworkPlan and
      ProfileRuntime, and the reset of the mocks of MockService before a test.
    - Artifacts ([execution] artifacts.go, report_formats.go): what is kept of
      the files an ended step exports.
    - Cron ([internal/cronjobs]): the jobs that launch executions on a schedule.
    - Environments ([internal/environments]): the sandboxes that the containers
      of DockerRun and KubeRun are grouped into, and how they are reaped.
    - SingleSignOn ([internal/auth] oidc.go, config.go, http.go, the rest of
      handler.go): sign-in through a provider, over the accounts of
      AuthHandlers, and the gates in front of every protected handler.
    - Catalog ([internal/catalog]): the packages found in the registries of
      Platform, their versions, their pages, and the handlers.

    ** How the code is read

    A method that holds a lock for its whole body is one function from the
    guarded state to the next state.  A method with several critical sections
    is several functions, and the theorems about concurrency are about an
    inductive relation whose steps are the critical sections of all methods in
    any order, with any arguments.  What a function does after it released its
    lock (callbacks, publishing, cancelling) is a list of effects, or, for Hub,
    a part of the state that later steps work off.  Function values are
    opaque identities ([handle]).  Readings of the clock are arguments; where a
    function reads it more than once the readings are separate.  A Go map is a
    finite map; where the order of a [range] can be seen it is an argument.
    Metrics, spans and logging are left out.

    Third-party code is an argument: the Starlark interpreter (the calls it
    makes and the globals it leaves), the YAML decoder, the token library,
    password hashing, random identifiers, regular expressions, the tables of
    letters above ASCII, the source of random numbers, the resolver of host
    names, the HTTP client, the CUE library, the decoders of XML and JSON into
    typed records, HMAC-SHA256, the OAuth and OIDC libraries, the scheduler of
    cron jobs and the command [docker].  What a
    theorem needs of it is a hypothesis of that theorem or of its section, and
    its witness instantiates it.

    ** What the theorems show

    - Executions (FlowRuns): over every interleaving of an execution's steps
      the number of ended steps is exact, the end is observed once, the backend
      is released at most once, and the verdict is Failed exactly once a hard
      failure was reported.  Flow: which steps are skipped, and that the
      search along the failure paths decides reachability.
    - Topologies: [resolveTopology] always returns; it succeeds exactly on well
      formed acyclic steps; its result is a topological order on exact levels.
      Imports: every step waits for the pre-hook, [after] orders an imported
      suite like the single step it stands for (the step's [on_failure] is
      dropped), and resolution always ends.
    - Queue: pools never exceed their capacity, counters are exact, a task
      starts only after its dependencies, finished tasks never change; every
      run ends each task in the state its dependencies and its own result
      determine, and the dispatcher is never left asleep before a batch has
      ended.
    - Hub: every record is accounted for exactly once by every subscriber, and
      dropped only when its channel is full.
    - Agents: an assignment is closed once, is exclusive to its agent, lapses
      exactly with its lease; registration is an upsert.
    - Access: both limits are exact sliding windows whatever they sweep; the
      wrong passwords recorded on an account in ten minutes are at most nine
      and the sign-ins of it in progress at a time; a revoked
      token is never accepted again, a one-time code is used once, a sign-up
      is all or nothing and can sign in.
    - Suites: exactly the safe packages are accepted.
    - Texts and plans: literals always parse to a value or an error, their JSON
      is read back, named arguments are found again, accepted plans respect the
      safety limits (and how the duration limit is passed by overflow).
    - Starlark: an evaluated suite always has an order; the ids of its steps do
      not depend on the order of a map; its arguments are read back; the
      quoting helpers protect any text but one kind in JavaScript.
    - Mocks: every request and reset leaves the states of the other suites
      alone, unless they share a key; counters add up over requests one after
      the other; the proxy connects to no address of the blocked ranges that it
      can read (one with a zone it cannot); templates are rendered once; a path
      matches exactly the pattern it fills; a response rendered from a schema
      without examples, directives and required properties conforms to it.
    - Runners: the statistics account for every result, percentiles are exact
      nearest ranks, a verdict is that of its thresholds, a run that is not
      cancelled ends; a step passes only when its expectations hold.
    - Containers: whatever Docker or a cluster answers, no container and no pod
      is left behind; a step in Docker passes exactly when its container ended
      with status 0 and its expectations hold for exit code 0, whichever it
      declares; the backends agree on steps without a container; an agent runs
      the node it was sent, without the fields that stay behind; artifacts come
      from the workspace; names of pods are labels.
    - Launches: a launch is refused exactly for the reasons the code gives, at
      most ten are under way, a session sees the executions of its workspace;
      the backend is one the deployment mode allows and that can be reached.
    - Profiles: the lines of ancestors always end; the environment of a step
      takes each variable from the first source that has it; a suite has one
      launchable default through every history, and, when the files of its
      package give distinct identifiers, distinct profiles and edits that are
      read back.
    - Steps: mocks are reset exactly for the suites a test names; plugins are
      given the ports their configuration asks for.  Artifacts: each export of
      an ended step is recorded or reported; the counts of JUnit reports.
    - Settings and jobs: an update is refused exactly when the settings are not
      acceptable; the scheduler holds exactly the enabled jobs it was last
      asked for, which are those of the store while writes succeed.
    - Environments: reaping removes what the labels put in the sandbox and
      nothing else, and a run of a backend is left to that backend.
    - Catalogue: it has exactly the packages the registries offer, each as the
      first registry that offers it has it; the version shown is the greatest.
    - Single sign-on: a session is handed out only for a state this server
      signed and an identity the provider vouched for; the state cookie is read
      back; what passes the gates of a protected handler.
    - Theorems of kind [error] are about failures the code reports; behaviour
      that departs from what the code means to do is in lemmas the findings name.

    ** Fuel

    The functions with fuel do not run out.  [level_loop] gets the number
    of steps: every round puts at least one on a level
    ([resolveTopology_total]).  The search along failure paths gets two more
    than the number of steps: a path visits no step twice
    ([failure_path_reachable]).  The recursion over imported suites gets more
    than the number of suites: a suite that is being resolved is not entered
    again ([ResolveRuntime_total]).  The dispatcher is a step
    relation: at most four steps per task and three more move a batch on
    ([dispatch_completes]).  The loops of AuthHandlers make five
    attempts, as in the code.  [parseValue] gets twice the bytes of the text and
    one more: every recursive call has consumed a byte ([parse_total]);
    [chain_loop] and [unquote_loop] get the length of the text they shorten at
    every round ([chain_loop_fuel]), and so does [dash_loop].  [shortest_from]
    tries the 17 decimal digits that always determine a binary64 number, and
    [scale_up] the 400 decimal places below the least of them.  An expression
    of a template gets its length and one more ([evaluate_fuel]), decoded JSON
    twice the length of the text and one more, a schema its depth and one
    more; an IPv6 address has at most nine groups to read.  The search for a
    free profile identifier tries one candidate more than there are records
    ([ProfileRecords]); the inheritance of profiles visits no profile twice and
    gets two more than there are ([chain_is_lineage]); texts that are cut at
    separators get their length and one more.  A cron job waits for an execution
    for two polls more than fit its time limit ([wait_loop_ends]).

    ** What is not modelled

    The manifest lists every part of the system with its status.  Left out are:
    calls of Redis, databases and gateways and the HTTP and gRPC transports
    (their effects are arguments of the models above); generated code, command
    lines and client libraries; metrics, traces and logs; the views assembled
    for the user interface ([internal/engine], the inventories of the runners,
    the views of suites and histories) and the routing of requests to handlers;
    the files of suites on disk ([internal/suites] workspace.go, hydrate.go) and
    the generator of example suites; the rendering of gateway configuration
    ([internal/apisix]); and the second topology resolver of
    [execution/topology.go], apart from what Launch uses of that file.  In the
    Starlark part, the interpreter and the loading of the directories of shared
    modules are left out, and in the mocks the conversion of CUE values, which
    walks the values of a library. *)
From Stdlib Require Import ZArith Lia.
From stdpp Require Export gmap strings list fin_maps sorting.
#[global] Open Scope Z_scope.

(** * Notations and tactics *)
Declare Scope go_scope.
Delimit Scope go_scope with go.

(** [x, err := e; if err != nil { return err }], then [k]. *)
Notation "'check' x ':=' e 'in' k" :=
  (match e with inl err => inl err | inr x => k end)
  (at level 200, x name, e at level 200, k at level 200,
   format "'[v' 'check'  x  ':='  e  'in' '/' k ']'") : go_scope.
#[global] Open Scope go_scope.

(** Turn the boolean integer tests of the code into propositions. *)
Ltac bool_to_prop :=
  repeat match goal with
  | H : _ && _ = true |- _ => apply andb_true_iff in H as [? ?]
  | H : _ && _ = false |- _ => apply andb_false_iff in H
  | H : _ || _ = true |- _ => apply orb_true_iff in H
  | H : _ || _ = false |- _ => apply orb_false_iff in H as [? ?]
  | H : negb _ = true |- _ => apply negb_true_iff in H
  | H : negb _ = false |- _ => apply negb_false_iff in H
  | H : (_ <? _) = true |- _ => apply Z.ltb_lt in H
  | H : (_ <? _) = false |- _ => apply Z.ltb_ge in H
  | H : (_ <=? _) = true |- _ => apply Z.leb_le in H
  | H : (_ <=? _) = false |- _ => apply Z.leb_gt in H
  | H : (_ =? _) = true |- _ => apply Z.eqb_eq in H
  | H : (_ =? _) = false |- _ => apply Z.eqb_neq in H
  | H : bool_decide _ = true |- _ => apply bool_decide_eq_true in H
  | H : bool_decide _ = false |- _ => apply bool_decide_eq_false in H
  end.

(** * The Go values shared by the components *)

(** A function value (callback, cancel function, capacity function) is known
    to the model only by an identity: calling it is an effect the operations
    report, in the order of the calls. *)
Definition handle := nat.

(** [time.Time] and [time.Duration] count nanoseconds; the zero [time.Time]
    is 0. *)
Definition second : Z := 1000000000.
Definition minute : Z := 60 * second.
Definition hour : Z := 60 * minute.
Definition IsZero (t : Z) : bool := t =? 0.
Definition After (a b : Z) : bool := b <? a.
Definition Before (a b : Z) : bool := a <? b.

(** Errors: the two sentinel values of package context, an error with a text
    only, and an error that wraps another one ([fmt.Errorf] with [%w]). *)
Inductive goerr :=
  | Canceled
  | DeadlineExceeded
  | ErrText (text : string)
  | ErrWrap (text : string) (inner : goerr).

#[export] Instance goerr_eq_dec : EqDecision goerr.
Proof. solve_decision. Defined.

(** [errors.Is]: the target is the error itself or one it wraps. *)
Fixpoint errors_Is (e : goerr) (target : goerr) : bool :=
  bool_decide (e = target) ||
  match e with ErrWrap _ inner => errors_Is inner target | _ => false end.

(** [int] and [int64] arithmetic wraps around at 64 bits. *)
Definition int64_min : Z := - 2 ^ 63.
Definition int64_max : Z := 2 ^ 63 - 1.
Definition wrap64 (z : Z) : Z := (z + 2 ^ 63) mod 2 ^ 64 - 2 ^ 63.

Lemma wrap64_small z : int64_min <= z <= int64_max -> wrap64 z = z.
Proof. unfold wrap64, int64_min, int64_max. intros. rewrite Z.mod_small; lia. Qed.

Lemma wrap64_range z : int64_min <= wrap64 z <= int64_max.
Proof.
  unfold wrap64, int64_min, int64_max.
  pose proof (Z.mod_pos_bound (z + 2 ^ 63) (2 ^ 64) ltac:(lia)). lia.
Qed.

(** * Counting the values of a map *)
Definition b2z (b : bool) : Z := if b then 1 else 0.

Section tally.
Context {A : Type}.
Implicit Types (P : A -> bool) (m : gmap string A).

Definition tally P m : Z := map_fold (fun _ x n => n + b2z (P x)) 0 m.

Lemma tally_empty P : tally P ∅ = 0.
Proof. apply map_fold_empty. Qed.

Lemma tally_insert_new P m i x :
  m !! i = None -> tally P (<[i:=x]> m) = tally P m + b2z (P x).
Proof. intros Hi. unfold tally. rewrite map_fold_insert_L; [done|intros; simpl; lia|done]. Qed.

Lemma tally_delete P m i x :
  m !! i = Some x -> tally P (delete i m) = tally P m - b2z (P x).
Proof.
  intros Hi. rewrite <-(insert_delete_id m i x Hi) at 2.
  rewrite tally_insert_new by apply lookup_delete_eq. lia.
Qed.

Lemma tally_update P m i x y :
  m !! i = Some x -> tally P (<[i:=y]> m) = tally P m - b2z (P x) + b2z (P y).
Proof.
  intros Hi. rewrite <-insert_delete_eq.
  rewrite tally_insert_new by apply lookup_delete_eq.
  rewrite (tally_delete _ _ _ _ Hi). lia.
Qed.

Lemma tally_insert_le P m i x : tally P (<[i:=x]> m) <= tally P m + 1.
Proof.
  assert (forall b, 0 <= b2z b <= 1) as Hb by (intros []; simpl; lia).
  destruct (m !! i) as [y|] eqn:Hi.
  - rewrite (tally_update _ _ _ _ _ Hi). pose proof (Hb (P x)). pose proof (Hb (P y)). lia.
  - rewrite tally_insert_new by done. pose proof (Hb (P x)). lia.
Qed.

Lemma tally_nonneg P m : 0 <= tally P m.
Proof.
  induction m as [|i x m Hi IH] using map_ind; [by rewrite tally_empty|].
  rewrite tally_insert_new by done. unfold b2z. destruct (P x); lia.
Qed.

Lemma tally_ext P Q m :
  (forall i x, m !! i = Some x -> P x = Q x) -> tally P m = tally Q m.
Proof.
  induction m as [|i x m Hi IH] using map_ind; intros HPQ; [by rewrite !tally_empty|].
  rewrite !tally_insert_new by done. rewrite (HPQ i x) by apply lookup_insert_eq.
  rewrite IH; [done|]. intros j y Hj. apply (HPQ j).
  rewrite lookup_insert_ne; [done|congruence].
Qed.

Lemma tally_pos P m i x : m !! i = Some x -> P x = true -> 0 < tally P m.
Proof.
  intros Hi HP. pose proof (tally_delete P m i x Hi) as Hd. rewrite HP in Hd.
  pose proof (tally_nonneg P (delete i m)). simpl in Hd. lia.
Qed.

Lemma tally_zero P m : tally P m = 0 -> forall i x, m !! i = Some x -> P x = false.
Proof.
  intros H0 i x Hi. destruct (P x) eqn:HP; [|done]. pose proof (tally_pos P m i x Hi HP). lia.
Qed.

Lemma tally_none P m : (forall i x, m !! i = Some x -> P x = false) -> tally P m = 0.
Proof.
  intros H. rewrite (tally_ext P (fun _ => false) m H).
  induction m as [|i x m Hi IH] using map_ind; [apply tally_empty|].
  rewrite tally_insert_new by done. rewrite IH; [done|].
  intros j y Hj. apply (H j). rewrite lookup_insert_ne; [done|congruence].
Qed.

Lemma tally_filter P (Q : string * A -> Prop) `{!forall p, Decision (Q p)} m :
  (forall i x, m !! i = Some x -> P x = true -> Q (i, x)) ->
  tally P (filter Q m) = tally P m.
Proof.
  induction m as [|i x m Hi IH] using map_ind; intros HQ.
  { by rewrite map_filter_empty. }
  rewrite map_filter_insert. case_decide as Hq.
  - rewrite !tally_insert_new; [|done|by apply map_lookup_filter_None; left].
    rewrite IH; [done|]. intros j y Hj. apply HQ.
    rewrite lookup_insert_ne; [done|congruence].
  - rewrite delete_id by done. rewrite tally_insert_new by done.
    rewrite IH; [|intros j y Hj; apply HQ; rewrite lookup_insert_ne; [done|congruence]].
    destruct (P x) eqn:HP; [|unfold b2z; lia].
    exfalso. apply Hq, (HQ i x); [apply lookup_insert_eq|done].
Qed.

Lemma tally_size P m : tally P m + tally (fun x => negb (P x)) m = Z.of_nat (size m).
Proof.
  induction m as [|i x m Hi IH] using map_ind; [by rewrite !tally_empty|].
  rewrite !tally_insert_new, map_size_insert_None by done. unfold b2z. destruct (P x); simpl; lia.
Qed.

(** Every entry is counted exactly when the count is the size. *)
Lemma tally_all P m : tally P m = Z.of_nat (size m) <-> forall i x, m !! i = Some x -> P x = true.
Proof.
  pose proof (tally_size P m) as Hs. split.
  - intros Ht i x Hi. assert (tally (fun x => negb (P x)) m = 0) as H0 by lia.
    apply (tally_zero _ _ H0) in Hi. by destruct (P x).
  - intros Hall. assert (tally (fun x => negb (P x)) m = 0); [|lia].
    apply tally_none. intros i x Hi. by rewrite (Hall i x Hi).
Qed.
End tally.
