(* ===== verification/GoStrings.v ===== *)
(** The part of package strings the components use, on byte strings.

    A Go [string] is a sequence of bytes, here [String.string] whose
    characters are the bytes.  [TrimSpace] knows the Unicode white space of
    [unicode.IsSpace] in its UTF-8 encoding.  [ToLower], [ToUpper] and
    [EqualFold] are exact on ASCII letters and on the non-ASCII letters whose
    other case is an ASCII letter, which decides every comparison with an
    ASCII constant; other non-ASCII letters are left as they are. *)
From Stdlib Require Import ZArith Lia Ascii.
From S2P Require Import Prelude.

Module GoStrings.

Notation bytes := (list ascii).
Definition of_string (s : string) : bytes := String.list_ascii_of_string s.
Definition to_string (b : bytes) : string := String.string_of_list_ascii b.

Lemma of_to b : of_string (to_string b) = b.
Proof. apply String.list_ascii_of_string_of_list_ascii. Qed.
Lemma to_of s : to_string (of_string s) = s.
Proof. apply String.string_of_list_ascii_of_string. Qed.

Definition code (c : ascii) : Z := Z.of_N (N_of_ascii c).

(** ** White space *)
Definition ascii_space (c : ascii) : bool :=
  let b := code c in (b =? 32) || ((9 <=? b) && (b <=? 13)).

(** U+0085 and U+00A0. *)
Definition space2 (c d : ascii) : bool :=
  (code c =? 194) && ((code d =? 133) || (code d =? 160)).

(** U+1680, U+2000 to U+200A, U+2028, U+2029, U+202F, U+205F, U+3000. *)
Definition space3 (c d e : ascii) : bool :=
  let b := code e in
  ((code c =? 225) && (code d =? 154) && (b =? 128)) ||
  ((code c =? 226) && (code d =? 128) &&
     (((128 <=? b) && (b <=? 138)) || (b =? 168) || (b =? 169) || (b =? 175))) ||
  ((code c =? 226) && (code d =? 129) && (b =? 159)) ||
  ((code c =? 227) && (code d =? 128) && (b =? 128)).

Fixpoint trim_left (l : bytes) : bytes :=
  match l with
  | [] => []
  | c :: l1 =>
      if ascii_space c then trim_left l1
      else match l1 with
      | [] => l
      | d :: l2 =>
          if space2 c d then trim_left l2
          else match l2 with
          | [] => l
          | e :: l3 => if space3 c d e then trim_left l3 else l
          end
      end
  end.

(** On the reversed bytes: the encoding of a space read from its end. *)
Fixpoint trim_left_rev (l : bytes) : bytes :=
  match l with
  | [] => []
  | c :: l1 =>
      if ascii_space c then trim_left_rev l1
      else match l1 with
      | [] => l
      | d :: l2 =>
          if space2 d c then trim_left_rev l2
          else match l2 with
          | [] => l
          | e :: l3 => if space3 e d c then trim_left_rev l3 else l
          end
      end
  end.

Definition trim_right (l : bytes) : bytes := reverse (trim_left_rev (reverse l)).
Definition trim_bytes (l : bytes) : bytes := trim_right (trim_left l).
Definition TrimSpace (s : string) : string := to_string (trim_bytes (of_string s)).

(** [strings.TrimSpace(s) == ""], the blank test. *)
Definition blank (s : string) : bool := bool_decide (TrimSpace s = "").

(** [strutil.FirstNonEmpty], and its copy [firstNonEmptyValue]. *)
Fixpoint FirstNonEmpty (values : list string) : string :=
  match values with
  | [] => ""
  | v :: rest => if negb (blank v) then v else FirstNonEmpty rest
  end.

(** ** Letter case *)
Definition lower_byte (c : ascii) : ascii :=
  let b := code c in
  if (65 <=? b) && (b <=? 90) then ascii_of_N (Z.to_N (b + 32)) else c.
Definition upper_byte (c : ascii) : ascii :=
  let b := code c in
  if (97 <=? b) && (b <=? 122) then ascii_of_N (Z.to_N (b - 32)) else c.

(** U+0130 has the lower case [i], U+212A (Kelvin) the lower case [k]. *)
Fixpoint lower_bytes (l : bytes) : bytes :=
  match l with
  | [] => []
  | c :: l1 =>
      match l1 with
      | d :: l2 =>
          if (code c =? 196) && (code d =? 176) then "i"%char :: lower_bytes l2
          else match l2 with
          | e :: l3 =>
              if (code c =? 226) && (code d =? 132) && (code e =? 170) then
                "k"%char :: lower_bytes l3
              else lower_byte c :: lower_bytes l1
          | [] => lower_byte c :: lower_bytes l1
          end
      | [] => [lower_byte c]
      end
  end.
Definition ToLower (s : string) : string := to_string (lower_bytes (of_string s)).

(** U+0131 has the upper case [I], U+017F the upper case [S]. *)
Fixpoint upper_bytes (l : bytes) : bytes :=
  match l with
  | [] => []
  | c :: l1 =>
      match l1 with
      | d :: l2 =>
          if (code c =? 196) && (code d =? 177) then "I"%char :: upper_bytes l2
          else if (code c =? 197) && (code d =? 191) then "S"%char :: upper_bytes l2
          else upper_byte c :: upper_bytes l1
      | [] => [upper_byte c]
      end
  end.
Definition ToUpper (s : string) : string := to_string (upper_bytes (of_string s)).

(** Simple folding joins [K] with U+212A and [S] with U+017F. *)
Fixpoint fold_bytes (l : bytes) : bytes :=
  match l with
  | [] => []
  | c :: l1 =>
      match l1 with
      | d :: l2 =>
          if (code c =? 197) && (code d =? 191) then "s"%char :: fold_bytes l2
          else match l2 with
          | e :: l3 =>
              if (code c =? 226) && (code d =? 132) && (code e =? 170) then
                "k"%char :: fold_bytes l3
              else lower_byte c :: fold_bytes l1
          | [] => lower_byte c :: fold_bytes l1
          end
      | [] => [lower_byte c]
      end
  end.
Definition EqualFold (s t : string) : bool :=
  bool_decide (fold_bytes (of_string s) = fold_bytes (of_string t)).

(** ** Searching and splitting *)
Definition HasPrefix (s prefix : string) : bool :=
  bool_decide (take (String.length prefix) (of_string s) = of_string prefix).
Definition TrimPrefix (s prefix : string) : string :=
  if HasPrefix s prefix then to_string (drop (String.length prefix) (of_string s)) else s.
Definition HasSuffix (s suffix : string) : bool :=
  bool_decide (take (String.length suffix) (reverse (of_string s)) = reverse (of_string suffix)).
Definition TrimSuffix (s suffix : string) : string :=
  if HasSuffix s suffix then
    to_string (take (String.length s - String.length suffix) (of_string s))
  else s.

(** [strings.Split(s, sep)] for a separator of one byte: never empty. *)
Fixpoint split_bytes (sep : ascii) (l : bytes) : list bytes :=
  match l with
  | [] => [[]]
  | c :: l' =>
      if bool_decide (c = sep) then [] :: split_bytes sep l'
      else match split_bytes sep l' with
           | [] => [[c]]
           | part :: parts => (c :: part) :: parts
           end
  end.
Definition Split (s : string) (sep : ascii) : list string :=
  to_string <$> split_bytes sep (of_string s).

(** [strings.Join(items, sep)]. *)
Fixpoint Join (items : list string) (sep : string) : string :=
  match items with
  | [] => ""
  | [s] => s
  | s :: rest => s +:+ sep +:+ Join rest sep
  end.

(** [strings.Trim(s, cutset)] for a cutset of one byte. *)
Fixpoint drop_byte (cut : ascii) (l : bytes) : bytes :=
  match l with
  | c :: l' => if bool_decide (c = cut) then drop_byte cut l' else l
  | [] => []
  end.
Definition Trim (s : string) (cut : ascii) : string :=
  to_string (reverse (drop_byte cut (reverse (drop_byte cut (of_string s))))).

(** [strings.IndexByte] and [strings.LastIndex] for one byte: -1 when absent. *)
Fixpoint index_bytes (c : ascii) (l : bytes) : option nat :=
  match l with
  | [] => None
  | x :: l' => if bool_decide (x = c) then Some O else S <$> index_bytes c l'
  end.
Definition LastIndex (s : string) (c : ascii) : Z :=
  match index_bytes c (reverse (of_string s)) with
  | Some n => Z.of_nat (String.length s) - 1 - Z.of_nat n
  | None => -1
  end.
Definition Contains (s : string) (c : ascii) : bool :=
  bool_decide (is_Some (index_bytes c (of_string s))).

(** [s[:i]] and [s[i:]]. *)
Definition slice_to (s : string) (i : Z) : string := to_string (take (Z.to_nat i) (of_string s)).
Definition slice_from (s : string) (i : Z) : string := to_string (drop (Z.to_nat i) (of_string s)).

(** [strings.Contains(s, sub)]. *)
Fixpoint has_sub (sub l : bytes) : bool :=
  bool_decide (take (length sub) l = sub) ||
  match l with [] => false | _ :: l' => has_sub sub l' end.
Definition ContainsSub (s sub : string) : bool := has_sub (of_string sub) (of_string s).

(** [strings.ReplaceAll(s, old, new)] for single bytes. *)
Definition ReplaceByte (s : string) (old new : ascii) : string :=
  to_string ((fun c => if bool_decide (c = old) then new else c) <$> of_string s).

(** [strings.Cut(s, sep)] for a separator of one byte. *)
Definition Cut (s : string) (sep : ascii) : string * string * bool :=
  match index_bytes sep (of_string s) with
  | Some i => (to_string (take i (of_string s)), to_string (drop (S i) (of_string s)), true)
  | None => (s, "", false)
  end.

(** [utf8.ValidString]: no overlong forms, no surrogates, nothing above
    U+10FFFF. *)
Definition cont (lo hi : Z) (c : ascii) : bool := (lo <=? code c) && (code c <=? hi).
Fixpoint valid_utf8 (l : bytes) : bool :=
  match l with
  | [] => true
  | c :: l1 =>
      let b := code c in
      if b <? 128 then valid_utf8 l1
      else match l1 with
      | [] => false
      | d :: l2 =>
          if (194 <=? b) && (b <=? 223) then cont 128 191 d && valid_utf8 l2
          else match l2 with
          | [] => false
          | e :: l3 =>
              if (224 <=? b) && (b <=? 239) then
                cont (if b =? 224 then 160 else 128) (if b =? 237 then 159 else 191) d &&
                cont 128 191 e && valid_utf8 l3
              else match l3 with
              | [] => false
              | f :: l4 =>
                  (240 <=? b) && (b <=? 244) &&
                  cont (if b =? 240 then 144 else 128) (if b =? 244 then 143 else 191) d &&
                  cont 128 191 e && cont 128 191 f && valid_utf8 l4
              end
          end
      end
  end.
Definition ValidString (s : string) : bool := valid_utf8 (of_string s).

Example Cut_ex : Cut "a=b=c" "=" = ("a", "b=c", true).
Proof. reflexivity. Qed.
Example ContainsSub_ex : (ContainsSub "a/../b" "/../", ContainsSub "a/b" "/../") = (true, false).
Proof. reflexivity. Qed.
Example TrimSpace_ex : TrimSpace "  a b
" = "a b".
Proof. reflexivity. Qed.
Example ToLower_ex : ToLower "OnLine" = "online".
Proof. reflexivity. Qed.
Example Split_ex : Split "a//b" "/" = ["a"; ""; "b"].
Proof. reflexivity. Qed.
Example LastIndex_ex : LastIndex "a/b/c" "/" = 3.
Proof. reflexivity. Qed.
Example HasSuffix_ex : TrimSuffix "x.yaml" ".yaml" = "x".
Proof. reflexivity. Qed.

(** ** Trimming twice is trimming once *)

(** The number of bytes of the white space a byte sequence starts with. *)
Definition lead (sp2 : ascii -> ascii -> bool) (sp3 : ascii -> ascii -> ascii -> bool)
    (l : bytes) : nat :=
  match l with
  | [] => 0
  | c :: l1 =>
      if ascii_space c then 1
      else match l1 with
      | [] => 0
      | d :: l2 =>
          if sp2 c d then 2
          else match l2 with
          | [] => 0
          | e :: _ => if sp3 c d e then 3 else 0
          end
      end
  end%nat.
Notation lead_left := (lead space2 space3).
Notation lead_right := (lead (fun c d => space2 d c) (fun c d e => space3 e d c)).

Lemma lead_app sp2 sp3 l k : lead sp2 sp3 (l ++ k) = O -> lead sp2 sp3 l = O.
Proof.
  destruct l as [|c [|d [|e l]]]; simpl; try done; destruct (ascii_space c); try done;
    destruct k as [|x [|y k]]; try done; simpl; try destruct (sp2 c x); try destruct (sp2 c d); done.
Qed.

Lemma trim_left_lead l : lead_left (trim_left l) = O.
Proof.
  remember (length l) as n eqn:Hn. revert l Hn.
  induction n as [n IH] using lt_wf_ind. intros l ->.
  destruct l as [|c [|d [|e l]]]; simpl; try done.
  - by destruct (ascii_space c) eqn:Hc; simpl; rewrite ?Hc.
  - destruct (ascii_space c) eqn:Hc; [exact (IH (length [d]) ltac:(simpl; lia) [d] eq_refl)|].
    destruct (space2 c d) eqn:Hd; [done|]. simpl. by rewrite Hc, Hd.
  - destruct (ascii_space c) eqn:Hc.
    { exact (IH (length (d :: e :: l)) ltac:(simpl; lia) (d :: e :: l) eq_refl). }
    destruct (space2 c d) eqn:Hd; [exact (IH (length (e :: l)) ltac:(simpl; lia) (e :: l) eq_refl)|].
    destruct (space3 c d e) eqn:He; [exact (IH (length l) ltac:(simpl; lia) l eq_refl)|].
    simpl. by rewrite Hc, Hd, He.
Qed.

Lemma trim_left_id l : lead_left l = O -> trim_left l = l.
Proof.
  destruct l as [|c [|d [|e l]]]; simpl; try done; destruct (ascii_space c); try done;
    destruct (space2 c d); try done; by destruct (space3 c d e).
Qed.

Lemma trim_left_rev_lead l : lead_right (trim_left_rev l) = O.
Proof.
  remember (length l) as n eqn:Hn. revert l Hn.
  induction n as [n IH] using lt_wf_ind. intros l ->.
  destruct l as [|c [|d [|e l]]]; simpl; try done.
  - by destruct (ascii_space c) eqn:Hc; simpl; rewrite ?Hc.
  - destruct (ascii_space c) eqn:Hc; [exact (IH (length [d]) ltac:(simpl; lia) [d] eq_refl)|].
    destruct (space2 d c) eqn:Hd; [done|]. simpl. by rewrite Hc, Hd.
  - destruct (ascii_space c) eqn:Hc.
    { exact (IH (length (d :: e :: l)) ltac:(simpl; lia) (d :: e :: l) eq_refl). }
    destruct (space2 d c) eqn:Hd; [exact (IH (length (e :: l)) ltac:(simpl; lia) (e :: l) eq_refl)|].
    destruct (space3 e d c) eqn:He; [exact (IH (length l) ltac:(simpl; lia) l eq_refl)|].
    simpl. by rewrite Hc, Hd, He.
Qed.

Lemma trim_left_rev_id l : lead_right l = O -> trim_left_rev l = l.
Proof.
  destruct l as [|c [|d [|e l]]]; simpl; try done; destruct (ascii_space c); try done;
    destruct (space2 d c); try done; by destruct (space3 e d c).
Qed.

Lemma trim_left_rev_suffix l : exists k, l = k ++ trim_left_rev l.
Proof.
  remember (length l) as n eqn:Hn. revert l Hn.
  induction n as [n IH] using lt_wf_ind. intros l ->.
  assert (forall p k, (0 < length p)%nat -> l = p ++ k ->
    exists k', p ++ k = k' ++ trim_left_rev k) as Hp.
  { intros p k Hlen ->. destruct (IH (length k)) with (l := k) as [k' Hk]; [|done|].
    - rewrite length_app. lia.
    - exists (p ++ k'). by rewrite <-app_assoc, <-Hk. }
  destruct l as [|c [|d [|e l]]]; simpl; try (by exists []).
  - destruct (ascii_space c); [|by exists []]. by exists [c].
  - destruct (ascii_space c); [exact (Hp [c] [d] ltac:(simpl; lia) eq_refl)|].
    destruct (space2 d c); [exact (Hp [c; d] [] ltac:(simpl; lia) eq_refl)|by exists []].
  - destruct (ascii_space c); [exact (Hp [c] (d :: e :: l) ltac:(simpl; lia) eq_refl)|].
    destruct (space2 d c); [exact (Hp [c; d] (e :: l) ltac:(simpl; lia) eq_refl)|].
    destruct (space3 e d c); [exact (Hp [c; d; e] l ltac:(simpl; lia) eq_refl)|by exists []].
Qed.

Lemma trim_right_prefix l : exists k, l = trim_right l ++ k.
Proof.
  destruct (trim_left_rev_suffix (reverse l)) as [k Hk]. exists (reverse k).
  unfold trim_right. rewrite <-reverse_app, <-Hk. by rewrite reverse_involutive.
Qed.

Lemma trim_bytes_idemp l : trim_bytes (trim_bytes l) = trim_bytes l.
Proof.
  unfold trim_bytes at 1. rewrite (trim_left_id (trim_bytes l)).
  - unfold trim_bytes, trim_right. rewrite reverse_involutive.
    by rewrite (trim_left_rev_id (trim_left_rev _)) by apply trim_left_rev_lead.
  - unfold trim_bytes. destruct (trim_right_prefix (trim_left l)) as [k Hk].
    apply (lead_app _ _ _ k). rewrite <-Hk. apply trim_left_lead.
Qed.

Lemma TrimSpace_idemp s : TrimSpace (TrimSpace s) = TrimSpace s.
Proof. unfold TrimSpace. by rewrite of_to, trim_bytes_idemp. Qed.

Lemma blank_false s : blank s = false <-> TrimSpace s <> "".
Proof. unfold blank. by rewrite bool_decide_eq_false. Qed.

Lemma FirstNonEmpty_spec values :
  FirstNonEmpty values = "" /\ Forall (fun v => blank v = true) values \/
  exists pre v post, values = pre ++ v :: post /\ Forall (fun v => blank v = true) pre /\
    blank v = false /\ FirstNonEmpty values = v.
Proof.
  induction values as [|v rest IH]; simpl; [by left|].
  destruct (blank v) eqn:Hv; simpl; [|by right; exists [], v, rest].
  destruct IH as [[-> HF]|(pre & w & post & -> & Hpre & Hw & Hf)]; [left; split; [done|by constructor]|].
  right. exists (v :: pre), w, post. repeat split; try done. by constructor.
Qed.
(** [strings.TrimRight] and what it and [Trim] leave. *)
Definition TrimRight (s : string) (cut : ascii) : string :=
  to_string (reverse (drop_byte cut (reverse (of_string s)))).

Lemma drop_byte_spec cut l : exists k, l = k ++ drop_byte cut l /\ head (drop_byte cut l) <> Some cut.
Proof.
  induction l as [|c l (k & Hk & Hh)]; [by exists []|]. cbn [drop_byte]. case_bool_decide as Hc.
  - exists (c :: k). split; [cbn; by rewrite <-Hk|done].
  - exists []. split; [done|]. cbn. congruence.
Qed.

Lemma Trim_spec s cut : exists pre post, of_string s = pre ++ of_string (Trim s cut) ++ post /\
  head (of_string (Trim s cut)) <> Some cut /\ last (of_string (Trim s cut)) <> Some cut.
Proof.
  unfold Trim. rewrite of_to. destruct (drop_byte_spec cut (of_string s)) as (pre & Hpre & Hhead).
  set (l := drop_byte cut (of_string s)) in *. destruct (drop_byte_spec cut (reverse l)) as (post & Hpost & Hlast).
  set (r := drop_byte cut (reverse l)) in *. apply (f_equal reverse) in Hpost.
  rewrite reverse_involutive, reverse_app in Hpost. exists pre, (reverse post). split; [by rewrite <-Hpost|].
  split.
  - rewrite Hpost in Hhead. by destruct (reverse r).
  - by rewrite last_reverse.
Qed.

(** ** Splitting at a byte *)
Lemma split_no_sep sep l : Forall (fun c => c <> sep) l -> split_bytes sep l = [l].
Proof.
  induction 1 as [|c l Hc _ IH]; [done|]. cbn [split_bytes]. by rewrite bool_decide_eq_false_2, IH.
Qed.

Lemma split_nonempty sep l : split_bytes sep l <> [].
Proof. destruct l; cbn [split_bytes]; [done|]. repeat case_match; done. Qed.
Lemma split_app sep a b : split_bytes sep (a ++ sep :: b) = split_bytes sep a ++ split_bytes sep b.
Proof.
  induction a as [|c a IH]; cbn [app split_bytes]; [by rewrite bool_decide_true|].
  rewrite IH. case_bool_decide; [done|]. pose proof (split_nonempty sep a). by destruct (split_bytes sep a).
Qed.
Lemma split_parts sep l : Forall (fun part => sep ∉ part) (split_bytes sep l).
Proof.
  induction l as [|c l IH]; cbn [split_bytes]; [constructor; [apply not_elem_of_nil|constructor]|].
  case_bool_decide as Hc; [constructor; [apply not_elem_of_nil|done]|].
  destruct IH; [constructor; [|constructor]|constructor; [|done]]; rewrite elem_of_cons; naive_solver set_solver.
Qed.

(** ** Order and sort.Strings *)
Definition str_le (a b : string) : Prop := String.ltb b a = false.
#[export] Instance str_le_dec : RelDecision str_le.
Proof. intros a b. unfold str_le. apply _. Defined.
Definition sort_strings (l : list string) : list string := merge_sort str_le l.

#[export] Instance str_le_total : Total str_le.
Proof.
  intros a b. unfold str_le, String.ltb. rewrite (String.compare_antisym a b).
  destruct (String.compare b a); cbn; auto.
Qed.
Lemma sort_strings_perm l : sort_strings l ≡ₚ l.
Proof. apply merge_sort_Permutation. Qed.
Lemma sort_strings_sorted l : Sorted str_le (sort_strings l).
Proof. apply Sorted_merge_sort, _. Qed.

End GoStrings.
