(* ===== verification/Queue.v ===== *)
(** The in-memory task queue, [src/backend/internal/queue/queue.go].

    Module [Queue] holds the state of [queue.Memory] and one definition per
    method; a method that runs with the lock held is one atomic function from
    the state to the next state and the effects it has (the callbacks and
    cancel functions it calls, in order).  The clock readings of one critical
    section are one argument [now].  The theorems about single operations and
    the invariant are here, the theorems about runs are in QueueRuns.v. *)
From Stdlib Require Import ZArith Lia.
From S2P Require Import Prelude.

Module Queue.

(** ** Data *)
Inductive State :=
  | StatePending | StateRunning | StateSucceeded | StateFailed | StateCanceled.

#[export] Instance State_eq_dec : EqDecision State.
Proof. solve_decision. Defined.

Record Task := mkTask {
  ID : string;
  Group : string;
  Name : string;
  Dependencies : list string;
  SoftDependencies : list string;
  LeaseTTL : Z;
  Run : option handle;
  OnCanceled : option handle;
  Pool : string;
  Capacity : option handle;
}.

(** [Entry] together with the unexported [entry] that embeds it. *)
Record entry := mkEntry {
  task : Task;
  state : State;
  leaseDeadline : Z;
  err : option goerr;
  startedAt : Z;
  completedAt : Z;
  cancel : option handle;
  counted : bool;
}.

(** The guarded fields of [Memory]; [wake] is the one-place channel
    [wakeCh]. *)
Record Memory := mkMemory {
  order : list string;
  entries : gmap string entry;
  running : gmap string Z;
  wake : bool;
}.

Definition NewMemory : Memory := mkMemory [] ∅ ∅ false.

(** Field updates. *)
Definition set_entries (f : gmap string entry -> gmap string entry) (m : Memory) : Memory :=
  mkMemory (order m) (f (entries m)) (running m) (wake m).
Definition put (id : string) (e : entry) (m : Memory) : Memory :=
  set_entries <[id := e]> m.

(** Reading a missing key of [map[string]int] gives 0. *)
Definition running_of (m : Memory) (pool : string) : Z := default 0 (running m !! pool).
Definition add_running (pool : string) (d : Z) (m : Memory) : Memory :=
  mkMemory (order m) (entries m) (<[pool := running_of m pool + d]> (running m)) (wake m).

Definition is_terminal (s : State) : bool :=
  match s with StateSucceeded | StateFailed | StateCanceled => true | _ => false end.

(** [signal]: the send never blocks, the channel has one place. *)
Definition signal (m : Memory) : Memory :=
  mkMemory (order m) (entries m) (running m) true.

(** ** Enqueue *)
Definition check_task (m : Memory) (t : Task) : option goerr :=
  if bool_decide (ID t = "") then Some (ErrText "task id is required")
  else if negb (bool_decide (is_Some (Run t))) then
    Some (ErrText "task run callback is required")
  else match entries m !! ID t with
       | Some _ => Some (ErrText "duplicate task")
       | None => None
       end.

Fixpoint check_tasks (m : Memory) (tasks : list Task) : option goerr :=
  match tasks with
  | [] => None
  | t :: rest =>
      match check_task m t with Some e => Some e | None => check_tasks m rest end
  end.

Definition new_entry (t : Task) : entry :=
  let leaseTTL := if LeaseTTL t <=? 0 then 10 * second else LeaseTTL t in
  mkEntry
    (mkTask (ID t) (Group t) (Name t) (Dependencies t) (SoftDependencies t)
            leaseTTL (Run t) (OnCanceled t) (Pool t) (Capacity t))
    StatePending 0 None 0 0 None false.

Definition enqueue_one (m : Memory) (t : Task) : Memory :=
  mkMemory (order m ++ [ID t]) (<[ID t := new_entry t]> (entries m))
           (running m) (wake m).

Definition Enqueue (tasks : list Task) (m : Memory) : Memory * option goerr :=
  match check_tasks m tasks with
  | Some e => (m, Some e)
  | None => (signal (foldl enqueue_one m tasks), None)
  end.

(** ** Cancellation *)
Definition with_state (s : State) (e : entry) : entry :=
  mkEntry (task e) s (leaseDeadline e) (err e) (startedAt e) (completedAt e)
          (cancel e) (counted e).

(** The three assignments that take a pending task to [StateCanceled]. *)
Definition cancel_pending (now : Z) (cause : goerr) (e : entry) : entry :=
  mkEntry (task e) StateCanceled (leaseDeadline e) (Some cause) (startedAt e) now
          (cancel e) (counted e).

Fixpoint cancel_group_loop (group : string) (now : Z) (ids : list string) (m : Memory)
    : Memory * list handle :=
  match ids with
  | [] => (m, [])
  | id :: rest =>
      match entries m !! id with
      | None => cancel_group_loop group now rest m
      | Some item =>
          if negb (bool_decide (Group (task item) = group)) then
            cancel_group_loop group now rest m
          else match state item with
          | StatePending =>
              cancel_group_loop group now rest
                (put id (cancel_pending now Canceled item) m)
          | StateRunning =>
              let '(m', calls) := cancel_group_loop group now rest m in
              (m', option_list (cancel item) ++ calls)
          | _ => cancel_group_loop group now rest m
          end
      end
  end.

Definition CancelGroup (group : string) (now : Z) (m : Memory) : Memory * list handle :=
  let '(m', calls) := cancel_group_loop group now (order m) m in
  (signal m', calls).

(** [CancelRunningGroup] changes no entry: it only calls cancel functions. *)
Definition CancelRunningGroup (group : string) (m : Memory) : list handle :=
  flat_map (fun id =>
    match entries m !! id with
    | Some item =>
        if negb (bool_decide (Group (task item) = group)) then []
        else if bool_decide (state item = StateRunning) then option_list (cancel item)
        else []
    | None => []
    end) (order m).

(** ** Observation *)
Definition Snapshot (m : Memory) : list entry := omap (fun id => entries m !! id) (order m).

(** The count of one state in the map [stateTallies] builds. *)
Definition stateTallies (m : Memory) (s : State) : Z :=
  foldl (fun n id => match entries m !! id with
                     | Some item => n + b2z (bool_decide (state item = s))
                     | None => n
                     end) 0 (order m).

(** ** Claiming *)

(** The verdict of the loops over a task's dependencies: every one is met,
    one is not there yet, or the task is cancelled with an error. *)
Inductive deps_verdict := DepsReady | DepsWait | DepsCancel (cause : goerr).

(** The loop over [item.Task.Dependencies]. *)
Fixpoint scan_hard (es : gmap string entry) (deps : list string) : deps_verdict :=
  match deps with
  | [] => DepsReady
  | dependency :: rest =>
      match es !! dependency with
      | None => DepsCancel (ErrText "dependency missing")
      | Some dep =>
          match state dep with
          | StatePending | StateRunning => DepsWait
          | StateFailed | StateCanceled =>
              DepsCancel (ErrText ("dependency " +:+ dependency +:+ " did not succeed"))
          | StateSucceeded => scan_hard es rest
          end
      end
  end.

(** The loop over [item.Task.SoftDependencies]. *)
Fixpoint scan_soft (es : gmap string entry) (deps : list string) : bool :=
  match deps with
  | [] => true
  | dependency :: rest =>
      match es !! dependency with
      | None => false
      | Some dep =>
          match state dep with
          | StatePending | StateRunning => false
          | _ => scan_soft es rest
          end
      end
  end.

(** What taking the task writes into its entry. *)
Definition start_entry (now : Z) (e : entry) : entry :=
  mkEntry (task e) StateRunning (now + LeaseTTL (task e)) (err e) now (completedAt e)
          (cancel e) true.

(** [item.Task.Capacity()]: [capf] says what each capacity function returns
    at this moment; a task without one has no limit. *)
Definition ask_capacity (capf : handle -> Z) (t : Task) : Z :=
  match Capacity t with Some h => capf h | None => 0 end.

(** The body of [claim] from one position of [m.order] on; [capacities] and
    [cbs] are its local variables. *)
Fixpoint claim_loop (capf : handle -> Z) (now : Z) (ids : list string) (m : Memory)
    (capacities : gmap string Z) (cbs : list handle)
    : Memory * list handle * option Task :=
  match ids with
  | [] => (m, cbs, None)
  | id :: rest =>
      match entries m !! id with
      | None => claim_loop capf now rest m capacities cbs
      | Some item =>
          if negb (bool_decide (state item = StatePending)) then
            claim_loop capf now rest m capacities cbs
          else match scan_hard (entries m) (Dependencies (task item)) with
          | DepsWait => claim_loop capf now rest m capacities cbs
          | DepsCancel cause =>
              claim_loop capf now rest (put id (cancel_pending now cause item) m)
                capacities (cbs ++ option_list (OnCanceled (task item)))
          | DepsReady =>
              if negb (scan_soft (entries m) (SoftDependencies (task item))) then
                claim_loop capf now rest m capacities cbs
              else
                let pool := Pool (task item) in
                let limit := match capacities !! pool with
                             | Some limit => limit
                             | None => ask_capacity capf (task item)
                             end in
                let capacities := <[pool := limit]> capacities in
                if (0 <? limit) && (limit <=? running_of m pool) then
                  claim_loop capf now rest m capacities cbs
                else
                  (put id (start_entry now item) (add_running pool 1 m), cbs,
                   Some (task item))
          end
      end
  end.

(** [claim]: the callbacks are called after the lock is released. *)
Definition claim (capf : handle -> Z) (now : Z) (m : Memory)
    : Memory * list handle * option Task :=
  claim_loop capf now (order m) m ∅ [].

(** ** Running tasks *)

(** [attachCancel]: a task that is no longer running is cancelled at once. *)
Definition attachCancel (id : string) (c : handle) (m : Memory) : Memory * list handle :=
  match entries m !! id with
  | None => (m, [c])
  | Some item =>
      if bool_decide (state item = StateRunning) then
        (put id (mkEntry (task item) (state item) (leaseDeadline item) (err item)
                         (startedAt item) (completedAt item) (Some c) (counted item)) m, [])
      else (m, [c])
  end.

(** One tick of [renewLease]. *)
Definition renewLease (id : string) (ttl now : Z) (m : Memory) : Memory :=
  match entries m !! id with
  | None => m
  | Some item =>
      if bool_decide (state item = StateRunning) then
        put id (mkEntry (task item) (state item) (now + ttl) (err item)
                        (startedAt item) (completedAt item) (cancel item) (counted item)) m
      else m
  end.

(** The state a task ends in, from the error its callback returned. *)
Definition final_state (e : option goerr) : State :=
  match e with
  | Some e => if errors_Is e Canceled then StateCanceled else StateFailed
  | None => StateSucceeded
  end.

Definition finish (id : string) (e : option goerr) (now : Z) (m : Memory) : Memory :=
  match entries m !! id with
  | None => m
  | Some item =>
      if is_terminal (state item) then m
      else
        let m1 := if counted item then add_running (Pool (task item)) (-1) m else m in
        signal (put id (mkEntry (task item) (final_state e) 0 e (startedAt item) now
                                None false) m1)
  end.

(** The part of a tick of [expiryLoop] under the lock: the ids to finish and
    the cancel functions called.  Go's map order is unspecified; the ids are
    finished one by one afterwards, each by a [finish] of its own. *)
Definition lease_expired (now : Z) (item : entry) : bool :=
  bool_decide (state item = StateRunning) && negb (IsZero (leaseDeadline item)) &&
  After now (leaseDeadline item).

Definition expiry_scan (now : Z) (m : Memory) : list string * list handle :=
  let expired := base.filter (fun p => lease_expired now p.2 = true) (map_to_list (entries m)) in
  (expired.*1, flat_map (fun p => option_list (cancel p.2)) expired).

Definition expiry_tick (now : Z) (m : Memory) : Memory :=
  foldl (fun m id => finish id (Some DeadlineExceeded) now m) m (expiry_scan now m).1.

(** ** Pruning *)
Definition prunable (group : string) (item : entry) : bool :=
  bool_decide (Group (task item) = group) && is_terminal (state item).

Definition PruneGroup (group : string) (m : Memory) : Memory :=
  let pruned := filter (fun p => prunable group p.2 = true) (entries m) in
  if bool_decide (pruned = ∅) then m
  else
    mkMemory (filter (fun id => pruned !! id = None) (order m))
             (filter (fun p => prunable group p.2 = false) (entries m))
             (running m) (wake m).

(** ** The invariant of the queue *)

(** The entries the running count of a pool stands for. *)
Definition in_pool (p : string) (e : entry) : bool :=
  counted e && bool_decide (Pool (task e) = p).

Record Inv (m : Memory) : Prop := {
  inv_id : forall id e, entries m !! id = Some e -> ID (task e) = id;
  inv_counted : forall id e, entries m !! id = Some e ->
    counted e = bool_decide (state e = StateRunning);
  inv_cancel : forall id e, entries m !! id = Some e ->
    is_Some (cancel e) -> state e = StateRunning;
  inv_running : forall p, running_of m p = tally (in_pool p) (entries m);
  inv_order : forall id, id ∈ order m <-> is_Some (entries m !! id);
}.

Create HintDb queue discriminated.

Lemma running_of_add p q d m :
  running_of (add_running p d m) q = running_of m q + (if decide (p = q) then d else 0).
Proof.
  unfold running_of, add_running; simpl. destruct (decide (p = q)) as [->|Hne].
  - by rewrite lookup_insert_eq.
  - rewrite lookup_insert_ne by done. lia.
Qed.

Lemma running_of_put id e p m : running_of (put id e m) p = running_of m p.
Proof. done. Qed.

Lemma Inv_signal m : Inv m -> Inv (signal m).
Proof. intros []. by constructor. Qed.
#[export] Hint Resolve Inv_signal : queue.

Lemma lookup_NewMemory id : entries NewMemory !! id = None.
Proof. apply (lookup_empty (M:=gmap string)). Qed.

Lemma Inv_NewMemory : Inv NewMemory.
Proof.
  split; try (intros id e He; rewrite lookup_NewMemory in He; done).
  - intros p. symmetry. apply tally_empty.
  - intros id. rewrite lookup_NewMemory. split; [intros H; by apply not_elem_of_nil in H|].
    by intros [e ?].
Qed.

(** Replacing an entry keeps the invariant when the running count of its pool
    is adjusted by the change of [counted]. *)
Lemma Inv_put_running m id e e' :
  Inv m -> entries m !! id = Some e -> task e' = task e ->
  counted e' = bool_decide (state e' = StateRunning) ->
  (is_Some (cancel e') -> state e' = StateRunning) ->
  Inv (put id e' (add_running (Pool (task e)) (b2z (counted e') - b2z (counted e)) m)).
Proof.
  intros [Hid Hct Hcan Hrun Hord] He Htask Hct' Hcan'. constructor; simpl.
  - intros i x. destruct (decide (i = id)) as [->|]; intros Hx; simplify_map_eq; eauto.
    rewrite Htask; eauto.
  - intros i x. destruct (decide (i = id)) as [->|]; intros Hx; simplify_map_eq; eauto.
  - intros i x. destruct (decide (i = id)) as [->|]; intros Hx; simplify_map_eq; eauto.
  - intros p. change (running_of (add_running (Pool (task e)) (b2z (counted e') - b2z (counted e)) m) p
      = tally (in_pool p) (<[id:=e']> (entries m))).
    rewrite running_of_add, Hrun, (tally_update _ _ _ _ _ He).
    unfold in_pool. rewrite Htask.
    destruct (decide (Pool (task e) = p)) as [Hp|Hp];
      [rewrite (bool_decide_eq_true_2 _ Hp)|rewrite (bool_decide_eq_false_2 _ Hp)];
      rewrite ?andb_true_r, ?andb_false_r; change (b2z false) with 0; lia.
  - intros i. rewrite Hord. destruct (decide (i = id)) as [->|]; simplify_map_eq; [|done].
    split; eauto.
Qed.

(** The same when [counted] does not change. *)
Lemma Inv_put m id e e' :
  Inv m -> entries m !! id = Some e -> task e' = task e -> counted e' = counted e ->
  counted e' = bool_decide (state e' = StateRunning) ->
  (is_Some (cancel e') -> state e' = StateRunning) ->
  Inv (put id e' m).
Proof.
  intros Hinv He Htask Hsame Hct Hcan.
  pose proof (Inv_put_running m id e e' Hinv He Htask Hct Hcan) as [].
  constructor; try done. intros p. rewrite <-inv_running0.
  change (running_of m p = running_of (add_running (Pool (task e)) (b2z (counted e') - b2z (counted e)) m) p).
  rewrite running_of_add, Hsame, Z.sub_diag. destruct (decide _); lia.
Qed.

Lemma Inv_cancel_pending m id e now cause :
  Inv m -> entries m !! id = Some e -> state e = StatePending ->
  Inv (put id (cancel_pending now cause e) m).
Proof.
  intros Hinv He Hs. eapply Inv_put; [done|done|done|done| |]; simpl.
  - rewrite (inv_counted _ Hinv _ _ He), Hs. done.
  - intros Hc. pose proof (inv_cancel _ Hinv _ _ He Hc). congruence.
Qed.
#[export] Hint Resolve Inv_cancel_pending : queue.

(** ** Enqueue *)
Lemma check_tasks_None m tasks :
  check_tasks m tasks = None <->
  Forall (fun t => ID t <> "" /\ is_Some (Run t) /\ entries m !! ID t = None) tasks.
Proof.
  induction tasks as [|t rest IH]; simpl; [by split|].
  rewrite Forall_cons, <-IH. unfold check_task.
  case_bool_decide; [naive_solver|]. case_bool_decide; simpl; [|naive_solver].
  destruct (entries m !! ID t); naive_solver.
Qed.

Lemma Inv_enqueue_one m t : Inv m -> entries m !! ID t = None -> Inv (enqueue_one m t).
Proof.
  intros [Hid Hct Hcan Hrun Hord] Hnew. constructor; simpl.
  - intros i x. destruct (decide (i = ID t)) as [->|]; intros Hx; simplify_map_eq; eauto.
  - intros i x. destruct (decide (i = ID t)) as [->|]; intros Hx; simplify_map_eq; eauto.
  - intros i x. destruct (decide (i = ID t)) as [->|]; intros Hx; simplify_map_eq; eauto.
    intros [? ?]; done.
  - intros p. rewrite tally_insert_new by done. simpl.
    change (running_of m p = tally (in_pool p) (entries m) + 0). rewrite Hrun. lia.
  - intros i. rewrite elem_of_app, list_elem_of_singleton, Hord.
    destruct (decide (i = ID t)) as [->|]; simplify_map_eq; split; eauto; naive_solver.
Qed.

(** A task whose id is already queued, but has not started, is replaced. *)
Lemma Inv_enqueue_over m t e :
  Inv m -> entries m !! ID t = Some e -> state e = StatePending -> Inv (enqueue_one m t).
Proof.
  intros [Hid Hct Hcan Hrun Hord] He Hs. constructor; simpl.
  - intros i x. destruct (decide (i = ID t)) as [->|]; intros Hx; simplify_map_eq; eauto.
  - intros i x. destruct (decide (i = ID t)) as [->|]; intros Hx; simplify_map_eq; eauto.
  - intros i x. destruct (decide (i = ID t)) as [->|]; intros Hx; simplify_map_eq; eauto.
    intros [? ?]; done.
  - intros p. rewrite (tally_update _ _ _ _ _ He).
    change (running_of m p = tally (in_pool p) (entries m)
      - b2z (counted e && bool_decide (Pool (task e) = p)) + 0).
    rewrite Hrun, (Hct _ _ He), Hs. simpl. lia.
  - intros i. rewrite elem_of_app, list_elem_of_singleton, Hord.
    destruct (decide (i = ID t)) as [->|]; simplify_map_eq; naive_solver.
Qed.

Lemma Inv_Enqueue tasks m : Inv m -> Inv (Enqueue tasks m).1.
Proof.
  intros Hinv. unfold Enqueue. destruct (check_tasks m tasks) eqn:Hc; [done|]. simpl.
  apply Inv_signal. apply check_tasks_None in Hc.
  assert (forall t, t ∈ tasks -> forall e, entries m !! ID t = Some e -> state e = StatePending)
    as Hpend.
  { intros t Ht e He. rewrite Forall_forall in Hc. apply Hc in Ht as (_ & _ & Hn). congruence. }
  clear Hc. revert m Hinv Hpend. induction tasks as [|t rest IH]; intros m Hinv Hpend; simpl; [done|].
  apply IH.
  - destruct (entries m !! ID t) as [e|] eqn:He; [|by apply Inv_enqueue_one].
    eapply Inv_enqueue_over; eauto. apply (Hpend t); [by left|done].
  - intros t' Ht' e'. simpl. destruct (decide (ID t' = ID t)) as [->|Hne].
    + rewrite lookup_insert_eq. by intros [= <-].
    + rewrite lookup_insert_ne by done. apply (Hpend t'). by right.
Qed.
#[export] Hint Resolve Inv_Enqueue : queue.

(** ** Cancellation and pruning keep the invariant *)
Lemma Inv_cancel_group_loop group now ids m :
  Inv m -> Inv (cancel_group_loop group now ids m).1.
Proof.
  revert m. induction ids as [|id rest IH]; intros m Hinv; simpl; [done|].
  destruct (entries m !! id) as [item|] eqn:He; [|auto].
  destruct (negb _); [auto|]. destruct (state item) eqn:Hs; auto with queue.
  specialize (IH m Hinv). by destruct (cancel_group_loop _ _ _ _).
Qed.

Lemma Inv_CancelGroup group now m : Inv m -> Inv (CancelGroup group now m).1.
Proof.
  intros Hinv. unfold CancelGroup. pose proof (Inv_cancel_group_loop group now (order m) m Hinv).
  destruct (cancel_group_loop _ _ _ _). by apply Inv_signal.
Qed.

Lemma Inv_PruneGroup group m : Inv m -> Inv (PruneGroup group m).
Proof.
  intros [Hid Hct Hcan Hrun Hord]. unfold PruneGroup. case_bool_decide; [done|].
  constructor; simpl.
  - intros i e He. apply map_lookup_filter_Some in He as [? _]. eauto.
  - intros i e He. apply map_lookup_filter_Some in He as [? _]. eauto.
  - intros i e He. apply map_lookup_filter_Some in He as [? _]. eauto.
  - intros p. rewrite tally_filter; [apply Hrun|].
    intros i e He Hin. simpl. unfold prunable, in_pool in *. bool_to_prop.
    rewrite (Hct _ _ He) in *. bool_to_prop.
    destruct (state e); try done. by rewrite andb_false_r.
  - intros i. rewrite list_elem_of_filter, Hord, map_lookup_filter_None.
    destruct (entries m !! i) as [e|] eqn:He.
    + split.
      * intros [Hn _]. exists e. apply map_lookup_filter_Some. split; [done|]. simpl.
        destruct (prunable group e) eqn:Hp; [|done]. exfalso.
        destruct Hn as [?|Hn]; [done|]. by apply (Hn e).
      * intros [e' He']. apply map_lookup_filter_Some in He' as [? Hp]. split; [|eauto].
        right. intros e'' ?. simplify_eq. simpl in *. congruence.
    + split; [by intros [_ [? ?]]|]. intros [e' He'].
      apply map_lookup_filter_Some in He' as [? _]. congruence.
Qed.
#[export] Hint Resolve Inv_CancelGroup Inv_PruneGroup : queue.

(** ** Running, renewing and finishing keep the invariant *)
Lemma Inv_finish id e now m : Inv m -> Inv (finish id e now m).
Proof.
  intros Hinv. unfold finish. destruct (entries m !! id) as [item|] eqn:He; [|done].
  destruct (is_terminal (state item)) eqn:Ht; [done|]. apply Inv_signal.
  assert (final_state e <> StateRunning) as Hfin.
  { unfold final_state. destruct e as [e|]; [destruct (errors_Is _ _)|]; done. }
  set (e' := mkEntry _ _ _ _ _ _ _ _).
  assert (counted e' = bool_decide (state e' = StateRunning)) as Hct.
  { simpl. by rewrite bool_decide_eq_false_2. }
  assert (is_Some (cancel e') -> state e' = StateRunning) as Hcan by (by intros [? ?]).
  destruct (counted item) eqn:Hc.
  - pose proof (Inv_put_running m id item e' Hinv He eq_refl Hct Hcan) as H.
    by rewrite Hc in H.
  - by eapply Inv_put.
Qed.

Lemma Inv_attachCancel id c m : Inv m -> Inv (attachCancel id c m).1.
Proof.
  intros Hinv. unfold attachCancel. destruct (entries m !! id) as [item|] eqn:He; [|done].
  case_bool_decide; [|done]. simpl.
  eapply Inv_put; [done|done|done|done|exact (inv_counted _ Hinv _ _ He)|done].
Qed.

Lemma Inv_renewLease id ttl now m : Inv m -> Inv (renewLease id ttl now m).
Proof.
  intros Hinv. unfold renewLease. destruct (entries m !! id) as [item|] eqn:He; [|done].
  case_bool_decide; [|done]. 
  eapply Inv_put; [done|done|done|done|exact (inv_counted _ Hinv _ _ He)|done].
Qed.
#[export] Hint Resolve Inv_finish Inv_attachCancel Inv_renewLease : queue.

Lemma Inv_expiry_tick now m : Inv m -> Inv (expiry_tick now m).
Proof.
  unfold expiry_tick. generalize (expiry_scan now m).1. intros ids. revert m.
  induction ids as [|id ids IH]; simpl; auto with queue.
Qed.
#[export] Hint Resolve Inv_expiry_tick : queue.

(** ** What one call of [claim] does *)

(** One cancellation made by [claim]: a pending task one of whose hard
    dependencies is missing or has ended without success. *)
Inductive cancel_step (now : Z) (m : Memory) : Memory -> Prop :=
  | cancel_step_intro id item cause :
      entries m !! id = Some item -> state item = StatePending ->
      scan_hard (entries m) (Dependencies (task item)) = DepsCancel cause ->
      cancel_step now m (put id (cancel_pending now cause item) m).

(** The start of a task: everything [claim] has checked when it takes it. *)
Inductive start_step (now : Z) (limit : Z) (t : Task) (m : Memory) : Memory -> Prop :=
  | start_step_intro id item :
      entries m !! id = Some item -> state item = StatePending -> task item = t ->
      scan_hard (entries m) (Dependencies t) = DepsReady ->
      scan_soft (entries m) (SoftDependencies t) = true ->
      (limit <= 0 \/ running_of m (Pool t) < limit) ->
      start_step now limit t m (put id (start_entry now item) (add_running (Pool t) 1 m)).

(** [P] is any property the capacities of the queued tasks have: the limit a
    task is started under has it too. *)
Lemma claim_loop_spec (P : string -> Z -> Prop) capf now ids m capacities cbs m' cbs' r :
  (forall id e, entries m !! id = Some e -> P (Pool (task e)) (ask_capacity capf (task e))) ->
  (forall pool limit, capacities !! pool = Some limit -> P pool limit) ->
  claim_loop capf now ids m capacities cbs = (m', cbs', r) ->
  exists m0, rtc (cancel_step now) m m0 /\
    match r with
    | None => m' = m0
    | Some t => exists limit, P (Pool t) limit /\ start_step now limit t m0 m'
    end.
Proof.
  revert m capacities cbs. induction ids as [|id rest IH]; simpl; intros m caps cbs HP Hcaps Heq.
  { simplify_eq. by exists m'. }
  destruct (entries m !! id) as [item|] eqn:He; [|by eapply IH].
  case_bool_decide as Hs; simpl in Heq; [|by eapply IH].
  destruct (scan_hard _ _) as [| |cause] eqn:Hh; [|by eapply IH|].
  - destruct (scan_soft _ _) eqn:Hsf; simpl in Heq; [|by eapply IH].
    set (limit := match caps !! _ with Some _ => _ | None => _ end) in *.
    assert (P (Pool (task item)) limit) as HPl.
    { unfold limit. destruct (caps !! _) eqn:Hl; [by apply Hcaps|by apply (HP id)]. }
    destruct ((0 <? limit) && _) eqn:Hl.
    + apply IH in Heq; [done|done|]. intros pool l.
      rewrite lookup_insert. case_decide; [intros [= <-]; congruence|apply Hcaps].
    + simplify_eq. exists m. split; [done|]. exists limit. split; [done|].
      econstructor; eauto. bool_to_prop. lia.
  - apply IH in Heq as (m0 & Hst & Hr); [| |done].
    + exists m0. split; [|done]. eapply rtc_l; [|done]. by econstructor.
    + intros i e. simpl. rewrite lookup_insert. case_decide as Hi; [intros [= <-]; simpl; by apply (HP id)|apply HP].
Qed.

Lemma claim_spec (P : string -> Z -> Prop) capf now m m' cbs r :
  (forall id e, entries m !! id = Some e -> P (Pool (task e)) (ask_capacity capf (task e))) ->
  claim capf now m = (m', cbs, r) ->
  exists m0, rtc (cancel_step now) m m0 /\
    match r with
    | None => m' = m0
    | Some t => exists limit, P (Pool t) limit /\ start_step now limit t m0 m'
    end.
Proof. intros HP. by apply claim_loop_spec. Qed.

Lemma Inv_cancel_steps now m m' : rtc (cancel_step now) m m' -> Inv m -> Inv m'.
Proof.
  induction 1 as [|m m1 m' Hst _ IH]; [done|]. intros Hinv. apply IH.
  destruct Hst. by apply Inv_cancel_pending.
Qed.

Lemma Inv_start_step now limit t m m' : start_step now limit t m m' -> Inv m -> Inv m'.
Proof.
  intros Hst Hinv. destruct Hst as [id item He Hs <- _ _ _].
  pose proof (inv_counted _ Hinv _ _ He) as Hct. rewrite Hs in Hct.
  change 1 with (b2z true - b2z false).
  replace false with (counted item) by (rewrite Hct; done).
  by apply (Inv_put_running m id item (start_entry now item)).
Qed.

Lemma Inv_claim capf now m : Inv m -> Inv (claim capf now m).1.1.
Proof.
  intros Hinv. destruct (claim capf now m) as [[m' cbs] r] eqn:Hc. simpl.
  apply (claim_spec (fun _ _ => True)) in Hc as (m0 & Hst & Hr); [|done]. pose proof (Inv_cancel_steps _ _ _ Hst Hinv).
  destruct r as [t|]; [|by subst]. destruct Hr as (limit & _ & Hr). by eapply Inv_start_step.
Qed.
#[export] Hint Resolve Inv_claim : queue.

(** ** Lease expiry *)
Lemma finish_lookup id e now m i :
  entries (finish id e now m) !! i =
    match entries m !! i with
    | Some item =>
        if decide (i = id) then
          if is_terminal (state item) then Some item
          else Some (mkEntry (task item) (final_state e) 0 e (startedAt item) now None false)
        else Some item
    | None => None
    end.
Proof.
  unfold finish. destruct (decide (i = id)) as [->|Hne].
  - destruct (entries m !! id) as [x|] eqn:Hx; [|by rewrite Hx].
    destruct (is_terminal (state x)); [done|]. apply lookup_insert_eq.
  - assert (entries m !! i = match entries m !! i with Some item => Some item | None => None end)
      as Heta by by destruct (entries m !! i).
    destruct (entries m !! id) as [x|]; [|done]. destruct (is_terminal (state x)); [done|].
    rewrite <-Heta. simpl. rewrite lookup_insert_ne by done. by destruct (counted x).
Qed.

Lemma finish_all_lookup ids e now m i :
  entries (foldl (fun m id => finish id e now m) m ids) !! i =
    match entries m !! i with
    | Some item =>
        if decide (i ∈ ids) then
          if is_terminal (state item) then Some item
          else Some (mkEntry (task item) (final_state e) 0 e (startedAt item) now None false)
        else Some item
    | None => None
    end.
Proof.
  revert m. induction ids as [|id ids IH]; intros m; cbn [foldl].
  { destruct (entries m !! i); [|done]. by rewrite decide_False by (by intros ?%not_elem_of_nil). }
  rewrite IH, finish_lookup. destruct (entries m !! i) as [x|]; [|done].
  assert (is_terminal (final_state e) = true) as Hf.
  { unfold final_state. destruct e as [er|]; [destruct (errors_Is _ _)|]; done. }
  destruct (decide (i = id)) as [->|Hne].
  - rewrite (decide_True (P := id ∈ id :: ids)) by by left.
    destruct (is_terminal (state x)) eqn:Ht; [by rewrite Ht; destruct (decide _)|].
    simpl. rewrite Hf. by destruct (decide _).
  - destruct (decide (i ∈ ids)) as [Hi|Hi].
    + by rewrite decide_True by by right.
    + rewrite decide_False; [done|]. by intros [->|?]%elem_of_cons.
Qed.

Lemma expiry_scan_elem now m id :
  id ∈ (expiry_scan now m).1 <->
  exists e, entries m !! id = Some e /\ lease_expired now e = true.
Proof.
  unfold expiry_scan. simpl. rewrite list_elem_of_fmap. split.
  - intros ([i e] & -> & Hin). apply list_elem_of_filter in Hin as [He Hin].
    apply elem_of_map_to_list in Hin. eauto.
  - intros (e & He & Hx). exists (id, e). split; [done|].
    apply list_elem_of_filter. split; [done|]. by apply elem_of_map_to_list.
Qed.

(** a tick of the expiry loop fails exactly the running tasks whose lease
    has run out, with [context.DeadlineExceeded], and touches no other. *)
Theorem expiry_tick_spec now m id :
  entries (expiry_tick now m) !! id =
    match entries m !! id with
    | Some e =>
        if lease_expired now e then
          Some (mkEntry (task e) StateFailed 0 (Some DeadlineExceeded) (startedAt e) now None false)
        else Some e
    | None => None
    end.
Proof.
  unfold expiry_tick. rewrite finish_all_lookup.
  destruct (entries m !! id) as [e|] eqn:He; [|done].
  destruct (decide (id ∈ _)) as [Hin|Hin].
  - apply expiry_scan_elem in Hin as (x & Hx & Hexp). simplify_eq. rewrite Hexp.
    unfold lease_expired in Hexp. bool_to_prop. by destruct (state e).
  - destruct (lease_expired now e) eqn:Hexp; [|done]. exfalso. apply Hin.
    apply expiry_scan_elem. eauto.
Qed.
End Queue.
