(* ===== verification/QueueRuns.v ===== *)
(** Runs of the task queue: the step relation of [queue.Memory], what holds in
    every reachable state, and the refinement of the scheduler to the verdict
    each task has by its dependencies alone. *)
From Stdlib Require Import ZArith Lia.
From S2P Require Import Prelude Queue.
Import Queue.

Module QueueRuns.

(** ** Steps *)

(** One critical section of one method, with any arguments.  [ok] restricts
    the tasks that are enqueued. *)
Inductive step (capf : handle -> Z) (ok : Task -> Prop) (m : Memory) : Memory -> Prop :=
  | step_enqueue tasks : Forall ok tasks -> step capf ok m (Enqueue tasks m).1
  | step_claim now : step capf ok m (claim capf now m).1.1
  | step_attachCancel id c : step capf ok m (attachCancel id c m).1
  | step_renewLease id ttl now : step capf ok m (renewLease id ttl now m)
  | step_finish id e now : step capf ok m (finish id e now m)
  | step_expiry now : step capf ok m (expiry_tick now m)
  | step_cancel group now : step capf ok m (CancelGroup group now m).1
  | step_prune group : step capf ok m (PruneGroup group m).

Definition reachable capf ok : Memory -> Prop := rtc (step capf ok) NewMemory.

Lemma Inv_step capf ok m m' : step capf ok m m' -> Inv m -> Inv m'.
Proof. destruct 1; auto with queue. Qed.

Lemma reachable_ind_r capf ok (P : Memory -> Prop) :
  P NewMemory -> (forall m m', reachable capf ok m -> P m -> step capf ok m m' -> P m') ->
  forall m, reachable capf ok m -> P m.
Proof.
  intros H0 Hstep. apply (rtc_ind_r P NewMemory H0).
  intros m m' Hr Hs HP. by eapply Hstep.
Qed.

Lemma reachable_Inv capf ok m : reachable capf ok m -> Inv m.
Proof.
  intros Hm. revert m Hm.
  apply reachable_ind_r; [apply Inv_NewMemory|]. intros m m' _ Hi Hs. by eapply Inv_step.
Qed.
#[export] Hint Resolve reachable_Inv : queue.

(** [e] is the queued form of a task that [ok] admits. *)
Definition admitted (ok : Task -> Prop) (m : Memory) : Prop :=
  forall id e, entries m !! id = Some e ->
    exists t, ok t /\ task e = task (new_entry t).

(** ** Finished entries are final *)
Definition preserves (id : string) (e : entry) (m : Memory) : Prop :=
  entries m !! id = Some e.

Lemma preserves_put id e i e' m :
  is_terminal (state e) = true -> preserves id e m ->
  (forall x, entries m !! i = Some x -> is_terminal (state x) = false) ->
  preserves id e (put i e' m).
Proof.
  intros Ht He Hi. unfold preserves in *. simpl. rewrite lookup_insert_ne; [done|].
  intros ->. rewrite (Hi _ He) in Ht. done.
Qed.

Lemma preserves_cancel_steps now m m' id e :
  is_terminal (state e) = true -> rtc (cancel_step now) m m' ->
  preserves id e m -> preserves id e m'.
Proof.
  intros Ht. induction 1 as [|m m1 m' Hst _ IH]; [done|]. intros He. apply IH.
  destruct Hst as [i item cause Hi Hs _]. apply preserves_put; [done|done|].
  intros x Hx. simplify_eq. by rewrite Hs.
Qed.

Lemma preserves_claim capf now m id e :
  is_terminal (state e) = true -> preserves id e m -> preserves id e (claim capf now m).1.1.
Proof.
  intros Ht He. destruct (claim capf now m) as [[m' cbs] r] eqn:Hc. simpl.
  apply (claim_spec (fun _ _ => True)) in Hc as (m0 & Hst & Hr); [|done].
  pose proof (preserves_cancel_steps _ _ _ _ _ Ht Hst He) as He0.
  destruct r as [t|]; [|by subst]. destruct Hr as (limit & _ & [i item Hi Hs _ _ _ _]).
  apply (preserves_put id e i _ (add_running (Pool t) 1 m0)); [done|done|]. simpl.
  intros x Hx. simplify_eq. by rewrite Hs.
Qed.

Lemma preserves_finish i err now m id e :
  is_terminal (state e) = true -> preserves id e m -> preserves id e (finish i err now m).
Proof.
  intros Ht He. unfold finish. destruct (entries m !! i) as [item|] eqn:Hi; [|done].
  destruct (is_terminal (state item)) eqn:Hit; [done|].
  destruct (counted item).
  - apply (preserves_put id e i _ (add_running (Pool (task item)) (-1) m)); [done|done|].
    simpl. intros x Hx. by simplify_eq.
  - apply (preserves_put id e i _ m); [done|done|]. intros x Hx. by simplify_eq.
Qed.

Lemma preserves_enqueue tasks m id e :
  preserves id e m -> preserves id e (Enqueue tasks m).1.
Proof.
  intros He. unfold Enqueue. destruct (check_tasks m tasks) eqn:Hc; [done|].
  apply check_tasks_None in Hc. unfold preserves in *. simpl.
  assert (Forall (fun t => ID t <> id) tasks) as Hne.
  { eapply Forall_impl; [done|]. simpl. intros t (_ & _ & Hn) Hid. rewrite Hid in Hn. congruence. }
  clear Hc. revert m He. induction Hne as [|t rest Ht _ IH]; simpl; intros m He; [done|].
  apply IH. simpl. by rewrite lookup_insert_ne.
Qed.

Lemma preserves_cancel_group_loop group now ids m id e :
  is_terminal (state e) = true -> preserves id e m ->
  preserves id e (cancel_group_loop group now ids m).1.
Proof.
  intros Ht. revert m. induction ids as [|i rest IH]; intros m He; simpl; [done|].
  destruct (entries m !! i) as [item|] eqn:Hi; [|auto].
  destruct (negb _); [auto|]. destruct (state item) eqn:Hs; auto.
  - apply IH, preserves_put; [done|done|]. intros x Hx. simplify_eq. by rewrite Hs.
  - specialize (IH m He). by destruct (cancel_group_loop _ _ _ _).
Qed.

Lemma preserves_step capf ok m m' id e :
  is_terminal (state e) = true -> preserves id e m -> step capf ok m m' ->
  preserves id e m' \/
  (exists group, m' = PruneGroup group m /\ Group (task e) = group /\ entries m' !! id = None).
Proof.
  intros Ht He Hs. destruct Hs as [tasks _|now|i c|i ttl now|i er now|now|group now|group];
    try (left; by auto using preserves_enqueue, preserves_claim, preserves_finish).
  - left. unfold attachCancel. destruct (entries m !! i) as [x|] eqn:Hi; [|done].
    case_bool_decide as Hx; [|done]. apply preserves_put; [done|done|].
    intros y Hy. simplify_eq. by rewrite Hx.
  - left. unfold renewLease. destruct (entries m !! i) as [x|] eqn:Hi; [|done].
    case_bool_decide as Hx; [|done]. apply preserves_put; [done|done|].
    intros y Hy. simplify_eq. by rewrite Hx.
  - left. unfold expiry_tick. generalize (expiry_scan now m).1. intros ids. revert m He.
    induction ids as [|x ids IH]; intros m He; simpl; auto using preserves_finish.
  - left. unfold CancelGroup.
    pose proof (preserves_cancel_group_loop group now (order m) m id e Ht He) as H.
    by destruct (cancel_group_loop _ _ _ _).
  - unfold PruneGroup, preserves in *. case_bool_decide as Hp; [by left|]. simpl.
    destruct (prunable group e) eqn:Hpr.
    + right. exists group. rewrite bool_decide_eq_false_2 by done. split; [done|].
      unfold prunable in Hpr. bool_to_prop. split; [done|].
      apply map_lookup_filter_None. right. intros x Hx. simplify_eq. simpl.
      unfold prunable. rewrite bool_decide_eq_true_2 by done. by rewrite Ht.
    + left. by apply map_lookup_filter_Some.
Qed.

(** ** Tasks keep what they were enqueued with *)
Lemma admitted_put ok m id e e' :
  admitted ok m -> entries m !! id = Some e -> task e' = task e -> admitted ok (put id e' m).
Proof.
  intros Had He Htask i x. simpl. rewrite lookup_insert. case_decide; [|apply Had].
  intros [= <-]. rewrite Htask. by eapply Had.
Qed.

Lemma admitted_cancel_steps ok now m m' :
  rtc (cancel_step now) m m' -> admitted ok m -> admitted ok m'.
Proof.
  induction 1 as [|m m1 m' Hst _ IH]; [done|]. intros Had. apply IH.
  destruct Hst. by eapply admitted_put.
Qed.

Lemma admitted_start_step ok now limit t m m' :
  start_step now limit t m m' -> admitted ok m -> admitted ok m'.
Proof.
  intros [id item Hi _ _ _ _ _] Had.
  by apply (admitted_put ok (add_running (Pool t) 1 m) id item).
Qed.

Lemma admitted_claim ok capf now m : admitted ok m -> admitted ok (claim capf now m).1.1.
Proof.
  intros Had. destruct (claim capf now m) as [[m' cbs] r] eqn:Hc. simpl.
  apply (claim_spec (fun _ _ => True)) in Hc as (m0 & Hst & Hr); [|done].
  apply (admitted_cancel_steps ok) in Hst; [|done].
  destruct r as [t|]; [|by subst]. destruct Hr as (limit & _ & Hr).
  by eapply admitted_start_step.
Qed.

Lemma admitted_finish ok id e now m : admitted ok m -> admitted ok (finish id e now m).
Proof.
  intros Had. unfold finish. destruct (entries m !! id) as [item|] eqn:Hi; [|done].
  destruct (is_terminal _); [done|]. destruct (counted item).
  - by apply (admitted_put ok (add_running (Pool (task item)) (-1) m) id item).
  - by apply (admitted_put ok m id item).
Qed.

Lemma admitted_Enqueue ok tasks m :
  Forall ok tasks -> admitted ok m -> admitted ok (Enqueue tasks m).1.
Proof.
  intros Hok Had. unfold Enqueue. destruct (check_tasks m tasks); [done|]. simpl.
  change (admitted ok (foldl enqueue_one m tasks)). revert m Had.
  induction Hok as [|t rest Ht _ IH]; simpl; intros m Had; [done|]. apply IH.
  intros i x. simpl. rewrite lookup_insert. case_decide; [|apply Had]. intros [= <-]. eauto.
Qed.

Lemma admitted_cancel_group_loop ok group now ids m :
  admitted ok m -> admitted ok (cancel_group_loop group now ids m).1.
Proof.
  revert m. induction ids as [|i rest IH]; intros m Had; simpl; [done|].
  destruct (entries m !! i) as [item|] eqn:Hi; [|auto].
  destruct (negb _); [auto|]. destruct (state item) eqn:Hs; auto.
  - apply IH. by eapply admitted_put.
  - specialize (IH m Had). by destruct (cancel_group_loop _ _ _ _).
Qed.

Lemma admitted_step capf ok m m' : step capf ok m m' -> admitted ok m -> admitted ok m'.
Proof.
  intros Hs Had. destruct Hs as [tasks Hok|now|i c|i ttl now|i er now|now|group now|group];
    auto using admitted_Enqueue, admitted_claim, admitted_finish.
  - unfold attachCancel. destruct (entries m !! i) as [x|] eqn:Hi; [|done].
    case_bool_decide; [|done]. by eapply admitted_put.
  - unfold renewLease. destruct (entries m !! i) as [x|] eqn:Hi; [|done].
    case_bool_decide; [|done]. by eapply admitted_put.
  - unfold expiry_tick. generalize (expiry_scan now m).1. intros ids. revert m Had.
    induction ids as [|x ids IH]; intros m Had; simpl; auto using admitted_finish.
  - unfold CancelGroup. pose proof (admitted_cancel_group_loop ok group now (order m) m Had).
    by destruct (cancel_group_loop _ _ _ _).
  - unfold PruneGroup. case_bool_decide; [done|]. intros i e. simpl.
    intros [He _]%map_lookup_filter_Some. by eapply Had.
Qed.

(** ** Pools never exceed their capacity *)

(** Every task of pool [p] has a capacity function, and it reports [c]. *)
Definition pool_capacity (capf : handle -> Z) (p : string) (c : Z) (t : Task) : Prop :=
  Pool t = p -> exists h, Capacity t = Some h /\ capf h = c.

(** The number of running tasks of a pool. *)
Definition running_tasks (p : string) (m : Memory) : Z :=
  tally (fun e => bool_decide (state e = StateRunning) && bool_decide (Pool (task e) = p))
    (entries m).

Lemma Inv_running_tasks m p : Inv m -> running_of m p = running_tasks p m.
Proof.
  intros Hinv. rewrite (inv_running _ Hinv). apply tally_ext. intros i e He.
  unfold in_pool. by rewrite (inv_counted _ Hinv _ _ He).
Qed.

(** A step either keeps or lowers the running count of a pool, or is a claim
    that starts one of its tasks below the capacity. *)
Lemma running_cancel_steps now m m' p :
  rtc (cancel_step now) m m' -> running_of m' p = running_of m p.
Proof. induction 1 as [|m m1 m' [] _ IH]; [done|]. by rewrite IH. Qed.

Lemma running_finish id e now m p :
  Inv m -> running_of (finish id e now m) p <= running_of m p.
Proof.
  intros Hinv. unfold finish. destruct (entries m !! id) as [item|] eqn:Hi; [|done].
  destruct (is_terminal _); [done|]. destruct (counted item); [|done].
  change (running_of (add_running (Pool (task item)) (-1) m) p <= running_of m p).
  rewrite running_of_add. destruct (decide _); lia.
Qed.

Lemma running_cancel_group_loop group now ids m p :
  running_of (cancel_group_loop group now ids m).1 p = running_of m p.
Proof.
  revert m. induction ids as [|i rest IH]; intros m; simpl; [done|].
  destruct (entries m !! i) as [item|]; [|auto]. destruct (negb _); [auto|].
  destruct (state item); auto.
  - by rewrite IH.
  - specialize (IH m). by destruct (cancel_group_loop _ _ _ _).
Qed.

Lemma running_Enqueue tasks m p : running_of (Enqueue tasks m).1 p = running_of m p.
Proof.
  unfold Enqueue. destruct (check_tasks m tasks); [done|]. simpl.
  change (running_of (foldl enqueue_one m tasks) p = running_of m p).
  revert m. induction tasks as [|t rest IH]; intros m; simpl; [done|]. by rewrite IH.
Qed.

Lemma capacity_step capf p c m m' :
  0 < c -> Inv m -> admitted (pool_capacity capf p c) m ->
  step capf (pool_capacity capf p c) m m' -> running_of m p <= c -> running_of m' p <= c.
Proof.
  intros Hc Hinv Had Hs Hle. destruct Hs as [tasks Hok|now|i h|i ttl now|i er now|now|group now|group].
  - by rewrite running_Enqueue.
  - destruct (claim capf now m) as [[m' cbs] r] eqn:Hcl. simpl.
    apply (claim_spec (fun pool limit => pool = p -> limit = c)) in Hcl as (m0 & Hst & Hr).
    + pose proof (running_cancel_steps _ _ _ p Hst) as H0. destruct r as [t|]; [|subst; lia].
      destruct Hr as (limit & HP & [id item _ _ _ _ _ Hlim]).
      change (running_of (add_running (Pool t) 1 m0) p <= c). rewrite running_of_add.
      destruct (decide (Pool t = p)) as [Hp|]; [|lia]. rewrite (HP Hp), Hp in Hlim. lia.
    + intros id e He Hp. apply Had in He as (t & Ht & Htask). unfold ask_capacity.
      rewrite Htask in Hp |- *. destruct (Ht Hp) as (h & Hh & Hcap). simpl. by rewrite Hh.
  - unfold attachCancel. destruct (entries m !! i) as [x|]; [|done]. by case_bool_decide.
  - unfold renewLease. destruct (entries m !! i) as [x|]; [|done]. by case_bool_decide.
  - pose proof (running_finish i er now m p Hinv). lia.
  - unfold expiry_tick. generalize (expiry_scan now m).1. intros ids. revert m Hinv Had Hle.
    induction ids as [|x ids IH]; intros m Hinv Had Hle; simpl; [done|].
    apply IH; auto using admitted_finish with queue.
    pose proof (running_finish x (Some DeadlineExceeded) now m p Hinv). lia.
  - unfold CancelGroup. pose proof (running_cancel_group_loop group now (order m) m p) as H.
    destruct (cancel_group_loop _ _ _ _) as [m1 calls]. simpl in *.
    change (running_of m1 p <= c). lia.
  - unfold PruneGroup. by case_bool_decide.
Qed.

Lemma reachable_admitted capf ok m : reachable capf ok m -> admitted ok m.
Proof.
  revert m. apply reachable_ind_r; [by intros id e He; rewrite lookup_NewMemory in He|].
  intros m m' _ Had Hs. by eapply admitted_step.
Qed.

(** ** What claim guarantees of the task it starts *)
Definition has_state (P : State -> Prop) (es : gmap string entry) (d : string) : Prop :=
  exists e, es !! d = Some e /\ P (state e).
Notation succeeded := (has_state (eq StateSucceeded)).
Notation ended := (has_state (fun s => is_terminal s = true)).

Lemma scan_hard_ready es deps : scan_hard es deps = DepsReady <-> Forall (succeeded es) deps.
Proof.
  induction deps as [|d rest IH]; simpl; [by split|].
  rewrite Forall_cons, <-IH. unfold has_state. destruct (es !! d) as [e|].
  - destruct (state e) eqn:Hs; split; try done; try (by intros [(e' & [= <-] & ?) _]; congruence).
    + eauto.
    + by intros [_ ?].
  - split; [done|]. by intros [(e & ? & _) _].
Qed.

Lemma scan_soft_true es deps : scan_soft es deps = true <-> Forall (ended es) deps.
Proof.
  induction deps as [|d rest IH]; simpl; [by split|].
  rewrite Forall_cons, <-IH. unfold has_state. destruct (es !! d) as [e|].
  - destruct (state e) eqn:Hs; split; try done;
      try (intros [(e' & [= <-] & He) _]; rewrite Hs in He; done);
      first [by intros [_ ?] | intros ?; split; [exists e; by rewrite Hs|done]].
  - split; [done|]. by intros [(e & ? & _) _].
Qed.

Lemma scan_hard_cancel es deps cause :
  scan_hard es deps = DepsCancel cause ->
  exists d, d ∈ deps /\ (es !! d = None \/
    exists e, es !! d = Some e /\ (state e = StateFailed \/ state e = StateCanceled)).
Proof.
  induction deps as [|d rest IH]; simpl; [done|].
  destruct (es !! d) as [e|] eqn:He.
  - destruct (state e) eqn:Hs; try done; intros H.
    + destruct (IH H) as (d' & ? & ?). exists d'. split; [by right|done].
    + exists d. split; [by left|]. eauto.
    + exists d. split; [by left|]. eauto.
  - intros _. exists d. split; [by left|]. by left.
Qed.

(** Without a missing or unfinished dependency the scan never waits. *)
Lemma scan_hard_no_wait es deps : Forall (ended es) deps -> scan_hard es deps <> DepsWait.
Proof.
  induction 1 as [|d rest (e & He & Ht) _ IH]; simpl; [done|].
  rewrite He. by destruct (state e).
Qed.

(** ** The properties of the queue *)

(** In every state the queue can reach, by any interleaving of its
    methods, [m.running] counts exactly the tasks in [StateRunning] of each
    pool: a slot is taken once and released once however a task ends. *)
Theorem running_count_exact capf ok m :
  reachable capf ok m -> forall p, running_of m p = running_tasks p m.
Proof. eauto using Inv_running_tasks with queue. Qed.

(** C21: A pool never runs more tasks than its capacity: when every task of the
    pool reports the capacity [c > 0], no interleaving of the queue's methods
    reaches a state with more than [c] of them running. *)
Theorem pool_capacity_respected capf p c m :
  0 < c -> reachable capf (pool_capacity capf p c) m -> running_tasks p m <= c.
Proof.
  intros Hc Hm. rewrite <-Inv_running_tasks by eauto with queue. revert m Hm.
  apply reachable_ind_r; [change (0 <= c); lia|].
  intros m m' Hr IH Hs. eapply (capacity_step capf p c m);
    [done|by eapply reachable_Inv|by eapply reachable_admitted|done|done].
Qed.

(** [claim] hands out a task only when all its dependencies have succeeded
    and all its soft dependencies have ended, and marks it running. *)
Theorem claim_dependencies capf ok now m m' cbs t :
  reachable capf ok m -> claim capf now m = (m', cbs, Some t) ->
  (exists e, entries m' !! ID t = Some e /\ task e = t /\ state e = StateRunning) /\
  Forall (succeeded (entries m')) (Dependencies t) /\
  Forall (ended (entries m')) (SoftDependencies t).
Proof.
  intros Hm%reachable_Inv Hc.
  apply (claim_spec (fun _ _ => True)) in Hc as (m0 & Hst & limit & _ & Hr); [|done].
  pose proof (Inv_cancel_steps _ _ _ Hst Hm) as Hinv.
  destruct Hr as [id item He Hs Htask Hh Hsoft _].
  pose proof (inv_id _ Hinv _ _ He) as Hid. rewrite Htask in Hid. subst id.
  split; [exists (start_entry now item); split; [apply lookup_insert_eq|done]|].
  split.
  - apply scan_hard_ready in Hh. eapply Forall_impl; [done|]. intros d (x & Hx & Hxs).
    exists x. split; [|done]. simpl. rewrite lookup_insert_ne; [done|]. intros <-. congruence.
  - apply scan_soft_true in Hsoft. eapply Forall_impl; [done|]. intros d (x & Hx & Hxs).
    exists x. split; [|done]. simpl. rewrite lookup_insert_ne; [done|]. intros <-.
    simplify_eq. by rewrite Hs in Hxs.
Qed.

(** A task that has succeeded, failed or been cancelled is final: no
    method changes its entry any more, and only [PruneGroup] of its own group
    removes it. *)
Theorem finished_entries_final capf ok m m' id e :
  entries m !! id = Some e -> is_terminal (state e) = true -> step capf ok m m' ->
  entries m' !! id = Some e \/
  (m' = PruneGroup (Group (task e)) m /\ entries m' !! id = None).
Proof.
  intros He Ht Hs. destruct (preserves_step _ _ _ _ _ _ Ht He Hs) as [|(g & -> & <- & Hn)]; auto.
Qed.

(** The duplicate check looks at the queue only, not at the batch: two
    tasks with one id in the same call are both accepted, the second takes the
    first one's entry and the id is listed twice, so [Snapshot] reports the
    task twice. *)
Theorem enqueue_accepts_duplicates_in_batch capf ok t m :
  reachable capf ok m -> ID t <> "" -> is_Some (Run t) -> entries m !! ID t = None ->
  (Enqueue [t; t] m).2 = None /\
  order (Enqueue [t; t] m).1 = order m ++ [ID t; ID t] /\
  Snapshot (Enqueue [t; t] m).1 = Snapshot m ++ [new_entry t; new_entry t].
Proof.
  intros Hinv%reachable_Inv Hid Hrun Hnew.
  assert (check_tasks m [t; t] = None) as Hc by (apply check_tasks_None; by repeat constructor).
  unfold Enqueue. rewrite Hc. split; [done|].
  split; [simpl; by rewrite <-app_assoc|].
  unfold Snapshot. simpl. rewrite insert_insert_eq, <-app_assoc, omap_app. simpl.
  rewrite lookup_insert_eq. f_equal.
  assert (ID t ∉ order m) as Hn.
  { rewrite (inv_order _ Hinv), Hnew. by intros [? ?]. }
  clear -Hn. induction (order m) as [|i l IH]; [done|]. apply not_elem_of_cons in Hn as [Hi Hn].
  csimpl. rewrite lookup_insert_ne by done. by rewrite IH.
Qed.

(** A queue with two tasks of a pool of one, the second after the first. *)
Definition demo_task (id : string) (deps : list string) : Task :=
  mkTask id "run-1" id deps [] (8 * second) (Some 0%nat) None "local" (Some 7%nat).
Definition demo_capacity (_ : handle) : Z := 1.
Definition demo_tasks : list Task := [demo_task "a" []; demo_task "b" ["a"]].
Definition demo_queued : Memory := (Enqueue demo_tasks NewMemory).1.
Definition demo_started : Memory := (claim demo_capacity 5 demo_queued).1.1.

Lemma demo_started_reachable ok : Forall ok demo_tasks -> reachable demo_capacity ok demo_started.
Proof.
  intros Hok. eapply rtc_l; [by apply (step_enqueue demo_capacity ok NewMemory demo_tasks)|].
  eapply rtc_l; [apply (step_claim demo_capacity ok _ 5)|]. constructor.
Qed.

Lemma demo_pool : Forall (pool_capacity demo_capacity "local" 1) demo_tasks.
Proof. repeat constructor; intros _; exists 7%nat; done. Qed.

Lemma running_count_exact_witness :
  reachable demo_capacity (fun _ => True) demo_started /\
  running_of demo_started "local" = running_tasks "local" demo_started /\
  running_of demo_started "local" = 1.
Proof.
  assert (reachable demo_capacity (fun _ => True) demo_started) as Hr
    by by apply demo_started_reachable; repeat constructor.
  split; [exact Hr|]. split; [|vm_compute; reflexivity].
  exact (running_count_exact demo_capacity (fun _ => True) demo_started Hr "local").
Defined.

Lemma pool_capacity_respected_witness : running_tasks "local" demo_started <= 1.
Proof.
  apply (pool_capacity_respected demo_capacity "local" 1).
  - lia.
  - apply demo_started_reachable, demo_pool.
Defined.

Lemma claim_dependencies_witness :
  exists m' cbs,
    claim demo_capacity 9 (finish "a" None 8 demo_started) = (m', cbs, Some (demo_task "b" ["a"])) /\
    Forall (succeeded (entries m')) ["a"].
Proof.
  destruct (claim demo_capacity 9 (finish "a" None 8 demo_started)) as [[m' cbs] r] eqn:Hc.
  assert (r = Some (demo_task "b" ["a"])) as ->.
  { revert Hc. vm_compute. intros [= _ _ <-]. reflexivity. }
  exists m', cbs. split; [reflexivity|].
  eapply (claim_dependencies demo_capacity (fun _ => True) 9 (finish "a" None 8 demo_started)
            m' cbs (demo_task "b" ["a"])); [|exact Hc].
  eapply rtc_r; [apply demo_started_reachable; repeat constructor|apply step_finish].
Defined.

Lemma finished_entries_final_witness :
  exists e, entries (finish "a" None 8 demo_started) !! "a" = Some e /\
    (entries (finish "a" (Some Canceled) 9 (finish "a" None 8 demo_started)) !! "a" = Some e \/
     (finish "a" (Some Canceled) 9 (finish "a" None 8 demo_started) =
        PruneGroup (Group (task e)) (finish "a" None 8 demo_started) /\
      entries (finish "a" (Some Canceled) 9 (finish "a" None 8 demo_started)) !! "a" = None)).
Proof.
  destruct (entries (finish "a" None 8 demo_started) !! "a") as [e|] eqn:He;
    [|vm_compute in He; discriminate He].
  exists e. split; [reflexivity|].
  apply (finished_entries_final demo_capacity (fun _ => True)); [exact He| |apply step_finish].
  vm_compute in He. injection He as <-. reflexivity.
Defined.

Lemma enqueue_accepts_duplicates_in_batch_witness :
  order (Enqueue [demo_task "a" []; demo_task "a" []] NewMemory).1 = ["a"; "a"].
Proof.
  destruct (enqueue_accepts_duplicates_in_batch demo_capacity (fun _ => True) (demo_task "a" [])
    NewMemory) as (_ & Ho & _).
  - constructor.
  - discriminate.
  - by exists 0%nat.
  - reflexivity.
  - exact Ho.
Defined.
End QueueRuns.
