(* ===== verification/QueueVerdict.v ===== *)
(** The scheduler against its specification: the state a task must end in is a
    function of the tasks' results and of the dependencies alone
    ([verdicts]), and every run of the queue, whatever the interleaving and
    the capacities, agrees with it.  Dispatch.v shows that it is reached. *)
From Stdlib Require Import ZArith Lia.
From S2P Require Import Prelude Queue QueueRuns.
Import Queue QueueRuns.

Module QueueVerdict.

(** ** Batches in dependency order *)

(** Every dependency names an earlier task, and ids are not repeated: the
    order in which a resolved topology is enqueued. *)
Fixpoint topo_ordered (seen : list string) (tasks : list Task) : bool :=
  match tasks with
  | [] => true
  | t :: rest =>
      bool_decide (Forall (fun d => d ∈ seen) (Dependencies t ++ SoftDependencies t)) &&
      bool_decide (ID t ∉ seen) &&
      topo_ordered (seen ++ [ID t]) rest
  end.

Lemma topo_ordered_cons seen t rest :
  topo_ordered seen (t :: rest) = true <->
  (forall d, d ∈ Dependencies t ++ SoftDependencies t -> d ∈ seen) /\ ID t ∉ seen /\
  topo_ordered (seen ++ [ID t]) rest = true.
Proof.
  cbn [topo_ordered]. rewrite !andb_true_iff, !bool_decide_eq_true, Forall_forall. tauto.
Qed.

Lemma topo_ordered_deps seen tasks t d :
  topo_ordered seen tasks = true -> t ∈ tasks -> d ∈ Dependencies t ++ SoftDependencies t ->
  d ∈ seen \/ exists t', t' ∈ tasks /\ ID t' = d.
Proof.
  revert seen. induction tasks as [|x rest IH]; intros seen.
  { intros _ Ht. by apply not_elem_of_nil in Ht. }
  intros (Hdeps & _ & Hrest)%topo_ordered_cons Ht Hd. apply elem_of_cons in Ht as [->|Ht].
  - left. auto.
  - destruct (IH _ Hrest Ht Hd) as [Hs|(t' & ? & ?)].
    + apply elem_of_app in Hs as [|Hs]; [by left|].
      apply list_elem_of_singleton in Hs. right. exists x. split; [by left|done].
    + right. exists t'. split; [by right|done].
Qed.

Lemma topo_ordered_seen seen tasks t :
  topo_ordered seen tasks = true -> t ∈ tasks -> ID t ∉ seen.
Proof.
  revert seen. induction tasks as [|x rest IH]; intros seen.
  { intros _ Ht. by apply not_elem_of_nil in Ht. }
  intros (_ & Hx & Hrest)%topo_ordered_cons Ht. apply elem_of_cons in Ht as [->|Ht]; [done|].
  intros Hs. apply (IH _ Hrest Ht). apply elem_of_app. by left.
Qed.

(** ** The specification *)
Section Verdict.
Variable outcome : string -> option goerr.

(** What a task ends in once its dependencies have: cancelled unless all of
    them succeeded, and otherwise what its own callback returns. *)
Definition verdict (vs : gmap string State) (t : Task) : State :=
  if bool_decide (Forall (fun d => vs !! d = Some StateSucceeded) (Dependencies t))
  then final_state (outcome (ID t)) else StateCanceled.

Fixpoint verdicts_from (vs : gmap string State) (tasks : list Task) : gmap string State :=
  match tasks with
  | [] => vs
  | t :: rest => verdicts_from (<[ID t := verdict vs t]> vs) rest
  end.

Definition verdicts (tasks : list Task) : gmap string State := verdicts_from ∅ tasks.

Lemma verdicts_from_seen seen tasks vs id :
  topo_ordered seen tasks = true -> id ∈ seen ->
  verdicts_from vs tasks !! id = vs !! id.
Proof.
  revert seen vs. induction tasks as [|t rest IH]; intros seen vs; [done|].
  intros (_ & Ht & Hrest)%topo_ordered_cons Hid. simpl. rewrite (IH (seen ++ [ID t])); [|done|by apply elem_of_app; left].
  apply lookup_insert_ne. by intros <-.
Qed.

Lemma verdict_ext vs vs' t :
  (forall d, d ∈ Dependencies t -> vs !! d = vs' !! d) -> verdict vs t = verdict vs' t.
Proof.
  intros H. unfold verdict. erewrite bool_decide_ext; [done|]. rewrite !Forall_forall.
  split; intros HF d Hd; [rewrite <-H|rewrite H]; auto.
Qed.

(** The fold solves the recursive equation of the verdicts. *)
Lemma verdicts_from_eq seen tasks vs t :
  topo_ordered seen tasks = true -> t ∈ tasks ->
  verdicts_from vs tasks !! ID t = Some (verdict (verdicts_from vs tasks) t).
Proof.
  revert seen vs. induction tasks as [|x rest IH]; intros seen vs.
  { intros _ Ht. by apply not_elem_of_nil in Ht. }
  intros (Hdeps & Hx & Hrest)%topo_ordered_cons Ht. simpl.
  apply elem_of_cons in Ht as [->|Ht]; [|by eapply IH].
  rewrite (verdicts_from_seen (seen ++ [ID x])), lookup_insert_eq;
    [|done|by apply elem_of_app; right; left]. f_equal. apply verdict_ext. intros d Hd.
  assert (d ∈ seen) as Hds by (apply Hdeps, elem_of_app; by left).
  rewrite (verdicts_from_seen (seen ++ [ID x])); [|done|by apply elem_of_app; left].
  rewrite lookup_insert_ne; [done|]. by intros <-.
Qed.

(** ** Runs of a batch *)

(** The steps of the dispatcher and of the task goroutines when nothing is
    cancelled from outside: claims under any capacities, and the end of a
    running task with its own result. *)
Inductive run_step (m : Memory) : Memory -> Prop :=
  | run_claim capf now : run_step m (claim capf now m).1.1
  | run_finish id e now :
      entries m !! id = Some e -> state e = StateRunning ->
      run_step m (finish id (outcome id) now m).

Variable tasks : list Task.
Hypothesis Htopo : topo_ordered [] tasks = true.

Record RInv (m : Memory) : Prop := {
  ri_inv : Inv m;
  ri_order : order m = ID <$> tasks;
  ri_task : forall id e, entries m !! id = Some e ->
    exists t, t ∈ tasks /\ ID t = id /\ task e = task (new_entry t);
  ri_verdict : forall id e, entries m !! id = Some e -> is_terminal (state e) = true ->
    verdicts tasks !! id = Some (state e);
  ri_running : forall id e, entries m !! id = Some e -> state e = StateRunning ->
    Forall (succeeded (entries m)) (Dependencies (task e));
}.

Lemma RInv_present m t : RInv m -> t ∈ tasks -> is_Some (entries m !! ID t).
Proof.
  intros H Ht. apply (inv_order _ (ri_inv _ H)). rewrite (ri_order _ H).
  by apply list_elem_of_fmap_2.
Qed.

Lemma succeeded_verdict m id : RInv m -> succeeded (entries m) id ->
  verdicts tasks !! id = Some StateSucceeded.
Proof.
  intros H (e & He & Hs). rewrite (ri_verdict _ H _ _ He) by by rewrite <-Hs. by rewrite Hs.
Qed.

(** A task all of whose dependencies have succeeded gets its own result. *)
Lemma verdict_own m id e : RInv m -> entries m !! id = Some e ->
  Forall (succeeded (entries m)) (Dependencies (task e)) ->
  verdicts tasks !! id = Some (final_state (outcome id)).
Proof.
  intros H He HF. destruct (ri_task _ H _ _ He) as (t & Ht & <- & Htask).
  unfold verdicts. rewrite (verdicts_from_eq [] tasks ∅ t Htopo Ht). f_equal.
  unfold verdict. rewrite bool_decide_eq_true_2; [done|].
  rewrite Htask in HF. simpl in HF. eapply Forall_impl; [done|]. simpl.
  intros d Hd. by eapply succeeded_verdict.
Qed.

(** A task one of whose dependencies has ended without success is cancelled. *)
Lemma verdict_cancelled m id e cause : RInv m -> entries m !! id = Some e ->
  scan_hard (entries m) (Dependencies (task e)) = DepsCancel cause ->
  verdicts tasks !! id = Some StateCanceled.
Proof.
  intros H He (d & Hd & Hbad)%scan_hard_cancel.
  destruct (ri_task _ H _ _ He) as (t & Ht & <- & Htask). rewrite Htask in Hd. simpl in Hd.
  unfold verdicts. rewrite (verdicts_from_eq [] tasks ∅ t Htopo Ht). f_equal.
  unfold verdict. rewrite bool_decide_eq_false_2; [done|].
  rewrite Forall_forall. intros HF. specialize (HF d Hd).
  destruct Hbad as [Hnone|(e' & He' & Hs)].
  - destruct (topo_ordered_deps [] tasks t d Htopo Ht) as [Hn|(t' & Ht' & Hid)].
    + apply elem_of_app. by left.
    + by apply not_elem_of_nil in Hn.
    + destruct (RInv_present _ _ H Ht') as [? ?]. congruence.
  - assert (verdicts tasks !! d = Some (state e')) as Hv.
    { apply (ri_verdict _ H _ _ He'). by destruct Hs as [-> | ->]. }
    unfold verdicts in Hv. rewrite Hv in HF. destruct Hs; congruence.
Qed.

(** ** Every step keeps the agreement with the specification *)
Lemma succeeded_mono m m' d :
  (forall id e, is_terminal (state e) = true -> preserves id e m -> preserves id e m') ->
  succeeded (entries m) d -> succeeded (entries m') d.
Proof. intros Hp (e & He & Hs). exists e. split; [|done]. apply Hp; [by rewrite <-Hs|done]. Qed.

(** Replacing one entry keeps [RInv] when the new entry agrees with it. *)
Lemma RInv_put m m' id e e' :
  RInv m -> Inv m' -> order m' = order m ->
  entries m' = <[id := e']> (entries m) -> entries m !! id = Some e ->
  is_terminal (state e) = false -> task e' = task e ->
  (is_terminal (state e') = true -> verdicts tasks !! id = Some (state e')) ->
  (state e' = StateRunning -> Forall (succeeded (entries m)) (Dependencies (task e))) ->
  RInv m'.
Proof.
  intros H Hinv Hord Hes He Ht Htask Hv Hr.
  assert (forall d, succeeded (entries m) d -> succeeded (entries m') d) as Hmono.
  { intros d. apply succeeded_mono. intros i x Hx Hi. unfold preserves in *.
    rewrite Hes, lookup_insert_ne; [done|]. intros <-. congruence. }
  constructor; [done|by rewrite Hord; apply ri_order| | |].
  - intros i x. rewrite Hes, lookup_insert. case_decide as Hi; [|by apply ri_task].
    intros [= <-]. subst. rewrite Htask. by apply (ri_task _ H).
  - intros i x. rewrite Hes, lookup_insert. case_decide as Hi; [|by apply ri_verdict].
    intros [= <-]. by subst.
  - intros i x Hi Hx. eapply Forall_impl; [|exact Hmono]. revert Hi.
    rewrite Hes, lookup_insert. case_decide as Hii; [|intros; by eapply ri_running].
    intros [= <-]. rewrite Htask. auto.
Qed.

Lemma RInv_cancel_step now m m' : cancel_step now m m' -> RInv m -> RInv m'.
Proof.
  intros [id item cause He Hs Hscan] H.
  eapply (RInv_put m _ id item); [done| |done|done|done|by rewrite Hs|done| |done].
  - apply Inv_cancel_pending; [by apply ri_inv|done|done].
  - intros _. by eapply verdict_cancelled.
Qed.

Lemma RInv_cancel_steps now m m' : rtc (cancel_step now) m m' -> RInv m -> RInv m'.
Proof. induction 1; eauto using RInv_cancel_step. Qed.

Lemma RInv_start_step now limit t m m' : start_step now limit t m m' -> RInv m -> RInv m'.
Proof.
  intros Hst H. pose proof (Inv_start_step _ _ _ _ _ Hst (ri_inv _ H)) as Hinv.
  destruct Hst as [id item He Hs Htask Hh _ _].
  eapply (RInv_put m _ id item); [done|done|done|done|done|by rewrite Hs|done|done|].
  intros _. rewrite Htask. by apply scan_hard_ready.
Qed.

Lemma RInv_finish id e now m :
  RInv m -> entries m !! id = Some e -> state e = StateRunning ->
  RInv (finish id (outcome id) now m).
Proof.
  intros H He Hs. pose proof (Inv_finish id (outcome id) now m (ri_inv _ H)) as Hinv.
  unfold finish in *. rewrite He, Hs in *. simpl in *.
  set (e' := mkEntry (task e) (final_state (outcome id)) 0 (outcome id) (startedAt e) now None
    false) in *.
  apply (RInv_put m _ id e e'); [done|done| | |done|by rewrite Hs|done| |].
  - by destruct (counted e).
  - by destruct (counted e).
  - intros _. simpl. apply (verdict_own m id e); [done|done|]. by eapply ri_running.
  - simpl. unfold final_state. destruct (outcome id) as [er|]; [destruct (errors_Is _ _)|]; done.
Qed.

Lemma RInv_claim capf now m : RInv m -> RInv (claim capf now m).1.1.
Proof.
  intros H. destruct (claim capf now m) as [[m' cbs] r] eqn:Hc. simpl.
  apply (claim_spec (fun _ _ => True)) in Hc as (m0 & Hst & Hr); [|done].
  pose proof (RInv_cancel_steps _ _ _ Hst H). destruct r as [t|]; [|by subst].
  destruct Hr as (limit & _ & Hr). by eapply RInv_start_step.
Qed.

Lemma RInv_run m m' : rtc run_step m m' -> RInv m -> RInv m'.
Proof.
  induction 1 as [|m m1 m' Hst _ IH]; [done|]. intros H. apply IH.
  destruct Hst; [by apply RInv_claim|by eapply RInv_finish].
Qed.

(** The memory a batch starts from. *)
Lemma foldl_enqueue_lookup ts seen m id :
  topo_ordered seen ts = true ->
  entries (foldl enqueue_one m ts) !! id =
    match list_find (fun t => ID t = id) ts with
    | Some (_, t) => Some (new_entry t)
    | None => entries m !! id
    end.
Proof.
  revert seen m. induction ts as [|t rest IH]; intros seen m Ht; [done|].
  pose proof (topo_ordered_cons seen t rest) as [Hc _]. destruct (Hc Ht) as (_ & Hid & Hrest).
  simpl. rewrite (IH (seen ++ [ID t])) by done. destruct (decide (ID t = id)) as [<-|Hne].
  - destruct (list_find (fun t' => ID t' = ID t) rest) as [[i t']|] eqn:Hf; simpl.
    + apply list_find_Some in Hf as (Hl & He & _).
      apply list_elem_of_lookup_2 in Hl. exfalso.
      apply (topo_ordered_seen _ _ _ Hrest Hl). rewrite He. apply elem_of_app. right. by left.
    + by rewrite lookup_insert_eq.
  - destruct (list_find (fun t' => ID t' = id) rest) as [[i t']|]; simpl; [done|].
    by rewrite lookup_insert_ne.
Qed.

Lemma foldl_enqueue_order ts m : order (foldl enqueue_one m ts) = order m ++ (ID <$> ts).
Proof.
  revert m. induction ts as [|t rest IH]; intros m; simpl; [by rewrite app_nil_r|].
  rewrite IH. simpl. by rewrite <-app_assoc.
Qed.

Lemma RInv_start m : Enqueue tasks NewMemory = (m, None) -> RInv m.
Proof.
  intros Heq. pose proof (Inv_Enqueue tasks NewMemory Inv_NewMemory) as Hinv.
  rewrite Heq in Hinv. simpl in Hinv. unfold Enqueue in Heq.
  destruct (check_tasks NewMemory tasks); [done|]. injection Heq as <-.
  assert (forall id e, entries (signal (foldl enqueue_one NewMemory tasks)) !! id = Some e ->
    exists t, t ∈ tasks /\ ID t = id /\ e = new_entry t) as Hnew.
  { intros id e. change (entries (foldl enqueue_one NewMemory tasks) !! id = Some e -> 
      exists t, t ∈ tasks /\ ID t = id /\ e = new_entry t).
    rewrite (foldl_enqueue_lookup tasks [] NewMemory id Htopo).
    destruct (list_find (fun t => ID t = id) tasks) as [[i t]|] eqn:Hf.
    - apply list_find_Some in Hf as (Hl & Hid & _). intros [= <-].
      apply list_elem_of_lookup_2 in Hl. eauto.
    - by rewrite lookup_NewMemory. }
  constructor; [done| | | |].
  - apply foldl_enqueue_order.
  - intros id e (t & Ht & Hid & ->)%Hnew. eauto.
  - by intros id e (t & Ht & Hid & ->)%Hnew.
  - by intros id e (t & Ht & Hid & ->)%Hnew.
Qed.

(** ** Progress: with nothing running, a claim starts a task or all is over *)
Definition idle (m : Memory) : Prop :=
  forall id e, entries m !! id = Some e -> state e <> StateRunning.

Lemma idle_running_of m p : RInv m -> idle m -> running_of m p = 0.
Proof.
  intros H Hidle. rewrite (inv_running _ (ri_inv _ H)). apply tally_none.
  intros i e He. unfold in_pool. rewrite (inv_counted _ (ri_inv _ H) _ _ He).
  by rewrite bool_decide_eq_false_2 by by eapply Hidle.
Qed.

Lemma ended_put_ne es d id e : d <> id -> ended es d -> ended (<[id := e]> es) d.
Proof. intros Hne (x & Hx & Ht). exists x. by rewrite lookup_insert_ne. Qed.

Lemma claim_loop_None capf now seen ts m caps cbs m' cbs' :
  topo_ordered seen ts = true ->
  Forall (ended (entries m)) seen ->
  (forall p, running_of m p = 0) ->
  (forall t, t ∈ ts -> exists e, entries m !! ID t = Some e /\
     task e = task (new_entry t) /\ state e <> StateRunning) ->
  claim_loop capf now (ID <$> ts) m caps cbs = (m', cbs', None) ->
  Forall (ended (entries m')) (seen ++ (ID <$> ts)).
Proof.
  revert seen m caps cbs. induction ts as [|t rest IH]; intros seen m caps cbs.
  { simpl. intros _ Hs _ _ [= <- <-]. by rewrite app_nil_r. }
  intros (Hdeps & Hid & Hrest)%topo_ordered_cons Hseen Hrun Hts.
  destruct (Hts t) as (e & He & Htask & Hnr); [by left|]. simpl. rewrite He, Htask. simpl.
  rewrite (cons_middle (ID t)), app_assoc.
  assert (Forall (ended (entries m)) (Dependencies t ++ SoftDependencies t)) as Hend.
  { rewrite Forall_forall in Hseen |- *. auto. }
  apply Forall_app in Hend as [Hhard Hsoft].
  assert (forall x, x ∈ rest -> ID x <> ID t) as Hne.
  { intros x Hx Heq. apply (topo_ordered_seen _ _ _ Hrest Hx).
    rewrite Heq. apply elem_of_app. right. by left. }
  case_bool_decide as Hs; simpl.
  - destruct (scan_hard _ _) as [| |cause] eqn:Hscan.
    + rewrite (proj2 (scan_soft_true _ _) Hsoft). simpl.
      set (limit := match caps !! _ with Some _ => _ | None => _ end).
      rewrite Hrun. destruct (Z.ltb_spec 0 limit) as [Hl|Hl]; simpl; [|done].
      by destruct (Z.leb_spec limit 0); [lia|].
    + by apply scan_hard_no_wait in Hscan.
    + apply IH; [done| |done|].
      * apply Forall_app. split.
        -- rewrite Forall_forall in Hseen |- *. intros d Hd. apply ended_put_ne; [|auto].
           by intros ->.
        -- apply Forall_singleton. eexists. simpl. by rewrite lookup_insert_eq.
      * intros x Hx. simpl. rewrite lookup_insert_ne by (symmetry; auto).
        apply Hts. by right.
  - apply IH; [done| |done|].
    + apply Forall_app. split; [done|]. apply Forall_singleton. exists e. split; [done|].
      by destruct (state e).
    + intros x Hx. apply Hts. by right.
Qed.

Lemma claim_None_ended capf now m m' cbs :
  RInv m -> idle m -> claim capf now m = (m', cbs, None) ->
  Forall (ended (entries m')) (ID <$> tasks).
Proof.
  intros H Hidle Hc. unfold claim in Hc. rewrite (ri_order _ H) in Hc.
  eapply (claim_loop_None _ _ []); [done|by constructor| | |done].
  - intros p. by apply idle_running_of.
  - intros t Ht. destruct (RInv_present m t H Ht) as [e He]. exists e. split; [done|].
    destruct (ri_task _ H _ _ He) as (t' & Ht' & Hid & Htask).
    assert (t' = t) as ->; [|split; [done|by eapply Hidle]].
    clear -Htopo Ht Ht' Hid. revert Htopo Ht Ht'. generalize (@nil string).
    induction tasks as [|x rest IH]; intros seen; [intros _ Hn; by apply not_elem_of_nil in Hn|].
    intros (_ & _ & Hrest)%topo_ordered_cons [->|Ht]%elem_of_cons [->|Ht']%elem_of_cons;
      [done| | |by eapply IH];
      exfalso; eapply topo_ordered_seen; [exact Hrest|eassumption|rewrite Hid|exact Hrest|eassumption|rewrite <-Hid];
      apply elem_of_app; right; by left.
Qed.

End Verdict.

(** ** The properties of scheduling a batch *)

(** C16: the scheduler implements its specification: on every run of a batch
    enqueued in dependency order (any claims under any capacities interleaved
    with the ends of running tasks) a task that has ended is in the state
    [verdicts] computes from the dependencies and the task results alone, so
    the outcome does not depend on timing or capacity. *)
Theorem verdict_refinement outcome tasks m0 m id e :
  topo_ordered [] tasks = true -> Enqueue tasks NewMemory = (m0, None) ->
  rtc (run_step outcome) m0 m ->
  entries m !! id = Some e -> is_terminal (state e) = true ->
  verdicts outcome tasks !! id = Some (state e).
Proof.
  intros Htopo Heq Hrun He Ht.
  pose proof (RInv_run outcome tasks Htopo _ _ Hrun (RInv_start outcome tasks Htopo m0 Heq)) as H.
  by eapply ri_verdict.
Qed.

(** A batch of four: [b] needs [a], [c] runs after [b] whatever its result,
    [d] needs [b]. *)
Definition sample_task (id : string) (deps soft : list string) : Task :=
  mkTask id "run-1" id deps soft (8 * second) (Some 0%nat) None "local" None.
Definition sample_batch : list Task :=
  [sample_task "a" [] []; sample_task "b" ["a"] []; sample_task "c" [] ["b"];
   sample_task "d" ["b"] []].
Definition sample_outcome (id : string) : option goerr :=
  if bool_decide (id = "b") then Some (ErrText "exit 1") else None.
Definition sample_memory : Memory := (Enqueue sample_batch NewMemory).1.

Lemma sample_Enqueue : Enqueue sample_batch NewMemory = (sample_memory, None).
Proof. vm_compute. reflexivity. Qed.

(** Three claims, [a] and [b] ending in between: the fourth claim finds that [b]
    failed and cancels [d]. *)
Definition sample_claim (m : Memory) : Memory := (claim (fun _ => 1) 100 m).1.1.
Definition sample_finish (id : string) (m : Memory) : Memory := finish id (sample_outcome id) 100 m.
Definition sample_end : Memory :=
  sample_claim (sample_finish "c" (sample_claim (sample_finish "b" (sample_claim
    (sample_finish "a" (sample_claim sample_memory)))))).

Lemma verdict_refinement_witness :
  state <$> entries sample_end !! "d" = Some StateCanceled /\
  verdicts sample_outcome sample_batch !! "d" = Some StateCanceled.
Proof.
  split; [vm_compute; reflexivity|].
  destruct (entries sample_end !! "d") as [e|] eqn:He; [|vm_compute in He; discriminate He].
  assert (state e = StateCanceled) as Hs.
  { vm_compute in He. injection He as <-. reflexivity. }
  rewrite <-Hs. eapply (verdict_refinement sample_outcome sample_batch).
  - vm_compute. reflexivity.
  - apply sample_Enqueue.
  - eapply rtc_l; [apply (run_claim sample_outcome _ (fun _ => 1) 100)|].
    eapply rtc_l; [eapply (run_finish sample_outcome _ "a" _ 100); vm_compute; reflexivity|].
    eapply rtc_l; [apply (run_claim sample_outcome _ (fun _ => 1) 100)|].
    eapply rtc_l; [eapply (run_finish sample_outcome _ "b" _ 100); vm_compute; reflexivity|].
    eapply rtc_l; [apply (run_claim sample_outcome _ (fun _ => 1) 100)|].
    eapply rtc_l; [eapply (run_finish sample_outcome _ "c" _ 100); vm_compute; reflexivity|].
    apply rtc_once. apply (run_claim sample_outcome _ (fun _ => 1) 100).
  - exact He.
  - rewrite Hs. reflexivity.
Defined.
End QueueVerdict.
