(* ===== verification/Dispatch.v ===== *)
(** The dispatcher of the queue, [src/backend/internal/queue/queue.go]
    ([dispatch] and [run]): it claims and starts tasks until [claim] has none,
    then sleeps until [wakeCh] is written, while a goroutine per started task
    runs it and finishes it.  A batch in dependency order is run to its end. *)
From Stdlib Require Import ZArith Lia.
From S2P Require Import Prelude Queue QueueRuns QueueVerdict.
Import Queue QueueRuns QueueVerdict.

Module Dispatch.

(** ** The dispatcher and its goroutines *)

(** The queue, whether [dispatch] is in its [select], and the tasks whose
    goroutine runs. *)
Record Dispatcher := mkDispatcher {
  memory : Memory;
  waiting : bool;
  inFlight : list Task;
}.

(** One turn of the inner loop: start a goroutine for the task, or go to the
    [select] when there is none. *)
Definition dispatch (capf : handle -> Z) (now : Z) (d : Dispatcher) : Dispatcher :=
  match claim capf now (memory d) with
  | (m, _, Some t) => mkDispatcher m false (t :: inFlight d)
  | (m, _, None) => mkDispatcher m true (inFlight d)
  end.

(** The receive from [wakeCh] empties it. *)
Definition receive (m : Memory) : Memory := mkMemory (order m) (entries m) (running m) false.
Definition awaken (d : Dispatcher) : Dispatcher := mkDispatcher (receive (memory d)) false (inFlight d).

(** [run] from the return of the task's callback on, with the goroutines that
    are left; and what it does to the queue before. *)
Definition run (t : Task) (err : option goerr) (now : Z) (others : list Task) (d : Dispatcher)
    : Dispatcher :=
  mkDispatcher (finish (ID t) err now (memory d)) (waiting d) others.
Definition with_memory (m : Memory) (d : Dispatcher) : Dispatcher :=
  mkDispatcher m (waiting d) (inFlight d).

Section Runs.
Variable outcome : string -> option goerr.

(** What moves a batch on: the dispatcher's loop, its wake-up when [wakeCh]
    has been written, and the return of a task in flight. *)
Inductive progress (d : Dispatcher) : Dispatcher -> Prop :=
  | progress_dispatch capf now : waiting d = false -> progress d (dispatch capf now d)
  | progress_awaken : waiting d = true -> wake (memory d) = true -> progress d (awaken d)
  | progress_return before t after now :
      inFlight d = before ++ t :: after ->
      progress d (run t (outcome (ID t)) now (before ++ after) d).

(** What the goroutines of a task do to the queue while it runs. *)
Inductive quiet (d : Dispatcher) : Dispatcher -> Prop :=
  | quiet_attach t c : t ∈ inFlight d ->
      quiet d (with_memory (attachCancel (ID t) c (memory d)).1 d)
  | quiet_renew t now : t ∈ inFlight d ->
      quiet d (with_memory (renewLease (ID t) (LeaseTTL t) now (memory d)) d).

(** Any interleaving of both, with the number of steps of the first kind. *)
Inductive runs (d : Dispatcher) : nat -> Dispatcher -> Prop :=
  | runs_start : runs d 0 d
  | runs_progress n d' d'' : runs d n d' -> progress d' d'' -> runs d (S n) d''
  | runs_quiet n d' d'' : runs d n d' -> quiet d' d'' -> runs d n d''.

Variable tasks : list Task.
Hypothesis Htopo : topo_ordered [] tasks = true.
Notation RInv := (RInv outcome tasks).

(** ** What the steps change *)
Definition running_in (m : Memory) (id : string) : Prop :=
  exists e, entries m !! id = Some e /\ state e = StateRunning.
Definition is_pending (s : State) : bool := match s with StatePending => true | _ => false end.
Definition pending_tasks (m : Memory) : Z :=
  tally (fun e => is_pending (state e)) (entries m).

Lemma running_in_insert m m' id e i :
  entries m' = <[id := e]> (entries m) ->
  running_in m' i <-> if decide (id = i) then state e = StateRunning else running_in m i.
Proof.
  intros He. unfold running_in. rewrite He, lookup_insert. case_decide; naive_solver.
Qed.

Lemma pending_insert m m' id e e' :
  entries m' = <[id := e']> (entries m) -> entries m !! id = Some e ->
  pending_tasks m' = pending_tasks m - b2z (is_pending (state e))
                     + b2z (is_pending (state e')).
Proof. intros He Hid. unfold pending_tasks. rewrite He. apply (tally_update (fun e => is_pending (state e)) _ _ _ _ Hid). Qed.

Lemma cancel_steps_running now m m' : rtc (cancel_step now) m m' ->
  (forall id, running_in m' id <-> running_in m id) /\
  pending_tasks m' <= pending_tasks m /\ wake m' = wake m.
Proof.
  induction 1 as [|m m1 m' [id item cause He Hs _] _ (Hr & Hp & Hw)]; [done|].
  rewrite (pending_insert m (put id (cancel_pending now cause item) m) id item
    (cancel_pending now cause item)) in Hp by done.
  rewrite Hs in Hp. cbn in Hp. split; [|split; [lia|done]].
  intros i. rewrite Hr, (running_in_insert m _ id (cancel_pending now cause item)) by done.
  case_decide as Hi; [subst i|done]. split; [done|]. intros (e & ? & ?). congruence.
Qed.

Lemma start_running now limit t m m' : RInv m -> start_step now limit t m m' ->
  (forall id, running_in m' id <-> id = ID t \/ running_in m id) /\ ~ running_in m (ID t) /\
  pending_tasks m' = pending_tasks m - 1 /\ wake m' = wake m.
Proof.
  intros H [id item He Hs Htask _ _ _].
  pose proof (inv_id _ (ri_inv _ _ _ H) _ _ He) as Hid. rewrite Htask in Hid. subst id.
  set (m1 := put (ID t) (start_entry now item) (add_running (Pool t) 1 m)).
  split; [|split; [|split; [|done]]].
  - intros i. rewrite (running_in_insert m m1 (ID t) (start_entry now item)) by done.
    case_decide; naive_solver.
  - intros (e & ? & ?). congruence.
  - rewrite (pending_insert m m1 (ID t) item (start_entry now item)) by done. rewrite Hs. cbn. lia.
Qed.

Lemma claim_running capf now m m' cbs r : RInv m -> claim capf now m = (m', cbs, r) ->
  wake m' = wake m /\
  match r with
  | None => (forall id, running_in m' id <-> running_in m id) /\ pending_tasks m' <= pending_tasks m
  | Some t => (forall id, running_in m' id <-> id = ID t \/ running_in m id) /\
      ~ running_in m (ID t) /\ pending_tasks m' <= pending_tasks m - 1
  end.
Proof.
  intros H Hc. apply (claim_spec (fun _ _ => True)) in Hc as (m0 & Hst & Hr); [|done].
  pose proof (RInv_cancel_steps _ _ Htopo _ _ _ Hst H) as H0.
  apply cancel_steps_running in Hst as (Hrun & Hp & Hw).
  destruct r as [t|]; [|by subst m'].
  destruct Hr as (limit & _ & Hr). apply (start_running _ _ _ _ _ H0) in Hr as (Hr & Hn & Hp' & Hw').
  split; [congruence|]. setoid_rewrite Hrun in Hr. rewrite Hrun in Hn. split; [done|]. split; [done|lia].
Qed.

Lemma finish_running id e err now m : entries m !! id = Some e -> state e = StateRunning ->
  (forall i, running_in (finish id err now m) i <-> i <> id /\ running_in m i) /\
  pending_tasks (finish id err now m) = pending_tasks m /\ wake (finish id err now m) = true.
Proof.
  intros He Hs.
  set (e' := mkEntry (task e) (final_state err) 0 err (startedAt e) now None false).
  assert (final_state err <> StateRunning /\ is_pending (final_state err) = false) as [Hf1 Hf2].
  { unfold final_state. destruct err as [er|]; [destruct (errors_Is _ _)|]; done. }
  assert (entries (finish id err now m) = <[id := e']> (entries m)) as Hes.
  { unfold finish. rewrite He, Hs. simpl. by destruct (counted e). }
  split; [|split].
  - intros i. rewrite (running_in_insert _ _ _ _ i Hes). case_decide; naive_solver.
  - rewrite (pending_insert _ _ _ _ _ Hes He). unfold e'. cbn [state].
    rewrite Hs, Hf2. cbn. lia.
  - unfold finish. rewrite He, Hs. reflexivity.
Qed.

(** The steps that change nothing of the state of a task. *)
Lemma same_states m m' id e e' : RInv m -> Inv m' -> order m' = order m ->
  entries m' = <[id := e']> (entries m) -> entries m !! id = Some e ->
  state e = StateRunning -> task e' = task e -> state e' = state e ->
  RInv m' /\ (forall i, running_in m' i <-> running_in m i) /\ pending_tasks m' = pending_tasks m.
Proof.
  intros H Hinv Hord Hes He Hs Htask Hs'. split; [|split].
  - eapply (RInv_put outcome tasks m _ id e); try done; rewrite ?Hs', ?Hs; [done|done|].
    intros _. by eapply ri_running.
  - intros i. rewrite (running_in_insert _ _ _ _ i Hes). case_decide; [subst i|done].
    rewrite Hs', Hs. split; [intros _; by exists e|done].
  - rewrite (pending_insert _ _ _ _ _ Hes He), Hs'. lia.
Qed.

(** ** The invariant *)
Record DInv (d : Dispatcher) : Prop := {
  di_queue : RInv (memory d);
  di_nodup : NoDup (ID <$> inFlight d);
  di_flight : forall id, running_in (memory d) id <-> id ∈ (ID <$> inFlight d);
  di_asleep : waiting d = true -> wake (memory d) = false ->
    inFlight d <> [] \/ Forall (ended (entries (memory d))) (ID <$> tasks);
}.

(** A bound on the steps left: what a step takes off is more than what it
    adds. *)
Definition work (d : Dispatcher) : Z :=
  4 * pending_tasks (memory d) + 3 * Z.of_nat (length (inFlight d)) +
  2 * b2z (wake (memory d)) + b2z (negb (waiting d)).

Lemma work_nonneg d : 0 <= work d.
Proof.
  unfold work, pending_tasks.
  pose proof (tally_nonneg (fun e => is_pending (state e)) (entries (memory d))).
  destruct (wake _), (waiting d); cbn; lia.
Qed.

Lemma dispatch_progress capf now d : DInv d -> waiting d = false ->
  DInv (dispatch capf now d) /\ work (dispatch capf now d) < work d.
Proof.
  intros [H Hnd Hf Has] Hw. unfold dispatch, work. rewrite Hw.
  pose proof (RInv_claim outcome tasks Htopo capf now _ H) as Hc.
  destruct (claim capf now (memory d)) as [[m cbs] [t|]] eqn:Heq; cbn [fst] in Hc;
    pose proof (claim_running _ _ _ _ _ _ H Heq) as [Hwake Hr];
    cbn [memory waiting inFlight negb b2z length].
  - destruct Hr as (Hr & Hn & Hp). rewrite Hwake. split; [|lia]. split; cbn [memory waiting inFlight];
      rewrite ?fmap_cons; [done| | |done].
    + constructor; [|done]. by rewrite <-Hf.
    + intros id. rewrite Hr, elem_of_cons, Hf. done.
  - destruct Hr as [Hr Hp]. rewrite Hwake. split; [|lia]. split; cbn [memory waiting inFlight];
      [done|done|intros id; by rewrite Hr|]. intros _ _.
    destruct (inFlight d) as [|t rest] eqn:Hin; [right|by left].
    eapply (claim_None_ended outcome tasks Htopo capf now); [exact H| |exact Heq].
    intros id e He Hs. assert (running_in (memory d) id) as Hid by by exists e.
    apply Hf, not_elem_of_nil in Hid. done.
Qed.

Lemma awaken_progress d : DInv d -> waiting d = true -> wake (memory d) = true ->
  DInv (awaken d) /\ work (awaken d) < work d.
Proof.
  intros [[[] ? ? ? ?] Hnd Hf Has] Hw Hk. unfold work. rewrite Hw, Hk. cbn. split; [|unfold pending_tasks; cbn; lia].
  split; done.
Qed.

Lemma return_progress before t after now d : DInv d -> inFlight d = before ++ t :: after ->
  DInv (run t (outcome (ID t)) now (before ++ after) d) /\
  work (run t (outcome (ID t)) now (before ++ after) d) < work d.
Proof.
  intros [H Hnd Hf Has] Hin. rewrite Hin, fmap_app, fmap_cons in Hnd, Hf.
  assert (running_in (memory d) (ID t)) as (e & He & Hs).
  { apply Hf, elem_of_app. right. left. }
  destruct (finish_running (ID t) e (outcome (ID t)) now _ He Hs) as (Hr & Hp & Hk).
  apply NoDup_app in Hnd as (Hnd1 & Hdisj & [Hnot Hnd2]%NoDup_cons).
  split.
  - split; cbn [memory waiting inFlight run]; [by eapply RInv_finish| | |by rewrite Hk].
    + rewrite fmap_app. apply NoDup_app. split; [done|]. split; [|done].
      intros x Hx Hx'. apply (Hdisj x Hx). by right.
    + intros i. rewrite Hr, Hf, fmap_app, !elem_of_app, elem_of_cons. split; [tauto|].
      intros Hi. split; [|tauto]. intros ->. destruct Hi as [Hi|Hi]; [|done].
      apply (Hdisj _ Hi). left.
  - unfold work. cbn [memory waiting inFlight run]. rewrite Hp, Hk, Hin, !length_app.
    cbn [length]. destruct (wake (memory d)); cbn; lia.
Qed.

Lemma quiet_keeps d d' : DInv d -> quiet d d' -> DInv d' /\ work d' = work d.
Proof.
  intros [H Hnd Hf Has] Hq.
  assert (exists m, d' = with_memory m d /\ RInv m /\ wake m = wake (memory d) /\
    (forall i, running_in m i <-> running_in (memory d) i) /\
    pending_tasks m = pending_tasks (memory d) /\
    (forall i, ended (entries (memory d)) i -> ended (entries m) i)) as (m & -> & Hm & Hk & Hr & Hp & He).
  { destruct Hq as [t c Ht|t now Ht];
      (assert (running_in (memory d) (ID t)) as (e & He & Hs) by (apply Hf; by apply list_elem_of_fmap_2)).
    - pose proof (Inv_attachCancel (ID t) c _ (ri_inv _ _ _ H)) as Hinv. eexists. split; [done|].
      unfold attachCancel in *. rewrite He, bool_decide_eq_true_2 in * by done. cbn [fst] in *.
      edestruct (same_states (memory d)) as (? & ? & ?); [exact H|exact Hinv|done|done|exact He|done|done|done|].
      split; [done|]. split; [done|]. split; [done|]. split; [done|].
      intros i (x & Hx & Hxs). exists x. cbn. rewrite lookup_insert_ne; [done|]. intros <-. by simplify_eq; rewrite Hs in Hxs.
    - pose proof (Inv_renewLease (ID t) (LeaseTTL t) now _ (ri_inv _ _ _ H)) as Hinv. eexists. split; [done|].
      unfold renewLease in *. rewrite He, bool_decide_eq_true_2 in * by done.
      edestruct (same_states (memory d)) as (? & ? & ?); [exact H|exact Hinv|done|done|exact He|done|done|done|].
      split; [done|]. split; [done|]. split; [done|]. split; [done|].
      intros i (x & Hx & Hxs). exists x. cbn. rewrite lookup_insert_ne; [done|]. intros <-. by simplify_eq; rewrite Hs in Hxs. }
  unfold work. cbn [memory waiting inFlight with_memory]. rewrite Hk, Hp. split; [|done].
  split; cbn [memory waiting inFlight with_memory]; [done|done|intros i; by rewrite Hr|].
  rewrite Hk. intros Hw Hwk. destruct (Has Hw Hwk) as [|Hend]; [by left|right].
  by eapply Forall_impl.
Qed.

Lemma runs_inv d n d' : DInv d -> runs d n d' -> DInv d' /\ work d' + Z.of_nat n <= work d.
Proof.
  intros H. induction 1 as [|n d' d'' _ [IH Hw] Hp|n d' d'' _ [IH Hw] Hq]; [split; [done|lia]| |].
  - assert (DInv d'' /\ work d'' < work d') as [??]; [|split; [done|lia]].
    destruct Hp as [capf now Hwt|Hwt Hk|before t after now Hin];
      [by apply dispatch_progress|by apply awaken_progress|by apply return_progress].
  - destruct (quiet_keeps _ _ IH Hq) as [? ->]. done.
Qed.

(** Nothing can move only when every task has ended. *)
Lemma DInv_live d : DInv d ->
  (exists d', progress d d') \/ Forall (ended (entries (memory d))) (ID <$> tasks).
Proof.
  intros [H Hnd Hf Has]. destruct (waiting d) eqn:Hw.
  - destruct (wake (memory d)) eqn:Hk; [left; eexists; by apply progress_awaken|].
    destruct (Has eq_refl eq_refl) as [Hin|]; [left|by right].
    destruct (inFlight d) as [|t rest] eqn:Ht; [done|].
    exists (run t (outcome (ID t)) 0 ([] ++ rest) d). by apply progress_return.
  - left. eexists. by apply (progress_dispatch d (fun _ => 0) 0).
Qed.

Lemma pending_start ts m :
  pending_tasks (foldl enqueue_one m ts) <= pending_tasks m + Z.of_nat (length ts).
Proof.
  revert m. induction ts as [|t rest IH]; intros m; simpl; [lia|].
  specialize (IH (enqueue_one m t)). unfold pending_tasks in IH |- *. simpl in IH.
  pose proof (tally_insert_le (fun e => is_pending (state e))
    (entries m) (ID t) (new_entry t)). lia.
Qed.

(** After the batch was enqueued [wakeCh] is written, wherever the dispatcher
    is. *)
Lemma DInv_start m asleep : Enqueue tasks NewMemory = (m, None) ->
  DInv (mkDispatcher m asleep []) /\
  work (mkDispatcher m asleep []) <= 4 * Z.of_nat (length tasks) + 3.
Proof.
  intros Heq. pose proof (RInv_start outcome tasks Htopo m Heq) as H.
  unfold Enqueue in Heq. destruct (check_tasks NewMemory tasks); [done|]. injection Heq as <-. split.
  - split; cbn [memory waiting inFlight]; [done|apply NoDup_nil_2| |done].
    intros id. split; [|by intros ?%not_elem_of_nil]. intros (e & He & Hs).
    change (entries (foldl enqueue_one NewMemory tasks) !! id = Some e) in He.
    rewrite (foldl_enqueue_lookup tasks [] NewMemory id Htopo) in He.
    destruct (list_find _ _) as [[i x]|]; [by injection He as <-|by rewrite lookup_NewMemory in He].
  - pose proof (pending_start tasks NewMemory) as Hp. unfold work. cbn [memory waiting inFlight length].
    change (pending_tasks (signal (foldl enqueue_one NewMemory tasks)))
      with (pending_tasks (foldl enqueue_one NewMemory tasks)).
    change (pending_tasks NewMemory) with 0 in Hp. destruct asleep; cbn; lia.
Qed.
End Runs.

(** C20: A batch in dependency order is always run to its end.  Whatever the
    capacities and the interleaving of the dispatcher with the goroutines of
    the tasks, and whether the dispatcher sleeps when the batch comes or not:
    at most four steps per task and three more are made, and as long as a task
    has not ended a further step is possible: the dispatcher is never left
    asleep with nothing in flight to wake it.  A task that has ended has its
    verdict. *)
Theorem dispatch_completes outcome tasks m0 asleep n d :
  topo_ordered [] tasks = true -> Enqueue tasks NewMemory = (m0, None) ->
  runs outcome (mkDispatcher m0 asleep []) n d ->
  (n <= 4 * length tasks + 3)%nat /\
  ((exists d', progress outcome d d') \/
   forall t, t ∈ tasks -> exists e, entries (memory d) !! ID t = Some e /\
     is_terminal (state e) = true /\ verdicts outcome tasks !! ID t = Some (state e)).
Proof.
  intros Htopo Heq Hruns. destruct (DInv_start outcome tasks Htopo m0 asleep Heq) as [H0 Hw0].
  destruct (runs_inv outcome tasks Htopo _ _ _ H0 Hruns) as [H Hw].
  pose proof (work_nonneg d). split; [lia|].
  destruct (DInv_live outcome tasks _ H) as [|Hend]; [by left|right].
  intros t Ht. rewrite Forall_forall in Hend.
  destruct (Hend (ID t)) as (e & He & Hte); [by apply list_elem_of_fmap_2|].
  exists e. split; [done|]. split; [done|]. by eapply (ri_verdict _ _ _ (di_queue _ _ _ H)).
Qed.

(** ** A run *)

(** One worker's schedule: claim what can be claimed, then let the oldest task
    in flight return. *)
Definition next (outcome : string -> option goerr) (d : Dispatcher) : Dispatcher :=
  if negb (waiting d) then dispatch (fun _ => 1) 100 d
  else if wake (memory d) then awaken d
  else match inFlight d with
       | t :: rest => run t (outcome (ID t)) 100 rest d
       | [] => d
       end.

Definition can_move (d : Dispatcher) : bool :=
  negb (waiting d) || wake (memory d) || negb (bool_decide (length (inFlight d) = 0%nat)).

Lemma next_progress outcome d : can_move d = true -> progress outcome d (next outcome d).
Proof.
  unfold can_move, next. destruct (waiting d) eqn:Hw; [|by constructor].
  destruct (wake (memory d)) eqn:Hk; [by constructor|].
  destruct (inFlight d) as [|t rest] eqn:Hin; [done|]. intros _.
  by apply (progress_return outcome d [] t rest).
Qed.

Lemma next_runs outcome d n :
  forallb (fun k => can_move (Nat.iter k (next outcome) d)) (seq 0 n) = true ->
  runs outcome d n (Nat.iter n (next outcome) d).
Proof.
  intros H. rewrite forallb_forall in H.
  assert (forall k, (k <= n)%nat -> runs outcome d k (Nat.iter k (next outcome) d)) as Hk; [|by apply Hk].
  induction k as [|k IH]; intros Hle; [apply runs_start|].
  eapply runs_progress; [apply IH; lia|]. apply next_progress, H, in_seq. lia.
Qed.

Definition sample_dispatched (n : nat) : Dispatcher :=
  Nat.iter n (next sample_outcome) (mkDispatcher sample_memory true []).

Lemma dispatch_completes_witness :
  exists e, entries (memory (sample_dispatched 14)) !! "c" = Some e /\
    is_terminal (state e) = true /\ verdicts sample_outcome sample_batch !! "c" = Some (state e).
Proof.
  destruct (dispatch_completes sample_outcome sample_batch sample_memory true 14 (sample_dispatched 14))
    as [_ [[d' Hp]|Hend]].
  - vm_compute. reflexivity.
  - apply sample_Enqueue.
  - apply next_runs. vm_compute. reflexivity.
  - exfalso. destruct Hp as [capf now Hw|Hw Hk|before t after now Hin].
    + vm_compute in Hw. discriminate Hw.
    + vm_compute in Hk. discriminate Hk.
    + vm_compute in Hin. by destruct before.
  - apply (Hend (sample_task "c" [] ["b"])). right; right; left.
Defined.
End Dispatch.
