(* ===== verification/Topology.v ===== *)
(** Suite topologies, [src/backend/internal/suites/topology.go] and
    [pre_hook.go]: the steps of a suite and their dependencies, how imported
    suites and the pre-hook are merged in, and the levelled order the steps
    are put in.  The theorems are in TopologyOrder.v; Imports.v merges the suites.

    Maps that the code leaves [nil] when they are empty are the empty map
    here; [clone...] functions copy values and are the identity. *)
From Stdlib Require Import ZArith Lia Ascii.
From S2P Require Import Prelude GoStrings.
Import GoStrings.

Module Topology.

(** ** Steps *)

(** [TopologyNode].  [Body] stands for the fields that resolution only
    copies: Load, Security, Plugin, Message, Harden, Image, File, Commands,
    Evaluation and ArtifactExports. *)
Record TopologyNode := mkNode {
  ID : string;
  Name : string;
  Kind : string;
  Variant : string;
  Body : handle;
  DependsOn : list string;
  ResetMocks : list string;
  OnFailure : list string;
  ContinueOnFailure : bool;
  Level : Z;
  SourceSuiteID : string;
  SourceSuiteTitle : string;
  SourceRepository : string;
  SourceVersion : string;
  DependencyAlias : string;
  ResolvedRef : string;
  Digest : string;
  RuntimeProfile : string;
  RuntimeEnv : gmap string string;
  RuntimeHeaders : gmap string string;
  Order : Z;
}.

(** The assignments to the edges and to the position of a step. *)
Definition set_edges (deps resets onfail : list string) (n : TopologyNode) : TopologyNode :=
  mkNode (ID n) (Name n) (Kind n) (Variant n) (Body n) deps resets onfail
    (ContinueOnFailure n) (Level n) (SourceSuiteID n) (SourceSuiteTitle n)
    (SourceRepository n) (SourceVersion n) (DependencyAlias n) (ResolvedRef n)
    (Digest n) (RuntimeProfile n) (RuntimeEnv n) (RuntimeHeaders n) (Order n).
Definition set_place (level order : Z) (n : TopologyNode) : TopologyNode :=
  mkNode (ID n) (Name n) (Kind n) (Variant n) (Body n) (DependsOn n) (ResetMocks n)
    (OnFailure n) (ContinueOnFailure n) level (SourceSuiteID n) (SourceSuiteTitle n)
    (SourceRepository n) (SourceVersion n) (DependencyAlias n) (ResolvedRef n)
    (Digest n) (RuntimeProfile n) (RuntimeEnv n) (RuntimeHeaders n) order.
Definition set_names (id name : string) (n : TopologyNode) : TopologyNode :=
  mkNode id name (Kind n) (Variant n) (Body n) (DependsOn n) (ResetMocks n)
    (OnFailure n) (ContinueOnFailure n) (Level n) (SourceSuiteID n) (SourceSuiteTitle n)
    (SourceRepository n) (SourceVersion n) (DependencyAlias n) (ResolvedRef n)
    (Digest n) (RuntimeProfile n) (RuntimeEnv n) (RuntimeHeaders n) (Order n).
Definition set_level (level : Z) (n : TopologyNode) : TopologyNode :=
  set_place level (Order n) n.

(** The errors of [resolveTopology]. *)
Inductive TopologyError :=
  | DuplicateStep (id : string)
  | ResetMocksOnlyOnTests
  | ResetsMissingMock (id target : string)
  | ResetTargetNotMock (id target : string)
  | MissingDependency (node dependency : string)
  | DependencyCycle.

(** ** Lists of ids *)

(** [normalizeDependencies]: trimmed, without blanks and repetitions, in the
    order of the first occurrence. *)
Fixpoint normalize_loop (dependsOn : list string) (seen : gset string) : list string :=
  match dependsOn with
  | [] => []
  | dependency :: rest =>
      let trimmed := TrimSpace dependency in
      if bool_decide (trimmed = "") then normalize_loop rest seen
      else if bool_decide (trimmed ∈ seen) then normalize_loop rest seen
      else trimmed :: normalize_loop rest ({[trimmed]} ∪ seen)
  end.
Definition normalizeDependencies (dependsOn : list string) : list string :=
  normalize_loop dependsOn ∅.

Definition containsString (items : list string) (target : string) : bool :=
  existsb (fun item => bool_decide (item = target)) items.

(** ** [resolveTopology] *)

(** The first loop normalises the edges of a step before it looks its id up. *)
Definition normalize_node (n : TopologyNode) : TopologyNode :=
  set_edges (normalizeDependencies (DependsOn n)) (normalizeDependencies (ResetMocks n))
            (OnFailure n) n.

(** [byID] as the first loop leaves it, or the first repeated id. *)
Fixpoint index_nodes (nodes : list TopologyNode) (byID : gmap string TopologyNode)
    : TopologyError + gmap string TopologyNode :=
  match nodes with
  | [] => inr byID
  | n :: rest =>
      match byID !! ID n with
      | Some _ => inl (DuplicateStep (ID n))
      | None => index_nodes rest (<[ID n := n]> byID)
      end
  end.

Fixpoint check_targets (byID : gmap string TopologyNode) (id : string)
    (targets : list string) : option TopologyError :=
  match targets with
  | [] => None
  | target :: rest =>
      match byID !! target with
      | None => Some (ResetsMissingMock id target)
      | Some dependency =>
          if bool_decide (Kind dependency = "mock") then check_targets byID id rest
          else Some (ResetTargetNotMock id target)
      end
  end.

Fixpoint check_resets (byID : gmap string TopologyNode) (nodes : list TopologyNode)
    : option TopologyError :=
  match nodes with
  | [] => None
  | n :: rest =>
      if bool_decide (ResetMocks n = []) then check_resets byID rest
      else if negb (bool_decide (Kind n = "test")) then Some ResetMocksOnlyOnTests
      else match check_targets byID (ID n) (ResetMocks n) with
           | Some e => Some e
           | None => check_resets byID rest
           end
  end.

(** The loop over one step's dependencies: who waits for whom. *)
Fixpoint link_dependencies (byID : gmap string TopologyNode) (id : string)
    (deps : list string) (dependants : gmap string (list string))
    : TopologyError + gmap string (list string) :=
  match deps with
  | [] => inr dependants
  | dependency :: rest =>
      match byID !! dependency with
      | None => inl (MissingDependency id dependency)
      | Some _ =>
          link_dependencies byID id rest
            (<[dependency := default [] (dependants !! dependency) ++ [id]]> dependants)
      end
  end.

Fixpoint link_nodes (byID : gmap string TopologyNode) (nodes : list TopologyNode)
    (indegree : gmap string Z) (dependants : gmap string (list string))
    : TopologyError + (gmap string Z * gmap string (list string)) :=
  match nodes with
  | [] => inr (indegree, dependants)
  | n :: rest =>
      check dependants' := link_dependencies byID (ID n) (DependsOn n) dependants in
      link_nodes byID rest (<[ID n := Z.of_nat (length (DependsOn n))]> indegree) dependants'
  end.

(** [sortTopologyIDs]: by order, then by name. *)
Definition topology_less (byID : gmap string TopologyNode) (i j : string) : bool :=
  match byID !! i, byID !! j with
  | Some l, Some r =>
      if negb (Order l =? Order r) then Order l <? Order r
      else String.ltb (Name l) (Name r)
  | _, _ => String.ltb i j
  end.
Definition not_after (byID : gmap string TopologyNode) (i j : string) : Prop :=
  topology_less byID j i = false.
#[export] Instance not_after_dec byID : RelDecision (not_after byID).
Proof. intros i j. unfold not_after. solve_decision. Defined.

Definition sortTopologyIDs (ids : list string) (byID : gmap string TopologyNode) : list string :=
  merge_sort (not_after byID) ids.

(** [indegree[dependant]--], and the test against zero. *)
Definition visit_dependant (acc : gmap string Z * list string) (dependant : string)
    : gmap string Z * list string :=
  let v := default 0 (acc.1 !! dependant) - 1 in
  (<[dependant := v]> acc.1, if v =? 0 then acc.2 ++ [dependant] else acc.2).

(** The body of the loop over [ready].  Every id of [ready] is a key of
    [byID], so [*byID[id]] never dereferences nil. *)
Definition visit_node (byID : gmap string TopologyNode)
    (dependants : gmap string (list string)) (level : Z)
    (acc : gmap string Z * list string * list TopologyNode) (id : string)
    : gmap string Z * list string * list TopologyNode :=
  (foldl visit_dependant acc.1 (default [] (dependants !! id)),
   acc.2 ++ option_list (set_level level <$> byID !! id)).

(** The level loop; [None] means that the fuel is used up. *)
Fixpoint level_loop (byID : gmap string TopologyNode)
    (dependants : gmap string (list string)) (fuel : nat) (level : Z)
    (ready : list string) (indegree : gmap string Z) (ordered : list TopologyNode)
    : option (list TopologyNode) :=
  match ready, fuel with
  | [], _ => Some ordered
  | _, O => None
  | _, S fuel' =>
      let '(indegree', nextReady, ordered') :=
        foldl (visit_node byID dependants level) (indegree, [], ordered) ready in
      level_loop byID dependants fuel' (level + 1) (sortTopologyIDs nextReady byID)
        indegree' ordered'
  end.

(** One round of the level loop per step is always enough. *)
Definition resolveTopology (nodes : list TopologyNode)
    : option (TopologyError + list TopologyNode) :=
  if bool_decide (nodes = []) then Some (inr [])
  else
    let nodes := normalize_node <$> nodes in
    match index_nodes nodes ∅ with
    | inl e => Some (inl e)
    | inr byID =>
        match check_resets byID nodes with
        | Some e => Some (inl e)
        | None =>
            match link_nodes byID nodes ∅ ∅ with
            | inl e => Some (inl e)
            | inr (indegree, dependants) =>
                let ready := base.filter (fun id => default 0 (indegree !! id) = 0)
                               (ID <$> nodes) in
                match level_loop byID dependants (length nodes) 0
                        (sortTopologyIDs ready byID) indegree [] with
                | None => None
                | Some ordered =>
                    Some (if negb (Nat.eqb (length ordered) (length nodes))
                          then inl DependencyCycle else inr ordered)
                end
            end
        end
    end.

(** A small topology: the database, the migration after it, the service after
    both. *)
Definition step (id : string) (deps : list string) (order : Z) : TopologyNode :=
  mkNode id id "service" "service.run" 0%nat deps [] [] false 0 "" "" "" "" "" "" "" "" ∅ ∅ order.

Definition levels (r : option (TopologyError + list TopologyNode)) : option (list (string * Z)) :=
  match r with
  | Some (inr l) => Some (map (fun n => (ID n, Level n)) l)
  | _ => None
  end.

Example resolve_ex :
  levels (resolveTopology
    [step "api" ["migrate"; " db "] 0; step "db" [] 1; step "migrate" ["db"] 2; step "mock" [] 3])
  = Some [("db", 0); ("mock", 0); ("migrate", 1); ("api", 2)].
Proof. vm_compute. reflexivity. Qed.

Example resolve_cycle_ex :
  resolveTopology [step "a" ["b"] 0; step "b" ["a"] 1; step "c" [] 2] = Some (inl DependencyCycle).
Proof. vm_compute. reflexivity. Qed.
End Topology.
