(* ===== verification/TopologyOrder.v ===== *)
(** The levelled order of a topology: [resolveTopology] always returns, its
    result is a topological order of the steps with exact levels, and it
    succeeds exactly on the acyclic topologies whose steps are well formed. *)
From Stdlib Require Import ZArith Lia Ascii.
From S2P Require Import Prelude GoStrings Topology.
Import GoStrings Topology.

Module TopologyOrder.

(** ** [normalizeDependencies] *)
Lemma normalize_loop_spec deps seen :
  NoDup (normalize_loop deps seen) /\
  forall d, d ∈ normalize_loop deps seen <->
    d ∉ seen /\ d <> "" /\ exists x, x ∈ deps /\ TrimSpace x = d.
Proof.
  revert seen. induction deps as [|x rest IH]; intros seen; simpl.
  { split; [constructor|]. intros d. split; [intros H; by apply not_elem_of_nil in H|].
    intros (_ & _ & y & Hy & _). by apply not_elem_of_nil in Hy. }
  assert (forall d, (exists y, y ∈ x :: rest /\ TrimSpace y = d) <->
    TrimSpace x = d \/ exists y, y ∈ rest /\ TrimSpace y = d) as Hcons.
  { intros d. setoid_rewrite elem_of_cons. split.
    - intros (y & [->|Hy] & <-); eauto.
    - intros [<-|(y & Hy & <-)]; eauto. }
  setoid_rewrite Hcons. case_bool_decide as Hb.
  { destruct (IH seen) as [Hnd Hin]. split; [done|]. intros d. rewrite Hin. split.
    - intros (? & ? & ?). auto.
    - intros (? & ? & [?|?]); [congruence|auto]. }
  case_bool_decide as Hs.
  { destruct (IH seen) as [Hnd Hin]. split; [done|]. intros d. rewrite Hin. split.
    - intros (? & ? & ?). auto.
    - intros (? & ? & [?|?]); [congruence|auto]. }
  destruct (IH ({[TrimSpace x]} ∪ seen)) as [Hnd Hin]. split.
  - constructor; [|done]. rewrite Hin. set_solver.
  - intros d. rewrite elem_of_cons, Hin, not_elem_of_union, not_elem_of_singleton. split.
    + intros [->|([? ?] & ? & ?)]; auto.
    + intros (? & ? & Hor). destruct (decide (d = TrimSpace x)) as [->|]; [by left|].
      right. destruct Hor as [?|?]; [congruence|auto].
Qed.

Lemma normalizeDependencies_NoDup deps : NoDup (normalizeDependencies deps).
Proof. apply normalize_loop_spec. Qed.

Lemma elem_of_normalizeDependencies deps d :
  d ∈ normalizeDependencies deps <-> d <> "" /\ exists x, x ∈ deps /\ TrimSpace x = d.
Proof.
  unfold normalizeDependencies. rewrite (proj2 (normalize_loop_spec deps ∅)).
  rewrite and_iff_compat_l; [|reflexivity]. split; [by intros [_ ?]|].
  split; [apply not_elem_of_empty|done].
Qed.

(** ** The maps the loops build *)
Notation ids nodes := (fmap (M := list) ID nodes).

Lemma index_nodes_spec nodes m byID :
  index_nodes nodes m = inr byID ->
  (forall n, n ∈ nodes -> m !! ID n = None) /\ NoDup (ids nodes) /\
  forall id n, byID !! id = Some n <-> m !! id = Some n \/ (n ∈ nodes /\ ID n = id).
Proof.
  revert m. induction nodes as [|x rest IH]; intros m; simpl.
  { intros [= <-]. split; [by intros n Hn%not_elem_of_nil|]. split; [constructor|].
    intros id n. split; [by left|]. intros [?|[Hn _]]; [done|by apply not_elem_of_nil in Hn]. }
  destruct (m !! ID x) as [y|] eqn:Hx; [done|]. intros (Hm & Hnd & Hspec)%IH.
  assert (forall n, n ∈ rest -> ID n <> ID x) as Hne.
  { intros n Hn Heq. specialize (Hm n Hn). rewrite Heq, lookup_insert_eq in Hm. done. }
  split; [|split].
  - intros n [->|Hn]%elem_of_cons; [done|]. specialize (Hm n Hn).
    by rewrite lookup_insert_ne in Hm by (symmetry; auto).
  - constructor; [|done]. intros (n & Heq & Hn)%list_elem_of_fmap. by apply (Hne n Hn).
  - intros id n. rewrite Hspec, elem_of_cons. rewrite lookup_insert. case_decide as Hid.
    + subst. split.
      * intros [[= <-]|[Hn Hid]]; auto.
      * intros [H|[[->|Hn] Hid]]; [congruence|by left|by right].
    + split.
      * intros [?|[? ?]]; auto.
      * intros [?|[[->|?] ?]]; [by left|congruence|by right].
Qed.

Lemma index_nodes_duplicate nodes m e :
  index_nodes nodes m = inl e ->
  exists id, e = DuplicateStep id /\ id ∈ ids nodes /\
    (is_Some (m !! id) \/ ~ NoDup (ids nodes)).
Proof.
  revert m. induction nodes as [|x rest IH]; intros m; simpl; [done|].
  destruct (m !! ID x) as [y|] eqn:Hx.
  - intros [= <-]. exists (ID x). split; [done|]. split; [by left|]. left. eauto.
  - intros (id & -> & Hin & Hor)%IH. exists id. split; [done|]. split; [by right|].
    destruct Hor as [Hs|Hnd].
    + destruct (decide (ID x = id)) as [<-|Hne].
      * right. rewrite NoDup_cons. by intros [? _].
      * left. by rewrite lookup_insert_ne in Hs.
    + right. rewrite NoDup_cons. by intros [_ ?].
Qed.

Lemma link_dependencies_spec byID id deps D D' :
  link_dependencies byID id deps D = inr D' -> NoDup deps ->
  (forall d, d ∈ deps -> is_Some (byID !! d)) /\
  forall d, default [] (D' !! d) =
    default [] (D !! d) ++ (if bool_decide (d ∈ deps) then [id] else []).
Proof.
  revert D. induction deps as [|x rest IH]; intros D; cbn [link_dependencies].
  { intros [= <-] _. split; [by intros d Hd%not_elem_of_nil|]. intros d.
    rewrite bool_decide_eq_false_2 by apply not_elem_of_nil. by rewrite app_nil_r. }
  destruct (byID !! x) as [n|] eqn:Hx; [|done]. intros Hlink [Hxr Hnd]%NoDup_cons.
  destruct (IH _ Hlink Hnd) as [Hkeys Hspec]. split.
  - intros d [->|Hd]%elem_of_cons; eauto.
  - intros d. rewrite Hspec, lookup_insert. case_decide as Hd.
    + subst. rewrite (bool_decide_eq_false_2 (d ∈ rest)) by done.
      rewrite bool_decide_eq_true_2 by by left. simpl. by rewrite app_nil_r.
    + f_equal. erewrite bool_decide_ext; [reflexivity|]. rewrite elem_of_cons.
      split; [by right|intros [?|?]; [congruence|done]].
Qed.

Lemma link_dependencies_missing byID id deps D e :
  link_dependencies byID id deps D = inl e ->
  exists d, e = MissingDependency id d /\ d ∈ deps /\ byID !! d = None.
Proof.
  revert D. induction deps as [|x rest IH]; intros D; simpl; [done|].
  destruct (byID !! x) eqn:Hx.
  - intros (d & -> & ? & ?)%IH. exists d. split; [done|]. by split; [right|].
  - intros [= <-]. exists x. by repeat split; [left|].
Qed.

Lemma link_nodes_spec byID nodes ind D ind' D' :
  link_nodes byID nodes ind D = inr (ind', D') ->
  (forall n, n ∈ nodes -> NoDup (DependsOn n)) -> NoDup (ids nodes) ->
  (forall n d, n ∈ nodes -> d ∈ DependsOn n -> is_Some (byID !! d)) /\
  (forall n, n ∈ nodes -> default 0 (ind' !! ID n) = Z.of_nat (length (DependsOn n))) /\
  (forall id, id ∉ ids nodes -> ind' !! id = ind !! id) /\
  forall d, default [] (D' !! d) =
    default [] (D !! d) ++ ids (base.filter (fun n => d ∈ DependsOn n) nodes).
Proof.
  revert ind D. induction nodes as [|x rest IH]; intros ind D; simpl.
  { intros [= <- <-] _ _. repeat split; try (by intros ? ?%not_elem_of_nil);
      try (by intros ? ? ?%not_elem_of_nil); try done. intros d. by rewrite app_nil_r. }
  destruct (link_dependencies byID (ID x) (DependsOn x) D) as [e|D1] eqn:Hl; [done|].
  intros Hlink Hdeps [Hx Hnd]%NoDup_cons.
  destruct (link_dependencies_spec _ _ _ _ _ Hl) as [Hkeys HD1]; [apply Hdeps; by left|].
  destruct (IH _ _ Hlink) as (Hk & Hi & Ho & HD'); [intros n Hn; apply Hdeps; by right|done|].
  split; [|split; [|split]].
  - intros n d [->|Hn]%elem_of_cons Hd; eauto.
  - intros n [->|Hn]%elem_of_cons; [|by apply Hi]. by rewrite Ho, lookup_insert_eq.
  - intros id Hid. apply not_elem_of_cons in Hid as [Hne Hid].
    rewrite Ho by done. by rewrite lookup_insert_ne.
  - intros d. rewrite HD', HD1, filter_cons, <-app_assoc. f_equal.
    destruct (decide (d ∈ DependsOn x)) as [Hd|Hd];
      [rewrite bool_decide_eq_true_2 by done|rewrite bool_decide_eq_false_2 by done]; done.
Qed.

Lemma link_nodes_missing byID nodes ind D e :
  link_nodes byID nodes ind D = inl e ->
  exists n d, n ∈ nodes /\ d ∈ DependsOn n /\ byID !! d = None /\ e = MissingDependency (ID n) d.
Proof.
  revert ind D. induction nodes as [|x rest IH]; intros ind D; simpl; [done|].
  destruct (link_dependencies byID (ID x) (DependsOn x) D) as [e'|D1] eqn:Hl.
  - intros [= <-]. apply link_dependencies_missing in Hl as (d & -> & Hd & Hn).
    exists x, d. by repeat split; [left|..].
  - intros (n & d & Hn & ? & ? & ?)%IH. exists n, d. by repeat split; [right|..].
Qed.
(** ** The level loop *)

(** What the code knows of the edges when the level loop starts. *)
Record linked (nodes : list TopologyNode) (byID : gmap string TopologyNode)
    (dependants : gmap string (list string)) : Prop := {
  linked_ids : NoDup (ids nodes);
  linked_index : forall id n, byID !! id = Some n <-> n ∈ nodes /\ ID n = id;
  linked_NoDup : forall n, n ∈ nodes -> NoDup (DependsOn n);
  linked_keys : forall n d, n ∈ nodes -> d ∈ DependsOn n -> d ∈ ids nodes;
  linked_dependants : forall d,
    default [] (dependants !! d) = ids (base.filter (fun n => d ∈ DependsOn n) nodes);
}.

Definition depsOf (byID : gmap string TopologyNode) (id : string) : list string :=
  match byID !! id with Some n => DependsOn n | None => [] end.

(** The dependencies of a step that are not in [done]. *)
Definition waits (byID : gmap string TopologyNode) (done : list string) (id : string) : nat :=
  length (base.filter (fun d => d ∉ done) (depsOf byID id)).

Section Filters.
  Context {A : Type} `{EqDecision A}.

Lemma filter_out_cons (l : list A) (done : list A) (x : A) :
  NoDup l -> x ∉ done ->
  length (base.filter (fun d => d ∉ done) l)
  = (length (base.filter (fun d => d ∉ x :: done) l) + (if decide (x ∈ l) then 1 else 0))%nat.
Proof.
  intros Hnd Hx. induction Hnd as [|y l Hy Hnd IH].
  { rewrite decide_False by apply not_elem_of_nil. done. }
  rewrite !filter_cons. destruct (decide (y = x)) as [->|Hne].
  - rewrite (decide_False (P := x ∈ l)) in IH by done.
    rewrite (decide_True (P := x ∈ x :: l)) by (by left).
    destruct (decide (x ∉ done)); [|done].
    destruct (decide (x ∉ x :: done)) as [H|H]; [exfalso; apply H; by left|]. simpl. lia.
  - replace (if decide (x ∈ y :: l) then 1%nat else 0%nat)
      with (if decide (x ∈ l) then 1%nat else 0%nat).
    + destruct (decide (y ∉ done)) as [Hd|Hd], (decide (y ∉ x :: done)) as [Hc|Hc]; simpl; try lia.
      * exfalso. apply Hc. by intros [?|?]%elem_of_cons.
      * exfalso. apply Hd. intros ?. apply Hc. by right.
    + destruct (decide (x ∈ l)), (decide (x ∈ y :: l)) as [H|H]; try done.
      * exfalso. apply H. by right.
      * by apply elem_of_cons in H as [?|?].
Qed.

Lemma filter_ext_in (P Q : A -> Prop) `{forall x, Decision (P x), forall x, Decision (Q x)} (l : list A) :
  (forall x, x ∈ l -> P x <-> Q x) -> base.filter P l = base.filter Q l.
Proof.
  induction l as [|y l IH]; intros Hl; [done|]. rewrite !filter_cons.
  specialize (IH (fun x Hx => Hl x (list_elem_of_further _ _ _ Hx))).
  pose proof (Hl y (list_elem_of_here _ _)) as [H1 H2].
  destruct (decide (P y)), (decide (Q y)); rewrite ?IH; tauto.
Qed.

Lemma Sorted_app_all (R : A -> A -> Prop) (l1 l2 : list A) :
  Sorted R l1 -> Sorted R l2 -> (forall a b, a ∈ l1 -> b ∈ l2 -> R a b) -> Sorted R (l1 ++ l2).
Proof.
  induction 1 as [|a l1 Hs IH Hhd]; intros Hs2 Hall; [done|]. simpl. constructor.
  - apply IH; [done|]. intros x y Hx Hy. apply Hall; [by right|done].
  - destruct l1; simpl; [|by inversion Hhd; constructor].
    destruct l2; constructor. apply Hall; by left.
Qed.
End Filters.

(** One step's dependants: every count drops by one, the steps that reach zero
    become ready. *)
Lemma visit_dependants_spec L ind next :
  NoDup L ->
  let r := foldl visit_dependant (ind, next) L in
  r.2 = next ++ base.filter (fun x => default 0 (ind !! x) = 1) L /\
  forall x, default 0 (r.1 !! x) = default 0 (ind !! x) - (if decide (x ∈ L) then 1 else 0).
Proof.
  intros Hnd. revert ind next. induction Hnd as [|y L Hy Hnd IH]; intros ind next.
  { split; [symmetry; apply app_nil_r|]. intros x.
    rewrite decide_False by apply not_elem_of_nil. cbn [foldl fst]. lia. }
  cbn zeta. cbn [foldl]. unfold visit_dependant at 2 4. cbn [fst snd].
  set (v := default 0 (ind !! y) - 1). destruct (IH (<[y:=v]> ind)
    (if v =? 0 then next ++ [y] else next)) as [Hn Hi]. split.
  - rewrite Hn, filter_cons. clear Hn Hi.
    assert (base.filter (fun x => default 0 (<[y:=v]> ind !! x) = 1) L
            = base.filter (fun x => default 0 (ind !! x) = 1) L) as ->.
    { apply filter_ext_in. intros x Hx. rewrite lookup_insert_ne by (intros ->; done). done. }
    destruct (Z.eqb_spec v 0) as [Hv|Hv].
    + rewrite decide_True by (subst v; lia). by rewrite <-app_assoc.
    + rewrite decide_False by (subst v; lia). done.
  - intros x. rewrite Hi. destruct (decide (x = y)) as [->|Hne].
    + rewrite lookup_insert_eq, decide_False by done. rewrite decide_True by by left. simpl. lia.
    + rewrite lookup_insert_ne by done. destruct (decide (x ∈ L)) as [H|H].
      * by rewrite decide_True by by right.
      * rewrite decide_False; [done|]. intros [?|?]%elem_of_cons; [congruence|done].
Qed.

Section Loop.
  Context (nodes : list TopologyNode) (byID : gmap string TopologyNode)
    (dependants : gmap string (list string)) (HL : linked nodes byID dependants).

Lemma depsOf_node n : n ∈ nodes -> depsOf byID (ID n) = DependsOn n.
Proof.
  intros Hn. unfold depsOf. by rewrite (proj2 (linked_index _ _ _ HL (ID n) n) (conj Hn eq_refl)).
Qed.

Lemma key_node id : id ∈ ids nodes -> exists n, n ∈ nodes /\ ID n = id /\ byID !! id = Some n.
Proof.
  intros (n & -> & Hn)%list_elem_of_fmap. exists n. split; [done|]. split; [done|].
  by apply (linked_index _ _ _ HL).
Qed.

Lemma depsOf_NoDup id : NoDup (depsOf byID id).
Proof.
  unfold depsOf. destruct (byID !! id) as [n|] eqn:Hn; [|constructor].
  apply (linked_index _ _ _ HL) in Hn as [Hn _]. by apply (linked_NoDup _ _ _ HL).
Qed.

Lemma depsOf_key id d : d ∈ depsOf byID id -> d ∈ ids nodes.
Proof.
  unfold depsOf. destruct (byID !! id) as [n|] eqn:Hn; [|by intros ?%not_elem_of_nil].
  apply (linked_index _ _ _ HL) in Hn as [Hn _]. by apply (linked_keys _ _ _ HL).
Qed.

Lemma elem_of_dependants d x :
  x ∈ default [] (dependants !! d) <-> x ∈ ids nodes /\ d ∈ depsOf byID x.
Proof.
  rewrite (linked_dependants _ _ _ HL), list_elem_of_fmap. split.
  - intros (n & -> & [Hd Hn]%list_elem_of_filter). rewrite depsOf_node by done.
    split; [by apply list_elem_of_fmap_2|done].
  - intros [Hx Hd]. destruct (key_node x Hx) as (n & Hn & <- & _). exists n.
    rewrite depsOf_node in Hd by done. split; [done|]. by apply list_elem_of_filter.
Qed.

Lemma dependants_NoDup d : NoDup (default [] (dependants !! d)).
Proof.
  rewrite (linked_dependants _ _ _ HL). pose proof (linked_ids _ _ _ HL) as Hnd.
  eapply sublist_NoDup; [exact Hnd|]. apply fmap_sublist, sublist_filter.
Qed.

Lemma waits_cons dn y x :
  y ∉ dn -> Z.of_nat (waits byID (y :: dn) x)
    = Z.of_nat (waits byID dn x) - (if decide (y ∈ depsOf byID x) then 1 else 0).
Proof.
  intros Hy. unfold waits. rewrite (filter_out_cons (depsOf byID x) dn y (depsOf_NoDup x) Hy).
  destruct (decide _); lia.
Qed.

Lemma waits_zero dn x : waits byID dn x = O <-> forall d, d ∈ depsOf byID x -> d ∈ dn.
Proof.
  unfold waits. split.
  - intros H0%nil_length_inv d Hd. destruct (decide (d ∈ dn)) as [|Hn]; [done|].
    exfalso. eapply not_elem_of_nil. rewrite <-H0. by apply list_elem_of_filter.
  - intros Hall. destruct (base.filter _ _) as [|y l] eqn:Hf; [done|]. exfalso.
    assert (y ∈ base.filter (fun d => d ∉ dn) (depsOf byID x)) as Hy by (rewrite Hf; left).
    apply list_elem_of_filter in Hy as [Hn Hy]. by apply Hn, Hall.
Qed.

Lemma waits_ext dn dn' x : (forall d, d ∈ dn <-> d ∈ dn') -> waits byID dn x = waits byID dn' x.
Proof.
  intros H. unfold waits. f_equal. apply filter_ext_in. intros d _. by rewrite H.
Qed.

(** The counts are the waiting dependencies of the steps not done. *)
Definition counted (dn : list string) (ind : gmap string Z) : Prop :=
  forall x, x ∈ ids nodes -> default 0 (ind !! x) = Z.of_nat (waits byID dn x).

(** A round over the ready steps: the steps it makes ready are those whose
    last dependency it placed. *)
Lemma visit_round lvl R : forall dn ind next ord,
  NoDup R -> (forall r, r ∈ R -> r ∉ dn) -> (forall r, r ∈ R -> r ∈ ids nodes) ->
  counted dn ind -> NoDup next ->
  (forall x, x ∈ next -> x ∈ ids nodes /\ waits byID dn x = O) ->
  let r := foldl (visit_node byID dependants lvl) (ind, next, ord) R in
  counted (reverse R ++ dn) r.1.1 /\ NoDup r.1.2 /\
  (forall x, x ∈ r.1.2 <-> x ∈ next \/
    x ∈ ids nodes /\ waits byID (reverse R ++ dn) x = O /\ waits byID dn x <> O) /\
  r.2 = ord ++ (set_level lvl <$> omap (fun id => byID !! id) R).
Proof.
  induction R as [|y R IH]; intros dn ind next ord HndR Hdn Hkeys Hind Hnd Hnext.
  { cbn. split; [done|]. split; [done|]. split; [|by rewrite app_nil_r].
    intros x. split; [by left|]. intros [?|(_ & ? & ?)]; done. }
  apply NoDup_cons in HndR as [Hy HndR].
  destruct (visit_dependants_spec (default [] (dependants !! y)) ind next (dependants_NoDup y))
    as [Hf2 Hf1].
  assert (y ∉ dn) as Hydn by (apply Hdn; left).
  cbn zeta. cbn [foldl]. unfold visit_node at 2 4 6 8. cbn [fst snd].
  destruct (foldl visit_dependant (ind, next) (default [] (dependants !! y)))
    as [ind1 next1] eqn:Hfold. cbn [fst snd] in Hf1, Hf2.
  assert (counted (y :: dn) ind1) as Hind1.
  { intros x Hx. rewrite Hf1, waits_cons, Hind by done. f_equal.
    erewrite decide_ext; [reflexivity|]. rewrite elem_of_dependants. tauto. }
  assert (forall x, x ∈ next1 <-> x ∈ next \/
    x ∈ ids nodes /\ waits byID (y :: dn) x = O /\ waits byID dn x <> O) as Hnext1.
  { intros x. rewrite Hf2, elem_of_app, list_elem_of_filter, elem_of_dependants.
    apply or_iff_compat_l. split.
    - intros (H1 & Hk & Hd). rewrite Hind in H1 by done. split; [done|].
      pose proof (waits_cons dn y x Hydn) as Hw. rewrite decide_True in Hw by done. lia.
    - intros (Hk & H0 & H1). pose proof (waits_cons dn y x Hydn) as Hw.
      destruct (decide (y ∈ depsOf byID x)); [|lia]. rewrite Hind by done. split; [lia|done]. }
  assert (NoDup next1) as Hnd1.
  { rewrite Hf2. apply NoDup_app. split; [done|]. split.
    - intros x Hx (H1 & Hd)%list_elem_of_filter. destruct (Hnext x Hx) as [Hk H0].
      rewrite Hind, H0 in H1 by done. done.
    - apply NoDup_filter, dependants_NoDup. }
  destruct (IH (y :: dn) ind1 next1 (ord ++ option_list (set_level lvl <$> byID !! y)))
    as (Hc & Hn & Hx & Ho); [done|..|done|done| |].
  - intros r Hr [->|Hrd]%elem_of_cons; [done|]. by apply (Hdn r); [right|].
  - intros r Hr. apply Hkeys. by right.
  - intros x [Hx|(? & ? & ?)]%Hnext1; [|done]. destruct (Hnext x Hx) as [Hk H0].
    split; [done|]. pose proof (waits_cons dn y x Hydn). destruct (decide _); lia.
  - cbn zeta in *.
    assert (forall x, waits byID (reverse (y :: R) ++ dn) x = waits byID (reverse R ++ y :: dn) x) as Hw.
    { intros x. apply waits_ext. intros d. rewrite !elem_of_app, !elem_of_reverse, !elem_of_cons. tauto. }
    split; [intros x Hk; rewrite Hw; by apply Hc|]. split; [done|]. split.
    + intros x. rewrite Hx, Hnext1, Hw.
      assert (waits byID (y :: dn) x = O -> waits byID (reverse R ++ y :: dn) x = O) as Hmono.
      { rewrite !waits_zero. intros H d Hd. apply elem_of_app. right. by apply H. }
      assert (waits byID dn x = O -> waits byID (y :: dn) x = O) as Hmono'.
      { rewrite !waits_zero. intros H d Hd. right. by apply H. }
      destruct (decide (waits byID (y :: dn) x = O)); tauto.
    + rewrite Ho, <-app_assoc. f_equal. cbn [omap list_omap].
      destruct (byID !! y); done.
Qed.

(** ** Between two rounds *)

(** The place of two steps in the result: by level, then by order, then by
    name. *)
Definition node_less (l r : TopologyNode) : bool :=
  if negb (Order l =? Order r) then Order l <? Order r else String.ltb (Name l) (Name r).
Definition place_le (a b : TopologyNode) : Prop :=
  Level a < Level b \/ (Level a = Level b /\ node_less b a = false).

(** Placed steps come from [nodes], in topological order, and their level is
    one more than the largest level of a dependency. *)
Record placed (level : Z) (ordered : list TopologyNode) : Prop := {
  placed_node : forall n, n ∈ ordered ->
    exists n0, n0 ∈ nodes /\ n = set_level (Level n) n0;
  placed_below : forall n, n ∈ ordered -> 0 <= Level n < level;
  placed_deps : forall l1 n l2, ordered = l1 ++ n :: l2 -> forall d, d ∈ DependsOn n ->
    exists m, m ∈ l1 /\ ID m = d /\ Level m < Level n;
  placed_exact : forall n, n ∈ ordered ->
    (Level n = 0 /\ DependsOn n = []) \/
    exists m, m ∈ ordered /\ ID m ∈ DependsOn n /\ Level n = Level m + 1;
  placed_sorted : Sorted place_le ordered;
}.

Record Inv (level : Z) (ready : list string) (ind : gmap string Z)
    (ordered : list TopologyNode) : Prop := {
  inv_level : 0 <= level;
  inv_NoDup : NoDup (ids ordered ++ ready);
  inv_counted : counted (ids ordered) ind;
  inv_ready : forall x, x ∈ ids ordered ++ ready <->
    x ∈ ids nodes /\ waits byID (ids ordered) x = O;
  inv_placed : placed level ordered;
  inv_first : forall x, x ∈ ready ->
    (level = 0 /\ depsOf byID x = []) \/
    exists m, m ∈ ordered /\ ID m ∈ depsOf byID x /\ level = Level m + 1;
  inv_sorted : Sorted (not_after byID) ready;
}.

Lemma ids_set_level lvl (l : list TopologyNode) : ids (set_level lvl <$> l) = ids l.
Proof. rewrite <-list_fmap_compose. by apply list_fmap_ext. Qed.

Lemma ids_omap (R : list string) : (forall r, r ∈ R -> r ∈ ids nodes) ->
  ids (omap (fun id => byID !! id) R) = R.
Proof.
  induction R as [|r R IH]; intros HR; [done|]. cbn [omap list_omap].
  destruct (key_node r) as (n & Hn & Hid & Hl); [apply HR; left|]. rewrite Hl.
  rewrite fmap_cons, Hid, IH; [done|]. intros x Hx. apply HR. by right.
Qed.

Lemma elem_of_round lvl (R : list string) n : (forall r, r ∈ R -> r ∈ ids nodes) ->
  n ∈ set_level lvl <$> omap (fun id => byID !! id) R ->
  exists n0, n0 ∈ nodes /\ ID n0 ∈ R /\ n = set_level lvl n0.
Proof.
  intros HR (n0 & -> & (id & Hid & Hl)%list_elem_of_omap)%list_elem_of_fmap.
  apply (linked_index _ _ _ HL) in Hl as [Hn <-]. eauto.
Qed.

Lemma not_after_total : Total (not_after byID).
Proof.
  intros x y. unfold not_after, topology_less.
  assert (forall a b, String.ltb a b = false \/ String.ltb b a = false) as Hs.
  { intros a b. unfold String.ltb. rewrite (String.compare_antisym a b).
    destruct (String.compare b a); simpl; auto. }
  destruct (byID !! x) as [l|], (byID !! y) as [r|]; try apply Hs.
  rewrite (Z.eqb_sym (Order r)).
  destruct (Z.eqb_spec (Order l) (Order r)); cbn [negb]; [apply Hs|].
  rewrite !Z.ltb_ge. lia.
Qed.

Lemma sorted_round lvl (R : list string) : (forall r, r ∈ R -> r ∈ ids nodes) ->
  Sorted (not_after byID) R ->
  Sorted place_le (set_level lvl <$> omap (fun id => byID !! id) R).
Proof.
  intros HR Hs. induction Hs as [|x R Hs IH Hhd]; [constructor|].
  assert (forall r, r ∈ R -> r ∈ ids nodes) as HR' by (intros r Hr; apply HR; by right).
  specialize (IH HR'). cbn [omap list_omap].
  destruct (key_node x) as (n & Hn & Hid & Hl); [apply HR; left|]. rewrite Hl, fmap_cons.
  constructor; [done|]. destruct Hhd as [|y R Hxy]; [constructor|].
  destruct (key_node y) as (n' & Hn' & Hid' & Hl'); [apply HR'; left|].
  cbn [omap list_omap]. rewrite Hl', fmap_cons. constructor. right. split; [done|].
  unfold not_after, topology_less in Hxy. rewrite Hl, Hl' in Hxy. exact Hxy.
Qed.

Lemma placed_round lvl (R : list string) ordered :
  0 <= lvl -> placed lvl ordered -> (forall r, r ∈ R -> r ∈ ids nodes) ->
  (forall r d, r ∈ R -> d ∈ depsOf byID r -> d ∈ ids ordered) ->
  (forall x, x ∈ R -> (lvl = 0 /\ depsOf byID x = []) \/
    exists m, m ∈ ordered /\ ID m ∈ depsOf byID x /\ lvl = Level m + 1) ->
  Sorted (not_after byID) R ->
  placed (lvl + 1) (ordered ++ (set_level lvl <$> omap (fun id => byID !! id) R)).
Proof.
  intros Hlvl HP HR Hdeps Hfirst Hsort. split.
  - intros n [Hn|Hn]%elem_of_app; [by apply (placed_node _ _ HP)|].
    apply elem_of_round in Hn as (n0 & Hn0 & _ & ->); [|done]. by exists n0.
  - intros n [Hn|Hn]%elem_of_app; [pose proof (placed_below _ _ HP n Hn); lia|].
    apply elem_of_round in Hn as (n0 & Hn0 & _ & ->); [|done]. simpl. lia.
  - intros l1 n l2 Heq d Hd. apply app_eq_app in Heq as (l & [[-> Heq]|[-> Heq]]).
    + destruct l as [|n' l]; simpl in Heq.
      * assert (n ∈ set_level lvl <$> omap (fun id => byID !! id) R) as Hn by (rewrite <-Heq; left).
        apply elem_of_round in Hn as (n0 & Hn0 & HnR & ->); [|done].
        specialize (Hdeps (ID n0) d HnR). rewrite depsOf_node in Hdeps by done.
        specialize (Hdeps Hd). apply list_elem_of_fmap in Hdeps as (m & -> & Hm).
        rewrite app_nil_r in *. exists m. split; [done|]. split; [done|].
        pose proof (placed_below _ _ HP m Hm). simpl. lia.
      * injection Heq as <- ->. by apply (placed_deps _ _ HP l1 n l).
    + assert (n ∈ set_level lvl <$> omap (fun id => byID !! id) R) as Hn
        by (rewrite Heq; apply elem_of_app; right; left).
      apply elem_of_round in Hn as (n0 & Hn0 & HnR & ->); [|done].
      specialize (Hdeps (ID n0) d HnR). rewrite depsOf_node in Hdeps by done.
      specialize (Hdeps Hd). apply list_elem_of_fmap in Hdeps as (m & -> & Hm).
      exists m. split; [apply elem_of_app; by left|]. split; [done|].
      pose proof (placed_below _ _ HP m Hm). simpl. lia.
  - intros n [Hn|Hn]%elem_of_app.
    + destruct (placed_exact _ _ HP n Hn) as [?|(m & Hm & ? & ?)]; [by left|].
      right. exists m. split; [apply elem_of_app; by left|done].
    + apply elem_of_round in Hn as (n0 & Hn0 & HnR & ->); [|done].
      destruct (Hfirst _ HnR) as [[? He]|(m & Hm & Hd & ?)];
        rewrite depsOf_node in * by done; [by left|].
      right. exists m. split; [apply elem_of_app; by left|done].
  - apply Sorted_app_all; [by apply (placed_sorted _ _ HP)|by apply sorted_round|].
    intros a b Ha Hb. apply elem_of_round in Hb as (n0 & _ & _ & ->); [|done].
    left. pose proof (placed_below _ _ HP a Ha). simpl. lia.
Qed.

Lemma Inv_round lvl R ind ordered :
  Inv lvl R ind ordered ->
  let r := foldl (visit_node byID dependants lvl) (ind, [], ordered) R in
  Inv (lvl + 1) (sortTopologyIDs r.1.2 byID) r.1.1 r.2 /\
  length r.2 = (length ordered + length R)%nat.
Proof.
  intros HI. pose proof (inv_NoDup _ _ _ _ HI) as Hnd.
  apply NoDup_app in Hnd as (Hnd1 & Hdisj & Hnd2).
  assert (forall r, r ∈ R -> r ∈ ids nodes /\ waits byID (ids ordered) r = O) as HR.
  { intros r Hr. apply (inv_ready _ _ _ _ HI). apply elem_of_app. by right. }
  destruct (visit_round lvl R (ids ordered) ind [] ordered) as (Hc & Hn & Hx & Ho);
    [done|by intros r Hr Hd; apply (Hdisj r)|by intros r Hr; apply HR|
     apply (inv_counted _ _ _ _ HI)|constructor|by intros x Hx%not_elem_of_nil|].
  cbn zeta in *. destruct (foldl _ _ R) as [[ind' next] ord']. cbn [fst snd] in *.
  assert (ids ord' = ids ordered ++ R) as Hids.
  { rewrite Ho, fmap_app, ids_set_level, ids_omap by (by intros; apply HR). done. }
  assert (forall x, waits byID (ids ord') x = waits byID (reverse R ++ ids ordered) x) as Hw.
  { intros x. apply waits_ext. intros d. rewrite Hids, !elem_of_app, elem_of_reverse. tauto. }
  assert (forall x, x ∈ next <-> x ∈ ids nodes /\ waits byID (ids ord') x = O /\
    waits byID (ids ordered) x <> O) as Hnext.
  { intros x. rewrite Hx, Hw. split; [by intros [?%not_elem_of_nil|?]|by right]. }
  assert (forall x, x ∈ sortTopologyIDs next byID <-> x ∈ next) as Hsort.
  { intros x. unfold sortTopologyIDs. by rewrite merge_sort_Permutation. }
  split; [|by rewrite <-(length_fmap ID), Hids, length_app, length_fmap].
  pose proof (inv_level _ _ _ _ HI). split.
  - lia.
  - unfold sortTopologyIDs. rewrite merge_sort_Permutation, Hids.
    apply NoDup_app. split; [by apply (inv_NoDup _ _ _ _ HI)|]. split; [|done].
    intros x Hxr Hxn. apply Hnext in Hxn as (_ & _ & Hne). apply Hne.
    by apply (inv_ready _ _ _ _ HI).
  - intros x Hk. rewrite Hw. by apply Hc.
  - intros x. rewrite elem_of_app, Hsort, Hnext, Hids. rewrite (inv_ready _ _ _ _ HI).
    assert (waits byID (ids ordered) x = O -> waits byID (ids ordered ++ R) x = O) as Hmono.
    { rewrite !waits_zero. intros Hall d Hd. apply elem_of_app. left. by apply Hall. }
    rewrite <-Hids in Hmono |- *. destruct (decide (waits byID (ids ordered) x = O)); tauto.
  - rewrite Ho. apply placed_round; [done|by apply (inv_placed _ _ _ _ HI)|by intros; apply HR| |
      by apply (inv_first _ _ _ _ HI)|by apply (inv_sorted _ _ _ _ HI)].
    intros r d Hr Hd. destruct (HR r Hr) as [_ H0]. rewrite waits_zero in H0. by apply H0.
  - intros x Hxs. right. apply Hsort, Hnext in Hxs as (Hk & H0 & Hne).
    rewrite waits_zero in H0.
    assert (exists d, d ∈ depsOf byID x /\ d ∉ ids ordered) as (d & Hd & Hno).
    { unfold waits in Hne. destruct (base.filter _ (depsOf byID x)) as [|d l] eqn:Hf; [done|].
      exists d. assert (d ∈ base.filter (fun d => d ∉ ids ordered) (depsOf byID x)) as Hd
        by (rewrite Hf; left). apply list_elem_of_filter in Hd. tauto. }
    specialize (H0 d Hd). rewrite Ho, fmap_app in H0. apply elem_of_app in H0 as [?|H0]; [done|].
    apply list_elem_of_fmap in H0 as (m & -> & Hm). exists m. rewrite Ho.
    split; [apply elem_of_app; by right|]. split; [done|].
    apply elem_of_round in Hm as (n0 & _ & _ & ->); [done|by intros; apply HR].
  - apply Sorted_merge_sort, not_after_total.
Qed.

Lemma Inv_length lvl R ind ordered :
  Inv lvl R ind ordered -> (length ordered + length R <= length nodes)%nat.
Proof.
  intros HI. rewrite <-(length_fmap ID ordered), <-length_app, <-(length_fmap ID nodes).
  apply submseteq_length, NoDup_submseteq; [by apply (inv_NoDup _ _ _ _ HI)|].
  intros x Hx. by apply (inv_ready _ _ _ _ HI) in Hx as [? _].
Qed.

(** The loop stops with fuel for the steps that remain, and no step is ready
    when it does. *)
Lemma level_loop_spec fuel : forall lvl R ind ordered,
  Inv lvl R ind ordered -> (length nodes <= length ordered + fuel)%nat ->
  exists lvl' ind' ordered', level_loop byID dependants fuel lvl R ind ordered = Some ordered' /\
    Inv lvl' [] ind' ordered'.
Proof.
  induction fuel as [|fuel IH]; intros lvl R ind ordered HI Hf.
  - destruct R as [|r R]; [by exists lvl, ind, ordered|].
    pose proof (Inv_length _ _ _ _ HI) as Hl. simpl in Hl. lia.
  - destruct R as [|r R]; [by exists lvl, ind, ordered|].
    destruct (Inv_round _ _ _ _ HI) as [HI' Hlen]. cbn [level_loop]. cbn zeta in *.
    destruct (foldl _ _ (r :: R)) as [[ind' next] ord']. cbn [fst snd] in *.
    apply IH; [done|]. simpl in Hlen. lia.
Qed.
End Loop.

(** ** [resolveTopology] *)

(** The steps as the level loop sees them. *)
Notation normalized nodes := (fmap (M := list) normalize_node nodes).

Lemma ids_normalized nodes : ids (normalized nodes) = ids nodes.
Proof. rewrite <-list_fmap_compose. by apply list_fmap_ext. Qed.

(** The steps resolution does not reject before it orders them. *)
Record well_formed (nodes : list TopologyNode) : Prop := {
  wf_ids : NoDup (ids nodes);
  wf_resets : forall n, n ∈ nodes -> normalizeDependencies (ResetMocks n) <> [] ->
    Kind n = "test" /\ forall target, target ∈ normalizeDependencies (ResetMocks n) ->
      exists m, m ∈ nodes /\ ID m = target /\ Kind m = "mock";
  wf_deps : forall n d, n ∈ nodes -> d ∈ normalizeDependencies (DependsOn n) -> d ∈ ids nodes;
}.

(** A rank that grows along every dependency: there is no cycle. *)
Definition ranked (nodes : list TopologyNode) (rank : string -> nat) : Prop :=
  forall n d, n ∈ nodes -> d ∈ normalizeDependencies (DependsOn n) -> (rank d < rank (ID n))%nat.

Lemma check_targets_spec byID id targets :
  check_targets byID id targets = None <->
  forall t, t ∈ targets -> exists m, byID !! t = Some m /\ Kind m = "mock".
Proof.
  induction targets as [|t rest IH]; cbn [check_targets].
  { split; [|done]. by intros _ t ?%not_elem_of_nil. }
  setoid_rewrite elem_of_cons. destruct (byID !! t) as [m|] eqn:Ht.
  - destruct (bool_decide_reflect (Kind m = "mock")) as [Hk|Hk].
    + rewrite IH. split; [intros H x [->|Hx]; eauto|auto].
    + split; [done|]. intros H. destruct (H t) as (m' & Hm & ?); [by left|]. congruence.
  - split; [done|]. intros H. destruct (H t) as (m' & Hm & ?); [by left|]. congruence.
Qed.

Lemma check_resets_spec byID nodes :
  check_resets byID nodes = None <->
  forall n, n ∈ nodes -> ResetMocks n <> [] ->
    Kind n = "test" /\ forall t, t ∈ ResetMocks n -> exists m, byID !! t = Some m /\ Kind m = "mock".
Proof.
  induction nodes as [|n rest IH]; cbn [check_resets].
  { split; [|done]. by intros _ n ?%not_elem_of_nil. }
  assert (forall P : TopologyNode -> Prop,
    (forall x, x ∈ n :: rest -> P x) <-> P n /\ forall x, x ∈ rest -> P x) as Hcons.
  { intros P. setoid_rewrite elem_of_cons. split; [auto|]. by intros [? ?] x [->|?]; auto. }
  rewrite (Hcons (fun n => ResetMocks n <> [] -> _)), <-IH. clear Hcons IH.
  destruct (bool_decide_reflect (ResetMocks n = [])) as [H0|H0]; [tauto|].
  destruct (bool_decide_reflect (Kind n = "test")) as [Hk|Hk]; cbn [negb].
  - rewrite <-check_targets_spec with (id := ID n). destruct (check_targets _ _ _); [|tauto].
    split; [done|]. intros [H _]. destruct (H H0) as [_ [=]].
  - split; [done|]. tauto.
Qed.
Lemma index_normalized nodes byID :
  index_nodes (normalized nodes) ∅ = inr byID ->
  NoDup (ids nodes) /\
  forall id n, byID !! id = Some n <-> n ∈ normalized nodes /\ ID n = id.
Proof.
  intros (_ & Hnd & Hspec)%index_nodes_spec. rewrite ids_normalized in Hnd. split; [done|].
  intros id n. rewrite Hspec, lookup_empty. split; [by intros [?|?]|by right].
Qed.

Lemma link_normalized nodes byID ind D :
  index_nodes (normalized nodes) ∅ = inr byID ->
  link_nodes byID (normalized nodes) ∅ ∅ = inr (ind, D) ->
  linked (normalized nodes) byID D /\ counted (normalized nodes) byID [] ind.
Proof.
  intros [Hnd Hidx]%index_normalized Hlink.
  assert (NoDup (ids (normalized nodes))) as Hnd' by by rewrite ids_normalized.
  assert (forall n, n ∈ normalized nodes -> NoDup (DependsOn n)) as Hdeps.
  { intros n (n0 & -> & _)%list_elem_of_fmap. apply normalizeDependencies_NoDup. }
  destruct (link_nodes_spec _ _ _ _ _ _ Hlink Hdeps Hnd') as (Hk & Hi & _ & HD).
  assert (linked (normalized nodes) byID D) as HL.
  { split; [done|done|done| |done]. intros n d Hn Hd.
    destruct (Hk n d Hn Hd) as [m Hm]. apply Hidx in Hm as [Hm <-].
    by apply list_elem_of_fmap_2. }
  split; [done|]. intros x (n & -> & Hn)%list_elem_of_fmap. rewrite Hi by done.
  unfold waits. rewrite (depsOf_node _ _ _ HL) by done. f_equal.
  generalize (DependsOn n). intros l. induction l as [|y l IH]; [done|].
  rewrite filter_cons, decide_True by apply not_elem_of_nil. simpl. by rewrite IH.
Qed.

(** What the level loop leaves: the steps placed, and every step all of whose
    dependencies are placed is placed. *)
Lemma resolve_linked nodes byID ind D :
  index_nodes (normalized nodes) ∅ = inr byID ->
  link_nodes byID (normalized nodes) ∅ ∅ = inr (ind, D) ->
  exists lvl ind' ordered,
    level_loop byID D (length (normalized nodes)) 0
      (sortTopologyIDs (base.filter (fun id => default 0 (ind !! id) = 0)
        (ids (normalized nodes))) byID) ind [] = Some ordered /\
    Inv (normalized nodes) byID lvl [] ind' ordered.
Proof.
  intros Hidx Hlink. destruct (link_normalized _ _ _ _ Hidx Hlink) as [HL Hc].
  eapply level_loop_spec; [exact HL| |simpl; lia].
  assert (forall x, x ∈ sortTopologyIDs (base.filter (fun id => default 0 (ind !! id) = 0)
        (ids (normalized nodes))) byID <->
      x ∈ ids (normalized nodes) /\ waits byID [] x = O) as Hready.
  { intros x. unfold sortTopologyIDs. rewrite merge_sort_Permutation, list_elem_of_filter.
    split.
    - intros [H0 Hx]. rewrite Hc in H0 by done. split; [done|lia].
    - intros [Hx H0]. rewrite Hc by done. split; [lia|done]. }
  split.
  - lia.
  - unfold sortTopologyIDs. rewrite merge_sort_Permutation. simpl.
    apply NoDup_filter. apply (linked_ids _ _ _ HL).
  - done.
  - apply Hready.
  - split; try (by intros ? ?%not_elem_of_nil); [|constructor].
    intros l1 n l2 Heq. by destruct l1.
  - intros x [Hx H0]%Hready. left. split; [done|]. rewrite waits_zero in H0.
    destruct (depsOf byID x) as [|d l]; [done|]. exfalso.
    apply (not_elem_of_nil d). apply H0. left.
  - apply Sorted_merge_sort, not_after_total.
Qed.

Lemma well_formed_checks nodes :
  well_formed nodes <->
  exists byID ind D, index_nodes (normalized nodes) ∅ = inr byID /\
    check_resets byID (normalized nodes) = None /\
    link_nodes byID (normalized nodes) ∅ ∅ = inr (ind, D).
Proof.
  split.
  - intros [Hnd Hres Hdep].
    destruct (index_nodes (normalized nodes) ∅) as [e|byID] eqn:Hidx.
    { apply index_nodes_duplicate in Hidx as (id & _ & _ & [Hs|Hs]).
      - rewrite lookup_empty in Hs. by destruct Hs.
      - by rewrite ids_normalized in Hs. }
    pose proof (index_normalized _ _ Hidx) as [_ Hspec]. exists byID.
    destruct (link_nodes byID (normalized nodes) ∅ ∅) as [e|[ind D]] eqn:Hlink.
    { exfalso. apply link_nodes_missing in Hlink as (n & d & Hn & Hd & Hnone & _).
      apply list_elem_of_fmap in Hn as (n0 & -> & Hn0). specialize (Hdep n0 d Hn0 Hd).
      apply list_elem_of_fmap in Hdep as (m & -> & Hm).
      rewrite (proj2 (Hspec (ID m) (normalize_node m))) in Hnone; [done|].
      split; [by apply list_elem_of_fmap_2|done]. }
    exists ind, D. split; [done|]. split; [|done]. apply check_resets_spec.
    intros n (n0 & -> & Hn0)%list_elem_of_fmap Hne. destruct (Hres n0 Hn0 Hne) as [Hk Ht].
    split; [done|]. intros t Hin. destruct (Ht t Hin) as (m & Hm & <- & Hmk).
    exists (normalize_node m). split; [|done]. apply Hspec.
    split; [by apply list_elem_of_fmap_2|done].
  - intros (byID & ind & D & Hidx & Hres & Hlink).
    destruct (link_normalized _ _ _ _ Hidx Hlink) as [HL _].
    apply index_normalized in Hidx as [Hnd Hspec]. split; [done|..].
    + intros n Hn Hne. rewrite check_resets_spec in Hres.
      destruct (Hres (normalize_node n)) as [Hk Ht]; [by apply list_elem_of_fmap_2|done|].
      split; [done|]. intros t Hin. destruct (Ht t Hin) as (m & Hm & Hmk).
      apply Hspec in Hm as [(m0 & -> & Hm0)%list_elem_of_fmap Hid]. eauto.
    + intros n d Hn Hd. rewrite <-ids_normalized.
      apply (linked_keys _ _ _ HL (normalize_node n)); [by apply list_elem_of_fmap_2|done].
Qed.

Lemma check_targets_cycle byID id l e : check_targets byID id l = Some e -> e <> DependencyCycle.
Proof.
  induction l as [|t l IH]; cbn [check_targets]; [done|].
  destruct (byID !! t); [case_bool_decide|]; try done; by intros [= <-].
Qed.

Lemma check_resets_cycle byID nodes e : check_resets byID nodes = Some e -> e <> DependencyCycle.
Proof.
  induction nodes as [|n rest IH]; cbn [check_resets]; [done|].
  case_bool_decide; [done|]. case_bool_decide; cbn [negb]; [|by intros [= <-]].
  destruct (check_targets _ _ _) eqn:Ht; [|done]. intros [= <-].
  by eapply check_targets_cycle.
Qed.

(** The outcome of a resolution of well-formed steps. *)
Lemma resolve_well_formed nodes byID ind D :
  nodes <> [] -> index_nodes (normalized nodes) ∅ = inr byID ->
  check_resets byID (normalized nodes) = None ->
  link_nodes byID (normalized nodes) ∅ ∅ = inr (ind, D) ->
  exists lvl ind' ordered,
    resolveTopology nodes = Some (if negb (Nat.eqb (length ordered) (length (normalized nodes)))
                                  then inl DependencyCycle else inr ordered) /\
    Inv (normalized nodes) byID lvl [] ind' ordered.
Proof.
  intros Hne Hidx Hres Hlink.
  destruct (resolve_linked _ _ _ _ Hidx Hlink) as (lvl & ind' & ordered & Hloop & HI).
  exists lvl, ind', ordered. split; [|done]. unfold resolveTopology.
  rewrite bool_decide_eq_false_2 by done. cbn zeta. rewrite Hidx, Hres, Hlink, Hloop. done.
Qed.

Lemma resolve_total (nodes : list TopologyNode) :
  exists r, resolveTopology nodes = Some r.
Proof.
  destruct (decide (nodes = [])) as [->|Hne]; [by eexists|].
  destruct (index_nodes (normalized nodes) ∅) as [e|byID] eqn:Hidx;
    [|destruct (check_resets byID (normalized nodes)) as [e|] eqn:Hres;
      [|destruct (link_nodes byID (normalized nodes) ∅ ∅) as [e|[ind D]] eqn:Hlink]].
  4: { destruct (resolve_well_formed _ _ _ _ Hne Hidx Hres Hlink) as (? & ? & ? & -> & _); eauto. }
  all: unfold resolveTopology; rewrite bool_decide_eq_false_2 by done; cbn zeta;
    rewrite Hidx, ?Hres, ?Hlink; eauto.
Qed.

(** The result of a resolution, as its callers use it: every step once, every
    dependency before its dependants on a smaller level, the levels exact
    (one more than the largest level of a dependency), sorted by level, order
    and name. *)
Record resolved (nodes ordered : list TopologyNode) : Prop := {
  resolved_ids : ids ordered ≡ₚ ids nodes;
  resolved_node : forall n, n ∈ ordered ->
    exists n0, n0 ∈ nodes /\ n = set_level (Level n) (normalize_node n0);
  resolved_deps : forall l1 n l2, ordered = l1 ++ n :: l2 -> forall d, d ∈ DependsOn n ->
    exists m, m ∈ l1 /\ ID m = d /\ Level m < Level n;
  resolved_exact : forall n, n ∈ ordered ->
    (Level n = 0 /\ DependsOn n = []) \/
    exists m, m ∈ ordered /\ ID m ∈ DependsOn n /\ Level n = Level m + 1;
  resolved_sorted : Sorted place_le ordered;
}.

Lemma resolved_Inv nodes byID lvl ind ordered :
  NoDup (ids nodes) -> Inv (normalized nodes) byID lvl [] ind ordered ->
  length ordered = length (normalized nodes) -> resolved nodes ordered.
Proof.
  intros Hnd HI Hlen. pose proof (inv_placed _ _ _ _ _ _ HI) as HP. split.
  - apply submseteq_length_Permutation.
    + apply NoDup_submseteq.
      * pose proof (inv_NoDup _ _ _ _ _ _ HI) as H. by rewrite app_nil_r in H.
      * intros x Hx. rewrite <-ids_normalized. apply (inv_ready _ _ _ _ _ _ HI).
        by rewrite app_nil_r.
    + rewrite !length_fmap in *. lia.
  - intros n Hn. destruct (placed_node _ _ _ HP n Hn) as (m & Hm & Heq).
    apply list_elem_of_fmap in Hm as (n0 & -> & Hn0). eauto.
  - apply (placed_deps _ _ _ HP).
  - apply (placed_exact _ _ _ HP).
  - apply (placed_sorted _ _ _ HP).
Qed.

Lemma resolve_resolved nodes ordered :
  resolveTopology nodes = Some (inr ordered) -> resolved nodes ordered.
Proof.
  intros H.
  destruct (decide (nodes = [])) as [->|Hne].
  { injection H as <-. split; try (by intros ? ?%not_elem_of_nil); [done| |constructor].
    intros l1 n l2 Heq. by destruct l1. }
  destruct (index_nodes (normalized nodes) ∅) as [e|byID] eqn:Hidx;
    [|destruct (check_resets byID (normalized nodes)) as [e|] eqn:Hres;
      [|destruct (link_nodes byID (normalized nodes) ∅ ∅) as [e|[ind D]] eqn:Hlink]].
  4: { destruct (resolve_well_formed _ _ _ _ Hne Hidx Hres Hlink) as (lvl & ind' & l & Heq & HI).
    rewrite Heq in H. destruct (Nat.eqb_spec (length l) (length (normalized nodes))); [|done].
    injection H as <-. eapply resolved_Inv; [|done..]. by apply index_normalized in Hidx as [? _]. }
  all: unfold resolveTopology in H; rewrite bool_decide_eq_false_2 in H by done;
    cbn zeta in H; rewrite Hidx, ?Hres, ?Hlink in H; done.
Qed.

(** C3: What [resolveTopology] returns without an error is a levelled
    topological order of the steps it was given. *)
Theorem resolveTopology_order (nodes ordered : list TopologyNode)
    (H : resolveTopology nodes = Some (inr ordered)) : resolved nodes ordered.
Proof. by apply resolve_resolved. Qed.

(** The steps that are not placed have no rank. *)
Lemma ranked_complete nodes byID ind D lvl ind' ordered rank :
  index_nodes (normalized nodes) ∅ = inr byID ->
  link_nodes byID (normalized nodes) ∅ ∅ = inr (ind, D) ->
  Inv (normalized nodes) byID lvl [] ind' ordered -> ranked nodes rank ->
  length ordered = length (normalized nodes).
Proof.
  intros Hidx Hlink HI Hrank. destruct (link_normalized _ _ _ _ Hidx Hlink) as [HL _].
  assert (forall k x, (rank x < k)%nat -> x ∈ ids nodes -> x ∈ ids ordered) as Hall.
  { intros k. induction k as [|k IH]; intros x Hk Hx; [lia|].
    assert (x ∈ ids ordered ++ []) as H; [|by rewrite app_nil_r in H].
    apply (inv_ready _ _ _ _ _ _ HI). rewrite ids_normalized. split; [done|].
    apply waits_zero. intros d Hd.
    pose proof (depsOf_key _ _ _ HL _ _ Hd) as Hdk. rewrite ids_normalized in Hdk.
    apply IH; [|done]. apply list_elem_of_fmap in Hx as (n & -> & Hn).
    change (ID n) with (ID (normalize_node n)) in Hd.
    rewrite (depsOf_node _ _ _ HL) in Hd by (by apply list_elem_of_fmap_2).
    specialize (Hrank n d Hn Hd). lia. }
  pose proof (Inv_length _ _ _ _ _ _ HI) as Hle. simpl in Hle.
  assert (length (ids nodes) <= length (ids ordered))%nat as Hge.
  { apply submseteq_length, NoDup_submseteq; [by apply index_normalized in Hidx as [? _]|].
    intros x Hx. by apply (Hall (S (rank x))); [lia|]. }
  rewrite !length_fmap in *. lia.
Qed.

Lemma resolved_ranked nodes ordered :
  well_formed nodes -> resolved nodes ordered -> exists rank, ranked nodes rank.
Proof.
  intros [Hnd _ _] HR.
  assert (NoDup (ids ordered)) as Hndo by by rewrite (resolved_ids _ _ HR).
  set (level := list_to_map (M := gmap string Z) ((fun n => (ID n, Level n)) <$> ordered)).
  assert (forall n, n ∈ ordered -> level !! ID n = Some (Level n)) as Hlevel.
  { intros n Hn. apply elem_of_list_to_map.
    - rewrite <-list_fmap_compose. exact Hndo.
    - apply list_elem_of_fmap. by exists n. }
  assert (forall n, n ∈ ordered -> 0 <= Level n) as Hpos.
  { assert (forall l n l2, ordered = l ++ n :: l2 -> (forall m, m ∈ l -> 0 <= Level m) -> 0 <= Level n)
      as Hstep.
    { intros l n l2 Heq Hl. destruct (resolved_exact _ _ HR n) as [[-> _]|(m & _ & Hd & Hm)]; [|lia|].
      - rewrite Heq. apply elem_of_app. right. left.
      - destruct (resolved_deps _ _ HR _ _ _ Heq _ Hd) as (m' & Hm' & _ & Hlt).
        specialize (Hl m' Hm'). lia. }
    assert (forall l l2, ordered = l ++ l2 -> forall n, n ∈ l -> 0 <= Level n) as Hpre.
    { intros l. induction l as [|x l IH] using rev_ind; intros l2 Heq n Hn;
        [by apply not_elem_of_nil in Hn|].
      rewrite <-app_assoc in Heq. specialize (IH _ Heq).
      apply elem_of_app in Hn as [Hn|Hn%list_elem_of_singleton]; [by apply IH|]. subst.
      by eapply Hstep. }
    intros n. apply (Hpre ordered []). by rewrite app_nil_r. }
  exists (fun id => Z.to_nat (default 0 (level !! id))). intros n d Hn Hd.
  assert (ID n ∈ ids ordered) as Hin
    by (rewrite (resolved_ids _ _ HR); by apply list_elem_of_fmap_2).
  apply list_elem_of_fmap in Hin as (n' & Hid & Hn').
  destruct (resolved_node _ _ HR n' Hn') as (n0 & Hn0 & Heq).
  assert (ID n0 = ID n) as Hid0 by (rewrite Hid, Heq; done).
  assert (n0 = n) as ->.
  { apply list_elem_of_lookup in Hn0 as [i Hi], Hn as [j Hj].
    assert (ids nodes !! i = Some (ID n)) as Hi' by (by rewrite list_lookup_fmap, Hi, <-Hid0).
    assert (ids nodes !! j = Some (ID n)) as Hj' by (by rewrite list_lookup_fmap, Hj).
    pose proof (NoDup_lookup _ _ _ _ Hnd Hi' Hj'). congruence. }
  apply list_elem_of_split in Hn' as Hsplit. destruct Hsplit as (l1 & l2 & Hsp).
  destruct (resolved_deps _ _ HR l1 n' l2 Hsp d) as (m & Hm & <- & Hlt); [by rewrite Heq|].
  assert (m ∈ ordered) as Hmo by (rewrite Hsp; apply elem_of_app; by left).
  rewrite Hid, !Hlevel by done. simpl. specialize (Hpos m Hmo). lia.
Qed.
Lemma resolve_well_formed_inv nodes ordered :
  resolveTopology nodes = Some (inr ordered) -> well_formed nodes.
Proof.
  intros H. destruct (decide (nodes = [])) as [->|Hne].
  { split; [by apply NoDup_nil| |]; intros n; by intros ? ?%not_elem_of_nil || by intros ?%not_elem_of_nil. }
  apply well_formed_checks. unfold resolveTopology in H.
  rewrite bool_decide_eq_false_2 in H by done. cbn zeta in H.
  destruct (index_nodes (normalized nodes) ∅) as [e|byID] eqn:Hidx; [done|].
  destruct (check_resets byID (normalized nodes)) eqn:Hres; [done|].
  destruct (link_nodes byID (normalized nodes) ∅ ∅) as [e|[ind D]] eqn:Hlink; [done|]. eauto 10.
Qed.

(** Well-formed steps are ordered, or have a cycle. *)
Lemma resolve_outcome nodes : nodes <> [] -> well_formed nodes -> exists ordered,
  (resolveTopology nodes = Some (inr ordered) /\ exists rank, ranked nodes rank) \/
  (resolveTopology nodes = Some (inl DependencyCycle) /\ ~ exists rank, ranked nodes rank).
Proof.
  intros Hne Hwf.
  destruct (proj1 (well_formed_checks nodes) Hwf) as (byID & ind & D & Hidx & Hres & Hlink).
  destruct (resolve_well_formed _ _ _ _ Hne Hidx Hres Hlink) as (lvl & ind' & l & Heq & HI).
  exists l. rewrite Heq.
  destruct (Nat.eqb_spec (length l) (length (normalized nodes))) as [Hl|Hl]; cbn [negb].
  - left. split; [done|]. eapply resolved_ranked; [done|].
    eapply resolved_Inv; [apply Hwf|done..].
  - right. split; [done|]. intros [rank Hr]. apply Hl. by eapply ranked_complete.
Qed.

(** [resolveTopology] returns for every list of steps, since the level
    loop needs at most one round per step: an ordered topology, or an error,
    and then the steps are not well formed or have a cycle. *)
Theorem resolveTopology_total (nodes : list TopologyNode) :
  (exists ordered, resolveTopology nodes = Some (inr ordered) /\ resolved nodes ordered) \/
  (exists e, resolveTopology nodes = Some (inl e) /\
     ~ (well_formed nodes /\ exists rank, ranked nodes rank)).
Proof.
  destruct (resolve_total nodes) as [[e|ordered] H].
  - right. exists e. split; [done|]. intros [Hwf Hr].
    assert (nodes <> []) as Hne by (intros ->; discriminate H).
    destruct (resolve_outcome nodes Hne Hwf) as (l & [[H' _]|[_ Hno]]); [congruence|done].
  - left. exists ordered. split; [done|]. by apply resolve_resolved.
Qed.

(** C4: [resolveTopology] succeeds exactly on the topologies without
    repeated ids, dangling dependencies, misplaced reset targets and cycles,
    and answers [DependencyCycle] exactly on the well-formed ones that have a
    cycle. *)
Theorem resolveTopology_acyclic (nodes : list TopologyNode) (Hne : nodes <> []) :
  ((exists ordered, resolveTopology nodes = Some (inr ordered)) <->
     well_formed nodes /\ exists rank, ranked nodes rank) /\
  (resolveTopology nodes = Some (inl DependencyCycle) <->
     well_formed nodes /\ ~ exists rank, ranked nodes rank).
Proof.
  pose proof (resolve_well_formed_inv nodes) as Hwf1.
  assert (resolveTopology nodes = Some (inl DependencyCycle) -> well_formed nodes) as Hwf2.
  { intros H. apply well_formed_checks. unfold resolveTopology in H.
    rewrite bool_decide_eq_false_2 in H by done. cbn zeta in H.
    destruct (index_nodes (normalized nodes) ∅) as [e|byID] eqn:Hidx.
    { apply index_nodes_duplicate in Hidx as (? & -> & _). done. }
    destruct (check_resets byID (normalized nodes)) as [e|] eqn:Hres.
    { injection H as ->. by apply check_resets_cycle in Hres. }
    destruct (link_nodes byID (normalized nodes) ∅ ∅) as [e|[ind D]] eqn:Hlink; [|eauto 10].
    apply link_nodes_missing in Hlink as (? & ? & _ & _ & _ & ->). done. }
  pose proof (resolve_outcome nodes Hne) as Hor.
  split; split.
  - intros [ordered H]. pose proof (Hwf1 _ H) as Hwf. split; [done|].
    destruct (Hor Hwf) as (l & [[_ ?]|[H' _]]); [done|congruence].
  - intros [Hwf Hr]. destruct (Hor Hwf) as (l & [[? _]|[_ ?]]); [eauto|done].
  - intros H. pose proof (Hwf2 H) as Hwf. split; [done|].
    destruct (Hor Hwf) as (l & [[H' _]|[_ ?]]); [congruence|done].
  - intros [Hwf Hr]. destruct (Hor Hwf) as (l & [[_ ?]|[? _]]); done.
Qed.

Definition sample : list TopologyNode :=
  [step "api" ["migrate"; " db "] 0; step "db" [] 1; step "migrate" ["db"] 2; step "mock" [] 3].

Lemma resolveTopology_order_witness :
  exists ordered, resolveTopology sample = Some (inr ordered) /\ resolved sample ordered.
Proof.
  eexists. split; [vm_compute; reflexivity|]. apply resolveTopology_order. vm_compute. reflexivity.
Defined.

Definition sample_cycle : list TopologyNode :=
  [step "a" ["b"] 0; step "b" ["a"] 1; step "c" [] 2].

Lemma resolveTopology_acyclic_witness :
  (well_formed sample /\ exists rank, ranked sample rank) /\
  (well_formed sample_cycle /\ ~ exists rank, ranked sample_cycle rank).
Proof.
  split.
  - apply (proj1 (resolveTopology_acyclic sample ltac:(discriminate))).
    eexists. vm_compute. reflexivity.
  - apply (proj2 (resolveTopology_acyclic sample_cycle ltac:(discriminate))).
    vm_compute. reflexivity.
Defined.

(** ** Waiting *)

(** [a] waits for [b] directly. *)
Definition depends (nodes : list TopologyNode) (a b : string) : Prop :=
  exists n, n ∈ nodes /\ ID n = a /\ b ∈ DependsOn n.

Section Waiting.
  Context (nodes : list TopologyNode) (rank : string -> nat).
  Hypothesis Hclosed : forall n d, n ∈ nodes -> d ∈ DependsOn n -> d ∈ ids nodes.
  Hypothesis Hrank : forall n d, n ∈ nodes -> d ∈ DependsOn n -> (rank d < rank (ID n))%nat.

(** Every step leads to a step that waits for none. *)
Lemma reaches_root n : n ∈ nodes ->
  exists r, r ∈ nodes /\ DependsOn r = [] /\ rtc (depends nodes) (ID n) (ID r).
Proof.
  remember (rank (ID n)) as k eqn:Hk. revert n Hk.
  induction k as [k IH] using lt_wf_ind. intros n -> Hn.
  destruct (DependsOn n) as [|d l] eqn:Hd; [exists n; by split; [|split; [|apply rtc_refl]]|].
  assert (d ∈ DependsOn n) as Hdn by (rewrite Hd; left).
  pose proof (Hclosed n d Hn Hdn) as (m & -> & Hm)%list_elem_of_fmap.
  destruct (IH (rank (ID m))) with (n := m) as (r & Hr & Hr0 & Hrtc); [by apply Hrank|done|done|].
  exists r. split; [done|]. split; [done|]. eapply rtc_l; [|exact Hrtc]. by exists n.
Qed.

(** Every step is waited for by a step nobody waits for. *)
Lemma reached_from_exit n : n ∈ nodes ->
  exists e, e ∈ nodes /\ (forall m, m ∈ nodes -> ID e ∉ DependsOn m) /\
    rtc (depends nodes) (ID e) (ID n).
Proof.
  assert (exists B, forall m, m ∈ nodes -> (rank (ID m) < B)%nat) as [B HB].
  { exists (S (max_list (rank <$> ids nodes))). intros m Hm.
    apply Nat.lt_succ_r, max_list_elem_of_le. by do 2 apply list_elem_of_fmap_2. }
  remember (B - rank (ID n))%nat as k eqn:Hk. revert n Hk.
  induction k as [k IH] using lt_wf_ind. intros n -> Hn.
  destruct (decide (Exists (fun m => ID n ∈ DependsOn m) nodes)) as [Hex|Hno].
  - apply Exists_exists in Hex as (m & Hm & Hd). pose proof (Hrank m _ Hm Hd). pose proof (HB m Hm).
    destruct (IH (B - rank (ID m))%nat) with (n := m) as (e & He & He0 & Hrtc); [lia|done|done|].
    exists e. split; [done|]. split; [done|]. eapply rtc_r; [exact Hrtc|]. by exists m.
  - exists n. split; [done|]. split; [|apply rtc_refl]. intros m Hm Hd.
    apply Hno, Exists_exists. eauto.
Qed.
End Waiting.

End TopologyOrder.
