(* ===== verification/Suites.v ===== *)
(** Suite packages, [src/backend/internal/suites/types.go], [validation.go]
    and [source_content.go]: the files a suite ships, and the validation that
    decides which of them are accepted. *)
From Stdlib Require Import ZArith Lia Ascii.
From S2P Require Import Prelude GoStrings.
Import GoStrings.

Module Suites.

(** ** Data *)
Record ProfileOption := mkProfileOption {
  FileName : string; Label : string; OptionDescription : string; Default : bool }.
Record FolderEntry := mkFolder { FolderName : string; Files : list string }.
Record SourceFile := mkSource { Path : string; Content : string }.

(** [suites.Definition], without the fields that only describe the suite to a
    reader (owner, labels, score, commands, contracts, ...). *)
Record SuiteDefinition := mkSuite {
  SuiteID : string;
  Title : string;
  SuiteDescription : string;
  Repository : string;
  Version : string;
  SuiteStar : string;
  Profiles : list ProfileOption;
  Folders : list FolderEntry;
  SeedSources : list SourceFile;
  SourceFiles : list SourceFile;
}.

(** [explicitSuiteSourceContent]. *)
Fixpoint explicitSuiteSourceContent (files : list SourceFile) (path : string) : option string :=
  match files with
  | [] => None
  | file :: rest =>
      if bool_decide (TrimSpace (Path file) = TrimSpace path) then Some (Content file)
      else explicitSuiteSourceContent rest path
  end.

Definition normalizeSourcePath (folderName file : string) : string :=
  Trim (TrimSpace folderName +:+ "/" +:+ Trim (TrimSpace file) "/") "/".

(** ** [path.Clean] and [filepath.Ext] *)

(** One segment of a path, on the reversed stack of the segments kept. *)
Definition clean_step (rooted : bool) (out : list string) (segment : string) : list string :=
  if bool_decide (segment = "") || bool_decide (segment = ".") then out
  else if bool_decide (segment = "..") then
    match out with
    | top :: below => if bool_decide (top = "..") then ".." :: out else below
    | [] => if rooted then [] else [".."]
    end
  else segment :: out.
Definition clean_segments (rooted : bool) (segments : list string) : list string :=
  reverse (foldl (clean_step rooted) [] segments).
Definition Clean (path : string) : string :=
  let rooted := HasPrefix path "/" in
  let body := Join (clean_segments rooted (Split path "/")) "/" in
  if rooted then "/" +:+ body else if bool_decide (body = "") then "." else body.

(** The extension starts at the last dot of the last segment. *)
Fixpoint ext_rev (l acc : bytes) : bytes :=
  match l with
  | [] => []
  | c :: l' =>
      if bool_decide (c = "/"%char) then []
      else if bool_decide (c = "."%char) then c :: acc
      else ext_rev l' (c :: acc)
  end.
Definition Ext (path : string) : string := to_string (ext_rev (reverse (of_string path)) []).

Example Clean_ex : map Clean ["a//b/./c"; "../a/../.."; "/../x"; ""] = ["a/b/c"; "../.."; "/x"; "."].
Proof. reflexivity. Qed.
Example Ext_ex : map Ext ["a/b.tar.gz"; "a.d/b"; "x."] = [".gz"; ""; "."].
Proof. reflexivity. Qed.

(** ** The lists of validation.go *)
Definition maxSuiteSourceFiles : Z := 512.
Definition maxSuiteSourceBytes : Z := 2097152.
Definition PreHookFile : string := "pre-hook.star".
Definition allowedSuiteRootFiles : list string :=
  ["suite.star"; PreHookFile; "metadata.yaml"; "metadata.yml"; "README.md"; "dependencies.yaml";
   "dependencies.yml"; "dependencies.lock.yaml"; "dependencies.lock.yml"].
Definition allowedSuiteFolders : list string :=
  ["api"; "artifacts"; "certs"; "compat"; "dashboards"; "fixtures"; "gateway"; "load"; "mock";
   "policies"; "profiles"; "scenarios"; "scripts"; "service"; "services"; "tasks"; "tests";
   "traffic"; "resources"; "sql"].
Definition allowedSuiteExtensions : list string :=
  [".csv"; ".cue"; ".feature"; ".go"; ".gql"; ".graphql"; ".hurl"; ".jmx"; ".js"; ".json"; ".md";
   ".ndjson"; ".proto"; ".ps1"; ".py"; ".rego"; ".sh"; ".sql"; ".star"; ".ts"; ".txt"; ".wsdl";
   ".xml"; ".xsd"; ".yaml"; ".yml"].
Definition blockedSuiteExtensions : list string :=
  [".7z"; ".bin"; ".com"; ".dll"; ".dmg"; ".exe"; ".gz"; ".iso"; ".jar"; ".msi"; ".rar"; ".so";
   ".tar"; ".tgz"; ".xz"; ".zip"; ".dylib"].

Inductive ValidationError :=
  | SuiteIDRequired | SuiteStarRequired | TooManyFiles
  | PathEmpty | PathAbsolute | PathInvalidBytes | PathEscapes | PathNotNormalized
  | PathInvalidSegment | PathHiddenSegment | PathBlockedType | PathUnsupportedType
  | RootFileNotAllowed | FolderNotAllowed | FileEscapesFolder
  | DuplicatePath (path : string)
  | ContentTooLarge | ContentBinary | ContentNotUTF8.

(** ** Validation *)
Definition contains_nul (s : string) : bool := Contains s (ascii_of_nat 0).

Fixpoint check_segments (segments : list string) : option ValidationError :=
  match segments with
  | [] => None
  | segment :: rest =>
      if bool_decide (segment = "") || bool_decide (segment = ".") || bool_decide (segment = "..")
      then Some PathInvalidSegment
      else if HasPrefix segment "." then Some PathHiddenSegment
      else check_segments rest
  end.

Definition validateSuiteSourcePath (filePath : string) : ValidationError + string :=
  let trimmed := TrimSpace (ReplaceByte filePath (ascii_of_nat 92) "/") in
  if bool_decide (trimmed = "") then inl PathEmpty
  else if HasPrefix trimmed "/" then inl PathAbsolute
  else if contains_nul trimmed then inl PathInvalidBytes
  else
    let cleaned := Clean trimmed in
    if bool_decide (cleaned = ".") || bool_decide (cleaned = "..") || HasPrefix cleaned "../"
       || ContainsSub cleaned "/../" then inl PathEscapes
    else if negb (bool_decide (cleaned = trimmed)) then inl PathNotNormalized
    else match check_segments (Split cleaned "/") with
    | Some e => inl e
    | None =>
        let extension := ToLower (Ext cleaned) in
        if bool_decide (extension ∈ blockedSuiteExtensions) then inl PathBlockedType
        else if negb (bool_decide (extension = "")) &&
                negb (bool_decide (extension ∈ allowedSuiteExtensions)) then inl PathUnsupportedType
        else inr cleaned
    end.

Definition validateSuiteSourcePlacement (filePath : string) : option ValidationError :=
  let '(topLevel, _, hasNestedPath) := Cut filePath "/" in
  if negb hasNestedPath then
    if bool_decide (filePath ∈ allowedSuiteRootFiles) then None else Some RootFileNotAllowed
  else if bool_decide (topLevel ∈ allowedSuiteFolders) then None else Some FolderNotAllowed.

Definition validateSuiteSourceContent (content : string) : option ValidationError :=
  if maxSuiteSourceBytes <? Z.of_nat (String.length content) then Some ContentTooLarge
  else if contains_nul content then Some ContentBinary
  else if negb (ValidString content) then Some ContentNotUTF8
  else None.

(** The loops stop at the first error. *)
Fixpoint first_error {A} (test : A -> option ValidationError) (items : list A)
    : option ValidationError :=
  match items with
  | [] => None
  | x :: rest => match test x with Some e => Some e | None => first_error test rest end
  end.

Definition check_seed (file : SourceFile) : option ValidationError :=
  match validateSuiteSourcePath (Path file) with
  | inl e => Some e
  | inr normalizedPath => validateSuiteSourcePlacement normalizedPath
  end.

Definition check_folder_file (name file : string) : option ValidationError :=
  match validateSuiteSourcePath (normalizeSourcePath name file) with
  | inl e => Some e
  | inr normalized =>
      if negb (HasPrefix normalized (name +:+ "/")) then Some FileEscapesFolder
      else validateSuiteSourcePlacement normalized
  end.

Definition validateSuiteFolder (folder : FolderEntry) : option ValidationError :=
  let name := TrimSpace (FolderName folder) in
  if negb (bool_decide (name ∈ allowedSuiteFolders)) then Some FolderNotAllowed
  else first_error (check_folder_file name) (Files folder).

Fixpoint check_sources (files : list SourceFile) (seenPaths : gset string) : option ValidationError :=
  match files with
  | [] => None
  | file :: rest =>
      match validateSuiteSourcePath (Path file) with
      | inl e => Some e
      | inr normalizedPath =>
          if bool_decide (normalizedPath ∈ seenPaths) then Some (DuplicatePath normalizedPath)
          else match validateSuiteSourcePlacement normalizedPath with
          | Some e => Some e
          | None =>
              match validateSuiteSourceContent (Content file) with
              | Some e => Some e
              | None => check_sources rest ({[normalizedPath]} ∪ seenPaths)
              end
          end
      end
  end.

Definition ValidateDefinition (suite : SuiteDefinition) : option ValidationError :=
  if blank (SuiteID suite) then Some SuiteIDRequired
  else if blank (SuiteStar suite) then Some SuiteStarRequired
  else if maxSuiteSourceFiles <? Z.of_nat (length (SourceFiles suite)) then Some TooManyFiles
  else match first_error check_seed (SeedSources suite) with
  | Some e => Some e
  | None =>
      match first_error validateSuiteFolder (Folders suite) with
      | Some e => Some e
      | None => check_sources (SourceFiles suite) ∅
      end
  end.

Example validate_paths_ex :
  map validateSuiteSourcePath
    [" tests\a.py "; "../x.py"; "a/.git/x.py"; "tests/run.EXE"; "tests//a.py"; "tests/a.rb"]
  = [inr "tests/a.py"; inl PathEscapes; inl PathHiddenSegment; inl PathBlockedType;
     inl PathNotNormalized; inl PathUnsupportedType].
Proof. vm_compute. reflexivity. Qed.
(** ** Accepted paths stay below any directory *)

(** A segment that names a file or directory of its parent. *)
Definition plain (segment : string) : Prop := segment <> "" /\ segment <> "." /\ segment <> "..".

Lemma clean_step_plain rooted out segment :
  plain segment -> clean_step rooted out segment = segment :: out.
Proof.
  intros (H1 & H2 & H3). unfold clean_step.
  by rewrite !bool_decide_eq_false_2 by done.
Qed.

Lemma clean_segments_plain rooted segments :
  Forall plain segments -> clean_segments rooted segments = segments.
Proof.
  intros H. unfold clean_segments.
  assert (forall out, foldl (clean_step rooted) out segments = reverse segments ++ out) as Hf.
  { induction H as [|s l Hs Hl IH]; intros out; [done|].
    cbn [foldl]. rewrite clean_step_plain by done. rewrite IH, reverse_cons, <-app_assoc. done. }
  rewrite Hf, app_nil_r. apply reverse_involutive.
Qed.

Lemma check_segments_spec segments :
  check_segments segments = None <->
  Forall (fun s => plain s /\ HasPrefix s "." = false) segments.
Proof.
  induction segments as [|s rest IH]; cbn [check_segments]; [by split|].
  rewrite Forall_cons, <-IH. unfold plain. clear IH.
  destruct (bool_decide_reflect (s = "")), (bool_decide_reflect (s = ".")),
    (bool_decide_reflect (s = "..")), (HasPrefix s "."); simpl; naive_solver.
Qed.

Lemma first_error_spec {A} (test : A -> option ValidationError) items :
  first_error test items = None <-> Forall (fun x => test x = None) items.
Proof.
  induction items as [|x rest IH]; cbn [first_error]; [by split|].
  rewrite Forall_cons, <-IH. destruct (test x); [|tauto]. split; [done|]. by intros [? _].
Qed.

Notation dotdot := ["."; "."]%char.

Lemma has_sub_dotdot l :
  has_sub ["/"; "."; "."; "/"]%char l = true -> dotdot ∈ tail (split_bytes "/" l).
Proof.
  induction l as [|c l IH]; [done|]. cbn [has_sub]. intros [H|H]%orb_true_iff.
  - apply bool_decide_eq_true in H. cbn [take length] in H. injection H as -> H.
    destruct l as [|c2 [|c3 [|c4 l]]]; simpl in H; try done. injection H as -> -> ->.
    cbn. destruct (split_bytes "/" l); left.
  - specialize (IH H). cbn [split_bytes]. case_bool_decide; cbn [tail].
    + destruct (split_bytes "/" l); [by apply not_elem_of_nil in IH|]. by right.
    + destruct (split_bytes "/" l); [by apply not_elem_of_nil in IH|]. done.
Qed.

(** The tests for an escape are implied by the tests of the segments. *)
Lemma dotdot_segments c :
  Forall (fun s => plain s /\ HasPrefix s "." = false) (Split c "/") ->
  bool_decide (c = ".") || bool_decide (c = "..") || HasPrefix c "../" || ContainsSub c "/../" = false.
Proof.
  intros HF. rewrite Forall_forall in HF.
  assert (forall s, to_string s ∈ Split c "/" -> plain (to_string s)) as Hin by (intros s Hs; apply HF, Hs).
  assert (forall s : bytes, s ∈ split_bytes "/" (of_string c) -> plain (to_string s)) as Hp.
  { intros s Hs. apply Hin. unfold Split. by apply list_elem_of_fmap_2. }
  apply orb_false_iff. split; [apply orb_false_iff; split; [apply orb_false_iff; split|]|].
  - apply bool_decide_eq_false_2. intros ->. destruct (Hp ["."%char]) as (_ & H & _); [left|done].
  - apply bool_decide_eq_false_2. intros ->. destruct (Hp dotdot) as (_ & _ & H); [left|done].
  - apply bool_decide_eq_false_2. intros H. destruct (Hp dotdot) as (_ & _ & Hd); [|done].
    destruct (of_string c) as [|c1 [|c2 [|c3 l]]]; simpl in H; try done.
    injection H as -> -> ->. cbn. left.
  - unfold ContainsSub. destruct (has_sub _ _) eqn:H; [|done]. apply has_sub_dotdot in H.
    destruct (Hp dotdot) as (_ & _ & Hd); [|done].
    destruct (split_bytes "/" (of_string c)); [done|]. by right.
Qed.

(** What [validateSuiteSourcePath] promises of the path it returns. *)
Record safe_path (c : string) : Prop := {
  safe_clean : Clean c = c;
  safe_relative : HasPrefix c "/" = false;
  safe_bytes : contains_nul c = false;
  safe_segments : Forall (fun s => plain s /\ HasPrefix s "." = false) (Split c "/");
  safe_extension : ToLower (Ext c) ∉ blockedSuiteExtensions /\
    (ToLower (Ext c) = "" \/ ToLower (Ext c) ∈ allowedSuiteExtensions);
}.

(** A source path is accepted exactly when, after the separators are
    unified and blanks trimmed, it is already clean and safe; it is returned
    unchanged, and joined to any clean absolute directory it cleans to itself
    below that directory: no accepted path escapes. *)
Theorem validateSuiteSourcePath_safe (filePath c : string) :
  (validateSuiteSourcePath filePath = inr c <->
    TrimSpace (ReplaceByte filePath (ascii_of_nat 92) "/") = c /\ safe_path c) /\
  (validateSuiteSourcePath filePath = inr c -> forall root, Forall plain root ->
    clean_segments true (root ++ Split c "/") = root ++ Split c "/").
Proof.
  assert (validateSuiteSourcePath filePath = inr c <->
    TrimSpace (ReplaceByte filePath (ascii_of_nat 92) "/") = c /\ safe_path c) as Hiff.
  { unfold validateSuiteSourcePath. cbn zeta. set (t := TrimSpace _). clearbody t. split.
    - intros H. destruct (bool_decide_reflect (t = "")); [done|].
      destruct (HasPrefix t "/") eqn:Hrel; [done|]. destruct (contains_nul t) eqn:Hnul; [done|].
      destruct (_ || _ || _ || _); [done|].
      destruct (bool_decide_reflect (Clean t = t)) as [Hc|]; [|done]. rewrite Hc in H.
      destruct (check_segments (Split t "/")) eqn:Hseg; [done|].
      destruct (bool_decide_reflect (ToLower (Ext t) ∈ blockedSuiteExtensions)); [done|].
      destruct (bool_decide_reflect (ToLower (Ext t) = "")) as [He|He],
        (bool_decide_reflect (ToLower (Ext t) ∈ allowedSuiteExtensions)) as [Ha|Ha];
        cbn [negb andb] in H; try done; injection H as <-; split; try done; split; auto;
        by apply check_segments_spec.
    - intros [-> [Hc Hrel Hnul Hseg [Hb Ha]]].
      assert (c <> "") as Hne by (intros ->; vm_compute in Hc; discriminate Hc).
      rewrite (bool_decide_eq_false_2 (c = "")) by done. rewrite Hrel, Hnul, Hc.
      apply dotdot_segments in Hseg as Hesc. rewrite Hesc.
      rewrite (bool_decide_eq_true_2 (c = c)) by done. cbn [negb].
      rewrite (proj2 (check_segments_spec _)) by done.
      rewrite (bool_decide_eq_false_2 (ToLower (Ext c) ∈ blockedSuiteExtensions)) by done.
      destruct Ha as [Ha|Ha]; [rewrite (bool_decide_eq_true_2 (ToLower (Ext c) = "")) by done; done|].
      rewrite (bool_decide_eq_true_2 (ToLower (Ext c) ∈ allowedSuiteExtensions)) by done.
      by rewrite andb_false_r. }
  split; [done|]. intros H root Hroot. apply Hiff in H as [_ Hs]. apply clean_segments_plain.
  apply Forall_app. split; [done|]. eapply Forall_impl; [apply (safe_segments _ Hs)|]. tauto.
Qed.

(** ** Accepted packages *)

(** A source file with its accepted path. *)
Definition accepted (file : SourceFile) (normalized : string) : Prop :=
  validateSuiteSourcePath (Path file) = inr normalized /\
  validateSuiteSourcePlacement normalized = None /\
  validateSuiteSourceContent (Content file) = None.

Lemma check_sources_spec files seen :
  check_sources files seen = None <->
  exists paths, Forall2 accepted files paths /\ NoDup paths /\ forall p, p ∈ paths -> p ∉ seen.
Proof.
  revert seen. induction files as [|file rest IH]; intros seen; cbn [check_sources].
  { split; [|done]. intros _. exists []. split; [constructor|]. split; [constructor|].
    by intros p ?%not_elem_of_nil. }
  split.
  - destruct (validateSuiteSourcePath (Path file)) as [e|p] eqn:Hp; [done|].
    case_bool_decide as Hs; [done|]. destruct (validateSuiteSourcePlacement p) eqn:Hpl; [done|].
    destruct (validateSuiteSourceContent (Content file)) eqn:Hc; [done|].
    intros (paths & HF & Hnd & Hd)%IH. exists (p :: paths). split; [by constructor|]. split.
    + constructor; [|done]. intros Hin. specialize (Hd p Hin). set_solver.
    + intros q [->|Hq]%elem_of_cons; [done|]. specialize (Hd q Hq). set_solver.
  - intros (paths & HF & Hnd & Hd). inversion HF as [|? p ? paths' (Hp & Hpl & Hc) HF']; subst.
    apply NoDup_cons in Hnd as [Hpn Hnd]. rewrite Hp, Hpl, Hc.
    rewrite bool_decide_eq_false_2 by (apply Hd; left). apply IH. exists paths'.
    split; [done|]. split; [done|]. intros q Hq. specialize (Hd q (list_elem_of_further _ _ _ Hq)).
    rewrite not_elem_of_union, not_elem_of_singleton. split; [by intros ->|done].
Qed.

(** [ValidateDefinition] accepts a package exactly when it has an id and
    a [suite.star], at most 512 files, every seed file, folder file and source
    file at an accepted place, every content small valid UTF-8 text, and no
    two source files at the same normalised path. *)
Theorem ValidateDefinition_spec (suite : SuiteDefinition) :
  ValidateDefinition suite = None <->
  TrimSpace (SuiteID suite) <> "" /\ TrimSpace (SuiteStar suite) <> "" /\
  Z.of_nat (length (SourceFiles suite)) <= 512 /\
  (forall file, file ∈ SeedSources suite -> exists p,
     validateSuiteSourcePath (Path file) = inr p /\ validateSuiteSourcePlacement p = None) /\
  (forall folder file, folder ∈ Folders suite -> file ∈ Files folder -> exists p,
     validateSuiteSourcePath (normalizeSourcePath (TrimSpace (FolderName folder)) file) = inr p /\
     HasPrefix p (TrimSpace (FolderName folder) +:+ "/") = true /\
     validateSuiteSourcePlacement p = None) /\
  (forall folder, folder ∈ Folders suite -> TrimSpace (FolderName folder) ∈ allowedSuiteFolders) /\
  exists paths, Forall2 accepted (SourceFiles suite) paths /\ NoDup paths.
Proof.
  assert (forall file, check_seed file = None <-> exists p,
    validateSuiteSourcePath (Path file) = inr p /\ validateSuiteSourcePlacement p = None) as Hseed.
  { intros file. unfold check_seed. destruct (validateSuiteSourcePath (Path file)) as [e|p].
    - split; [done|]. by intros (? & ? & _).
    - split; [eauto|]. by intros (? & [= ->] & ?). }
  assert (forall name file, check_folder_file name file = None <-> exists p,
    validateSuiteSourcePath (normalizeSourcePath name file) = inr p /\
    HasPrefix p (name +:+ "/") = true /\ validateSuiteSourcePlacement p = None) as Hfile.
  { intros name file. unfold check_folder_file.
    destruct (validateSuiteSourcePath (normalizeSourcePath name file)) as [e|p].
    - split; [done|]. by intros (? & ? & _).
    - split.
      + destruct (HasPrefix p _) eqn:H; cbn [negb]; [|done]. eauto.
      + intros (? & [= ->] & H & ?). by rewrite H. }
  assert (forall folder, validateSuiteFolder folder = None <->
    TrimSpace (FolderName folder) ∈ allowedSuiteFolders /\
    forall file, file ∈ Files folder -> check_folder_file (TrimSpace (FolderName folder)) file = None)
    as Hfolder.
  { intros folder. unfold validateSuiteFolder. case_bool_decide; cbn [negb].
    - rewrite first_error_spec, Forall_forall. tauto.
    - split; [done|]. by intros [? _]. }
  unfold ValidateDefinition, maxSuiteSourceFiles. rewrite <-!blank_false.
  destruct (blank (SuiteID suite)); [split; [done|by intros [? _]]|].
  destruct (blank (SuiteStar suite)); [split; [done|by intros (_ & ? & _)]|].
  destruct (Z.ltb_spec 512 (Z.of_nat (length (SourceFiles suite)))); [split; [done|lia]|].
  destruct (first_error check_seed (SeedSources suite)) eqn:Hs.
  { split; [done|]. intros (_ & _ & _ & Hsd & _).
    assert (first_error check_seed (SeedSources suite) = None); [|congruence].
    apply first_error_spec, Forall_forall. intros x Hx. by apply Hseed, Hsd. }
  rewrite first_error_spec, Forall_forall in Hs. setoid_rewrite Hseed in Hs.
  destruct (first_error validateSuiteFolder (Folders suite)) eqn:Hf.
  { split; [done|]. intros (_ & _ & _ & _ & Hfd & Hfn & _).
    assert (first_error validateSuiteFolder (Folders suite) = None); [|congruence].
    apply first_error_spec, Forall_forall. intros x Hx. apply Hfolder. split; [by apply Hfn|].
    intros file Hin. by apply Hfile, Hfd. }
  rewrite first_error_spec, Forall_forall in Hf. setoid_rewrite Hfolder in Hf.
  rewrite check_sources_spec. split.
  - intros (paths & HF & Hnd & _). do 4 (split; [done|]).
    split; [intros folder file Hin Hin2; apply Hfile; by apply Hf|].
    split; [intros folder Hin; by apply Hf|]. by exists paths.
  - intros (_ & _ & _ & _ & _ & _ & paths & HF & Hnd). exists paths.
    split; [done|]. split; [done|]. intros p _. apply not_elem_of_empty.
Qed.

Definition sample_suite : SuiteDefinition :=
  mkSuite "payments" "Payments" "Card payments" "ghcr.io/acme/payments" "1.2.0" "db = service.run()"
    [mkProfileOption "base.yaml" "Base" "" true] [mkFolder "tests" ["smoke.py"]] []
    [mkSource "suite.star" "db = service.run()"; mkSource "tests/smoke.py" "print(1)"].

Example validate_definition_ex : ValidateDefinition sample_suite = None.
Proof. vm_compute. reflexivity. Qed.

Lemma validateSuiteSourcePath_safe_witness :
  validateSuiteSourcePath " tests\a.py " = inr "tests/a.py" /\
  clean_segments true ["srv"; "suite"; "tests"; "a.py"] = ["srv"; "suite"; "tests"; "a.py"].
Proof.
  assert (validateSuiteSourcePath " tests\a.py " = inr "tests/a.py") as H by (vm_compute; reflexivity).
  split; [exact H|].
  apply (proj2 (validateSuiteSourcePath_safe " tests\a.py " "tests/a.py") H ["srv"; "suite"]).
  repeat constructor; discriminate.
Defined.

End Suites.
