(* ===== verification/Imports.v ===== *)
(** Imported suites and pre-hooks, [src/backend/internal/suites/topology.go],
    [pre_hook.go] and [dependency_runtime.go]: how a suite that runs other
    suites and a pre-hook becomes one topology.

    The Starlark evaluation of a suite source, the YAML decoder and the load
    plans of traffic steps are arguments.  A Go map that is ranged over is an
    association list in the order of the iteration where that order can be
    seen, and a finite map elsewhere. *)
From Stdlib Require Import ZArith Lia Ascii.
From S2P Require Import Prelude GoStrings Topology TopologyOrder Suites.
Import GoStrings Topology TopologyOrder Suites.

Module Imports.

(** ** Data *)

(** [rawTopologyNode]; [RawBody] stands for the fields a step copies. *)
Module Raw.
Record rawTopologyNode := mk {
  Assignment : string;
  ID : string;
  Name : string;
  Kind : string;
  Variant : string;
  Ref : string;
  RawBody : handle;
  DependsOn : list string;
  ResetMocks : list string;
  OnFailure : list string;
  ContinueOnFailure : bool;
  Env : gmap string string;
}.
End Raw.
Import Raw (rawTopologyNode).

Module Entry.
Record dependencyEntry := mk {
  Ref : string; Version : string; Profile : string; Inputs : gmap string string }.
End Entry.
Import Entry (dependencyEntry).

Module Lock.
Record dependencyLockEntry := mk {
  Ref : string; Version : string; Resolved : string; Digest : string; Profile : string;
  Inputs : gmap string string }.
Definition zero : dependencyLockEntry := mk "" "" "" "" "" ∅.
End Lock.
Import Lock (dependencyLockEntry).

Module Dep.
Record ResolvedDependency := mk {
  Alias : string;
  Ref : string;
  Version : string;
  Resolved : string;
  Digest : string;
  Profile : string;
  Inputs : gmap string string;
  SuiteID : string;
  SuiteTitle : string;
  Repository : string;
  SourceFiles : list SourceFile;
}.
End Dep.
Import Dep (ResolvedDependency).

Record topologyImport := mkImport {
  EntryIDs : list string; ExitIDs : list string; MockIDs : list string; Nodes : list TopologyNode }.
Record resolvedTopology := mkResolved {
  ResolvedNodes : list TopologyNode; Dependencies : list ResolvedDependency }.
Record dependencyProfileRuntime := mkProfileRuntime {
  Env : gmap string string; Services : gmap string (gmap string string) }.

Inductive ImportError :=
  | InvalidPackage (e : ValidationError)
  | NestedSuiteCycle (path : list string)
  | ParseFailed (reason : string)
  | YamlFailed (path : string)
  | MissingAlias (alias : string)
  | MissingRef (alias : string)
  | MismatchedVersion (alias version ref : string)
  | LatestVersion (alias : string)
  | UnresolvedRef (ref : string)
  | UnresolvedVersion (ref version : string)
  | MissingProfile (profile suite : string)
  | LoadFailed (reason : string)
  | InvalidTopology (e : TopologyError)
  | InvalidPreHook (e : ImportError)
  | PreHookImportsSuite
  | PreHookEmpty.

(** ** References *)

(** [splitDependencyRef]: the repository and the version or digest. *)
Definition splitDependencyRef (value : string) : string * string :=
  let trimmed := TrimSpace value in
  if bool_decide (trimmed = "") then ("", "")
  else
    let '(repository, digest, ok) := Cut trimmed "@" in
    if ok then (repository, digest)
    else
      let lastSlash := LastIndex trimmed "/" in
      let lastColon := LastIndex trimmed ":" in
      if lastSlash <? lastColon then (slice_to trimmed lastColon, slice_from trimmed (lastColon + 1))
      else (trimmed, "").

Definition dependencyDigest (value : string) : string :=
  let suffix := (splitDependencyRef value).2 in
  if HasPrefix (TrimSpace suffix) "sha256:" then TrimSpace suffix else "".
Definition dependencyHasPinnedDigest (value : string) : bool :=
  negb (bool_decide (dependencyDigest value = "")).
Definition dependencyUsesLatest (value : string) : bool :=
  EqualFold (TrimSpace (splitDependencyRef value).2) "latest".

Example split_ref_ex :
  map splitDependencyRef ["ghcr.io:443/acme/pay"; "ghcr.io/acme/pay:1.2"; "r@sha256:ab"; " "]
  = [("ghcr.io:443/acme/pay", ""); ("ghcr.io/acme/pay", "1.2"); ("r", "sha256:ab"); ("", "")].
Proof. reflexivity. Qed.

(** ** Manifests *)

(** The node [UnmarshalYAML] is given, with the value [Decode] fills in. *)
Inductive yamlNode (A : Type) :=
  | ScalarNode (text : string)
  | MappingNode (decoded : A)
  | OtherNode.
Arguments ScalarNode {A} _.
Arguments MappingNode {A} _.
Arguments OtherNode {A}.

(** [UnmarshalYAML] of a dependency entry. *)
Definition UnmarshalEntry (value : yamlNode dependencyEntry) : option dependencyEntry :=
  match value with
  | ScalarNode ref => Some (Entry.mk (TrimSpace ref) "" "" ∅)
  | MappingNode d =>
      Some (Entry.mk (TrimSpace (Entry.Ref d)) (TrimSpace (Entry.Version d))
              (TrimSpace (Entry.Profile d)) (Entry.Inputs d))
  | OtherNode => None
  end.

(** [UnmarshalYAML] of a lock entry. *)
Definition UnmarshalLock (value : yamlNode dependencyLockEntry) : option dependencyLockEntry :=
  match value with
  | ScalarNode resolved =>
      Some (Lock.mk "" "" (TrimSpace resolved) (dependencyDigest (TrimSpace resolved)) "" ∅)
  | MappingNode d =>
      let resolved := TrimSpace (Lock.Resolved d) in
      let digest := TrimSpace (Lock.Digest d) in
      Some (Lock.mk (TrimSpace (Lock.Ref d)) (TrimSpace (Lock.Version d)) resolved
              (if bool_decide (digest = "") then dependencyDigest resolved else digest)
              (TrimSpace (Lock.Profile d)) (Lock.Inputs d))
  | OtherNode => None
  end.

(** The loop that indexes the entries by their trimmed alias. *)
Definition index_aliases {A} (entries : list (string * A)) : gmap string A :=
  foldl (fun manifest '(alias, entry) =>
           if bool_decide (TrimSpace alias = "") then manifest
           else <[TrimSpace alias := entry]> manifest) ∅ entries.

(** The first file with one of the two names is the manifest. *)
Fixpoint parse_manifest {A B} (name1 name2 : string)
    (decode : string -> option (list (string * A))) (unmarshal : A -> option B)
    (sourceFiles : list SourceFile) : ImportError + gmap string B :=
  match sourceFiles with
  | [] => inr ∅
  | file :: rest =>
      let path := TrimSpace (ToLower (Path file)) in
      if negb (bool_decide (path = name1)) && negb (bool_decide (path = name2)) then
        parse_manifest name1 name2 decode unmarshal rest
      else match decode (Content file) with
      | None => inl (YamlFailed (Path file))
      | Some entries =>
          match mapM (fun '(alias, node) => pair alias <$> unmarshal node) entries with
          | None => inl (YamlFailed (Path file))
          | Some entries => inr (index_aliases entries)
          end
      end
  end.

(** The value [yaml.Unmarshal] leaves in an [any]; [text] is what
    [fmt.Sprint] prints of it. *)
Inductive anyValue :=
  | AnyNil
  | AnyString (s : string)
  | AnyMap (items : list (string * anyValue)) (text : string)
  | AnyOther (text : string).

(** A key of a decoded YAML mapping; mappings have no repeated keys. *)
Fixpoint any_lookup (key : string) (items : list (string * anyValue)) : anyValue :=
  match items with
  | [] => AnyNil
  | (k, v) :: rest => if bool_decide (k = key) then v else any_lookup key rest
  end.

Definition scalarStringMap (value : anyValue) : gmap string string :=
  match value with
  | AnyMap items _ =>
      foldl (fun out key =>
               if bool_decide (TrimSpace key = "") then out
               else match any_lookup key items with
               | AnyNil => out
               | AnyString typed => <[TrimSpace key := typed]> out
               | AnyMap _ text | AnyOther text => <[TrimSpace key := text]> out
               end) ∅ (sort_strings items.*1)
  | _ => ∅
  end.

(** ** Maps of strings *)
Definition mergeStringMaps (base : gmap string string) (overlays : list (gmap string string))
    : gmap string string :=
  foldl (fun out overlay => overlay ∪ out) base overlays.

Definition suiteHasProfileOption (profiles : list ProfileOption) (fileName : string) : bool :=
  existsb (fun p => bool_decide (TrimSpace (FileName p) = TrimSpace fileName)) profiles.
Definition defaultLaunchProfile (profiles : list ProfileOption) : string :=
  match base.filter (fun p => Default p = true) profiles, profiles with
  | p :: _, _ => TrimSpace (FileName p)
  | [], [] => ""
  | [], p :: _ => TrimSpace (FileName p)
  end.

Definition resolveDependencyProfile (suite : SuiteDefinition) (requested : string)
    : ImportError + string :=
  let profile := TrimSpace requested in
  if bool_decide (profile = "") then inr (defaultLaunchProfile (Profiles suite))
  else if negb (suiteHasProfileOption (Profiles suite) profile) then
    inl (MissingProfile profile (SuiteID suite))
  else inr profile.

Definition buildDependencyRuntimeEnv (node : TopologyNode) (suite : SuiteDefinition)
    (dependency : ResolvedDependency) (runtime : dependencyProfileRuntime) : gmap string string :=
  let byID := default ∅ (Services runtime !! ID node) in
  let serviceEnv :=
    if bool_decide (byID = ∅) then default ∅ (Services runtime !! Name node) else byID in
  let env := mergeStringMaps (Env runtime) [serviceEnv; Dep.Inputs dependency] in
  let env := mergeStringMaps env [
    <["BABELSUITE_DEPENDENCY_ALIAS" := Dep.Alias dependency]>
    (<["BABELSUITE_DEPENDENCY_SUITE" := SuiteID suite]>
    (<["BABELSUITE_DEPENDENCY_REF" := Dep.Ref dependency]>
    (<["BABELSUITE_PROFILE" := Dep.Profile dependency]> ∅)))] in
  let env := if negb (bool_decide (Dep.Resolved dependency = ""))
             then <["BABELSUITE_DEPENDENCY_RESOLVED" := Dep.Resolved dependency]> env else env in
  if negb (bool_decide (Dep.Digest dependency = ""))
  then <["BABELSUITE_DEPENDENCY_DIGEST" := Dep.Digest dependency]> env else env.

Definition buildDependencyRuntimeHeaders (dependency : ResolvedDependency) : gmap string string :=
  if blank (Dep.Profile dependency) then ∅ else {["x-suite-profile" := Dep.Profile dependency]}.

(** ** Expanding the edges into and out of imported suites *)
Definition expandImportedDependencies (dependsOn : list string)
    (imports : gmap string topologyImport) : list string :=
  normalizeDependencies (mjoin ((fun dependency =>
    match imports !! dependency with
    | Some imported =>
        if bool_decide (ExitIDs imported = []) then [dependency] else ExitIDs imported
    | None => [dependency]
    end) <$> dependsOn)).

Definition expandImportedMockTargets (targets : list string)
    (imports : gmap string topologyImport) : list string :=
  normalizeDependencies (mjoin ((fun target =>
    match imports !! target with
    | Some imported =>
        if bool_decide (MockIDs imported = []) then [target] else MockIDs imported
    | None => [target]
    end) <$> targets)).

(** [resolveAssignmentDependencies]: an edge may name the variable a step was
    assigned to. *)
Definition assignment_index (nodes : list rawTopologyNode) : gmap string string :=
  foldl (fun m n => if blank (Raw.Assignment n) || blank (Raw.ID n) then m
                    else <[Raw.Assignment n := Raw.ID n]> m) ∅ nodes.
Definition remap_assignment (assignmentToID : gmap string string) (edges : list string)
    : list string :=
  if bool_decide (edges = []) then []
  else normalizeDependencies ((fun d => default d (assignmentToID !! d)) <$> edges).
Definition resolveAssignmentDependencies (nodes : list rawTopologyNode) : list rawTopologyNode :=
  let assignmentToID := assignment_index nodes in
  (fun n => Raw.mk (Raw.Assignment n) (Raw.ID n) (Raw.Name n) (Raw.Kind n) (Raw.Variant n)
     (Raw.Ref n) (Raw.RawBody n) (remap_assignment assignmentToID (Raw.DependsOn n))
     (remap_assignment assignmentToID (Raw.ResetMocks n))
     (remap_assignment assignmentToID (Raw.OnFailure n))
     (Raw.ContinueOnFailure n) (Raw.Env n)) <$> nodes.

(** ** [namespaceImportedTopology] *)
Definition qualify (prefix id : string) : string := prefix +:+ "/" +:+ id.

Definition id_map (prefix : string) (childNodes : list TopologyNode) : gmap string string :=
  foldl (fun m n => <[ID n := qualify prefix (ID n)]> m) ∅ childNodes.
Definition remap (idMap : gmap string string) (edges : list string) : list string :=
  base.filter (fun mapped => mapped <> "") ((fun d => default "" (idMap !! d)) <$> edges).

(** The first loop: names, provenance and environment of one step. *)
Definition namespace_node (raw : rawTopologyNode) (childSuite : SuiteDefinition)
    (dependency : ResolvedDependency) (runtime : dependencyProfileRuntime)
    (index : nat) (node : TopologyNode) : TopologyNode :=
  mkNode (qualify (Raw.ID raw) (ID node)) (qualify (Raw.Name raw) (Name node)) (Kind node)
    (Variant node) (Body node) (DependsOn node) (ResetMocks node) (OnFailure node)
    (ContinueOnFailure node) 0
    (FirstNonEmpty [SourceSuiteID node; SuiteID childSuite])
    (FirstNonEmpty [SourceSuiteTitle node; Title childSuite])
    (FirstNonEmpty [SourceRepository node; Repository childSuite])
    (FirstNonEmpty [SourceVersion node; Version childSuite])
    (FirstNonEmpty [DependencyAlias node; Dep.Alias dependency])
    (FirstNonEmpty [ResolvedRef node; Dep.Resolved dependency])
    (FirstNonEmpty [Digest node; Dep.Digest dependency])
    (FirstNonEmpty [RuntimeProfile node; Dep.Profile dependency])
    (mergeStringMaps (RuntimeEnv node)
       [buildDependencyRuntimeEnv node childSuite dependency runtime])
    (if bool_decide (Kind node = "mock")
     then mergeStringMaps (RuntimeHeaders node) [buildDependencyRuntimeHeaders dependency]
     else RuntimeHeaders node)
    (Z.of_nat index).

(** The second loop: the edges, through [idMap]. *)
Definition remap_node (idMap : gmap string string) (node : TopologyNode) : TopologyNode :=
  set_edges (remap idMap (DependsOn node))
    (if bool_decide (ResetMocks node = []) then ResetMocks node
     else normalizeDependencies (remap idMap (ResetMocks node)))
    (if bool_decide (OnFailure node = []) then OnFailure node else remap idMap (OnFailure node))
    node.

(** [dependants[dependency]++]. *)
Definition count_dependants (childNodes : list TopologyNode) : gmap string Z :=
  foldl (fun m d => <[d := default 0 (m !! d) + 1]> m) ∅ (mjoin (DependsOn <$> childNodes)).

Definition namespace_nodes (raw : rawTopologyNode) (childSuite : SuiteDefinition)
    (childNodes : list TopologyNode) (dependency : ResolvedDependency)
    (runtime : dependencyProfileRuntime) : topologyImport :=
  if bool_decide (childNodes = []) then mkImport [] [] [] []
  else
    let rootIDs : gset string :=
      list_to_set (ID <$> base.filter (fun n => DependsOn n = []) childNodes) in
    let dependants := count_dependants childNodes in
    let idMap := id_map (Raw.ID raw) childNodes in
    let mapped n := default "" (idMap !! ID n) in
    mkImport
      (sort_strings (mapped <$> base.filter (fun n => ID n ∈ rootIDs) childNodes))
      (sort_strings (mapped <$> base.filter (fun n => default 0 (dependants !! ID n) = 0) childNodes))
      (sort_strings (mapped <$> base.filter (fun n => Kind n = "mock") childNodes))
      (remap_node idMap <$> imap (namespace_node raw childSuite dependency runtime) childNodes).

(** ** Pre-hooks *)
Definition preHookNamespace : string := "pre-hook".

Definition mapStrings (values : list string) (fn : string -> string) : list string := fn <$> values.

Definition namespacePreHookNodes (nodes : list TopologyNode) : list TopologyNode :=
  (fun n =>
     set_edges (mapStrings (DependsOn n) (qualify preHookNamespace))
       (mapStrings (ResetMocks n) (qualify preHookNamespace))
       (mapStrings (OnFailure n) (qualify preHookNamespace))
       (set_names (qualify preHookNamespace (ID n)) (qualify preHookNamespace (Name n)) n)) <$> nodes.

Definition gates (preHookNodes : list TopologyNode) : list string :=
  let depended : gset string := list_to_set (mjoin (DependsOn <$> preHookNodes)) in
  ID <$> base.filter (fun n => ID n ∉ depended) preHookNodes.

Definition prependPreHookNodes (suiteNodes preHookNodes : list TopologyNode) : list TopologyNode :=
  if bool_decide (preHookNodes = []) then suiteNodes
  else preHookNodes ++
    ((fun n => if bool_decide (DependsOn n = [])
               then set_edges (gates preHookNodes) (ResetMocks n) (OnFailure n) n else n)
       <$> suiteNodes).

(** [final[index].Order = index]. *)
Definition renumber (nodes : list TopologyNode) : list TopologyNode :=
  imap (fun index n => set_place (Level n) (Z.of_nat index) n) nodes.

(** ** [resolveDependency] *)

(** [newTopologyResolver]: the catalog by trimmed id. *)
Definition catalog_index (catalog : list SuiteDefinition) : gmap string SuiteDefinition :=
  foldl (fun m suite => <[TrimSpace (SuiteID suite) := suite]> m) ∅ catalog.

Definition id_le (a b : SuiteDefinition) : Prop := str_le (SuiteID a) (SuiteID b).
#[export] Instance id_le_dec : RelDecision id_le.
Proof. intros a b. unfold id_le. apply _. Defined.

Definition matches (ref normalizedRef : string) (suite : SuiteDefinition) : bool :=
  bool_decide (SuiteID suite = ref) || bool_decide (SuiteID suite = normalizedRef) ||
  bool_decide (Repository suite = ref) || bool_decide (Repository suite = normalizedRef).

(** The version a dependency asks for, or the mismatch of its two versions. *)
Definition requested_version (alias ref : string) (entry : dependencyEntry)
    (lock : dependencyLockEntry) : ImportError + string :=
  let versionFromRef := (splitDependencyRef ref).2 in
  let version := TrimSpace (Entry.Version entry) in
  if negb (bool_decide (version = "")) && negb (bool_decide (versionFromRef = "")) &&
     negb (dependencyHasPinnedDigest ref) && negb (EqualFold version versionFromRef)
  then inl (MismatchedVersion alias version ref)
  else
    let version :=
      if bool_decide (version = "") then
        if dependencyHasPinnedDigest ref then TrimSpace (Lock.Version lock) else versionFromRef
      else version in
    inr (if bool_decide (version = "") then TrimSpace (Lock.Version lock) else version).

(** The candidate with the smallest id, among those with the version. *)
Definition select_candidate (byID : gmap string SuiteDefinition) (ref normalizedRef version : string)
    : ImportError + SuiteDefinition :=
  let candidates := merge_sort id_le
    (base.filter (fun s => matches ref normalizedRef s = true) (map_to_list byID).*2) in
  match candidates with
  | [] => inl (UnresolvedRef ref)
  | first :: _ =>
      if bool_decide (version = "") then inr first
      else match base.filter (fun c => TrimSpace (Version c) = version) candidates with
      | selected :: _ =>
          if blank (SuiteID selected) then inl (UnresolvedVersion normalizedRef version)
          else inr selected
      | [] => inl (UnresolvedVersion normalizedRef version)
      end
  end.

(** The pinned reference recorded for the dependency. *)
Definition pinned_ref (ref normalizedRef version lockResolved lockDigest repository : string) : string :=
  let baseResolved := TrimSpace (FirstNonEmpty [lockResolved; ref]) in
  let baseResolved :=
    if negb (bool_decide (lockDigest = "")) && negb (Contains baseResolved "@") then
      (if bool_decide (TrimSpace repository = "") then normalizedRef else TrimSpace repository)
        +:+ "@" +:+ lockDigest
    else baseResolved in
  if bool_decide (baseResolved = TrimSpace ref) && negb (bool_decide (version = "")) &&
     negb (dependencyHasPinnedDigest baseResolved)
  then normalizedRef +:+ ":" +:+ version else baseResolved.

Definition resolveDependency (byID : gmap string SuiteDefinition) (alias : string)
    (entry : dependencyEntry) (lock : dependencyLockEntry)
    : ImportError + (ResolvedDependency * SuiteDefinition) :=
  let ref := TrimSpace (Entry.Ref entry) in
  if bool_decide (ref = "") then inl (MissingRef alias)
  else
    let normalizedRef := (splitDependencyRef ref).1 in
    check version := requested_version alias ref entry lock in
    if dependencyUsesLatest ref || EqualFold version "latest" then inl (LatestVersion alias)
    else
      let lockResolved := TrimSpace (Lock.Resolved lock) in
      let lockDigest :=
        FirstNonEmpty [TrimSpace (Lock.Digest lock); dependencyDigest lockResolved] in
      check selected := select_candidate byID ref normalizedRef version in
      check profile := resolveDependencyProfile selected
        (FirstNonEmpty [TrimSpace (Entry.Profile entry); TrimSpace (Lock.Profile lock)]) in
      let inputs := mergeStringMaps (Lock.Inputs lock) [Entry.Inputs entry] in
      let baseResolved := pinned_ref ref normalizedRef version lockResolved lockDigest
        (Repository selected) in
      inr (Dep.mk alias ref (FirstNonEmpty [version; TrimSpace (Version selected)]) baseResolved
             (FirstNonEmpty [lockDigest; dependencyDigest baseResolved; dependencyDigest ref])
             profile inputs (SuiteID selected) (Title selected) (Repository selected)
             (SourceFiles selected),
           selected).

(** ** [resolveSuite] *)
Section Resolve.
  (** The Starlark evaluation of a source. *)
  Context (evalStarlarkTopology : string -> string + list rawTopologyNode).
  (** The load plan and the other payload of a step: an error text, or the
      handle of the fields the step carries. *)
  Context (resolveLoadSpec : rawTopologyNode -> list SourceFile -> string + handle).
  (** [yaml.Unmarshal] on the three kinds of documents. *)
  Context (decode_dependencies : string -> option (list (string * yamlNode dependencyEntry)))
    (decode_locks : string -> option (list (string * yamlNode dependencyLockEntry)))
    (decode_profile : string -> option (list (string * anyValue))).

Definition parseDependencyManifest :=
  parse_manifest "dependencies.yaml" "dependencies.yml" decode_dependencies UnmarshalEntry.
Definition parseDependencyLockManifest :=
  parse_manifest "dependencies.lock.yaml" "dependencies.lock.yml" decode_locks UnmarshalLock.

(** The services of a profile that set an environment. *)
Definition profile_services (value : anyValue) : gmap string (gmap string string) :=
  match value with
  | AnyMap services _ =>
      foldl (fun out '(name, rawService) =>
               match rawService with
               | AnyMap serviceMap _ =>
                   let env := scalarStringMap (any_lookup "env" serviceMap) in
                   if bool_decide (env = ∅) then out else <[TrimSpace name := env]> out
               | _ => out
               end) ∅ services
  | _ => ∅
  end.

Fixpoint find_profile (path : string) (sourceFiles : list SourceFile)
    : ImportError + dependencyProfileRuntime :=
  match sourceFiles with
  | [] => inr (mkProfileRuntime ∅ ∅)
  | file :: rest =>
      if negb (bool_decide (TrimSpace (Path file) = path)) then find_profile path rest
      else match decode_profile (Content file) with
      | None => inl (YamlFailed (Path file))
      | Some document =>
          inr (mkProfileRuntime (scalarStringMap (any_lookup "env" document))
                 (profile_services (any_lookup "services" document)))
      end
  end.
Definition parseDependencyProfileRuntime (sourceFiles : list SourceFile) (fileName : string)
    : ImportError + dependencyProfileRuntime :=
  let fileName := TrimSpace fileName in
  if bool_decide (fileName = "") then inr (mkProfileRuntime ∅ ∅)
  else find_profile ("profiles/" +:+ Trim (ReplaceByte fileName (ascii_of_nat 92) "/") "/") sourceFiles.

Definition namespaceImportedTopology (raw : rawTopologyNode) (childSuite : SuiteDefinition)
    (childNodes : list TopologyNode) (dependency : ResolvedDependency) : ImportError + topologyImport :=
  if bool_decide (childNodes = []) then inr (mkImport [] [] [] [])
  else
    check runtime := parseDependencyProfileRuntime (SourceFiles childSuite) (Dep.Profile dependency) in
    inr (namespace_nodes raw childSuite childNodes dependency runtime).

Definition topologyNodeFromRaw (raw : rawTopologyNode) (suite : SuiteDefinition)
    (imports : gmap string topologyImport) : ImportError + TopologyNode :=
  match resolveLoadSpec raw (SourceFiles suite) with
  | inl reason => inl (LoadFailed reason)
  | inr body =>
      inr (mkNode (Raw.ID raw) (Raw.Name raw) (Raw.Kind raw) (Raw.Variant raw) body
             (expandImportedDependencies (Raw.DependsOn raw ++ Raw.OnFailure raw) imports)
             (expandImportedMockTargets (Raw.ResetMocks raw) imports)
             (expandImportedDependencies (Raw.OnFailure raw) imports)
             (Raw.ContinueOnFailure raw) 0 (SuiteID suite) (Title suite) (Repository suite)
             (Version suite) "" "" "" "" (Raw.Env raw) ∅ 0)
  end.

(** The steps of a pre-hook are built one by one. *)
Fixpoint pre_hook_nodes (suite : SuiteDefinition) (rawNodes : list rawTopologyNode)
    : ImportError + list TopologyNode :=
  match rawNodes with
  | [] => inr []
  | raw :: rest =>
      if bool_decide (Raw.Kind raw = "suite") then inl PreHookImportsSuite
      else match topologyNodeFromRaw raw suite ∅ with
      | inl e => inl (InvalidPreHook e)
      | inr node =>
          check nodes := pre_hook_nodes suite rest in
          inr (node :: nodes)
      end
  end.

Definition resolvePreHookNodes (suite : SuiteDefinition) : ImportError + list TopologyNode :=
  match explicitSuiteSourceContent (SourceFiles suite) PreHookFile with
  | None => inr []
  | Some source =>
      if blank source then inr []
      else match evalStarlarkTopology source with
      | inl reason => inl (InvalidPreHook (ParseFailed reason))
      | inr rawNodes =>
          check nodes := pre_hook_nodes suite (resolveAssignmentDependencies rawNodes) in
          if bool_decide (nodes = []) then inl PreHookEmpty else inr (namespacePreHookNodes nodes)
      end
  end.

(** The second loop of [resolveSuite]: imported steps are spliced in where
    the suite step stands, its entries waiting for what the suite step waits
    for. *)
Definition splice (raw : rawTopologyNode) (imports : gmap string topologyImport)
    : list TopologyNode :=
  let expansion := default (mkImport [] [] [] []) (imports !! Raw.ID raw) in
  let rootDependsOn := expandImportedDependencies (Raw.DependsOn raw) imports in
  (fun node => if containsString (EntryIDs expansion) (ID node)
               then set_edges (normalizeDependencies (rootDependsOn ++ DependsOn node))
                      (ResetMocks node) (OnFailure node) node
               else node) <$> Nodes expansion.

Fixpoint assemble (suite : SuiteDefinition) (imports : gmap string topologyImport)
    (rawNodes : list rawTopologyNode) : ImportError + list TopologyNode :=
  match rawNodes with
  | [] => inr []
  | raw :: rest =>
      check nodes := (if bool_decide (Raw.Kind raw = "suite") then inr (splice raw imports)
                      else check node := topologyNodeFromRaw raw suite imports in inr [node]) in
      check final := assemble suite imports rest in
      inr (nodes ++ final)
  end.

Definition cache := gmap string resolvedTopology.

(** The first loop of [resolveSuite] resolves the imported suites with
    [child], which threads the cache; [None] is lack of fuel. *)
Fixpoint resolve_imports
    (child : cache -> SuiteDefinition -> option ((ImportError + resolvedTopology) * cache))
    (byID : gmap string SuiteDefinition) (manifest : gmap string dependencyEntry)
    (locks : gmap string dependencyLockEntry) (rawNodes : list rawTopologyNode)
    (imports : gmap string topologyImport) (dependencies : list ResolvedDependency) (cached : cache)
    : option ((ImportError + (gmap string topologyImport * list ResolvedDependency)) * cache) :=
  match rawNodes with
  | [] => Some (inr (imports, dependencies), cached)
  | raw :: rest =>
      if negb (bool_decide (Raw.Kind raw = "suite")) then
        resolve_imports child byID manifest locks rest imports dependencies cached
      else match manifest !! Raw.Ref raw with
      | None => Some (inl (MissingAlias (Raw.Ref raw)), cached)
      | Some entry =>
          match resolveDependency byID (Raw.Ref raw) entry
                  (default Lock.zero (locks !! Raw.Ref raw)) with
          | inl e => Some (inl e, cached)
          | inr (dependency, childSuite) =>
              match child cached childSuite with
              | None => None
              | Some (inl e, cached) => Some (inl e, cached)
              | Some (inr resolved, cached) =>
                  match namespaceImportedTopology raw childSuite (ResolvedNodes resolved) dependency with
                  | inl e => Some (inl e, cached)
                  | inr imported =>
                      resolve_imports child byID manifest locks rest
                        (<[Raw.ID raw := imported]> imports) (dependencies ++ [dependency]) cached
                  end
              end
          end
      end
  end.

(** What follows the two loops. *)
Definition finish_suite (suite : SuiteDefinition) (rawNodes : list rawTopologyNode)
    (imports : gmap string topologyImport) : option (ImportError + list TopologyNode) :=
  match assemble suite imports rawNodes with
  | inl e => Some (inl e)
  | inr final =>
      match resolvePreHookNodes suite with
      | inl e => Some (inl e)
      | inr preHook =>
          match resolveTopology (renumber (prependPreHookNodes final preHook)) with
          | None => None
          | Some (inl e) => Some (inl (InvalidTopology e))
          | Some (inr resolved) => Some (inr resolved)
          end
      end
  end.

Fixpoint resolveSuite (fuel : nat) (byID : gmap string SuiteDefinition) (cached : cache)
    (suite : SuiteDefinition) (stack : list string)
    : option ((ImportError + resolvedTopology) * cache) :=
  match fuel with
  | O => None
  | S fuel =>
      let id := TrimSpace (SuiteID suite) in
      match cached !! id with
      | Some resolved => Some (inr resolved, cached)
      | None =>
          match ValidateDefinition suite with
          | Some e => Some (inl (InvalidPackage e), cached)
          | None =>
              if containsString stack id then Some (inl (NestedSuiteCycle (stack ++ [id])), cached)
              else match evalStarlarkTopology (SuiteStar suite) with
              | inl reason => Some (inl (ParseFailed reason), cached)
              | inr parsed =>
                  let rawNodes := resolveAssignmentDependencies parsed in
                  match parseDependencyManifest (SourceFiles suite) with
                  | inl e => Some (inl e, cached)
                  | inr manifest =>
                      match parseDependencyLockManifest (SourceFiles suite) with
                      | inl e => Some (inl e, cached)
                      | inr locks =>
                          match resolve_imports
                                  (fun cached child => resolveSuite fuel byID cached child (stack ++ [id]))
                                  byID manifest locks rawNodes ∅ [] cached with
                          | None => None
                          | Some (inl e, cached) => Some (inl e, cached)
                          | Some (inr (imports, dependencies), cached) =>
                              match finish_suite suite rawNodes imports with
                              | None => None
                              | Some (inl e) => Some (inl e, cached)
                              | Some (inr nodes) =>
                                  let result := mkResolved nodes dependencies in
                                  Some (inr result, <[id := result]> cached)
                              end
                          end
                      end
                  end
              end
          end
      end
  end.

(** [ResolveRuntimeWithModules]: a chain of imports visits every suite of the
    catalog at most once. *)
Definition ResolveRuntime (suite : SuiteDefinition) (catalog : list SuiteDefinition)
    : option (ImportError + resolvedTopology) :=
  let byID := catalog_index catalog in
  fst <$> resolveSuite (size byID + 2) byID ∅ suite [].
End Resolve.

(** ** Every resolution returns *)

Lemma catalog_index_id catalog k suite :
  catalog_index catalog !! k = Some suite -> TrimSpace (SuiteID suite) = k.
Proof.
  unfold catalog_index.
  assert (forall m : gmap string SuiteDefinition,
    (forall k suite, m !! k = Some suite -> TrimSpace (SuiteID suite) = k) ->
    forall k suite, foldl (fun m suite => <[TrimSpace (SuiteID suite) := suite]> m) m catalog !! k
      = Some suite -> TrimSpace (SuiteID suite) = k) as H.
  { induction catalog as [|c rest IH]; intros m Hm; [done|]. cbn [foldl]. apply IH.
    intros k' s'. rewrite lookup_insert. case_decide; [congruence|apply Hm]. }
  apply H. intros k' s'. by rewrite lookup_empty.
Qed.

Lemma select_candidate_in byID ref nref version selected :
  select_candidate byID ref nref version = inr selected -> exists k, byID !! k = Some selected.
Proof.
  unfold select_candidate. set (cands := merge_sort id_le _).
  assert (forall c, c ∈ cands -> exists k, byID !! k = Some c) as Hin.
  { intros c Hc. unfold cands in Hc. rewrite merge_sort_Permutation in Hc.
    apply list_elem_of_filter in Hc as [_ Hc]. apply list_elem_of_fmap in Hc as ([k c'] & -> & Hk).
    exists k. by apply elem_of_map_to_list. }
  clearbody cands. destruct cands as [|first rest]; [done|]. case_bool_decide.
  - intros [= <-]. apply Hin. left.
  - destruct (base.filter (fun c => TrimSpace (Version c) = version) (first :: rest))
      as [|c l] eqn:Hf; [done|]. destruct (blank (SuiteID c)); [done|].
    intros [= <-]. apply Hin.
    assert (c ∈ base.filter (fun c => TrimSpace (Version c) = version) (first :: rest)) as Hc
      by (rewrite Hf; left).
    by apply list_elem_of_filter in Hc as [_ ?].
Qed.

Lemma resolveDependency_in byID alias entry lock dependency selected :
  resolveDependency byID alias entry lock = inr (dependency, selected) ->
  exists k, byID !! k = Some selected.
Proof.
  unfold resolveDependency. cbn zeta. case_bool_decide; [done|].
  destruct (requested_version _ _ _ _) as [|version]; [done|].
  destruct (_ || _); [done|]. destruct (select_candidate _ _ _ _) as [|c] eqn:Hc; [done|].
  destruct (resolveDependencyProfile _ _); [intros H'; discriminate H'|]. intros H'.
  assert (c = selected) as <- by congruence. exact (select_candidate_in _ _ _ _ _ Hc).
Qed.

(** The suites of the catalog that are not on the stack. *)
Definition unvisited (byID : gmap string SuiteDefinition) (stack : list string) : nat :=
  size (dom byID ∖ list_to_set stack : gset string).

Lemma unvisited_push byID stack id : id ∈ dom byID -> id ∉ stack ->
  (unvisited byID (stack ++ [id]) < unvisited byID stack)%nat.
Proof.
  intros Hd Hs. apply subset_size. split; [set_solver|]. intros Hsub.
  assert (id ∈ dom byID ∖ list_to_set stack) as Hin by set_solver.
  apply Hsub in Hin. set_solver.
Qed.

Lemma unvisited_le byID stack id :
  (unvisited byID (stack ++ [id]) <= unvisited byID stack)%nat.
Proof. apply subseteq_size. set_solver. Qed.

Section Termination.
  Context (evalStarlarkTopology : string -> string + list rawTopologyNode)
    (resolveLoadSpec : rawTopologyNode -> list SourceFile -> string + handle)
    (decode_dependencies : string -> option (list (string * yamlNode dependencyEntry)))
    (decode_locks : string -> option (list (string * yamlNode dependencyLockEntry)))
    (decode_profile : string -> option (list (string * anyValue))).
  Notation resolve := (resolveSuite evalStarlarkTopology resolveLoadSpec
    decode_dependencies decode_locks decode_profile).

Lemma finish_suite_total suite rawNodes imports :
  exists r, finish_suite evalStarlarkTopology resolveLoadSpec suite rawNodes imports = Some r.
Proof.
  unfold finish_suite. destruct (assemble _ _ _ _); [by eexists|].
  destruct (resolvePreHookNodes _ _ _) as [|pre]; [by eexists|].
  destruct (resolve_total (renumber (prependPreHookNodes l pre))) as [[|] ->]; by eexists.
Qed.

Lemma resolve_imports_total child byID manifest locks rawNodes imports dependencies cached :
  (forall k s cached, byID !! k = Some s -> exists r, child cached s = Some r) ->
  exists r, resolve_imports decode_profile child byID manifest locks rawNodes imports
    dependencies cached = Some r.
Proof.
  intros Hchild. revert imports dependencies cached.
  induction rawNodes as [|raw rest IH]; intros imports dependencies cached; [by eexists|].
  cbn [resolve_imports]. case_bool_decide; cbn [negb]; [|apply IH].
  destruct (manifest !! _) as [entry|]; [|by eexists].
  destruct (resolveDependency _ _ _ _) as [|[dependency selected]] eqn:Hdep; [by eexists|].
  apply resolveDependency_in in Hdep as [k Hk].
  destruct (Hchild k selected cached Hk) as [[[|resolved] cached'] ->]; [by eexists|].
  destruct (namespaceImportedTopology _ _ _ _ _); [by eexists|]. apply IH.
Qed.

Lemma resolveSuite_total byID (Hkeys : forall k s, byID !! k = Some s -> TrimSpace (SuiteID s) = k)
    fuel : forall cached suite stack,
  (unvisited byID stack + (if decide (TrimSpace (SuiteID suite) ∈ dom byID) then 0 else 1) < fuel)%nat ->
  exists r, resolve fuel byID cached suite stack = Some r.
Proof.
  induction fuel as [|fuel IH]; intros cached suite stack Hfuel; [lia|]. cbn [resolveSuite]. cbn zeta.
  destruct (cached !! _); [by eexists|]. destruct (ValidateDefinition suite); [by eexists|].
  destruct (containsString stack (TrimSpace (SuiteID suite))) eqn:Hstack; [by eexists|].
  destruct (evalStarlarkTopology (SuiteStar suite)) as [|parsed]; [by eexists|].
  destruct (parseDependencyManifest _ _) as [|manifest]; [by eexists|].
  destruct (parseDependencyLockManifest _ _) as [|locks]; [by eexists|].
  destruct (resolve_imports_total
    (fun cached child => resolve fuel byID cached child (stack ++ [TrimSpace (SuiteID suite)]))
    byID manifest locks (resolveAssignmentDependencies parsed) ∅ [] cached)
    as [[[e|[imports dependencies]] cached'] ->]; [|by eexists|].
  - intros k s cached' Hk. apply IH. rewrite decide_True by (apply elem_of_dom; rewrite (Hkeys _ _ Hk); eauto).
    assert (TrimSpace (SuiteID suite) ∉ stack) as Hnot.
    { intros Hin. assert (containsString stack (TrimSpace (SuiteID suite)) = true); [|congruence].
      apply existsb_exists. exists (TrimSpace (SuiteID suite)). split; [by apply list_elem_of_In|].
      by apply bool_decide_eq_true_2. }
    pose proof (unvisited_le byID stack (TrimSpace (SuiteID suite))).
    destruct (decide (TrimSpace (SuiteID suite) ∈ dom byID)) as [Hd|Hd]; [|lia].
    pose proof (unvisited_push _ _ _ Hd Hnot). lia.
  - destruct (finish_suite_total suite (resolveAssignmentDependencies parsed) imports) as [[|] ->];
      by eexists.
Qed.

(** The resolution of a suite against a catalog always returns, however
    the suites of the catalog import each other: a chain of imports cannot be
    longer than the catalog because a suite that is on the stack is refused. *)
Theorem ResolveRuntime_total (suite : SuiteDefinition) (catalog : list SuiteDefinition) :
  exists r, ResolveRuntime evalStarlarkTopology resolveLoadSpec
    decode_dependencies decode_locks decode_profile suite catalog = Some r.
Proof.
  unfold ResolveRuntime.
  destruct (resolveSuite_total (catalog_index catalog) (catalog_index_id catalog)
    (size (catalog_index catalog) + 2) ∅ suite []) as [[r c] ->]; [|by eexists].
  assert (unvisited (catalog_index catalog) [] <= size (catalog_index catalog))%nat.
  { unfold unvisited. rewrite <-(size_dom (D := gset string)). apply subseteq_size. set_solver. }
  destruct (decide _); lia.
Qed.
End Termination.

(** ** The pre-hook runs before the suite *)
(** What the evaluation guarantees of the steps of one source: ids are
    trimmed and not empty, and edges are steps of the same source. *)
Record own_steps (nodes : list TopologyNode) : Prop := {
  own_id : forall n, n ∈ nodes -> TrimSpace (ID n) = ID n /\ ID n <> "";
  own_deps : forall n d, n ∈ nodes -> d ∈ DependsOn n -> exists m, m ∈ nodes /\ ID m = d;
}.
Lemma own_normalized nodes n : own_steps nodes -> n ∈ nodes ->
  forall d, d ∈ normalizeDependencies (DependsOn n) <-> d ∈ DependsOn n.
Proof.
  intros Hown Hn d. rewrite elem_of_normalizeDependencies. split.
  - intros (_ & x & Hx & <-). destruct (own_deps _ Hown n x Hn Hx) as (m & Hm & <-).
    by rewrite (proj1 (own_id _ Hown m Hm)).
  - intros Hd. destruct (own_deps _ Hown n d Hn Hd) as (m & Hm & <-).
    destruct (own_id _ Hown m Hm) as [Ht Hne]. split; [done|]. by exists (ID m).
Qed.

Lemma elem_of_prepend suite pre n : n ∈ prependPreHookNodes suite pre -> pre <> [] ->
  n ∈ pre \/ exists s, s ∈ suite /\ ID n = ID s /\
    DependsOn n = (if bool_decide (DependsOn s = []) then gates pre else DependsOn s).
Proof.
  intros Hn Hne. unfold prependPreHookNodes in Hn. rewrite bool_decide_eq_false_2 in Hn by done.
  apply elem_of_app in Hn as [?|(s & -> & Hs)%list_elem_of_fmap]; [by left|].
  right. exists s. split; [done|]. by case_bool_decide.
Qed.

Lemma prepend_pre suite pre n : n ∈ pre -> n ∈ prependPreHookNodes suite pre.
Proof.
  intros Hn. unfold prependPreHookNodes. case_bool_decide as H; [subst; by apply not_elem_of_nil in Hn|].
  apply elem_of_app. by left.
Qed.

Lemma prepend_suite suite pre s : s ∈ suite -> pre <> [] ->
  exists n, n ∈ prependPreHookNodes suite pre /\ ID n = ID s /\
    DependsOn n = (if bool_decide (DependsOn s = []) then gates pre else DependsOn s).
Proof.
  intros Hs Hne. unfold prependPreHookNodes. rewrite (bool_decide_eq_false_2 (pre = [])) by done.
  eexists. split; [apply elem_of_app; right; apply list_elem_of_fmap; by exists s|].
  by case_bool_decide.
Qed.

Lemma elem_of_gates pre id : id ∈ gates pre <->
  exists n, n ∈ pre /\ ID n = id /\ forall m, m ∈ pre -> id ∉ DependsOn m.
Proof.
  unfold gates. rewrite list_elem_of_fmap.
  assert (forall d, d ∈ (list_to_set (mjoin (DependsOn <$> pre)) : gset string) <->
    exists m, m ∈ pre /\ d ∈ DependsOn m) as Hset.
  { intros d. rewrite elem_of_list_to_set, list_elem_of_join. split.
    - intros (l & Hd & (m & -> & Hm)%list_elem_of_fmap). eauto.
    - intros (m & Hm & Hd). exists (DependsOn m). split; [done|]. by apply list_elem_of_fmap_2. }
  split.
  - intros (n & -> & [Hno Hn]%list_elem_of_filter). exists n. split; [done|]. split; [done|].
    intros m Hm Hd. apply Hno, Hset. eauto.
  - intros (n & Hn & <- & Hno). exists n. split; [done|]. apply list_elem_of_filter.
    split; [|done]. intros (m & Hm & Hd)%Hset. by apply (Hno m).
Qed.

Lemma elem_of_renumber nodes n : n ∈ renumber nodes <->
  exists i n0, nodes !! i = Some n0 /\ n = set_place (Level n0) (Z.of_nat i) n0.
Proof.
  unfold renumber. rewrite elem_of_lookup_imap. split.
  - intros (i & n0 & -> & Hi). eauto.
  - intros (i & n0 & Hi & ->). eauto.
Qed.

(** The edges between the steps before the resolution are edges after it. *)
Lemma depends_resolved nodes ordered n d :
  resolveTopology (renumber nodes) = Some (inr ordered) -> n ∈ nodes ->
  d ∈ normalizeDependencies (DependsOn n) -> depends ordered (ID n) d.
Proof.
  intros H Hn Hd. pose proof (resolve_resolved _ _ H) as HR.
  pose proof (resolve_well_formed_inv _ _ H) as [Hnd _ _].
  apply list_elem_of_lookup in Hn as [i Hi].
  set (n1 := set_place (Level n) (Z.of_nat i) n).
  assert (n1 ∈ renumber nodes) as Hn1 by (apply elem_of_renumber; eauto).
  assert (ID n1 ∈ fmap (M := list) ID ordered) as Hin
    by (rewrite (resolved_ids _ _ HR); by apply list_elem_of_fmap_2).
  apply list_elem_of_fmap in Hin as (m & Hid & Hm).
  destruct (resolved_node _ _ HR m Hm) as (n2 & Hn2 & Heq).
  assert (n2 = n1) as ->.
  { assert (ID n2 = ID n1) as Hid2 by (rewrite Hid, Heq; done).
    apply list_elem_of_lookup in Hn1 as [j Hj], Hn2 as [k Hk].
    assert (fmap (M := list) ID (renumber nodes) !! j = Some (ID n1)) as Hj'
      by (by rewrite list_lookup_fmap, Hj).
    assert (fmap (M := list) ID (renumber nodes) !! k = Some (ID n1)) as Hk'
      by (by rewrite list_lookup_fmap, Hk, <-Hid2).
    pose proof (NoDup_lookup _ _ _ _ Hnd Hj' Hk'). congruence. }
  exists m. split; [done|]. split; [done|]. by rewrite Heq.
Qed.

Lemma depends_rtc nodes all ordered a b :
  resolveTopology (renumber all) = Some (inr ordered) -> own_steps nodes ->
  (forall n, n ∈ nodes -> DependsOn n <> [] -> exists n', n' ∈ all /\ ID n' = ID n /\
    DependsOn n' = DependsOn n) ->
  rtc (depends nodes) a b -> rtc (depends ordered) a b.
Proof.
  intros H Hown Hall Hrtc. induction Hrtc as [x|x y z (n & Hn & <- & Hy) _ IH]; [apply rtc_refl|].
  eapply rtc_l; [|exact IH].
  destruct (Hall n Hn) as (n' & Hn' & <- & Hdeps); [by intros He; rewrite He in Hy; apply not_elem_of_nil in Hy|].
  eapply depends_resolved; [done|done|]. rewrite Hdeps. by apply (own_normalized nodes).
Qed.

(** C7: When a suite with a pre-hook resolves, every step of the suite waits
    (through dependencies) for every step of the pre-hook: none can start
    before the whole pre-hook has ended. *)
Theorem prehook_gates_every_step (suite pre ordered : list TopologyNode) (Hne : pre <> [])
    (Hpre : own_steps pre) (Hsuite : own_steps suite)
    (H : resolveTopology (renumber (prependPreHookNodes suite pre)) = Some (inr ordered)) :
  forall s p, s ∈ suite -> p ∈ pre -> tc (depends ordered) (ID s) (ID p).
Proof.
  set (all := prependPreHookNodes suite pre) in *.
  destruct (resolved_ranked _ _ (resolve_well_formed_inv _ _ H) (resolve_resolved _ _ H)) as [rank Hrank].
  assert (forall n d, n ∈ all -> d ∈ normalizeDependencies (DependsOn n) -> (rank d < rank (ID n))%nat) as Hr.
  { intros n d [i Hi]%list_elem_of_lookup Hd.
    apply (Hrank (set_place (Level n) (Z.of_nat i) n)); [apply elem_of_renumber; eauto|done]. }
  assert (forall n d, n ∈ pre -> d ∈ DependsOn n -> (rank d < rank (ID n))%nat) as Hrp.
  { intros n d Hn Hd. apply Hr; [by apply prepend_pre|]. by apply (own_normalized pre). }
  assert (forall n d, n ∈ suite -> d ∈ DependsOn n -> (rank d < rank (ID n))%nat) as Hrs.
  { intros n d Hn Hd. destruct (prepend_suite suite pre n Hn Hne) as (n' & Hn' & <- & Hdeps).
    apply Hr; [done|]. rewrite Hdeps. rewrite bool_decide_eq_false_2.
    - by apply (own_normalized suite).
    - intros He. rewrite He in Hd. by apply not_elem_of_nil in Hd. }
  assert (forall l, own_steps l -> forall n d, n ∈ l -> d ∈ DependsOn n -> d ∈ fmap (M := list) ID l) as Hcl.
  { intros l Hl n d Hn Hd. destruct (own_deps _ Hl n d Hn Hd) as (m & Hm & <-).
    by apply list_elem_of_fmap_2. }
  intros s p Hs Hp.
  destruct (reaches_root suite rank (Hcl _ Hsuite) Hrs s Hs) as (r & Hrin & Hr0 & Hsr).
  destruct (reached_from_exit pre rank Hrp p Hp) as (g & Hg & Hg0 & Hgp).
  assert (depends ordered (ID r) (ID g)) as Hedge.
  { destruct (prepend_suite suite pre r Hrin Hne) as (n & Hn & <- & Hdeps).
    eapply depends_resolved; [exact H|exact Hn|].
    rewrite Hdeps, bool_decide_eq_true_2, elem_of_normalizeDependencies by done.
    destruct (own_id _ Hpre g Hg) as [Ht Hgne]. split; [done|]. exists (ID g).
    split; [|done]. apply elem_of_gates. eauto. }
  eapply tc_rtc_l; [|eapply tc_rtc_r; [apply tc_once, Hedge|]].
  - eapply depends_rtc; [exact H|exact Hsuite| |exact Hsr]. intros n Hn Hdn.
    destruct (prepend_suite suite pre n Hn Hne) as (n' & Hn' & ? & Hdeps).
    rewrite bool_decide_eq_false_2 in Hdeps by done. eauto.
  - eapply depends_rtc; [exact H|exact Hpre| |exact Hgp]. intros n Hn _. exists n.
    split; [by apply prepend_pre|done].
Qed.

(** ** An imported suite stands for one step *)

Lemma id_map_lookup prefix childNodes n :
  n ∈ childNodes -> id_map prefix childNodes !! ID n = Some (qualify prefix (ID n)).
Proof.
  unfold id_map.
  assert (forall l (m : gmap string string) d, (m !! d = Some (qualify prefix d) \/ d ∈ fmap (M := list) ID l) ->
    foldl (fun m n => <[ID n := qualify prefix (ID n)]> m) m l !! d = Some (qualify prefix d)) as H.
  { induction l as [|x l IH]; intros m d Hd; cbn [foldl].
    - destruct Hd as [?|?%not_elem_of_nil]; done.
    - apply IH. rewrite lookup_insert. destruct (decide (ID x = d)) as [<-|Hne]; [by left|].
      destruct Hd as [?|[?|?]%elem_of_cons]; [by left|congruence|by right]. }
  intros Hn. apply H. right. by apply list_elem_of_fmap_2.
Qed.

Lemma qualify_nonempty prefix id : qualify prefix id <> "".
Proof. unfold qualify. destruct prefix; done. Qed.

Lemma remap_own prefix childNodes edges :
  (forall d, d ∈ edges -> exists m, m ∈ childNodes /\ ID m = d) ->
  remap (id_map prefix childNodes) edges = qualify prefix <$> edges.
Proof.
  unfold remap. induction edges as [|d edges IH]; intros Hd; [done|].
  rewrite !fmap_cons, filter_cons.
  destruct (Hd d) as (m & Hm & <-); [left|]. rewrite (id_map_lookup _ _ _ Hm). cbn [default].
  rewrite decide_True by apply qualify_nonempty.
  rewrite IH; [done|]. intros d' Hd'. apply Hd. by right.
Qed.

Lemma count_dependants_zero childNodes d :
  default 0 (count_dependants childNodes !! d) = 0 <->
  forall m, m ∈ childNodes -> d ∉ DependsOn m.
Proof.
  unfold count_dependants.
  assert (forall l (m : gmap string Z), (forall x, 0 <= default 0 (m !! x)) ->
    let r := foldl (fun m d => <[d := default 0 (m !! d) + 1]> m) m l in
    default 0 (r !! d) = 0 <-> default 0 (m !! d) = 0 /\ d ∉ l) as H.
  { induction l as [|x l IH]; intros m Hm; cbn [foldl]; cbn zeta in *.
    - split; [|tauto]. intros ?. split; [done|]. apply not_elem_of_nil.
    - rewrite IH.
      + rewrite not_elem_of_cons, lookup_insert. specialize (Hm x).
        destruct (decide (x = d)) as [->|Hx]; simpl; [|naive_solver].
        split; [intros [? _]; lia|naive_solver].
      + intros y. rewrite lookup_insert. pose proof (Hm x). destruct (decide (x = y)); simpl; [lia|apply Hm]. }
  rewrite H by (intros x; by rewrite lookup_empty). rewrite lookup_empty. split.
  - intros [_ Hno] m Hm Hd. apply Hno, list_elem_of_join. exists (DependsOn m).
    split; [done|]. by apply list_elem_of_fmap_2.
  - intros Hno. split; [done|]. intros (l & Hd & (m & -> & Hm)%list_elem_of_fmap)%list_elem_of_join.
    by apply (Hno m).
Qed.

Lemma elem_of_sort_strings l x : x ∈ sort_strings l <-> x ∈ l.
Proof. unfold sort_strings. by rewrite merge_sort_Permutation. Qed.

Lemma id_map_Some prefix childNodes d v :
  id_map prefix childNodes !! d = Some v -> v = qualify prefix d /\ d ∈ (ID <$> childNodes).
Proof.
  unfold id_map.
  assert (forall l (m : gmap string string),
    foldl (fun m n => <[ID n := qualify prefix (ID n)]> m) m l !! d = Some v ->
    m !! d = Some v \/ (v = qualify prefix d /\ d ∈ fmap (M := list) ID l)) as H.
  { induction l as [|n l IH]; intros m; cbn [foldl]; [by left|]. intros Hv.
    rewrite fmap_cons, elem_of_cons. apply IH in Hv as [Hv|Hv]; [|naive_solver].
    rewrite lookup_insert in Hv. case_decide; naive_solver. }
  intros [Hv|Hv]%H; [|done]. by rewrite lookup_empty in Hv.
Qed.

Lemma elem_of_remap prefix childNodes edges f :
  f ∈ remap (id_map prefix childNodes) edges ->
  exists n, n ∈ childNodes /\ f = qualify prefix (ID n).
Proof.
  unfold remap. intros [Hf (d & -> & _)%list_elem_of_fmap]%list_elem_of_filter.
  destruct (id_map prefix childNodes !! d) as [v|] eqn:Hv; [|done].
  apply id_map_Some in Hv as [-> (n & -> & Hn)%list_elem_of_fmap]. eauto.
Qed.

Section Import.
  Context (raw : rawTopologyNode) (childSuite : SuiteDefinition) (childNodes : list TopologyNode)
    (dependency : ResolvedDependency) (runtime : dependencyProfileRuntime)
    (imports : gmap string topologyImport).
  Notation prefix := (Raw.ID raw).
  Notation imported := (namespace_nodes raw childSuite childNodes dependency runtime).
  Hypothesis Hne : childNodes <> [].
  Hypothesis Hown : own_steps childNodes.
  Hypothesis Htrim : forall n, n ∈ childNodes -> TrimSpace (qualify prefix (ID n)) = qualify prefix (ID n).
  Hypothesis Himports : imports !! prefix = Some imported.

(** The imported steps: qualified ids, and the edges of the child. *)
Lemma elem_of_imported n' : n' ∈ Nodes imported <->
  exists i n, childNodes !! i = Some n /\
    n' = remap_node (id_map prefix childNodes) (namespace_node raw childSuite dependency runtime i n).
Proof.
  unfold namespace_nodes. rewrite bool_decide_eq_false_2 by done. cbn [Nodes].
  rewrite list_elem_of_fmap. setoid_rewrite elem_of_lookup_imap. naive_solver.
Qed.

Lemma imported_deps i n : n ∈ childNodes ->
  DependsOn (remap_node (id_map prefix childNodes) (namespace_node raw childSuite dependency runtime i n))
  = qualify prefix <$> DependsOn n.
Proof. intros Hn. apply remap_own. intros d Hd. by apply (own_deps _ Hown n). Qed.

Lemma splice_nodes : splice raw imports =
  (fun node => if containsString (EntryIDs imported) (ID node)
               then set_edges (normalizeDependencies
                      (expandImportedDependencies (Raw.DependsOn raw) imports ++ DependsOn node))
                      (ResetMocks node) (OnFailure node) node
               else node) <$> Nodes imported.
Proof. unfold splice. by rewrite Himports. Qed.

(** Every step of the child is spliced in under its qualified id, with at
    least the edges of the child. *)
Lemma splice_child n : n ∈ childNodes ->
  exists n', n' ∈ splice raw imports /\ ID n' = qualify prefix (ID n) /\
    (forall d, d ∈ DependsOn n -> qualify prefix d ∈ DependsOn n') /\
    (DependsOn n = [] -> forall d, d ∈ expandImportedDependencies (Raw.DependsOn raw) imports ->
      d ∈ DependsOn n').
Proof.
  intros Hn. pose proof Hn as [i Hi]%list_elem_of_lookup.
  set (m := remap_node (id_map prefix childNodes) (namespace_node raw childSuite dependency runtime i n)).
  assert (m ∈ Nodes imported) as Hm by (apply elem_of_imported; eauto).
  assert (DependsOn m = qualify prefix <$> DependsOn n) as Hdeps by by apply imported_deps.
  rewrite splice_nodes. eexists. split; [by apply list_elem_of_fmap_2|].
  destruct (containsString (EntryIDs imported) (ID m)) eqn:Hentry; cbn [DependsOn ID set_edges].
  - split; [done|]. split.
    + intros d Hd. destruct (own_deps _ Hown n d Hn Hd) as (x & Hx & <-).
      apply elem_of_normalizeDependencies. split; [apply qualify_nonempty|].
      exists (qualify prefix (ID x)). split; [|by apply Htrim].
      apply elem_of_app. right. rewrite Hdeps. by apply list_elem_of_fmap_2.
    + intros _ d Hd. unfold expandImportedDependencies in Hd |- *.
      apply elem_of_normalizeDependencies. pose proof Hd as Hd'.
      apply elem_of_normalizeDependencies in Hd as (Hdne & x & Hx & <-). split; [done|].
      exists (TrimSpace x). split; [apply elem_of_app; by left|]. apply TrimSpace_idemp.
  - split; [done|]. rewrite Hdeps. split; [intros d Hd; by apply list_elem_of_fmap_2|].
    intros Hroot. exfalso.
    assert (containsString (EntryIDs imported) (ID m) = true); [|congruence].
    apply existsb_exists. exists (qualify prefix (ID n)). split; [|by apply bool_decide_eq_true_2].
    apply list_elem_of_In. unfold namespace_nodes. rewrite bool_decide_eq_false_2 by done.
    cbn [EntryIDs]. apply elem_of_sort_strings, list_elem_of_fmap. exists n.
    split; [by rewrite (id_map_lookup _ _ _ Hn)|]. apply list_elem_of_filter. split; [|done].
    apply elem_of_list_to_set, list_elem_of_fmap. exists n. split; [done|].
    by apply list_elem_of_filter.
Qed.

Lemma splice_origin n' : n' ∈ splice raw imports ->
  exists n, n ∈ childNodes /\ ID n' = qualify prefix (ID n).
Proof.
  rewrite splice_nodes. intros (m & -> & Hm)%list_elem_of_fmap.
  apply elem_of_imported in Hm as (i & n & Hi & ->). exists n.
  split; [by apply list_elem_of_lookup_2 in Hi|]. by destruct (containsString _ _).
Qed.

(** Every edge of an imported step leads to a step of the import, the ones of
    its entries to what the suite step is [after] as well. *)
Lemma splice_edges n' : n' ∈ splice raw imports ->
  (forall d, d ∈ DependsOn n' ->
     (exists m, m ∈ splice raw imports /\ ID m = d) \/
     d ∈ expandImportedDependencies (Raw.DependsOn raw) imports) /\
  (forall f, f ∈ OnFailure n' -> exists m, m ∈ splice raw imports /\ ID m = f).
Proof.
  assert (forall n, n ∈ childNodes -> exists m, m ∈ splice raw imports /\ ID m = qualify prefix (ID n))
    as Hin by (intros n Hn; destruct (splice_child n Hn) as (m & ? & ? & _); eauto).
  rewrite splice_nodes at 1. intros (m & -> & Hm)%list_elem_of_fmap.
  apply elem_of_imported in Hm as (i & n & Hi & ->). apply list_elem_of_lookup_2 in Hi.
  assert (forall d, d ∈ remap (id_map prefix childNodes) (DependsOn n) ->
    TrimSpace d = d /\ exists m, m ∈ splice raw imports /\ ID m = d) as Hown'.
  { intros d (x & Hx & ->)%elem_of_remap. split; [by apply Htrim|by apply Hin]. }
  assert (forall f, f ∈ OnFailure (remap_node (id_map prefix childNodes)
      (namespace_node raw childSuite dependency runtime i n)) ->
    exists m, m ∈ splice raw imports /\ ID m = f) as Hfail.
  { cbn. intros f. case_bool_decide as H0; [rewrite H0; by intros ?%not_elem_of_nil|].
    intros (x & Hx & ->)%elem_of_remap. by apply Hin. }
  destruct (containsString _ _); cbn [DependsOn OnFailure set_edges remap_node namespace_node];
    (split; [|exact Hfail]); intros d Hd; [|left; by apply Hown'].
  apply elem_of_normalizeDependencies in Hd as (Hdne & x & [Hx|Hx]%elem_of_app & <-).
  - right. pose proof Hx as Hx'. unfold expandImportedDependencies in Hx'.
    apply elem_of_normalizeDependencies in Hx' as (_ & y & _ & <-). by rewrite TrimSpace_idemp.
  - left. destruct (Hown' x Hx) as [-> ?]. done.
Qed.

Lemma rtc_splice a b : rtc (depends childNodes) a b ->
  rtc (depends (splice raw imports)) (qualify prefix a) (qualify prefix b).
Proof.
  induction 1 as [x|x y z (n & Hn & <- & Hy) _ IH]; [apply rtc_refl|].
  eapply rtc_l; [|exact IH]. destruct (splice_child n Hn) as (n' & Hn' & <- & Hd & _).
  exists n'. split; [done|]. split; [done|]. by apply Hd.
Qed.
End Import.

(** The [on_failure] edges of a suite step itself have no effect: neither the
    order nor the trigger reaches the imported steps. *)
Theorem suite_on_failure_dropped (raw raw' : rawTopologyNode) (imports : gmap string topologyImport) :
  Raw.ID raw' = Raw.ID raw -> Raw.DependsOn raw' = Raw.DependsOn raw ->
  splice raw' imports = splice raw imports.
Proof. unfold splice. by intros -> ->. Qed.

(** C8: A suite step behaves as one step for the order that [after] gives:
    whatever the suite step lists in [after], every imported step waits for;
    whoever waits for the suite step waits for every imported step; and the
    imported steps wait for nothing else outside of the import.  In particular
    the [on_failure] edges of the suite step itself are dropped: an imported
    step is triggered by steps of the import only. *)
Theorem imported_suite_is_one_step (raw : rawTopologyNode) (childSuite : SuiteDefinition)
    (childNodes : list TopologyNode) (dependency : ResolvedDependency)
    (runtime : dependencyProfileRuntime) (imports : gmap string topologyImport) (rank : string -> nat)
    (Hne : childNodes <> []) (Hown : own_steps childNodes)
    (Htrim : forall n, n ∈ childNodes ->
       TrimSpace (qualify (Raw.ID raw) (ID n)) = qualify (Raw.ID raw) (ID n))
    (Hrank : forall n d, n ∈ childNodes -> d ∈ DependsOn n -> (rank d < rank (ID n))%nat)
    (Himports : imports !! Raw.ID raw
                = Some (namespace_nodes raw childSuite childNodes dependency runtime)) :
  (forall n d, n ∈ splice raw imports ->
     d ∈ expandImportedDependencies (Raw.DependsOn raw) imports ->
     tc (depends (splice raw imports)) (ID n) d) /\
  (forall edges n, Raw.ID raw ∈ edges -> n ∈ splice raw imports ->
     exists e, e ∈ expandImportedDependencies edges imports /\
       rtc (depends (splice raw imports)) e (ID n)) /\
  (forall n, n ∈ splice raw imports ->
     (forall d, d ∈ DependsOn n ->
        (exists m, m ∈ splice raw imports /\ ID m = d) \/
        d ∈ expandImportedDependencies (Raw.DependsOn raw) imports) /\
     (forall f, f ∈ OnFailure n -> exists m, m ∈ splice raw imports /\ ID m = f)).
Proof.
  assert (forall n d, n ∈ childNodes -> d ∈ DependsOn n -> d ∈ fmap (M := list) ID childNodes) as Hcl.
  { intros n d Hn Hd. destruct (own_deps _ Hown n d Hn Hd) as (m & Hm & <-).
    by apply list_elem_of_fmap_2. }
  split; [|split; [|by apply (splice_edges raw childSuite childNodes dependency runtime imports)]].
  - intros n' d Hn' Hd.
    destruct (splice_origin raw childSuite childNodes dependency runtime imports Hne Himports n' Hn')
      as (n & Hn & ->).
    destruct (reaches_root childNodes rank Hcl Hrank n Hn) as (r & Hr & Hr0 & Hrtc).
    eapply tc_rtc_l; [by eapply rtc_splice|].
    destruct (splice_child raw childSuite childNodes dependency runtime imports Hne Hown Htrim
      Himports r Hr) as (r' & Hr' & <- & _ & Hroot).
    apply tc_once. exists r'. split; [done|]. split; [done|]. by apply Hroot.
  - intros edges n' Hedges Hn'.
    destruct (splice_origin raw childSuite childNodes dependency runtime imports Hne Himports n' Hn')
      as (n & Hn & ->).
    destruct (reached_from_exit childNodes rank Hrank n Hn) as (e & He & He0 & Hrtc).
    exists (qualify (Raw.ID raw) (ID e)). split; [|by eapply rtc_splice].
    apply elem_of_normalizeDependencies. split; [apply qualify_nonempty|].
    exists (qualify (Raw.ID raw) (ID e)). split; [|by apply Htrim].
    assert (qualify (Raw.ID raw) (ID e)
      ∈ ExitIDs (namespace_nodes raw childSuite childNodes dependency runtime)) as Hexit.
    { unfold namespace_nodes. rewrite bool_decide_eq_false_2 by done. cbn [ExitIDs].
      apply elem_of_sort_strings, list_elem_of_fmap. exists e.
      split; [by rewrite (id_map_lookup _ _ _ He)|]. apply list_elem_of_filter.
      split; [by apply count_dependants_zero|done]. }
    apply list_elem_of_join. eexists. split; [|apply list_elem_of_fmap; exists (Raw.ID raw); by split].
    rewrite Himports. rewrite bool_decide_eq_false_2; [done|].
    intros H0. rewrite H0 in Hexit. by apply not_elem_of_nil in Hexit.
Qed.

(** A decision procedure for [own_steps]. *)
Definition own_stepsb (nodes : list TopologyNode) : bool :=
  forallb (fun n => bool_decide (TrimSpace (ID n) = ID n /\ ID n <> "") &&
    forallb (fun d => existsb (fun m => bool_decide (ID m = d)) nodes) (DependsOn n)) nodes.

Lemma own_stepsb_spec nodes : own_stepsb nodes = true -> own_steps nodes.
Proof.
  unfold own_stepsb. intros H. rewrite forallb_forall in H. setoid_rewrite <-list_elem_of_In in H.
  split.
  - intros n Hn. apply H, andb_true_iff in Hn as [Hn _]. by apply bool_decide_eq_true in Hn.
  - intros n d Hn Hd. apply H, andb_true_iff in Hn as [_ Hn]. rewrite forallb_forall in Hn.
    apply list_elem_of_In, Hn, existsb_exists in Hd as (m & Hm & Heq).
    apply bool_decide_eq_true in Heq. apply list_elem_of_In in Hm. eauto.
Qed.

Definition sample_pre : list TopologyNode :=
  namespacePreHookNodes [step "wait" [] 0; step "seed" ["wait"] 0].
Definition sample_steps : list TopologyNode := [step "api" [] 0; step "smoke" ["api"] 0].

Lemma prehook_gates_every_step_witness :
  exists ordered,
    resolveTopology (renumber (prependPreHookNodes sample_steps sample_pre)) = Some (inr ordered) /\
    tc (depends ordered) "smoke" "pre-hook/wait".
Proof.
  eexists. split; [vm_compute; reflexivity|].
  apply (prehook_gates_every_step sample_steps sample_pre _ ltac:(discriminate)
    (own_stepsb_spec sample_pre eq_refl) (own_stepsb_spec sample_steps eq_refl)
    ltac:(vm_compute; reflexivity) (step "smoke" ["api"] 0) (nth 0 sample_pre (step "" [] 0))).
  - right. left.
  - left.
Defined.

Definition sample_raw : rawTopologyNode :=
  Raw.mk "pay" "pay" "pay" "suite" "suite.run" "payments" 0%nat ["db"] [] [] false ∅.
Definition sample_dependency : ResolvedDependency :=
  Dep.mk "payments" "payments" "1.2.0" "payments:1.2.0" "" "base.yaml" ∅ "payments" "Payments" "" [].
Definition sample_imports : gmap string topologyImport :=
  {["pay" := namespace_nodes sample_raw sample_suite sample_steps sample_dependency
               (mkProfileRuntime ∅ ∅)]}.

Lemma suite_on_failure_dropped_witness :
  let raw := Raw.mk "pay" "pay" "pay" "suite" "suite.run" "payments" 0%nat ["db"] [] ["smoke"] false ∅ in
  splice raw sample_imports = splice sample_raw sample_imports /\
  forall n, n ∈ splice raw sample_imports -> "smoke" ∉ DependsOn n /\ "smoke" ∉ OnFailure n.
Proof.
  cbn zeta. rewrite (suite_on_failure_dropped sample_raw) by reflexivity. split; [done|].
  apply Forall_forall. apply (bool_decide_unpack _). vm_compute. exact I.
Defined.

Lemma imported_suite_is_one_step_witness :
  exists n, n ∈ splice sample_raw sample_imports /\ ID n = "pay/smoke" /\
    tc (depends (splice sample_raw sample_imports)) (ID n) "db".
Proof.
  eexists. split; [right; left|]. split; [reflexivity|].
  apply (proj1 (imported_suite_is_one_step sample_raw sample_suite sample_steps sample_dependency
    (mkProfileRuntime ∅ ∅) sample_imports (fun id => if bool_decide (id = "smoke") then 1%nat else 0%nat)
    ltac:(discriminate) (own_stepsb_spec sample_steps eq_refl)
    ltac:(intros n Hn; repeat (apply elem_of_cons in Hn as [->|Hn]; [reflexivity|]);
          by apply not_elem_of_nil in Hn)
    ltac:(intros n d Hn Hd; repeat (apply elem_of_cons in Hn as [->|Hn];
            [simpl in Hd; repeat (apply elem_of_cons in Hd as [->|Hd]; [vm_compute; lia|]);
             by apply not_elem_of_nil in Hd|]);
          by apply not_elem_of_nil in Hn)
    ltac:(reflexivity))).
  - right. left.
  - vm_compute. left.
Defined.

End Imports.
