(* ===== verification/Flow.v ===== *)
(** The flow of an execution, [src/backend/internal/execution/flow.go],
    [runtime.go], [topology.go], [stream.go] and [telemetry.go]: the recorded
    status of every step, which steps are skipped, the terminal bookkeeping
    that decides when and how an execution ends, and what [runNode] does with
    one step.

    A function that holds the service lock is one atomic function of the
    guarded state; what it does after it released the lock (publishing,
    logging, persisting, canceling the group) is a list of effects.  The clock
    readings are arguments.  FlowRuns.v has the interleavings. *)
From stdpp Require Import pretty.
From Stdlib Require Import ZArith Lia Ascii.
From S2P Require Import Prelude GoStrings Topology TopologyOrder Queue QueueVerdict.
Import GoStrings Topology TopologyOrder QueueVerdict.

Module Flow.

(** ** Data *)
Definition stepStatusPending : string := "pending".
Definition stepStatusRunning : string := "running".
Definition stepStatusHealthy : string := "healthy".
Definition stepStatusFailed : string := "failed".
Definition stepStatusSkipped : string := "skipped".

Record ExecutionEvent := mkEvent {
  EventID : string;
  Source : string;
  Timestamp : string;
  Text : string;
  EventStatus : string;
  EventLevel : string;
}.

(** [executionState]: the parts of the record and of the state the flow reads
    and writes; [Nodes] is [record.Suite.Topology]. *)
Record executionState := mkState {
  Status : string;
  StartedAt : Z;
  UpdatedAt : Z;
  Events : list ExecutionEvent;
  Nodes : list TopologyNode;
  workspaceID : string;
  total : Z;
  completed : Z;
  stepStatus : gmap string string;
  terminalErr : option string;
  hasBackend : bool;
  released : bool;
}.

(** The fields of [Service] guarded by [mu]. *)
Record Service := mkService {
  executions : gmap string executionState;
  order : list string;
}.

Record StreamEvent := mkStreamEvent {
  StreamID : Z;
  StreamExecution : string;
  StreamStatus : string;
  StreamPayload : ExecutionEvent;
}.

(** What happens after the lock is released. *)
Inductive effect :=
  | CancelRunningGroup (executionID : string)
  | Publish (e : StreamEvent)
  | AppendLog (executionID : string) (e : ExecutionEvent)
  | SchedulePersist
  | SyncObservers (executionID : string).

Definition put (executionID : string) (item : executionState) (s : Service) : Service :=
  mkService (<[executionID := item]> (executions s)) (order s).

(** Field updates. *)
Definition set_steps (statuses : gmap string string) (done : Z) (item : executionState)
    : executionState :=
  mkState (Status item) (StartedAt item) (UpdatedAt item) (Events item) (Nodes item)
    (workspaceID item) (total item) done statuses (terminalErr item) (hasBackend item) (released item).
Definition set_verdict (status : string) (err : option string) (item : executionState)
    : executionState :=
  mkState status (StartedAt item) (UpdatedAt item) (Events item) (Nodes item)
    (workspaceID item) (total item) (completed item) (stepStatus item) err
    (hasBackend item) (released item).
Definition add_event (now : Z) (e : ExecutionEvent) (item : executionState) : executionState :=
  mkState (Status item) (StartedAt item) now (Events item ++ [e]) (Nodes item)
    (workspaceID item) (total item) (completed item) (stepStatus item) (terminalErr item)
    (hasBackend item) (released item).
Definition set_released (item : executionState) : executionState :=
  mkState (Status item) (StartedAt item) (UpdatedAt item) (Events item) (Nodes item)
    (workspaceID item) (total item) (completed item) (stepStatus item) (terminalErr item)
    (hasBackend item) true.

(** ** Step statuses *)
Definition isKnownStepStatus (status : string) : bool :=
  bool_decide (TrimSpace status ∈ [stepStatusPending; stepStatusRunning; stepStatusHealthy;
                                   stepStatusFailed; stepStatusSkipped]).
Definition isTerminalStepStatus (status : string) : bool :=
  bool_decide (TrimSpace status ∈ [stepStatusHealthy; stepStatusFailed; stepStatusSkipped]).

(** The replay of one event. *)
Definition replay_event (statuses : gmap string string) (event : ExecutionEvent)
    : gmap string string :=
  let source := TrimSpace (Source event) in
  if bool_decide (source = "") then statuses
  else match statuses !! source with
  | None => statuses
  | Some _ => if isKnownStepStatus (EventStatus event)
              then <[source := EventStatus event]> statuses else statuses
  end.

Definition pending_steps (topology : list TopologyNode) : gmap string string :=
  foldl (fun m n => <[ID n := stepStatusPending]> m) ∅ topology.

Definition buildStepStatus (topology : list TopologyNode) (events : list ExecutionEvent)
    : gmap string string * Z :=
  let statuses := foldl replay_event (pending_steps topology) events in
  (statuses, tally isTerminalStepStatus statuses).

Definition ensureStepStatusLocked (item : executionState) : executionState :=
  if negb (bool_decide (stepStatus item = ∅)) then item
  else let '(statuses, done) := buildStepStatus (Nodes item) (Events item) in
       set_steps statuses done item.

(** [item.stepStatus[id]]: the empty string when the step is unknown. *)
Definition status_of (item : executionState) (id : string) : string :=
  default "" (stepStatus item !! id).

Fixpoint topologyNodeByID (suite : list TopologyNode) (nodeID : string) : option TopologyNode :=
  match suite with
  | [] => None
  | n :: rest => if bool_decide (ID n = nodeID) then Some n else topologyNodeByID rest nodeID
  end.

Definition containsStepReference (items : list string) (target : string) : bool :=
  existsb (fun item => bool_decide (item = target)) items.

(** ** Failure paths *)

(** One of the steps [OnFailure] names has failed. *)
Definition triggered (item : executionState) (n : TopologyNode) : bool :=
  existsb (fun id => bool_decide (status_of item id = stepStatusFailed)) (OnFailure n).

(** The loop that stops at the first [true]; [None] is lack of fuel. *)
Fixpoint first_true (f : string -> option bool) (ids : list string) : option bool :=
  match ids with
  | [] => Some false
  | id :: rest =>
      match f id with
      | None => None
      | Some true => Some true
      | Some false => first_true f rest
      end
  end.

(** [isFailurePathNodeLocked]: [visiting] holds the steps of the recursion in
    progress. *)
Fixpoint isFailurePathNodeLocked (fuel : nat) (item : executionState)
    (suite : list TopologyNode) (visiting : gset string) (nodeID : string) : option bool :=
  match fuel with
  | O => None
  | S fuel =>
      if bool_decide (nodeID ∈ visiting) then Some false
      else match topologyNodeByID suite nodeID with
      | None => Some false
      | Some node =>
          if triggered item node then Some true
          else first_true (isFailurePathNodeLocked fuel item suite ({[nodeID]} ∪ visiting))
                 (DependsOn node)
      end
  end.

(** A path visits every step at most once. *)
Definition on_failure_path (item : executionState) (suite : list TopologyNode) (nodeID : string)
    : bool :=
  default false (isFailurePathNodeLocked (length suite + 2) item suite ∅ nodeID).

(** The two queries store the statuses they had to rebuild. *)
Definition ensure (executionID : string) (s : Service) : Service :=
  match executions s !! executionID with
  | None => s
  | Some item => put executionID (ensureStepStatusLocked item) s
  end.
Definition nodeBelongsToFailurePath (s : Service) (executionID : string)
    (suite : list TopologyNode) (nodeID : string) : Service * bool :=
  (ensure executionID s,
   match executions s !! executionID with
   | None => false
   | Some item => on_failure_path (ensureStepStatusLocked item) suite nodeID
   end).

(** ** [shouldSkipNode] *)
Inductive SkipReason :=
  | NotTriggered
  | DependencySkipped (id : string)
  | DependencyFailed (id : string)
  | FatalFailure.

Fixpoint skip_dependencies (item : executionState) (suite : list TopologyNode)
    (onFailure deps : list string) : option SkipReason :=
  match deps with
  | [] => None
  | dependencyID :: rest =>
      if bool_decide (status_of item dependencyID = stepStatusSkipped) then
        Some (DependencySkipped dependencyID)
      else if bool_decide (status_of item dependencyID = stepStatusFailed) then
        if containsStepReference onFailure dependencyID then
          skip_dependencies item suite onFailure rest
        else match topologyNodeByID suite dependencyID with
        | Some dependency =>
            if ContinueOnFailure dependency then skip_dependencies item suite onFailure rest
            else Some (DependencyFailed dependencyID)
        | None => Some (DependencyFailed dependencyID)
        end
      else skip_dependencies item suite onFailure rest
  end.

Definition skip_reason (item : executionState) (suite : list TopologyNode) (node : TopologyNode)
    : option SkipReason :=
  if negb (bool_decide (OnFailure node = [])) && negb (triggered item node) then Some NotTriggered
  else match skip_dependencies item suite (OnFailure node) (DependsOn node) with
  | Some r => Some r
  | None =>
      if bool_decide (Status item = "Failed") && negb (on_failure_path item suite (ID node))
      then Some FatalFailure else None
  end.

Definition shouldSkipNode (s : Service) (executionID : string) (suite : list TopologyNode)
    (node : TopologyNode) : Service * option SkipReason :=
  (ensure executionID s,
   match executions s !! executionID with
   | None => None
   | Some item => skip_reason (ensureStepStatusLocked item) suite node
   end).

(** ** Timestamps *)

(** [%02d] of a number that is not negative. *)
Definition two_digits (n : Z) : string := (if n <? 10 then "0" else "") +:+ pretty n.
(** Whole seconds since the start, as minutes and seconds. *)
Definition clock (startedAt now : Z) : string :=
  let elapsed := Z.max 0 (now - startedAt) in
  let seconds := Z.quot elapsed second in
  two_digits (Z.quot seconds 60) +:+ ":" +:+ two_digits (Z.rem seconds 60).
Definition nextTimestamp (s : Service) (executionID : string) (now : Z) : string :=
  match executions s !! executionID with
  | None => "00:00"
  | Some item => clock (StartedAt item) now
  end.

Example clock_ex : clock 0 (125 * second + 7) = "02:05".
Proof. reflexivity. Qed.

(** ** Recording *)
Definition stream_event (executionID : string) (item : executionState) (event : ExecutionEvent)
    : StreamEvent :=
  mkStreamEvent (Z.of_nat (length (Events item))) executionID (Status item) event.

Definition appendEvent (now : Z) (executionID : string) (event : ExecutionEvent) (s : Service)
    : Service * list effect :=
  match executions s !! executionID with
  | None => (s, [])
  | Some item =>
      let item := ensureStepStatusLocked item in
      let source := TrimSpace (Source event) in
      let item :=
        if negb (bool_decide (source = "")) && isKnownStepStatus (EventStatus event) then
          match stepStatus item !! source with
          | Some _ => set_steps (<[source := EventStatus event]> (stepStatus item)) (completed item) item
          | None => item
          end
        else item in
      let item := add_event now event item in
      (put executionID item s,
       [Publish (stream_event executionID item event); AppendLog executionID event;
        SchedulePersist; SyncObservers executionID])
  end.

(** [markNodeTerminal]: the last component is [finished]. *)
Definition markNodeTerminal (now : Z) (executionID nodeID status message level : string)
    (hardFailure : bool) (s : Service) : Service * list effect * bool :=
  match executions s !! executionID with
  | None => (s, [], false)
  | Some item =>
      let item := ensureStepStatusLocked item in
      if isTerminalStepStatus (status_of item nodeID) then
        (put executionID item s, [], (total item <=? completed item) && (0 <? total item))
      else
        let item := set_steps (<[nodeID := status]> (stepStatus item)) (completed item + 1) item in
        let cancelRunning := hardFailure && negb (bool_decide (Status item = "Failed")) in
        let item :=
          if hardFailure then
            set_verdict "Failed"
              (match terminalErr item with
               | None => if blank message then None else Some message
               | Some e => Some e
               end) item
          else item in
        let finished := total item <=? completed item in
        let item :=
          if finished && negb (bool_decide (Status item = "Failed"))
          then set_verdict "Healthy" None item else item in
        let event := mkEvent (nodeID +:+ "-" +:+ status) nodeID (clock (StartedAt item) now)
                       message status level in
        let item := add_event now event item in
        (put executionID item s,
         (if cancelRunning then [CancelRunningGroup executionID] else []) ++
         [Publish (stream_event executionID item event); AppendLog executionID event;
          SchedulePersist; SyncObservers executionID],
         finished)
  end.

Definition markNodeHealthy now executionID nodeID message :=
  markNodeTerminal now executionID nodeID stepStatusHealthy message "info" false.
Definition markNodeSkipped now executionID nodeID message :=
  markNodeTerminal now executionID nodeID stepStatusSkipped message "warn" false.
Definition markNodeFailed now executionID nodeID message hardFailure :=
  markNodeTerminal now executionID nodeID stepStatusFailed message "error" hardFailure.

(** ** Queries *)
Definition executionHasFailed (s : Service) (executionID : string) : bool :=
  match executions s !! executionID with
  | Some item => bool_decide (Status item = "Failed")
  | None => false
  end.
Definition executionTerminalError (s : Service) (executionID : string) : option string :=
  match executions s !! executionID with
  | None => None
  | Some item =>
      match terminalErr item with
      | Some e => Some e
      | None => if bool_decide (Status item = "Failed") then Some "execution failed" else None
      end
  end.
Definition countHealthySteps (s : Service) (executionID : string) : Z :=
  match executions s !! executionID with
  | None => 0
  | Some item => tally (fun st => bool_decide (st = stepStatusHealthy)) (stepStatus item)
  end.

(** [ListExecutions] up to the summaries: newest first, one page of the
    executions of a workspace, and how many there are; [None] is the panic of
    a slice whose bounds are out of order. *)
Definition visible (s : Service) (workspace : string) : list string :=
  base.filter (fun id => match executions s !! id with
                         | Some item => bool_decide (workspace = "" \/ workspaceID item = workspace)
                         | None => false
                         end = true) (reverse (order s)).
Definition ListExecutions (s : Service) (workspace : string) (offset limit : Z)
    : option (list string * Z) :=
  let all := visible s workspace in
  let count := Z.of_nat (length all) in
  if count <=? offset then Some ([], count)
  else
    let stop := Z.min (offset + limit) count in
    if (offset <? 0) || (stop <? offset) then None
    else Some (take (Z.to_nat (stop - offset)) (drop (Z.to_nat offset) all), count).

(** ** Eviction *)
Definition maxStoredExecutions : nat := 200.
Definition ended (item : executionState) : bool :=
  bool_decide (Status item = "Healthy" \/ Status item = "Failed").

(** [evictOldExecutionsLocked], on the order; the loop removes its head. *)
Fixpoint evict (order : list string) (executions : gmap string executionState)
    : list string * gmap string executionState :=
  if (length order <=? maxStoredExecutions)%nat then (order, executions)
  else match order with
  | [] => ([], executions)
  | oldest :: rest =>
      match executions !! oldest with
      | Some item => if ended item then evict rest (delete oldest executions)
                     else (order, executions)
      | None => (order, executions)
      end
  end.
Definition evictOldExecutionsLocked (s : Service) : Service :=
  let '(order', executions') := evict (order s) (executions s) in mkService executions' order'.

Definition filterOut (items : list string) (target : string) : list string :=
  base.filter (fun item => item <> target) items.

(** ** Launching *)

(** The state [CreateExecution] stores. *)
Definition new_execution (now : Z) (suite : list TopologyNode) (workspace : string) : executionState :=
  mkState "Booting" now now [] suite workspace 0 0 ∅ None false false.
Definition store_execution (executionID : string) (item : executionState) (s : Service) : Service :=
  evictOldExecutionsLocked
    (mkService (<[executionID := item]> (executions s)) (order s ++ [executionID])).

(** What [bootExecution] records once the topology is resolved. *)
Definition boot_state (resolved : list TopologyNode) (item : executionState) : executionState :=
  mkState (Status item) (StartedAt item) (UpdatedAt item) (Events item) resolved
    (workspaceID item) (Z.of_nat (length resolved)) (completed item) (pending_steps resolved)
    (terminalErr item) true (released item).

(** The queue tasks of the steps; [run] and [onCanceled] are the closures of
    a step, [capacity] is [backendCapacity]. *)
Definition task_id (executionID nodeID : string) : string := executionID +:+ ":" +:+ nodeID.
Definition boot_task (executionID pool : string) (capacity : option handle)
    (run onCanceled : string -> handle) (resolved : list TopologyNode) (node : TopologyNode)
    : Queue.Task :=
  let known := base.filter (fun d => d ∈ (ID <$> resolved)) (DependsOn node) in
  let softDeps := base.filter (fun d => d ∈ OnFailure node) known in
  let dependencies := base.filter (fun d => d ∉ OnFailure node) known in
  Queue.mkTask (task_id executionID (ID node)) executionID (Name node)
    (task_id executionID <$> dependencies) (task_id executionID <$> softDeps)
    (8 * second) (Some (run (ID node))) (Some (onCanceled (ID node))) pool capacity.
Definition boot_tasks executionID pool capacity run onCanceled (resolved : list TopologyNode)
    : list Queue.Task :=
  boot_task executionID pool capacity run onCanceled resolved <$> resolved.

(** [failBootedExecution] up to the finish it ends with. *)
Definition failBootedExecution (now : Z) (executionID : string) (reason : option string) (s : Service)
    : Service * list effect :=
  let s := match executions s !! executionID with
           | Some item =>
               put executionID (mkState "Failed" (StartedAt item) now (Events item) (Nodes item)
                 (workspaceID item) (total item) (completed item) (stepStatus item)
                 (terminalErr item) (hasBackend item) (released item)) s
           | None => s
           end in
  match reason with
  | None => (s, [])
  | Some text =>
      appendEvent now executionID
        (mkEvent "boot-failed" "boot" (nextTimestamp s executionID now)
           ("Execution could not start: " +:+ text) stepStatusFailed "error") s
  end.

(** [destroyExecutionBackend]: whether the backend is told to release. *)
Definition destroyExecutionBackend (executionID : string) (s : Service) : Service * bool :=
  match executions s !! executionID with
  | Some item =>
      if released item then (s, false) else (put executionID (set_released item) s, hasBackend item)
  | None => (s, false)
  end.

(** ** [runNode] *)

(** How the mock reset and the backend end a step. *)
Inductive run_result :=
  | ResetFailed (text : string)
  | RunFailed (err : goerr) (text : string)
  | RunOk.

(** The report a step ends with: the arguments of [markNodeTerminal], whether
    the [continue_on_failure] event follows, and what the task returns. *)
Record report := mkReport {
  ReportStatus : string;
  ReportText : string;
  ReportHard : bool;
  ReportContinued : bool;
  ReportErr : option goerr;
}.

(** The double quotes of [%q] (ids need no escapes). *)
Definition quote : string := String (ascii_of_nat 34) "".
Definition skip_text (name : string) (reason : SkipReason) : string :=
  "[" +:+ name +:+ "] Skipped " +:+
  match reason with
  | NotTriggered => "because its on_failure conditions were not triggered."
  | DependencySkipped id => "because dependency " +:+ quote +:+ id +:+ quote +:+ " was skipped."
  | DependencyFailed id => "because dependency " +:+ quote +:+ id +:+ quote +:+ " failed."
  | FatalFailure => "after a fatal failure in another branch."
  end.
Definition skip_report (node : TopologyNode) (reason : SkipReason) : report :=
  mkReport stepStatusSkipped (skip_text (Name node) reason) false false None.
Definition canceled_report (node : TopologyNode) : report :=
  mkReport stepStatusSkipped
    ("[" +:+ Name node +:+ "] Skipped because a required dependency did not complete successfully.")
    false false None.

(** The branches after [backend.Run] and the mock reset. *)
Definition run_report (s : Service) (executionID : string) (suite : list TopologyNode)
    (node : TopologyNode) (healthy : string) (result : run_result) : report :=
  match result with
  | ResetFailed text =>
      mkReport stepStatusFailed ("[" +:+ Name node +:+ "] Mock reset failed: " +:+ text)
        (negb (ContinueOnFailure node)) (ContinueOnFailure node)
        (if ContinueOnFailure node then None else Some (ErrText text))
  | RunFailed err text =>
      if errors_Is err Canceled then
        if executionHasFailed s executionID &&
           negb (nodeBelongsToFailurePath s executionID suite (ID node)).2 then
          mkReport stepStatusSkipped
            ("[" +:+ Name node +:+ "] Canceled after a fatal failure in another node.") false false None
        else
          mkReport stepStatusFailed
            ("[" +:+ Name node +:+ "] Execution canceled before the node became healthy.")
            true false (Some Canceled)
      else
        mkReport stepStatusFailed ("[" +:+ Name node +:+ "] Runner failed: " +:+ text)
          (negb (ContinueOnFailure node)) (ContinueOnFailure node)
          (if ContinueOnFailure node then None else Some err)
  | RunOk => mkReport stepStatusHealthy healthy false false None
  end.

Definition report_level (r : report) : string :=
  if bool_decide (ReportStatus r = stepStatusHealthy) then "info"
  else if bool_decide (ReportStatus r = stepStatusSkipped) then "warn" else "error".
Definition apply_report (now : Z) (executionID nodeID : string) (r : report) (s : Service)
    : Service * list effect * bool :=
  markNodeTerminal now executionID nodeID (ReportStatus r) (ReportText r) (report_level r)
    (ReportHard r) s.

(** The event that announces a step, and the one after a tolerated failure. *)
Definition start_event (s : Service) (executionID : string) (node : TopologyNode) (now : Z)
    (text : string) : ExecutionEvent :=
  mkEvent (ID node +:+ "-start") (ID node) (nextTimestamp s executionID now) text
    stepStatusRunning "info".
Definition continued_event (s : Service) (executionID : string) (node : TopologyNode) (now : Z)
    : ExecutionEvent :=
  mkEvent (ID node +:+ "-continued") (ID node) (nextTimestamp s executionID now)
    ("[" +:+ Name node +:+ "] continue_on_failure is enabled; downstream nodes may continue.")
    stepStatusFailed "warn".

(** ** Failure paths are the steps that reach an activated [on_failure] step *)

(** One step of the walk along [DependsOn]. *)
Definition waits (suite : list TopologyNode) (a b : string) : Prop :=
  exists n, topologyNodeByID suite a = Some n /\ b ∈ DependsOn n.

Definition activated (item : executionState) (suite : list TopologyNode) (id : string) : Prop :=
  exists n, topologyNodeByID suite id = Some n /\ triggered item n = true.

Lemma topologyNodeByID_in suite id n :
  topologyNodeByID suite id = Some n -> n ∈ suite /\ ID n = id.
Proof.
  induction suite as [|x rest IH]; cbn [topologyNodeByID]; [done|]. case_bool_decide.
  - intros [= <-]. split; [left|done].
  - intros [? ?]%IH. split; [by right|done].
Qed.

Lemma topologyNodeByID_NoDup suite n :
  NoDup (ID <$> suite) -> n ∈ suite -> topologyNodeByID suite (ID n) = Some n.
Proof.
  induction suite as [|x rest IH]; [by intros _ ?%not_elem_of_nil|].
  rewrite fmap_cons, NoDup_cons. intros [Hx Hnd] [->|Hn]%elem_of_cons; cbn [topologyNodeByID].
  - by rewrite bool_decide_eq_true_2.
  - rewrite bool_decide_eq_false_2; [by apply IH|]. intros Heq. apply Hx. rewrite Heq.
    by apply list_elem_of_fmap_2.
Qed.

(** A walk that avoids a set of steps. *)
Inductive avoiding (suite : list TopologyNode) (V : gset string) : string -> string -> Prop :=
  | avoiding_here id n : id ∉ V -> topologyNodeByID suite id = Some n -> avoiding suite V id id
  | avoiding_step a b c n : a ∉ V -> topologyNodeByID suite a = Some n -> b ∈ DependsOn n ->
      avoiding suite V b c -> avoiding suite V a c.

Lemma avoiding_rtc suite V a b : avoiding suite V a b -> rtc (waits suite) a b.
Proof.
  induction 1 as [|a b c n _ Hn Hb _ IH]; [apply rtc_refl|]. eapply rtc_l; [|exact IH]. by exists n.
Qed.

(** The walk can leave a step for good: only its last visit matters. *)
Lemma avoiding_once suite V x m id n :
  avoiding suite V x m -> topologyNodeByID suite id = Some n ->
  avoiding suite ({[id]} ∪ V) x m \/
  (exists d, d ∈ DependsOn n /\ avoiding suite ({[id]} ∪ V) d m) \/ id = m.
Proof.
  intros H Hn. induction H as [m k Hm Hk|a b c k Ha Hk Hb H IH].
  - destruct (decide (id = m)) as [->|Hne]; [by right; right|]. left.
    econstructor; [|exact Hk]. set_solver.
  - destruct IH as [IH|[?|?]]; [|by right; left|by right; right].
    destruct (decide (a = id)) as [->|Hne].
    + right. left. exists b. rewrite Hn in Hk. injection Hk as ->. done.
    + left. econstructor; [set_solver|exact Hk|exact Hb|exact IH].
Qed.

Lemma rtc_avoiding suite a b n :
  rtc (waits suite) a b -> topologyNodeByID suite b = Some n -> avoiding suite ∅ a b.
Proof.
  intros H Hb. induction H as [x|x y z (k & Hk & Hy) _ IH].
  - econstructor; [apply not_elem_of_empty|exact Hb].
  - econstructor; [apply not_elem_of_empty|exact Hk|exact Hy|by apply IH].
Qed.

Lemma first_true_spec (f : string -> option bool) l :
  (forall x, x ∈ l -> is_Some (f x)) ->
  exists b, first_true f l = Some b /\ (b = true <-> exists x, x ∈ l /\ f x = Some true).
Proof.
  induction l as [|x l IH]; intros Hf; cbn [first_true].
  { exists false. split; [done|]. split; [done|]. by intros (x & ?%not_elem_of_nil & _). }
  destruct (Hf x) as [[] Hx]; [left|..]; rewrite Hx.
  - exists true. split; [done|]. split; [|done]. intros _. exists x. split; [left|done].
  - destruct IH as (b & -> & Hb); [intros y Hy; apply Hf; by right|]. exists b. split; [done|].
    rewrite Hb. split.
    + intros (y & Hy & ?). exists y. split; [by right|done].
    + intros (y & [->|Hy]%elem_of_cons & Ht); [congruence|eauto].
Qed.

Lemma size_list_to_set_le (l : list string) :
  (size (list_to_set l : gset string) <= length l)%nat.
Proof.
  induction l as [|x l IH]; [done|]. cbn [list_to_set length].
  rewrite size_union_alt, size_singleton.
  assert (size (list_to_set l ∖ {[x]} : gset string) <= size (list_to_set l : gset string))%nat; [|lia].
  apply subseteq_size. set_solver.
Qed.

Lemma isFailurePathNodeLocked_spec item suite fuel : forall V id,
  (size (list_to_set (ID <$> suite) ∖ V : gset string) < fuel)%nat ->
  exists b, isFailurePathNodeLocked fuel item suite V id = Some b /\
    (b = true <-> exists m, avoiding suite V id m /\ activated item suite m).
Proof.
  induction fuel as [|fuel IH]; intros V id Hfuel; [lia|]. cbn [isFailurePathNodeLocked].
  case_bool_decide as HV.
  { exists false. split; [done|]. split; [done|]. intros (m & Hm & _). by destruct Hm. }
  destruct (topologyNodeByID suite id) as [node|] eqn:Hnode.
  2: { exists false. split; [done|]. split; [done|].
       intros (m & Hm & _). inversion Hm; congruence. }
  destruct (triggered item node) eqn:Htr.
  { exists true. split; [done|]. split; [|done]. intros _. exists id.
    split; [by econstructor|]. by exists node. }
  assert (id ∈ (list_to_set (ID <$> suite) : gset string)) as Hid.
  { apply topologyNodeByID_in in Hnode as [Hin <-].
    by apply elem_of_list_to_set, list_elem_of_fmap_2. }
  assert (size (list_to_set (ID <$> suite) ∖ ({[id]} ∪ V) : gset string) < fuel)%nat as Hless.
  { assert (size (list_to_set (ID <$> suite) ∖ ({[id]} ∪ V) : gset string)
            < size (list_to_set (ID <$> suite) ∖ V : gset string))%nat; [|lia].
    apply subset_size. set_solver. }
  destruct (first_true_spec (isFailurePathNodeLocked fuel item suite ({[id]} ∪ V)) (DependsOn node))
    as (b & -> & Hb).
  { intros x _. destruct (IH _ x Hless) as (b & -> & _). by eexists. }
  exists b. split; [done|]. rewrite Hb. split.
  - intros (x & Hx & Htrue). destruct (IH _ x Hless) as (b' & Hb' & Hiff).
    rewrite Hb' in Htrue. injection Htrue as ->. destruct Hiff as [Hiff _].
    destruct (Hiff eq_refl) as (m & Hm & Hact). exists m. split; [|done].
    econstructor; [done|exact Hnode|exact Hx|].
    clear -Hm. induction Hm; [econstructor|econstructor]; try done; set_solver.
  - intros (m & Hm & Hact). destruct (avoiding_once _ _ _ _ _ _ Hm Hnode) as [H|[(d & Hd & H)|<-]].
    + exfalso. assert (id ∉ {[id]} ∪ V) as Hx by by inversion H. set_solver.
    + exists d. split; [done|]. destruct (IH _ d Hless) as (b' & Hb' & Hiff). rewrite Hb'. f_equal.
      apply Hiff. eauto.
    + destruct Hact as (n & Hn & Ht). congruence.
Qed.

Lemma unvisited_fuel suite :
  (size (list_to_set (ID <$> suite) ∖ ∅ : gset string) < length suite + 2)%nat.
Proof.
  pose proof (size_list_to_set_le (ID <$> suite)) as Hle. rewrite length_fmap in Hle.
  assert (size (list_to_set (ID <$> suite) ∖ ∅ : gset string)
          <= size (list_to_set (ID <$> suite) : gset string))%nat; [|lia].
  apply subseteq_size. set_solver.
Qed.

Lemma avoiding_iff item suite nodeID :
  (exists m, avoiding suite ∅ nodeID m /\ activated item suite m) <->
  (exists m, rtc (waits suite) nodeID m /\ activated item suite m).
Proof.
  split.
  - intros (m & Hm & Hact). exists m. split; [by eapply avoiding_rtc|done].
  - intros (m & Hm & Hact). exists m. split; [|done]. destruct Hact as (n & Hn & _).
    by eapply rtc_avoiding.
Qed.

(** The search for an activated failure path always ends, cycles
    included, and finds one exactly when some step reached along [DependsOn]
    from the given one names a failed step in its [on_failure]. *)
Theorem failure_path_reachable (item : executionState) (suite : list TopologyNode) (nodeID : string) :
  (exists b, isFailurePathNodeLocked (length suite + 2) item suite ∅ nodeID = Some b) /\
  (on_failure_path item suite nodeID = true <->
     exists m, rtc (waits suite) nodeID m /\ activated item suite m).
Proof.
  destruct (isFailurePathNodeLocked_spec item suite (length suite + 2) ∅ nodeID) as (b & Hb & Hiff).
  { apply unvisited_fuel. }
  split; [by exists b|]. unfold on_failure_path. rewrite Hb. cbn [default from_option id].
  rewrite Hiff. apply avoiding_iff.
Qed.

(** ** When a step runs *)

Lemma containsStepReference_spec items target :
  containsStepReference items target = true <-> target ∈ items.
Proof.
  unfold containsStepReference. rewrite existsb_exists. setoid_rewrite bool_decide_eq_true.
  setoid_rewrite <-list_elem_of_In. naive_solver.
Qed.

(** What a dependency must look like for its dependant to run. *)
Definition satisfied (item : executionState) (suite : list TopologyNode) (onFailure : list string)
    (d : string) : Prop :=
  status_of item d <> stepStatusSkipped /\
  (status_of item d = stepStatusFailed -> d ∈ onFailure \/
     exists dependency, topologyNodeByID suite d = Some dependency /\
       ContinueOnFailure dependency = true).

Lemma skip_dependencies_spec item suite onFailure deps :
  skip_dependencies item suite onFailure deps = None <->
  forall d, d ∈ deps -> satisfied item suite onFailure d.
Proof.
  induction deps as [|d rest IH]; cbn [skip_dependencies].
  { split; [|done]. by intros _ d ?%not_elem_of_nil. }
  assert ((forall x, x ∈ d :: rest -> satisfied item suite onFailure x) <->
    satisfied item suite onFailure d /\
    forall x, x ∈ rest -> satisfied item suite onFailure x) as ->.
  { setoid_rewrite elem_of_cons. split; [auto|]. by intros [? ?] x [->|?]; auto. }
  rewrite <-IH. unfold satisfied at 1.
  destruct (bool_decide_reflect (status_of item d = stepStatusSkipped)) as [Hs|Hs].
  { split; [done|]. by intros [[? _] _]. }
  destruct (bool_decide_reflect (status_of item d = stepStatusFailed)) as [Hf|Hf]; [|tauto].
  destruct (containsStepReference onFailure d) eqn:Hc.
  { apply containsStepReference_spec in Hc. tauto. }
  assert (d ∉ onFailure) as Hno by (rewrite <-containsStepReference_spec; congruence).
  destruct (topologyNodeByID suite d) as [n|] eqn:Hn.
  - destruct (ContinueOnFailure n) eqn:Hcf.
    + split; [|tauto]. intros ?. split; [|done]. split; [done|]. intros _. right. eauto.
    + split; [done|]. intros [[_ H] _]. destruct (H Hf) as [?|(n' & [= ->] & ?)]; [done|congruence].
  - split; [done|]. intros [[_ H] _]. by destruct (H Hf) as [?|(n' & [=] & _)].
Qed.

(** A step of a known execution is run, and not skipped, exactly when one
    of its [on_failure] steps has failed (if it names any), none of its
    dependencies was skipped, every failed dependency is one of its
    [on_failure] steps or continues on failure, and, once the execution has
    failed, it lies on an activated failure path. *)
Theorem shouldSkipNode_runs (s : Service) (executionID : string) (suite : list TopologyNode)
    (node : TopologyNode) (item : executionState) (H : executions s !! executionID = Some item) :
  let item := ensureStepStatusLocked item in
  (shouldSkipNode s executionID suite node).2 = None <->
    (OnFailure node = [] \/ exists id, id ∈ OnFailure node /\ status_of item id = stepStatusFailed) /\
    (forall d, d ∈ DependsOn node -> satisfied item suite (OnFailure node) d) /\
    (Status item = "Failed" -> exists m, rtc (waits suite) (ID node) m /\ activated item suite m).
Proof.
  unfold shouldSkipNode. rewrite H. cbn [snd]. cbn zeta. generalize (ensureStepStatusLocked item).
  clear H item. intros item. unfold skip_reason.
  assert (triggered item node = true <->
    exists id, id ∈ OnFailure node /\ status_of item id = stepStatusFailed) as Htr.
  { unfold triggered. rewrite existsb_exists. setoid_rewrite bool_decide_eq_true.
    by setoid_rewrite <-list_elem_of_In. }
  rewrite <-Htr, <-skip_dependencies_spec.
  assert (on_failure_path item suite (ID node) = true <->
    exists m, rtc (waits suite) (ID node) m /\ activated item suite m) as <-.
  { destruct (isFailurePathNodeLocked_spec item suite (length suite + 2) ∅ (ID node)) as (b & Hb & Hiff).
    { apply unvisited_fuel. }
    unfold on_failure_path. rewrite Hb. cbn [default from_option id]. rewrite Hiff. apply avoiding_iff. }
  destruct (bool_decide_reflect (OnFailure node = [])) as [H0|H0], (triggered item node);
    cbn [negb andb]; try (split; [done|]; intros [[?|?] _]; done).
  all: destruct (skip_dependencies _ _ _ _); [split; [done|]; by intros (_ & ? & _)|].
  all: destruct (bool_decide_reflect (Status item = "Failed")), (on_failure_path item suite (ID node));
    cbn [negb andb]; split; try done; try tauto; intros (_ & _ & Hx); by specialize (Hx ltac:(done)).
Qed.

(** A step whose [on_failure] condition is activated by a failed step is
    nevertheless skipped when another step it names was skipped. *)
Theorem on_failure_skipped (s : Service) (executionID : string) (suite : list TopologyNode)
    (node : TopologyNode) (item : executionState) (failed skipped : string)
    (Hitem : executions s !! executionID = Some item) (Hsteps : stepStatus item <> ∅)
    (Hfailed : failed ∈ OnFailure node) (Hf : status_of item failed = stepStatusFailed)
    (Hskipped : skipped ∈ OnFailure node) (Hdeps : skipped ∈ DependsOn node)
    (Hs : status_of item skipped = stepStatusSkipped) :
  triggered item node = true /\
  exists r, (shouldSkipNode s executionID suite node).2 = Some r /\ r <> NotTriggered.
Proof.
  assert (triggered item node = true) as Ht.
  { unfold triggered. apply existsb_exists. exists failed. split; [by apply list_elem_of_In|].
    by apply bool_decide_eq_true. }
  split; [done|]. unfold shouldSkipNode. rewrite Hitem. cbn [snd].
  unfold ensureStepStatusLocked. rewrite bool_decide_eq_false_2 by done. cbn [negb].
  unfold skip_reason. rewrite Ht, andb_false_r.
  destruct (skip_dependencies item suite (OnFailure node) (DependsOn node)) as [r|] eqn:Hk.
  - exists r. split; [done|]. revert Hk. generalize (DependsOn node). intros deps.
    induction deps as [|d rest IH]; cbn [skip_dependencies]; [done|].
    destruct (bool_decide _); [by intros [= <-]|]. destruct (bool_decide _); [|done].
    destruct (containsStepReference _ _); [done|].
    destruct (topologyNodeByID suite d) as [n|]; [destruct (ContinueOnFailure n); [done|]|];
      by intros [= <-].
  - exfalso. rewrite skip_dependencies_spec in Hk. by destruct (Hk skipped Hdeps).
Qed.

(** ** Eviction *)
Lemma evict_spec order executions :
  let '(order', executions') := evict order executions in
  exists dropped, order = dropped ++ order' /\
    (forall id, id ∈ dropped -> exists item, executions !! id = Some item /\ ended item = true) /\
    executions' = foldr delete executions dropped /\
    ((length order' <= maxStoredExecutions)%nat \/
     exists head rest, order' = head :: rest /\
       forall item, executions' !! head = Some item -> ended item = false).
Proof.
  revert executions. induction order as [|oldest rest IH]; intros executions; cbn [evict].
  { exists []. split; [done|]. split; [by intros ? ?%not_elem_of_nil|]. split; [done|].
    left. apply Nat.le_0_l. }
  destruct (Nat.leb_spec (length (oldest :: rest)) maxStoredExecutions) as [Hl|Hl].
  { exists []. split; [done|]. split; [by intros ? ?%not_elem_of_nil|]. split; [done|by left]. }
  destruct (executions !! oldest) as [item|] eqn:Hitem; [destruct (ended item) eqn:He|].
  2,3: exists []; split; [done|]; split; [by intros ? ?%not_elem_of_nil|]; split; [done|]; right;
    exists oldest, rest; split; [done|]; intros item'; congruence.
  specialize (IH (delete oldest executions)). destruct (evict rest (delete oldest executions)) as [o e].
  destruct IH as (dropped & -> & Hd & -> & Hend). exists (oldest :: dropped). split; [done|].
  assert (forall l (m : gmap string executionState), foldr delete (delete oldest m) l
    = delete oldest (foldr delete m l)) as Hcomm.
  { induction l as [|x l IHl]; intros m; [done|]. cbn [foldr]. rewrite IHl. apply delete_delete. }
  split; [|split; [by rewrite Hcomm|done]].
  intros id [->|Hid]%elem_of_cons; [eauto|]. destruct (Hd id Hid) as (it & Hit & ?).
  apply lookup_delete_Some in Hit as [_ ?]. eauto.
Qed.

(** Storing an execution keeps it, keeps every execution that has not
    ended, forgets only a prefix of the oldest ones, all of them ended, and
    leaves at most 200 unless the oldest one has not ended. *)
Theorem store_execution_spec (executionID : string) (item : executionState) (s : Service)
    (Hnew : executions s !! executionID = None) (Hactive : ended item = false) :
  let s' := store_execution executionID item s in
  executions s' !! executionID = Some item /\
  (forall id it, executions s !! id = Some it -> ended it = false -> executions s' !! id = Some it) /\
  (exists dropped, order s ++ [executionID] = dropped ++ order s' /\
     forall id, id ∈ dropped -> exists it, executions s !! id = Some it /\ ended it = true) /\
  ((length (order s') <= maxStoredExecutions)%nat \/
   exists head rest, order s' = head :: rest /\
     forall it, executions s' !! head = Some it -> ended it = false).
Proof.
  unfold store_execution, evictOldExecutionsLocked. cbn [order executions]. cbn zeta.
  pose proof (evict_spec (order s ++ [executionID]) (<[executionID := item]> (executions s))) as H.
  destruct (evict _ _) as [o e]. cbn [order executions].
  destruct H as (dropped & Ho & Hd & -> & Hend).
  assert (forall l (m : gmap string executionState) id, id ∉ l ->
    foldr delete m l !! id = m !! id) as Hkeep.
  { induction l as [|x l IH]; intros m id Hid; [done|]. apply not_elem_of_cons in Hid as [Hne Hid].
    cbn [foldr]. rewrite lookup_delete_ne by done. by apply IH. }
  assert (forall id it, <[executionID:=item]> (executions s) !! id = Some it -> ended it = false ->
    id ∉ dropped) as Hnot.
  { intros id it Hid He Hin. destruct (Hd id Hin) as (it' & Hit' & He'). congruence. }
  split; [|split; [|split; [|done]]].
  - rewrite Hkeep, lookup_insert_eq; [done|]. eapply Hnot; [apply lookup_insert_eq|done].
  - intros id it Hid He. assert (executionID <> id) by congruence.
    assert (<[executionID:=item]> (executions s) !! id = Some it) as Hid' by by rewrite lookup_insert_ne.
    rewrite Hkeep; [done|]. by apply (Hnot id it).
  - exists dropped. split; [done|]. intros id Hid. destruct (Hd id Hid) as (it & Hit & He).
    destruct (decide (executionID = id)) as [<-|Hne].
    + rewrite lookup_insert_eq in Hit. congruence.
    + rewrite lookup_insert_ne in Hit by done. eauto.
Qed.

Lemma evict_none order executions id :
  executions !! id = None -> (evict order executions).2 !! id = None.
Proof.
  revert executions. induction order as [|x rest IH]; intros m Hm; cbn [evict]; [done|].
  destruct (_ <=? _)%nat; [done|]. destruct (m !! x) as [item|] eqn:Hx; [|done].
  destruct (ended item); [|done]. apply IH. rewrite lookup_delete. by case_decide.
Qed.

(** An execution that has failed is evicted as if it had ended, although
    its remaining steps may still be running: their reports then find no
    execution, none of them is the one that finishes it, and its backend is
    never told to release its resources. *)
Theorem eviction_orphans_failed_execution (s : Service) (executionID : string) (rest : list string)
    (item : executionState) (Horder : order s = executionID :: rest)
    (Hfull : (maxStoredExecutions < length (order s))%nat)
    (Hitem : executions s !! executionID = Some item) (Hfailed : Status item = "Failed")
    (now : Z) (nodeID : string) (r : report) :
  let s' := evictOldExecutionsLocked s in
  apply_report now executionID nodeID r s' = (s', [], false) /\
  destroyExecutionBackend executionID s' = (s', false).
Proof.
  assert (executions (evictOldExecutionsLocked s) !! executionID = None) as Hnone.
  { unfold evictOldExecutionsLocked. rewrite Horder in *. cbn [evict].
    destruct (Nat.leb_spec (length (executionID :: rest)) maxStoredExecutions) as [?|_]; [lia|].
    rewrite Hitem. unfold ended. rewrite bool_decide_eq_true_2 by auto.
    pose proof (evict_none rest (delete executionID (executions s)) executionID) as H.
    destruct (evict _ _) as [o e]. cbn in *. apply H. apply lookup_delete_eq. }
  cbn zeta. unfold apply_report, markNodeTerminal, destroyExecutionBackend. rewrite Hnone. done.
Qed.

(** ** The tasks of an execution *)
Lemma task_id_inj executionID a b : task_id executionID a = task_id executionID b -> a = b.
Proof. unfold task_id. by intros H%(inj (String.app executionID))%(inj (String.app ":")). Qed.

Lemma boot_task_deps executionID pool capacity run onCanceled ordered n d :
  d ∈ Queue.Dependencies (boot_task executionID pool capacity run onCanceled ordered n) ++
      Queue.SoftDependencies (boot_task executionID pool capacity run onCanceled ordered n) ->
  exists x, x ∈ DependsOn n /\ d = task_id executionID x.
Proof.
  cbn [Queue.Dependencies Queue.SoftDependencies boot_task]. cbn zeta. intros Hd.
  rewrite elem_of_app in Hd.
  destruct Hd as [(x & -> & Hx)%list_elem_of_fmap|(x & -> & Hx)%list_elem_of_fmap];
    apply list_elem_of_filter in Hx as [_ Hx]; apply list_elem_of_filter in Hx as [_ Hx]; eauto.
Qed.

Lemma boot_tasks_suffix executionID pool capacity run onCanceled nodes ordered :
  resolved nodes ordered -> NoDup (ID <$> ordered) ->
  forall l2 l1, ordered = l1 ++ l2 ->
  topo_ordered (task_id executionID <$> (ID <$> l1))
    (boot_task executionID pool capacity run onCanceled ordered <$> l2) = true.
Proof.
  intros HR Hnd l2. induction l2 as [|n l2 IH]; intros l1 Heq; [done|].
  rewrite fmap_cons. apply topo_ordered_cons. split; [|split].
  - intros d Hd. apply boot_task_deps in Hd as (x & Hx & ->).
    destruct (resolved_deps _ _ HR _ _ _ Heq x Hx) as (m & Hm & <- & _).
    by do 2 apply list_elem_of_fmap_2.
  - cbn [Queue.ID boot_task]. intros Hin. apply list_elem_of_fmap in Hin as (x & Hx & Hin).
    apply task_id_inj in Hx as <-. rewrite Heq, fmap_app, fmap_cons in Hnd.
    apply NoDup_app in Hnd as (_ & Hdisj & _). apply (Hdisj (ID n) Hin). left.
  - specialize (IH (l1 ++ [n])). rewrite !fmap_app in IH. cbn [fmap list_fmap] in IH.
    cbn [Queue.ID boot_task]. apply IH. by rewrite <-app_assoc.
Qed.

Lemma boot_tasks_accepted executionID pool capacity run onCanceled all l :
  Queue.check_tasks Queue.NewMemory (boot_task executionID pool capacity run onCanceled all <$> l) = None.
Proof.
  induction l as [|n l IH]; [done|]. rewrite fmap_cons. cbn [Queue.check_tasks].
  assert (Queue.check_task Queue.NewMemory (boot_task executionID pool capacity run onCanceled all n)
    = None) as ->; [|exact IH].
  unfold Queue.check_task. cbn [Queue.ID Queue.Run boot_task].
  rewrite bool_decide_eq_false_2.
  - rewrite bool_decide_eq_true_2 by (eexists; reflexivity). reflexivity.
  - unfold task_id. by destruct executionID.
Qed.

(** What [bootExecution] promises of the task of a node: who runs it, where,
    for how long it is leased, and what it waits for.  A dependency is soft
    exactly when the node lists it in [on_failure]. *)
Record wired (executionID pool : string) (capacity : option handle)
    (run onCanceled : string -> handle) (node : TopologyNode) (task : Queue.Task) : Prop := {
  wired_id : Queue.ID task = task_id executionID (ID node);
  wired_group : Queue.Group task = executionID;
  wired_name : Queue.Name task = Name node;
  wired_pool : Queue.Pool task = pool /\ Queue.Capacity task = capacity;
  wired_lease : Queue.LeaseTTL task = 8 * second;
  wired_calls : Queue.Run task = Some (run (ID node)) /\
    Queue.OnCanceled task = Some (onCanceled (ID node));
  wired_hard : forall t, t ∈ Queue.Dependencies task <->
    exists d, d ∈ DependsOn node /\ d ∉ OnFailure node /\ t = task_id executionID d;
  wired_soft : forall t, t ∈ Queue.SoftDependencies task <->
    exists d, d ∈ DependsOn node /\ d ∈ OnFailure node /\ t = task_id executionID d;
}.

Lemma boot_task_wired executionID pool capacity run onCanceled ordered node :
  (forall d, d ∈ DependsOn node -> d ∈ (ID <$> ordered)) ->
  wired executionID pool capacity run onCanceled node
    (boot_task executionID pool capacity run onCanceled ordered node).
Proof.
  intros Hknown. split; try done; intros t; cbn [Queue.Dependencies Queue.SoftDependencies boot_task];
    rewrite list_elem_of_fmap; setoid_rewrite list_elem_of_filter; setoid_rewrite list_elem_of_filter;
    naive_solver.
Qed.

Lemma boot_tasks_wired executionID pool capacity run onCanceled nodes ordered :
  resolved nodes ordered ->
  Forall2 (wired executionID pool capacity run onCanceled) ordered
    (boot_tasks executionID pool capacity run onCanceled ordered).
Proof.
  intros HR. apply Forall2_fmap_r, Forall_Forall2_diag, Forall_forall. intros node Hnode.
  apply boot_task_wired. intros d Hd. apply list_elem_of_split in Hnode as (l1 & l2 & Heq).
  destruct (resolved_deps _ _ HR _ _ _ Heq d Hd) as (m & Hm & <- & _).
  apply list_elem_of_fmap_2. rewrite Heq. apply elem_of_app. by left.
Qed.

(** C10: The tasks of a resolved topology are its nodes in their order, each
    wired as the flow says: named after its node in the group of the
    execution, run by the step of the node, canceled by its skip report,
    waiting for the success of every dependency that is not in the
    [on_failure] of the node and only for the end of those that are.  The batch
    is in dependency order with distinct ids, what the verdict of the queue
    assumes of a batch, and an empty queue accepts it. *)
Theorem boot_tasks_ordered (executionID pool : string) (capacity : option handle)
    (run onCanceled : string -> handle) (nodes ordered : list TopologyNode)
    (H : resolveTopology nodes = Some (inr ordered)) :
  let tasks := boot_tasks executionID pool capacity run onCanceled ordered in
  Forall2 (wired executionID pool capacity run onCanceled) ordered tasks /\
  topo_ordered [] tasks = true /\ exists m, Queue.Enqueue tasks Queue.NewMemory = (m, None).
Proof.
  pose proof (resolve_resolved _ _ H) as HR.
  assert (NoDup (ID <$> ordered)) as Hnd.
  { rewrite (resolved_ids _ _ HR). apply (wf_ids _ (resolve_well_formed_inv _ _ H)). }
  cbn zeta. split; [by eapply boot_tasks_wired|split].
  - by apply (boot_tasks_suffix executionID pool capacity run onCanceled nodes ordered HR Hnd ordered []).
  - unfold Queue.Enqueue, boot_tasks. rewrite boot_tasks_accepted. eauto.
Qed.

(** ** Witnesses *)
Definition sample_item : executionState :=
  boot_state [step "a" [] 0; step "b" ["a"] 1] (new_execution 0 [] "w").
Definition sample_service : Service := mkService {["run-1" := sample_item]} ["run-1"].

Lemma shouldSkipNode_runs_witness :
  executions sample_service !! "run-1" = Some sample_item /\
  (shouldSkipNode sample_service "run-1" (Nodes sample_item) (step "b" ["a"] 1)).2 = None.
Proof.
  split; [reflexivity|].
  apply (shouldSkipNode_runs sample_service "run-1" (Nodes sample_item) (step "b" ["a"] 1)
    sample_item eq_refl).
  split; [by left|]. split; [|discriminate]. intros d Hd.
  apply elem_of_cons in Hd as [->|Hd]; [split; [discriminate|discriminate]|by apply not_elem_of_nil in Hd].
Defined.

Definition sample_cleanup : TopologyNode :=
  set_edges ["a"; "b"] [] ["a"; "b"] (step "cleanup" [] 2).
Definition sample_cascade : executionState :=
  set_steps {["a" := stepStatusFailed; "b" := stepStatusSkipped; "cleanup" := stepStatusPending]} 2
    sample_item.

Lemma on_failure_skipped_witness :
  exists r, (shouldSkipNode (put "run-1" sample_cascade sample_service) "run-1" [sample_cleanup]
               sample_cleanup).2 = Some r /\ r <> NotTriggered.
Proof.
  apply (on_failure_skipped (put "run-1" sample_cascade sample_service) "run-1" [sample_cleanup]
    sample_cleanup sample_cascade "a" "b" eq_refl ltac:(discriminate)
    ltac:(left) eq_refl ltac:(right; left) ltac:(right; left) eq_refl).
Defined.

Lemma store_execution_spec_witness :
  executions (store_execution "run-2" (new_execution 5 [] "") sample_service) !! "run-2"
  = Some (new_execution 5 [] "").
Proof.
  exact (proj1 (store_execution_spec "run-2" (new_execution 5 [] "") sample_service eq_refl eq_refl)).
Defined.

Definition sample_failed : executionState :=
  set_verdict "Failed" (Some "boom") sample_item.
Definition full_service : Service :=
  mkService {["run-1" := sample_failed]} ("run-1" :: replicate 200 "run-2").

Lemma eviction_orphans_failed_execution_witness :
  status_of sample_failed "b" = stepStatusPending /\
  (apply_report 9 "run-1" "b" (mkReport stepStatusHealthy "done" false false None)
    (evictOldExecutionsLocked full_service)).2 = false.
Proof.
  split; [reflexivity|].
  assert (maxStoredExecutions < length (order full_service))%nat as Hfull
    by (apply Nat.ltb_lt; vm_compute; reflexivity).
  rewrite (proj1 (eviction_orphans_failed_execution full_service "run-1" (replicate 200 "run-2")
    sample_failed eq_refl Hfull eq_refl eq_refl 9 "b" (mkReport stepStatusHealthy "done" false false None))).
  reflexivity.
Defined.

Lemma boot_tasks_ordered_witness :
  exists ordered, resolveTopology sample = Some (inr ordered) /\
    topo_ordered [] (boot_tasks "run-1" "local" None (fun _ => 0%nat) (fun _ => 0%nat) ordered) = true.
Proof.
  eexists. split; [vm_compute; reflexivity|].
  refine (proj1 (proj2 (boot_tasks_ordered "run-1" "local" None (fun _ => 0%nat) (fun _ => 0%nat) sample
    _ _))).
  vm_compute. reflexivity.
Defined.
End Flow.
