(* ===== verification/FlowRuns.v ===== *)
(** The steps of one execution, interleaved: every step of the topology goes
    through the phases of [runNode] (or is canceled by the queue before it
    starts), and every phase that touches the service is one atomic step.  The
    theorems are about every interleaving: the bookkeeping is exact, the
    execution is finished exactly once and with the right verdict, and its
    backend is released at most once. *)
From Stdlib Require Import ZArith Lia.
From S2P Require Import Prelude GoStrings Topology Flow.
Import GoStrings Topology Flow.

Module FlowRuns.

(** Where a step stands: in the queue, between the phases of [runNode], with
    its report computed but not applied, or over. *)
Inductive phase :=
  | Queued
  | Announcing
  | Executing
  | Reporting (r : report)
  | Continuing
  | Over.

(** [hard], [finishes] and [releases] record what has happened: a hard failure
    was reported, how often [markNodeTerminal] answered [finished], how often
    the backend was told to release. *)
Record system := mkSystem {
  svc : Service;
  phases : gmap string phase;
  hard : bool;
  finishes : nat;
  releases : nat;
}.

Definition over (p : phase) : bool :=
  match p with Continuing | Over => true | _ => false end.

Definition b2n (b : bool) : nat := if b then 1 else 0.

Section Execution.
  Context (executionID : string) (suite : list TopologyNode).

(** One atomic step of one of the goroutines of the execution. *)
Inductive flow_step (s : system) : system -> Prop :=
  | decide_skip node sv r :
      node ∈ suite -> phases s !! ID node = Some Queued ->
      shouldSkipNode (svc s) executionID suite node = (sv, Some r) ->
      flow_step s (mkSystem sv (<[ID node := Reporting (skip_report node r)]> (phases s))
                     (hard s) (finishes s) (releases s))
  | decide_run node sv :
      node ∈ suite -> phases s !! ID node = Some Queued ->
      shouldSkipNode (svc s) executionID suite node = (sv, None) ->
      flow_step s (mkSystem sv (<[ID node := Announcing]> (phases s))
                     (hard s) (finishes s) (releases s))
  | queue_cancel node :
      node ∈ suite -> phases s !! ID node = Some Queued ->
      flow_step s (mkSystem (svc s) (<[ID node := Reporting (canceled_report node)]> (phases s))
                     (hard s) (finishes s) (releases s))
  | announce node now text :
      node ∈ suite -> phases s !! ID node = Some Announcing ->
      flow_step s (mkSystem
        (appendEvent now executionID (start_event (svc s) executionID node now text) (svc s)).1
        (<[ID node := Executing]> (phases s)) (hard s) (finishes s) (releases s))
  | announce_reset node now e :
      node ∈ suite -> phases s !! ID node = Some Executing ->
      Source e = ID node -> EventStatus e = stepStatusRunning ->
      flow_step s (mkSystem (appendEvent now executionID e (svc s)).1
        (phases s) (hard s) (finishes s) (releases s))
  | executed node healthy result :
      node ∈ suite -> phases s !! ID node = Some Executing ->
      flow_step s (mkSystem (svc s)
        (<[ID node := Reporting (run_report (svc s) executionID suite node healthy result)]> (phases s))
        (hard s) (finishes s) (releases s))
  | reported node now r :
      node ∈ suite -> phases s !! ID node = Some (Reporting r) ->
      let res := apply_report now executionID (ID node) r (svc s) in
      flow_step s (mkSystem res.1.1
        (<[ID node := if ReportContinued r then Continuing else Over]> (phases s))
        (hard s || ReportHard r) (finishes s + b2n res.2) (releases s))
  | continued node now :
      node ∈ suite -> phases s !! ID node = Some Continuing ->
      flow_step s (mkSystem
        (appendEvent now executionID (continued_event (svc s) executionID node now) (svc s)).1
        (<[ID node := Over]> (phases s)) (hard s) (finishes s) (releases s))
  | noted now e :
      isKnownStepStatus (EventStatus e) = false ->
      flow_step s (mkSystem (appendEvent now executionID e (svc s)).1
        (phases s) (hard s) (finishes s) (releases s))
  | release :
      let res := destroyExecutionBackend executionID (svc s) in
      flow_step s (mkSystem res.1 (phases s) (hard s) (finishes s) (releases s + b2n res.2)).

(** The execution as [bootExecution] leaves it. *)
Definition booted (now : Z) (workspace : string) (s : Service) : system :=
  mkSystem (put executionID (boot_state suite (new_execution now [] workspace)) s)
    (foldl (fun m n => <[ID n := Queued]> m) ∅ suite) false 0 0.

Definition reachable (s : system) : Prop :=
  exists now workspace sv, rtc flow_step (booted now workspace sv) s.

(** ** The invariant *)
Hypothesis Hnodup : NoDup (ID <$> suite).
Hypothesis Htrim : forall n, n ∈ suite -> TrimSpace (ID n) = ID n /\ ID n <> "".
Hypothesis Hne : suite <> [].

(** Reports carry one of the three terminal statuses; only failures are
    tolerated. *)
Definition report_ok (r : report) : Prop :=
  isTerminalStepStatus (ReportStatus r) = true /\
  (ReportContinued r = true -> ReportStatus r = stepStatusFailed).

Definition phase_ok (item : executionState) (id : string) (p : phase) : Prop :=
  isTerminalStepStatus (status_of item id) = over p /\
  match p with
  | Reporting r => report_ok r
  | Continuing => status_of item id = stepStatusFailed
  | _ => True
  end.

(** The verdict the execution shows, given what has been reported. *)
Definition verdict_ok (item : executionState) (failed : bool) : Prop :=
  if failed then Status item = "Failed"
  else terminalErr item = None /\
       Status item = (if total item <=? completed item then "Healthy" else "Booting").

Record Inv (s : system) (item : executionState) : Prop := {
  inv_item : executions (svc s) !! executionID = Some item;
  inv_steps : dom (stepStatus item) = list_to_set (ID <$> suite);
  inv_phases : dom (phases s) = list_to_set (ID <$> suite);
  inv_total : total item = Z.of_nat (length suite);
  inv_completed : completed item = tally isTerminalStepStatus (stepStatus item);
  inv_phase : forall id p, phases s !! id = Some p -> phase_ok item id p;
  inv_verdict : verdict_ok item (hard s);
  inv_finishes : finishes s = b2n (total item <=? completed item);
  inv_releases : releases s = b2n (released item);
  inv_backend : hasBackend item = true;
}.

Lemma steps_nonempty item :
  dom (stepStatus item) = list_to_set (ID <$> suite) -> ensureStepStatusLocked item = item.
Proof.
  intros Hd. unfold ensureStepStatusLocked. rewrite bool_decide_eq_false_2; [done|].
  intros H0. rewrite H0, dom_empty_L in Hd. destruct suite as [|n l]; [done|].
  assert (ID n ∈ (∅ : gset string)) as Hin; [|set_solver].
  rewrite Hd. apply elem_of_list_to_set. left.
Qed.

Lemma steps_size item : dom (stepStatus item) = list_to_set (ID <$> suite) ->
  size (stepStatus item) = length suite.
Proof.
  intros Hd. rewrite <-(size_dom (D := gset string)), Hd, size_list_to_set by done.
  apply length_fmap.
Qed.

Lemma node_status item n : dom (stepStatus item) = list_to_set (ID <$> suite) -> n ∈ suite ->
  exists st, stepStatus item !! ID n = Some st.
Proof.
  intros Hd Hn. assert (ID n ∈ dom (stepStatus item)) as Hin; [|by apply elem_of_dom in Hin].
  rewrite Hd. apply elem_of_list_to_set. by apply list_elem_of_fmap_2.
Qed.

Lemma dom_update {A} (m : gmap string A) n (x : A) :
  dom m = list_to_set (ID <$> suite) -> n ∈ suite ->
  dom (<[ID n := x]> m) = list_to_set (ID <$> suite).
Proof.
  intros Hd Hn. rewrite dom_insert_L, Hd.
  assert (ID n ∈ (list_to_set (ID <$> suite) : gset string)) as Hin
    by (apply elem_of_list_to_set; by apply list_elem_of_fmap_2).
  set_solver.
Qed.

(** [appendEvent] of the execution, once its statuses are there. *)
Definition record_status (event : ExecutionEvent) (item : executionState) : executionState :=
  if negb (bool_decide (TrimSpace (Source event) = "")) && isKnownStepStatus (EventStatus event) then
    match stepStatus item !! TrimSpace (Source event) with
    | Some _ => set_steps (<[TrimSpace (Source event) := EventStatus event]> (stepStatus item))
                  (completed item) item
    | None => item
    end
  else item.

Lemma appendEvent_item now event s item :
  executions s !! executionID = Some item ->
  dom (stepStatus item) = list_to_set (ID <$> suite) ->
  executions (appendEvent now executionID event s).1 !! executionID
    = Some (add_event now event (record_status event item)).
Proof.
  intros Hi Hd. unfold appendEvent. rewrite Hi, steps_nonempty by done. cbn zeta. cbn [fst].
  apply lookup_insert_eq.
Qed.

(** Only the phase of a step changes. *)
Lemma Inv_phase s item node p p' sv :
  Inv s item -> node ∈ suite -> phases s !! ID node = Some p -> over p' = over p ->
  (phase_ok item (ID node) p -> phase_ok item (ID node) p') ->
  executions sv !! executionID = Some item ->
  Inv (mkSystem sv (<[ID node := p']> (phases s)) (hard s) (finishes s) (releases s)) item.
Proof.
  intros HI Hn Hp Hover Hok Hsv. destruct HI. split; cbn; try done; [by apply dom_update|].
  intros id q. rewrite lookup_insert. case_decide as Hid; [|by apply inv_phase0].
  intros [= <-]. subst. apply Hok, inv_phase0, Hp.
Qed.

Lemma status_of_insert item id x st done :
  status_of (set_steps (<[x := st]> (stepStatus item)) done item) id
  = if decide (x = id) then st else status_of item id.
Proof. unfold status_of. cbn. rewrite lookup_insert. by case_decide. Qed.

(** An event of a step whose status stays terminal, or stays not terminal. *)
Lemma Inv_event s item node p p' now e :
  Inv s item -> node ∈ suite -> phases s !! ID node = Some p -> over p' = over p ->
  Source e = ID node -> isKnownStepStatus (EventStatus e) = true ->
  isTerminalStepStatus (EventStatus e) = over p' ->
  (match p' with Reporting r => report_ok r | Continuing => EventStatus e = stepStatusFailed | _ => True end) ->
  exists item', Inv (mkSystem (appendEvent now executionID e (svc s)).1
    (<[ID node := p']> (phases s)) (hard s) (finishes s) (releases s)) item'.
Proof.
  intros HI Hn Hp Hover Hsrc Hknown Hterm Hok.
  exists (add_event now e (record_status e item)). destruct HI.
  destruct (node_status item node inv_steps0 Hn) as [st Hst].
  assert (record_status e item
    = set_steps (<[ID node := EventStatus e]> (stepStatus item)) (completed item) item) as Hrec.
  { unfold record_status. destruct (Htrim node Hn) as [Ht Hid]. rewrite Hsrc, Ht.
    rewrite bool_decide_eq_false_2 by done. by rewrite Hknown, Hst. }
  assert (isTerminalStepStatus st = over p') as Hst'.
  { rewrite Hover. rewrite <-(proj1 (inv_phase0 _ _ Hp)). unfold status_of. by rewrite Hst. }
  split; cbn [svc phases hard finishes releases]; try done.
  - by apply appendEvent_item.
  - rewrite Hrec. cbn. by apply dom_update.
  - by apply dom_update.
  - by rewrite Hrec.
  - rewrite Hrec. cbn. rewrite (tally_update _ _ _ _ _ Hst), Hst', Hterm, <-inv_completed0. lia.
  - intros id q. rewrite Hrec, lookup_insert. cbn.
    unfold phase_ok. change (status_of (add_event now e ?i) id) with (status_of i id).
    rewrite status_of_insert. case_decide as Hid; [by intros [= <-]|]. apply inv_phase0.
  - rewrite Hrec. exact inv_verdict0.
  - rewrite Hrec. exact inv_finishes0.
  - rewrite Hrec. exact inv_releases0.
  - by rewrite Hrec.
Qed.

(** An event without a step status changes no status. *)
Lemma Inv_note s item now e :
  Inv s item -> isKnownStepStatus (EventStatus e) = false ->
  exists item', Inv (mkSystem (appendEvent now executionID e (svc s)).1
    (phases s) (hard s) (finishes s) (releases s)) item'.
Proof.
  intros HI Hknown. exists (add_event now e (record_status e item)). destruct HI.
  assert (record_status e item = item) as Hrec.
  { unfold record_status. by rewrite Hknown, andb_false_r. }
  pose proof (appendEvent_item now e (svc s) item inv_item0 inv_steps0) as Hitem.
  rewrite Hrec in *. by split.
Qed.

Lemma run_report_ok sv node healthy result : report_ok (run_report sv executionID suite node healthy result).
Proof.
  unfold report_ok. destruct result as [text|err text|]; cbn [run_report]; [by split| |by split].
  destruct (errors_Is err Canceled); [destruct (_ && _)|]; by split.
Qed.

Lemma skip_report_ok node reason : report_ok (skip_report node reason).
Proof. by split. Qed.

(** What [markNodeTerminal] does to a step that has not ended. *)
Definition after_report (item : executionState) (id : string) (r : report) : executionState :=
  let item := set_steps (<[id := ReportStatus r]> (stepStatus item)) (completed item + 1) item in
  let item := if ReportHard r then
                set_verdict "Failed" (match terminalErr item with
                                      | None => if blank (ReportText r) then None else Some (ReportText r)
                                      | Some e => Some e
                                      end) item
              else item in
  if (total item <=? completed item) && negb (bool_decide (Status item = "Failed"))
  then set_verdict "Healthy" None item else item.

Lemma apply_report_spec now id r sv item :
  executions sv !! executionID = Some item ->
  dom (stepStatus item) = list_to_set (ID <$> suite) ->
  isTerminalStepStatus (status_of item id) = false ->
  let res := apply_report now executionID id r sv in
  res.2 = (total item <=? completed item + 1) /\
  exists e, executions res.1.1 !! executionID = Some (add_event now e (after_report item id r)).
Proof.
  intros Hi Hd Hst. unfold apply_report, markNodeTerminal.
  rewrite Hi, steps_nonempty, Hst by done. cbn zeta. split; [by destruct (ReportHard r)|].
  eexists. cbn [fst]. unfold put. cbn [executions]. rewrite lookup_insert_eq. reflexivity.
Qed.

Lemma after_report_verdict item id r failed :
  verdict_ok item failed -> (failed = false -> completed item < total item) ->
  verdict_ok (after_report item id r) (failed || ReportHard r).
Proof.
  intros Hv Hlt. unfold after_report, verdict_ok in *. cbn zeta.
  destruct (ReportHard r); cbn.
  - rewrite orb_true_r. by rewrite andb_false_r.
  - rewrite orb_false_r. destruct failed.
    + rewrite Hv. cbn. by rewrite andb_false_r.
    + destruct Hv as [He Hs]. specialize (Hlt eq_refl).
      assert (total item <=? completed item = false) as Hf by (apply Z.leb_gt; lia). rewrite Hf in Hs.
      rewrite Hs. rewrite bool_decide_eq_false_2 by done. cbn [negb]. rewrite andb_true_r.
      destruct (total item <=? completed item + 1) eqn:Hd; cbn; rewrite ?Hd; done.
Qed.

Lemma after_report_fields item id r :
  stepStatus (after_report item id r) = <[id := ReportStatus r]> (stepStatus item) /\
  completed (after_report item id r) = completed item + 1 /\
  total (after_report item id r) = total item /\
  released (after_report item id r) = released item /\
  hasBackend (after_report item id r) = hasBackend item.
Proof.
  unfold after_report. cbn zeta. destruct (ReportHard r); cbn; destruct (_ && _); done.
Qed.

Lemma Inv_report s item node now r :
  Inv s item -> node ∈ suite -> phases s !! ID node = Some (Reporting r) ->
  let res := apply_report now executionID (ID node) r (svc s) in
  exists item', Inv (mkSystem res.1.1
    (<[ID node := if ReportContinued r then Continuing else Over]> (phases s))
    (hard s || ReportHard r) (finishes s + b2n res.2) (releases s)) item'.
Proof.
  intros HI Hn Hp. pose proof (inv_phase _ _ HI _ _ Hp) as [Hst [Hrt Hrc]].
  destruct (apply_report_spec now (ID node) r (svc s) item (inv_item _ _ HI) (inv_steps _ _ HI) Hst)
    as (Hfin & e & Hitem).
  destruct (after_report_fields item (ID node) r) as (Hs & Hc & Ht & Hrel & Hb).
  destruct (node_status item node (inv_steps _ _ HI) Hn) as [st Hstat].
  assert (isTerminalStepStatus st = false) as Hst'.
  { unfold status_of in Hst. by rewrite Hstat in Hst. }
  pose proof (steps_size item (inv_steps _ _ HI)) as Hsize.
  pose proof (tally_size isTerminalStepStatus (stepStatus item)) as Hts.
  pose proof (tally_pos (fun x => negb (isTerminalStepStatus x)) _ _ _ Hstat) as Hpos.
  cbn beta in Hpos. rewrite Hst' in Hpos. specialize (Hpos eq_refl).
  assert (completed item < total item) as Hlt.
  { rewrite (inv_total _ _ HI), (inv_completed _ _ HI). lia. }
  cbn zeta. eexists. split; cbn [svc phases hard finishes releases].
  - exact Hitem.
  - cbn. rewrite Hs. apply dom_update; [apply (inv_steps _ _ HI)|done].
  - apply dom_update; [apply (inv_phases _ _ HI)|done].
  - cbn. rewrite Ht. apply (inv_total _ _ HI).
  - cbn. rewrite Hs, Hc, (tally_update _ _ _ _ _ Hstat), Hst', Hrt, (inv_completed _ _ HI).
    simpl. lia.
  - intros id q. rewrite lookup_insert. unfold phase_ok, status_of. cbn. rewrite Hs, lookup_insert.
    case_decide as Hid; [|apply (inv_phase _ _ HI)]. intros [= <-]. cbn.
    split; [rewrite Hrt; by destruct (ReportContinued r)|].
    destruct (ReportContinued r); [by apply Hrc|done].
  - apply (after_report_verdict item (ID node) r (hard s)); [apply (inv_verdict _ _ HI)|done].
  - cbn. rewrite Hc, Ht, Hfin, (inv_finishes _ _ HI).
    assert (total item <=? completed item = false) as -> by (apply Z.leb_gt; lia). done.
  - cbn. rewrite Hrel. apply (inv_releases _ _ HI).
  - cbn. rewrite Hb. apply (inv_backend _ _ HI).
Qed.

Lemma ensure_item s item : Inv s item -> executions (ensure executionID (svc s)) !! executionID = Some item.
Proof.
  intros HI. unfold ensure. rewrite (inv_item _ _ HI), steps_nonempty by apply (inv_steps _ _ HI).
  apply lookup_insert_eq.
Qed.

Lemma flow_Inv_step s s' item : Inv s item -> flow_step s s' -> exists item', Inv s' item'.
Proof.
  intros HI Hstep. destruct Hstep as
    [node sv r Hn Hp Hskip|node sv Hn Hp Hskip|node Hn Hp|node now text Hn Hp|node now e Hn Hp Hsrc Hrun
    |node healthy result Hn Hp|node now r Hn Hp|node now Hn Hp|now e Hk|].
  - exists item. injection Hskip as <- _.
    eapply Inv_phase; [done..| |by apply ensure_item]. intros [Ht _]. split; [done|]. apply skip_report_ok.
  - exists item. injection Hskip as <- _. eapply Inv_phase; [done..| |by apply ensure_item].
    intros [Ht _]. by split.
  - exists item. eapply Inv_phase; [done..| |apply (inv_item _ _ HI)].
    intros [Ht _]. by split; [|split].
  - eapply Inv_event; [exact HI|exact Hn|exact Hp|done..].
  - destruct (Inv_event s item node Executing Executing now e) as [item' HI']; try done.
    { by rewrite Hrun. }
    { by rewrite Hrun. }
    exists item'. rewrite insert_id in HI' by done. exact HI'.
  - exists item. eapply Inv_phase; [done..| |apply (inv_item _ _ HI)].
    intros [Ht _]. split; [done|]. apply run_report_ok.
  - by apply Inv_report with (item := item).
  - eapply Inv_event; [exact HI|exact Hn|exact Hp|done..].
  - by apply Inv_note with (item := item).
  - pose proof (inv_item _ _ HI) as Hi. try subst res. unfold destroyExecutionBackend. rewrite Hi.
    destruct (released item) eqn:Hr; cbn [fst snd b2n].
    + exists item. rewrite Nat.add_0_r. destruct HI. by split.
    + exists (set_released item). destruct HI. split; cbn; try done.
      * apply lookup_insert_eq.
      * rewrite inv_releases0, Hr, inv_backend0. done.
Qed.

(** ** The start *)
Lemma pending_steps_lookup l : NoDup (ID <$> l) -> forall id,
  pending_steps l !! id = if decide (id ∈ ID <$> l) then Some stepStatusPending else None.
Proof.
  intros _. unfold pending_steps.
  assert (forall (m : gmap string string) id,
    foldl (fun m n => <[ID n := stepStatusPending]> m) m l !! id
    = if decide (id ∈ ID <$> l) then Some stepStatusPending else m !! id) as H.
  { induction l as [|n l IH]; intros m id.
    - rewrite decide_False by apply not_elem_of_nil. done.
    - cbn [foldl]. rewrite IH, lookup_insert, fmap_cons.
      destruct (decide (id ∈ ID <$> l)) as [Hl|Hl].
      + by rewrite decide_True by by right.
      + destruct (decide (ID n = id)) as [<-|Hneq].
        * by rewrite decide_True by by left.
        * rewrite decide_False; [done|]. intros [?|?]%elem_of_cons; [congruence|done]. }
  intros id. rewrite H. by rewrite lookup_empty.
Qed.

Lemma queued_lookup l (m : gmap string phase) id :
  foldl (fun m n => <[ID n := Queued]> m) m l !! id
  = if decide (id ∈ ID <$> l) then Some Queued else m !! id.
Proof.
  revert m. induction l as [|n l IH]; intros m.
  - rewrite decide_False by apply not_elem_of_nil. done.
  - cbn [foldl]. rewrite IH, lookup_insert, fmap_cons.
    destruct (decide (id ∈ ID <$> l)) as [Hl|Hl].
    + by rewrite decide_True by by right.
    + destruct (decide (ID n = id)) as [<-|Hneq].
      * by rewrite decide_True by by left.
      * rewrite decide_False; [done|]. intros [?|?]%elem_of_cons; [congruence|done].
Qed.

Lemma dom_of_lookup {A} (m : gmap string A) (x : A) :
  (forall id, m !! id = if decide (id ∈ ID <$> suite) then Some x else None) ->
  dom m = list_to_set (ID <$> suite).
Proof.
  intros H. apply set_eq. intros id. rewrite elem_of_dom, H, elem_of_list_to_set.
  destruct (decide _) as [Hd|Hd].
  - split; [done|]. intros _. by eexists.
  - split; [intros [? H']; discriminate H'|done].
Qed.

Lemma Inv_booted now workspace sv :
  Inv (booted now workspace sv) (boot_state suite (new_execution now [] workspace)).
Proof.
  assert (forall id, pending_steps suite !! id
    = if decide (id ∈ ID <$> suite) then Some stepStatusPending else None) as Hpend
    by (intros id; by apply pending_steps_lookup).
  assert (isTerminalStepStatus stepStatusPending = false) as Hterm by reflexivity.
  assert (tally isTerminalStepStatus (pending_steps suite) = 0) as Htally.
  { apply tally_none. intros id st. rewrite Hpend. destruct (decide _); [|done]. by intros [= <-]. }
  assert (Z.of_nat (length suite) <=? 0 = false) as Hlen.
  { apply Z.leb_gt. destruct suite; [done|]. simpl. lia. }
  split; cbn; try done.
  - apply lookup_insert_eq.
  - by apply (dom_of_lookup _ stepStatusPending).
  - apply (dom_of_lookup _ Queued). intros id. rewrite queued_lookup. by rewrite lookup_empty.
  - intros id p. rewrite queued_lookup, lookup_empty. destruct (decide _) as [Hid|]; [|done].
    intros [= <-]. split; [|done]. unfold status_of. cbn. rewrite Hpend, decide_True by done. done.
  - unfold verdict_ok. cbn. rewrite Hlen. done.
  - by rewrite Hlen.
Qed.

Lemma Inv_reachable s : reachable s -> exists item, Inv s item.
Proof.
  intros (now & workspace & sv & H).
  assert (exists item, Inv (booted now workspace sv) item) as Hstart
    by (eexists; apply Inv_booted).
  induction H as [x|x y z Hstep _ IH]; [done|]. apply IH.
  destruct Hstart as [item HI]. by eapply flow_Inv_step.
Qed.

Lemma all_over s item : Inv s item ->
  (total item <=? completed item) = true <->
  forall n, n ∈ suite -> exists p, phases s !! ID n = Some p /\ over p = true.
Proof.
  intros HI. rewrite Z.leb_le, (inv_total _ _ HI), (inv_completed _ _ HI).
  pose proof (tally_all isTerminalStepStatus (stepStatus item)) as Hall.
  pose proof (tally_size isTerminalStepStatus (stepStatus item)) as Hts.
  pose proof (tally_nonneg (fun x => negb (isTerminalStepStatus x)) (stepStatus item)) as Hpos.
  rewrite (steps_size item (inv_steps _ _ HI)) in Hall, Hts.
  assert (Z.of_nat (length suite) <= tally isTerminalStepStatus (stepStatus item) <->
    tally isTerminalStepStatus (stepStatus item) = Z.of_nat (length suite)) as -> by lia.
  rewrite Hall. split.
  - intros H n Hn. destruct (node_status item n (inv_steps _ _ HI) Hn) as [st Hst].
    assert (ID n ∈ dom (phases s)) as Hd.
    { rewrite (inv_phases _ _ HI). apply elem_of_list_to_set. by apply list_elem_of_fmap_2. }
    apply elem_of_dom in Hd as [p Hp]. exists p. split; [done|].
    rewrite <-(proj1 (inv_phase _ _ HI _ _ Hp)). unfold status_of. rewrite Hst. by apply (H (ID n)).
  - intros H id st Hst. assert (id ∈ dom (stepStatus item)) as Hd by (apply elem_of_dom; eauto).
    rewrite (inv_steps _ _ HI) in Hd. apply elem_of_list_to_set in Hd.
    apply list_elem_of_fmap in Hd as (n & -> & Hn). destruct (H n Hn) as (p & Hp & Ho).
    rewrite <-Ho, <-(proj1 (inv_phase _ _ HI _ _ Hp)). unfold status_of. by rewrite Hst.
Qed.

(** C1: In every interleaving of the steps of an execution, [completed] is
    the number of steps with a terminal status, never more than [total]; the
    end of the execution is observed once at most, and exactly when every
    step has ended; and the backend is released once at most. *)
Theorem execution_finishes_once (s : system) (H : reachable s) :
  exists item, executions (svc s) !! executionID = Some item /\
    completed item = tally isTerminalStepStatus (stepStatus item) /\
    completed item <= total item /\
    (finishes s <= 1)%nat /\ (releases s <= 1)%nat /\
    (finishes s = 1%nat <->
       forall n, n ∈ suite -> exists p, phases s !! ID n = Some p /\ over p = true).
Proof.
  destruct (Inv_reachable s H) as [item HI]. exists item.
  split; [apply (inv_item _ _ HI)|]. split; [apply (inv_completed _ _ HI)|].
  pose proof (tally_size isTerminalStepStatus (stepStatus item)) as Hts.
  pose proof (tally_nonneg (fun x => negb (isTerminalStepStatus x)) (stepStatus item)) as Hpos.
  rewrite (steps_size item (inv_steps _ _ HI)) in Hts.
  split; [rewrite (inv_completed _ _ HI), (inv_total _ _ HI); lia|].
  rewrite (inv_finishes _ _ HI), (inv_releases _ _ HI), <-(all_over s item HI).
  destruct (total item <=? completed item), (released item); simpl; repeat split; try lia; done.
Qed.

(** C2: In every interleaving the execution shows [Failed] as soon as a hard
    failure was reported, and for good; without one it shows [Booting] until
    every step has ended and [Healthy] from then on, and it reports no
    terminal error. *)
Theorem execution_verdict (s : system) (H : reachable s) :
  exists item, executions (svc s) !! executionID = Some item /\
    (hard s = true -> Status item = "Failed" /\ executionTerminalError (svc s) executionID <> None) /\
    (hard s = false -> executionTerminalError (svc s) executionID = None /\
       (Status item = "Healthy" <->
          forall n, n ∈ suite -> exists p, phases s !! ID n = Some p /\ over p = true) /\
       (Status item = "Healthy" \/ Status item = "Booting")).
Proof.
  destruct (Inv_reachable s H) as [item HI]. exists item. pose proof (inv_item _ _ HI) as Hi.
  pose proof (inv_verdict _ _ HI) as Hv. split; [done|].
  unfold executionTerminalError. rewrite Hi. unfold verdict_ok in Hv. split; intros Hh; rewrite Hh in Hv.
  - rewrite Hv. split; [done|]. by destruct (terminalErr item).
  - destruct Hv as [He Hs]. rewrite He, Hs. rewrite <-(all_over s item HI).
    destruct (total item <=? completed item); split; try done; (split; [by split|]); auto.
Qed.
End Execution.

(** ** A run of one step *)
Definition one : list TopologyNode := [step "a" [] 0].
Lemma one_nodup : NoDup (ID <$> one).
Proof. repeat constructor. by intros ?%not_elem_of_nil. Qed.
Lemma one_trim n : n ∈ one -> TrimSpace (ID n) = ID n /\ ID n <> "".
Proof. intros [->|H]%elem_of_cons; [by split|by apply not_elem_of_nil in H]. Qed.

Definition one_booted : system := booted "run-1" one 0 "" (mkService ∅ []).
Definition one_report : report := mkReport stepStatusHealthy "ok" false false None.
Definition one_over : system :=
  let sv := ensure "run-1" (svc one_booted) in
  let sv := (appendEvent 1 "run-1" (start_event sv "run-1" (step "a" [] 0) 1 "go") sv).1 in
  let res := apply_report 2 "run-1" "a" one_report sv in
  mkSystem res.1.1 (<["a" := Over]> (<["a" := Reporting one_report]>
    (<["a" := Executing]> (<["a" := Announcing]> (phases one_booted))))) false (0 + b2n res.2) 0.

Lemma one_reachable : reachable "run-1" one one_over.
Proof.
  exists 0, "", (mkService ∅ []).
  eapply rtc_l; [apply (decide_run "run-1" one _ (step "a" [] 0)); [left|reflexivity|reflexivity]|].
  eapply rtc_l; [apply (announce "run-1" one _ (step "a" [] 0) 1 "go"); [left|reflexivity]|].
  eapply rtc_l; [apply (executed "run-1" one _ (step "a" [] 0) "ok" RunOk); [left|reflexivity]|].
  eapply rtc_l; [apply (reported "run-1" one _ (step "a" [] 0) 2 one_report); [left|reflexivity]|].
  apply rtc_refl.
Qed.

Lemma execution_finishes_once_witness :
  reachable "run-1" one one_over /\ finishes one_over = 1%nat.
Proof.
  split; [exact one_reachable|].
  destruct (execution_finishes_once "run-1" one one_nodup one_trim ltac:(discriminate) one_over one_reachable)
    as (item & _ & _ & _ & _ & _ & [_ H]).
  apply H. intros n Hn. apply elem_of_cons in Hn as [->|Hn]; [|by apply not_elem_of_nil in Hn].
  exists Over. split; reflexivity.
Defined.

Lemma execution_verdict_witness :
  exists item, executions (svc one_over) !! "run-1" = Some item /\ Status item = "Healthy".
Proof.
  destruct (execution_verdict "run-1" one one_nodup one_trim ltac:(discriminate) one_over one_reachable)
    as (item & Hitem & _ & H).
  exists item. split; [exact Hitem|]. apply (H eq_refl). intros n Hn.
  apply elem_of_cons in Hn as [->|Hn]; [|by apply not_elem_of_nil in Hn].
  exists Over. split; reflexivity.
Defined.
End FlowRuns.
