(* ===== verification/Hub.v ===== *)
(** Live streams, [src/backend/internal/eventstream/hub.go] and
    [src/backend/internal/logstream/hub.go]: an append-only list of payloads
    per key, and subscribers that first get the records they missed and then
    the new ones through a bounded channel.

    The code publishes a record after it released the lock, without blocking:
    a record that does not fit is dropped.  So the state has, beside the
    guarded fields, the channels and the sends that are still to be made.  The
    channel of a subscriber also keeps what its reader has received and what
    was dropped; the code does not store these two, the theorems are about
    them. *)
From Stdlib Require Import ZArith Lia.
From S2P Require Import Prelude.

Module Hub.

Section Hub.
Context {T : Type}.

(** ** Data *)

(** [Record]: the position in the stream, from 1, and the payload. *)
Record record := mkRecord { RecordID : Z; Payload : T }.

Record stream := mkStream { items : list T; subs : gset nat }.

Record channel := mkChannel {
  topic : string;
  base : nat;
  capacity : Z;
  buffer : list record;
  received : list record;
  dropped : list record;
}.

(** [sending] holds, for every record that is being published, the
    subscribers it has not been offered to yet. *)
Record hub := mkHub {
  streams : gmap string stream;
  channels : gmap nat channel;
  sending : list (nat * record);
}.

Definition NewHub : hub := mkHub ∅ ∅ [].

Definition set_streams (f : gmap string stream -> gmap string stream) (h : hub) : hub :=
  mkHub (f (streams h)) (channels h) (sending h).

(** ** Operations *)
Definition stream_of (key : string) (h : hub) : stream :=
  default (mkStream [] ∅) (streams h !! key).
Definition ensureStream (key : string) (h : hub) : hub :=
  match streams h !! key with
  | Some _ => h
  | None => set_streams (<[key := mkStream [] ∅]>) h
  end.
Definition Open (key : string) (h : hub) : hub := ensureStream key h.

(** [Append] up to the release of the lock: the record, and the sends that
    follow. *)
Definition Append (key : string) (payload : T) (h : hub) : hub * record :=
  let h := ensureStream key h in
  let s := stream_of key h in
  let list := items s ++ [payload] in
  let r := mkRecord (Z.of_nat (length list)) payload in
  (mkHub (<[key := mkStream list (subs s)]> (streams h)) (channels h)
     (sending h ++ ((fun sub => (sub, r)) <$> elements (subs s))), r).

(** The records from an index on; [first] is the index of the head. *)
Fixpoint number (first : nat) (l : list T) : list record :=
  match l with
  | [] => []
  | x :: rest => mkRecord (Z.of_nat first + 1) x :: number (S first) rest
  end.

(** The records [Subscribe] puts in the channel: those after [since]. *)
Definition replay (since : Z) (l : list T) : list record :=
  base.filter (fun r => ~ RecordID r <= since) (number 0 l).

Definition buffer_size (since : Z) (l : list T) : Z :=
  Z.max 32 (Z.of_nat (length l) - since + 16).

(** [Subscribe] for the subscriber [id]; [None] is [ErrNotFound]. *)
Definition Subscribe (key : string) (since : Z) (id : nat) (h : hub) : option hub :=
  match streams h !! key with
  | None => None
  | Some s =>
      let since := Z.max 0 since in
      let c := mkChannel key (Nat.min (Z.to_nat since) (length (items s)))
                 (buffer_size since (items s)) (replay since (items s)) [] [] in
      Some (mkHub (<[key := mkStream (items s) ({[id]} ∪ subs s)]> (streams h))
              (<[id := c]> (channels h)) (sending h))
  end.

(** The goroutine that waits for the end of the subscription. *)
Definition unsubscribe (key : string) (id : nat) (h : hub) : hub :=
  match streams h !! key with
  | None => h
  | Some s => set_streams (<[key := mkStream (items s) (subs s ∖ {[id]})]>) h
  end.

Definition Len (key : string) (h : hub) : Z :=
  match streams h !! key with Some s => Z.of_nat (length (items s)) | None => 0 end.

(** [select { case ch <- record: default: }]. *)
Definition offer (r : record) (c : channel) : channel :=
  if Z.of_nat (length (buffer c)) <? capacity c then
    mkChannel (topic c) (base c) (capacity c) (buffer c ++ [r]) (received c) (dropped c)
  else mkChannel (topic c) (base c) (capacity c) (buffer c) (received c) (dropped c ++ [r]).

Definition receive (c : channel) : channel :=
  match buffer c with
  | [] => c
  | r :: rest => mkChannel (topic c) (base c) (capacity c) rest (received c ++ [r]) (dropped c)
  end.

(** ** Interleavings *)
Inductive hub_step (h : hub) : hub -> Prop :=
  | step_open key : hub_step h (Open key h)
  | step_append key payload : hub_step h (Append key payload h).1
  | step_subscribe key since id h' :
      channels h !! id = None -> Subscribe key since id h = Some h' -> hub_step h h'
  | step_unsubscribe id c :
      channels h !! id = Some c -> hub_step h (unsubscribe (topic c) id h)
  | step_send pre id r post c :
      sending h = pre ++ (id, r) :: post -> channels h !! id = Some c ->
      hub_step h (mkHub (streams h) (<[id := offer r c]> (channels h)) (pre ++ post))
  | step_receive id c :
      channels h !! id = Some c ->
      hub_step h (mkHub (streams h) (<[id := receive c]> (channels h)) (sending h)).

Definition reachable (h : hub) : Prop := rtc hub_step NewHub h.

(** The sends to a subscriber that are still to be made. *)
Definition pending (id : nat) (l : list (nat * record)) : list record :=
  snd <$> base.filter (fun p => p.1 = id) l.

(** Where the records of a channel are. *)
Definition accounted (h : hub) (id : nat) (c : channel) : list record :=
  received c ++ buffer c ++ pending id (sending h) ++ dropped c.

(** ** Numbering *)
Lemma number_app first l1 l2 :
  number first (l1 ++ l2) = number first l1 ++ number (first + length l1) l2.
Proof.
  revert first. induction l1 as [|x l1 IH]; intros first; cbn [app number length].
  - by rewrite Nat.add_0_r.
  - rewrite IH. by replace (S first + length l1)%nat with (first + S (length l1))%nat by lia.
Qed.

Lemma length_number first l : length (number first l) = length l.
Proof. revert first. induction l as [|x l IH]; intros first; [done|]. simpl. by rewrite IH. Qed.

Lemma number_id first l r :
  r ∈ number first l -> Z.of_nat first < RecordID r <= Z.of_nat (first + length l).
Proof.
  revert first. induction l as [|x l IH]; intros first; [by intros ?%not_elem_of_nil|].
  cbn [number length]. intros [->|Hr]%elem_of_cons; [simpl; lia|]. specialize (IH _ Hr). lia.
Qed.

Lemma replay_drop since l : 0 <= since -> replay since l = drop (Z.to_nat since) (number 0 l).
Proof.
  intros Hs. unfold replay.
  assert (forall first l, Z.of_nat first <= since ->
    base.filter (fun r => ~ RecordID r <= since) (number first l)
    = drop (Z.to_nat since - first) (number first l)) as H.
  { intros first l'. revert first. induction l' as [|x l' IH]; intros first Hf; [cbn [number]; by rewrite drop_nil|].
    cbn [number]. rewrite filter_cons. destruct (decide _) as [Hd|Hd]; cbn [RecordID] in Hd.
    - replace (Z.to_nat since - first)%nat with 0%nat by lia. cbn [drop]. f_equal.
      clear IH. assert (forall l first, since < Z.of_nat first + 1 ->
        base.filter (fun r => ~ RecordID r <= since) (number first l) = number first l) as Hall.
      { intros l1. induction l1 as [|y l0 IH0]; intros k Hk; [done|]. cbn [number].
        rewrite filter_cons_True by (simpl; lia). f_equal. apply IH0. lia. }
      apply Hall. lia.
    - rewrite IH by lia. replace (Z.to_nat since - first)%nat with (S (Z.to_nat since - S first)) by lia.
      done. }
  rewrite H by lia. by rewrite Nat.sub_0_r.
Qed.

(** ** The invariant *)
Definition records (key : string) (h : hub) : list record := number 0 (items (stream_of key h)).

Record Inv (h : hub) : Prop := {
  inv_subs : forall key s id, streams h !! key = Some s -> id ∈ subs s ->
    exists c, channels h !! id = Some c /\ topic c = key;
  inv_pending : forall id, channels h !! id = None -> pending id (sending h) = [];
  inv_channel : forall id c, channels h !! id = Some c ->
    is_Some (streams h !! topic c) /\
    Z.of_nat (length (buffer c)) <= capacity c /\
    exists n, (base c <= n <= length (records (topic c) h))%nat /\
      (id ∈ subs (stream_of (topic c) h) -> n = length (records (topic c) h)) /\
      accounted h id c ≡ₚ take (n - base c) (drop (base c) (records (topic c) h));
}.

Lemma pending_app id l1 l2 : pending id (l1 ++ l2) = pending id l1 ++ pending id l2.
Proof. unfold pending. by rewrite filter_app, fmap_app. Qed.

Lemma pending_fanout id r (ids : gset nat) :
  pending id ((fun sub => (sub, r)) <$> elements ids) = if decide (id ∈ ids) then [r] else [].
Proof.
  assert (forall l, NoDup l -> pending id ((fun sub => (sub, r)) <$> l)
    = if decide (id ∈ l) then [r] else []) as H.
  { intros l Hl. unfold pending. induction Hl as [|x l Hx Hl IH].
    - by rewrite decide_False by apply not_elem_of_nil.
    - rewrite fmap_cons, filter_cons. cbn [fst].
      destruct (decide (x = id)) as [->|Hne].
      + rewrite fmap_cons, IH. rewrite (decide_False (P := id ∈ l)) by done.
        by rewrite (decide_True (P := id ∈ id :: l)) by by left.
      + rewrite IH. destruct (decide (id ∈ l)) as [Hin|Hin].
        * by rewrite decide_True by by right.
        * rewrite decide_False; [done|]. intros [?|?]%elem_of_cons; congruence. }
  rewrite H by apply NoDup_elements. apply decide_ext. by rewrite elem_of_elements.
Qed.

Lemma stream_of_insert key key' s h ch se :
  stream_of key' (mkHub (<[key := s]> (streams h)) ch se)
  = if decide (key = key') then s else stream_of key' h.
Proof. unfold stream_of. cbn. rewrite lookup_insert. by case_decide. Qed.

Lemma hub_Inv_ensure key h : Inv h -> Inv (ensureStream key h).
Proof.
  intros HI. unfold ensureStream. destruct (streams h !! key) as [s|] eqn:Hs; [done|].
  assert (forall key', stream_of key' (set_streams <[key:=mkStream [] ∅]> h) = stream_of key' h) as Hof.
  { intros key'. unfold stream_of, set_streams. cbn. rewrite lookup_insert.
    case_decide; [subst; by rewrite Hs|done]. }
  destruct HI as [H1 H2 H3]. split; cbn [streams channels sending set_streams].
  - intros key' s' id. rewrite lookup_insert. case_decide; [intros [= <-]; cbn; set_solver|apply H1].
  - done.
  - intros id c Hc. destruct (H3 id c Hc) as (Hst & Hcap & n & Hn & Hl & Hp).
    split; [rewrite lookup_insert; case_decide; [by eexists|done]|]. split; [done|].
    exists n. unfold records in *. rewrite Hof. done.
Qed.

Lemma stream_of_ensure key h : streams (ensureStream key h) !! key = Some (stream_of key h).
Proof.
  unfold ensureStream, stream_of. destruct (streams h !! key) as [s|] eqn:Hs; [by rewrite Hs|].
  unfold set_streams. cbn. by rewrite lookup_insert_eq.
Qed.

Lemma hub_Inv_append key payload h : Inv h -> Inv (Append key payload h).1.
Proof.
  intros HI. apply (hub_Inv_ensure key) in HI. unfold Append.
  assert (is_Some (streams (ensureStream key h) !! key)) as Hsome by (rewrite stream_of_ensure; eauto).
  generalize dependent (ensureStream key h). clear h. intros h HI [s Hs]. cbn [fst]. cbn zeta.
  assert (stream_of key h = s) as Hof by (unfold stream_of; by rewrite Hs). rewrite Hof.
  set (r := mkRecord _ payload). destruct HI as [H1 H2 H3].
  assert (number 0 (items s ++ [payload]) = number 0 (items s) ++ [r]) as Hnum.
  { rewrite number_app. cbn [number]. f_equal. f_equal. subst r. f_equal.
    rewrite length_app. simpl. lia. }
  split; cbn [streams channels sending set_streams].
  - intros key' s' id. rewrite lookup_insert. case_decide as Hk; [|apply H1].
    intros [= <-]. cbn. subst. by apply H1.
  - intros id Hid. rewrite pending_app, pending_fanout, H2 by done.
    rewrite decide_False; [done|]. intros Hin. destruct (H1 _ _ _ Hs Hin) as (c & Hc & _). congruence.
  - intros id c Hc. destruct (H3 id c Hc) as (Hst & Hcap & n & Hn & Hl & Hp).
    split; [rewrite lookup_insert; case_decide; [by eexists|done]|]. split; [done|].
    unfold records, accounted in *. cbn [sending]. rewrite stream_of_insert, pending_app, pending_fanout.
    destruct (decide (key = topic c)) as [Hk|Hk].
    + rewrite <-Hk in Hn, Hl, Hp. cbn [items subs]. rewrite Hof in *. rewrite Hnum. rewrite length_app. cbn [length].
      destruct (decide (id ∈ subs s)) as [Hin|Hin].
      * specialize (Hl Hin). subst n. exists (length (number 0 (items s)) + 1)%nat.
        split; [lia|]. split; [done|].
        rewrite drop_app_le by lia. rewrite take_ge in Hp by (rewrite length_drop; lia).
        rewrite take_ge by (rewrite length_app, length_drop; simpl; lia).
        rewrite <-Hp. solve_Permutation.
      * exists n. split; [lia|]. split; [done|]. rewrite app_nil_r.
        rewrite drop_app_le by lia. by rewrite take_app_le by (rewrite length_drop; lia).
    + exists n. split; [done|]. split; [done|]. rewrite decide_False; [by rewrite app_nil_r|].
      intros Hin. destruct (H1 _ _ _ Hs Hin) as (c' & Hc' & Ht). congruence.
Qed.

Lemma records_insert key s key' h ch se : streams h !! key = Some s ->
  forall ids, records key' (mkHub (<[key := mkStream (items s) ids]> (streams h)) ch se) = records key' h.
Proof.
  intros Hs ids. unfold records. rewrite stream_of_insert. case_decide as Hk; [|done].
  subst. cbn. unfold stream_of. by rewrite Hs.
Qed.

Lemma hub_Inv_subscribe key since id h h' :
  Inv h -> channels h !! id = None -> Subscribe key since id h = Some h' -> Inv h'.
Proof.
  intros [H1 H2 H3] Hid Hsub. unfold Subscribe in Hsub.
  destruct (streams h !! key) as [s|] eqn:Hs; [|done]. injection Hsub as <-.
  assert (stream_of key h = s) as Hof by (unfold stream_of; by rewrite Hs).
  split; cbn [streams channels sending].
  - intros key' s' id'. rewrite !lookup_insert. case_decide as Hk.
    + intros [= <-]. cbn [subs]. intros [->%elem_of_singleton|Hin]%elem_of_union.
      * rewrite decide_True by done. eexists. split; [done|]. done.
      * subst. destruct (H1 _ _ _ Hs Hin) as (c & Hc & Ht). exists c.
        rewrite decide_False by congruence. done.
    + intros Hs' Hin. destruct (H1 _ _ _ Hs' Hin) as (c & Hc & Ht). exists c.
      rewrite decide_False by congruence. done.
  - intros id'. rewrite lookup_insert. case_decide; [done|]. apply H2.
  - intros id' c. rewrite lookup_insert. case_decide as Hk.
    + intros [= <-]. subst id'. cbn [topic base capacity buffer].
      split; [rewrite lookup_insert_eq; by eexists|].
      rewrite replay_drop by lia. split.
      { unfold buffer_size. rewrite length_drop, length_number. lia. }
      rewrite (records_insert _ _ _ _ _ _ Hs). unfold records. rewrite Hof.
      exists (length (items s)). rewrite length_number. split; [lia|]. split; [done|].
      unfold accounted. cbn [received buffer dropped sending app]. rewrite H2 by done. cbn [app].
      rewrite app_nil_r. rewrite take_ge by (rewrite length_drop, length_number; lia).
      destruct (Nat.le_gt_cases (Z.to_nat (Z.max 0 since)) (length (items s))) as [Hle|Hgt].
      * by rewrite Nat.min_l.
      * rewrite Nat.min_r by lia. by rewrite !drop_ge by (rewrite length_number; lia).
    + intros Hc. destruct (H3 id' c Hc) as (Hst & Hcap & n & Hn & Hl & Hp).
      split; [rewrite lookup_insert; case_decide; [by eexists|done]|]. split; [done|].
      exists n. rewrite (records_insert _ _ _ _ _ _ Hs). split; [done|]. split; [|done].
      rewrite stream_of_insert. case_decide as Ht; [|done]. cbn [subs].
      intros [->%elem_of_singleton|Hin]%elem_of_union; [congruence|]. apply Hl. rewrite <-Ht, Hof. done.
Qed.

Lemma hub_Inv_unsubscribe id c h : Inv h -> channels h !! id = Some c -> Inv (unsubscribe (topic c) id h).
Proof.
  intros [H1 H2 H3] Hc. unfold unsubscribe. destruct (streams h !! topic c) as [s|] eqn:Hs; [|done].
  assert (stream_of (topic c) h = s) as Hof by (unfold stream_of; by rewrite Hs).
  split; cbn [streams channels sending set_streams].
  - intros key' s' id'. rewrite lookup_insert. case_decide as Hk; [|apply H1].
    intros [= <-]. cbn [subs]. intros [Hin _]%elem_of_difference. rewrite <-Hk. by eapply H1.
  - done.
  - intros id' c' Hc'. destruct (H3 id' c' Hc') as (Hst & Hcap & n & Hn & Hl & Hp).
    split; [rewrite lookup_insert; case_decide; [by eexists|done]|]. split; [done|].
    exists n. unfold set_streams. rewrite (records_insert _ _ _ _ _ _ Hs). split; [done|]. split; [|done].
    rewrite stream_of_insert. case_decide as Ht; [|done]. cbn [subs].
    intros [Hin _]%elem_of_difference. apply Hl. by rewrite <-Ht, Hof.
Qed.

Lemma hub_Inv_channel_step h id c c' se :
  Inv h -> channels h !! id = Some c -> topic c' = topic c -> base c' = base c ->
  capacity c' = capacity c -> (Z.of_nat (length (buffer c')) <= capacity c') ->
  (forall id', id' <> id -> pending id' se = pending id' (sending h)) ->
  received c' ++ buffer c' ++ pending id se ++ dropped c' ≡ₚ accounted h id c ->
  Inv (mkHub (streams h) (<[id := c']> (channels h)) se).
Proof.
  intros [H1 H2 H3] Hc Ht Hb Hcp Hlen Hpend Hperm. split; cbn [streams channels sending].
  - intros key s id' Hs Hin. destruct (H1 _ _ _ Hs Hin) as (x & Hx & Htx).
    destruct (decide (id = id')) as [<-|Hne].
    + exists c'. rewrite lookup_insert_eq. split; [done|]. congruence.
    + exists x. by rewrite lookup_insert_ne.
  - intros id'. rewrite lookup_insert. case_decide as Hk; [done|]. intros Hn.
    rewrite Hpend by done. by apply H2.
  - intros id' x. rewrite lookup_insert. case_decide as Hk.
    + intros [= <-]. subst id'. destruct (H3 id c Hc) as (Hst & Hcap & n & Hn & Hl & Hp).
      rewrite Ht, Hb. split; [done|]. split; [done|]. exists n. split; [done|]. split; [done|].
      unfold accounted at 1. cbn [sending]. by rewrite Hperm.
    + intros Hx. destruct (H3 id' x Hx) as (Hst & Hcap & n & Hn & Hl & Hp).
      split; [done|]. split; [done|]. exists n. split; [done|]. split; [done|].
      unfold accounted in *. cbn [sending]. by rewrite Hpend.
Qed.

Lemma hub_Inv_step h h' : Inv h -> hub_step h h' -> Inv h'.
Proof.
  intros HI Hstep. destruct Hstep as
    [key|key payload|key since id h' Hid Hsub|id c Hc|pre id r post c Hs Hc|id c Hc].
  - by apply hub_Inv_ensure.
  - by apply hub_Inv_append.
  - by eapply hub_Inv_subscribe.
  - by apply hub_Inv_unsubscribe.
  - apply hub_Inv_channel_step with (c := c); try done.
    1-3: unfold offer; by destruct (_ <? _).
    + destruct (inv_channel _ HI id c Hc) as (_ & Hcap & _). unfold offer.
      destruct (Z.ltb_spec (Z.of_nat (length (buffer c))) (capacity c)); cbn [buffer capacity]; [|done].
      rewrite length_app. simpl. lia.
    + intros id' Hne. rewrite Hs, !pending_app. f_equal. unfold pending.
      by rewrite filter_cons_False by (cbn; congruence).
    + unfold accounted. rewrite Hs, !pending_app.
      assert (pending id ((id, r) :: post) = r :: pending id post) as ->.
      { unfold pending. by rewrite filter_cons_True. }
      unfold offer. destruct (_ <? _); cbn [received buffer dropped]; solve_Permutation.
  - apply hub_Inv_channel_step with (c := c); try done.
    1-3: unfold receive; by destruct (buffer c).
    + destruct (inv_channel _ HI id c Hc) as (_ & Hcap & _). unfold receive.
      destruct (buffer c) eqn:Hb; [by rewrite Hb|]. cbn [buffer capacity]. simpl in Hcap. lia.
    + unfold accounted, receive. destruct (buffer c) eqn:Hb; [by rewrite Hb|].
      cbn [received buffer dropped]. rewrite <-app_assoc. done.
Qed.

Lemma hub_Inv_reachable h : reachable h -> Inv h.
Proof.
  intros H. assert (Inv NewHub) as H0 by (split; intros; try done; by rewrite lookup_empty in *).
  induction H as [|x y z Hstep _ IH]; [done|]. apply IH. by eapply hub_Inv_step.
Qed.

(** What a subscriber can be given: nothing, the head of its channel, a record
    in its channel while there is room, or, with its channel full, nothing of a
    record that is then lost. *)
Inductive channel_moves (c : channel) : channel -> Prop :=
  | moves_not : channel_moves c c
  | moves_received r rest : buffer c = r :: rest ->
      channel_moves c (mkChannel (topic c) (base c) (capacity c) rest (received c ++ [r]) (dropped c))
  | moves_queued r : Z.of_nat (length (buffer c)) < capacity c ->
      channel_moves c (mkChannel (topic c) (base c) (capacity c) (buffer c ++ [r]) (received c) (dropped c))
  | moves_lost r : Z.of_nat (length (buffer c)) = capacity c ->
      channel_moves c (mkChannel (topic c) (base c) (capacity c) (buffer c) (received c) (dropped c ++ [r])).

Lemma offer_moves r c : Z.of_nat (length (buffer c)) <= capacity c -> channel_moves c (offer r c).
Proof.
  intros Hcap. unfold offer. destruct (Z.ltb_spec (Z.of_nat (length (buffer c))) (capacity c)).
  - by apply moves_queued.
  - apply moves_lost. lia.
Qed.

Lemma receive_moves c : channel_moves c (receive c).
Proof. unfold receive. destruct (buffer c) as [|r rest] eqn:Hb; [apply moves_not|by apply moves_received]. Qed.

Lemma hub_step_channel h h' id c : Inv h -> hub_step h h' -> channels h !! id = Some c ->
  exists c', channels h' !! id = Some c' /\ channel_moves c c'.
Proof.
  intros HI Hstep Hc. destruct (inv_channel _ HI id c Hc) as (_ & Hcap & _).
  assert (exists c', channels h !! id = Some c' /\ channel_moves c c') as Hsame
    by (exists c; split; [done|apply moves_not]).
  destruct Hstep as
    [key|key payload|key since i h' Hid Hsub|i x Hx|pre i r post x Hs Hx|i x Hx].
  - unfold Open, ensureStream. by destruct (streams h !! key).
  - unfold Append, ensureStream. by destruct (streams h !! key).
  - unfold Subscribe in Hsub. destruct (streams h !! key) as [s|]; [|done]. injection Hsub as <-.
    cbn [channels]. rewrite lookup_insert_ne by congruence. done.
  - unfold unsubscribe. by destruct (streams h !! topic x).
  - cbn [channels]. rewrite lookup_insert. case_decide as Hi; [|done]. subst i. rewrite Hc in Hx.
    injection Hx as <-. eexists. split; [done|]. by apply offer_moves.
  - cbn [channels]. rewrite lookup_insert. case_decide as Hi; [|done]. subst i. rewrite Hc in Hx.
    injection Hx as <-. eexists. split; [done|]. apply receive_moves.
Qed.

(** C22: In every interleaving of appends, publications, subscriptions and
    reads, a subscriber accounts for every record appended since it subscribed
    (after the position it asked for) exactly once: received, waiting in its
    channel, about to be offered, or dropped.  Whatever step comes next leaves
    the subscriber's records alone, gives it the head of its channel, puts one
    behind those in its channel while there is room, or drops one when, and only
    when, its channel is full. *)
Theorem hub_delivers_once (h : hub) (id : nat) (c : channel) (H : reachable h)
    (Hc : channels h !! id = Some c) :
  (exists n, (base c <= n <= length (items (stream_of (topic c) h)))%nat /\
    (id ∈ subs (stream_of (topic c) h) -> n = length (items (stream_of (topic c) h))) /\
    received c ++ buffer c ++ pending id (sending h) ++ dropped c
      ≡ₚ take (n - base c) (drop (base c) (number 0 (items (stream_of (topic c) h)))) /\
    Z.of_nat (length (buffer c)) <= capacity c) /\
  (forall h', hub_step h h' -> exists c', channels h' !! id = Some c' /\ channel_moves c c').
Proof.
  pose proof (hub_Inv_reachable h H) as HI. split; [|by intros h' Hstep; eapply hub_step_channel].
  destruct (inv_channel _ HI id c Hc) as (_ & Hcap & n & Hn & Hl & Hp).
  unfold records in *. rewrite length_number in *. by exists n.
Qed.

(** A subscription finds the records after [since] in its channel, in
    order, and room for at least sixteen more: the sends it makes while it
    holds the lock never block. *)
Theorem subscribe_replays (key : string) (since : Z) (id : nat) (h h' : hub)
    (H : Subscribe key since id h = Some h') :
  exists s c, streams h !! key = Some s /\ channels h' !! id = Some c /\
    buffer c = drop (Z.to_nat since) (number 0 (items s)) /\
    Z.of_nat (length (buffer c)) + 16 <= capacity c /\
    id ∈ subs (stream_of key h').
Proof.
  unfold Subscribe in H. destruct (streams h !! key) as [s|] eqn:Hs; [|done]. injection H as <-.
  exists s. eexists. split; [done|]. split; [cbn; apply lookup_insert_eq|]. cbn [buffer capacity].
  rewrite replay_drop by lia. replace (Z.to_nat (Z.max 0 since)) with (Z.to_nat since) by lia.
  split; [done|]. split.
  - unfold buffer_size. rewrite length_drop, length_number. lia.
  - rewrite stream_of_insert, decide_True by done. set_solver.
Qed.
End Hub.
Arguments record T : clear implicits.
Arguments stream T : clear implicits.
Arguments channel T : clear implicits.
Arguments hub T : clear implicits.

Example replay_ex :
  replay 1 ["a"; "b"; "c"] = [mkRecord 2 "b"; mkRecord 3 "c"].
Proof. reflexivity. Qed.

(** ** The log hub *)

(** [logstream.Line] and its hub: the same code with the payload fixed. *)
Record Line := mkLine {
  LineSource : string; LineTimestamp : string; LineLevel : string; LineKind : string; LineText : string }.
Definition LogHub : Type := hub Line.
Definition LogOpen (executionID : string) (h : LogHub) : LogHub := Open executionID h.
Definition LogAppend (executionID : string) (line : Line) (h : LogHub) : LogHub :=
  (Append executionID line h).1.
Definition LogSubscribe (executionID : string) (since : Z) (id : nat) (h : LogHub) : option LogHub :=
  Subscribe executionID since id h.
Definition LogSnapshot (executionID : string) (h : LogHub) : option (list Line) :=
  items <$> streams h !! executionID.

(** ** Witnesses *)
Definition hub1 : hub string := (Append "k" "a" NewHub).1.
Definition hub2 : hub string := default NewHub (Subscribe "k" 0 7 hub1).
Definition hub3 : hub string := (Append "k" "b" hub2).1.
Definition hub4 : hub string := (Append "k" "c" hub3).1.
Definition chan_of (h : hub string) : channel string :=
  default (mkChannel "" 0 0 [] [] []) (channels h !! 7%nat).

(** The send of the record at an index of [sending], and a read. *)
Definition send_at (i : nat) (h : hub string) : hub string :=
  match sending h !! i with
  | Some (id, r) =>
      mkHub (streams h) (<[id := offer r (chan_of h)]> (channels h)) (take i (sending h) ++ drop (S i) (sending h))
  | None => h
  end.

Lemma hub4_reachable : reachable hub4.
Proof.
  eapply rtc_l; [apply (step_append _ "k" "a")|].
  eapply rtc_l; [apply (step_subscribe hub1 "k" 0 7 hub2); reflexivity|].
  eapply rtc_l; [apply (step_append _ "k" "b")|].
  eapply rtc_l; [apply (step_append _ "k" "c")|]. apply rtc_refl.
Qed.

Lemma hub_delivers_once_witness :
  reachable hub4 /\ received (chan_of hub4) ++ buffer (chan_of hub4) ++ pending 7 (sending hub4) ++
    dropped (chan_of hub4) ≡ₚ [mkRecord 1 "a"; mkRecord 2 "b"; mkRecord 3 "c"].
Proof.
  split; [exact hub4_reachable|].
  destruct (hub_delivers_once hub4 7 (chan_of hub4) hub4_reachable eq_refl) as [(n & _ & Hn & Hp & _) _].
  assert (n = 3%nat) as -> by (apply Hn; vm_compute; reflexivity). exact Hp.
Defined.

Lemma subscribe_replays_witness :
  exists c, channels hub2 !! 7%nat = Some c /\ buffer c = [mkRecord 1 "a"].
Proof.
  destruct (subscribe_replays "k" 0 7 hub1 hub2 eq_refl) as (s & c & Hs & Hc & Hb & _).
  exists c. split; [exact Hc|]. rewrite Hb. injection Hs as <-. reflexivity.
Defined.

(** Two concurrent appends can reach a subscriber in the opposite order of
    their record ids: the records are published after the lock is released. *)
Theorem appends_can_be_reordered :
  exists h c, reachable (T := string) h /\ channels h !! 7%nat = Some c /\
    buffer c = [mkRecord 1 "a"; mkRecord 3 "c"; mkRecord 2 "b"].
Proof.
  exists (send_at 0 (send_at 1 hub4)). eexists. split; [|split; reflexivity].
  eapply rtc_r; [eapply rtc_r; [exact hub4_reachable|]|].
  - apply (step_send hub4 [(7%nat, mkRecord 2 "b")] 7 (mkRecord 3 "c") [] (chan_of hub4)); reflexivity.
  - apply (step_send (send_at 1 hub4) [] 7 (mkRecord 2 "b") [] (chan_of (send_at 1 hub4))); reflexivity.
Qed.
End Hub.
