(* ===== verification/Agents.v ===== *)
(** Remote agents, [src/backend/internal/agent]: the coordinator that hands
    step assignments to agents under leases (coordinator.go,
    runtime_cache.go), the broker that waits for them (broker_dispatcher.go)
    and the registry of agents (registry.go).

    The coordinator's methods hold its lock, so each is one atomic function of
    the assignments.  A Go map that is ranged over is visited in an arbitrary
    order, an argument where it matters.  The [done] channel of an assignment
    is the number of times it was closed: closing it twice would panic. *)
From Stdlib Require Import ZArith Lia Ascii.
From S2P Require Import Prelude GoStrings.
Import GoStrings.

Module Agents.

(** ** Data *)
Inductive AssignmentStatus :=
  | AssignmentPending | AssignmentRunning | AssignmentSucceeded | AssignmentFailed
  | AssignmentCanceled.
#[export] Instance AssignmentStatus_eq_dec : EqDecision AssignmentStatus.
Proof. solve_decision. Defined.

(** [StepRequest]; [RequestBody] stands for what the agent runs. *)
Record StepRequest := mkRequest {
  JobID : string;
  ExecutionID : string;
  NodeID : string;
  BackendID : string;
  LeaseTTL : Z;
  Devices : list string;
  RequestBody : handle;
}.

Record assignmentEntry := mkEntry {
  request : StepRequest;
  status : AssignmentStatus;
  claimedBy : string;
  cancelRequested : bool;
  leaseDeadline : Z;
  err : option goerr;
  closes : nat;
  completed : bool;
}.

(** [Coordinator.assignments]. *)
Notation Coordinator := (gmap string assignmentEntry).
Definition NewCoordinator : Coordinator := ∅.

Record AssignmentSnapshot := mkSnapshot {
  SnapshotRequest : StepRequest;
  SnapshotStatus : AssignmentStatus;
  SnapshotClaimedBy : string;
  SnapshotCancelRequested : bool;
  SnapshotLeaseDeadline : Z;
}.

Record LeaseResponse := mkLease { LeaseStatus : AssignmentStatus; LeaseCancelRequested : bool }.

Definition ErrAssignmentNotFound : goerr := ErrText "assignment not found".
Definition ErrAssignmentClaimed : goerr := ErrText "assignment already claimed".
Definition ErrAssignmentClosed : goerr := ErrText "assignment already completed".
Definition ErrLeaseExpired : goerr :=
  ErrWrap "the agent stopped renewing the step's lease" DeadlineExceeded.

(** ** The coordinator *)
Definition normalize_request (uuid : string) (r : StepRequest) : StepRequest :=
  mkRequest
    (FirstNonEmpty [TrimSpace (JobID r); ExecutionID r +:+ ":" +:+ NodeID r; uuid])
    (ExecutionID r) (NodeID r) (BackendID r)
    (if LeaseTTL r <=? 0 then 8 * second else LeaseTTL r) (Devices r) (RequestBody r).

(** A new assignment; the text of a duplicate's error quotes the job, which is
    left out of the model. *)
Definition new_entry (r : StepRequest) : assignmentEntry :=
  mkEntry r AssignmentPending "" false 0 None 0 false.

Definition Submit (uuid : string) (r : StepRequest) (c : Coordinator)
    : Coordinator * (goerr + StepRequest) :=
  let r := normalize_request uuid r in
  match c !! JobID r with
  | Some _ => (c, inl (ErrText "job already exists"))
  | None => (<[JobID r := new_entry r]> c, inr r)
  end.

Definition Cleanup (jobID : string) (c : Coordinator) : Coordinator := delete jobID c.

(** The assignment an agent may take. *)
Definition claimable (agentID : string) (e : assignmentEntry) : bool :=
  bool_decide (status e = AssignmentPending) &&
  bool_decide (TrimSpace (BackendID (request e)) = TrimSpace agentID).

Definition start (now : Z) (agentID : string) (e : assignmentEntry) : assignmentEntry :=
  mkEntry (request e) AssignmentRunning agentID (cancelRequested e)
    (now + LeaseTTL (request e)) (err e) (closes e) (completed e).

(** [Claim], visiting the assignments in the order [keys]. *)
Fixpoint Claim (now : Z) (agentID : string) (keys : list string) (c : Coordinator)
    : Coordinator * option StepRequest :=
  match keys with
  | [] => (c, None)
  | key :: rest =>
      match c !! key with
      | Some e =>
          if claimable agentID e then (<[key := start now agentID e]> c, Some (request e))
          else Claim now agentID rest c
      | None => Claim now agentID rest c
      end
  end.

Definition extend (now : Z) (e : assignmentEntry) : assignmentEntry :=
  mkEntry (request e) (status e) (claimedBy e) (cancelRequested e)
    (now + LeaseTTL (request e)) (err e) (closes e) (completed e).
Definition Extend (now : Z) (jobID agentID : string) (c : Coordinator)
    : Coordinator * (goerr + LeaseResponse) :=
  match c !! jobID with
  | None => (c, inl ErrAssignmentNotFound)
  | Some e =>
      if negb (bool_decide (status e = AssignmentRunning)) then
        (c, inr (mkLease (status e) (cancelRequested e)))
      else if negb (bool_decide (claimedBy e = agentID)) then (c, inl ErrAssignmentClaimed)
      else (<[jobID := extend now e]> c, inr (mkLease (status e) (cancelRequested e)))
  end.

(** [assignmentRequest], the check of [ReportState] and [ReportLog]. *)
Definition assignmentRequest (jobID agentID : string) (c : Coordinator) : goerr + StepRequest :=
  match c !! jobID with
  | None => inl ErrAssignmentNotFound
  | Some e =>
      if negb (bool_decide (claimedBy e = agentID)) then inl ErrAssignmentClaimed
      else if completed e then inl ErrAssignmentClosed
      else inr (request e)
  end.

(** The end of an assignment: [completed], the verdict and [close(done)]. *)
Definition close_with (st : AssignmentStatus) (deadline : Z) (cause : option goerr)
    (e : assignmentEntry) : assignmentEntry :=
  mkEntry (request e) st (claimedBy e) (cancelRequested e) deadline cause (closes e + 1) true.

Definition complete_entry (text : string) (e : assignmentEntry) : assignmentEntry :=
  if cancelRequested e then close_with AssignmentCanceled 0 (Some Canceled) e
  else if negb (blank text) then close_with AssignmentFailed 0 (Some (ErrText text)) e
  else close_with AssignmentSucceeded 0 None e.
Definition Complete (jobID agentID text : string) (c : Coordinator) : Coordinator * option goerr :=
  match c !! jobID with
  | None => (c, Some ErrAssignmentNotFound)
  | Some e =>
      if negb (bool_decide (claimedBy e = agentID)) then (c, Some ErrAssignmentClaimed)
      else if completed e then (c, None)
      else (<[jobID := complete_entry text e]> c, None)
  end.

Definition request_cancel (e : assignmentEntry) : assignmentEntry :=
  mkEntry (request e) (status e) (claimedBy e) true (leaseDeadline e) (err e) (closes e) (completed e).
Definition Cancel (jobID : string) (c : Coordinator) : Coordinator * bool :=
  match c !! jobID with
  | None => (c, false)
  | Some e =>
      if completed e then (c, false)
      else if bool_decide (status e = AssignmentPending) then
        (<[jobID := close_with AssignmentCanceled (leaseDeadline e) (Some Canceled) e]> c, true)
      else (<[jobID := request_cancel e]> c, true)
  end.

(** One tick of [expiryLoop].  The text of the error names the agent after the
    cause in the code; what is kept here is the error it wraps. *)
Definition lease_lapsed (now : Z) (e : assignmentEntry) : bool :=
  negb (completed e) && bool_decide (status e = AssignmentRunning) &&
  negb (IsZero (leaseDeadline e)) && negb (Before now (leaseDeadline e)).
Definition expire (now : Z) (e : assignmentEntry) : assignmentEntry :=
  if lease_lapsed now e then
    close_with AssignmentFailed (leaseDeadline e)
      (Some (ErrWrap ("agent " +:+ claimedBy e) ErrLeaseExpired)) e
  else e.
Definition expiry_tick (now : Z) (c : Coordinator) : Coordinator := expire now <$> c.

(** What [Wait] answers once [done] is closed, and when its context ends.
    [Wait] itself looks the job up in [c], waits for the one or the other,
    and goes on in the state [later]. *)
Definition wait_done (jobID : string) (c : Coordinator) : option goerr :=
  match c !! jobID with None => None | Some e => err e end.
Definition wait_canceled (jobID : string) (cause : goerr) (c : Coordinator)
    : Coordinator * option goerr := ((Cancel jobID c).1, Some cause).
Definition Wait (jobID : string) (ended : option goerr) (c later : Coordinator)
    : Coordinator * option goerr :=
  match c !! jobID, ended with
  | None, _ => (later, Some ErrAssignmentNotFound)
  | Some _, Some cause => wait_canceled jobID cause later
  | Some _, None => (later, wait_done jobID later)
  end.

(** ** Persistence *)
Definition snapshot_of (e : assignmentEntry) : AssignmentSnapshot :=
  mkSnapshot (request e) (status e) (claimedBy e) (cancelRequested e) (leaseDeadline e).
Definition persistAssignments (c : Coordinator) : list AssignmentSnapshot :=
  snapshot_of <$> base.filter (fun e => completed e = false) (map_to_list c).*2.
Definition restoreAssignments (snapshots : list AssignmentSnapshot) (c : Coordinator) : Coordinator :=
  foldl (fun c s =>
           if bool_decide (JobID (SnapshotRequest s) = "") then c
           else <[JobID (SnapshotRequest s) := new_entry (SnapshotRequest s)]> c) c snapshots.

(** ** Device requirements *)
Definition capability (s : string) : string := (Cut s ":").1.1.
Definition capabilitiesSatisfied (have need : list string) : bool :=
  forallb (fun n => bool_decide (capability n ∈ (capability <$> have))) need.

(** ** The registry *)
Record Registration := mkRegistration {
  AgentID : string;
  AgentName : string;
  HostURL : string;
  AgentStatus : string;
  Capabilities : list string;
  RegisteredAt : Z;
  LastHeartbeatAt : Z;
  AgentCapacity : Z;
}.

Record RegisterRequest := mkRegister {
  ReqAgentID : string;
  ReqName : string;
  ReqHostURL : string;
  ReqCapabilities : list string;
  ReqCapacity : Z;
}.

Definition SlotCount (r : Registration) : Z := if AgentCapacity r <? 1 then 1 else AgentCapacity r.

Definition heartbeatExpiry : Z := 30 * second.

(** The agents the registry keeps itself; the agents of the runtime store are
    an argument of the operations and, saved, part of their result. *)
Notation Registry := (gmap string Registration).

Definition is_up (status : string) : bool :=
  bool_decide (ToLower status = "online") || bool_decide (ToLower status = "ready").
Definition with_status (st : string) (a : Registration) : Registration :=
  mkRegistration (AgentID a) (AgentName a) (HostURL a) st (Capabilities a) (RegisteredAt a)
    (LastHeartbeatAt a) (AgentCapacity a).
Definition beat (now : Z) (a : Registration) : Registration :=
  mkRegistration (AgentID a) (AgentName a) (HostURL a) "online" (Capabilities a) (RegisteredAt a)
    now (AgentCapacity a).

(** [expireStaleAgents], on one agent. *)
Definition stale (now : Z) (a : Registration) : bool :=
  is_up (AgentStatus a) && negb (IsZero (LastHeartbeatAt a)) &&
  (heartbeatExpiry <? now - LastHeartbeatAt a).
Definition expire_agent (now : Z) (a : Registration) : Registration :=
  if stale now a then with_status "offline" a else a.
(** On the agents of the store, with whether they are saved, or on the
    registry's own when the store cannot be read. *)
Definition expireStaleAgents (now : Z) (stored : option (list Registration)) (r : Registry)
    : option (list Registration) * Registry :=
  match stored with
  | Some agents =>
      (if existsb (stale now) agents then Some (expire_agent now <$> agents) else None, r)
  | None => (None, expire_agent now <$> r)
  end.

(** The first agent with the id, blanks aside, rewritten by [f]. *)
Fixpoint update_agent (id : string) (f : Registration -> Registration) (agents : list Registration)
    : option (list Registration * Registration) :=
  match agents with
  | [] => None
  | a :: rest =>
      if bool_decide (TrimSpace (AgentID a) = TrimSpace id) then Some (f a :: rest, f a)
      else match update_agent id f rest with
           | Some (rest', a') => Some (a :: rest', a')
           | None => None
           end
  end.

Definition re_register (request : RegisterRequest) (now : Z) (a : Registration) : Registration :=
  mkRegistration (AgentID a) (FirstNonEmpty [ReqName request; AgentName a])
    (FirstNonEmpty [ReqHostURL request; HostURL a]) "online" (ReqCapabilities request)
    (if IsZero (RegisteredAt a) then now else RegisteredAt a) now (ReqCapacity request).
Definition upsertAgentRegistration (agents : list Registration) (request : RegisterRequest) (now : Z)
    : list Registration * Registration :=
  match update_agent (ReqAgentID request) (re_register request now) agents with
  | Some r => r
  | None =>
      let record := mkRegistration (ReqAgentID request)
        (FirstNonEmpty [ReqName request; ReqAgentID request]) (ReqHostURL request) "online"
        (ReqCapabilities request) now now (ReqCapacity request) in
      (agents ++ [record], record)
  end.

(** [Register]: [saved] tells whether the store took the new state. *)
Definition Register (now : Z) (request : RegisterRequest) (stored : option (list Registration))
    (saved : bool) (r : Registry) : option (list Registration) * Registry * Registration :=
  let own := mkRegistration (ReqAgentID request) (ReqName request) (ReqHostURL request) "online"
    (ReqCapabilities request)
    (match r !! ReqAgentID request with Some existing => RegisteredAt existing | None => now end)
    now (ReqCapacity request) in
  match stored, saved with
  | Some agents, true =>
      let '(agents', record) := upsertAgentRegistration agents request now in
      (Some agents', r, record)
  | _, _ => (stored, <[ReqAgentID request := own]> r, own)
  end.

Definition Heartbeat (now : Z) (agentID : string) (stored : option (list Registration)) (saved : bool)
    (r : Registry) : option (list Registration) * Registry * option Registration :=
  match option_map (update_agent agentID (beat now)) stored with
  | Some None => (stored, r, None)
  | Some (Some (agents', record)) =>
      if saved then (Some agents', r, Some record)
      else match r !! agentID with
           | None => (stored, r, None)
           | Some a => (stored, <[agentID := beat now a]> r, Some (beat now a))
           end
  | None =>
      match r !! agentID with
      | None => (stored, r, None)
      | Some a => (stored, <[agentID := beat now a]> r, Some (beat now a))
      end
  end.

Definition Unregister (agentID : string) (stored : option (list Registration)) (r : Registry)
    : option (list Registration) * Registry :=
  match option_map (update_agent agentID (with_status "offline")) stored with
  | Some (Some (agents', _)) => (Some agents', r)
  | _ =>
      match r !! agentID with
      | Some a => (stored, <[agentID := with_status "offline" a]> r)
      | None => (stored, r)
      end
  end.

Fixpoint find_agent (id : string) (agents : list Registration) : option Registration :=
  match agents with
  | [] => None
  | a :: rest => if bool_decide (TrimSpace (AgentID a) = TrimSpace id) then Some a
                 else find_agent id rest
  end.
Definition Get (agentID : string) (stored : option (list Registration)) (r : Registry)
    : option Registration :=
  match stored with Some agents => find_agent agentID agents | None => r !! agentID end.
Definition IsAvailable (agentID : string) (stored : option (list Registration)) (r : Registry) : bool :=
  match Get agentID stored r with
  | None => false
  | Some a => is_up (TrimSpace (AgentStatus a))
  end.

Definition name_le (a b : Registration) : Prop := String.ltb (AgentName b) (AgentName a) = false.
#[export] Instance name_le_dec : RelDecision name_le.
Proof. intros a b. unfold name_le. apply _. Defined.
Definition sortRegistrations (records : list Registration) : list Registration :=
  merge_sort name_le records.
Definition List (stored : option (list Registration)) (r : Registry) : list Registration :=
  sortRegistrations (default (map_to_list r).*2 stored).

(** ** The broker *)
Definition anyAgentSatisfies (registrations : list Registration) (devices : list string) : bool :=
  existsb (fun reg => capabilitiesSatisfied (Capabilities reg) devices) registrations.

(** [Dispatch] before and after it waits: it submits the request under the
    broker's backend, and removes the job when the wait is over. *)
Definition dispatch_request (backendID : string) (r : StepRequest) : StepRequest :=
  mkRequest (JobID r) (ExecutionID r) (NodeID r) (FirstNonEmpty [BackendID r; backendID])
    (LeaseTTL r) (Devices r) (RequestBody r).
Definition lacks_devices (registrations : option (list Registration)) (r : StepRequest) : bool :=
  negb (bool_decide (Devices r = [])) &&
  match registrations with Some regs => negb (anyAgentSatisfies regs (Devices r)) | None => false end.
Definition Dispatch (backendID uuid : string) (registrations : option (list Registration))
    (r : StepRequest) (c : Coordinator) : Coordinator * (goerr + StepRequest) :=
  if lacks_devices registrations r then
    (c, inl (ErrText ("no available agent satisfies device requirements: " +:+ Join (Devices r) ", ")))
  else Submit uuid (dispatch_request backendID r) c.
Definition dispatch_end (jobID : string) (c : Coordinator) : Coordinator := Cleanup jobID c.

(** [Release]: the job that ends an execution on the agent's host. *)
Definition ReleaseKind : string := "release".
Definition Release (backendID uuid executionID : string) (c : Coordinator)
    : Coordinator * (goerr + StepRequest) :=
  Submit uuid (mkRequest (executionID +:+ ":" +:+ ReleaseKind) executionID ReleaseKind backendID
                 (30 * second) [] 0%nat) c.

(** ** Every interleaving of the methods *)
Inductive coordinator_step (c : Coordinator) : Coordinator -> Prop :=
  | do_submit uuid r : coordinator_step c (Submit uuid r c).1
  | do_cleanup jobID : coordinator_step c (Cleanup jobID c)
  | do_claim now agentID keys : coordinator_step c (Claim now agentID keys c).1
  | do_extend now jobID agentID : coordinator_step c (Extend now jobID agentID c).1
  | do_complete jobID agentID text : coordinator_step c (Complete jobID agentID text c).1
  | do_cancel jobID : coordinator_step c (Cancel jobID c).1
  | do_tick now : coordinator_step c (expiry_tick now c).

(** The states of a coordinator that was restored from snapshots first. *)
Definition reachable (c : Coordinator) : Prop :=
  exists snapshots, rtc coordinator_step (restoreAssignments snapshots NewCoordinator) c.

Definition terminal (st : AssignmentStatus) : bool :=
  match st with AssignmentPending | AssignmentRunning => false | _ => true end.

Definition b2n (b : bool) : nat := if b then 1 else 0.

Record entry_ok (key : string) (e : assignmentEntry) : Prop := {
  ok_key : JobID (request e) = key;
  ok_completed : completed e = terminal (status e);
  ok_closes : closes e = b2n (completed e);
  ok_unclaimed : status e = AssignmentPending -> claimedBy e = "";
}.
Definition coordinator_ok (c : Coordinator) : Prop := forall key e, c !! key = Some e -> entry_ok key e.

(** A step either leaves an entry, deletes it, creates it, or moves it
    forward. *)
Inductive entry_step (e : assignmentEntry) : assignmentEntry -> Prop :=
  | entry_same : entry_step e e
  | entry_start now agentID : status e = AssignmentPending -> entry_step e (start now agentID e)
  | entry_extend now : status e = AssignmentRunning -> entry_step e (extend now e)
  | entry_request_cancel : completed e = false -> status e <> AssignmentPending ->
      entry_step e (request_cancel e)
  | entry_close st deadline cause : completed e = false -> terminal st = true ->
      entry_step e (close_with st deadline cause e).

Lemma Claim_cases now agentID keys c :
  (Claim now agentID keys c = (c, None) /\
   forall key e, key ∈ keys -> c !! key = Some e -> claimable agentID e = false) \/
  exists key e, key ∈ keys /\ c !! key = Some e /\ claimable agentID e = true /\
    Claim now agentID keys c = (<[key := start now agentID e]> c, Some (request e)).
Proof.
  induction keys as [|key rest IH]; cbn [Claim].
  { left. split; [done|]. by intros key e ?%not_elem_of_nil. }
  destruct (c !! key) as [e|] eqn:He; [destruct (claimable agentID e) eqn:Hc|].
  - right. exists key, e. split; [left|done].
  - destruct IH as [[-> H]|(k & e' & Hk & ? & ? & ->)].
    + left. split; [done|]. intros k e' [->|Hk]%elem_of_cons; [congruence|by apply H].
    + right. exists k, e'. split; [by right|done].
  - destruct IH as [[-> H]|(k & e' & Hk & ? & ? & ->)].
    + left. split; [done|]. intros k e' [->|Hk]%elem_of_cons; [congruence|by apply H].
    + right. exists k, e'. split; [by right|done].
Qed.

Lemma claimable_spec agentID e : claimable agentID e = true <->
  status e = AssignmentPending /\ TrimSpace (BackendID (request e)) = TrimSpace agentID.
Proof. unfold claimable. by rewrite andb_true_iff, !bool_decide_eq_true. Qed.

(** What a step does to the entry of one job. *)
Lemma step_entry c c' key : coordinator_step c c' ->
  match c !! key, c' !! key with
  | Some e, Some e' => entry_step e e'
  | None, Some e' => exists r, e' = new_entry r /\ JobID r = key
  | _, None => True
  end.
Proof.
  assert (forall k (e x : assignmentEntry), c !! k = Some e -> entry_step e x ->
    match c !! key, <[k := x]> c !! key with
    | Some e, Some e' => entry_step e e'
    | None, Some e' => exists r, e' = new_entry r /\ JobID r = key
    | _, None => True
    end) as Hset.
  { intros k e x Hk Hx. destruct (decide (k = key)) as [->|Hne].
    - by rewrite lookup_insert_eq, Hk.
    - rewrite lookup_insert_ne by done. destruct (c !! key); [constructor|done]. }
  assert (match c !! key, c !! key with
    | Some e, Some e' => entry_step e e'
    | None, Some e' => exists r, e' = new_entry r /\ JobID r = key
    | _, None => True
    end) as Hsame by (destruct (c !! key); [constructor|done]).
  intros Hstep. destruct Hstep as
    [uuid r|jobID|now agentID keys|now jobID agentID|jobID agentID text|jobID|now].
  - unfold Submit. destruct (c !! JobID (normalize_request uuid r)) as [e|] eqn:He; [done|].
    cbn [fst]. rewrite lookup_insert. case_decide as Hk; [|done]. subst key. rewrite He.
    by exists (normalize_request uuid r).
  - unfold Cleanup. rewrite lookup_delete. case_decide; [by destruct (c !! key)|done].
  - destruct (Claim_cases now agentID keys c) as [[-> _]|(k & e & _ & He & Hc & ->)]; [done|].
    apply claimable_spec in Hc as [Hc _]. eapply Hset; [done|by constructor].
  - unfold Extend. destruct (c !! jobID) as [e|] eqn:He; [|done].
    destruct (bool_decide_reflect (status e = AssignmentRunning)) as [Hr|]; cbn [negb]; [|done].
    destruct (negb _); [done|]. eapply Hset; [done|by constructor].
  - unfold Complete. destruct (c !! jobID) as [e|] eqn:He; [|done]. destruct (negb _); [done|].
    destruct (completed e) eqn:Hc; [done|]. eapply Hset; [done|].
    unfold complete_entry. destruct (cancelRequested e); [by constructor|].
    destruct (negb _); by constructor.
  - unfold Cancel. destruct (c !! jobID) as [e|] eqn:He; [|done].
    destruct (completed e) eqn:Hc; [done|].
    destruct (bool_decide_reflect (status e = AssignmentPending)); (eapply Hset; [done|by constructor]).
  - unfold expiry_tick. rewrite lookup_fmap. destruct (c !! key) as [e|]; [|done].
    cbn [fmap option_fmap option_map]. unfold expire.
    destruct (lease_lapsed now e) eqn:Hl; [|constructor].
    unfold lease_lapsed in Hl. apply andb_true_iff in Hl as [Hl _]. apply andb_true_iff in Hl as [Hl _].
    apply andb_true_iff in Hl as [Hl _]. apply negb_true_iff in Hl. by constructor.
Qed.

Lemma entry_step_ok key e e' : entry_ok key e -> entry_step e e' -> entry_ok key e'.
Proof.
  intros [Hk Hc Hcl Hu] Hstep. destruct Hstep as [|now agentID Hs|now Hs|Hs Hp|st d cause Hs Ht];
    [done|..]; split; cbn; try done.
  - by rewrite Hc, Hs.
  - rewrite Hcl, Hs. done.
  - intros ->. discriminate Ht.
Qed.

Lemma coordinator_ok_step c c' : coordinator_ok c -> coordinator_step c c' -> coordinator_ok c'.
Proof.
  intros Hok Hstep key e' He'. pose proof (step_entry c c' key Hstep) as H. rewrite He' in H.
  destruct (c !! key) as [e|] eqn:He.
  - eapply entry_step_ok; [by apply Hok|done].
  - destruct H as (r & -> & Hr). by split.
Qed.

Lemma coordinator_ok_restore snapshots c :
  coordinator_ok c -> coordinator_ok (restoreAssignments snapshots c).
Proof.
  unfold restoreAssignments. revert c. induction snapshots as [|s rest IH]; intros c Hok; [done|].
  cbn [foldl]. apply IH. case_bool_decide; [done|]. intros key e. rewrite lookup_insert.
  case_decide as Hk; [|apply Hok]. intros [= <-]. by split.
Qed.

Lemma reachable_ok c : reachable c -> coordinator_ok c.
Proof.
  intros [snapshots H].
  assert (coordinator_ok (restoreAssignments snapshots NewCoordinator)) as H0
    by (apply coordinator_ok_restore; unfold NewCoordinator; intros key e; by rewrite lookup_empty).
  induction H as [|x y z Hstep _ IH]; [done|]. apply IH. by eapply coordinator_ok_step.
Qed.

(** ** Theorems on the coordinator *)

(** In every interleaving of the coordinator's methods and of its expiry
    loop, the [done] channel of an assignment is closed at most once (so no
    close panics), exactly when the assignment has ended, and a pending
    assignment belongs to no agent. *)
Theorem done_closed_once (c : Coordinator) (key : string) (e : assignmentEntry)
    (H : reachable c) (He : c !! key = Some e) :
  (closes e <= 1)%nat /\ (closes e = 1%nat <-> completed e = true) /\
  (completed e = true <-> status e <> AssignmentPending /\ status e <> AssignmentRunning) /\
  (status e = AssignmentPending -> claimedBy e = "").
Proof.
  destruct (reachable_ok c H key e He) as [_ Hc Hcl Hu]. rewrite Hcl, Hc.
  destruct (status e) eqn:Hs; cbn; repeat split; try lia; try done; naive_solver.
Qed.

(** C19: An assignment is never taken from the agent that claimed it and keeps
    its request; a cancellation that was asked for stays asked for; and once the
    assignment has ended no step changes anything of it, until the broker
    removes it. *)
Theorem assignment_exclusive (c c' : Coordinator) (key : string) (e e' : assignmentEntry)
    (H : reachable c) (He : c !! key = Some e) (Hstep : coordinator_step c c')
    (He' : c' !! key = Some e') :
  (status e <> AssignmentPending -> claimedBy e' = claimedBy e) /\
  request e' = request e /\
  (status e <> AssignmentPending -> cancelRequested e = true -> cancelRequested e' = true) /\
  (completed e = true -> e' = e).
Proof.
  pose proof (reachable_ok c H key e He) as [_ Hc _ _].
  pose proof (step_entry c c' key Hstep) as Hk. rewrite He, He' in Hk.
  destruct Hk as [|now agentID Hs|now Hs|Hd Hp|st d cause Hd Ht]; [done|..].
  1,2: rewrite Hs in *; rewrite Hc; done.
  1,2: rewrite Hd; done.
Qed.

(** [Claim] hands out a pending assignment of the agent's backend, marks
    exactly that one running under a lease of the agent, and answers nothing
    only when no visited assignment is pending for that backend. *)
Theorem Claim_spec (now : Z) (agentID : string) (keys : list string) (c : Coordinator) :
  match Claim now agentID keys c with
  | (c', Some r) => exists key e, key ∈ keys /\ c !! key = Some e /\ r = request e /\
      status e = AssignmentPending /\ TrimSpace (BackendID r) = TrimSpace agentID /\
      c' = <[key := start now agentID e]> c
  | (c', None) => c' = c /\ forall key e, key ∈ keys -> c !! key = Some e ->
      status e = AssignmentPending -> TrimSpace (BackendID (request e)) <> TrimSpace agentID
  end.
Proof.
  destruct (Claim_cases now agentID keys c) as [[-> H]|(k & e & Hk & He & Hc & ->)].
  - split; [done|]. intros key e Hk He Hs Hb.
    assert (claimable agentID e = true) by by apply claimable_spec. by rewrite (H key e) in *.
  - apply claimable_spec in Hc as [? ?]. by exists k, e.
Qed.

(** A tick of the expiry loop fails exactly the running assignments whose
    lease has run out, with an error that is a [context.DeadlineExceeded],
    and leaves every other assignment as it is. *)
Theorem expiry_tick_exact (now : Z) (c : Coordinator) (key : string) (e : assignmentEntry)
    (H : reachable c) (He : c !! key = Some e) :
  exists e', expiry_tick now c !! key = Some e' /\
    if bool_decide (status e = AssignmentRunning /\ leaseDeadline e <> 0 /\ leaseDeadline e <= now)
    then status e' = AssignmentFailed /\ completed e' = true /\
         exists cause, err e' = Some cause /\ errors_Is cause DeadlineExceeded = true
    else e' = e.
Proof.
  exists (expire now e). unfold expiry_tick. rewrite lookup_fmap, He. split; [done|].
  pose proof (reachable_ok c H key e He) as [_ Hc _ _].
  assert (lease_lapsed now e = bool_decide (status e = AssignmentRunning /\
    leaseDeadline e <> 0 /\ leaseDeadline e <= now)) as <-.
  { apply eq_true_iff_eq. unfold lease_lapsed, IsZero, Before.
    rewrite !andb_true_iff, !negb_true_iff, !bool_decide_eq_true, Z.eqb_neq, Z.ltb_ge, Hc.
    split; [tauto|]. intros (Hs & ? & ?). by rewrite Hs. }
  unfold expire. destruct (lease_lapsed now e); [|done]. cbn. split; [done|]. split; [done|].
  eexists. split; [done|]. reflexivity.
Qed.

(** After a restart the coordinator has exactly the unfinished assignments
    again, under their jobs, but all of them pending and unclaimed: leases and
    requested cancellations are forgotten. *)
Theorem persist_restore (c : Coordinator) (key : string) (H : reachable c)
    (Hkeys : forall k e, c !! k = Some e -> k <> "") :
  restoreAssignments (persistAssignments c) NewCoordinator !! key =
  match c !! key with
  | Some e => if completed e then None else Some (new_entry (request e))
  | None => None
  end.
Proof.
  pose proof (reachable_ok c H) as Hok. unfold restoreAssignments, persistAssignments, NewCoordinator.
  assert (forall l (m : Coordinator),
    NoDup l.*1 -> (forall k e, (k, e) ∈ l -> JobID (request e) = k /\ k <> "") ->
    foldl (fun c s => if bool_decide (JobID (SnapshotRequest s) = "") then c
             else <[JobID (SnapshotRequest s) := new_entry (SnapshotRequest s)]> c) m
      (snapshot_of <$> base.filter (fun e => completed e = false) l.*2) !! key
    = match (list_to_map l : Coordinator) !! key with
      | Some e => if completed e then m !! key else Some (new_entry (request e))
      | None => m !! key
      end) as Hfold.
  { induction l as [|[k e] l IH]; intros m Hnd Hl; [done|].
    cbn [fmap list_fmap fst snd] in Hnd |- *. apply NoDup_cons in Hnd as [Hk Hnd].
    destruct (Hl k e) as [Hid Hne]; [left|].
    assert (forall k e, (k, e) ∈ l -> JobID (request e) = k /\ k <> "") as Hl'
      by (intros k' e' Hin; apply Hl; by right).
    cbn [list_to_map foldr]. rewrite filter_cons. destruct (decide (completed e = false)) as [Hc|Hc].
    - rewrite fmap_cons. cbn [foldl snapshot_of SnapshotRequest]. rewrite Hid.
      rewrite bool_decide_eq_false_2 by done. rewrite IH by done. rewrite !lookup_insert. cbn [fst snd].
      destruct (decide (k = key)) as [->|Hne']; [|done].
      rewrite (proj1 (not_elem_of_list_to_map _ _) Hk). by rewrite Hc.
    - rewrite IH by done. rewrite lookup_insert. cbn [fst snd]. destruct (decide (k = key)) as [->|Hne']; [|done].
      rewrite (proj1 (not_elem_of_list_to_map _ _) Hk). apply not_false_iff_true in Hc. by rewrite Hc. }
  rewrite Hfold.
  - rewrite list_to_map_to_list, lookup_empty. done.
  - apply NoDup_fst_map_to_list.
  - intros k e Hin. apply elem_of_map_to_list in Hin. split; [|by eapply Hkeys].
    apply (ok_key _ _ (Hok k e Hin)).
Qed.

(** An assignment that no agent has claimed is completed by anyone who
    reports with an empty agent id, without having run. *)
Theorem unclaimed_completed_by_nobody (c : Coordinator) (key text : string) (e : assignmentEntry)
    (H : reachable c) (He : c !! key = Some e) (Hs : status e = AssignmentPending)
    (Hcancel : cancelRequested e = false) (Htext : TrimSpace text = "") :
  exists c' e', Complete key "" text c = (c', None) /\ c' !! key = Some e' /\
    status e' = AssignmentSucceeded /\ wait_done key c' = None.
Proof.
  pose proof (reachable_ok c H key e He) as [_ Hc _ Hu].
  assert (completed e = false) as Hnot by by rewrite Hc, Hs.
  assert (Complete key "" text c = (<[key := close_with AssignmentSucceeded 0 None e]> c, None)) as Heq.
  { unfold Complete. rewrite He, (Hu Hs), bool_decide_eq_true_2 by done. cbn [negb]. rewrite Hnot.
    unfold complete_entry, blank. by rewrite Hcancel, bool_decide_eq_true_2. }
  eexists. exists (close_with AssignmentSucceeded 0 None e). split; [exact Heq|].
  split; [apply lookup_insert_eq|]. split; [done|]. unfold wait_done. by rewrite lookup_insert_eq.
Qed.

(** ** The registry's theorems *)
Lemma update_agent_find id f agents (Hf : forall a, AgentID (f a) = AgentID a) :
  match update_agent id f agents with
  | Some (agents', a') => exists a, find_agent id agents = Some a /\ a' = f a /\
      find_agent id agents' = Some a' /\ length agents' = length agents /\
      forall other, TrimSpace other <> TrimSpace id -> find_agent other agents' = find_agent other agents
  | None => find_agent id agents = None
  end.
Proof.
  induction agents as [|a rest IH]; cbn [update_agent find_agent]; [done|].
  destruct (bool_decide_reflect (TrimSpace (AgentID a) = TrimSpace id)) as [Hid|Hid].
  - exists a. cbn [find_agent]. rewrite Hf, (bool_decide_eq_true_2 (TrimSpace (AgentID a) = _)) by done.
    split; [done|]. split; [done|]. split; [done|]. split; [done|]. intros other Ho.
    by rewrite !bool_decide_eq_false_2 by congruence.
  - destruct (update_agent id f rest) as [[rest' a']|]; [|done].
    destruct IH as (x & Hx & -> & Hx' & Hlen & Hother). exists x. cbn [find_agent].
    rewrite bool_decide_eq_false_2 by done. repeat split; try done; [simpl; lia|].
    intros other Ho. destruct (bool_decide _); [done|]. by apply Hother.
Qed.

Lemma find_agent_app id l1 l2 :
  find_agent id (l1 ++ l2) = match find_agent id l1 with Some a => Some a | None => find_agent id l2 end.
Proof. induction l1 as [|a l1 IH]; cbn [app find_agent]; [done|]. by case_bool_decide. Qed.

(** A registration is upserted: afterwards the agent is found, available
    and has the capabilities it announced, it keeps the time of its first
    registration, no other agent changes, and no second record is added for
    an id that is already there. *)
Theorem register_upserts (now : Z) (request : RegisterRequest) (agents : list Registration)
    (r : Registry) :
  exists agents' record, Register now request (Some agents) true r = (Some agents', r, record) /\
    Get (ReqAgentID request) (Some agents') r = Some record /\
    IsAvailable (ReqAgentID request) (Some agents') r = true /\
    Capabilities record = ReqCapabilities request /\ LastHeartbeatAt record = now /\
    (forall other, TrimSpace other <> TrimSpace (ReqAgentID request) ->
       Get other (Some agents') r = Get other (Some agents) r) /\
    match Get (ReqAgentID request) (Some agents) r with
    | Some old => length agents' = length agents /\
        (RegisteredAt old <> 0 -> RegisteredAt record = RegisteredAt old)
    | None => length agents' = S (length agents)
    end.
Proof.
  unfold Register, upsertAgentRegistration.
  pose proof (update_agent_find (ReqAgentID request) (re_register request now) agents
    (fun a => eq_refl)) as Hu.
  destruct (update_agent _ _ _) as [[agents' record]|].
  - destruct Hu as (old & Hold & -> & Hnew & Hlen & Hother).
    exists agents', (re_register request now old). cbn [Get]. unfold IsAvailable. cbn [Get].
    rewrite Hnew, Hold. repeat split; try done. intros H. unfold re_register, IsZero. cbn.
    by rewrite (proj2 (Z.eqb_neq _ _)).
  - eexists _, _. split; [done|]. unfold IsAvailable. cbn [Get]. rewrite !find_agent_app, Hu.
    cbn [find_agent AgentID]. rewrite bool_decide_eq_true_2 by done. repeat split; try done.
    + intros other Ho. rewrite find_agent_app. cbn [find_agent AgentID].
      rewrite bool_decide_eq_false_2 by congruence. by destruct (find_agent other agents).
    + rewrite length_app. simpl. lia.
Qed.

(** The expiry loop turns offline exactly the agents that are online or
    ready and whose last heartbeat is more than thirty seconds old, changes
    nothing else about them, and saves exactly when there is one. *)
Theorem expire_stale_exact (now : Z) (agents : list Registration) (r : Registry) :
  match expireStaleAgents now (Some agents) r with
  | (saved, r') => r' = r /\
      (is_Some saved <-> exists a, a ∈ agents /\ stale now a = true) /\
      Forall2 (fun a a' =>
          if bool_decide (is_up (AgentStatus a) = true /\ LastHeartbeatAt a <> 0 /\
                          LastHeartbeatAt a + heartbeatExpiry < now)
          then a' = with_status "offline" a else a' = a) agents (default agents saved)
  end.
Proof.
  assert (forall a, stale now a = bool_decide (is_up (AgentStatus a) = true /\ LastHeartbeatAt a <> 0 /\
    LastHeartbeatAt a + heartbeatExpiry < now)) as Hst.
  { intros a. apply eq_true_iff_eq. unfold stale, IsZero.
    rewrite !andb_true_iff, negb_true_iff, bool_decide_eq_true, Z.eqb_neq, Z.ltb_lt.
    split; [intros [[? ?] ?]|intros (? & ? & ?)]; repeat split; try done; lia. }
  cbn [expireStaleAgents]. split; [done|]. split.
  - destruct (existsb (stale now) agents) eqn:He.
    + split; [|by eexists]. intros _. apply existsb_exists in He as (a & Ha & ?).
      exists a. split; [by apply list_elem_of_In|done].
    + split; [by intros [? [=]]|]. intros (a & Ha & Hs).
      assert (existsb (stale now) agents = true); [|congruence].
      apply existsb_exists. exists a. split; [by apply list_elem_of_In|done].
  - destruct (existsb (stale now) agents) eqn:He; cbn [default from_option id].
    + clear He. induction agents as [|a rest IH]; constructor; [|done].
      rewrite <-Hst. unfold expire_agent. by destruct (stale now a).
    + induction agents as [|a rest IH]; constructor.
      * cbn in He. apply orb_false_iff in He as [Ha _]. by rewrite <-Hst, Ha.
      * apply IH. cbn in He. by apply orb_false_iff in He as [_ ?].
Qed.

(** ** Witnesses *)
Definition sample_request : StepRequest := mkRequest "" "run-1" "api" "edge" 0 [] 0%nat.
Definition submitted : Coordinator := (Submit "u" sample_request NewCoordinator).1.
Definition claimed : Coordinator := (Claim 100 "edge" ["run-1:api"] submitted).1.
Definition claimed_entry : assignmentEntry :=
  default (new_entry sample_request) (claimed !! "run-1:api").

Definition submitted_entry : assignmentEntry :=
  default (new_entry sample_request) (submitted !! "run-1:api").

Lemma submitted_entry_eq : submitted !! "run-1:api" = Some submitted_entry.
Proof. vm_compute. reflexivity. Qed.
Lemma submitted_reachable : reachable submitted.
Proof. exists []. eapply rtc_l; [apply (do_submit _ "u" sample_request)|]. apply rtc_refl. Qed.
Lemma claimed_reachable : reachable claimed.
Proof.
  exists []. eapply rtc_l; [apply (do_submit _ "u" sample_request)|].
  eapply rtc_l; [apply (do_claim _ 100 "edge" ["run-1:api"])|]. apply rtc_refl.
Qed.

Lemma done_closed_once_witness : (closes claimed_entry <= 1)%nat /\ claimedBy claimed_entry = "edge".
Proof.
  split; [|reflexivity].
  exact (proj1 (done_closed_once claimed "run-1:api" claimed_entry claimed_reachable eq_refl)).
Defined.

Lemma assignment_exclusive_witness :
  exists e', (Cancel "run-1:api" claimed).1 !! "run-1:api" = Some e' /\ claimedBy e' = "edge".
Proof.
  eexists. split; [vm_compute; reflexivity|].
  exact (proj1 (assignment_exclusive claimed (Cancel "run-1:api" claimed).1 "run-1:api" claimed_entry
    _ claimed_reachable eq_refl (do_cancel _ "run-1:api") eq_refl) ltac:(discriminate)).
Defined.

Lemma expiry_tick_exact_witness :
  exists e', expiry_tick (9 * second) claimed !! "run-1:api" = Some e' /\ status e' = AssignmentFailed.
Proof.
  destruct (expiry_tick_exact (9 * second) claimed "run-1:api" claimed_entry claimed_reachable eq_refl)
    as (e' & He' & H).
  exists e'. split; [exact He'|]. exact (proj1 H).
Defined.

Lemma persist_restore_witness :
  restoreAssignments (persistAssignments claimed) NewCoordinator !! "run-1:api"
  = Some (new_entry (request claimed_entry)).
Proof.
  refine (persist_restore claimed "run-1:api" claimed_reachable _).
  intros k e Hk ->. vm_compute in Hk. discriminate Hk.
Defined.

Lemma unclaimed_completed_by_nobody_witness :
  exists c' e', Complete "run-1:api" "" "" submitted = (c', None) /\ c' !! "run-1:api" = Some e' /\
    status e' = AssignmentSucceeded.
Proof.
  destruct (unclaimed_completed_by_nobody submitted "run-1:api" ""
    submitted_entry submitted_reachable
    submitted_entry_eq eq_refl eq_refl eq_refl) as (c' & e' & H1 & H2 & H3 & _).
  exists c', e'. split; [exact H1|]. split; [exact H2|exact H3].
Defined.
End Agents.
