(* ===== verification/Limits.v ===== *)
(** Request limits, [src/backend/internal/auth]: the per-address rate limiter
    (ratelimit.go) and the per-account lockout (lockout.go).

    Both keep the times of recent events per key and drop the old ones of all
    keys now and then.  Each method holds its lock; the readings of the clock
    it makes are arguments, first that of the sweep, then its own. *)
From Stdlib Require Import ZArith Lia.
From S2P Require Import Prelude.

Module Limits.

(** ** Operations *)
Definition fresh (cutoff : Z) (times : list Z) : list Z := base.filter (fun t => cutoff < t) times.

(** Drop the old times of every key, and the keys that have no others. *)
Definition sweep (cutoff : Z) (m : gmap string (list Z)) : gmap string (list Z) :=
  omap (fun times => match fresh cutoff times with [] => None | kept => Some kept end) m.

Record ipRateLimiter := mkLimiter {
  events : gmap string (list Z);
  limit : Z;
  window : Z;
  limiterCalls : Z;
}.

Definition rateLimiterSweepInterval : Z := 500.
Definition newIPRateLimiter (limit window : Z) : ipRateLimiter := mkLimiter ∅ limit window 0.

(** A call is counted; every five hundredth one sweeps. *)
Definition count_allow (swept_at : Z) (l : ipRateLimiter) : ipRateLimiter :=
  if rateLimiterSweepInterval <=? limiterCalls l + 1 then
    mkLimiter (sweep (swept_at - window l) (events l)) (limit l) (window l) 0
  else mkLimiter (events l) (limit l) (window l) (limiterCalls l + 1).
Definition set_events (key : string) (times : list Z) (l : ipRateLimiter) : ipRateLimiter :=
  mkLimiter (<[key := times]> (events l)) (limit l) (window l) (limiterCalls l).

Definition allow (swept_at now : Z) (key : string) (l : ipRateLimiter) : ipRateLimiter * bool :=
  let l := count_allow swept_at l in
  let kept := fresh (now - window l) (default [] (events l !! key)) in
  if limit l <=? Z.of_nat (length kept) then (set_events key kept l, false)
  else (set_events key (kept ++ [now]) l, true).

Record accountLockout := mkLockout { failures : gmap string (list Z); lockoutCalls : Z }.

Definition lockoutMaxFailures : Z := 10.
Definition lockoutWindow : Z := 10 * minute.
Definition lockoutSweepEvery : Z := 200.
Definition newAccountLockout : accountLockout := mkLockout ∅ 0.

Definition recentFailures (now : Z) (key : string) (a : accountLockout) : Z :=
  match failures a !! key with
  | None => 0
  | Some times => Z.of_nat (length (fresh (now - lockoutWindow) times))
  end.
Definition locked (now : Z) (key : string) (a : accountLockout) : bool :=
  lockoutMaxFailures <=? recentFailures now key a.

Definition count_failure (swept_at : Z) (a : accountLockout) : accountLockout :=
  if lockoutSweepEvery <=? lockoutCalls a + 1 then
    mkLockout (sweep (swept_at - lockoutWindow) (failures a)) 0
  else mkLockout (failures a) (lockoutCalls a + 1).
Definition record_failure (swept_at now : Z) (key : string) (a : accountLockout) : accountLockout :=
  let a := count_failure swept_at a in
  mkLockout (<[key := default [] (failures a !! key) ++ [now]]> (failures a)) (lockoutCalls a).
Definition reset (key : string) (a : accountLockout) : accountLockout :=
  mkLockout (delete key (failures a)) (lockoutCalls a).

(** ** Logs *)

(** The times a log has for a key; the two histories below keep a log of every
    event, which the code never does. *)
Definition times_of (key : string) (log : list (string * Z)) : list Z :=
  snd <$> base.filter (fun p => p.1 = key) log.

(** The calls of a limiter, in the order in which they take its lock: the
    clock, the limiter and the requests it admitted. *)
Inductive served (lim win : Z) : Z -> ipRateLimiter -> list (string * Z) -> Prop :=
  | served_new T : served lim win T (newIPRateLimiter lim win) []
  | served_call T l log swept_at now key :
      served lim win T l log -> T <= swept_at -> swept_at <= now ->
      served lim win now (allow swept_at now key l).1
        (log ++ if (allow swept_at now key l).2 then [(key, now)] else []).

(** The calls of a lockout; the log has the failures since the last reset. *)
Inductive attempts : Z -> accountLockout -> list (string * Z) -> Prop :=
  | attempts_new T : attempts T newAccountLockout []
  | attempts_record T a log swept_at now key :
      attempts T a log -> T <= swept_at -> swept_at <= now ->
      attempts now (record_failure swept_at now key a) (log ++ [(key, now)])
  | attempts_reset T a log now key :
      attempts T a log -> T <= now ->
      attempts now (reset key a) (base.filter (fun p => p.1 <> key) log).

Lemma fresh_app c l1 l2 : fresh c (l1 ++ l2) = fresh c l1 ++ fresh c l2.
Proof. apply filter_app. Qed.

Lemma fresh_fresh c c' l : c <= c' -> fresh c' (fresh c l) = fresh c' l.
Proof.
  intros Hc. unfold fresh. rewrite list_filter_filter. apply list_filter_iff. intros t. lia.
Qed.

Lemma fresh_sweep c c' key m : c <= c' ->
  fresh c' (default [] (sweep c m !! key)) = fresh c' (default [] (m !! key)).
Proof.
  intros Hc. unfold sweep. rewrite lookup_omap. destruct (m !! key) as [times|]; [|done].
  cbn [mbind option_bind default from_option id]. rewrite <-(fresh_fresh c c' times Hc).
  by destruct (fresh c times).
Qed.

Lemma times_of_app key l1 l2 : times_of key (l1 ++ l2) = times_of key l1 ++ times_of key l2.
Proof. unfold times_of. by rewrite filter_app, fmap_app. Qed.

Lemma times_of_one key k t : times_of key [(k, t)] = if decide (k = key) then [t] else [].
Proof. unfold times_of. rewrite filter_cons. cbn [fst]. by destruct (decide (k = key)). Qed.

Lemma times_of_reset key k log :
  times_of key (base.filter (fun p => p.1 <> k) log) = if decide (k = key) then [] else times_of key log.
Proof.
  unfold times_of. rewrite list_filter_filter. destruct (decide (k = key)) as [->|Hk].
  - induction log as [|p log IH]; [done|]. rewrite filter_cons_False by tauto. done.
  - f_equal. apply list_filter_iff. intros p. split; [tauto|]. intros Hp. split; [done|]. congruence.
Qed.

(** ** The limiter keeps what matters of the log *)
Definition agrees (cutoff : Z) (m : gmap string (list Z)) (log : list (string * Z)) : Prop :=
  forall key c, cutoff <= c -> fresh c (default [] (m !! key)) = fresh c (times_of key log).

Lemma agrees_later c c' m log : c <= c' -> agrees c m log -> agrees c' m log.
Proof. intros Hc H key d Hd. apply H. lia. Qed.

Lemma agrees_sweep c m log : agrees c m log -> agrees c (sweep c m) log.
Proof. intros H key d Hd. rewrite fresh_sweep by done. by apply H. Qed.

Lemma agrees_insert c m log key times more :
  agrees c m log -> (forall d, c <= d -> fresh d times = fresh d (times_of key log ++ more)) ->
  agrees c (<[key := times]> m) (log ++ ((fun t => (key, t)) <$> more)).
Proof.
  intros H Ht k d Hd. rewrite times_of_app.
  assert (times_of k ((fun t => (key, t)) <$> more) = if decide (key = k) then more else []) as ->.
  { clear Ht. induction more as [|t more IH]; [by destruct (decide (key = k))|].
    cbn [fmap list_fmap] in IH |- *. unfold times_of in *. rewrite filter_cons. cbn [fst].
    destruct (decide (key = k)) as [->|Hk]; [|done]. rewrite fmap_cons. cbn [snd]. by f_equal. }
  destruct (decide (key = k)) as [->|Hk].
  - rewrite lookup_insert_eq. by apply Ht.
  - rewrite lookup_insert_ne, app_nil_r by done. by apply H.
Qed.

Lemma count_allow_fields t l :
  limit (count_allow t l) = limit l /\ window (count_allow t l) = window l.
Proof. unfold count_allow. by destruct (_ <=? _). Qed.

Lemma agrees_count_allow t l log : agrees (t - window l) (events l) log ->
  agrees (t - window l) (events (count_allow t l)) log.
Proof. unfold count_allow. destruct (_ <=? _); [apply agrees_sweep|done]. Qed.

Lemma served_inv lim win T l log : served lim win T l log ->
  limit l = lim /\ window l = win /\ agrees (T - win) (events l) log.
Proof.
  induction 1 as [T|T l log swept_at now key H (Hl & Hw & IH) Hs Hn].
  { split; [done|]. split; [done|]. intros key c _. done. }
  pose proof (count_allow_fields swept_at l) as [Hl' Hw'].
  assert (agrees (now - win) (events (count_allow swept_at l)) log) as Hag.
  { apply agrees_later with (swept_at - win); [lia|]. rewrite <-Hw. apply agrees_count_allow.
    rewrite Hw. apply agrees_later with (T - win); [lia|done]. }
  unfold allow. destruct (_ <=? _); cbn [fst snd set_events limit window events].
  - split; [congruence|]. split; [congruence|].
    rewrite app_nil_r. rewrite <-(app_nil_r log).
    apply (agrees_insert _ _ _ _ _ []); [done|]. intros d Hd.
    rewrite app_nil_r, fresh_fresh by (rewrite Hw', Hw; lia). by apply Hag.
  - split; [congruence|]. split; [congruence|].
    apply (agrees_insert _ _ _ _ _ [now]); [done|]. intros d Hd.
    rewrite !fresh_app, fresh_fresh by (rewrite Hw', Hw; lia). f_equal. by apply Hag.
Qed.

Lemma allow_exact lim win T l log swept_at now key :
  served lim win T l log -> T <= swept_at <= now ->
  (allow swept_at now key l).2
  = bool_decide (Z.of_nat (length (fresh (now - win) (times_of key log))) < lim).
Proof.
  intros H Ht. destruct (served_inv _ _ _ _ _ H) as (Hl & Hw & Hag).
  pose proof (count_allow_fields swept_at l) as [Hl' Hw'].
  assert (fresh (now - win) (default [] (events (count_allow swept_at l) !! key))
          = fresh (now - win) (times_of key log)) as <-.
  { apply (agrees_count_allow swept_at l log); [|rewrite Hw; lia]. rewrite Hw.
    apply agrees_later with (T - win); [lia|done]. }
  unfold allow. rewrite Hw', Hl', Hl, Hw.
  destruct (Z.leb_spec lim (Z.of_nat (length (fresh (now - win)
    (default [] (events (count_allow swept_at l) !! key)))))); cbn [snd].
  - rewrite bool_decide_eq_false_2 by lia. done.
  - rewrite bool_decide_eq_true_2 by lia. done.
Qed.

(** The times in an interval of a length. *)
Definition within (from width : Z) (times : list Z) : list Z :=
  base.filter (fun t => from < t /\ t <= from + width) times.

Lemma within_fresh from width c times : c <= from ->
  (length (within from width times) <= length (fresh c times))%nat.
Proof.
  intros Hc. unfold within, fresh. induction times as [|t times IH]; [done|].
  rewrite !filter_cons. repeat case_decide; simpl; lia.
Qed.

(** The limiter is an exact sliding window, whatever it sweeps: a request
    is admitted exactly when fewer than [limit] requests of its address were
    admitted in the window before it, and so no interval as long as the
    window has more than [limit] of them. *)
Theorem rate_limit_exact (lim win T : Z) (l : ipRateLimiter) (log : list (string * Z))
    (H : served lim win T l log) :
  (forall swept_at now key, T <= swept_at <= now ->
     (allow swept_at now key l).2 = true <->
     Z.of_nat (length (fresh (now - win) (times_of key log))) < lim) /\
  (forall key from, Z.of_nat (length (within from win (times_of key log))) <= Z.max 0 lim).
Proof.
  split.
  { intros swept_at now key Ht. by rewrite (allow_exact lim win T l log), bool_decide_eq_true. }
  induction H as [T|T l log swept_at now k H IH Hs Hn]; intros key from; [simpl; lia|].
  rewrite (allow_exact lim win T l log) by done.
  case_bool_decide as Hlim; [|by rewrite app_nil_r].
  rewrite times_of_app, times_of_one. destruct (decide (k = key)) as [->|]; [|by rewrite app_nil_r].
  unfold within. rewrite filter_app, length_app, filter_cons. fold (within from win (times_of key log)).
  specialize (IH key from). case_decide as Hw; cbn [length]; [|simpl; lia].
  pose proof (within_fresh from win (now - win) (times_of key log) ltac:(lia)).
  rewrite filter_nil. simpl. lia.
Qed.

(** ** The lockout keeps what matters of the log *)
Lemma recentFailures_fresh now key a :
  recentFailures now key a
  = Z.of_nat (length (fresh (now - lockoutWindow) (default [] (failures a !! key)))).
Proof. unfold recentFailures. by destruct (failures a !! key). Qed.

Lemma attempts_inv T a log : attempts T a log -> agrees (T - lockoutWindow) (failures a) log.
Proof.
  induction 1 as [T|T a log swept_at now key H IH Hs Hn|T a log now key H IH Hn].
  - intros key c _. done.
  - apply (agrees_later (swept_at - lockoutWindow)); [lia|].
    assert (agrees (swept_at - lockoutWindow) (failures (count_failure swept_at a)) log) as Hag.
    { unfold count_failure. destruct (_ <=? _); [apply agrees_sweep|];
        (apply agrees_later with (T - lockoutWindow); [lia|done]). }
    apply (agrees_insert _ _ _ _ _ [now]); [done|]. intros d Hd. rewrite !fresh_app. f_equal. by apply Hag.
  - apply (agrees_later (T - lockoutWindow)); [lia|]. intros k c Hc. unfold reset. cbn [failures].
    rewrite times_of_reset, lookup_delete. destruct (decide (key = k)); [done|]. by apply IH.
Qed.

Lemma locked_exact T a log now key : attempts T a log -> T <= now ->
  locked now key a
  = (lockoutMaxFailures <=? Z.of_nat (length (fresh (now - lockoutWindow) (times_of key log)))).
Proof.
  intros H Ht. unfold locked. rewrite recentFailures_fresh.
  rewrite (attempts_inv _ _ _ H) by lia. done.
Qed.

(** An account is locked exactly when ten sign-ins failed on it in the last
    ten minutes and since its last successful one, whatever was swept. *)
Theorem lockout_exact (T : Z) (a : accountLockout) (log : list (string * Z)) (now : Z) (key : string)
    (H : attempts T a log) (Ht : T <= now) :
  locked now key a = true <->
  10 <= Z.of_nat (length (base.filter (fun t => now - 10 * minute < t) (times_of key log))).
Proof. rewrite (locked_exact T a log) by done. apply Z.leb_le. Qed.

(** ** Witnesses *)
Lemma rate_limit_exact_witness :
  (allow 5 5 "a" (allow 3 3 "a" (allow 1 1 "a" (newIPRateLimiter 2 10)).1).1).2 = false /\
  (allow 12 12 "a" (allow 3 3 "a" (allow 1 1 "a" (newIPRateLimiter 2 10)).1).1).2 = true.
Proof.
  assert (served 2 10 3 (allow 3 3 "a" (allow 1 1 "a" (newIPRateLimiter 2 10)).1).1
            [("a", 1); ("a", 3)]) as H.
  { exact (served_call 2 10 1 (allow 1 1 "a" (newIPRateLimiter 2 10)).1 [("a", 1)] 3 3 "a"
      (served_call 2 10 0 (newIPRateLimiter 2 10) [] 1 1 "a" (served_new 2 10 0) ltac:(lia) ltac:(lia))
      ltac:(lia) ltac:(lia)). }
  pose proof (proj1 (rate_limit_exact 2 10 3 _ _ H)) as Hx.
  split.
  - apply not_true_is_false. intros Hc. apply (Hx 5 5 "a" ltac:(lia)) in Hc. vm_compute in Hc. discriminate.
  - apply (Hx 12 12 "a" ltac:(lia)). vm_compute. reflexivity.
Defined.

Definition failed_ten_times : accountLockout :=
  Nat.iter 10 (record_failure 5 5 "bob") newAccountLockout.

Lemma lockout_exact_witness : locked 6 "bob" failed_ten_times = true.
Proof.
  refine (proj2 (lockout_exact 5 failed_ten_times
    (Nat.iter 10 (fun log => log ++ [("bob", 5)]) []) 6 "bob" _ _) _).
  - cbn [failed_ten_times Nat.iter nat_rect].
    repeat (eapply attempts_record; [|apply Z.le_refl|apply Z.le_refl]). apply attempts_new.
  - lia.
  - vm_compute. discriminate.
Defined.
End Limits.
