(* ===== verification/Sessions.v ===== *)
(** Sessions, [src/backend/internal/auth]: the tokens and the list of revoked
    tokens (jwt.go), and the one-time codes that hand a session to the browser
    after a single sign-on (the [pendingTokenStore] of handler.go).

    The token library and the hash are parameters.  Each critical section is a
    function of its own: [isRevoked] reads the list under one lock and drops
    an old entry under another. *)
From Stdlib Require Import ZArith Lia.
From S2P Require Import Prelude.

Module Sessions.

(** ** Tokens *)
Definition TokenTTL : Z := 72 * hour.
Definition RefreshTokenTTL : Z := 7 * 24 * hour.
Definition tokenIssuer : string := "babelsuite".
Definition tokenAudience : string := "babelsuite.user.access".
Definition refreshTokenAudience : string := "babelsuite.user.refresh".
Definition tokenKeyID : string := "v1".

(** [Claims] with the registered claims the code sets. *)
Record Claims := mkClaims {
  UserID : string;
  WorkspaceID : string;
  IsAdmin : bool;
  Groups : list string;
  Provider : string;
  ExpiresAt : Z;
  IssuedAt : Z;
  Issuer : string;
  Audience : list string;
}.

(** The part of a token's header the key function looks at. *)
Record header := mkHeader { is_hmac : bool; kid : option string }.

(** The token library: [ParseWithClaims] for a key function, a reading of the
    clock, an issuer and an audience; [SignedString] for the claims and the
    key identifier; and the rounding of [NewNumericDate]. *)
Record jwt_library := mkLibrary {
  ParseWithClaims : (header -> goerr + string) -> Z -> string -> string -> string ->
    goerr + (Claims * bool);
  SignedString : Claims -> string -> string -> goerr + string;
  NewNumericDate : Z -> Z;
}.

Record JWTService := mkJWT { secret : string; blocklist : gmap string Z }.
Definition NewJWT (s : string) : JWTService := mkJWT s ∅.

Section Tokens.
Context (lib : jwt_library) (hashToken : string -> string).

Definition access_claims (now issued : Z) (userID workspaceID : string) (isAdmin : bool)
    (groups : list string) (provider : string) : Claims :=
  mkClaims userID workspaceID isAdmin groups provider (NewNumericDate lib (now + TokenTTL))
    (NewNumericDate lib issued) tokenIssuer [tokenAudience].
Definition refresh_claims (now issued : Z) (userID workspaceID : string) (isAdmin : bool)
    (provider : string) : Claims :=
  mkClaims userID workspaceID isAdmin [] provider (NewNumericDate lib (now + RefreshTokenTTL))
    (NewNumericDate lib issued) tokenIssuer [refreshTokenAudience].

(** The token and when it expires. *)
Definition Sign (now issued : Z) (userID workspaceID : string) (isAdmin : bool)
    (groups : list string) (provider : string) (j : JWTService) : goerr + (string * Z) :=
  check token := SignedString lib
    (access_claims now issued userID workspaceID isAdmin groups provider) tokenKeyID (secret j) in
  inr (token, now + TokenTTL).
Definition SignRefresh (now issued : Z) (userID workspaceID : string) (isAdmin : bool)
    (provider : string) (j : JWTService) : goerr + (string * Z) :=
  check token := SignedString lib
    (refresh_claims now issued userID workspaceID isAdmin provider) tokenKeyID (secret j) in
  inr (token, now + RefreshTokenTTL).

Definition keyfunc (j : JWTService) (h : header) : goerr + string :=
  if negb (is_hmac h) then inl (ErrText "unexpected signing method")
  else match kid h with
       | Some k => if negb (bool_decide (k = tokenKeyID)) then inl (ErrText "unrecognized token key")
                   else inr (secret j)
       | None => inr (secret j)
       end.

(** ** Revocation *)

(** [isRevoked]: what the list says at [now], and, when the entry is old, the
    list without it. *)
Definition is_listed (now : Z) (token : string) (j : JWTService) : bool :=
  match blocklist j !! hashToken token with
  | None => false
  | Some exp => negb (After now exp)
  end.
Definition sees_old (now : Z) (token : string) (j : JWTService) : bool :=
  match blocklist j !! hashToken token with
  | None => false
  | Some exp => After now exp
  end.
Definition forget (h : string) (j : JWTService) : JWTService := mkJWT (secret j) (delete h (blocklist j)).
Definition isRevoked (now : Z) (token : string) (j : JWTService) : JWTService * bool :=
  (if sees_old now token j then forget (hashToken token) j else j, is_listed now token j).

Definition pruneExpiredLocked (now : Z) (list : gmap string Z) : gmap string Z :=
  base.filter (fun p => ~ p.2 < now) list.
(** [Revoke]: the expiry is computed at [read_at], before the lock. *)
Definition Revoke (read_at now : Z) (token : string) (j : JWTService) : JWTService :=
  mkJWT (secret j)
    (pruneExpiredLocked now (<[hashToken token := read_at + RefreshTokenTTL]> (blocklist j))).

(** [Verify] and [VerifyRefresh], which differ in the audience and the texts:
    the token is parsed at [parsed_at] and looked up at [checked_at]. *)
Definition verify_for (audience invalid revoked : string) (parsed_at checked_at : Z) (token : string)
    (j : JWTService) : JWTService * (goerr + Claims) :=
  match ParseWithClaims lib (keyfunc j) parsed_at tokenIssuer audience token with
  | inl e => (j, inl e)
  | inr (claims, valid) =>
      if negb valid then (j, inl (ErrText invalid))
      else let (j, listed) := isRevoked checked_at token j in
           if listed then (j, inl (ErrText revoked)) else (j, inr claims)
  end.
Definition Verify : Z -> Z -> string -> JWTService -> JWTService * (goerr + Claims) :=
  verify_for tokenAudience "invalid token" "token has been revoked".
Definition VerifyRefresh : Z -> Z -> string -> JWTService -> JWTService * (goerr + Claims) :=
  verify_for refreshTokenAudience "invalid refresh token" "refresh token has been revoked".

(** ** Interleavings *)

(** The service and the hashes that a lookup has found old and is about to
    drop. *)
Record shared := mkShared { service : JWTService; dropping : list string }.

(** What is known of a token: when it expires, by its claims. *)
Context (expiry : string -> Z).

(** The critical sections, with the clock before and after.  A token is revoked
    once it was issued, and none lives longer than [RefreshTokenTTL]. *)
Inductive token_step : Z * shared -> Z * shared -> Prop :=
  | step_revoke T now read_at token s :
      T <= now -> expiry token <= read_at + RefreshTokenTTL ->
      token_step (T, s) (now, mkShared (Revoke read_at now token (service s)) (dropping s))
  | step_lookup T now token s :
      T <= now ->
      token_step (T, s) (now, mkShared (service s)
        (if sees_old now token (service s) then hashToken token :: dropping s else dropping s))
  | step_forget T now h pre post s :
      T <= now -> dropping s = pre ++ h :: post ->
      token_step (T, s) (now, mkShared (forget h (service s)) (pre ++ post)).

(** A token's entry outlives the token, and is dropped after it expired only. *)
Definition entry_outlives (token : string) (st : Z * shared) : Prop :=
  (forall e, blocklist (service st.2) !! hashToken token = Some e -> expiry token <= e) /\
  (hashToken token ∈ dropping st.2 -> expiry token < st.1).
Definition is_barred (token : string) (st : Z * shared) : Prop :=
  is_Some (blocklist (service st.2) !! hashToken token) \/ expiry token < st.1.

Lemma prune_lookup now list h e :
  pruneExpiredLocked now list !! h = Some e <-> list !! h = Some e /\ ~ e < now.
Proof. apply map_lookup_filter_Some. Qed.

Lemma prune_barred now list h e : list !! h = Some e ->
  is_Some (pruneExpiredLocked now list !! h) \/ e < now.
Proof. intros He. destruct (decide (e < now)); [by right|]. left. exists e. by apply prune_lookup. Qed.

Lemma token_step_clock a b : token_step a b -> a.1 <= b.1.
Proof. by destruct 1. Qed.

Lemma entry_outlives_step token a b
    (Hinj : forall t, hashToken t = hashToken token -> t = token) :
  token_step a b -> entry_outlives token a -> entry_outlives token b.
Proof.
  intros Hstep [He Hd]. pose proof (token_step_clock _ _ Hstep) as Hclock.
  destruct Hstep as [T now read_at t s HT Hexp|T now t s HT|T now h pre post s HT Hdrop];
    cbn [fst snd] in *; split; cbn [service dropping fst snd Revoke blocklist forget].
  - intros e Hl. apply prune_lookup in Hl as [Hl _].
    destruct (decide (hashToken t = hashToken token)) as [Hh|Hh].
    + rewrite Hh, lookup_insert_eq in Hl. injection Hl as <-. by rewrite <-(Hinj t Hh).
    + rewrite lookup_insert_ne in Hl by done. by apply He.
  - intros Hin. specialize (Hd Hin). lia.
  - done.
  - destruct (sees_old now t (service s)) eqn:Hold; [|intros Hin; specialize (Hd Hin); lia].
    intros [Hh|Hin]%elem_of_cons; [|specialize (Hd Hin); lia].
    unfold sees_old in Hold. rewrite <-Hh in Hold.
    destruct (blocklist (service s) !! hashToken token) as [e|] eqn:Hl; [|done].
    apply Z.ltb_lt in Hold. specialize (He e eq_refl). lia.
  - intros e Hl. apply lookup_delete_Some in Hl as [_ Hl]. by apply He.
  - intros Hin. specialize (Hd ltac:(rewrite Hdrop; set_solver)). lia.
Qed.

Lemma is_barred_step token a b
    (Hinj : forall t, hashToken t = hashToken token -> t = token) :
  entry_outlives token a -> token_step a b -> is_barred token a -> is_barred token b.
Proof.
  intros [He Hd] Hstep [[e Hl]|Hx];
    [|right; pose proof (token_step_clock _ _ Hstep); lia].
  specialize (He e Hl).
  destruct Hstep as [T now read_at t s HT Hexp|T now t s HT|T now h pre post s HT Hdrop];
    unfold is_barred in *; cbn [fst snd service dropping Revoke blocklist forget] in *.
  - destruct (decide (hashToken t = hashToken token)) as [Hh|Hh].
    + rewrite Hh. destruct (prune_barred now (<[hashToken token := read_at + RefreshTokenTTL]>
        (blocklist (service s))) (hashToken token) _ (lookup_insert_eq _ _ _)) as [H|H]; [by left|].
      right. rewrite (Hinj t Hh) in Hexp. lia.
    + destruct (prune_barred now (<[hashToken t := read_at + RefreshTokenTTL]>
        (blocklist (service s))) (hashToken token) e) as [H|H];
        [by rewrite lookup_insert_ne|by left|right; lia].
  - left. by eexists.
  - destruct (decide (h = hashToken token)) as [->|Hh].
    + right. specialize (Hd ltac:(rewrite Hdrop; set_solver)). lia.
    + left. rewrite lookup_delete_ne by done. by eexists.
Qed.

Lemma barred_run token a b (Hinj : forall t, hashToken t = hashToken token -> t = token) :
  rtc token_step a b -> entry_outlives token a ->
  entry_outlives token b /\ (is_barred token a -> is_barred token b).
Proof.
  induction 1 as [|a b c Hab Hbc IH]; intros Ha; [done|].
  destruct (IH (entry_outlives_step token a b Hinj Hab Ha)) as [Hc Hb]. split; [done|].
  intros H. by apply Hb, (is_barred_step token a b).
Qed.

Lemma barred_rejected token T s parsed_at checked_at audience invalid revoked
    (Hparse : forall kf now issuer audience claims valid,
       ParseWithClaims lib kf now issuer audience token = inr (claims, valid) -> now < expiry token) :
  entry_outlives token (T, s) -> is_barred token (T, s) -> T <= parsed_at ->
  expiry token <= parsed_at \/ checked_at <= expiry token ->
  exists e, (verify_for audience invalid revoked parsed_at checked_at token (service s)).2 = inl e.
Proof.
  intros [He _] Hb HT Hwhen. unfold verify_for.
  destruct (ParseWithClaims _ _ _ _ _ _) as [e|[claims valid]] eqn:Hp; [by eexists|].
  apply Hparse in Hp. destruct (negb valid); [by eexists|]. unfold isRevoked, is_listed.
  destruct Hb as [[e Hl]|Hx]; cbn [fst snd] in *; [|lia]. rewrite Hl. specialize (He e Hl).
  unfold After. rewrite (proj2 (Z.ltb_ge e checked_at)) by lia. cbn [negb]. by eexists.
Qed.

(** A revoked token is never accepted again: in every interleaving of
    lookups and revocations, from the end of [Revoke] on, both checks refuse
    it, first because it is listed and, once the list forgets it, because it
    has expired. *)
Theorem revoked_stays_revoked (s : string) (token : string) (T0 T1 T2 read_at now : Z) (s1 s2 : shared)
    (parsed_at checked_at : Z)
    (Hinj : forall t, hashToken t = hashToken token -> t = token)
    (Hparse : forall kf now issuer audience claims valid,
       ParseWithClaims lib kf now issuer audience token = inr (claims, valid) -> now < expiry token)
    (Hbefore : rtc token_step (T0, mkShared (NewJWT s) []) (T1, s1)) (Hnow : T1 <= now)
    (Hlife : expiry token <= read_at + RefreshTokenTTL)
    (Hafter : rtc token_step
       (now, mkShared (Revoke read_at now token (service s1)) (dropping s1)) (T2, s2))
    (Hclock : T2 <= parsed_at) (Hwhen : expiry token <= parsed_at \/ checked_at <= expiry token) :
  (exists e, (Verify parsed_at checked_at token (service s2)).2 = inl e) /\
  (exists e, (VerifyRefresh parsed_at checked_at token (service s2)).2 = inl e).
Proof.
  assert (entry_outlives token (T0, mkShared (NewJWT s) [])) as H0.
  { split; cbn [fst snd service dropping NewJWT blocklist];
      [intros e He; by rewrite lookup_empty in He|by intros ?%not_elem_of_nil]. }
  destruct (barred_run token _ _ Hinj Hbefore H0) as [H1 _].
  assert (token_step (T1, s1) (now, mkShared (Revoke read_at now token (service s1)) (dropping s1)))
    as Hrevoke by by constructor.
  pose proof (entry_outlives_step token _ _ Hinj Hrevoke H1) as H1'.
  destruct (barred_run token _ _ Hinj Hafter H1') as [H2 Hb].
  assert (is_barred token (now, mkShared (Revoke read_at now token (service s1)) (dropping s1))) as Hbar.
  { unfold is_barred. cbn [fst snd service Revoke blocklist].
    destruct (prune_barred now (<[hashToken token := read_at + RefreshTokenTTL]> (blocklist (service s1)))
      (hashToken token) _ (lookup_insert_eq _ _ _)) as [H|H]; [by left|right; lia]. }
  split; apply (barred_rejected token T2 s2); auto.
Qed.

(** The tokens the service signs are such: they expire within
    [RefreshTokenTTL]. *)
Lemma signed_lifetime (Hround : forall t, NewNumericDate lib t <= t) now issued u w a g p :
  ExpiresAt (access_claims now issued u w a g p) <= now + RefreshTokenTTL /\
  ExpiresAt (refresh_claims now issued u w a p) <= now + RefreshTokenTTL.
Proof.
  cbn [ExpiresAt access_claims refresh_claims]. split.
  - pose proof (Hround (now + TokenTTL)). unfold TokenTTL, RefreshTokenTTL, hour, minute, second in *. lia.
  - apply Hround.
Qed.
End Tokens.

(** ** One-time codes *)
Record pendingEntry := mkPending {
  token : string;
  expiresAt : Z;
  createdAt : Z;
  refreshToken : string;
  refreshExpiresAt : Z;
}.

Definition pendingTokenTTL : Z := 90 * second.
Notation pendingTokenStore := (gmap string pendingEntry).
Definition newPendingTokenStore : pendingTokenStore := ∅.

(** The entries that can still be exchanged. *)
Definition drop_expired (now : Z) (p : pendingTokenStore) : pendingTokenStore :=
  base.filter (fun kv : string * pendingEntry => ~ createdAt kv.2 + pendingTokenTTL < now) p.

(** [store]; [code] is what the random source gave. *)
Definition store (now : Z) (code : goerr + string) (tok : string) (expires : Z) (refresh : string)
    (refresh_expires : Z) (p : pendingTokenStore) : pendingTokenStore * (goerr + string) :=
  match code with
  | inl e => (p, inl e)
  | inr code =>
      (<[code := mkPending tok expires now refresh refresh_expires]> (drop_expired now p), inr code)
  end.

Definition consume (now : Z) (code : string) (p : pendingTokenStore)
    : pendingTokenStore * option pendingEntry :=
  match p !! code with
  | None => (p, None)
  | Some entry =>
      (delete code p, if After now (createdAt entry + pendingTokenTTL) then None else Some entry)
  end.

(** The calls, with a table that has every entry stored and not asked for
    since; the code never keeps it. *)
Inductive exchanges : Z -> pendingTokenStore -> gmap string pendingEntry -> Prop :=
  | exchanges_new T : exchanges T newPendingTokenStore ∅
  | exchanges_store T p table now code tok expires refresh refresh_expires :
      exchanges T p table -> T <= now ->
      exchanges now (store now (inr code) tok expires refresh refresh_expires p).1
        (<[code := mkPending tok expires now refresh refresh_expires]> table)
  | exchanges_consume T p table now code :
      exchanges T p table -> T <= now ->
      exchanges now (consume now code p).1 (delete code table).

(** An entry can only be missing from the store once it is too old. *)
Definition same_live (T : Z) (p : pendingTokenStore) (table : gmap string pendingEntry) : Prop :=
  forall code, p !! code = table !! code \/
    (p !! code = None /\ exists e, table !! code = Some e /\ createdAt e + pendingTokenTTL < T).

Lemma same_live_later T T' p table : T <= T' -> same_live T p table -> same_live T' p table.
Proof.
  intros HT H code. destruct (H code) as [|(? & e & ? & ?)]; [by left|].
  right. split; [done|]. exists e. split; [done|lia].
Qed.

Lemma same_live_insert T p table code e :
  same_live T p table -> same_live T (<[code := e]> p) (<[code := e]> table).
Proof.
  intros H c. destruct (decide (code = c)) as [->|Hc]; [left; by rewrite !lookup_insert_eq|].
  rewrite !lookup_insert_ne by done. apply H.
Qed.

Lemma same_live_delete T p table code :
  same_live T p table -> same_live T (delete code p) (delete code table).
Proof.
  intros H c. destruct (decide (code = c)) as [->|Hc]; [left; by rewrite !lookup_delete_eq|].
  rewrite !lookup_delete_ne by done. apply H.
Qed.

Lemma same_live_drop T p table : same_live T p table -> same_live T (drop_expired T p) table.
Proof.
  intros H c. destruct (drop_expired T p !! c) as [e|] eqn:Hd.
  - apply map_lookup_filter_Some in Hd as [Hp _]. rewrite <-Hp. destruct (H c) as [|[Hn _]]; [by left|].
    by rewrite Hn in Hp.
  - destruct (H c) as [Heq|[_ Hr]]; [|by right]. destruct (p !! c) as [e|] eqn:Hp; [|by left].
    right. split; [done|]. exists e. split; [done|].
    apply map_lookup_filter_None in Hd as [Hd|Hd]; [congruence|]. specialize (Hd e Hp). cbn in Hd. lia.
Qed.

Lemma exchanges_live T p table : exchanges T p table -> same_live T p table.
Proof.
  induction 1 as [T|T p table now code tok expires refresh refresh_expires H IH HT|T p table now code H IH HT].
  - intros code. by left.
  - cbn [store fst]. apply same_live_insert, same_live_drop. by apply (same_live_later T).
  - apply (same_live_later T now) in IH; [|done]. unfold consume.
    destruct (p !! code) as [e|] eqn:Hp; cbn [fst]; [by apply same_live_delete|].
    intros c. destruct (decide (code = c)) as [->|Hc]; [left; by rewrite lookup_delete_eq|].
    rewrite lookup_delete_ne by done. apply IH.
Qed.

Definition live_at (now : Z) (e : option pendingEntry) : option pendingEntry :=
  match e with
  | Some e => if After now (createdAt e + pendingTokenTTL) then None else Some e
  | None => None
  end.

(** A code gives the session it was stored with exactly once, and only
    within ninety seconds: whatever was dropped in between, [consume] answers
    as if every session were kept until it is asked for, and the same code
    gives nothing afterwards. *)
Theorem pending_code_once (T : Z) (p : pendingTokenStore) (table : gmap string pendingEntry)
    (now later : Z) (code : string) (H : exchanges T p table) (Ht : T <= now) :
  (consume now code p).2 = live_at now (table !! code) /\
  (consume later code (consume now code p).1).2 = None.
Proof.
  pose proof (exchanges_live T p table H) as Hl.
  apply (same_live_later T now) in Hl; [|done]. split.
  - unfold consume. destruct (Hl code) as [Heq|(Hn & e & He & Hold)].
    + rewrite <-Heq. by destruct (p !! code).
    + rewrite Hn, He. cbn [snd live_at]. unfold After. by rewrite (proj2 (Z.ltb_lt _ _)).
  - unfold consume. destruct (p !! code) as [e|] eqn:Hp; cbn [fst]; [by rewrite lookup_delete_eq|].
    by rewrite Hp.
Qed.

(** ** Witnesses *)

(** A library that accepts every token until the instant 100. *)
Definition toy_library : jwt_library :=
  mkLibrary
    (fun _ now _ _ _ => if now <? 100 then inr (mkClaims "u" "w" false [] "password" 100 0 "" [], true)
                        else inl (ErrText "token is expired"))
    (fun _ _ secret => inr secret) (fun t => t).

Lemma revoked_stays_revoked_witness :
  (exists e, (Verify toy_library id 50 50 "t" (Revoke id 7 7 "t" (NewJWT "s"))).2 = inl e) /\
  (exists c, (Verify toy_library id 50 50 "t" (NewJWT "s")).2 = inr c).
Proof.
  split; [|eexists; vm_compute; reflexivity].
  refine (proj1 (revoked_stays_revoked toy_library id (fun _ => 100) "s" "t" 0 0 7 7 7
    (mkShared (NewJWT "s") []) (mkShared (Revoke id 7 7 "t" (NewJWT "s")) []) 50 50 _ _ _ _ _ _ _ _)).
  - done.
  - intros kf now issuer audience claims valid Hp. cbn in Hp. by destruct (Z.ltb_spec now 100).
  - apply rtc_refl.
  - lia.
  - vm_compute. discriminate.
  - apply rtc_refl.
  - lia.
  - right. lia.
Defined.

Definition one_pending : pendingTokenStore :=
  (store 3 (inr "code") "tok" 100 "ref" 200 newPendingTokenStore).1.

Lemma pending_code_once_witness :
  (consume 9 "code" one_pending).2 = Some (mkPending "tok" 100 3 "ref" 200) /\
  (consume 10 "code" (consume 9 "code" one_pending).1).2 = None.
Proof.
  exact (pending_code_once 3 one_pending (<["code" := mkPending "tok" 100 3 "ref" 200]> ∅) 9 10 "code"
    (exchanges_store 0 newPendingTokenStore ∅ 3 "code" "tok" 100 "ref" 200 (exchanges_new 0) ltac:(lia))
    ltac:(lia)).
Defined.
End Sessions.
