(* ===== verification/AuthHandlers.v ===== *)
(** The sign-up, sign-in and session handlers, [src/backend/internal/auth/handler.go].

    A handler is a function from the state of the service and a decoded
    request to the new state and the response; signing in is also the two parts
    it consists of, before and after the comparison of the password, and the
    theorem about it interleaves those.  The store of users and
    workspaces is an interface with the laws the handlers rely on; password
    hashing, the token library, the random identifiers and the readings of the
    clock are arguments.  The metrics are left out. *)
From Stdlib Require Import ZArith Lia Ascii.
From S2P Require Import Prelude GoStrings Limits Sessions.
Import GoStrings.

Module AuthHandlers.

(** ** Data *)
Record User := mkUser {
  ID : string;
  UserWorkspace : string;
  Username : string;
  Email : string;
  FullName : string;
  Admin : bool;
  PassHash : string;
  UserCreatedAt : Z;
}.
Record Workspace := mkWorkspace {
  WorkspaceID : string; Slug : string; WorkspaceName : string; WorkspaceCreatedAt : Z }.

Definition ErrNotFound : goerr := ErrText "not found".
Definition ErrDuplicate : goerr := ErrText "already exists".

(** The methods of [store.Store] the handlers call. *)
Class Store (S : Type) := {
  CreateWorkspace : Workspace -> S -> S * option goerr;
  DeleteWorkspace : string -> S -> S * option goerr;
  GetWorkspaceByID : string -> S -> goerr + Workspace;
  CreateUser : User -> S -> S * option goerr;
  GetUserByID : string -> S -> goerr + User;
  GetUserByEmail : string -> S -> goerr + User;
}.

(** What the handlers rely on: a failed insertion changes nothing, deleting a
    workspace undoes its creation, and what was inserted is found. *)
Class StoreLaws (S : Type) `{Store S} := {
  create_workspace_fails w s s' e : CreateWorkspace w s = (s', Some e) -> s' = s;
  create_user_fails u s s' e : CreateUser u s = (s', Some e) -> s' = s;
  delete_created w s s' : CreateWorkspace w s = (s', None) ->
    (DeleteWorkspace (WorkspaceID w) s').1 = s;
  get_created_workspace w s s' : CreateWorkspace w s = (s', None) ->
    GetWorkspaceByID (WorkspaceID w) s' = inr w;
  get_created_user u s s' : CreateUser u s = (s', None) -> GetUserByEmail (Email u) s' = inr u;
  create_user_workspaces u s s' id : CreateUser u s = (s', None) ->
    GetWorkspaceByID id s' = GetWorkspaceByID id s;
}.

Record Config := mkConfig { SignUpEnabled : bool; PasswordAuthEnabled : bool }.

Record signUpRequest := mkSignUp { signUpName : string; signUpEmail : string; signUpPassword : string }.
Record signInRequest := mkSignIn { signInEmail : string; signInPassword : string }.
(** What [signIn] keeps on its stack while it compares the password. *)
Record attempt := mkAttempt { tryEmail : string; tryPassword : string; tryUser : option User }.

Record authResponse := mkAuth {
  Token : string;
  AuthUser : User;
  AuthWorkspace : Workspace;
  AuthExpiresAt : Z;
  RefreshToken : string;
  RefreshExpiresAt : Z;
}.

(** [writeError] and [writeJSON]. *)
Inductive response :=
  | Failed (status : Z) (message : string)
  | Session (status : Z) (body : authResponse)
  | SignedOut.

(** ** Names *)
Definition byte_between (lo hi : Z) (c : ascii) : bool := (lo <=? code c) && (code c <=? hi).
Definition is_upper (c : ascii) : bool := byte_between 65 90 c.
Definition is_lower (c : ascii) : bool := byte_between 97 122 c.
Definition is_digit (c : ascii) : bool := byte_between 48 57 c.
Definition re_space (c : ascii) : bool :=
  existsb (Z.eqb (code c)) [9; 10; 12; 13; 32].

(** [emailRE]: text, an at sign, text with a dot inside; no blanks and no
    other at sign. *)
Definition email_matches (email : string) : bool :=
  match Cut email "@" with
  | (local, domain, found) =>
      found && negb (existsb re_space (of_string email)) && negb (Contains domain "@") &&
      negb (bool_decide (local = "")) &&
      bool_decide ("."%char ∈ removelast (tail (of_string domain)))
  end.

(** [ReplaceAllString] of a run of bytes of a class by a dash. *)
Fixpoint squeeze (inside : bool) (class : ascii -> bool) (l : bytes) : bytes :=
  match l with
  | [] => []
  | c :: rest =>
      if class c then if inside then squeeze true class rest else "-"%char :: squeeze true class rest
      else c :: squeeze false class rest
  end.
Definition slugify (value : string) : string :=
  let value := of_string (ToLower (TrimSpace value)) in
  let value := squeeze false re_space value in
  let value := squeeze false (fun c => negb (is_lower c || is_digit c)) value in
  Trim (to_string value) "-".

Definition emailPrefix (email : string) : string :=
  match index_bytes "@" (of_string email) with
  | Some (S at_sign) => slice_to email (Z.of_nat (S at_sign))
  | _ => email
  end.

(** The first of [strings.Fields]. *)
Fixpoint first_field (l : bytes) : bytes :=
  match l with
  | [] => []
  | c :: l1 =>
      if ascii_space c then []
      else match l1 with
      | [] => [c]
      | d :: l2 =>
          if space2 c d then []
          else match l2 with
          | [] => c :: first_field l1
          | e :: _ => if space3 c d e then [] else c :: first_field l1
          end
      end
  end.
Definition firstName (fullName : string) : string :=
  match first_field (of_string (TrimSpace fullName)) with
  | [] => "Your"
  | name => to_string name
  end.

Definition usernameBase (fullName email : string) : string :=
  let candidate := slugify fullName in
  let candidate := if bool_decide (candidate = "") then slugify (emailPrefix email) else candidate in
  if bool_decide (candidate = "") then "member" else candidate.

Definition weak_password (password : string) : bool :=
  negb (existsb is_upper (of_string password)) || negb (existsb is_lower (of_string password)) ||
  negb (existsb is_digit (of_string password)).

Section Handlers.
Context {S : Type} `{store : Store S}.

(** Password hashing, the token library and its hash, and the [n]-th random
    identifier a request draws. *)
Context (GenerateFromPassword : string -> goerr + string)
        (CompareHashAndPassword : string -> string -> bool)
        (lib : Sessions.jwt_library) (hashToken : string -> string)
        (NewString : nat -> string).

(** ** Accounts *)

(** The identifiers drawn before an attempt, and the base name of an attempt,
    which the later ones extend. *)
Definition drawn_before (first attempt : nat) : nat :=
  match attempt with O => first | _ => first + 2 * attempt - 1 end.
Definition attempt_name (base : string) (first attempt : nat) : string :=
  match attempt with
  | O => base
  | _ => base +:+ "-" +:+ slice_to (NewString (drawn_before first attempt)) 6
  end.
Definition attempt_id (first attempt : nat) : string :=
  NewString (match attempt with O => first | _ => 1 + drawn_before first attempt end)%nat.

(** The loops make [more] more attempts after [attempt] of them. *)
Fixpoint workspace_loop (clock : nat -> Z) (more attempt : nat) (baseSlug fullName : string) (s : S)
    : S * nat * (goerr + Workspace) :=
  match more with
  | O => (s, drawn_before 0 attempt, inl ErrDuplicate)
  | Datatypes.S more =>
      let workspace := mkWorkspace (attempt_id 0 attempt) (attempt_name baseSlug 0 attempt)
                         (firstName fullName +:+ "'s workspace") (clock attempt) in
      match CreateWorkspace workspace s with
      | (s, None) => (s, drawn_before 0 (attempt + 1), inr workspace)
      | (s, Some e) =>
          if errors_Is e ErrDuplicate then workspace_loop clock more (attempt + 1) baseSlug fullName s
          else (s, drawn_before 0 (attempt + 1), inl e)
      end
  end.
Definition createWorkspace (clock : nat -> Z) (fullName email : string) (s : S) : S * nat * (goerr + Workspace) :=
  let baseSlug := slugify (FirstNonEmpty [fullName; emailPrefix email]) in
  let baseSlug := if bool_decide (baseSlug = "") then "workspace" else baseSlug in
  workspace_loop clock 5 0 baseSlug fullName s.

Fixpoint user_loop (clock : nat -> Z) (more attempt first : nat)
    (baseUsername fullName email passHash workspaceID : string)
    (isAdmin : bool) (s : S) : S * (goerr + User) :=
  match more with
  | O => (s, inl ErrDuplicate)
  | Datatypes.S more =>
      let user := mkUser (attempt_id first attempt) workspaceID (attempt_name baseUsername first attempt)
                    email fullName isAdmin passHash (clock attempt) in
      match CreateUser user s with
      | (s, None) => (s, inr user)
      | (s, Some e) =>
          if errors_Is e ErrDuplicate then
            user_loop clock more (attempt + 1) first baseUsername fullName email passHash workspaceID isAdmin s
          else (s, inl e)
      end
  end.
Definition createUser (clock : nat -> Z) (first : nat) (fullName email passHash workspaceID : string)
    (isAdmin : bool) (s : S) : S * (goerr + User) :=
  let baseUsername := usernameBase fullName email in
  let baseUsername := if bool_decide (baseUsername = "") then "member" else baseUsername in
  user_loop clock 5 0 first baseUsername fullName email passHash workspaceID isAdmin s.

(** ** The handlers *)

(** [Handler] with the state it keeps; [accounts] is the store.  The
    configuration is an argument of the handlers that read it. *)
Record Handler := mkHandler {
  accounts : S;
  jwt : Sessions.JWTService;
  pending : Sessions.pendingTokenStore;
  lockout : Limits.accountLockout;
}.
Definition set_accounts (s : S) (h : Handler) : Handler := mkHandler s (jwt h) (pending h) (lockout h).
Definition set_jwt (j : Sessions.JWTService) (h : Handler) : Handler :=
  mkHandler (accounts h) j (pending h) (lockout h).
Definition set_lockout (l : Limits.accountLockout) (h : Handler) : Handler :=
  mkHandler (accounts h) (jwt h) (pending h) l.

Definition no_session : response := Failed 500 "Could not create your session right now.".

(** The two tokens of a session, signed at the readings of the clock from [i]
    on. *)
Definition new_session (clock : nat -> Z) (i : nat) (status : Z) (user : User) (workspace : Workspace)
    (groups : list string) (provider : string) (h : Handler) : response :=
  match Sessions.Sign lib (clock i) (clock (i + 1)%nat) (ID user) (UserWorkspace user) (Admin user)
          groups provider (jwt h) with
  | inl _ => no_session
  | inr (token, expiresAt) =>
      match Sessions.SignRefresh lib (clock (i + 2)%nat) (clock (i + 3)%nat) (ID user)
              (UserWorkspace user) (Admin user) provider (jwt h) with
      | inl _ => no_session
      | inr (refresh, refreshExpiresAt) =>
          Session status (mkAuth token user workspace expiresAt refresh refreshExpiresAt)
      end
  end.

Definition normalize (email : string) : string := ToLower (TrimSpace email).

(** The checks of [signUp] on the fields. *)
Definition sign_up_refusal (fullName email password : string) : option response :=
  if bool_decide (fullName = "") || bool_decide (email = "") || bool_decide (password = "") then
    Some (Failed 400 "Full name, email, and password are required.")
  else if negb (email_matches email) then Some (Failed 400 "Enter a valid email address.")
  else if (String.length password <? 8)%nat then
    Some (Failed 400 "Password must be at least 8 characters.")
  else if weak_password password then
    Some (Failed 400 "Password must contain at least one uppercase letter, one lowercase letter, and one number.")
  else None.

Definition no_account : response := Failed 500 "Could not create your account right now.".
Definition account_exists : response :=
  Failed 409 "An account already exists for that email address.".

(** The attempts at a workspace and at a user read the clock first, five times
    each at most, then the two tokens. *)
Definition signUp (config : Config) (clock : nat -> Z) (body : option signUpRequest) (h : Handler)
    : Handler * response :=
  if negb (SignUpEnabled config) then (h, Failed 403 "Local sign-up is disabled.")
  else match body with
  | None => (h, Failed 400 "Invalid request body.")
  | Some req =>
      let fullName := TrimSpace (signUpName req) in
      let email := normalize (signUpEmail req) in
      match sign_up_refusal fullName email (signUpPassword req) with
      | Some refusal => (h, refusal)
      | None =>
          match GetUserByEmail email (accounts h) with
          | inr _ => (h, account_exists)
          | inl e =>
              if negb (errors_Is e ErrNotFound) then (h, no_account)
              else match GenerateFromPassword (signUpPassword req) with
              | inl _ => (h, no_account)
              | inr passHash =>
                  match createWorkspace clock fullName email (accounts h) with
                  | (s, _, inl _) =>
                      (set_accounts s h, Failed 500 "Could not create your workspace right now.")
                  | (s, drawn, inr workspace) =>
                      match createUser (fun attempt => clock (5 + attempt)%nat) drawn fullName email passHash
                              (WorkspaceID workspace) false s with
                      | (s, inl e) =>
                          let s := (DeleteWorkspace (WorkspaceID workspace) s).1 in
                          (set_accounts s h, if errors_Is e ErrDuplicate then account_exists else no_account)
                      | (s, inr user) =>
                          let h := set_accounts s h in
                          (h, new_session clock 10 201 user workspace [] "password" h)
                      end
                  end
              end
          end
      end
  end.

(** [signIn] up to the comparison of the password, which takes the lock of the
    lockout once, and from the comparison on, where it takes it again: other
    requests can run in between.  An [attempt] is what the first half leaves
    for the second; without a user the password is compared with
    [dummyPasswordHash]. *)
Definition incorrect : response := Failed 401 "Incorrect email or password.".
Definition no_sign_in : response := Failed 500 "Could not sign you in right now.".
Definition record_failed (clock : nat -> Z) (email : string) (h : Handler) : Handler :=
  set_lockout (Limits.record_failure (clock 1%nat) (clock 2%nat) email (lockout h)) h.

Definition signIn_check (config : Config) (now : Z) (body : option signInRequest) (h : Handler)
    : response + attempt :=
  if negb (PasswordAuthEnabled config) then inl (Failed 403 "Local password sign-in is disabled.")
  else match body with
  | None => inl (Failed 400 "Invalid request body.")
  | Some req =>
      let email := normalize (signInEmail req) in
      if bool_decide (email = "") || bool_decide (signInPassword req = "") then
        inl (Failed 400 "Email and password are required.")
      else if Limits.locked now email (lockout h) then
        inl (Failed 429 "Account temporarily locked due to too many failed sign-in attempts. Please try again later.")
      else match GetUserByEmail email (accounts h) with
      | inl e =>
          if errors_Is e ErrNotFound then inr (mkAttempt email (signInPassword req) None)
          else inl no_sign_in
      | inr user => inr (mkAttempt email (signInPassword req) (Some user))
      end
  end.

(** The last result tells whether the password was right. *)
Definition signIn_finish (clock : nat -> Z) (a : attempt) (h : Handler) : Handler * response * bool :=
  match tryUser a with
  | None => (record_failed clock (tryEmail a) h, incorrect, false)
  | Some user =>
      if negb (CompareHashAndPassword (PassHash user) (tryPassword a)) then
        (record_failed clock (tryEmail a) h, incorrect, false)
      else
        let h := set_lockout (Limits.reset (tryEmail a) (lockout h)) h in
        match GetWorkspaceByID (UserWorkspace user) (accounts h) with
        | inl _ => (h, no_sign_in, true)
        | inr workspace => (h, new_session clock 3 200 user workspace [] "password" h, true)
        end
  end.

(** [signIn] when nothing runs in between. *)
Definition signIn (config : Config) (clock : nat -> Z) (body : option signInRequest) (h : Handler)
    : Handler * response :=
  match signIn_check config (clock 0%nat) body h with
  | inl refusal => (h, refusal)
  | inr a => (signIn_finish clock a h).1
  end.

(** [signOut], for the bearer of the request's header. *)
Definition signOut (clock : nat -> Z) (authorization : string) (h : Handler) : Handler * response :=
  let bearer := TrimSpace (TrimPrefix authorization "Bearer ") in
  (if bool_decide (bearer = "") then h
   else set_jwt (Sessions.Revoke hashToken (clock 0%nat) (clock 1%nat) bearer (jwt h)) h, SignedOut).

(** [refreshToken] up to the revocation of the token, and from it on: other
    requests can run in between.  [Parse] is the check of an identifier. *)
Context (Parse : string -> goerr + string).

Definition bad_refresh : response := Failed 401 "Refresh token is invalid or has expired.".
Definition refresh_check (clock : nat -> Z) (body : option string) (h : Handler)
    : Handler * (response + (string * Sessions.Claims * User * Workspace)) :=
  match body with
  | None => (h, inl (Failed 400 "Invalid request body."))
  | Some raw =>
      let token := TrimSpace raw in
      if bool_decide (token = "") then (h, inl (Failed 400 "Refresh token is required."))
      else
        let (j, verified) :=
          Sessions.VerifyRefresh lib hashToken (clock 0%nat) (clock 1%nat) token (jwt h) in
        let h := set_jwt j h in
        match verified with
        | inl _ => (h, inl bad_refresh)
        | inr claims =>
            match Parse (Sessions.UserID claims), Parse (Sessions.WorkspaceID claims) with
            | inr userID, inr workspaceID =>
                match GetUserByID userID (accounts h) with
                | inl _ => (h, inl (Failed 401 "Account not found."))
                | inr user =>
                    match GetWorkspaceByID workspaceID (accounts h) with
                    | inl _ => (h, inl (Failed 500 "Could not load your workspace."))
                    | inr workspace => (h, inr (token, claims, user, workspace))
                    end
                end
            | _, _ => (h, inl bad_refresh)
            end
        end
  end.
Definition refresh_finish (clock : nat -> Z)
    (checked : response + (string * Sessions.Claims * User * Workspace)) (h : Handler)
    : Handler * response :=
  match checked with
  | inl refusal => (h, refusal)
  | inr (token, claims, user, workspace) =>
      let h := set_jwt (Sessions.Revoke hashToken (clock 2%nat) (clock 3%nat) token (jwt h)) h in
      (h, new_session clock 4 200 user workspace (Sessions.Groups claims) (Sessions.Provider claims) h)
  end.
Definition refreshToken (clock : nat -> Z) (body : option string) (h : Handler) : Handler * response :=
  let (h, checked) := refresh_check clock body h in refresh_finish clock checked h.

(** [oidcTokenExchange]. *)
Definition oidcTokenExchange (clock : nat -> Z) (query_code : string) (h : Handler) : Handler * response :=
  let code := TrimSpace query_code in
  if bool_decide (code = "") then (h, Failed 400 "Code is required.")
  else
    let (p, entry) := Sessions.consume (clock 0%nat) code (pending h) in
    let h := mkHandler (accounts h) (jwt h) p (lockout h) in
    match entry with
    | None => (h, Failed 401 "Code is invalid or has expired.")
    | Some entry =>
        let (j, verified) :=
          Sessions.Verify lib hashToken (clock 1%nat) (clock 2%nat) (Sessions.token entry) (jwt h) in
        let h := set_jwt j h in
        match verified with
        | inl _ => (h, Failed 401 "Session token is invalid.")
        | inr claims =>
            match GetUserByID (Sessions.UserID claims) (accounts h) with
            | inl _ => (h, Failed 500 "Could not load your account.")
            | inr user =>
                match GetWorkspaceByID (Sessions.WorkspaceID claims) (accounts h) with
                | inl _ => (h, Failed 500 "Could not load your workspace.")
                | inr workspace =>
                    (h, Session 200 (mkAuth (Sessions.token entry) user workspace
                           (Sessions.expiresAt entry) (Sessions.refreshToken entry)
                           (Sessions.refreshExpiresAt entry)))
                end
            end
        end
    end.

(** ** Sign-in and the lockout *)

(** The outcome of an attempt in a log: the wrong passwords tried on an account
    since the last right one, with the times at which they were recorded. *)
Definition log_attempt (a : attempt) (now : Z) (right : bool) (log : list (string * Z))
    : list (string * Z) :=
  if right then base.filter (fun p => p.1 <> tryEmail a) log else log ++ [(tryEmail a, now)].

(** The attempts on an account among those whose password is being compared. *)
Definition in_progress (email : string) (pending : list attempt) : nat :=
  length (base.filter (fun a => tryEmail a = email) pending).

(** Sign-in requests of all accounts, interleaved with each other and with
    anything that leaves the lockout alone, with at most [n] in progress on one
    account at a time: the time of the last step, the handler, the attempts
    whose password is being compared and the log. *)
Inductive sign_ins (config : Config) (n : nat)
    : Z -> Handler -> list attempt -> list (string * Z) -> Prop :=
  | sign_ins_new T h : lockout h = Limits.newAccountLockout -> sign_ins config n T h [] []
  | sign_ins_other T T' h h' pending log :
      sign_ins config n T h pending log -> T <= T' -> lockout h' = lockout h ->
      sign_ins config n T' h' pending log
  | sign_ins_check T h pending log now body a :
      sign_ins config n T h pending log -> T <= now ->
      signIn_check config now body h = inr a -> (in_progress (tryEmail a) pending < n)%nat ->
      sign_ins config n now h (a :: pending) log
  | sign_ins_finish T h before a after log clock :
      sign_ins config n T h (before ++ a :: after) log -> T <= clock 1%nat -> clock 1%nat <= clock 2%nat ->
      sign_ins config n (clock 2%nat) (signIn_finish clock a h).1.1 (before ++ after)
        (log_attempt a (clock 2%nat) (signIn_finish clock a h).2 log).

Lemma signIn_check_open config now body h a : signIn_check config now body h = inr a ->
  Limits.locked now (tryEmail a) (lockout h) = false.
Proof.
  unfold signIn_check. destruct (negb _); [done|]. destruct body as [req|]; [|done].
  destruct (_ || _); [done|]. destruct (Limits.locked _ _ _) eqn:Hl; [done|].
  destruct (GetUserByEmail _ _) as [e|user]; [destruct (errors_Is e ErrNotFound); [|done]|];
    by intros [= <-].
Qed.

Lemma signIn_finish_lockout clock a h :
  lockout (signIn_finish clock a h).1.1
  = if (signIn_finish clock a h).2 then Limits.reset (tryEmail a) (lockout h)
    else Limits.record_failure (clock 1%nat) (clock 2%nat) (tryEmail a) (lockout h).
Proof.
  unfold signIn_finish. destruct (tryUser a) as [user|]; [|done].
  destruct (negb _); [done|]. by destruct (GetWorkspaceByID _ _).
Qed.

Lemma sign_ins_attempts config n T h pending log : sign_ins config n T h pending log ->
  exists T0, T0 <= T /\ Limits.attempts T0 (lockout h) log.
Proof.
  induction 1 as [T h ->|T T' h h' pending log H (T0 & HT & IH) Hle ->
    |T h pending log now body a H (T0 & HT & IH) Hle _ _|T h before a after log clock H (T0 & HT & IH) H1 H2].
  - exists T. split; [lia|constructor].
  - exists T0. split; [lia|done].
  - exists T0. split; [lia|done].
  - rewrite signIn_finish_lockout. unfold log_attempt. exists (clock 2%nat). split; [lia|].
    destruct (signIn_finish clock a h).2.
    + apply (Limits.attempts_reset T0); [done|lia].
    + apply (Limits.attempts_record T0); [done|lia|lia].
Qed.

Lemma in_progress_middle email before a after :
  in_progress email (before ++ a :: after)
  = ((if decide (tryEmail a = email) then 1 else 0) + in_progress email (before ++ after))%nat.
Proof.
  unfold in_progress. rewrite !filter_app, !length_app, filter_cons. case_decide; cbn [length]; lia.
Qed.

Lemma within_snoc from width times t :
  length (Limits.within from width (times ++ [t]))
  = (length (Limits.within from width times) + if decide (from < t /\ t <= from + width)%Z then 1 else 0)%nat.
Proof.
  unfold Limits.within. rewrite filter_app, length_app, filter_cons, filter_nil.
  by case_decide.
Qed.

(** The guesses recorded in a window and, while the window is open, those
    still in progress. *)
Lemma sign_ins_bound config n T h pending log : sign_ins config n T h pending log ->
  forall email from,
  (length (Limits.within from (10 * minute) (Limits.times_of email log))
   + (if decide (T <= from + 10 * minute)%Z then in_progress email pending else 0) <= 9 + n)%nat.
Proof.
  induction 1 as [T h _|T T' h h' pending log H IH Hle _|T h pending log now body a H IH Hle Ha Hn
    |T h before a after log clock H IH H1 H2]; intros email from; [case_decide; apply Nat.le_0_l| | |].
  - specialize (IH email from). repeat case_decide; lia.
  - specialize (IH email from).
    destruct (decide (now <= from + 10 * minute)%Z) as [Hopen|Hopen]; [|case_decide; lia].
    rewrite decide_True in IH by lia. change (a :: pending) with ([] ++ a :: pending).
    rewrite in_progress_middle. cbn [app].
    destruct (decide (tryEmail a = email)) as [<-|]; [|lia].
    destruct (sign_ins_attempts _ _ _ _ _ _ H) as (T0 & HT & Hat). apply signIn_check_open in Ha.
    rewrite (Limits.locked_exact T0 _ log) in Ha by (done || lia). apply Z.leb_gt in Ha.
    pose proof (Limits.within_fresh from (10 * minute) (now - Limits.lockoutWindow)
      (Limits.times_of (tryEmail a) log)) as Hf.
    unfold Limits.lockoutWindow, Limits.lockoutMaxFailures in *. lia.
  - pose proof (IH email T) as HT. specialize (IH email from).
    rewrite (decide_True (P := (T <= T + 10 * minute)%Z)) in HT by (unfold minute, second; lia).
    rewrite in_progress_middle in IH, HT. revert IH HT.
    unfold log_attempt. destruct (signIn_finish clock a h).2.
    + rewrite Limits.times_of_reset. destruct (decide (tryEmail a = email)); intros IH HT.
      * change (length (Limits.within from (10 * minute) [])) with 0%nat. repeat case_decide; lia.
      * repeat case_decide; lia.
    + rewrite Limits.times_of_app, Limits.times_of_one.
      destruct (decide (tryEmail a = email)); intros IH HT.
      * rewrite within_snoc. repeat case_decide; lia.
      * rewrite app_nil_r. repeat case_decide; lia.
Qed.

(** C13: However sign-in requests are interleaved, between the check of the
    lockout and the comparison of the password included, and whether the
    account exists or not: the wrong passwords recorded on an account in any
    ten minutes, without a right one among them, are at most nine more than the
    sign-ins of the account that are in progress at a time.  These are ten when
    they follow each other. *)
Theorem signIn_guesses_bounded (config : Config) (n : nat) (T : Z) (h : Handler)
    (pending : list attempt) (log : list (string * Z)) (email : string) (from : Z)
    (H : sign_ins config n T h pending log) :
  (length (Limits.within from (10 * minute) (Limits.times_of email log)) <= 9 + n)%nat.
Proof. pose proof (sign_ins_bound _ _ _ _ _ _ H email from). lia. Qed.

(** ** Sign-up *)
Lemma workspace_loop_spec `{!StoreLaws S} clock more attempt slug name s s' drawn w :
  workspace_loop clock more attempt slug name s = (s', drawn, w) ->
  match w with
  | inl _ => s' = s
  | inr workspace => CreateWorkspace workspace s = (s', None)
  end.
Proof.
  revert attempt. induction more as [|more IH]; intros attempt; cbn [workspace_loop]; [by intros [= <- _ <-]|].
  destruct (CreateWorkspace _ s) as [s1 [e|]] eqn:Hc; [|by intros [= <- _ <-]].
  pose proof (create_workspace_fails _ _ _ _ Hc) as ->.
  destruct (errors_Is e ErrDuplicate); [apply IH|by intros [= <- _ <-]].
Qed.

Lemma user_loop_spec `{!StoreLaws S} clock more attempt first base name email hash ws admin s s' u :
  user_loop clock more attempt first base name email hash ws admin s = (s', u) ->
  match u with
  | inl _ => s' = s
  | inr user => CreateUser user s = (s', None) /\ Email user = email /\ PassHash user = hash /\
                UserWorkspace user = ws
  end.
Proof.
  revert attempt. induction more as [|more IH]; intros attempt; cbn [user_loop]; [by intros [= <- <-]|].
  destruct (CreateUser _ s) as [s1 [e|]] eqn:Hc; [|by intros [= <- <-]].
  pose proof (create_user_fails _ _ _ _ Hc) as ->.
  destruct (errors_Is e ErrDuplicate); [apply IH|by intros [= <- <-]].
Qed.

Lemma new_session_body clock i st user ws groups provider h st' b :
  new_session clock i st user ws groups provider h = Session st' b ->
  st' = st /\ AuthUser b = user /\ AuthWorkspace b = ws.
Proof.
  unfold new_session, no_session. destruct (Sessions.Sign _ _ _ _ _ _ _ _ _) as [|[t e]]; [done|].
  destruct (Sessions.SignRefresh _ _ _ _ _ _ _ _) as [|[t' e']]; [done|]. by intros [= <- <-].
Qed.

(** What [signUp] leaves in the store: everything as it was, or the user and
    the workspace of the answer. *)
Lemma signUp_cases `{!StoreLaws S} config clock body h h' r : signUp config clock body h = (h', r) ->
  (accounts h' = accounts h /\ exists st text, r = Failed st text) \/
  exists req user ws s1 s2, body = Some req /\ sign_up_refusal (TrimSpace (signUpName req))
      (normalize (signUpEmail req)) (signUpPassword req) = None /\
    CreateWorkspace ws (accounts h) = (s1, None) /\ CreateUser user s1 = (s2, None) /\
    Email user = normalize (signUpEmail req) /\ UserWorkspace user = WorkspaceID ws /\
    GenerateFromPassword (signUpPassword req) = inr (PassHash user) /\
    h' = set_accounts s2 h /\ r = new_session clock 10 201 user ws [] "password" h'.
Proof.
  intros Hup. unfold signUp in Hup.
  destruct (negb (SignUpEnabled config)); [injection Hup as <- <-; left; by eauto|].
  destruct body as [req|]; [|injection Hup as <- <-; left; by eauto].
  destruct (sign_up_refusal _ _ _) as [refusal|] eqn:Hr.
  { injection Hup as <- <-. left. split; [done|]. unfold sign_up_refusal in Hr.
    destruct (_ || _); [injection Hr as <-; by eauto|]. destruct (negb _); [injection Hr as <-; by eauto|].
    destruct (_ <? _)%nat; [injection Hr as <-; by eauto|].
    destruct (weak_password _); [injection Hr as <-; by eauto|done]. }
  destruct (GetUserByEmail _ _) as [e|]; [|injection Hup as <- <-; left; by unfold account_exists; eauto].
  destruct (negb (errors_Is e ErrNotFound)); [injection Hup as <- <-; left; by unfold no_account; eauto|].
  destruct (GenerateFromPassword _) as [?|hash] eqn:Hg;
    [injection Hup as <- <-; left; by unfold no_account; eauto|].
  destruct (createWorkspace _ _ _ _) as [[s1 drawn] [?|ws]] eqn:Hw; unfold createWorkspace in Hw;
    apply workspace_loop_spec in Hw.
  { injection Hup as <- <-. left. subst s1. cbn [accounts set_accounts]. by eauto. }
  destruct (createUser _ _ _ _ _ _ _ _) as [s2 [e'|user]] eqn:Hu; unfold createUser in Hu;
    apply user_loop_spec in Hu.
  - injection Hup as <- <-. left. subst s2. cbn [accounts set_accounts]. split; [by apply delete_created|].
    unfold account_exists, no_account. destruct (errors_Is e' ErrDuplicate); by eauto.
  - injection Hup as <- <-. destruct Hu as (Hc & He & Hh & Hs). right.
    exists req, user, ws, s1, s2. rewrite Hh. repeat split; done.
Qed.

(** A sign-up is all or nothing: when it is refused or fails to create the
    user or the workspace the store is as it was, and when it answers with a
    session, the same credentials sign in to the same user and workspace. *)
Theorem signUp_then_signIn `{!StoreLaws S} (config : Config) (clock clock' : nat -> Z)
    (req : signUpRequest) (h h' : Handler) (r : response)
    (Hbcrypt : forall password hash, GenerateFromPassword password = inr hash ->
       CompareHashAndPassword hash password = true)
    (Hsign : forall claims key secret, exists token,
       Sessions.SignedString lib claims key secret = inr token)
    (Hup : signUp config clock (Some req) h = (h', r)) :
  match r with
  | Session st body =>
      st = 201 /\
      (PasswordAuthEnabled config = true ->
       Limits.locked (clock' 0%nat) (normalize (signUpEmail req)) (lockout h') = false ->
       exists body', (signIn config clock' (Some (mkSignIn (signUpEmail req) (signUpPassword req))) h').2
                     = Session 200 body' /\
         AuthUser body' = AuthUser body /\ AuthWorkspace body' = AuthWorkspace body)
  | _ => accounts h' = accounts h
  end.
Proof.
  assert (forall clock i st user ws groups provider h, exists b,
    new_session clock i st user ws groups provider h = Session st b) as Hs.
  { intros c i st user ws groups provider g. unfold new_session, Sessions.Sign, Sessions.SignRefresh.
    destruct (Hsign (Sessions.access_claims lib (c i) (c (i + 1)%nat) (ID user) (UserWorkspace user) (Admin user)
      groups provider) Sessions.tokenKeyID (Sessions.secret (jwt g))) as [t ->].
    destruct (Hsign (Sessions.refresh_claims lib (c (i + 2)%nat) (c (i + 3)%nat) (ID user) (UserWorkspace user)
      (Admin user) provider) Sessions.tokenKeyID (Sessions.secret (jwt g))) as [t' ->].
    by eexists. }
  apply signUp_cases in Hup as [[Hsame (st & text & ->)]|
    (req' & user & ws & s1 & s2 & [= <-] & Hok & Hw & Hu & He & Hws & Hh & -> & ->)]; [done|].
  destruct (Hs clock 10%nat 201 user ws [] "password" (set_accounts s2 h)) as [b Hb]. rewrite Hb.
  apply new_session_body in Hb as (_ & -> & ->). split; [done|]. intros Hon Hfree.
  unfold sign_up_refusal in Hok. destruct (_ || _) eqn:Hempty; [done|]. apply orb_false_iff in Hempty as [Hempty Hpw].
  apply orb_false_iff in Hempty as [_ Hemail].
  unfold signIn, signIn_check. rewrite Hon. cbn [negb signInEmail signInPassword].
  rewrite Hemail, Hpw, Hfree. cbn [orb]. cbn [accounts set_accounts].
  rewrite <-He, (get_created_user _ _ _ Hu). unfold signIn_finish. cbn [tryUser tryPassword tryEmail].
  rewrite (Hbcrypt _ _ Hh). cbn [negb fst snd].
  rewrite Hws. cbn [accounts set_lockout].
  rewrite (create_user_workspaces _ _ _ _ Hu), (get_created_workspace _ _ _ Hw).
  match goal with |- context [new_session ?c ?i ?st ?u ?w ?g ?p ?hd] =>
    destruct (Hs c i st u w g p hd) as [b' Hb'] end.
  cbn [fst snd]. exists b'. split; [exact Hb'|]. by apply new_session_body in Hb' as (_ & -> & ->).
Qed.

(** ** Refreshing *)
Lemma listed_rejected audience invalid revoked p c token j :
  Sessions.is_listed hashToken c token j = true ->
  exists e, (Sessions.verify_for lib hashToken audience invalid revoked p c token j).2 = inl e.
Proof.
  intros Hl. unfold Sessions.verify_for.
  destruct (Sessions.ParseWithClaims _ _ _ _ _ _) as [e|[claims valid]]; [by eexists|].
  destruct (negb valid); [by eexists|]. unfold Sessions.isRevoked. rewrite Hl. by eexists.
Qed.

Lemma refresh_check_token clock raw h h' token claims user ws :
  refresh_check clock (Some raw) h = (h', inr (token, claims, user, ws)) ->
  token = TrimSpace raw /\ token <> "".
Proof.
  unfold refresh_check. case_bool_decide as Ht; [done|].
  destruct (Sessions.VerifyRefresh _ _ _ _ _ _) as [j [?|c]]; [done|].
  destruct (Parse _) as [?|u]; [done|]. destruct (Parse _) as [?|w]; [done|].
  destruct (GetUserByID _ _); [done|]. destruct (GetWorkspaceByID _ _); [done|]. by intros [= _ <- _ _ _].
Qed.

(** A refresh token is single-use between requests that follow each other:
    once it was exchanged for a session, the next request with it is refused,
    whatever the clock says until the token's end. *)
Theorem refresh_single_use (clock clock' : nat -> Z) (raw : string) (h h' : Handler) (st : Z)
    (body : authResponse)
    (Hprune : clock 3%nat <= clock 2%nat + Sessions.RefreshTokenTTL)
    (Hlater : clock' 1%nat <= clock 2%nat + Sessions.RefreshTokenTTL)
    (H : refreshToken clock (Some raw) h = (h', Session st body)) :
  (refreshToken clock' (Some raw) h').2 = bad_refresh.
Proof.
  unfold refreshToken in H. destruct (refresh_check clock (Some raw) h) as [h1 [refusal|x]] eqn:Hc.
  { cbn [refresh_finish] in H. injection H as -> ->. exfalso. revert Hc. unfold refresh_check, bad_refresh.
    case_bool_decide; [done|]. destruct (Sessions.VerifyRefresh _ _ _ _ _ _) as [j [?|c]]; [done|].
    destruct (Parse _) as [?|u]; [done|]. destruct (Parse _) as [?|w]; [done|].
    destruct (GetUserByID _ _); [done|]. by destruct (GetWorkspaceByID _ _). }
  destruct x as [[[token claims] user] ws]. pose proof (refresh_check_token _ _ _ _ _ _ _ _ Hc) as [-> Hne].
  cbn [refresh_finish] in H. injection H as <- _. unfold refreshToken, refresh_check.
  rewrite bool_decide_eq_false_2 by done.
  assert (Sessions.is_listed hashToken (clock' 1%nat) (TrimSpace raw)
    (Sessions.Revoke hashToken (clock 2%nat) (clock 3%nat) (TrimSpace raw) (jwt h1)) = true) as Hl.
  { unfold Sessions.is_listed, Sessions.Revoke. cbn [Sessions.blocklist].
    destruct (Sessions.pruneExpiredLocked _ _ !! _) as [e|] eqn:He.
    - apply Sessions.prune_lookup in He as [He _]. rewrite lookup_insert_eq in He. injection He as <-.
      apply negb_true_iff, Z.ltb_ge. lia.
    - destruct (Sessions.prune_barred (clock 3%nat)
        (<[hashToken (TrimSpace raw) := clock 2%nat + Sessions.RefreshTokenTTL]> (Sessions.blocklist (jwt h1)))
        (hashToken (TrimSpace raw)) _ (lookup_insert_eq _ _ _)) as [[e He']|]; [congruence|lia]. }
  cbn [jwt set_jwt].
  destruct (listed_rejected Sessions.refreshTokenAudience "invalid refresh token"
    "refresh token has been revoked" (clock' 0%nat) (clock' 1%nat) _ _ Hl) as [e He].
  unfold Sessions.VerifyRefresh. destruct (Sessions.verify_for _ _ _ _ _ _ _ _ _) as [j v].
  cbn [snd] in He. by rewrite He.
Qed.
End Handlers.

(** ** A store in memory, and the witnesses *)
Record memory := mkMemory { workspaces : list Workspace; users : list User }.

Definition find {A} (P : A -> bool) (l : list A) : goerr + A :=
  match List.find P l with Some x => inr x | None => inl ErrNotFound end.
Definition same (a b : string) : bool := bool_decide (a = b).

#[export] Instance memory_store : Store memory := {
  CreateWorkspace w s :=
    if existsb (fun x => same (WorkspaceID x) (WorkspaceID w) || same (Slug x) (Slug w)) (workspaces s)
    then (s, Some ErrDuplicate) else (mkMemory (w :: workspaces s) (users s), None);
  DeleteWorkspace id s :=
    (mkMemory (base.filter (fun x => WorkspaceID x <> id) (workspaces s)) (users s), None);
  GetWorkspaceByID id s := find (fun x => same (WorkspaceID x) id) (workspaces s);
  CreateUser u s :=
    if existsb (fun x => same (ID x) (ID u) || same (Username x) (Username u) || same (Email x) (Email u))
         (users s)
    then (s, Some ErrDuplicate) else (mkMemory (workspaces s) (u :: users s), None);
  GetUserByID id s := find (fun x => same (ID x) id) (users s);
  GetUserByEmail email s := find (fun x => same (Email x) email) (users s);
}.

Lemma filter_keeps {A} (P : A -> Prop) `{!forall x, Decision (P x)} (l : list A) :
  (forall x, x ∈ l -> P x) -> base.filter P l = l.
Proof.
  induction l as [|x l IH]; intros Hl; [done|]. rewrite filter_cons_True by (apply Hl; left).
  f_equal. apply IH. intros y Hy. apply Hl. by right.
Qed.

Lemma same_refl a : same a a = true.
Proof. by apply bool_decide_eq_true. Qed.

#[export] Instance memory_laws : StoreLaws memory.
Proof.
  split.
  - intros w s s' e. cbn. by destruct (existsb _ _); intros [= <-].
  - intros u s s' e. cbn. by destruct (existsb _ _); intros [= <-].
  - intros w s s'. cbn. destruct (existsb _ _) eqn:He; [done|]. intros [= <-]. cbn [workspaces users].
    rewrite filter_cons_False by tauto. destruct s as [ws us]. cbn in *. f_equal. apply filter_keeps.
    intros x Hx Hid. apply not_true_iff_false in He. apply He.
    apply existsb_exists. exists x. split; [by apply list_elem_of_In|]. by rewrite Hid, same_refl.
  - intros w s s'. cbn. destruct (existsb _ _); [done|]. intros [= <-]. unfold find. cbn.
    by rewrite same_refl.
  - intros u s s'. cbn. destruct (existsb _ _); [done|]. intros [= <-]. unfold find. cbn.
    by rewrite same_refl.
  - intros u s s' id. cbn. by destruct (existsb _ _); [done|]; intros [= <-].
Qed.

(** A hash that keeps the password, and tokens that name their audience. *)
Definition plain_hash (password : string) : goerr + string := inr password.
Definition plain_compare (hash password : string) : bool := same hash password.
Definition plain_library : Sessions.jwt_library :=
  Sessions.mkLibrary
    (fun _ now _ _ _ => if now <? 1000 then inr (Sessions.mkClaims "id0" "id0" false [] "password" 1000 0 "" [], true)
                        else inl (ErrText "token is expired"))
    (fun claims _ _ => inr "token") (fun t => t).
Definition ids (n : nat) : string := if bool_decide (n = 0%nat) then "id0" else "id1".
Definition everything : Config := mkConfig true true.
Definition ada : signUpRequest := mkSignUp "Ada Lovelace" " Ada@Example.org" "Abcdefg1".
Definition no_accounts : Handler :=
  mkHandler (mkMemory [] []) (Sessions.NewJWT "s") ∅ Limits.newAccountLockout.
Definition tick (n : nat) : Z := Z.of_nat n.

Definition signed_up : Handler * response :=
  signUp plain_hash plain_library ids everything tick (Some ada) no_accounts.

Lemma signUp_then_signIn_witness :
  exists body, signed_up.2 = Session 201 body /\ Email (AuthUser body) = "ada@example.org" /\
  exists body', (signIn plain_compare plain_library everything tick
                  (Some (mkSignIn " Ada@Example.org" "Abcdefg1")) signed_up.1).2 = Session 200 body' /\
    AuthUser body' = AuthUser body.
Proof.
  eexists. split; [vm_compute; reflexivity|]. split; [reflexivity|].
  destruct (signUp_then_signIn plain_hash plain_compare plain_library ids everything tick tick ada
    no_accounts signed_up.1 signed_up.2) as [_ Hin].
  - intros password hash [= <-]. apply same_refl.
  - intros. by eexists.
  - vm_compute. reflexivity.
  - destruct (Hin eq_refl) as (body' & Hb & Hu & _); [vm_compute; reflexivity|].
    exists body'. split; [exact Hb|exact Hu].
Defined.

Definition eve : attempt := mkAttempt "eve@example.org" "x" None.

(** Sign-ins that are in progress at the same time all pass the check of the
    lockout: twenty passwords are tried at once on one account. *)
Theorem signIn_race :
  signIn_check everything 0 (Some (mkSignIn "Eve@example.org" "x")) no_accounts = inr eve /\
  Limits.recentFailures 3 "eve@example.org"
    (lockout (foldl (fun h a => (signIn_finish plain_compare plain_library tick a h).1.1) no_accounts
                (replicate 20 eve))) = 20.
Proof. split; vm_compute; reflexivity. Qed.

Lemma signIn_guesses_bounded_witness :
  (length (Limits.within 0 (10 * minute) (Limits.times_of "eve@example.org" [("eve@example.org", 2%Z)])) <= 10)%nat.
Proof.
  refine (signIn_guesses_bounded (S := memory) plain_compare plain_library everything 1 2
    (signIn_finish plain_compare plain_library tick eve no_accounts).1.1 []
    [("eve@example.org", 2)] "eve@example.org" 0 _).
  exact (sign_ins_finish plain_compare plain_library everything 1 0 no_accounts [] eve [] [] tick
    (sign_ins_check plain_compare plain_library everything 1 0 no_accounts [] [] 0
      (Some (mkSignIn "Eve@example.org" "x")) eve
      (sign_ins_new plain_compare plain_library everything 1 0 no_accounts eq_refl)
      ltac:(vm_compute; discriminate) ltac:(vm_compute; reflexivity) ltac:(vm_compute; lia))
    ltac:(vm_compute; discriminate) ltac:(vm_compute; discriminate)).
Defined.

(** The account of the toy tokens. *)
Definition with_account : Handler :=
  mkHandler (mkMemory [mkWorkspace "id0" "ada" "Ada's workspace" 0]
               [mkUser "id0" "id0" "ada" "ada@example.org" "Ada" false "Abcdefg1" 0])
    (Sessions.NewJWT "s") ∅ Limits.newAccountLockout.
Definition refresh (clock : nat -> Z) (h : Handler) : Handler * response :=
  refreshToken plain_library id (fun s => inr s) clock (Some "r") h.

Lemma refresh_single_use_witness : (refresh tick (refresh tick with_account).1).2 = bad_refresh.
Proof.
  refine (refresh_single_use (S := memory) plain_library id (fun s => inr s) tick tick "r" with_account
    (refresh tick with_account).1 200 _ _ _ _).
  - vm_compute. discriminate.
  - vm_compute. discriminate.
  - vm_compute. reflexivity.
Defined.

(** Two requests that refresh with one token at the same time both get a
    session: the check and the revocation are separate steps. *)
Theorem refresh_race :
  exists h1 h2 (x y : response + (string * Sessions.Claims * User * Workspace)) b1 b2,
    refresh_check plain_library id (fun s => inr s) tick (Some "r") with_account = (h1, x) /\
    refresh_check plain_library id (fun s => inr s) tick (Some "r") h1 = (h2, y) /\
    (refresh_finish plain_library id tick x h2).2 = Session 200 b1 /\
    (refresh_finish plain_library id tick y (refresh_finish plain_library id tick x h2).1).2
    = Session 200 b2.
Proof.
  do 6 eexists. repeat (split; [vm_compute; reflexivity|]). vm_compute. reflexivity.
Qed.
End AuthHandlers.
