(* ===== verification/NetworkPlan.v ===== *)
(** Host names on an execution's network,
    [src/backend/internal/execution/network_plan.go]: every service answers to
    the last segment of its name, except that the services of imported suites
    answer to a qualified name where several suites use the same one. *)
From Stdlib Require Import ZArith Lia Ascii.
From S2P Require Import Prelude GoStrings Topology.
Import GoStrings Topology.

Module NetworkPlan.

(** ** Data and operations *)
Record networkPlan := mkPlan { rootSuiteID : string; contested : gset string }.

Definition networkAlias (name : string) : string :=
  let trimmed := TrimSpace name in
  let idx := LastIndex trimmed "/" in
  if 0 <=? idx then slice_from trimmed (idx + 1) else trimmed.

Definition NodeKindService : string := "service".
Definition addressableKind (kind : string) : bool :=
  bool_decide (TrimSpace (ToLower kind) = NodeKindService).

Definition nodeOwner (node : TopologyNode) (suiteID : string) : string :=
  FirstNonEmpty [TrimSpace (SourceSuiteID node); suiteID].

(** Every letter and digit is kept, every other rune becomes one dash; a byte
    that does not belong to a valid encoding is a rune of its own. *)
Definition kept (c : ascii) : ascii :=
  if cont 97 122 c || cont 48 57 c then c else "-"%char.
Fixpoint dash_runes (l : bytes) : bytes :=
  match l with
  | [] => []
  | c :: l1 =>
      let b := code c in
      if b <? 128 then kept c :: dash_runes l1
      else "-"%char ::
        match l1 with
        | [] => []
        | d :: l2 =>
            if (194 <=? b) && (b <=? 223) && cont 128 191 d then dash_runes l2
            else match l2 with
            | [] => dash_runes l1
            | e :: l3 =>
                if (224 <=? b) && (b <=? 239) &&
                   cont (if b =? 224 then 160 else 128) (if b =? 237 then 159 else 191) d &&
                   cont 128 191 e then dash_runes l3
                else match l3 with
                | [] => dash_runes l1
                | f :: l4 =>
                    if (240 <=? b) && (b <=? 244) &&
                       cont (if b =? 240 then 144 else 128) (if b =? 244 then 143 else 191) d &&
                       cont 128 191 e && cont 128 191 f then dash_runes l4
                    else dash_runes l1
                end
            end
        end
  end.
Definition sanitizeAliasSegment (value : string) : string :=
  Trim (to_string (dash_runes (of_string (ToLower (TrimSpace value))))) "-".

Definition qualifiedAlias (owner alias : string) : string :=
  sanitizeAliasSegment owner +:+ "-" +:+ alias.

(** One node, in the table of the suites that use each name. *)
Definition claim_name (suiteID : string) (owners : gmap string (gset string)) (node : TopologyNode)
    : gmap string (gset string) :=
  if negb (addressableKind (Kind node)) then owners
  else
    let alias := networkAlias (Name node) in
    if bool_decide (alias = "") then owners
    else <[alias := {[nodeOwner node suiteID]} ∪ default ∅ (owners !! alias)]> owners.
Definition claimants (nodes : list TopologyNode) (suiteID : string) : gmap string (gset string) :=
  foldl (claim_name suiteID) ∅ nodes.
Definition buildNetworkPlan (nodes : list TopologyNode) (suiteID : string) : networkPlan :=
  mkPlan suiteID
    (dom (base.filter (fun p : string * gset string => (1 < size p.2)%nat) (claimants nodes suiteID))).

Definition contestedNames (p : networkPlan) : list string := sort_strings (elements (contested p)).

Definition aliasesForNode (p : networkPlan) (node : TopologyNode) (suiteID : string) : list string :=
  if negb (addressableKind (Kind node)) then []
  else
    let alias := networkAlias (Name node) in
    if bool_decide (alias = "") then []
    else
      let owner := nodeOwner node suiteID in
      if negb (bool_decide (alias ∈ contested p)) || bool_decide (owner = rootSuiteID p) then [alias]
      else [qualifiedAlias owner alias].

Example networkAlias_ex : (networkAlias " dep/pg/db ", networkAlias "db") = ("db", "db").
Proof. reflexivity. Qed.
Example qualifiedAlias_ex : qualifiedAlias "Identity Broker" "db" = "identity-broker-db".
Proof. reflexivity. Qed.

(** ** The claimants *)

(** A node that other steps reach by the name. *)
Definition answers_to (alias : string) (node : TopologyNode) : Prop :=
  addressableKind (Kind node) = true /\ networkAlias (Name node) = alias /\ alias <> "".

Lemma claim_name_lookup suiteID owners node alias owner :
  owner ∈ default ∅ (claim_name suiteID owners node !! alias) <->
  owner ∈ default ∅ (owners !! alias) \/ (answers_to alias node /\ owner = nodeOwner node suiteID).
Proof.
  unfold claim_name, answers_to. destruct (addressableKind (Kind node)) eqn:Ha; cbn [negb];
    [|naive_solver].
  case_bool_decide as He; [naive_solver|].
  destruct (decide (networkAlias (Name node) = alias)) as [<-|Hne].
  - rewrite lookup_insert_eq. cbn [default from_option id]. rewrite elem_of_union, elem_of_singleton.
    naive_solver.
  - rewrite lookup_insert_ne by done. naive_solver.
Qed.

Lemma claimants_spec nodes suiteID alias owner :
  owner ∈ default ∅ (claimants nodes suiteID !! alias) <->
  exists node, node ∈ nodes /\ answers_to alias node /\ owner = nodeOwner node suiteID.
Proof.
  unfold claimants. induction nodes as [|node nodes IH] using rev_ind.
  - cbn [foldl]. rewrite lookup_empty. split; [intros []%not_elem_of_empty|].
    intros (n & []%not_elem_of_nil & _).
  - rewrite foldl_snoc, claim_name_lookup, IH. split.
    + intros [(n & ? & ?)|[? ?]]; [exists n|exists node]; split; try done; set_solver.
    + intros (n & [Hn|Hn%list_elem_of_singleton]%elem_of_app & Ha & Ho); [left; by eauto|subst n; by right].
Qed.

Lemma contested_spec nodes suiteID alias :
  alias ∈ contested (buildNetworkPlan nodes suiteID) <->
  exists n1 n2, n1 ∈ nodes /\ n2 ∈ nodes /\ answers_to alias n1 /\ answers_to alias n2 /\
    nodeOwner n1 suiteID <> nodeOwner n2 suiteID.
Proof.
  cbn [contested buildNetworkPlan]. rewrite elem_of_dom. split.
  - intros [owners [Ho Hsize]%map_lookup_filter_Some]. cbn [snd] in Hsize.
    assert (exists x y, x ∈ owners /\ y ∈ owners /\ x <> y) as (x & y & Hx & Hy & Hne).
    { destruct (set_choose_L owners) as [x Hx]; [intros ->; rewrite size_empty in Hsize; lia|].
      destruct (set_choose_L (owners ∖ {[x]})) as [y Hy]; [|exists x, y; set_solver].
      intros He. assert (owners ⊆ {[x]}) as Hsub
        by (intros z Hz; destruct (decide (z = x)); set_solver).
      apply subseteq_size in Hsub. rewrite size_singleton in Hsub. lia. }
    pose proof (claimants_spec nodes suiteID alias) as Hspec. rewrite Ho in Hspec. cbn [default from_option id] in Hspec.
    apply Hspec in Hx as (n1 & ? & ? & ->). apply Hspec in Hy as (n2 & ? & ? & ->).
    by exists n1, n2.
  - intros (n1 & n2 & H1 & H2 & Ha1 & Ha2 & Hne).
    pose proof (proj2 (claimants_spec nodes suiteID alias _) (ex_intro _ n1 (conj H1 (conj Ha1 eq_refl)))) as Ho1.
    pose proof (proj2 (claimants_spec nodes suiteID alias _) (ex_intro _ n2 (conj H2 (conj Ha2 eq_refl)))) as Ho2.
    destruct (claimants nodes suiteID !! alias) as [owners|] eqn:Ho; cbn [default from_option id] in Ho1, Ho2; [|set_solver].
    exists owners. apply map_lookup_filter_Some. split; [done|]. cbn [snd].
    assert ({[nodeOwner n1 suiteID; nodeOwner n2 suiteID]} ⊆ owners) as Hsub by set_solver.
    apply subseteq_size in Hsub. rewrite size_union in Hsub by set_solver. rewrite !size_singleton in Hsub. lia.
Qed.

Lemma aliases_cases (nodes : list TopologyNode) (suiteID : string) (node : TopologyNode)
    (H : node ∈ nodes) :
  let alias := networkAlias (Name node) in
  (~ answers_to alias node -> aliasesForNode (buildNetworkPlan nodes suiteID) node suiteID = []) /\
  (answers_to alias node ->
     (nodeOwner node suiteID <> suiteID /\
      (exists other, other ∈ nodes /\ answers_to alias other /\
         nodeOwner other suiteID <> nodeOwner node suiteID) /\
      aliasesForNode (buildNetworkPlan nodes suiteID) node suiteID
      = [qualifiedAlias (nodeOwner node suiteID) alias]) \/
     ((nodeOwner node suiteID = suiteID \/
       (forall other, other ∈ nodes -> answers_to alias other ->
          nodeOwner other suiteID = nodeOwner node suiteID)) /\
      aliasesForNode (buildNetworkPlan nodes suiteID) node suiteID = [alias])).
Proof.
  intros alias. unfold aliasesForNode. fold alias. unfold answers_to at 1 2.
  destruct (addressableKind (Kind node)) eqn:Ha; cbn [negb]; [|split; [done|by intros [? _]]].
  case_bool_decide as He; [split; [done|by intros (_ & _ & ?)]|].
  split; [intros Hn; exfalso; by apply Hn|]. intros _.
  assert (answers_to alias node) as Hself by done.
  cbn [rootSuiteID buildNetworkPlan]. fold (buildNetworkPlan nodes suiteID).
  destruct (decide (nodeOwner node suiteID = suiteID)) as [Hroot|Hroot].
  { right. rewrite (bool_decide_eq_true_2 (nodeOwner node suiteID = _)), orb_true_r by done. auto. }
  rewrite (bool_decide_eq_false_2 (nodeOwner node suiteID = _)), orb_false_r by done.
  destruct (bool_decide (alias ∈ _)) eqn:Hc; cbn [negb].
  - apply bool_decide_eq_true, contested_spec in Hc as (n1 & n2 & H1 & H2 & Ha1 & Ha2 & Hne).
    left. split; [done|]. split; [|done].
    destruct (decide (nodeOwner n1 suiteID = nodeOwner node suiteID)); [exists n2|exists n1]; repeat split; try apply Ha1; try apply Ha2; try done; congruence.
  - apply bool_decide_eq_false in Hc. right. split; [|done]. right. intros other Ho Hao.
    destruct (decide (nodeOwner other suiteID = nodeOwner node suiteID)); [done|].
    exfalso. apply Hc, contested_spec. by exists other, node.
Qed.

Lemma length_append s t : String.length (s +:+ t) = (String.length s + String.length t)%nat.
Proof. induction s as [|c s IH]; [done|]. exact (f_equal S IH). Qed.

Lemma qualifiedAlias_longer owner alias : qualifiedAlias owner alias <> alias.
Proof.
  intros H. apply (f_equal String.length) in H. unfold qualifiedAlias in H.
  rewrite !length_append in H. simpl in H. lia.
Qed.

Lemma bare_owner nodes suiteID node (H : node ∈ nodes) :
  let alias := networkAlias (Name node) in
  alias ∈ aliasesForNode (buildNetworkPlan nodes suiteID) node suiteID ->
  answers_to alias node /\
  (nodeOwner node suiteID = suiteID \/
   forall other, other ∈ nodes -> answers_to alias other -> nodeOwner other suiteID = nodeOwner node suiteID).
Proof.
  intros alias Hin. destruct (aliases_cases nodes suiteID node H) as [Hno Hyes]. fold alias in Hno, Hyes.
  assert (Decision (answers_to alias node)) as Hd by (unfold answers_to; apply _).
  destruct (decide (answers_to alias node)) as [Ha|Ha]; [|by rewrite Hno in Hin; [apply not_elem_of_nil in Hin|]].
  split; [done|]. destruct (Hyes Ha) as [(_ & _ & Heq)|[Ho _]]; [|done].
  rewrite Heq in Hin. apply list_elem_of_singleton in Hin. symmetry in Hin. by apply qualifiedAlias_longer in Hin.
Qed.

(** A service answers to its bare name, except that a service of an
    imported suite whose name another suite uses too answers to the name
    qualified by its suite; nothing else answers at all.  So the services that
    answer to one bare name belong to one suite. *)
Theorem aliasesForNode_spec (nodes : list TopologyNode) (suiteID : string) (node : TopologyNode)
    (H : node ∈ nodes) :
  let alias := networkAlias (Name node) in
  (~ answers_to alias node -> aliasesForNode (buildNetworkPlan nodes suiteID) node suiteID = []) /\
  (answers_to alias node ->
     (nodeOwner node suiteID <> suiteID /\
      (exists other, other ∈ nodes /\ answers_to alias other /\
         nodeOwner other suiteID <> nodeOwner node suiteID) /\
      aliasesForNode (buildNetworkPlan nodes suiteID) node suiteID
      = [qualifiedAlias (nodeOwner node suiteID) alias]) \/
     ((nodeOwner node suiteID = suiteID \/
       (forall other, other ∈ nodes -> answers_to alias other ->
          nodeOwner other suiteID = nodeOwner node suiteID)) /\
      aliasesForNode (buildNetworkPlan nodes suiteID) node suiteID = [alias])) /\
  (forall other, other ∈ nodes -> networkAlias (Name other) = alias ->
     alias ∈ aliasesForNode (buildNetworkPlan nodes suiteID) node suiteID ->
     alias ∈ aliasesForNode (buildNetworkPlan nodes suiteID) other suiteID ->
     nodeOwner other suiteID = nodeOwner node suiteID).
Proof.
  intros alias. destruct (aliases_cases nodes suiteID node H) as [Hno Hyes].
  split; [exact Hno|]. split; [exact Hyes|]. intros other Ho Heq H1 H2.
  destruct (bare_owner nodes suiteID node H H1) as [Ha1 Hu1]. fold alias in Ha1, Hu1.
  assert (networkAlias (Name other) ∈ aliasesForNode (buildNetworkPlan nodes suiteID) other suiteID) as H2'
    by by rewrite Heq.
  destruct (bare_owner nodes suiteID other Ho H2') as [Ha2 Hu2]. rewrite Heq in Ha2, Hu2.
  destruct Hu1 as [Hr1|Hu1]; [|by apply Hu1]. destruct Hu2 as [Hr2|Hu2]; [congruence|].
  symmetry. by apply Hu2.
Qed.

(** ** A name that two containers answer to, and the witness *)
Definition service (name owner : string) : TopologyNode :=
  mkNode name name "service" "service.run" 0%nat [] [] [] false 0 owner "" "" "" "" "" "" "" ∅ ∅ 0.
Definition composed : list TopologyNode :=
  [service "db" ""; service "broker/db" "identity broker"; service "broker/api" "identity broker"].

Lemma aliasesForNode_spec_witness :
  aliasesForNode (buildNetworkPlan composed "payments") (service "broker/db" "identity broker") "payments"
  = ["identity-broker-db"].
Proof.
  destruct (aliasesForNode_spec composed "payments" (service "broker/db" "identity broker")
    ltac:(set_solver)) as (_ & H & _).
  destruct (H ltac:(repeat split; discriminate || reflexivity)) as [(_ & _ & He)|[[Hr|Hu] _]].
  - exact He.
  - vm_compute in Hr. discriminate.
  - specialize (Hu (service "db" "") ltac:(set_solver) ltac:(repeat split; discriminate || reflexivity)).
    vm_compute in Hu. discriminate.
Defined.

(** One suite imported under two names: both databases answer to [db]. *)
Lemma one_suite_twice :
  let nodes := [service "a/db" "shared"; service "b/db" "shared"] in
  (fun n => aliasesForNode (buildNetworkPlan nodes "root") n "root") <$> nodes = [["db"]; ["db"]].
Proof. reflexivity. Qed.
End NetworkPlan.
