(* ===== verification/Runes.v ===== *)
(** Runes: a Go string read as UTF-8.

    [for index, ch := range s] decodes the bytes of [s]; a byte that does not
    start a well-formed encoding is read alone, as U+FFFD.  [decode_rune] is
    [utf8.DecodeRuneInString], [range_runes] the sequence of indices and runes of
    the loop, [encode_rune] is [utf8.AppendRune] (and [Builder.WriteRune]),
    [Unquote] is [strconv.Unquote].  On well-formed bytes encoding what was
    decoded gives the bytes back ([encode_runes_valid]). *)
From Stdlib Require Import ZArith Lia Ascii.
From S2P Require Import Prelude GoStrings.
Import GoStrings.

Module Runes.

Definition byte_of (z : Z) : ascii := ascii_of_N (Z.to_N z).

Lemma code_range c : 0 <= code c < 256.
Proof. unfold code. pose proof (Ascii.N_ascii_bounded c). lia. Qed.

Lemma code_byte_of z : 0 <= z < 256 -> code (byte_of z) = z.
Proof. intros Hz. unfold code, byte_of. rewrite N_ascii_embedding; lia. Qed.

Lemma byte_of_code c : byte_of (code c) = c.
Proof. unfold code, byte_of. rewrite N2Z.id. apply ascii_N_embedding. Qed.

Lemma code_inj c d : code c = code d -> c = d.
Proof. intros H. by rewrite <-(byte_of_code c), <-(byte_of_code d), H. Qed.

(** ** The order of strings, byte by byte *)
Lemma ltb_irrefl s : String.ltb s s = false.
Proof.
  unfold String.ltb. destruct (String.compare s s) eqn:H; try done.
  pose proof (String.compare_antisym s s) as Ha. by rewrite H in Ha.
Qed.
Lemma ltb_asym s t : String.ltb s t = true -> String.ltb t s = false.
Proof. unfold String.ltb. rewrite (String.compare_antisym s t). by destruct (String.compare t s). Qed.
Lemma ltb_total s t : String.ltb s t = true \/ s = t \/ String.ltb t s = true.
Proof.
  unfold String.ltb. rewrite (String.compare_antisym t s). destruct (String.compare s t) eqn:H; auto.
  right. left. by apply String.compare_eq_iff.
Qed.

Lemma ltb_cons c s d t : String.ltb (String c s) (String d t) =
  (code c <? code d) || ((code c =? code d) && String.ltb s t).
Proof.
  unfold String.ltb. cbn [String.compare]. unfold Ascii.compare, code.
  destruct (N.compare_spec (N_of_ascii c) (N_of_ascii d)) as [H|H|H].
  - rewrite H, Z.ltb_irrefl, Z.eqb_refl. by destruct (String.compare s t).
  - by replace (Z.of_N (N_of_ascii c) <? Z.of_N (N_of_ascii d)) with true by lia.
  - replace (Z.of_N (N_of_ascii c) <? Z.of_N (N_of_ascii d)) with false by lia.
    by replace (Z.of_N (N_of_ascii c) =? Z.of_N (N_of_ascii d)) with false by lia.
Qed.

Lemma ltb_trans s : forall t u, String.ltb s t = true -> String.ltb t u = true -> String.ltb s u = true.
Proof.
  induction s as [|c s IH]; intros [|d t] [|e u]; try done. rewrite !ltb_cons. intros H1 H2.
  apply orb_true_iff in H1 as [H1|[H1 H1']%andb_prop], H2 as [H2|[H2 H2']%andb_prop]; bool_to_prop;
    try (apply orb_true_iff; left; lia).
  apply orb_true_iff. right. apply andb_true_iff. split; [lia|]. by apply (IH t u).
Qed.

(** ** Decoding and encoding *)
Definition RuneError : Z := 65533.
Definition MaxRune : Z := 1114111.
Definition ValidRune (r : Z) : bool :=
  ((0 <=? r) && (r <? 55296)) || ((57343 <? r) && (r <=? MaxRune)).

(** The rune at the start of the bytes and the number of bytes it takes. *)
Definition decode_rune (l : bytes) : Z * nat :=
  match l with
  | [] => (RuneError, 0%nat)
  | c :: l1 =>
      let b := code c in
      if b <? 128 then (b, 1%nat)
      else match l1 with
      | [] => (RuneError, 1%nat)
      | d :: l2 =>
          if (194 <=? b) && (b <=? 223) then
            if cont 128 191 d then ((b - 192) * 64 + (code d - 128), 2%nat) else (RuneError, 1%nat)
          else match l2 with
          | [] => (RuneError, 1%nat)
          | e :: l3 =>
              if (224 <=? b) && (b <=? 239) then
                if cont (if b =? 224 then 160 else 128) (if b =? 237 then 159 else 191) d &&
                   cont 128 191 e
                then ((b - 224) * 4096 + (code d - 128) * 64 + (code e - 128), 3%nat)
                else (RuneError, 1%nat)
              else match l3 with
              | [] => (RuneError, 1%nat)
              | f :: _ =>
                  if (240 <=? b) && (b <=? 244) &&
                     cont (if b =? 240 then 144 else 128) (if b =? 244 then 143 else 191) d &&
                     cont 128 191 e && cont 128 191 f
                  then ((b - 240) * 262144 + (code d - 128) * 4096 + (code e - 128) * 64 +
                        (code f - 128), 4%nat)
                  else (RuneError, 1%nat)
              end
          end
      end
  end.

Definition encode_rune (r : Z) : bytes :=
  let r := if ValidRune r then r else RuneError in
  if r <? 128 then [byte_of r]
  else if r <? 2048 then [byte_of (192 + r / 64); byte_of (128 + r mod 64)]
  else if r <? 65536 then
    [byte_of (224 + r / 4096); byte_of (128 + r / 64 mod 64); byte_of (128 + r mod 64)]
  else [byte_of (240 + r / 262144); byte_of (128 + r / 4096 mod 64);
        byte_of (128 + r / 64 mod 64); byte_of (128 + r mod 64)].

Definition encode_runes (rs : list Z) : bytes := concat (encode_rune <$> rs).

(** [skip] bytes of the current rune are still to be passed over. *)
Fixpoint range_loop (index skip : nat) (l : bytes) : list (nat * Z) :=
  match l with
  | [] => []
  | _ :: l' =>
      match skip with
      | S skip' => range_loop (S index) skip' l'
      | O => let '(r, width) := decode_rune l in (index, r) :: range_loop (S index) (width - 1) l'
      end
  end.
Definition range_runes (s : string) : list (nat * Z) := range_loop 0 0 (of_string s).
Definition runes (s : string) : list Z := snd <$> range_runes s.

Example range_ex : range_runes (to_string (byte_of <$> [97; 195; 169; 200; 226; 130; 172; 240; 159; 152; 128]))
  = [(0%nat, 97); (1%nat, 233); (3%nat, RuneError); (4%nat, 8364); (7%nat, 128512)].
Proof. reflexivity. Qed.

(** ** Encoding what was decoded *)
Lemma of_string_app s t : of_string (s +:+ t) = of_string s ++ of_string t.
Proof. induction s as [|c s IH]; [done|]. simpl. by f_equal. Qed.

(** A join is split again, and splitting distributes over the separator. *)
Lemma Split_app a b sep : Split (a +:+ String sep "" +:+ b) sep = Split a sep ++ Split b sep.
Proof. unfold Split. rewrite !of_string_app, <-fmap_app. by rewrite <-split_app. Qed.
Lemma Join_cons s rest sep : rest <> [] -> Join (s :: rest) sep = s +:+ sep +:+ Join rest sep.
Proof. by destruct rest. Qed.
Lemma Split_Join sep parts : Forall (fun s => Forall (fun c => c <> sep) (of_string s)) parts -> parts <> [] ->
  Split (Join parts (String sep "")) sep = parts.
Proof.
  intros H. induction H as [|s parts Hs _ IH]; intros Hne; [done|].
  assert (Split s sep = [s]) as Hone by (unfold Split; rewrite split_no_sep by done; cbn; by rewrite to_of).
  destruct parts as [|s2 parts]; [exact Hone|].
  rewrite Join_cons, Split_app, Hone, IH by done. done.
Qed.
Lemma HasPrefix_app s t : HasPrefix (s +:+ t) s = true.
Proof.
  unfold HasPrefix. apply bool_decide_true. rewrite of_string_app.
  assert (length (of_string s) = String.length s) as <- by (clear; induction s as [|c s IH]; [done|cbn; by rewrite <-IH]).
  by rewrite take_app_length.
Qed.
Lemma HasPrefix_of s t u : u = s +:+ t -> HasPrefix u s = true.
Proof. intros ->. apply HasPrefix_app. Qed.
Lemma string_app_nil (a : string) : a +:+ "" = a.
Proof. induction a as [|x a IH]; [done|]. exact (f_equal (String x) IH). Qed.
Lemma string_app_assoc (a b c : string) : (a +:+ b) +:+ c = a +:+ (b +:+ c).
Proof. induction a as [|x a IH]; [done|]. exact (f_equal (String x) IH). Qed.
Lemma Join_app a b sep : a <> [] -> b <> [] -> Join (a ++ b) sep = Join a sep +:+ sep +:+ Join b sep.
Proof.
  intros Ha Hb. induction a as [|s a IH]; [done|]. destruct a as [|s2 a].
  - cbn [app]. by rewrite Join_cons.
  - cbn [app] in *. rewrite (Join_cons s (s2 :: a)), (Join_cons s) by done. rewrite IH by done.
    by rewrite !string_app_assoc.
Qed.

Lemma decode_width l : l <> [] -> (1 <= snd (decode_rune l) <= 4)%nat.
Proof.
  intros Hl. unfold decode_rune.
  repeat (case_match; simpl; try done; try lia).
Qed.

Lemma encode1 b : 0 <= b < 128 -> encode_rune b = [byte_of b].
Proof.
  intros Hb. unfold encode_rune, ValidRune.
  replace (0 <=? b) with true by lia. replace (b <? 55296) with true by lia. simpl.
  by replace (b <? 128) with true by lia.
Qed.

Lemma encode2 b d : 194 <= b <= 223 -> 128 <= d <= 191 ->
  encode_rune ((b - 192) * 64 + (d - 128)) = [byte_of b; byte_of d].
Proof.
  intros Hb Hd. set (r := (b - 192) * 64 + (d - 128)).
  assert (r / 64 = b - 192) as Hq by (symmetry; apply (Z.div_unique _ _ _ (d - 128)); lia).
  assert (r mod 64 = d - 128) as Hm by (symmetry; apply (Z.mod_unique _ _ (b - 192)); lia).
  unfold encode_rune, ValidRune.
  replace (0 <=? r) with true by lia. replace (r <? 55296) with true by lia. simpl.
  replace (r <? 128) with false by lia. replace (r <? 2048) with true by lia. rewrite Hq, Hm.
  f_equal; [f_equal; lia|]. do 2 f_equal. lia.
Qed.

Lemma encode3 b d e : 224 <= b <= 239 ->
  (if b =? 224 then 160 else 128) <= d <= (if b =? 237 then 159 else 191) -> 128 <= e <= 191 ->
  encode_rune ((b - 224) * 4096 + (d - 128) * 64 + (e - 128)) = [byte_of b; byte_of d; byte_of e].
Proof.
  intros Hb Hd He. set (r := (b - 224) * 4096 + (d - 128) * 64 + (e - 128)).
  assert (128 <= d <= 191 /\ 2048 <= r < 65536 /\ ~ (55296 <= r <= 57343)) as (Hd' & Hr & Hs).
  { destruct (Z.eqb_spec b 224), (Z.eqb_spec b 237); lia. }
  assert (r / 64 = (b - 224) * 64 + (d - 128)) as Hq
    by (symmetry; apply (Z.div_unique _ _ _ (e - 128)); lia).
  assert (r / 4096 = b - 224) as Hq2
    by (symmetry; apply (Z.div_unique _ _ _ ((d - 128) * 64 + (e - 128))); lia).
  assert (r mod 64 = e - 128) as Hm
    by (symmetry; apply (Z.mod_unique _ _ ((b - 224) * 64 + (d - 128))); lia).
  assert ((r / 64) mod 64 = d - 128) as Hm2
    by (rewrite Hq; symmetry; apply (Z.mod_unique _ _ (b - 224)); lia).
  unfold encode_rune, ValidRune, MaxRune.
  replace ((0 <=? r) && (r <? 55296) || (57343 <? r) && (r <=? 1114111)) with true by lia.
  replace (r <? 128) with false by lia. replace (r <? 2048) with false by lia.
  replace (r <? 65536) with true by lia. rewrite Hm2, Hm, Hq2.
  f_equal; [f_equal; lia|]. f_equal; [f_equal; lia|]. do 2 f_equal. lia.
Qed.

Lemma encode4 b d e f : 240 <= b <= 244 ->
  (if b =? 240 then 144 else 128) <= d <= (if b =? 244 then 143 else 191) ->
  128 <= e <= 191 -> 128 <= f <= 191 ->
  encode_rune ((b - 240) * 262144 + (d - 128) * 4096 + (e - 128) * 64 + (f - 128)) =
    [byte_of b; byte_of d; byte_of e; byte_of f].
Proof.
  intros Hb Hd He Hf.
  set (r := (b - 240) * 262144 + (d - 128) * 4096 + (e - 128) * 64 + (f - 128)).
  assert (128 <= d <= 191 /\ 65536 <= r <= 1114111) as (Hd' & Hr).
  { destruct (Z.eqb_spec b 240), (Z.eqb_spec b 244); lia. }
  assert (r / 64 = (b - 240) * 4096 + (d - 128) * 64 + (e - 128)) as Hq
    by (symmetry; apply (Z.div_unique _ _ _ (f - 128)); lia).
  assert (r / 4096 = (b - 240) * 64 + (d - 128)) as Hq2
    by (symmetry; apply (Z.div_unique _ _ _ ((e - 128) * 64 + (f - 128))); lia).
  assert (r / 262144 = b - 240) as Hq3 by (symmetry;
    apply (Z.div_unique _ _ _ ((d - 128) * 4096 + (e - 128) * 64 + (f - 128))); lia).
  assert (r mod 64 = f - 128) as Hm by (symmetry;
    apply (Z.mod_unique _ _ ((b - 240) * 4096 + (d - 128) * 64 + (e - 128))); lia).
  assert ((r / 64) mod 64 = e - 128) as Hm2
    by (rewrite Hq; symmetry; apply (Z.mod_unique _ _ ((b - 240) * 64 + (d - 128))); lia).
  assert ((r / 4096) mod 64 = d - 128) as Hm3
    by (rewrite Hq2; symmetry; apply (Z.mod_unique _ _ (b - 240)); lia).
  unfold encode_rune, ValidRune, MaxRune.
  replace ((0 <=? r) && (r <? 55296) || (57343 <? r) && (r <=? 1114111)) with true by lia.
  replace (r <? 128) with false by lia. replace (r <? 2048) with false by lia.
  replace (r <? 65536) with false by lia. rewrite Hm3, Hm2, Hm, Hq3.
  f_equal; [f_equal; lia|]. f_equal; [f_equal; lia|]. f_equal; [f_equal; lia|]. do 2 f_equal. lia.
Qed.

(** The first rune of well-formed bytes, whatever follows them. *)
Lemma decode_valid l k : valid_utf8 l = true -> l <> [] ->
  encode_rune (fst (decode_rune (l ++ k))) = take (snd (decode_rune (l ++ k))) l /\
  valid_utf8 (drop (snd (decode_rune (l ++ k))) l) = true /\
  (1 <= snd (decode_rune (l ++ k)) <= length l)%nat.
Proof.
  destruct l as [|c l1]; [done|]. intros Hv _. pose proof (code_range c) as Hc.
  cbn [valid_utf8] in Hv. cbn [app decode_rune].
  destruct (code c <? 128) eqn:H1.
  { simpl. split; [|split; [done|lia]]. bool_to_prop. rewrite encode1 by lia. by rewrite byte_of_code. }
  destruct l1 as [|d l2]; [done|]. cbn [app].
  destruct ((194 <=? code c) && (code c <=? 223)) eqn:H2.
  { apply andb_prop in Hv as [Hd Hv]. rewrite Hd. unfold cont in Hd. bool_to_prop. simpl.
    split; [|split; [done|lia]]. rewrite encode2 by lia. by rewrite !byte_of_code. }
  destruct l2 as [|e l3]; [done|]. cbn [app].
  destruct ((224 <=? code c) && (code c <=? 239)) eqn:H3.
  { apply andb_prop in Hv as [Hde Hv]. rewrite Hde. unfold cont in Hde. bool_to_prop. simpl.
    split; [|split; [done|lia]]. rewrite encode3 by lia. by rewrite !byte_of_code. }
  destruct l3 as [|f l4]; [done|]. cbn [app].
  apply andb_prop in Hv as [Hh Hv]. rewrite Hh. unfold cont in Hh. bool_to_prop. simpl.
  split; [|split; [done|lia]]. rewrite encode4 by lia. by rewrite !byte_of_code.
Qed.

Lemma valid_app l k : valid_utf8 l = true -> valid_utf8 (l ++ k) = valid_utf8 k.
Proof.
  induction l as [l IH] using (well_founded_induction (well_founded_ltof _ (@length ascii))).
  unfold ltof in IH. destruct l as [|c l]; [done|]. cbn [app valid_utf8].
  destruct (code c <? 128); [apply IH; simpl; lia|]. destruct l as [|d l]; [done|]. cbn [app].
  destruct ((194 <=? code c) && (code c <=? 223)).
  { intros [-> Hv]%andb_prop. apply IH; [simpl; lia|done]. }
  destruct l as [|e l]; [done|]. cbn [app]. destruct ((224 <=? code c) && (code c <=? 239)).
  { intros [-> Hv]%andb_prop. apply IH; [simpl; lia|done]. }
  destruct l as [|f l]; [done|]. cbn [app].
  intros [-> Hv]%andb_prop. apply IH; [simpl; lia|done].
Qed.

(** The first rune does not depend on what follows it. *)
Lemma decode_app l k : valid_utf8 l = true -> l <> [] -> decode_rune (l ++ k) = decode_rune l.
Proof.
  destruct l as [|c l]; [done|]. intros Hv _. cbn [valid_utf8] in Hv. cbn [app decode_rune].
  destruct (code c <? 128); [done|]. destruct l as [|d l2]; [done|]. cbn [app].
  destruct ((194 <=? code c) && (code c <=? 223)); [done|].
  destruct l2 as [|e l3]; [done|]. cbn [app].
  destruct ((224 <=? code c) && (code c <=? 239)); [done|]. by destruct l3 as [|f l4].
Qed.

Lemma decode_take l : valid_utf8 l = true -> l <> [] ->
  valid_utf8 (take (snd (decode_rune l)) l) = true.
Proof.
  destruct l as [|c l1]; [done|]. intros Hv _. cbn [valid_utf8] in Hv. cbn [decode_rune].
  destruct (code c <? 128) eqn:H1; [simpl; by rewrite H1|].
  destruct l1 as [|d l2]; [done|].
  destruct ((194 <=? code c) && (code c <=? 223)) eqn:H2.
  { apply andb_prop in Hv as [Hd Hv]. rewrite Hd. cbn [snd take valid_utf8]. by rewrite H1, H2, Hd. }
  destruct l2 as [|e l3]; [done|].
  destruct ((224 <=? code c) && (code c <=? 239)) eqn:H3.
  { apply andb_prop in Hv as [Hde Hv]. rewrite Hde. cbn [snd take valid_utf8]. by rewrite H1, H2, H3, Hde. }
  destruct l3 as [|f l4]; [done|]. apply andb_prop in Hv as [Hh Hv]. rewrite Hh.
  cbn [snd take valid_utf8]. by rewrite H1, H2, H3, Hh.
Qed.

Lemma decode_take_app l k : valid_utf8 l = true -> l <> [] ->
  decode_rune (take (snd (decode_rune l)) l ++ k) = decode_rune l.
Proof.
  intros Hv Hl. pose proof (decode_take l Hv Hl) as Ht. pose proof (decode_width l Hl) as Hw.
  assert (take (snd (decode_rune l)) l <> []) as Hn.
  { destruct l, (decode_rune _) as [r [|w]]; simpl in *; try done; lia. }
  rewrite decode_app by done. rewrite <-(decode_app _ (drop (snd (decode_rune l)) l)) by done.
  by rewrite take_drop.
Qed.

(** The encoding of a rune beyond ASCII has no ASCII byte. *)
Lemma encode_high r : 128 <= r -> Forall (fun c => 128 <= code c) (encode_rune r).
Proof.
  intros Hr. unfold encode_rune.
  assert (128 <= (if ValidRune r then r else RuneError) <= MaxRune) as Hb.
  { unfold ValidRune, RuneError, MaxRune. destruct (_ || _) eqn:Hv; [|lia]. bool_to_prop.
    destruct Hv; bool_to_prop; lia. }
  set (q := if ValidRune r then r else RuneError) in *. unfold MaxRune in Hb.
  pose proof (Z.mod_pos_bound q 64 ltac:(lia)). pose proof (Z.mod_pos_bound (q / 64) 64 ltac:(lia)).
  pose proof (Z.mod_pos_bound (q / 4096) 64 ltac:(lia)).
  assert (forall d, 0 < d -> 0 <= q / d) as Hd by (intros; apply Z.div_pos; lia).
  replace (q <? 128) with false by lia.
  destruct (q <? 2048) eqn:Hq1; [|destruct (q <? 65536) eqn:Hq2]; bool_to_prop.
  - assert (q / 64 < 32) by (apply Z.div_lt_upper_bound; lia). pose proof (Hd 64 ltac:(lia)).
    repeat constructor; rewrite code_byte_of; lia.
  - assert (q / 4096 < 16) by (apply Z.div_lt_upper_bound; lia). pose proof (Hd 4096 ltac:(lia)).
    repeat constructor; rewrite code_byte_of; lia.
  - assert (q / 262144 < 8) by (apply Z.div_lt_upper_bound; lia). pose proof (Hd 262144 ltac:(lia)).
    repeat constructor; rewrite code_byte_of; lia.
Qed.

Lemma range_loop_skip k : forall i l, range_loop i k l = range_loop (i + k) 0 (drop k l).
Proof.
  induction k as [|k IH]; intros i l; [by rewrite Nat.add_0_r|].
  destruct l as [|c l]; [done|]. cbn [range_loop drop]. rewrite IH. f_equal. lia.
Qed.

Lemma range_loop_step i c l :
  range_loop i 0 (c :: l) = (i, fst (decode_rune (c :: l))) ::
    range_loop (i + snd (decode_rune (c :: l))) 0 (drop (snd (decode_rune (c :: l))) (c :: l)).
Proof.
  pose proof (decode_width (c :: l) ltac:(done)) as Hw. cbn [range_loop].
  destruct (decode_rune (c :: l)) as [r w]. simpl in *. rewrite range_loop_skip.
  destruct w as [|w]; [lia|]. simpl. rewrite Nat.sub_0_r. do 2 f_equal. lia.
Qed.

(** The runes of bytes at index [i], well-formed ones first. *)
Lemma range_loop_app l : forall i k, valid_utf8 l = true ->
  range_loop i 0 (l ++ k) = range_loop i 0 l ++ range_loop (i + length l) 0 k.
Proof.
  induction l as [l IH] using (well_founded_induction (well_founded_ltof _ (@length ascii))).
  unfold ltof in IH. intros i k Hv. destruct l as [|c l].
  { simpl. by rewrite Nat.add_0_r. }
  destruct (decode_valid (c :: l) k Hv ltac:(done)) as (He & Hv' & Hw).
  destruct (decode_valid (c :: l) [] Hv ltac:(done)) as (He0 & _ & Hw0). rewrite app_nil_r in He0, Hw0.
  change ((c :: l) ++ k) with (c :: (l ++ k)) in *. rewrite !range_loop_step.
  pose proof (decode_app (c :: l) k Hv ltac:(done)) as Hd. change ((c :: l) ++ k) with (c :: l ++ k) in Hd.
  rewrite Hd in *. set (w := snd (decode_rune (c :: l))) in *.
  change (c :: l ++ k) with ((c :: l) ++ k). rewrite drop_app_le by lia.
  rewrite IH; [|rewrite length_drop; simpl in *; lia|done]. rewrite <-app_comm_cons.
  do 2 f_equal. f_equal. rewrite length_drop. simpl in *. lia.
Qed.

Lemma range_loop_shift l : forall i, snd <$> range_loop i 0 l = snd <$> range_loop 0 0 l.
Proof.
  induction l as [l IH] using (well_founded_induction (well_founded_ltof _ (@length ascii))).
  unfold ltof in IH. intros i. destruct l as [|c l]; [done|]. rewrite !range_loop_step.
  pose proof (decode_width (c :: l) ltac:(done)) as Hw. rewrite !fmap_cons. f_equal.
  set (w := snd (decode_rune (c :: l))) in *.
  assert (length (drop w (c :: l)) < length (c :: l))%nat as Hl by (rewrite length_drop; simpl; lia).
  rewrite (IH _ Hl (i + w)%nat). by rewrite <-(IH _ Hl w).
Qed.

(** Well-formed bytes are the encoding of their runes. *)
Lemma encode_runes_valid l i : valid_utf8 l = true ->
  encode_runes (snd <$> range_loop i 0 l) = l.
Proof.
  revert i. induction l as [l IH] using (well_founded_induction (well_founded_ltof _ (@length ascii))).
  unfold ltof in IH. intros i Hv. destruct l as [|c l]; [done|]. rewrite range_loop_step.
  destruct (decode_valid (c :: l) [] Hv ltac:(done)) as (He & Hv' & Hw). rewrite app_nil_r in *.
  unfold encode_runes in *. rewrite !fmap_cons. cbn [concat fst snd]. rewrite He, IH; [apply take_drop| |done].
  rewrite length_drop. simpl in *. lia.
Qed.

Lemma runes_app s t : ValidString s = true -> runes (s +:+ t) = runes s ++ runes t.
Proof.
  intros Hv. unfold runes, range_runes. rewrite of_string_app, range_loop_app by done.
  rewrite fmap_app. f_equal. apply range_loop_shift.
Qed.
End Runes.
