(* ===== verification/Strconv.v ===== *)
(** Package strconv, and [time.ParseDuration]: the conversions the components
    use between strings and values.

    [Unquote] interprets a Go string literal.  [ParseInt] reads a decimal
    [int64].  A [float64] is a [spec_float] of the Standard Library at precision
    53: [ParseFloat] rounds the exact decimal or hexadecimal value to the nearest
    one, and [FormatFloat] prints the shortest decimal that [ParseFloat] reads
    back.  [ParseDuration] follows package time. *)
From Stdlib Require Import ZArith Lia Ascii SpecFloat.
From S2P Require Import Prelude GoStrings Runes.
Import GoStrings Runes.

Module Strconv.

(** ** Unquote *)
Definition quote_byte : ascii := ascii_of_nat 34.
Definition backslash : ascii := ascii_of_nat 92.

(** The value of a digit of base 16, or [None] ([unhex]). *)
Definition unhex (c : ascii) : option Z :=
  let b := code c in
  if (48 <=? b) && (b <=? 57) then Some (b - 48)
  else if (97 <=? b) && (b <=? 102) then Some (b - 87)
  else if (65 <=? b) && (b <=? 70) then Some (b - 55)
  else None.

(** [n] digits of base 16 or 8. *)
Fixpoint take_digits (digit : ascii -> option Z) (base : Z) (n : nat) (v : Z) (l : bytes) :
    option (Z * bytes) :=
  match n with
  | O => Some (v, l)
  | S n' =>
      match l with
      | [] => None
      | c :: l' => match digit c with
                   | Some d => take_digits digit base n' (v * base + d) l'
                   | None => None
                   end
      end
  end.
Definition unoctal (c : ascii) : option Z :=
  let b := code c in if (48 <=? b) && (b <=? 55) then Some (b - 48) else None.

(** [strconv.UnquoteChar]: the bytes the first character stands for and the
    rest, [None] on a syntax error. *)
Definition UnquoteChar (l : bytes) (quote : ascii) : option (bytes * bytes) :=
  match l with
  | [] => None
  | c :: l1 =>
      if bool_decide (c = quote) then None
      else if 128 <=? code c then
        let '(r, size) := decode_rune l in Some (encode_rune r, drop size l)
      else if negb (bool_decide (c = backslash)) then Some ([c], l1)
      else match l1 with
      | [] => None
      | e :: s =>
          let b := code e in
          if b =? 97 then Some ([byte_of 7], s)
          else if b =? 98 then Some ([byte_of 8], s)
          else if b =? 102 then Some ([byte_of 12], s)
          else if b =? 110 then Some ([byte_of 10], s)
          else if b =? 114 then Some ([byte_of 13], s)
          else if b =? 116 then Some ([byte_of 9], s)
          else if b =? 118 then Some ([byte_of 11], s)
          else if b =? 120 then
            '(v, s') ← take_digits unhex 16 2 0 s; Some ([byte_of v], s')
          else if (b =? 117) || (b =? 85) then
            '(v, s') ← take_digits unhex 16 (if b =? 117 then 4 else 8) 0 s;
            if ValidRune v then Some (encode_rune v, s') else None
          else if (48 <=? b) && (b <=? 55) then
            '(v, s') ← take_digits unoctal 8 2 (b - 48) s;
            if 255 <? v then None else Some ([byte_of v], s')
          else if bool_decide (e = backslash) then Some ([backslash], s)
          else if (b =? 39) || (b =? 34) then
            if bool_decide (e = quote) then Some ([e], s) else None
          else None
      end
  end.

(** The characters up to the closing quote; every step consumes a byte. *)
Fixpoint unquote_loop (fuel : nat) (quote : ascii) (l : bytes) : option (bytes * bytes) :=
  match fuel with
  | O => None
  | S fuel' =>
      match l with
      | [] => None
      | c :: l1 =>
          if bool_decide (c = quote) then Some ([], l1)
          else if code c =? 10 then None
          else '(out, rest) ← UnquoteChar l quote;
               '(outs, rem) ← unquote_loop fuel' quote rest; Some (out ++ outs, rem)
      end
  end.

(** The raw form: up to the next backquote, without carriage returns. *)
Fixpoint unquote_raw (l : bytes) : option (bytes * bytes) :=
  match l with
  | [] => None
  | c :: l1 =>
      if code c =? 96 then Some ([], l1)
      else '(out, rem) ← unquote_raw l1; Some (if code c =? 13 then out else c :: out, rem)
  end.

(** One character between single quotes; nothing between them is the empty
    string. *)
Definition unquote_rune (l : bytes) : option (bytes * bytes) :=
  match l with
  | c :: l1 =>
      if code c =? 39 then Some ([], l1)
      else if code c =? 10 then None
      else '(out, rest) ← UnquoteChar l "'"%char;
           match rest with
           | q :: rem => if code q =? 39 then Some (out, rem) else None
           | [] => None
           end
  | [] => None
  end.

Definition unquote_bytes (l : bytes) : option bytes :=
  match l with
  | [] => None
  | c :: l1 =>
      '(out, rem) ← (if code c =? 96 then unquote_raw l1
                     else if code c =? 34 then unquote_loop (S (length l1)) quote_byte l1
                     else if code c =? 39 then unquote_rune l1
                     else None);
      match rem with [] => Some out | _ => None end
  end.

(** [strconv.Unquote]: [None] is [ErrSyntax]. *)
Definition Unquote (s : string) : option string := to_string <$> unquote_bytes (of_string s).

(** A string between double quotes. *)
Definition quoted (s : string) : string :=
  String quote_byte (s +:+ String quote_byte EmptyString).

Example Unquote_ex : Unquote (quoted "a\tb\x41\u00e9") =
  Some ("a" +:+ to_string [byte_of 9; "b"%char; "A"%char; byte_of 195; byte_of 169]).
Proof. reflexivity. Qed.
Example Unquote_raw_ex : Unquote "`a\n`" = Some "a\n".
Proof. reflexivity. Qed.
Example Unquote_bad : (Unquote "abc", Unquote (quoted "a\qb"), Unquote (quoted "a" +:+ "b")) = (None, None, None).
Proof. reflexivity. Qed.

(** A rune beyond ASCII stands for itself. *)
Lemma unquote_high c l fuel : 128 <= code c ->
  unquote_loop (S fuel) quote_byte (c :: l) =
    ('(outs, rem) ← unquote_loop fuel quote_byte (drop (snd (decode_rune (c :: l))) (c :: l));
     Some (encode_rune (fst (decode_rune (c :: l))) ++ outs, rem)).
Proof.
  intros Hc. cbn [unquote_loop].
  rewrite bool_decide_eq_false_2 by (intros ->; vm_compute in Hc; done).
  replace (code c =? 10) with false by lia. unfold UnquoteChar.
  rewrite bool_decide_eq_false_2 by (intros ->; vm_compute in Hc; done).
  replace (128 <=? code c) with true by lia. by destruct (decode_rune (c :: l)).
Qed.

(** A byte other than the quote, the backslash and the newline as well. *)
Lemma unquote_ascii c l fuel : code c < 128 -> code c <> 34 -> code c <> 92 -> code c <> 10 ->
  unquote_loop (S fuel) quote_byte (c :: l) =
    ('(outs, rem) ← unquote_loop fuel quote_byte l; Some (c :: outs, rem)).
Proof.
  intros Hc Hq Hb Hn. cbn [unquote_loop].
  rewrite bool_decide_eq_false_2 by (intros ->; by vm_compute in Hq).
  replace (code c =? 10) with false by lia. unfold UnquoteChar.
  rewrite bool_decide_eq_false_2 by (intros ->; by vm_compute in Hq).
  replace (128 <=? code c) with false by lia.
  by rewrite (bool_decide_eq_false_2 (c = backslash)) by (intros ->; by vm_compute in Hb).
Qed.

(** ** ParseInt *)
Definition digit (c : ascii) : option Z :=
  let b := code c in if (48 <=? b) && (b <=? 57) then Some (b - 48) else None.

(** The value of a sequence of decimal digits. *)
Fixpoint digits_value (v : Z) (l : bytes) : option Z :=
  match l with
  | [] => Some v
  | c :: l' => d ← digit c; digits_value (v * 10 + d) l'
  end.

(** An optional sign. *)
Definition split_sign (l : bytes) : bool * bytes :=
  match l with
  | c :: l' => if code c =? 45 then (true, l') else if code c =? 43 then (false, l') else (false, l)
  | [] => (false, [])
  end.

(** [strconv.ParseInt(s, 10, 64)]: [None] is a syntax or range error. *)
Definition ParseInt (s : string) : option Z :=
  let '(neg, l) := split_sign (of_string s) in
  match l with
  | [] => None
  | _ =>
      v ← digits_value 0 l;
      let n := if neg then - v else v in
      if (int64_min <=? n) && (n <=? int64_max) then Some n else None
  end.

(** [strconv.FormatInt(n, 10)], for any integer. *)
Fixpoint nat_digits (fuel : nat) (n : Z) (acc : bytes) : bytes :=
  match fuel with
  | O => acc
  | S fuel' =>
      let acc := byte_of (48 + n mod 10) :: acc in
      if n <? 10 then acc else nat_digits fuel' (n / 10) acc
  end.
Definition dec_digits (n : Z) : bytes := nat_digits (S (Z.to_nat (Z.log2 n))) n [].
Definition FormatInt (n : Z) : string :=
  to_string (if n <? 0 then "-"%char :: dec_digits (- n) else dec_digits n).

Definition is_digit (c : ascii) : Prop := 48 <= code c <= 57.

Lemma digit_of c d : 0 <= d < 10 -> c = byte_of (48 + d) -> is_digit c /\ digit c = Some d.
Proof.
  intros Hd ->. assert (code (byte_of (48 + d)) = 48 + d) as Hc by (rewrite code_byte_of; lia).
  unfold is_digit, digit. rewrite Hc. split; [lia|].
  replace (48 <=? 48 + d) with true by lia. replace (48 + d <=? 57) with true by lia. simpl. f_equal. lia.
Qed.

(** The digits of a number, in front of any others. *)
Lemma nat_digits_spec fuel : forall n acc, 0 <= n < 10 ^ Z.of_nat fuel -> (0 < fuel)%nat ->
  exists ds, nat_digits fuel n acc = ds ++ acc /\ ds <> [] /\ Forall is_digit ds /\
    forall v, digits_value v (ds ++ acc) = digits_value (v * 10 ^ Z.of_nat (length ds) + n) acc.
Proof.
  induction fuel as [|fuel IH]; intros n acc Hn Hf; [lia|]. cbn [nat_digits].
  pose proof (Z.mod_pos_bound n 10 ltac:(lia)) as Hm.
  destruct (digit_of (byte_of (48 + n mod 10)) (n mod 10) Hm eq_refl) as [Hd Hv].
  destruct (Z.ltb_spec n 10) as [Hlt|Hge].
  { exists [byte_of (48 + n mod 10)]. split_and!; [done|done|by apply Forall_singleton|].
    intros v. cbn [app digits_value]. rewrite Hv. simpl. f_equal. rewrite Z.mod_small by lia. lia. }
  assert (0 <= n / 10 < 10 ^ Z.of_nat fuel) as Hn'.
  { rewrite Nat2Z.inj_succ, Z.pow_succ_r in Hn by lia. split; [apply Z.div_pos; lia|].
    apply Z.div_lt_upper_bound; lia. }
  assert (0 < fuel)%nat as Hf' by (destruct fuel; [change (10 ^ Z.of_nat 0) with 1 in Hn';
    pose proof (Z.div_le_lower_bound n 10 1 ltac:(lia) ltac:(lia)); lia|lia]).
  destruct (IH (n / 10) (byte_of (48 + n mod 10) :: acc) Hn' Hf') as (ds & -> & Hne & Hds & Hval).
  exists (ds ++ [byte_of (48 + n mod 10)]). rewrite <-app_assoc. split_and!; [done|by destruct ds| |].
  { apply Forall_app. split; [done|by apply Forall_singleton]. }
  intros v. cbn [app]. rewrite Hval. cbn [digits_value]. rewrite Hv. simpl. f_equal.
  rewrite length_app. cbn [length]. rewrite Nat2Z.inj_add, Z.pow_add_r by lia.
  change (10 ^ Z.of_nat 1) with 10. pose proof (Z.div_mod n 10 ltac:(lia)). lia.
Qed.

Lemma dec_digits_spec n : 0 <= n ->
  dec_digits n <> [] /\ Forall is_digit (dec_digits n) /\ digits_value 0 (dec_digits n) = Some n.
Proof.
  intros Hn. destruct (nat_digits_spec (S (Z.to_nat (Z.log2 n))) n []) as (ds & He & Hne & Hds & Hv).
  - split; [done|]. rewrite Nat2Z.inj_succ, Z2Nat.id by apply Z.log2_nonneg.
    destruct (Z.eq_dec n 0) as [->|]; [done|].
    pose proof (Z.log2_spec n ltac:(lia)) as [_ Hlt].
    pose proof (Z.pow_le_mono_l 2 10 (Z.succ (Z.log2 n)) ltac:(lia)). lia.
  - lia.
  - unfold dec_digits. rewrite He, app_nil_r. split_and!; [done|done|].
    specialize (Hv 0). rewrite app_nil_r in Hv. by rewrite Hv.
Qed.

(** A formatted [int64] is read back. *)
Lemma ParseInt_FormatInt n : int64_min <= n <= int64_max -> ParseInt (FormatInt n) = Some n.
Proof.
  intros Hn. unfold FormatInt, ParseInt. rewrite of_to.
  assert (forall ds, ds <> [] -> Forall is_digit ds -> split_sign ds = (false, ds)) as Hs.
  { intros [|c ds] Hne Hds; [done|]. apply Forall_cons in Hds as [Hc _]. unfold is_digit in Hc. simpl.
    by replace (code c =? 45) with false by lia; replace (code c =? 43) with false by lia. }
  destruct (Z.ltb_spec n 0).
  - destruct (dec_digits_spec (- n) ltac:(lia)) as (Hne & Hds & Hv).
    change (split_sign ("-"%char :: dec_digits (- n))) with (true, dec_digits (- n)). cbn beta iota zeta.
    destruct (dec_digits (- n)) eqn:He; [done|]. rewrite <-He in *. rewrite Hv. cbn [mbind option_bind].
    by replace ((int64_min <=? - - n) && (- - n <=? int64_max)) with true by lia; rewrite Z.opp_involutive.
  - destruct (dec_digits_spec n ltac:(lia)) as (Hne & Hds & Hv). rewrite Hs by done. cbn beta iota zeta.
    destruct (dec_digits n) eqn:He; [done|]. rewrite <-He in *. rewrite Hv. cbn [mbind option_bind].
    by replace ((int64_min <=? n) && (n <=? int64_max)) with true by lia.
Qed.

Example FormatInt_ex : (FormatInt 0, FormatInt 1024, FormatInt (-7), FormatInt int64_min) =
  ("0", "1024", "-7", "-9223372036854775808").
Proof. reflexivity. Qed.
Example ParseInt_ex : (ParseInt "-9223372036854775808", ParseInt "9223372036854775808", ParseInt "-", ParseInt "+12")
  = (Some int64_min, None, None, Some 12).
Proof. reflexivity. Qed.

(** ** Floating point *)
Notation float64 := spec_float.
#[export] Instance float64_eq_dec : EqDecision float64.
Proof. solve_decision. Defined.
Definition prec : Z := 53.
Definition emax : Z := 1024.
Definition F_zero : float64 := S754_zero false.
Definition F_add : float64 -> float64 -> float64 := SFadd prec emax.
Definition F_sub : float64 -> float64 -> float64 := SFsub prec emax.
Definition F_mul : float64 -> float64 -> float64 := SFmul prec emax.
Definition F_div : float64 -> float64 -> float64 := SFdiv prec emax.

(** [a < b], [a <= b] and [a == b]: false when one is NaN. *)
Definition F_lt : float64 -> float64 -> bool := SFltb.
Definition F_le : float64 -> float64 -> bool := SFleb.
Definition F_eq : float64 -> float64 -> bool := SFeqb.

(** [float64(z)] for an integer, and the nearest [float64] of [m * 10^e]. *)
Definition F_of_Z (z : Z) : float64 := binary_normalize prec emax z 0 false.
Definition round_decimal (neg : bool) (m e : Z) : float64 :=
  match m with
  | Zpos p =>
      if 0 <=? e then binary_round prec emax neg (Z.to_pos (m * 10 ^ e)) 0
      else SFdiv prec emax (S754_finite neg p 0) (S754_finite false (Z.to_pos (10 ^ (- e))) 0)
  | _ => S754_zero neg
  end.
Definition round_binary (neg : bool) (m e : Z) : float64 :=
  match m with Zpos p => binary_round prec emax neg p e | _ => S754_zero neg end.

(** The integer part of a finite number. *)
Definition F_trunc (f : float64) : Z :=
  match f with
  | S754_finite neg m e =>
      let a := if 0 <=? e then Zpos m * 2 ^ e else Zpos m / 2 ^ (- e) in if neg then - a else a
  | _ => 0
  end.

(** ** ParseFloat *)
Definition lower_code (c : ascii) : Z := code (lower_byte c).

(** The mantissa as an integer, the number of its digits after the point,
    whether there was a digit, and what follows. *)
Fixpoint scan_mantissa (hex sawdot sawdigits : bool) (m frac : Z) (l : bytes) :
    Z * Z * bool * bytes :=
  match l with
  | [] => (m, frac, sawdigits, [])
  | c :: l' =>
      let b := code c in
      if b =? 95 then scan_mantissa hex sawdot sawdigits m frac l'
      else if b =? 46 then
        if sawdot then (m, frac, sawdigits, l) else scan_mantissa hex true sawdigits m frac l'
      else match (if hex then unhex c else digit c) with
      | Some d => scan_mantissa hex sawdot true (m * (if hex then 16 else 10) + d)
                    (if sawdot then frac + 1 else frac) l'
      | None => (m, frac, sawdigits, l)
      end
  end.

(** The digits of an exponent; its value stops growing above 10000. *)
Fixpoint scan_exponent (e : Z) (l : bytes) : Z * bytes :=
  match l with
  | [] => (e, [])
  | c :: l' =>
      if code c =? 95 then scan_exponent e l'
      else match digit c with
      | Some d => scan_exponent (if e <? 10000 then e * 10 + d else e) l'
      | None => (e, l)
      end
  end.

(** [underscoreOK] on what follows the sign: an underscore separates digits,
    or a base prefix from a digit. *)
Fixpoint underscore_loop (hex : bool) (saw : Z) (l : bytes) : bool :=
  match l with
  | [] => negb (saw =? 95)
  | c :: l' =>
      if bool_decide (is_Some (if hex then unhex c else digit c)) then underscore_loop hex 48 l'
      else if code c =? 95 then (saw =? 48) && underscore_loop hex 95 l'
      else negb (saw =? 95) && underscore_loop hex 33 l'
  end.
Definition base_prefix (l : bytes) : bool :=
  match l with
  | z :: x :: _ => (code z =? 48) && ((lower_code x =? 98) || (lower_code x =? 111) || (lower_code x =? 120))
  | _ => false
  end.
Definition hex_prefix (l : bytes) : bool :=
  match l with z :: x :: _ => (code z =? 48) && (lower_code x =? 120) | _ => false end.
Definition underscoreOK (l : bytes) : bool :=
  if base_prefix l then underscore_loop (hex_prefix l) 48 (drop 2 l)
  else underscore_loop false 94 l.

Definition special (neg signed : bool) (l : bytes) : option float64 :=
  let w := to_string (lower_byte <$> l) in
  if bool_decide (w = "inf" \/ w = "infinity") then Some (S754_infinity neg)
  else if negb signed && bool_decide (w = "nan") then Some S754_nan
  else None.

(** [strconv.ParseFloat(s, 64)]: [None] is [ErrSyntax] or [ErrRange]. *)
Definition ParseFloat (s : string) : option float64 :=
  let l0 := of_string s in
  let '(neg, l) := split_sign l0 in
  match special neg (negb (bool_decide (length l = length l0))) l with
  | Some f => Some f
  | None =>
      let hex := hex_prefix l && (2 <? length l)%nat in
      let '(m, frac, sawdigits, rest) :=
        scan_mantissa hex false false 0 0 (if hex then drop 2 l else l) in
      if negb sawdigits then None
      else
        e ← match rest with
            | [] => if hex then None else Some 0
            | c :: rest' =>
                if lower_code c =? (if hex then 112 else 101) then
                  let '(eneg, digits) := split_sign rest' in
                  match digits with
                  | [] => None
                  | d :: _ => match digit d, scan_exponent 0 digits with
                              | Some _, (e, []) => Some (if eneg then - e else e)
                              | _, _ => None
                              end
                  end
                else None
            end;
        if negb (underscoreOK l) then None
        else
          let f := if hex then round_binary neg m (e - 4 * frac)
                   else round_decimal neg m (e - frac) in
          match f with S754_infinity _ => None | _ => Some f end
  end.

(** ** FormatFloat *)

(** A positive finite number as a fraction. *)
Definition fraction (m : positive) (e : Z) : Z * Z :=
  if 0 <=? e then (Zpos m * 2 ^ e, 1) else (Zpos m, 2 ^ (- e)).

(** The decimal point [dp] of [num / den]: [10^(dp-1) <= num / den < 10^dp]. *)
Fixpoint scale_up (fuel : nat) (num den k : Z) : Z :=
  match fuel with
  | O => k
  | S fuel' => if den <=? num then k else scale_up fuel' (num * 10) den (k - 1)
  end.
Definition decimal_point (num den : Z) : Z :=
  if den <=? num then Z.of_nat (length (dec_digits (num / den)))
  else scale_up 400 num den 1.

(** The shortest decimal [d * 10^(dp - n)] that reads back as the number,
    the nearest one when there are several of [n] digits. *)
Fixpoint shortest_from (fuel : nat) (n : Z) (m : positive) (e num den dp : Z) : Z * Z :=
  let p := if n <? dp then 1 else 10 ^ (n - dp) in
  let q := if n <? dp then 10 ^ (dp - n) else 1 in
  let d := num * p / (den * q) in
  let up := den * q <? 2 * (num * p - d * (den * q)) in
  let first := if up then d + 1 else d in
  let second := if up then d else d + 1 in
  match fuel with
  | O => (first, dp - n)
  | S fuel' =>
      if bool_decide (round_decimal false first (dp - n) = S754_finite false m e) then (first, dp - n)
      else if bool_decide (round_decimal false second (dp - n) = S754_finite false m e) then (second, dp - n)
      else shortest_from fuel' (n + 1) m e num den dp
  end.

(** Its significant digits and its decimal point. *)
Fixpoint drop_zeros_rev (l : bytes) : bytes :=
  match l with c :: l' => if code c =? 48 then drop_zeros_rev l' else l | [] => [] end.
Definition shortest (m : positive) (e : Z) : bytes * Z :=
  let '(num, den) := fraction m e in
  let '(d, x) := shortest_from 17 1 m e num den (decimal_point num den) in
  let ds := dec_digits d in
  (reverse (drop_zeros_rev (reverse ds)), Z.of_nat (length ds) + x).

Definition zeros (n : Z) : bytes := repeat "0"%char (Z.to_nat n).

(** The formats e and f of the digits [0.ds * 10^dp]. *)
Definition format_e (ds : bytes) (dp : Z) : bytes :=
  let x := dp - 1 in
  let xs := dec_digits (Z.abs x) in
  take 1 ds ++ (if (1 <? length ds)%nat then "."%char :: drop 1 ds else []) ++
  "e"%char :: (if x <? 0 then "-"%char else "+"%char) ::
  (if (length xs <? 2)%nat then "0"%char :: xs else xs).
Definition format_f (ds : bytes) (dp : Z) : bytes :=
  (if 0 <? dp then take (Z.to_nat dp) ds ++ zeros (dp - Z.of_nat (length ds)) else ["0"%char]) ++
  (if dp <? Z.of_nat (length ds) then "."%char :: zeros (- dp) ++ drop (Z.to_nat dp) ds else []).

(** [%g] and [%v]: [strconv.FormatFloat(f, 'g', -1, 64)] with the plus sign
    fmt keeps on an infinity. *)
Definition Sprint_g (f : float64) : string :=
  match f with
  | S754_nan => "NaN"
  | S754_infinity neg => if neg then "-Inf" else "+Inf"
  | S754_zero neg => if neg then "-0" else "0"
  | S754_finite neg m e =>
      let '(ds, dp) := shortest m e in
      let x := dp - 1 in
      to_string ((if neg then ["-"%char] else []) ++
                 (if (x <? -4) || (6 <=? x) then format_e ds dp else format_f ds dp))
  end.

Example ParseFloat_ex :
  (ParseFloat "0.1", ParseFloat "1e3", ParseFloat "0x1p-2", ParseFloat "-Inf", ParseFloat "1_0.5",
   ParseFloat "1e400", ParseFloat "1.2.3", ParseFloat "") =
  (Some (S754_finite false 7205759403792794 (-56)), Some (S754_finite false 8796093022208000 (-43)),
   Some (S754_finite false 4503599627370496 (-54)), Some (S754_infinity true),
   Some (S754_finite false 5910974510923776 (-49)), None, None, None).
Proof. vm_compute. reflexivity. Qed.
Example Sprint_g_ex :
  (Sprint_g <$> (ParseFloat "0.1"), Sprint_g <$> ParseFloat "100", Sprint_g <$> ParseFloat "1e-7",
   Sprint_g <$> ParseFloat "5e-324", Sprint_g <$> ParseFloat "-12.5") =
  (Some "0.1", Some "100", Some "1e-07", Some "5e-324", Some "-12.5").
Proof. vm_compute. reflexivity. Qed.

(** ** time.ParseDuration *)

(** [leadingInt]: [None] when the integer exceeds [1 << 63]. *)
Fixpoint leadingInt (x : Z) (l : bytes) : option (Z * bytes) :=
  match l with
  | [] => Some (x, [])
  | c :: l' =>
      match digit c with
      | None => Some (x, l)
      | Some d =>
          if 2 ^ 63 / 10 <? x then None
          else if 2 ^ 63 <? x * 10 + d then None
          else leadingInt (x * 10 + d) l'
      end
  end.

(** [leadingFraction]: digits beyond the range are passed over. *)
Fixpoint leadingFraction (overflow : bool) (x : Z) (scale : float64) (l : bytes) :
    Z * float64 * bytes :=
  match l with
  | [] => (x, scale, [])
  | c :: l' =>
      match digit c with
      | None => (x, scale, l)
      | Some d =>
          if overflow || ((2 ^ 63 - 1) / 10 <? x) then leadingFraction true x scale l'
          else if 2 ^ 63 <? x * 10 + d then leadingFraction true x scale l'
          else leadingFraction false (x * 10 + d) (F_mul scale (F_of_Z 10)) l'
      end
  end.

Fixpoint take_unit (l : bytes) : bytes * bytes :=
  match l with
  | [] => ([], [])
  | c :: l' =>
      if (code c =? 46) || bool_decide (is_Some (digit c)) then ([], l)
      else let '(u, rest) := take_unit l' in (c :: u, rest)
  end.

(** [unitMap]: the two micro signs are U+00B5 and U+03BC. *)
Definition unitMap (u : bytes) : option Z :=
  let s := to_string u in
  if bool_decide (s = "ns") then Some 1
  else if bool_decide (s = "us" \/ u = [byte_of 194; byte_of 181; "s"%char] \/
                       u = [byte_of 206; byte_of 188; "s"%char]) then Some 1000
  else if bool_decide (s = "ms") then Some 1000000
  else if bool_decide (s = "s") then Some second
  else if bool_decide (s = "m") then Some minute
  else if bool_decide (s = "h") then Some hour
  else None.

(** One number with its unit: its nanoseconds and the rest. *)
Definition parse_term (l : bytes) : option (Z * bytes) :=
  match l with
  | [] => None
  | c :: _ =>
      if negb ((code c =? 46) || bool_decide (is_Some (digit c))) then None
      else
        '(v, l1) ← leadingInt 0 l;
        let pre := negb (bool_decide (length l = length l1)) in
        let '(f, scale, l2, post) :=
          match l1 with
          | p :: l1' =>
              if code p =? 46 then
                let '(f, scale, l2) := leadingFraction false 0 (F_of_Z 1) l1' in
                (f, scale, l2, negb (bool_decide (length l1' = length l2)))
              else (0, F_of_Z 1, l1, false)
          | [] => (0, F_of_Z 1, l1, false)
          end in
        if negb pre && negb post then None
        else
          let '(u, rest) := take_unit l2 in
          unit ← unitMap u;
          if 2 ^ 63 / unit <? v then None
          else
            let v := v * unit in
            if 0 <? f then
              let v := (v + F_trunc (F_mul (F_of_Z f) (F_div (F_of_Z unit) scale))) mod 2 ^ 64 in
              if 2 ^ 63 <? v then None else Some (v, rest)
            else Some (v, rest)
  end.

Fixpoint parse_terms (fuel : nat) (d : Z) (l : bytes) : option Z :=
  match l with
  | [] => Some d
  | _ =>
      match fuel with
      | O => None
      | S fuel' =>
          '(v, rest) ← parse_term l;
          if 2 ^ 63 <? (d + v) mod 2 ^ 64 then None else parse_terms fuel' ((d + v) mod 2 ^ 64) rest
      end
  end.

(** [time.ParseDuration], in nanoseconds. *)
Definition ParseDuration (s : string) : option Z :=
  let '(neg, l) := split_sign (of_string s) in
  if bool_decide (l = ["0"%char]) then Some 0
  else match l with
  | [] => None
  | _ =>
      d ← parse_terms (length l) 0 l;
      if neg then Some (wrap64 (- d)) else if int64_max <? d then None else Some d
  end.

Example ParseDuration_ex :
  (ParseDuration "1m30s", ParseDuration "1.5h", ParseDuration "250ms", ParseDuration "-2s",
   ParseDuration "5", ParseDuration "2562047h", ParseDuration "2562048h") =
  (Some (90 * second), Some (90 * minute), Some 250000000, Some (- 2 * second),
   None, Some 9223369200000000000, None).
Proof. vm_compute. reflexivity. Qed.
End Strconv.
