(* ===== verification/CallText.v ===== *)
(** The text of calls: [src/backend/internal/suites] scanner.go and the call
    parser of topology.go.

    A load plan is a text of assignments and calls in the style of Starlark.
    [scanLogicalStatements] cuts it into statements, [parseTopologyAssignment]
    and [parseTopologyInvocation] take a statement apart, [splitTopLevel] cuts the
    arguments of a call at the commas outside strings and brackets.  The loops
    all pass over strings in the same way: their common state is [scan]. *)
From Stdlib Require Import ZArith Lia Ascii.
From S2P Require Import Prelude GoStrings Runes Strconv Suites.
Import GoStrings Runes Strconv.

Module CallText.

(** ** Scanning *)
Record scan := mkScan {
  depthParen : Z;
  depthBracket : Z;
  depthBrace : Z;
  inString : bool;
  escaped : bool;
}.
Definition scan0 : scan := mkScan 0 0 0 false false.

(** The depths are all 0. *)
Definition top (st : scan) : bool :=
  (depthParen st =? 0) && (depthBracket st =? 0) && (depthBrace st =? 0).

(** The branch for a rune inside a string. *)
Definition scan_string (st : scan) (ch : Z) : scan :=
  let set := mkScan (depthParen st) (depthBracket st) (depthBrace st) in
  if escaped st then set true false
  else if ch =? 92 then set true true
  else if ch =? 34 then set false false
  else st.

Definition dec (depth : Z) : Z := if 0 <? depth then depth - 1 else depth.

(** The [switch] for a rune outside strings. *)
Definition scan_code (st : scan) (ch : Z) : scan :=
  let '(mkScan p b c i e) := st in
  if ch =? 34 then mkScan p b c true e
  else if ch =? 40 then mkScan (p + 1) b c i e
  else if ch =? 41 then mkScan (dec p) b c i e
  else if ch =? 91 then mkScan p (b + 1) c i e
  else if ch =? 93 then mkScan p (dec b) c i e
  else if ch =? 123 then mkScan p b (c + 1) i e
  else if ch =? 125 then mkScan p b (dec c) i e
  else st.

Definition scan_rune (st : scan) (ch : Z) : scan :=
  if inString st then scan_string st ch else scan_code st ch.

(** ** scanner.go *)

(** [scanStructureDepths]: the depths carry over from line to line, the string
    state does not. *)
Definition scanStructureDepths (line : string) (st : scan) : scan :=
  fold_left scan_rune (runes line) (mkScan (depthParen st) (depthBracket st) (depthBrace st) false false).

(** The index of the first number sign outside strings. *)
Fixpoint comment_index (st : scan) (l : list (nat * Z)) : option nat :=
  match l with
  | [] => None
  | (index, ch) :: l' =>
      if inString st then comment_index (scan_string st ch) l'
      else if ch =? 34 then comment_index (scan_code st ch) l'
      else if ch =? 35 then Some index
      else comment_index st l'
  end.
Definition stripScannerComment (line : string) : string :=
  match comment_index scan0 (range_runes line) with
  | Some index => slice_to line (Z.of_nat index)
  | None => line
  end.

Definition backslash_string : string := String backslash EmptyString.

(** [flush]: a statement unless it is blank. *)
Definition flush_statement (current : string) : list string :=
  let statement := TrimSpace current in
  if bool_decide (statement = "") then [] else [statement].

Fixpoint statement_loop (current : string) (st : scan) (lines : list string) : list string :=
  match lines with
  | [] => flush_statement current
  | rawLine :: rest =>
      let line := TrimSpace (stripScannerComment rawLine) in
      if bool_decide (line = "") then statement_loop current st rest
      else
        let continued := HasSuffix line backslash_string in
        let line := if continued then TrimSpace (TrimSuffix line backslash_string) else line in
        if bool_decide (line = "") then statement_loop current st rest
        else
          let current := (if bool_decide (current = "") then current else current +:+ " ") +:+ line in
          let st := scanStructureDepths line st in
          if top st && negb continued then flush_statement current ++ statement_loop "" st rest
          else statement_loop current st rest
  end.
Definition newline : ascii := byte_of 10.
Definition scanLogicalStatements (source : string) : list string :=
  statement_loop "" scan0 (Split source newline).

(** ** Identifiers *)
Definition isASCIIAlpha (ch : Z) : bool := ((97 <=? ch) && (ch <=? 122)) || ((65 <=? ch) && (ch <=? 90)).
Definition isASCIIDigit (ch : Z) : bool := (48 <=? ch) && (ch <=? 57).
Definition isTopologyIdentifierPart (ch : Z) (first : bool) : bool :=
  if first then (ch =? 95) || isASCIIAlpha ch
  else (ch =? 95) || isASCIIAlpha ch || isASCIIDigit ch.
Definition isTopologyIdentifier (value : string) : bool :=
  negb (bool_decide (value = "")) &&
  forallb (fun '(index, ch) => isTopologyIdentifierPart ch (index =? 0)%nat) (range_runes value).
Definition isTopologyCallPath (value : string) : bool :=
  negb (bool_decide (value = "")) && forallb isTopologyIdentifier (Split value ".").

(** ** Assignments *)
Fixpoint separator_loop (st : scan) (l : list (nat * Z)) : option nat :=
  match l with
  | [] => None
  | (index, ch) :: l' =>
      if inString st then separator_loop (scan_string st ch) l'
      else if (ch =? 61) && top st then Some index
      else separator_loop (scan_code st ch) l'
  end.

(** [findTopologyAssignmentSeparator]; -1 is [None]. *)
Definition findTopologyAssignmentSeparator (line : string) : option nat :=
  separator_loop scan0 (range_runes line).

Definition parseTopologyAssignment (line : string) : string * string * bool :=
  match findTopologyAssignmentSeparator line with
  | Some (S _ as separator) =>
      let left := TrimSpace (slice_to line (Z.of_nat separator)) in
      let right := TrimSpace (slice_from line (Z.of_nat separator + 1)) in
      if negb (isTopologyIdentifier left) || bool_decide (right = "") then ("", "", false)
      else (left, right, true)
  | _ => ("", "", false)
  end.

(** [splitNamedArgument]: the first equals sign outside brackets decides. *)
Definition splitNamedArgument (part : string) : string * string * bool :=
  match findTopologyAssignmentSeparator part with
  | Some index =>
      let key := TrimSpace (slice_to part (Z.of_nat index)) in
      if negb (isTopologyIdentifier key) then ("", "", false)
      else (key, TrimSpace (slice_from part (Z.of_nat index + 1)), true)
  | None => ("", "", false)
  end.

(** ** Lists of arguments *)
Definition flush_part (current : list Z) : list string :=
  let part := TrimSpace (to_string (encode_runes current)) in
  if bool_decide (part = "") then [] else [part].

Fixpoint split_loop (st : scan) (current rs : list Z) : list string :=
  match rs with
  | [] => flush_part current
  | ch :: rs' =>
      if negb (inString st) && (ch =? 44) && top st then flush_part current ++ split_loop st [] rs'
      else split_loop (scan_rune st ch) (current ++ [ch]) rs'
  end.
Definition splitTopLevel (arguments : string) : list string := split_loop scan0 [] (runes arguments).

Definition unquoteTopologyString (value : string) : option string :=
  TrimSpace <$> Unquote (TrimSpace value).

Fixpoint named_loop (keys parts : list string) : string :=
  match parts with
  | [] => ""
  | part :: rest =>
      let '(key, value, ok) := splitNamedArgument part in
      if ok && bool_decide (TrimSpace key ∈ (TrimSpace <$> keys)) then TrimSpace value
      else named_loop keys rest
  end.
Definition topologyNamedArgument (arguments : string) (keys : list string) : string :=
  if bool_decide (keys = []) then "" else named_loop keys (splitTopLevel arguments).

Definition topologyNamedStringArgument (arguments : string) (keys : list string) : string :=
  let value := topologyNamedArgument arguments keys in
  if bool_decide (value = "") then ""
  else match unquoteTopologyString value with Some resolved => resolved | None => "" end.

(** [value] without its first and last byte when it is a bracketed list. *)
Definition bracketed (trimmed : string) : option string :=
  let l := of_string trimmed in
  if (length l <? 2)%nat || negb (bool_decide (head l = Some "["%char)) ||
     negb (bool_decide (last l = Some "]"%char))
  then None else Some (to_string (take (length l - 2) (drop 1 l))).

Fixpoint dependency_items (items : list string) : list string :=
  match items with
  | [] => []
  | item :: rest =>
      let item := TrimSpace item in
      if bool_decide (item = "") then dependency_items rest
      else if HasPrefix item (String quote_byte EmptyString) then
        match unquoteTopologyString item with
        | Some resolved => if bool_decide (resolved = "") then dependency_items rest
                           else resolved :: dependency_items rest
        | None => dependency_items rest
        end
      else item :: dependency_items rest
  end.
Definition parseTopologyDependencyList (value : string) : list string :=
  match bracketed (TrimSpace value) with
  | Some inner => dependency_items (splitTopLevel inner)
  | None => []
  end.

(** ** Calls *)
Record ArtifactExport := mkExport {
  ExportPath : string;
  ExportName : string;
  On : string;
  Format : string;
}.
Record parsedTopologyInvocation := mkInvocation {
  Call : string;
  Args : string;
  Exports : list ArtifactExport;
}.

(** The errors of the call parser. *)
Inductive CallError :=
  | MissingOpeningParenthesis
  | MissingClosingParenthesis
  | MalformedCall (call : string) (cause : CallError)
  | UnsupportedChainedExpression (rest : string)
  | MalformedChainedCall (rest : string)
  | MalformedChainedArguments (method : string) (cause : CallError)
  | UnsupportedChainedCall (method : string)
  | ExportRequiresPath
  | InvalidExportPath
  | InvalidExportName
  | InvalidExportTrigger
  | InvalidExportFormat
  | UnsupportedExportArgument (key : string)
  | ExportOnePositionalPath
  | UnsupportedExportTrigger (on : string).

Fixpoint argument_loop (st : scan) (depth : Z) (n : nat) (l : bytes) : option nat :=
  match l with
  | [] => None
  | c :: l' =>
      if inString st then argument_loop (scan_string st (code c)) depth (S n) l'
      else if code c =? 34 then argument_loop (scan_code st (code c)) depth (S n) l'
      else if code c =? 40 then argument_loop st (depth + 1) (S n) l'
      else if code c =? 41 then
        if depth - 1 =? 0 then Some n else argument_loop st (depth - 1) (S n) l'
      else argument_loop st depth (S n) l'
  end.

(** [scanCallArguments]: the text between the parentheses and the index
    after them. *)
Definition scanCallArguments (expression : string) (openIndex : nat) : CallError + string * nat :=
  let l := of_string expression in
  if negb (bool_decide (l !! openIndex = Some "("%char)) then inl MissingOpeningParenthesis
  else
    let body := drop (S openIndex) l in
    match argument_loop scan0 1 0 body with
    | Some n => inr (to_string (take n body), S openIndex + n + 1)%nat
    | None => inl MissingClosingParenthesis
    end.

(** One argument of [export()]. *)
Definition export_argument (index : nat) (part : string) (export : ArtifactExport) :
    CallError + ArtifactExport :=
  let part := TrimSpace part in
  if bool_decide (part = "") then inr export
  else if Contains part "=" then
    let '(key, value, _) := Cut part "=" in
    let key := TrimSpace key in
    let value := TrimSpace value in
    if bool_decide (key = "path") then
      match unquoteTopologyString value with
      | Some r => inr (mkExport r (ExportName export) (On export) (Format export))
      | None => inl InvalidExportPath
      end
    else if bool_decide (key = "name") then
      match unquoteTopologyString value with
      | Some r => inr (mkExport (ExportPath export) r (On export) (Format export))
      | None => inl InvalidExportName
      end
    else if bool_decide (key = "on") then
      match unquoteTopologyString value with
      | Some r => inr (mkExport (ExportPath export) (ExportName export) (TrimSpace r) (Format export))
      | None => inl InvalidExportTrigger
      end
    else if bool_decide (key = "format") then
      match unquoteTopologyString value with
      | Some r => inr (mkExport (ExportPath export) (ExportName export) (On export)
                         (ToLower (TrimSpace r)))
      | None => inl InvalidExportFormat
      end
    else inl (UnsupportedExportArgument key)
  else if (0 <? index)%nat || negb (bool_decide (ExportPath export = "")) then
    inl ExportOnePositionalPath
  else match unquoteTopologyString part with
       | Some r => inr (mkExport r (ExportName export) (On export) (Format export))
       | None => inl InvalidExportPath
       end.

Fixpoint export_arguments (index : nat) (parts : list string) (export : ArtifactExport) :
    CallError + ArtifactExport :=
  match parts with
  | [] => inr export
  | part :: rest =>
      check export' := export_argument index part export in
      export_arguments (S index) rest export'
  end.

Definition parseArtifactExport (arguments : string) : CallError + ArtifactExport :=
  let parts := splitTopLevel arguments in
  if bool_decide (parts = []) then inl ExportRequiresPath
  else
    check export := export_arguments 0 parts (mkExport "" "" "success" "") in
    if bool_decide (TrimSpace (ExportPath export) = "") then inl ExportRequiresPath
    else if bool_decide (On export = "" \/ On export = "success") then
      inr (mkExport (ExportPath export) (ExportName export) "success" (Format export))
    else if bool_decide (On export = "failure" \/ On export = "always") then inr export
    else inl (UnsupportedExportTrigger (On export)).

(** The chained [.export()] calls; every round consumes at least the dot. *)
Fixpoint chain_loop (fuel : nat) (exports : list ArtifactExport) (rest : string) :
    CallError + list ArtifactExport :=
  match fuel with
  | O => inr exports
  | S fuel' =>
      if bool_decide (rest = "") then inr exports
      else if negb (HasPrefix rest ".") then inl (UnsupportedChainedExpression rest)
      else
        let rest := TrimSpace (slice_from rest 1) in
        match index_bytes "("%char (of_string rest) with
        | Some (S _ as exportIndex) =>
            let method := TrimSpace (slice_to rest (Z.of_nat exportIndex)) in
            match scanCallArguments rest exportIndex with
            | inl e => inl (MalformedChainedArguments method e)
            | inr (arguments, consumed) =>
                if negb (bool_decide (method = "export")) then inl (UnsupportedChainedCall method)
                else
                  check export := parseArtifactExport arguments in
                  chain_loop fuel' (exports ++ [export])
                    (TrimSpace (slice_from rest (Z.of_nat consumed)))
            end
        | _ => inl (MalformedChainedCall rest)
        end
  end.

(** [parseTopologyInvocation]: [None] when the expression is not a call. *)
Definition parseTopologyInvocation (expression : string) :
    CallError + option parsedTopologyInvocation :=
  match index_bytes "("%char (of_string expression) with
  | Some (S _ as openIndex) =>
      let call := TrimSpace (slice_to expression (Z.of_nat openIndex)) in
      if negb (isTopologyCallPath call) then inr None
      else
        match scanCallArguments expression openIndex with
        | inl e => inl (MalformedCall call e)
        | inr (args, nextIndex) =>
            check exports := chain_loop (S (String.length expression)) []
              (TrimSpace (slice_from expression (Z.of_nat nextIndex))) in
            inr (Some (mkInvocation call args exports))
        end
  | _ => inr None
  end.

(** ** Kinds of calls *)
Definition canonicalRuntimeCall (call : string) : string :=
  let trimmed := TrimSpace call in
  if HasPrefix trimmed "load." then "traffic." +:+ TrimPrefix trimmed "load." else trimmed.
Definition canonicalTrafficCall (call : string) : string := canonicalRuntimeCall call.

Definition VariantMockAPI : string := "mock.api".
Definition NodeKindPlugin : string := "plugin".
Definition topologyKind (call : string) : option string :=
  let call := TrimSpace call in
  let among := fun names => bool_decide (call ∈ names) in
  if among [VariantMockAPI] then Some "mock"
  else if among ["service.run"] then Some "service"
  else if among ["task.run"] then Some "task"
  else if among ["test.run"] then Some "test"
  else if among ["suite.run"] then Some "suite"
  else if among ["traffic.smoke"; "traffic.baseline"; "traffic.stress"; "traffic.spike"; "traffic.soak";
              "traffic.scalability"; "traffic.step"; "traffic.wave"; "traffic.staged";
              "traffic.constant_throughput"; "traffic.constant_pacing"; "traffic.open_model"]
  then Some "traffic"
  else if among ["security.probe"; "security.fuzz"; "security.auth"; "security.flood";
              "security.headers"; "security.verbs"; "security.graphql"; "security.cors"]
  then Some "security"
  else if among ["log.info"; "log.warn"; "log.error"; "log.debug"] then Some "log"
  else if among [NodeKindPlugin] then Some NodeKindPlugin
  else None.

(** ** Examples *)
Example statements_ex :
  scanLogicalStatements ("a = traffic.get(1) # c" +:+ String newline ("b = f(" +:+ String newline
    ("  x, [1," +:+ String newline ("2])" +:+ String newline "  "))))
  = ["a = traffic.get(1)"; "b = f( x, [1, 2])"].
Proof. vm_compute. reflexivity. Qed.
Example split_ex : splitTopLevel ("a, f(b, c), " +:+ quoted "x,y" +:+ ",, {d: 1, e: 2}") =
  ["a"; "f(b, c)"; quoted "x,y"; "{d: 1, e: 2}"].
Proof. vm_compute. reflexivity. Qed.
Example named_ex : topologyNamedStringArgument ("f(x=1), name = " +:+ quoted " n ") ["id"; "name"] = "n".
Proof. vm_compute. reflexivity. Qed.
Example invocation_ex :
  parseTopologyInvocation ("task.run(a=" +:+ quoted ")" +:+ ").export(" +:+ quoted "out" +:+ ", on=" +:+
    quoted "always" +:+ ")") =
  inr (Some (mkInvocation "task.run" ("a=" +:+ quoted ")") [mkExport "out" "" "always" ""])).
Proof. vm_compute. reflexivity. Qed.

(** ** The chain of [.export()] calls is read to its end *)
Lemma trim_left_length l : (length (trim_left l) <= length l)%nat.
Proof.
  induction l as [l IH] using (well_founded_induction (well_founded_ltof _ (@length ascii))).
  unfold ltof in IH. destruct l as [|c l]; [done|]. cbn [trim_left].
  destruct (ascii_space c); [pose proof (IH l ltac:(simpl; lia)); simpl; lia|].
  destruct l as [|d l]; [done|]. destruct (space2 c d); [pose proof (IH l ltac:(simpl; lia)); simpl; lia|].
  destruct l as [|e l]; [done|]. destruct (space3 c d e); [|done].
  pose proof (IH l ltac:(simpl; lia)); simpl; lia.
Qed.

Lemma length_to_string l : String.length (to_string l) = length l.
Proof. induction l as [|c l IH]; [done|]. simpl. by rewrite IH. Qed.
Lemma length_of_string s : length (of_string s) = String.length s.
Proof. by rewrite <-(to_of s) at 2; rewrite length_to_string. Qed.

Lemma TrimSpace_length s : (String.length (TrimSpace s) <= String.length s)%nat.
Proof.
  unfold TrimSpace. rewrite length_to_string, <-length_of_string. unfold trim_bytes.
  destruct (trim_right_prefix (trim_left (of_string s))) as [k Hk]. apply (f_equal length) in Hk.
  rewrite length_app in Hk. pose proof (trim_left_length (of_string s)). lia.
Qed.

Lemma slice_from_length s i : (String.length (slice_from s i) = String.length s - Z.to_nat i)%nat.
Proof. unfold slice_from. by rewrite length_to_string, length_drop, length_of_string. Qed.

Lemma chain_loop_fuel fuel k : forall exports rest, (String.length rest < fuel)%nat ->
  chain_loop (fuel + k) exports rest = chain_loop fuel exports rest.
Proof.
  induction fuel as [|fuel IH]; intros exports rest Hf; [lia|]. cbn [chain_loop Nat.add].
  case_bool_decide as Hrest; [done|].
  destruct (negb (HasPrefix rest ".")) eqn:Hp; [done|]. set (rest1 := TrimSpace (slice_from rest 1)).
  assert (String.length rest1 < String.length rest)%nat as Hl.
  { pose proof (TrimSpace_length (slice_from rest 1)) as Ht. rewrite slice_from_length in Ht.
    assert (0 < String.length rest)%nat by (destruct rest; simpl; [done|lia]). fold rest1 in Ht. lia. }
  destruct (index_bytes _ (of_string rest1)) as [[|n]|]; [done| |done].
  destruct (scanCallArguments rest1 (S n)) as [|[arguments consumed]]; [done|].
  destruct (negb (bool_decide (TrimSpace (slice_to rest1 _) = _))); [done|].
  destruct (parseArtifactExport arguments); [done|].
  apply IH. pose proof (TrimSpace_length (slice_from rest1 (Z.of_nat consumed))) as Ht.
  rewrite slice_from_length in Ht. lia.
Qed.

(** ** Joining arguments and splitting them *)

(** A text no comma cuts: from the state [st] it never meets a comma outside
    strings and brackets, and it ends outside of them. *)
Fixpoint closed (st : scan) (rs : list Z) : Prop :=
  match rs with
  | [] => st = scan0
  | ch :: rs' => negb (inString st) && (ch =? 44) && top st = false /\ closed (scan_rune st ch) rs'
  end.

Definition atomic (part : string) : Prop :=
  ValidString part = true /\ TrimSpace part = part /\ part <> "" /\ closed scan0 (runes part).

Lemma closed_app st rs rest : closed st rs -> closed scan0 rest -> closed st (rs ++ rest).
Proof.
  revert st. induction rs as [|ch rs IH]; intros st; simpl; [by intros ->|].
  intros [Hc Hrs] Hrest. split; [done|]. by apply IH.
Qed.

Lemma split_closed rs : forall st current rest, closed st rs ->
  split_loop st current (rs ++ rest) = split_loop scan0 (current ++ rs) rest.
Proof.
  induction rs as [|ch rs IH]; intros st current rest; simpl.
  - intros ->. by rewrite app_nil_r.
  - intros [-> Hrs]. rewrite IH by done. by rewrite <-app_assoc.
Qed.

Lemma encode_runes_of s : ValidString s = true -> to_string (encode_runes (runes s)) = s.
Proof. intros Hv. unfold runes, range_runes. rewrite encode_runes_valid by done. apply to_of. Qed.

Lemma TrimSpace_space s : TrimSpace (String " " s) = TrimSpace s.
Proof. done. Qed.

Lemma flush_atomic part (pre : bool) : atomic part ->
  flush_part ((if pre then [32] else []) ++ runes part) = [part].
Proof.
  intros (Hv & Ht & Hne & _). unfold flush_part.
  assert (TrimSpace (to_string (encode_runes ((if pre then [32] else []) ++ runes part))) = part) as ->.
  { destruct pre; cbn [app]; [|by rewrite encode_runes_of].
    transitivity (TrimSpace (String " " (to_string (encode_runes (runes part))))); [done|].
    by rewrite encode_runes_of, TrimSpace_space. }
  by rewrite bool_decide_eq_false_2.
Qed.

Lemma runes_cons c s : code c < 128 -> runes (String c s) = code c :: runes s.
Proof.
  intros Hc. change (String c s) with (String c "" +:+ s). rewrite runes_app.
  - unfold runes at 1, range_runes. simpl. by replace (code c <? 128) with true by lia.
  - unfold ValidString. simpl. by replace (code c <? 128) with true by lia.
Qed.

Lemma split_join_from parts (pre : bool) : Forall atomic parts -> parts <> [] ->
  split_loop scan0 (if pre then [32] else []) (runes (Join parts ", ")) = parts.
Proof.
  intros Hp. revert pre. induction Hp as [|part parts Hpart Hparts IH]; [done|]. intros pre _.
  pose proof Hpart as (Hv & _ & _ & Hc). destruct parts as [|part' parts].
  - cbn [Join]. rewrite <-(app_nil_r (runes part)) at 1. rewrite split_closed by done. by apply flush_atomic.
  - change (Join (part :: part' :: parts) ", ") with (part +:+ String "," (String " " (Join (part' :: parts) ", "))).
    rewrite runes_app by done. rewrite split_closed by done. rewrite !runes_cons by done.
    change (code ",") with 44. change (code " ") with 32. cbn [split_loop].
    change (negb (inString scan0) && (44 =? 44) && top scan0) with true. cbn beta iota.
    rewrite flush_atomic by done.
    change (negb (inString scan0) && (32 =? 44) && top scan0) with false. cbn beta iota.
    change (scan_rune scan0 32) with scan0. cbn [app]. by rewrite (IH true).
Qed.

Lemma split_join parts : Forall atomic parts -> splitTopLevel (Join parts ", ") = parts.
Proof.
  intros Hp. destruct parts as [|part parts]; [done|].
  by apply (split_join_from (part :: parts) false).
Qed.

(** ** Named arguments *)

(** A key: an identifier. *)
Definition is_key (k : string) : Prop := isTopologyIdentifier k = true.

Lemma range_ascii l : forall i, Forall (fun c => code c < 128) l ->
  range_loop i 0 l = zip (seq i (length l)) (code <$> l).
Proof.
  induction l as [|c l IH]; intros i Hl; [done|]. apply Forall_cons in Hl as [Hc Hl].
  rewrite range_loop_step. cbn [decode_rune]. replace (code c <? 128) with true by lia. cbn [fst snd drop].
  rewrite fmap_cons. cbn [length seq zip_with]. rewrite IH by done. by rewrite Nat.add_1_r.
Qed.

Lemma decode_ascii c l : fst (decode_rune (c :: l)) < 128 -> code c < 128.
Proof.
  intros H. cbn [decode_rune] in H. destruct (code c <? 128) eqn:Hc; [lia|].
  pose proof (code_range c). unfold cont in H.
  repeat case_match; cbn [fst] in H; unfold RuneError in H; try lia; bool_to_prop;
    destruct (code c =? 224) eqn:?; destruct (code c =? 240) eqn:?; bool_to_prop; lia.
Qed.

(** Runes below 128 are read from bytes below 128. *)
Lemma range_low l : forall i, Forall (fun p => snd p < 128) (range_loop i 0 l) -> Forall (fun c => code c < 128) l.
Proof.
  induction l as [|c l IH]; intros i Hl; [done|]. rewrite range_loop_step in Hl.
  apply Forall_cons in Hl as [Hc Hl]. apply decode_ascii in Hc. constructor; [done|].
  cbn [decode_rune] in Hl. replace (code c <? 128) with true in Hl by lia. cbn [fst snd drop] in Hl.
  by apply (IH (i + 1)%nat).
Qed.

Definition plain (ch : Z) : Prop := (ch = 95 \/ 65 <= ch <= 90 \/ 97 <= ch <= 122 \/ 48 <= ch <= 57).

Lemma identifier_plain k : is_key k -> k <> "" /\ Forall (fun c => plain (code c)) (of_string k).
Proof.
  unfold is_key, isTopologyIdentifier. intros H. apply andb_prop in H as [Hne Hall].
  bool_to_prop. split; [done|].
  assert (Forall (fun p => plain (snd p)) (range_runes k)) as Hp.
  { apply Forall_forall. intros [i ch] Hin. rewrite List.forallb_forall in Hall.
    specialize (Hall (i, ch)). rewrite <-list_elem_of_In in Hall. specialize (Hall Hin). cbn in Hall.
    unfold isTopologyIdentifierPart, isASCIIAlpha, isASCIIDigit in Hall. unfold plain. cbn [snd].
    destruct (i =? 0)%nat; lia. }
  assert (Forall (fun c => code c < 128) (of_string k)) as Hlow.
  { apply (range_low _ 0). eapply Forall_impl; [exact Hp|]. intros [i ch]. unfold plain. simpl. lia. }
  unfold range_runes in Hp. rewrite range_ascii in Hp by done. clear -Hp.
  remember 0%nat as i eqn:Hi. clear Hi. revert i Hp.
  induction (of_string k) as [|c l IH]; intros i Hp; [done|]. rewrite fmap_cons in Hp.
  cbn [length seq zip_with] in Hp. apply Forall_cons in Hp as [Hc Hp]. constructor; [done|]. by apply (IH (S i)).
Qed.

Lemma trim_bytes_fix l : lead_left l = 0%nat -> lead_right (reverse l) = 0%nat -> trim_bytes l = l.
Proof.
  intros Hl Hr. unfold trim_bytes, trim_right. rewrite trim_left_id by done.
  rewrite trim_left_rev_id by done. apply reverse_involutive.
Qed.

Lemma lead_visible sp2 sp3 c l : 32 < code c < 128 -> (forall x, sp2 c x = false) ->
  (forall x y, sp3 c x y = false) -> lead sp2 sp3 (c :: l) = 0%nat.
Proof.
  intros Hc H2 H3. cbn [lead]. replace (ascii_space c) with false by (unfold ascii_space; lia).
  destruct l as [|x l]; [done|]. rewrite H2. destruct l as [|y l]; [done|]. by rewrite H3.
Qed.

Lemma lead_left_visible c l : 32 < code c < 128 -> lead_left (c :: l) = 0%nat.
Proof. intros Hc. apply lead_visible; intros; unfold space2, space3; lia. Qed.
Lemma lead_right_visible c l : 32 < code c < 128 -> lead_right (c :: l) = 0%nat.
Proof. intros Hc. apply lead_visible; intros; unfold space2, space3; lia. Qed.

(** An ASCII byte before a trimmed end keeps it trimmed. *)
Lemma lead_right_app l c k : l <> [] -> lead_right l = 0%nat -> code c < 128 ->
  lead_right (l ++ c :: k) = 0%nat.
Proof.
  destruct l as [|x [|y [|z l]]]; [done| | |]; intros _ Hl Hc; cbn [lead app] in *.
  - destruct (ascii_space x); [done|]. replace (space2 c x) with false by (unfold space2; lia).
    destruct k as [|e k]; [done|]. by replace (space3 e c x) with false by (unfold space3; lia).
  - destruct (ascii_space x); [done|]. destruct (space2 y x); [done|].
    by replace (space3 c y x) with false by (unfold space3; lia).
  - done.
Qed.

Lemma trim_reverse_lead l : lead_right (reverse (trim_bytes l)) = 0%nat.
Proof. unfold trim_bytes, trim_right. rewrite reverse_involutive. apply trim_left_rev_lead. Qed.

(** Bytes with visible ASCII ends are not trimmed. *)
Lemma trim_visible c b b' c' : c :: b = b' ++ [c'] -> 32 < code c < 128 -> 32 < code c' < 128 ->
  trim_bytes (c :: b) = c :: b.
Proof.
  intros He Hc Hc'. apply trim_bytes_fix; [by apply lead_left_visible|].
  rewrite He, reverse_app. cbn. by apply lead_right_visible.
Qed.

Lemma key_trimmed k : is_key k -> TrimSpace k = k.
Proof.
  intros Hk. destruct (identifier_plain k Hk) as [Hne Hp]. unfold TrimSpace.
  destruct (of_string k) as [|c b] eqn:He; [by destruct k|].
  destruct (exists_last (l := c :: b) ltac:(done)) as (b' & c' & Hlast).
  rewrite (trim_visible c b b' c' Hlast); [by rewrite <-He, to_of| |].
  - apply Forall_cons in Hp as [Hc _]. unfold plain in Hc. lia.
  - rewrite Hlast in Hp. apply Forall_app in Hp as [_ Hp]. inversion Hp as [|? ? Hc]; subst.
    unfold plain in Hc. lia.
Qed.

Lemma scan_plain ch : plain ch -> scan_rune scan0 ch = scan0 /\ ch <> 61 /\ ch <> 44.
Proof.
  intros Hp. unfold plain in Hp. split; [|lia]. unfold scan_rune, scan_code. simpl.
  replace (ch =? 34) with false by lia. replace (ch =? 40) with false by lia.
  replace (ch =? 41) with false by lia. replace (ch =? 91) with false by lia.
  replace (ch =? 93) with false by lia. replace (ch =? 123) with false by lia.
  by replace (ch =? 125) with false by lia.
Qed.

Lemma separator_plain l r : forall i, Forall (fun c => plain (code c)) l ->
  separator_loop scan0 (range_loop i 0 (l ++ "="%char :: r)) = Some (i + length l)%nat.
Proof.
  induction l as [|c l IH]; intros i Hl; cbn [app]; rewrite range_loop_step.
  - cbn. f_equal. lia.
  - apply Forall_cons in Hl as [Hc Hl]. destruct (scan_plain _ Hc) as (Hs & Hne & _).
    cbn [decode_rune]. replace (code c <? 128) with true by (unfold plain in Hc; lia).
    cbn [fst snd drop separator_loop]. cbn [inString scan0]. replace (code c =? 61) with false by lia.
    cbn [andb]. change (scan_code scan0 (code c)) with (scan_rune scan0 (code c)). rewrite Hs, IH by done.
    f_equal. cbn [length]. lia.
Qed.

Definition named (a : string * string) : string := a.1 +:+ String "=" a.2.

Lemma split_named k v : is_key k -> splitNamedArgument (k +:+ String "=" v) = (k, TrimSpace v, true).
Proof.
  intros Hk. destruct (identifier_plain k Hk) as [_ Hp]. unfold splitNamedArgument, findTopologyAssignmentSeparator.
  unfold range_runes. rewrite of_string_app. cbn [of_string String.list_ascii_of_string].
  rewrite separator_plain by done. rewrite Nat.add_0_l. unfold slice_to, slice_from.
  rewrite of_string_app, Nat2Z.id, take_app_length. rewrite to_of, key_trimmed by done.
  rewrite Hk. cbn [negb].
  replace (Z.to_nat (Z.of_nat (length (of_string k)) + 1)) with (length (of_string k) + 1)%nat by lia.
  rewrite <-drop_drop, drop_app_length. cbn [drop of_string String.list_ascii_of_string].
  rewrite drop_0. change (String.list_ascii_of_string v) with (of_string v). by rewrite to_of.
Qed.

Lemma closed_plain l : Forall plain l -> closed scan0 l.
Proof.
  induction 1 as [|ch l Hc _ IH]; [done|]. destruct (scan_plain _ Hc) as (Hs & _ & Hne).
  cbn [closed]. rewrite Hs. split; [|done]. by replace (ch =? 44) with false by lia.
Qed.

Lemma valid_ascii l k : Forall (fun c => code c < 128) l -> valid_utf8 (l ++ k) = valid_utf8 k.
Proof.
  induction 1 as [|c l Hc _ IH]; [done|]. cbn [app valid_utf8]. by replace (code c <? 128) with true by lia.
Qed.

Lemma atomic_named a : is_key a.1 -> atomic a.2 -> atomic (named a).
Proof.
  destruct a as [k v]. cbn [fst snd]. intros Hk (Hv & Ht & Hne & Hc). unfold named. cbn [fst snd].
  destruct (identifier_plain k Hk) as [Hkne Hp].
  assert (Forall (fun c => code c < 128) (of_string k)) as Hlow.
  { eapply Forall_impl; [exact Hp|]. unfold plain. intros; simpl in *; lia. }
  assert (ValidString k = true) as Hkv.
  { unfold ValidString. rewrite <-(app_nil_r (of_string k)). by rewrite valid_ascii. }
  split; [|split; [|split]].
  - unfold ValidString. rewrite of_string_app, valid_ascii by done. done.
  - unfold TrimSpace in *. apply (f_equal of_string) in Ht. rewrite of_to in Ht.
    rewrite of_string_app. cbn [of_string String.list_ascii_of_string].
    change (String.list_ascii_of_string v) with (of_string v). rewrite trim_bytes_fix.
    + change ("="%char :: of_string v) with (of_string (String "=" v)). rewrite <-of_string_app. apply to_of.
    + destruct (of_string k) as [|c b] eqn:He; [by destruct k|]. apply lead_left_visible.
      apply Forall_cons in Hp as [Hc' _]. unfold plain in Hc'. lia.
    + rewrite reverse_app, reverse_cons, <-app_assoc. apply lead_right_app; [|by rewrite <-Ht; apply trim_reverse_lead|done].
      intros Hnil. apply (f_equal reverse) in Hnil. rewrite reverse_involutive in Hnil. by destruct v.
  - by destruct k.
  - rewrite runes_app by done. apply closed_app.
    + apply closed_plain. unfold runes, range_runes. rewrite range_ascii by done.
      assert (snd <$> zip (seq 0 (length (of_string k))) (code <$> of_string k) = code <$> of_string k) as ->.
      { apply snd_zip. by rewrite length_fmap, length_seq. }
      by apply Forall_fmap.
    + rewrite runes_cons by done. split; done.
Qed.

(** What [topologyNamedArgument] finds in joined arguments: the value of the
    first argument with one of the keys. *)
Definition first_named (keys : list string) (args : list (string * string)) : string :=
  default "" (snd <$> head (filter (fun a => a.1 ∈ (TrimSpace <$> keys)) args)).

Lemma named_join keys args : keys <> [] -> Forall (fun a => is_key a.1 /\ atomic a.2) args ->
  topologyNamedArgument (Join (named <$> args) ", ") keys = first_named keys args.
Proof.
  intros Hkeys Hargs. unfold topologyNamedArgument. rewrite bool_decide_eq_false_2 by done.
  rewrite split_join.
  2: { apply Forall_fmap. eapply Forall_impl; [exact Hargs|]. intros a [Hk Ha]. by apply atomic_named. }
  unfold first_named. induction Hargs as [|[k v] args [Hk (_ & Ht & _)] _ IH]; [done|].
  cbn [fst snd] in *. rewrite fmap_cons. cbn [named_loop]. unfold named at 1. cbn [fst snd].
  rewrite split_named by done. rewrite key_trimmed, filter_cons by done. cbn [fst].
  case_bool_decide as Hin.
  - rewrite decide_True by done. cbn. by rewrite TrimSpace_idemp.
  - rewrite decide_False by done. exact IH.
Qed.

(** *** Quoted texts *)
Definition quotable (s : string) : Prop :=
  ValidString s = true /\ Forall (fun c => code c <> 34 /\ code c <> 92 /\ code c <> 10) (of_string s).

Lemma rune_byte s r : ValidString s = true -> 0 <= r < 128 -> r ∈ runes s -> byte_of r ∈ of_string s.
Proof.
  intros Hv Hr Hin. rewrite <-(encode_runes_valid (of_string s) 0 Hv).
  change (snd <$> range_loop 0 0 (of_string s)) with (runes s). unfold encode_runes.
  induction (runes s) as [|r' rs IH]; [by apply not_elem_of_nil in Hin|].
  rewrite fmap_cons. cbn [concat]. apply elem_of_app. apply elem_of_cons in Hin as [<-|Hin]; [|by right; apply IH].
  left. rewrite encode1 by done. by left.
Qed.

Lemma closed_in_string rs st rest : inString st = true -> escaped st = false ->
  (forall r, r ∈ rs -> r <> 34 /\ r <> 92) -> closed st rest -> closed st (rs ++ rest).
Proof.
  intros Hi He Hrs Hrest. induction rs as [|r rs IH]; [done|]. cbn [app closed].
  destruct (Hrs r ltac:(by left)) as [H34 H92]. rewrite Hi. split; [done|].
  unfold scan_rune, scan_string. rewrite Hi, He.
  replace (r =? 92) with false by lia. replace (r =? 34) with false by lia.
  apply IH. intros r' Hr'. apply Hrs. by right.
Qed.

Lemma runes_quoted s : ValidString s = true -> runes (quoted s) = 34 :: runes s ++ [34].
Proof. intros Hv. unfold quoted. rewrite runes_cons by done. by rewrite runes_app. Qed.

Lemma trim_quoted s : TrimSpace (quoted s) = quoted s.
Proof.
  unfold TrimSpace, quoted. cbn [of_string String.list_ascii_of_string].
  change (String.list_ascii_of_string ?x) with (of_string x). rewrite of_string_app.
  rewrite (trim_visible quote_byte _ (quote_byte :: of_string s) quote_byte); [|done|done|done].
  rewrite <-of_string_app. exact (to_of (String quote_byte (s +:+ String quote_byte ""))).
Qed.

Lemma atomic_quoted s : quotable s -> atomic (quoted s).
Proof.
  intros [Hv Hs]. split; [|split; [|split]].
  - unfold ValidString, quoted. cbn [of_string String.list_ascii_of_string].
    change (String.list_ascii_of_string ?x) with (of_string x). rewrite of_string_app.
    change (valid_utf8 (of_string s ++ [quote_byte]) = true). by rewrite valid_app.
  - apply trim_quoted.
  - done.
  - rewrite runes_quoted by done. cbn [closed].
    split; [done|]. apply closed_in_string; [done|done| |by vm_compute].
    intros r Hr. split; intros ->; apply rune_byte in Hr; try done; rewrite Forall_forall in Hs;
      destruct (Hs _ Hr) as (H1 & H2 & _); by vm_compute in H1, H2.
Qed.

Lemma unquote_plain l k : forall fuel, valid_utf8 l = true ->
  Forall (fun c => code c <> 34 /\ code c <> 92 /\ code c <> 10) l -> (length l < fuel)%nat ->
  unquote_loop fuel quote_byte (l ++ quote_byte :: k) = Some (l, k).
Proof.
  induction l as [l IH] using (well_founded_induction (well_founded_ltof _ (@length ascii))).
  unfold ltof in IH. intros [|fuel] Hv Hl Hf; [lia|]. destruct l as [|c l]; [done|].
  pose proof Hl as Hl'. apply Forall_cons in Hl' as [(H1 & H2 & H3) Hl'].
  destruct (Z.ltb_spec (code c) 128) as [Hlow|Hhigh].
  - cbn [app]. rewrite unquote_ascii by done. cbn [valid_utf8] in Hv.
    replace (code c <? 128) with true in Hv by lia. rewrite IH; [done|simpl; lia|done|done|simpl in Hf; lia].
  - destruct (decode_valid (c :: l) (quote_byte :: k) Hv ltac:(done)) as (He & Hv' & Hw).
    change ((c :: l) ++ quote_byte :: k) with (c :: (l ++ quote_byte :: k)) in *.
    rewrite unquote_high by done. set (w := snd _) in *. rewrite He.
    change (c :: l ++ quote_byte :: k) with ((c :: l) ++ quote_byte :: k). rewrite drop_app_le by lia.
    rewrite IH; [cbn; by rewrite take_drop|rewrite length_drop; simpl in *; lia|done| |rewrite length_drop; simpl in *; lia].
    by apply Forall_drop.
Qed.

Lemma Unquote_quoted s : quotable s -> Unquote (quoted s) = Some s.
Proof.
  intros [Hv Hs]. unfold Unquote, quoted. cbn [of_string String.list_ascii_of_string].
  change (String.list_ascii_of_string ?x) with (of_string x). rewrite of_string_app.
  unfold unquote_bytes. change (code quote_byte =? 96) with false. change (code quote_byte =? 34) with true.
  cbn beta iota. change (of_string (String quote_byte "")) with [quote_byte].
  rewrite unquote_plain; [cbn; by rewrite to_of|done|done|]. rewrite length_app. lia.
Qed.

(** The arguments of a call are what was joined.  When values without an
    unprotected comma are written as [key=value], joined by commas, the parser
    finds, for any keys asked for, the value of the first argument that has one
    of them, and nothing when none has.  A quoted text without quotes,
    backslashes and newlines is such a value, and is read back up to the white
    space around it. *)
Theorem arguments_round_trip keys args s (Hkeys : keys <> [])
    (Hargs : Forall (fun a => is_key a.1 /\ atomic a.2) args) (Hs : quotable s) :
  topologyNamedArgument (Join (named <$> args) ", ") keys = first_named keys args /\
  atomic (quoted s) /\
  (first_named keys args = quoted s ->
   topologyNamedStringArgument (Join (named <$> args) ", ") keys = TrimSpace s).
Proof.
  split; [by apply named_join|]. split; [by apply atomic_quoted|]. intros Hf.
  unfold topologyNamedStringArgument. rewrite named_join by done. rewrite Hf, bool_decide_eq_false_2 by done.
  unfold unquoteTopologyString. by rewrite trim_quoted, Unquote_quoted.
Qed.
Lemma arguments_round_trip_witness :
  let args := [("name", quoted "a, b"); ("users", "[f(1, 2), g]"); ("name", quoted "c")] in
  topologyNamedArgument (Join (named <$> args) ", ") ["id"; "name"] = quoted "a, b" /\
  atomic (quoted "a, b") /\
  (first_named ["id"; "name"] args = quoted "a, b" ->
   topologyNamedStringArgument (Join (named <$> args) ", ") ["id"; "name"] = TrimSpace "a, b").
Proof.
  apply (arguments_round_trip ["id"; "name"]
    [("name", quoted "a, b"); ("users", "[f(1, 2), g]"); ("name", quoted "c")] "a, b").
  - done.
  - repeat constructor; vm_compute; congruence.
  - split; [done|]. vm_compute. repeat constructor; congruence.
Defined.
End CallText.
