(* ===== verification/Literals.v ===== *)
(** Literals: the literal parser of [src/backend/internal/suites/load_plan.go]
    and what its values are turned into.

    [parseValue], [parseObject] and [parseList] call one another on the bytes that
    remain; [fuel] bounds the depth of the calls, and [parseLiteralValue] gives
    enough of it for every text ([parse_total]).  [json_value] is [json.Marshal]
    and [Sprint] is [fmt.Sprint] on the values of the parser.  The JSON text of a
    value is again a literal for that value ([json_round_trip]). *)
From Stdlib Require Import ZArith Lia Ascii SpecFloat.
From S2P Require Import Prelude GoStrings Runes Strconv CallText.
Import GoStrings Runes Strconv CallText.

Module Literals.

(** The values of type [any] the parser makes.  A map is the list of its
    entries, sorted by key. *)
Inductive value :=
  | VNil
  | VBool (b : bool)
  | VInt (n : Z)
  | VFloat (f : float64)
  | VString (s : string)
  | VList (items : list value)
  | VMap (entries : list (string * value)).

Inductive LiteralError :=
  | EmptyLiteral
  | UnterminatedString
  | InvalidSyntax
  | UnterminatedObject
  | ExpectedColon
  | ExpectedCommaOrBrace
  | MissingObjectKey
  | UnterminatedList
  | ExpectedCommaOrBracket
  | ExpectedIdentifier
  | TrailingContent (remaining : string)
  | OutOfFuel.

(** [result[key] = value]. *)
Fixpoint put (key : string) (v : value) (m : list (string * value)) : list (string * value) :=
  match m with
  | [] => [(key, v)]
  | (k, w) :: m' =>
      if bool_decide (k = key) then (key, v) :: m'
      else if String.ltb key k then (key, v) :: m
      else (k, w) :: put key v m'
  end.

(** ** The parser *)
Fixpoint skipWhitespace (l : bytes) : bytes :=
  match l with
  | c :: l' => if bool_decide (code c ∈ [32; 9; 13; 10]) then skipWhitespace l' else l
  | [] => []
  end.

(** The bytes of a string after its opening quote, up to and with the closing
    one. *)
Fixpoint string_end (escaped : bool) (l : bytes) : option (bytes * bytes) :=
  match l with
  | [] => None
  | ch :: l' =>
      if escaped then '(s, rest) ← string_end false l'; Some (ch :: s, rest)
      else if code ch =? 92 then '(s, rest) ← string_end true l'; Some (ch :: s, rest)
      else if code ch =? 34 then Some ([ch], l')
      else '(s, rest) ← string_end false l'; Some (ch :: s, rest)
  end.

(** [l] starts with a quote. *)
Definition parseString (l : bytes) : LiteralError + string * bytes :=
  match l with
  | [] => inl UnterminatedString
  | q :: l' =>
      match string_end false l' with
      | None => inl UnterminatedString
      | Some (s, rest) =>
          match Unquote (to_string (q :: s)) with
          | Some v => inr (v, rest)
          | None => inl InvalidSyntax
          end
      end
  end.

Fixpoint identifier_end (first : bool) (l : bytes) : bytes * bytes :=
  match l with
  | c :: l' =>
      if isTopologyIdentifierPart (code c) first then
        let '(s, rest) := identifier_end false l' in (c :: s, rest)
      else ([], l)
  | [] => ([], [])
  end.
Definition readIdentifier (l : bytes) : LiteralError + string * bytes :=
  match identifier_end true l with
  | ([], _) => inl ExpectedIdentifier
  | (s, rest) => inr (to_string s, rest)
  end.

Definition parseIdentifier (l : bytes) : LiteralError + value * bytes :=
  match readIdentifier l with
  | inl e => inl e
  | inr (identifier, rest) =>
      if bool_decide (identifier = "True" \/ identifier = "true") then inr (VBool true, rest)
      else if bool_decide (identifier = "False" \/ identifier = "false") then inr (VBool false, rest)
      else if bool_decide (identifier = "None" \/ identifier = "null") then inr (VNil, rest)
      else inr (VString identifier, rest)
  end.

Definition isLiteralNumberStart (c : ascii) : bool := (code c =? 45) || isASCIIDigit (code c).
Definition number_part (c : ascii) : bool := (code c =? 46) || isASCIIDigit (code c).
Fixpoint number_end (l : bytes) : bytes * bytes :=
  match l with
  | c :: l' => if number_part c then let '(s, rest) := number_end l' in (c :: s, rest) else ([], l)
  | [] => ([], [])
  end.
Definition parseNumber (l : bytes) : LiteralError + value * bytes :=
  let '(raw, rest) :=
    match l with
    | c :: l' => if code c =? 45 then let '(s, rest) := number_end l' in (c :: s, rest)
                 else number_end l
    | [] => ([], [])
    end in
  let raw := to_string raw in
  if Contains raw "." then
    match ParseFloat raw with Some f => inr (VFloat f, rest) | None => inl InvalidSyntax end
  else match ParseInt raw with Some n => inr (VInt n, rest) | None => inl InvalidSyntax end.

Definition parseObjectKey (l : bytes) : LiteralError + string * bytes :=
  match skipWhitespace l with
  | [] => inl MissingObjectKey
  | (c :: _) as l' => if code c =? 34 then parseString l' else readIdentifier l'
  end.

Fixpoint parseValue (fuel : nat) (l : bytes) : LiteralError + value * bytes :=
  match fuel with
  | O => inl OutOfFuel
  | S fuel =>
      match skipWhitespace l with
      | [] => inl EmptyLiteral
      | (c :: l') as l =>
          if code c =? 34 then
            match parseString l with inl e => inl e | inr (s, rest) => inr (VString s, rest) end
          else if code c =? 123 then parseObject fuel [] l'
          else if code c =? 91 then parseList fuel [] l'
          else if isLiteralNumberStart c then parseNumber l
          else parseIdentifier l
      end
  end
(** The loop of [parseObject], after its opening brace. *)
with parseObject (fuel : nat) (result : list (string * value)) (l : bytes) :
    LiteralError + value * bytes :=
  match fuel with
  | O => inl OutOfFuel
  | S fuel =>
      match skipWhitespace l with
      | [] => inl UnterminatedObject
      | (c :: l') as l =>
          if code c =? 125 then inr (VMap result, l')
          else match parseObjectKey l with
          | inl e => inl e
          | inr (key, l1) =>
              match skipWhitespace l1 with
              | c1 :: l2 =>
                  if negb (code c1 =? 58) then inl ExpectedColon
                  else match parseValue fuel l2 with
                  | inl e => inl e
                  | inr (v, l3) =>
                      let result := put key v result in
                      match skipWhitespace l3 with
                      | [] => inl UnterminatedObject
                      | c3 :: l4 =>
                          if code c3 =? 44 then parseObject fuel result l4
                          else if code c3 =? 125 then inr (VMap result, l4)
                          else inl ExpectedCommaOrBrace
                      end
                  end
              | [] => inl ExpectedColon
              end
          end
      end
  end
(** The loop of [parseList], after its opening bracket. *)
with parseList (fuel : nat) (items : list value) (l : bytes) : LiteralError + value * bytes :=
  match fuel with
  | O => inl OutOfFuel
  | S fuel =>
      match skipWhitespace l with
      | [] => inl UnterminatedList
      | (c :: l') as l =>
          if code c =? 93 then inr (VList items, l')
          else match parseValue fuel l with
          | inl e => inl e
          | inr (v, l3) =>
              let items := items ++ [v] in
              match skipWhitespace l3 with
              | [] => inl UnterminatedList
              | c3 :: l4 =>
                  if code c3 =? 44 then parseList fuel items l4
                  else if code c3 =? 93 then inr (VList items, l4)
                  else inl ExpectedCommaOrBracket
              end
          end
      end
  end.

Definition parseLiteralValue (text : string) : LiteralError + value :=
  let source := of_string (TrimSpace text) in
  match parseValue (2 * length source + 1) source with
  | inl e => inl e
  | inr (parsed, rest) =>
      match skipWhitespace rest with
      | [] => inr parsed
      | remaining => inl (TrailingContent (to_string remaining))
      end
  end.

(** ** fmt.Sprint *)
Fixpoint Sprint (v : value) : string :=
  match v with
  | VNil => "<nil>"
  | VBool b => if b then "true" else "false"
  | VInt n => FormatInt n
  | VFloat f => Sprint_g f
  | VString s => s
  | VList items => "[" +:+ Join (Sprint <$> items) " " +:+ "]"
  | VMap entries =>
      "map[" +:+ Join ((fun '(k, w) => k +:+ ":" +:+ Sprint w) <$> entries) " " +:+ "]"
  end.

(** [parseStringMapLiteral] *)
Definition parseStringMapLiteral (text : string) : option LiteralError + list (string * string) :=
  match parseLiteralValue text with
  | inl e => inl (Some e)
  | inr (VMap object) => inr ((fun '(key, item) => (key, Sprint item)) <$> object)
  | inr _ => inl None
  end.

(** ** json.Marshal *)
Definition hex_digit (n : Z) : ascii := byte_of (if n <? 10 then 48 + n else 87 + n).
Definition u_escape (n : Z) : bytes :=
  [backslash; "u"%char; hex_digit (n / 4096); hex_digit (n / 256 mod 16); hex_digit (n / 16 mod 16);
   hex_digit (n mod 16)].

(** A byte below 128, escaped for HTML as well. *)
Definition json_byte (c : ascii) : bytes :=
  let b := code c in
  if (b =? 34) || (b =? 92) then [backslash; c]
  else if b =? 8 then [backslash; "b"%char]
  else if b =? 12 then [backslash; "f"%char]
  else if b =? 10 then [backslash; "n"%char]
  else if b =? 13 then [backslash; "r"%char]
  else if b =? 9 then [backslash; "t"%char]
  else if (b <? 32) || (b =? 60) || (b =? 62) || (b =? 38) then u_escape b
  else [c].

Fixpoint json_runes (skip : nat) (l : bytes) : bytes :=
  match l with
  | [] => []
  | c :: l' =>
      match skip with
      | S skip' => json_runes skip' l'
      | O =>
          if code c <? 128 then json_byte c ++ json_runes 0 l'
          else
            let '(r, size) := decode_rune l in
            (if (r =? RuneError) && (size =? 1)%nat then u_escape RuneError
             else if (r =? 8232) || (r =? 8233) then u_escape r
             else take size l) ++ json_runes (size - 1) l'
      end
  end.
Definition json_string (s : string) : bytes := quote_byte :: json_runes 0 (of_string s) ++ [quote_byte].

(** [floatEncoder]; [None] is an unsupported value. *)
Definition json_float (f : float64) : option bytes :=
  match f with
  | S754_zero neg => Some (if neg then of_string "-0" else ["0"%char])
  | S754_finite neg m e =>
      let '(ds, dp) := shortest m e in
      let small := F_lt (S754_finite false m e) (round_decimal false 1 (-6)) in
      let large := F_le (round_decimal false 1 21) (S754_finite false m e) in
      let x := dp - 1 in
      Some ((if neg then ["-"%char] else []) ++
            (if small || large then
               if (-10 <? x) && (x <? 0) then
                 take 1 ds ++ (if (1 <? length ds)%nat then "."%char :: drop 1 ds else []) ++
                 ["e"%char; "-"%char; byte_of (48 - x)]
               else format_e ds dp
             else format_f ds dp))
  | _ => None
  end.

Fixpoint join_bytes (parts : list bytes) : bytes :=
  match parts with
  | [] => []
  | [p] => p
  | p :: rest => p ++ ","%char :: join_bytes rest
  end.

Fixpoint all_some {A} (l : list (option A)) : option (list A) :=
  match l with
  | [] => Some []
  | x :: l' => a ← x; rest ← all_some l'; Some (a :: rest)
  end.

Fixpoint json_value (v : value) : option bytes :=
  match v with
  | VNil => Some (of_string "null")
  | VBool b => Some (of_string (if b then "true" else "false"))
  | VInt n => Some (of_string (FormatInt n))
  | VFloat f => json_float f
  | VString s => Some (json_string s)
  | VList items =>
      parts ← all_some (json_value <$> items);
      Some ("["%char :: join_bytes parts ++ ["]"%char])
  | VMap entries =>
      parts ← all_some ((fun '(k, w) => b ← json_value w; Some (json_string k ++ ":"%char :: b)) <$> entries);
      Some ("{"%char :: join_bytes parts ++ ["}"%char])
  end.

(** [parseJSONLiteral]; [inl None] is an encoding error. *)
Definition parseJSONLiteral (text : string) : option LiteralError + string :=
  match parseLiteralValue text with
  | inl e => inl (Some e)
  | inr literal => match json_value literal with
                   | Some encoded => inr (to_string encoded)
                   | None => inl None
                   end
  end.

Example literal_ex :
  parseJSONLiteral ("{b: [1, -2.50, True,], " +:+ quoted "a" +:+ " : " +:+ quoted "x<\n" +:+ ", c: None}") =
  inr ("{" +:+ quoted "a" +:+ ":" +:+ quoted "x\u003c\n" +:+ "," +:+ quoted "b" +:+ ":[1,-2.5,true]," +:+
       quoted "c" +:+ ":null}").
Proof. vm_compute. reflexivity. Qed.
Example literal_bad : parseLiteralValue "[1 2]" = inl ExpectedCommaOrBracket.
Proof. vm_compute. reflexivity. Qed.
Example Sprint_ex : Sprint (VMap [("a", VList [VInt 1; VNil]); ("b", VBool true)]) = "map[a:[1 <nil>] b:true]".
Proof. reflexivity. Qed.

(** ** Every text is parsed or refused *)
Lemma skip_length l : (length (skipWhitespace l) <= length l)%nat.
Proof. induction l as [|c l IH]; simpl; [done|]. case_bool_decide; simpl; lia. Qed.

Lemma string_end_length l : forall escaped s rest,
  string_end escaped l = Some (s, rest) -> (length rest < length l)%nat.
Proof.
  induction l as [|c l IH]; intros escaped s rest; simpl; [done|].
  assert (forall e, (r ← string_end e l; let '(s, rest) := r in Some (c :: s, rest)) = Some (s, rest) ->
    (length rest < S (length l))%nat) as Hgo.
  { intros e H. destruct (string_end e l) as [[s' rest']|] eqn:He; simplify_eq/=.
    apply IH in He. lia. }
  destruct escaped; [apply Hgo|]. destruct (code c =? 92); [apply Hgo|].
  destruct (code c =? 34); [|apply Hgo]. intros [= <- <-]. lia.
Qed.

Lemma parseString_length l v rest : parseString l = inr (v, rest) -> (length rest < length l)%nat.
Proof.
  destruct l as [|q l]; simpl; [done|].
  destruct (string_end false l) as [[s r]|] eqn:He; [|done].
  destruct (Unquote _); intros [= <- <-]. apply string_end_length in He. lia.
Qed.

Lemma identifier_end_length l : forall first s rest,
  identifier_end first l = (s, rest) -> (length s + length rest = length l)%nat.
Proof.
  induction l as [|c l IH]; intros first s rest; simpl; [by intros [= <- <-]|].
  destruct (isTopologyIdentifierPart _ _); [|by intros [= <- <-]].
  destruct (identifier_end false l) as [s' r'] eqn:He. intros [= <- <-]. apply IH in He. simpl. lia.
Qed.

Lemma readIdentifier_length l v rest : readIdentifier l = inr (v, rest) -> (length rest < length l)%nat.
Proof.
  unfold readIdentifier. destruct (identifier_end true l) as [s r] eqn:He.
  apply identifier_end_length in He. destruct s; [done|]. intros [= <- <-]. simpl in He. lia.
Qed.

Lemma number_end_length l : forall s rest,
  number_end l = (s, rest) -> (length s + length rest = length l)%nat.
Proof.
  induction l as [|c l IH]; intros s rest; simpl; [by intros [= <- <-]|].
  destruct (number_part c); [|by intros [= <- <-]].
  destruct (number_end l) as [s' r'] eqn:He. intros [= <- <-]. rewrite <-(IH s' r' eq_refl). simpl. lia.
Qed.

Lemma parseNumber_length l v rest : parseNumber l = inr (v, rest) -> (length rest < length l)%nat.
Proof.
  unfold parseNumber. destruct l as [|c l]; [done|]. intros H.
  assert (forall raw r, ((if code c =? 45 then let '(s, rest) := number_end l in (c :: s, rest)
    else number_end (c :: l)) = (raw, r)) ->
    (raw = [] \/ length r < length (c :: l))%nat) as Hraw.
  { intros raw r. destruct (code c =? 45).
    - destruct (number_end l) as [s r'] eqn:He. intros [= <- <-]. apply number_end_length in He.
      right. simpl. lia.
    - destruct (number_end (c :: l)) as [s r'] eqn:He. intros [= <- <-].
      apply number_end_length in He. destruct s; [by left|right]. simpl in *. lia. }
  destruct (if code c =? 45 then _ else _) as [raw r] eqn:He. specialize (Hraw raw r eq_refl).
  destruct Hraw as [->|Hlt]; [vm_compute in H; done|].
  destruct (Contains _ _); [destruct (ParseFloat _)|destruct (ParseInt _)]; by simplify_eq.
Qed.

Lemma parseIdentifier_length l v rest :
  parseIdentifier l = inr (v, rest) -> (length rest < length l)%nat.
Proof.
  unfold parseIdentifier. destruct (readIdentifier l) as [|[s r]] eqn:He; [done|].
  apply readIdentifier_length in He. repeat case_bool_decide; by intros [= <- <-].
Qed.

Lemma parseObjectKey_length l v rest :
  parseObjectKey l = inr (v, rest) -> (length rest < length l)%nat.
Proof.
  unfold parseObjectKey. pose proof (skip_length l) as Hs.
  destruct (skipWhitespace l) as [|c l']; [done|].
  destruct (code c =? 34); intros H; [apply parseString_length in H|apply readIdentifier_length in H]; lia.
Qed.

(** What a parser that succeeds leaves is shorter than what it was given. *)
Lemma parse_shrinks fuel :
  (forall l v rest, parseValue fuel l = inr (v, rest) -> (length rest < length l)%nat) /\
  (forall m l v rest, parseObject fuel m l = inr (v, rest) -> (length rest < length l)%nat) /\
  (forall m l v rest, parseList fuel m l = inr (v, rest) -> (length rest < length l)%nat).
Proof.
  induction fuel as [|fuel (IHv & IHo & IHl)]; [done|]. split; [|split]; cbn [parseValue parseObject parseList Nat.add].
  - intros l v rest. pose proof (skip_length l) as Hs. destruct (skipWhitespace l) as [|c l']; [done|].
    simpl in Hs. destruct (code c =? 34).
    { destruct (parseString (c :: l')) as [|[s r]] eqn:He; [done|]. intros [= <- <-].
      apply parseString_length in He. simpl in He. lia. }
    destruct (code c =? 123); [intros H; apply IHo in H; lia|].
    destruct (code c =? 91); [intros H; apply IHl in H; lia|].
    destruct (isLiteralNumberStart c); intros H.
    + apply parseNumber_length in H. simpl in H. lia.
    + apply parseIdentifier_length in H. simpl in H. lia.
  - intros m l v rest. pose proof (skip_length l) as Hs. destruct (skipWhitespace l) as [|c l']; [done|].
    simpl in Hs. destruct (code c =? 125); [intros [= <- <-]; lia|].
    destruct (parseObjectKey (c :: l')) as [|[key l1]] eqn:Hk; [done|].
    apply parseObjectKey_length in Hk. simpl in Hk. pose proof (skip_length l1) as Hs1.
    destruct (skipWhitespace l1) as [|c1 l2]; [done|]. simpl in Hs1.
    destruct (negb (code c1 =? 58)); [done|].
    destruct (parseValue fuel l2) as [|[w l3]] eqn:Hv; [done|]. apply IHv in Hv.
    pose proof (skip_length l3) as Hs3. destruct (skipWhitespace l3) as [|c3 l4]; [done|]. simpl in Hs3.
    destruct (code c3 =? 44); [intros H; apply IHo in H; lia|].
    destruct (code c3 =? 125); [|done]. intros [= <- <-]. lia.
  - intros m l v rest. pose proof (skip_length l) as Hs. destruct (skipWhitespace l) as [|c l']; [done|].
    simpl in Hs. destruct (code c =? 93); [intros [= <- <-]; lia|].
    destruct (parseValue fuel (c :: l')) as [|[w l3]] eqn:Hv; [done|]. apply IHv in Hv. simpl in Hv.
    pose proof (skip_length l3) as Hs3. destruct (skipWhitespace l3) as [|c3 l4]; [done|]. simpl in Hs3.
    destruct (code c3 =? 44); [intros H; apply IHl in H; lia|].
    destruct (code c3 =? 93); [|done]. intros [= <- <-]. lia.
Qed.

(** Two more fuel than twice the bytes is enough, and more changes nothing. *)
Lemma parse_fuel fuel :
  (forall l k, (2 * length l + 1 <= fuel)%nat -> parseValue (fuel + k) l = parseValue fuel l /\
     parseValue fuel l <> inl OutOfFuel) /\
  (forall m l k, (2 * length l + 1 <= fuel)%nat -> parseObject (fuel + k) m l = parseObject fuel m l /\
     parseObject fuel m l <> inl OutOfFuel) /\
  (forall m l k, (2 * length l + 2 <= fuel)%nat -> parseList (fuel + k) m l = parseList fuel m l /\
     parseList fuel m l <> inl OutOfFuel).
Proof.
  induction fuel as [|fuel (IHv & IHo & IHl)]; [repeat split; lia|].
  pose proof (parse_shrinks fuel) as (Hv & _ & _).
  split; [|split]; cbn [parseValue parseObject parseList Nat.add].
  - intros l k Hf. pose proof (skip_length l) as Hs. destruct (skipWhitespace l) as [|c l']; [done|].
    simpl in Hs. destruct (code c =? 34).
    { split; [done|]. by destruct (parseString (c :: l')) as [[]|[s r]] eqn:He; try done;
        unfold parseString in He; repeat case_match; simplify_eq. }
    destruct (code c =? 123); [apply IHo; lia|]. destruct (code c =? 91); [apply IHl; lia|].
    split; [done|]. destruct (isLiteralNumberStart c); unfold parseNumber, parseIdentifier, readIdentifier;
      repeat case_match; congruence.
  - intros m l k Hf. pose proof (skip_length l) as Hs. destruct (skipWhitespace l) as [|c l']; [done|].
    simpl in Hs. destruct (code c =? 125); [done|].
    destruct (parseObjectKey (c :: l')) as [e|[key l1]] eqn:Hk.
    { split; [done|]. intros [= ->]. unfold parseObjectKey, parseString, readIdentifier in Hk.
      repeat case_match; congruence. }
    apply parseObjectKey_length in Hk. simpl in Hk. pose proof (skip_length l1) as Hs1.
    destruct (skipWhitespace l1) as [|c1 l2]; [done|]. simpl in Hs1.
    destruct (negb (code c1 =? 58)); [done|].
    destruct (IHv l2 k ltac:(lia)) as [-> Hne].
    destruct (parseValue fuel l2) as [e|[w l3]] eqn:He; [split; congruence|]. apply Hv in He.
    pose proof (skip_length l3) as Hs3. destruct (skipWhitespace l3) as [|c3 l4]; [done|]. simpl in Hs3.
    destruct (code c3 =? 44); [apply IHo; lia|]. by destruct (code c3 =? 125).
  - intros m l k Hf. pose proof (skip_length l) as Hs. destruct (skipWhitespace l) as [|c l']; [done|].
    simpl in Hs. destruct (code c =? 93); [done|].
    destruct (IHv (c :: l') k ltac:(simpl; lia)) as [-> Hne].
    destruct (parseValue fuel (c :: l')) as [e|[w l3]] eqn:He; [split; congruence|].
    apply Hv in He. simpl in He.
    pose proof (skip_length l3) as Hs3. destruct (skipWhitespace l3) as [|c3 l4]; [done|]. simpl in Hs3.
    destruct (code c3 =? 44); [apply IHl; lia|]. by destruct (code c3 =? 93).
Qed.

(** Parsing a literal always ends: for every text, with the fuel of
    [parseLiteralValue] or any larger one, the parser gives the same result, a
    value or one of the code's errors; the recursion on nested objects and lists
    never runs out. *)
Theorem parse_total text k :
  let source := of_string (TrimSpace text) in
  parseValue (2 * length source + 1 + k) source = parseValue (2 * length source + 1) source /\
  parseLiteralValue text <> inl OutOfFuel.
Proof.
  intros source. destruct (parse_fuel (2 * length source + 1)) as (Hv & _ & _).
  destruct (Hv source k ltac:(lia)) as [He Hne]. split; [done|].
  unfold parseLiteralValue. fold source.
  destruct (parseValue (2 * length source + 1) source) as [e|[v rest]]. { intros [= ->]. by destruct Hne. }
  by destruct (skipWhitespace rest).
Qed.

(** ** The JSON text of a value is a literal for the value *)

(** The values the theorem is about: no floats, whose text depends on the
    formatting of package strconv. *)
Definition key_lt (a b : string * value) : Prop := String.ltb a.1 b.1 = true.
Fixpoint jsonable (v : value) : Prop :=
  match v with
  | VNil | VBool _ => True
  | VInt n => int64_min <= n <= int64_max
  | VFloat _ => False
  | VString s => ValidString s = true
  | VList items => foldr (fun w P => jsonable w /\ P) True items
  | VMap entries =>
      StronglySorted key_lt entries /\
      foldr (fun '(k, w) P => (ValidString k = true /\ jsonable w) /\ P) True entries
  end.

Section value_ind.
Variable P : value -> Prop.
Hypothesis Pnil : P VNil.
Hypothesis Pbool : forall b, P (VBool b).
Hypothesis Pint : forall n, P (VInt n).
Hypothesis Pfloat : forall f, P (VFloat f).
Hypothesis Pstring : forall s, P (VString s).
Hypothesis Plist : forall items, Forall P items -> P (VList items).
Hypothesis Pmap : forall entries, Forall (fun e => P e.2) entries -> P (VMap entries).
Fixpoint value_nested_ind (v : value) : P v :=
  match v with
  | VNil => Pnil
  | VBool b => Pbool b
  | VInt n => Pint n
  | VFloat f => Pfloat f
  | VString s => Pstring s
  | VList items =>
      Plist items ((fix go l : Forall P l :=
        match l with
        | [] => List.Forall_nil P
        | w :: l' => List.Forall_cons P w l' (value_nested_ind w) (go l')
        end) items)
  | VMap entries =>
      Pmap entries ((fix go l : Forall (fun e => P e.2) l :=
        match l with
        | [] => List.Forall_nil _
        | e :: l' => List.Forall_cons _ e l' (value_nested_ind e.2) (go l')
        end) entries)
  end.
End value_ind.

(** *** Strings *)
Lemma json_byte_unquote c fuel l : code c < 128 ->
  unquote_loop (S fuel) quote_byte (json_byte c ++ l) =
    ('(outs, rem) ← unquote_loop fuel quote_byte l; Some (c :: outs, rem)).
Proof.
  destruct c as [[] [] [] [] [] [] [] []]; intros Hc; try (vm_compute in Hc; discriminate); reflexivity.
Qed.

Lemma json_byte_end c l : code c < 128 ->
  string_end false (json_byte c ++ l) =
    ('(s, rest) ← string_end false l; Some (json_byte c ++ s, rest)).
Proof.
  destruct c as [[] [] [] [] [] [] [] []]; intros Hc; try (vm_compute in Hc; discriminate);
    simpl; by destruct (string_end false l) as [[]|].
Qed.

Lemma json_runes_skip k : forall l, json_runes k l = json_runes 0 (drop k l).
Proof. induction k as [|k IH]; intros [|c l]; try done. cbn [json_runes drop]. apply IH. Qed.

(** What JSON writes for the first rune of well-formed bytes. *)
Definition json_first (l : bytes) : bytes :=
  match l with
  | [] => []
  | c :: _ =>
      if code c <? 128 then json_byte c
      else if (fst (decode_rune l) =? 8232) || (fst (decode_rune l) =? 8233) then
        u_escape (fst (decode_rune l))
      else take (snd (decode_rune l)) l
  end.

Lemma json_runes_step l : valid_utf8 l = true -> l <> [] ->
  json_runes 0 l = json_first l ++ json_runes 0 (drop (snd (decode_rune l)) l).
Proof.
  destruct l as [|c l]; [done|]. intros Hv _.
  destruct (decode_valid (c :: l) [] Hv ltac:(done)) as (He & _ & Hw). rewrite app_nil_r in *.
  cbn [json_runes]. unfold json_first. destruct (code c <? 128) eqn:Hc.
  { cbn [decode_rune]. rewrite Hc. cbn [snd drop]. done. }
  destruct (decode_rune (c :: l)) as [r size]. cbn [fst snd] in *.
  destruct ((r =? RuneError) && (size =? 1)%nat) eqn:Hr.
  { bool_to_prop. assert (size = 1%nat) as -> by (destruct size as [|[|]]; done). subst r.
    by apply (f_equal length) in He. }
  rewrite json_runes_skip. f_equal. destruct size; [lia|]. simpl. by rewrite Nat.sub_0_r.
Qed.

Lemma string_end_high l k : Forall (fun c => 128 <= code c) l ->
  string_end false (l ++ k) = ('(s, rest) ← string_end false k; Some (l ++ s, rest)).
Proof.
  induction 1 as [|c l Hc _ IH]; simpl; [by destruct (string_end false k) as [[]|]|].
  replace (code c =? 92) with false by lia. replace (code c =? 34) with false by lia.
  rewrite IH. by destruct (string_end false k) as [[]|].
Qed.

(** The first rune is read back by both passes over a string. *)
Lemma json_first_read l k fuel : valid_utf8 l = true -> l <> [] ->
  unquote_loop (S fuel) quote_byte (json_first l ++ k) =
    ('(outs, rem) ← unquote_loop fuel quote_byte k; Some (take (snd (decode_rune l)) l ++ outs, rem)) /\
  string_end false (json_first l ++ k) =
    ('(s, rest) ← string_end false k; Some (json_first l ++ s, rest)).
Proof.
  destruct l as [|c l]; [done|]. intros Hv _. unfold json_first.
  destruct (code c <? 128) eqn:Hc; bool_to_prop.
  { rewrite json_byte_unquote, json_byte_end by done. split; [|done].
    cbn [decode_rune]. by replace (code c <? 128) with true by lia. }
  destruct (decode_valid (c :: l) [] Hv ltac:(done)) as (He & _ & Hw). rewrite app_nil_r in *.
  destruct (_ || _) eqn:Hr; bool_to_prop.
  { rewrite <-He. destruct Hr as [Hr|Hr]; bool_to_prop; rewrite Hr; split;
      [|by simpl; destruct (string_end false k) as [[]|]| |by simpl; destruct (string_end false k) as [[]|]];
      reflexivity. }
  assert (128 <= fst (decode_rune (c :: l))) as Hhigh.
  { assert (~ (fst (decode_rune (c :: l)) < 128)); [|lia]. intros Hlow.
    cbn [decode_rune] in Hlow. replace (code c <? 128) with false in Hlow by lia.
    pose proof (code_range c). unfold cont in Hlow.
    repeat case_match; cbn [fst] in Hlow; unfold RuneError in Hlow; try lia; bool_to_prop;
      destruct (code c =? 224) eqn:?; destruct (code c =? 240) eqn:?; bool_to_prop; lia. }
  split.
  - pose proof (decode_take_app (c :: l) k Hv ltac:(done)) as Hd.
    destruct (snd (decode_rune (c :: l))) as [|w] eqn:Hsnd; [lia|]. cbn [take app] in *.
    rewrite unquote_high by done. rewrite Hd, He, Hsnd. cbn [drop].
    rewrite drop_app_ge by (rewrite length_take; simpl in Hw; lia).
    rewrite length_take. simpl in Hw. replace (w - min w (length l))%nat with O by lia. done.
  - rewrite <-He. by apply string_end_high, encode_high.
Qed.

Lemma json_first_nonempty l : valid_utf8 l = true -> l <> [] -> (1 <= length (json_first l))%nat.
Proof.
  intros Hv Hl. destruct l as [|c l]; [done|]. pose proof (decode_width (c :: l) Hl) as Hw.
  unfold json_first. destruct (code c <? 128).
  - unfold json_byte. repeat case_match; simpl; lia.
  - destruct (_ || _); [simpl; lia|]. destruct (snd _); simpl; lia.
Qed.

Lemma json_runes_read l k : forall fuel, valid_utf8 l = true -> (length (json_runes 0 l) < fuel)%nat ->
  unquote_loop fuel quote_byte (json_runes 0 l ++ quote_byte :: k) = Some (l, k) /\
  string_end false (json_runes 0 l ++ quote_byte :: k) = Some (json_runes 0 l ++ [quote_byte], k).
Proof.
  induction l as [l IH] using (well_founded_induction (well_founded_ltof _ (@length ascii))).
  unfold ltof in IH. intros fuel Hv Hf. destruct fuel as [|fuel]; [lia|].
  destruct l as [|c l]; [done|].
  destruct (decode_valid (c :: l) [] Hv ltac:(done)) as (_ & Hv' & Hw). rewrite app_nil_r in *.
  pose proof (json_first_nonempty (c :: l) Hv ltac:(done)) as Hlen.
  rewrite (json_runes_step _ Hv) in * by done. rewrite length_app in Hf. rewrite <-!app_assoc.
  destruct (IH (drop (snd (decode_rune (c :: l))) (c :: l))
    ltac:(rewrite length_drop; simpl in *; lia) fuel Hv' ltac:(lia)) as [Hu Hs].
  edestruct (json_first_read (c :: l)) as [H1 H2]; [done|done|]. rewrite H1, H2.
  rewrite Hu, Hs. simpl. split; [|by rewrite app_assoc]. by rewrite take_drop.
Qed.

Lemma parseString_json s k : ValidString s = true ->
  parseString (json_string s ++ k) = inr (s, k).
Proof.
  intros Hv. unfold json_string, parseString. cbn [app]. rewrite <-app_assoc. cbn [app].
  destruct (json_runes_read (of_string s) k (S (length (json_runes 0 (of_string s)))) Hv) as [_ ->]; [lia|].
  unfold Unquote. rewrite of_to. unfold unquote_bytes.
  replace (code quote_byte =? 96) with false by done. replace (code quote_byte =? 34) with true by done.
  destruct (json_runes_read (of_string s) []
    (S (length (json_runes 0 (of_string s) ++ [quote_byte]))) Hv) as [-> _].
  { rewrite length_app. simpl. lia. }
  simpl. by rewrite to_of.
Qed.

(** *** Numbers and identifiers *)

(** What follows a value in a text: nothing, a comma or a closing bracket. *)
Definition follow (k : bytes) : Prop :=
  match k with [] => True | c :: _ => code c = 44 \/ code c = 93 \/ code c = 125 end.

Lemma number_end_app ds k : Forall is_digit ds -> follow k -> number_end (ds ++ k) = (ds, k).
Proof.
  intros Hds Hk. induction Hds as [|c ds Hc _ IH]; simpl.
  - destruct k as [|c k]; [done|]. simpl in *. unfold number_part, isASCIIDigit.
    by replace ((code c =? 46) || _) with false by lia.
  - unfold is_digit in Hc. unfold number_part at 1. unfold isASCIIDigit.
    replace ((code c =? 46) || _) with true by lia. by rewrite IH.
Qed.

Lemma Contains_digits l : Forall is_digit l -> index_bytes "."%char l = None.
Proof.
  induction 1 as [|c l Hc _ IH]; simpl; [done|].
  rewrite bool_decide_eq_false_2 by (intros ->; unfold is_digit in Hc; change (code ".") with 46 in Hc; lia).
  by rewrite IH.
Qed.

Lemma parseNumber_format n k : int64_min <= n <= int64_max -> follow k ->
  parseNumber (of_string (FormatInt n) ++ k) = inr (VInt n, k).
Proof.
  intros Hn Hk. pose proof (ParseInt_FormatInt n Hn) as Hp. unfold parseNumber.
  assert (forall raw, to_string raw = FormatInt n -> index_bytes "."%char raw = None ->
    (if Contains (to_string raw) "." then
       match ParseFloat (to_string raw) with Some f => inr (VFloat f, k) | None => inl InvalidSyntax end
     else match ParseInt (to_string raw) with Some n => inr (VInt n, k) | None => inl InvalidSyntax end)
    = inr (VInt n, k)) as Hfin.
  { intros raw Hraw Hdot. unfold Contains. rewrite of_to, Hdot, Hraw, Hp. done. }
  unfold FormatInt in *. rewrite of_to in *. destruct (Z.ltb_spec n 0).
  - destruct (dec_digits_spec (- n) ltac:(lia)) as (Hne & Hds & Hv). cbn [app].
    change (code "-" =? 45) with true. cbn beta iota. rewrite number_end_app by done. apply Hfin; [done|].
    simpl. by rewrite (Contains_digits _ Hds).
  - destruct (dec_digits_spec n ltac:(lia)) as (Hne & Hds & Hv).
    pose proof (number_end_app _ k Hds Hk) as He. pose proof Hds as Hds'.
    destruct (dec_digits n) as [|c ds] eqn:Hd; [done|]. apply Forall_cons in Hds' as [Hc _].
    unfold is_digit in Hc. cbn [app] in *. replace (code c =? 45) with false by lia. rewrite He.
    apply Hfin; [done|]. by apply Contains_digits.
Qed.

(** A text of a value: what it starts with, and that the parser reads it. *)
Definition starts_value (b : bytes) : Prop :=
  match b with
  | [] => False
  | c :: _ => code c ∈ [34; 123; 91; 45] \/ is_digit c \/ code c ∈ [110; 116; 102]
  end.
Definition reads_as (b : bytes) (v : value) : Prop :=
  starts_value b /\ (exists b' c, b = b' ++ [c] /\ 32 < code c < 128) /\
  forall k fuel, follow k -> (2 * length (b ++ k) + 1 <= fuel)%nat -> parseValue fuel (b ++ k) = inr (v, k).

Lemma starts_skip b k : starts_value b -> skipWhitespace (b ++ k) = b ++ k.
Proof.
  destruct b as [|c b]; [done|]. intros Hs. cbn [app skipWhitespace].
  rewrite bool_decide_eq_false_2; [done|]. simpl in Hs. unfold is_digit in Hs. set_unfold. lia.
Qed.

Lemma of_string_nonempty s : of_string s <> [] -> s <> "".
Proof. by intros H ->. Qed.

Lemma identifier_end_app k w : forall first, follow k -> w <> [] -> identifier_end first w = (w, []) ->
  identifier_end first (w ++ k) = (w, k).
Proof.
  intros first Hk. revert first. induction w as [|c w IH]; intros first Hne; [done|]. cbn [identifier_end app].
  destruct (isTopologyIdentifierPart (code c) first); [|done].
  destruct w as [|d w].
  - intros _. destruct k as [|c' k]; [done|]. cbn [app identifier_end].
    replace (isTopologyIdentifierPart (code c') false) with false; [done|].
    simpl in Hk. unfold isTopologyIdentifierPart, isASCIIAlpha, isASCIIDigit. lia.
  - destruct (identifier_end false (d :: w)) as [s r] eqn:He. intros [= -> ->]. by rewrite (IH false).
Qed.

Lemma reads_word w v : (exists c b, w = c :: b /\ code c ∈ [110; 116; 102]) ->
  (exists b' c, w = b' ++ [c] /\ 32 < code c < 128) ->
  identifier_end true w = (w, []) -> parseIdentifier w = inr (v, []) -> reads_as w v.
Proof.
  intros (c & b & -> & Hc) Hlast He Hp. split; [by right; right|]. split; [done|].
  intros k [|fuel] Hk Hf; [lia|]. cbn [parseValue]. rewrite starts_skip by (by right; right). cbn [app].
  replace (code c =? 34) with false by (set_unfold; lia). replace (code c =? 123) with false by (set_unfold; lia).
  replace (code c =? 91) with false by (set_unfold; lia).
  replace (isLiteralNumberStart c) with false
    by (unfold isLiteralNumberStart, isASCIIDigit; set_unfold; lia).
  unfold parseIdentifier, readIdentifier in *. change (c :: b ++ k) with ((c :: b) ++ k).
  rewrite (identifier_end_app k (c :: b)) by done. rewrite He in Hp.
  repeat case_bool_decide; by simplify_eq.
Qed.

Lemma reads_null : reads_as (of_string "null") VNil.
Proof.
  apply reads_word; [| |done|done].
  - exists "n"%char, (of_string "ull"). split; [done|]. vm_compute. left.
  - by exists (of_string "nul"), "l"%char.
Qed.

Lemma reads_bool (b : bool) : reads_as (of_string (if b then "true" else "false")) (VBool b).
Proof.
  destruct b; (apply reads_word; [| |done|done]).
  - exists "t"%char, (of_string "rue"). split; [done|]. vm_compute. right. left.
  - by exists (of_string "tru"), "e"%char.
  - exists "f"%char, (of_string "alse"). split; [done|]. vm_compute. right. right. left.
  - by exists (of_string "fals"), "e"%char.
Qed.

Lemma reads_int n : int64_min <= n <= int64_max -> reads_as (of_string (FormatInt n)) (VInt n).
Proof.
  intros Hn. assert (exists (c : ascii) (b : bytes), of_string (FormatInt n) = c :: b /\ (code c = 45 \/ is_digit c) /\
    exists (b' : bytes) (c' : ascii), c :: b = b' ++ [c'] /\ is_digit c') as (c & b & He & Hc & b' & c' & He' & Hc').
  { unfold FormatInt. rewrite of_to.
    assert (forall m, 0 <= m -> exists (b' : bytes) (c' : ascii), dec_digits m = b' ++ [c'] /\ is_digit c') as Hlast.
    { intros m Hm. destruct (dec_digits_spec m Hm) as (Hne & Hds & _).
      destruct (dec_digits m) as [|c b' _] using rev_ind; [done|]. exists b', c. split; [done|].
      apply Forall_app in Hds as [_ Hx]. by inversion Hx. }
    destruct (Z.ltb_spec n 0).
    - destruct (Hlast (- n) ltac:(lia)) as (b' & c' & -> & Hc'). exists "-"%char, (b' ++ [c']).
      split; [done|]. split; [by left|]. by exists ("-"%char :: b'), c'.
    - destruct (Hlast n ltac:(lia)) as (b' & c' & Hb & Hc').
      destruct (dec_digits_spec n ltac:(lia)) as (Hne & Hds & _).
      destruct (dec_digits n) as [|c b]; [done|]. exists c, b. apply Forall_cons in Hds as [Hd _].
      split; [done|]. split; [by right|]. by exists b', c'. }
  split; [|split].
  - rewrite He. destruct Hc as [Hc|Hc]; [left; rewrite Hc; set_solver|by right; left].
  - exists b', c'. rewrite He. split; [done|]. unfold is_digit in Hc'. lia.
  - intros k [|fuel] Hk Hf; [lia|]. cbn [parseValue]. rewrite starts_skip.
    2: { rewrite He. destruct Hc as [Hc|Hc]; [left; rewrite Hc; set_solver|by right; left]. }
    pose proof (parseNumber_format n k Hn Hk) as Hp. rewrite He in *. cbn [app] in *.
    unfold is_digit in Hc. replace (code c =? 34) with false by lia. replace (code c =? 123) with false by lia.
    replace (code c =? 91) with false by lia.
    by replace (isLiteralNumberStart c) with true by (unfold isLiteralNumberStart, isASCIIDigit; lia).
Qed.

Lemma reads_string s : ValidString s = true -> reads_as (json_string s) (VString s).
Proof.
  intros Hv. split; [|split].
  - left. simpl. set_solver.
  - exists (quote_byte :: json_runes 0 (of_string s)), quote_byte. done.
  - intros k [|fuel] Hk Hf; [lia|]. pose proof (parseString_json s k Hv) as Hp.
    cbn [parseValue]. rewrite starts_skip by (left; set_solver). unfold json_string in *. cbn [app] in *.
    change (code quote_byte =? 34) with true. cbn beta iota. by rewrite Hp.
Qed.

(** *** Lists and objects *)
Lemma skip_mark c l : 32 < code c -> skipWhitespace (c :: l) = c :: l.
Proof. intros Hc. cbn [skipWhitespace]. rewrite bool_decide_eq_false_2; [done|]. set_unfold. lia. Qed.

Lemma put_last k v m : Forall (fun e => key_lt e (k, v)) m -> put k v m = m ++ [(k, v)].
Proof.
  induction 1 as [|[k' w] m Hk _ IH]; [done|]. unfold key_lt in Hk. cbn [fst put] in *.
  rewrite bool_decide_eq_false_2 by (intros ->; by rewrite ltb_irrefl in Hk).
  rewrite (ltb_asym _ _ Hk), IH. done.
Qed.

Lemma starts_head b k : starts_value b ->
  exists c l, b ++ k = c :: l /\ (code c =? 93) = false /\ (code c =? 125) = false.
Proof.
  destruct b as [|c b]; [done|]. intros Hs. exists c, (b ++ k). split; [done|].
  simpl in Hs. unfold is_digit in Hs. set_unfold. lia.
Qed.

Lemma reads_items items parts : Forall2 (fun v b => reads_as b v) items parts -> items <> [] ->
  forall acc k fuel, (2 * length (join_bytes parts ++ "]"%char :: k) + 2 <= fuel)%nat ->
  parseList fuel acc (join_bytes parts ++ "]"%char :: k) = inr (VList (acc ++ items), k).
Proof.
  induction 1 as [|v b items parts (Hs & _ & Hb) Hrest IH]; [done|]. intros _ acc k [|fuel] Hf; [lia|].
  assert (forall k', follow k' -> (2 * length (b ++ k') + 1 <= fuel)%nat ->
    parseList (S fuel) acc (b ++ k') =
    match skipWhitespace k' with
    | [] => inl UnterminatedList
    | c3 :: l4 => if code c3 =? 44 then parseList fuel (acc ++ [v]) l4
                  else if code c3 =? 93 then inr (VList (acc ++ [v]), l4)
                  else inl ExpectedCommaOrBracket
    end) as Hstep.
  { intros k' Hk' Hf'. cbn [parseList]. rewrite starts_skip by done.
    destruct (starts_head b k' Hs) as (c & l & He & Hc & _). rewrite He, Hc, <-He.
    by rewrite (Hb k' fuel Hk' Hf'). }
  destruct parts as [|b' parts].
  - apply Forall2_nil_inv_r in Hrest as ->. cbn [join_bytes] in *.
    rewrite Hstep; [done|by right; left|lia].
  - destruct items as [|v' items]; [by inversion Hrest|].
    change (join_bytes (b :: b' :: parts)) with (b ++ ","%char :: join_bytes (b' :: parts)) in *.
    rewrite <-app_assoc, <-app_comm_cons in *. rewrite Hstep; [|by left|lia].
    rewrite skip_mark by done.
    change (code "," =? 44) with true. cbn beta iota. rewrite IH; [|done|].
    + by rewrite <-app_assoc.
    + rewrite length_app in Hf. cbn [length] in Hf. lia.
Qed.

(** The text of an entry. *)
Definition entry_part (e : string * value) (p : bytes) : Prop :=
  ValidString e.1 = true /\ exists b, p = json_string e.1 ++ ":"%char :: b /\ reads_as b e.2.

Lemma reads_entries entries parts : Forall2 entry_part entries parts -> entries <> [] ->
  forall m k fuel, StronglySorted key_lt (m ++ entries) ->
  (2 * length (join_bytes parts ++ "}"%char :: k) + 1 <= fuel)%nat ->
  parseObject fuel m (join_bytes parts ++ "}"%char :: k) = inr (VMap (m ++ entries), k).
Proof.
  induction 1 as [|[key w] p entries parts (Hv & b & -> & Hs & _ & Hb) Hrest IH]; [done|].
  intros _ m k [|fuel] Hsorted Hf; [lia|]. cbn [fst snd] in *.
  assert (put key w m = m ++ [(key, w)]) as Hput.
  { apply put_last, Forall_forall. intros e He.
    apply (StronglySorted_app_1_elem_of key_lt m ((key, w) :: entries)); [done|done|by left]. }
  assert (forall k', follow k' -> (2 * length (b ++ k') + 1 <= fuel)%nat ->
    parseObject (S fuel) m (json_string key ++ ":"%char :: b ++ k') =
    match skipWhitespace k' with
    | [] => inl UnterminatedObject
    | c3 :: l4 => if code c3 =? 44 then parseObject fuel (m ++ [(key, w)]) l4
                  else if code c3 =? 125 then inr (VMap (m ++ [(key, w)]), l4)
                  else inl ExpectedCommaOrBrace
    end) as Hstep.
  { intros k' Hk' Hf'. pose proof (parseString_json key (":"%char :: b ++ k') Hv) as Hp.
    cbn [parseObject]. unfold json_string in *. cbn [app] in *. rewrite skip_mark by done.
    change (code quote_byte =? 125) with false. unfold parseObjectKey. rewrite skip_mark by done.
    change (code quote_byte =? 34) with true. cbn beta iota. rewrite Hp, skip_mark by done.
    change (negb (code ":" =? 58)) with false. cbn beta iota. by rewrite (Hb k' fuel Hk' Hf'), Hput. }
  destruct parts as [|b' parts].
  - apply Forall2_nil_inv_r in Hrest as ->. cbn [join_bytes] in *. rewrite <-app_assoc in *. cbn [app] in *.
    rewrite Hstep; [done|by right; right|]. rewrite length_app in Hf. cbn [length] in Hf. lia.
  - destruct entries as [|v' entries]; [by inversion Hrest|].
    change (join_bytes ((json_string key ++ ":"%char :: b) :: b' :: parts)) with
      ((json_string key ++ ":"%char :: b) ++ ","%char :: join_bytes (b' :: parts)) in *.
    do 3 (rewrite <-?app_assoc in *; cbn [app] in * ).
    rewrite length_app in Hf. cbn [length] in Hf.
    rewrite Hstep; [|by left|lia].
    rewrite skip_mark by done.
    change (code "," =? 44) with true. cbn beta iota. rewrite IH; [|done| |].
    + by rewrite <-app_assoc.
    + by rewrite <-app_assoc.
    + rewrite length_app in Hf. cbn [length] in Hf. lia.
Qed.

Lemma json_string_head k b : starts_value (json_string k ++ b).
Proof. left. set_solver. Qed.

Lemma items_parts items : Forall (fun v => jsonable v -> exists b, json_value v = Some b /\ reads_as b v) items ->
  jsonable (VList items) ->
  exists parts, all_some (json_value <$> items) = Some parts /\ Forall2 (fun v b => reads_as b v) items parts.
Proof.
  induction 1 as [|v items Hv _ IH]; intros Hj; [by exists []|]. destruct Hj as [Hjv Hj].
  destruct (Hv Hjv) as (b & Hb & Hr). destruct (IH Hj) as (parts & Hp & Hrs).
  exists (b :: parts). rewrite fmap_cons. cbn [all_some]. rewrite Hb. cbn. rewrite Hp. by split; [|constructor].
Qed.

Lemma entries_parts entries :
  Forall (fun e => jsonable e.2 -> exists b, json_value e.2 = Some b /\ reads_as b e.2) entries ->
  foldr (fun '(k, w) P => (ValidString k = true /\ jsonable w) /\ P) True entries ->
  exists parts,
    all_some ((fun '(k, w) => b ← json_value w; Some (json_string k ++ ":"%char :: b)) <$> entries) = Some parts /\
    Forall2 entry_part entries parts.
Proof.
  induction 1 as [|[k w] entries Hv _ IH]; intros Hj; [by exists []|]. destruct Hj as [[Hk Hw] Hj].
  destruct (Hv Hw) as (b & Hb & Hr). destruct (IH Hj) as (parts & Hp & Hrs). cbn [fst snd] in *.
  exists ((json_string k ++ ":"%char :: b) :: parts). rewrite fmap_cons. cbn [all_some]. rewrite Hb. cbn [mbind option_bind].
  rewrite Hp. split; [done|]. constructor; [|done]. split; [done|]. by exists b.
Qed.

Lemma reads_list items parts : Forall2 (fun v b => reads_as b v) items parts ->
  reads_as ("["%char :: join_bytes parts ++ ["]"%char]) (VList items).
Proof.
  intros Hr. split; [left; set_solver|]. split.
  { by exists ("["%char :: join_bytes parts), "]"%char. }
  intros k [|fuel] Hk Hf; [lia|]. cbn [app parseValue]. rewrite skip_mark by done.
  cbn -[parseList join_bytes]. rewrite <-app_assoc. cbn [app]. destruct items as [|v items].
  - apply Forall2_nil_inv_l in Hr as ->. destruct fuel; [simpl in Hf; lia|].
    cbn [join_bytes app parseList]. by rewrite skip_mark.
  - rewrite (reads_items (v :: items) parts); [done|done|done|].
    cbn [app length] in Hf. rewrite <-app_assoc in Hf. cbn [app] in Hf. lia.
Qed.

Lemma reads_map entries parts : StronglySorted key_lt entries -> Forall2 entry_part entries parts ->
  reads_as ("{"%char :: join_bytes parts ++ ["}"%char]) (VMap entries).
Proof.
  intros Hs Hr. split; [left; set_solver|]. split.
  { by exists ("{"%char :: join_bytes parts), "}"%char. }
  intros k [|fuel] Hk Hf; [lia|]. cbn [app parseValue]. rewrite skip_mark by done.
  cbn -[parseObject join_bytes]. rewrite <-app_assoc. cbn [app]. destruct entries as [|e entries].
  - apply Forall2_nil_inv_l in Hr as ->. destruct fuel; [simpl in Hf; lia|].
    cbn [join_bytes app parseObject]. by rewrite skip_mark.
  - rewrite (reads_entries (e :: entries) parts); [done|done|done|done|].
    cbn [app length] in Hf. rewrite <-app_assoc in Hf. cbn [app] in Hf. lia.
Qed.

Lemma json_reads v : jsonable v -> exists b, json_value v = Some b /\ reads_as b v.
Proof.
  induction v as [|b|n|f|s|items IH|entries IH] using value_nested_ind; intros Hj.
  - eexists. split; [done|]. apply reads_null.
  - eexists. split; [done|]. apply reads_bool.
  - eexists. split; [done|]. by apply reads_int.
  - done.
  - eexists. split; [done|]. by apply reads_string.
  - destruct (items_parts items IH Hj) as (parts & Hp & Hr). eexists. split; [|by apply reads_list].
    cbn [json_value]. by rewrite Hp.
  - destruct Hj as [Hs Hj]. destruct (entries_parts entries IH Hj) as (parts & Hp & Hr).
    eexists. split; [|by apply reads_map]. cbn [json_value]. by rewrite Hp.
Qed.

(** The JSON text a literal is sent as is itself a literal for the same
    value.  For every value without floating-point numbers that the parser can
    make (integers of 64 bits, well-formed strings, objects sorted by distinct
    keys), [json.Marshal] succeeds and parsing its text gives the value back. *)
Theorem json_round_trip v (Hv : jsonable v) :
  exists b, json_value v = Some b /\ parseLiteralValue (to_string b) = inr v.
Proof.
  destruct (json_reads v Hv) as (b & Hb & Hs & (b' & c' & He & Hc') & Hr). exists b. split; [done|].
  assert (exists c l, b = c :: l /\ 32 < code c < 128) as (c & l & -> & Hc).
  { destruct b as [|c l]; [done|]. exists c, l. split; [done|]. simpl in Hs. unfold is_digit in Hs.
    set_unfold. lia. }
  unfold parseLiteralValue, TrimSpace. rewrite !of_to, (trim_visible c l b' c' He Hc ltac:(lia)).
  pose proof (Hr [] (2 * length (c :: l) + 1)%nat I) as Hp. rewrite app_nil_r in Hp. by rewrite Hp.
Qed.
Lemma json_round_trip_witness :
  let v := VMap [("a", VList [VInt (-5); VString "x<y"; VNil]); ("b", VBool true)] in
  jsonable v /\ exists b, json_value v = Some b /\ parseLiteralValue (to_string b) = inr v.
Proof.
  assert (jsonable (VMap [("a", VList [VInt (-5); VString "x<y"; VNil]); ("b", VBool true)])) as Hv.
  { simpl. split; [repeat constructor|]. repeat split; vm_compute; congruence. }
  split; [exact Hv|]. exact (json_round_trip _ Hv).
Defined.
End Literals.
