(* ===== verification/LoadPlan.v ===== *)
(** Load plans, [src/backend/internal/suites] load_plan.go and load_spec.go: the
    text of a traffic plan becomes a [LoadSpec], whose limits [validateLoadSpec]
    enforces before a step may send any traffic.

    A statement of a plan names a request, a task, a user, a wait, a threshold or
    a stage; later statements and the final [traffic.plan(...)] refer to them by
    name or repeat the call in place.  The parser is a fold over the statements
    with the context of the names. *)
From Stdlib Require Import ZArith Lia Ascii SpecFloat.
From S2P Require Import Prelude GoStrings Runes Strconv Url Suites CallText Literals.
Import GoStrings Runes Strconv CallText Literals.

Module LoadPlan.

(** ** load_spec.go *)
Module Threshold.
Record LoadThreshold := mk { Metric : string; Op : string; Value : float64; Sampler : string }.
End Threshold.
Import Threshold (LoadThreshold).

Module Wait.
Record LoadWait := mk { Mode : string; Seconds : float64; MinSeconds : float64; MaxSeconds : float64 }.
End Wait.
Import Wait (LoadWait).
Definition no_wait : LoadWait := Wait.mk "" F_zero F_zero F_zero.

Module Request.
Record LoadRequest := mk {
  Method : string; Path : string; Name : string; Headers : gmap string string; Body : string;
  Checks : list LoadThreshold }.
End Request.
Import Request (LoadRequest).

Module Task.
Record LoadTask := mk {
  ID : string; Name : string; Weight : Z; Request : LoadRequest; Checks : list LoadThreshold }.
End Task.
Import Task (LoadTask).

Module User.
Record LoadUser := mk {
  ID : string; Name : string; Weight : Z; Wait : LoadWait; Tasks : list LoadTask }.
End User.
Import User (LoadUser).

Module Stage.
Record LoadStage := mk { Duration : Z; Users : Z; SpawnRate : float64; Stop : bool }.
End Stage.
Import Stage (LoadStage).

Module Spec.
Record LoadSpec := mk {
  Variant : string; PlanPath : string; Target : string; RequestsPerS : float64; ArrivalRate : float64;
  Users : list LoadUser; Stages : list LoadStage; Thresholds : list LoadThreshold }.
End Spec.
Import Spec (LoadSpec).

(** ** The limits *)
Definition maxLoadPlanBytes : Z := 128 * 1024.
Definition maxLoadUsers : Z := 32.
Definition maxLoadStages : Z := 12.
Definition maxLoadTasks : Z := 24.
Definition maxLoadDuration : Z := 5 * minute.
Definition maxLoadRequestRate : float64 := F_of_Z 100.

Inductive LoadError :=
  | CallFailed (cause : CallError)
  | LiteralFailed (cause : option LiteralError)
  | MissingTarget (variant : string)
  | PlanNotFound (path : string)
  | PlanTooLarge (path : string)
  | PlanTwice (path : string)
  | PlanMissing (path : string)
  | TaskWithoutRequest
  | UnsupportedRequest (text : string)
  | RequestWithoutPath (call : string)
  | UnsupportedWait (text : string)
  | UnsupportedWaitHelper (call : string)
  | MissingPositional (index : nat)
  | InvalidNumeric (text : string)
  | NotAList (text : string)
  | UnsupportedThreshold (item : string)
  | ThresholdIncomplete
  | StageWithoutDuration
  | StageInvalidDuration (text : string)
  | StageNonPositive (text : string)
  | ShapeNotStages
  | UnsupportedStage (item : string)
  | UserWithoutTasks
  | UnsupportedTask (item : string)
  | PlanWithoutUsers
  | UnsupportedUser (item : string)
  | InvalidTarget (target : string)
  | TargetRate (target : string)
  | TargetArrivals (target : string)
  | NoUsers (path : string)
  | NoStages (path : string)
  | TooManyStages (path : string)
  | NonPositiveStage (path : string)
  | TooLong (path : string)
  | TooManyUsers (path : string)
  | NoTasks (user : string)
  | TooManyTasks (path : string)
  | IncompleteTask (task : string)
  | PlanRate (path : string)
  | PlanArrivals (path : string).

(** An error of the call parser is returned as it is. *)
Definition lift {A} (r : CallError + A) : LoadError + A :=
  match r with inl e => inl (CallFailed e) | inr x => inr x end.

Section Numbers.
(** [int(f)] of a float beyond the range of [int]: the language leaves the
    result to the implementation. *)
Variable overflow_int : float64 -> Z.

Definition int_of_float (f : float64) : Z :=
  match f with
  | S754_zero _ | S754_finite _ _ _ =>
      if (int64_min <=? F_trunc f) && (F_trunc f <=? int64_max) then F_trunc f else overflow_int f
  | _ => overflow_int f
  end.

(** ** Arguments *)
Definition positional (arguments : string) : list string :=
  filter (fun part => (splitNamedArgument part).2 = false) (splitTopLevel arguments).
Definition positionalArgument (arguments : string) (index : nat) : string :=
  match positional arguments !! index with Some part => TrimSpace part | None => "" end.

Definition parsePositionalStringArgument (arguments : string) (index : nat) : string :=
  let part := positionalArgument arguments index in
  if bool_decide (part = "") then ""
  else match unquoteTopologyString part with Some resolved => resolved | None => "" end.

Definition parsePositionalFloatArgument (arguments : string) (index : nat) : LoadError + float64 :=
  let part := TrimSpace (positionalArgument arguments index) in
  if bool_decide (part = "") then inl (MissingPositional index)
  else match ParseFloat part with Some v => inr v | None => inl (InvalidNumeric part) end.

Definition topologyNamedNumberArgument (arguments : string) (keys : list string) : float64 :=
  let value := TrimSpace (topologyNamedArgument arguments keys) in
  if bool_decide (value = "") then F_zero
  else match ParseFloat value with Some number => number | None => F_zero end.

Definition topologyNamedBoolArgument (arguments : string) (keys : list string) : bool :=
  let value := TrimSpace (topologyNamedArgument arguments keys) in
  bool_decide (value = "True" \/ value = "true").

Definition bracketContents (value : string) : LoadError + string :=
  match bracketed (TrimSpace value) with
  | Some inner => inr (TrimSpace inner)
  | None => inl (NotAList value)
  end.

(** ** Thresholds *)
Definition parseLoadThreshold (arguments : string) : LoadError + LoadThreshold :=
  let metric := parsePositionalStringArgument arguments 0 in
  let op := parsePositionalStringArgument arguments 1 in
  check value := parsePositionalFloatArgument arguments 2 in
  if bool_decide (metric = "" \/ op = "") then inl ThresholdIncomplete
  else inr (Threshold.mk metric op value (topologyNamedStringArgument arguments ["sampler"])).

(** The loop over the items of a list, shared by the four kinds of lists: a
    name of the context, or a call the item parser accepts. *)
Fixpoint parse_items {A} (named : gmap string A) (call : string) (unsupported : string -> LoadError)
    (parse : string -> LoadError + A) (items : list string) : LoadError + list A :=
  match items with
  | [] => inr []
  | item :: rest =>
      let item := TrimSpace item in
      if bool_decide (item = "") then parse_items named call unsupported parse rest
      else
        check x :=
          (match named !! item with
           | Some x => inr x
           | None =>
               check invocation := lift (parseTopologyInvocation item) in
               match invocation with
               | Some i =>
                   if bool_decide (canonicalTrafficCall (Call i) = call) then parse (Args i)
                   else inl (unsupported item)
               | None => inl (unsupported item)
               end
           end) in
        check xs := parse_items named call unsupported parse rest in
        inr (x :: xs)
  end.

Definition parseLoadThresholdList (value : string) (thresholds : gmap string LoadThreshold) :
    LoadError + list LoadThreshold :=
  let trimmed := TrimSpace value in
  if bool_decide (trimmed = "") then inr []
  else
    check inner := bracketContents trimmed in
    parse_items thresholds "traffic.threshold" UnsupportedThreshold parseLoadThreshold (splitTopLevel inner).
Definition parseLoadThresholdListInline (value : string) : LoadError + list LoadThreshold :=
  parseLoadThresholdList value ∅.

(** ** Requests *)
Definition parseLoadRequest (call arguments : string) : LoadError + LoadRequest :=
  let call := canonicalTrafficCall call in
  let path := FirstNonEmpty [parsePositionalStringArgument arguments 0;
                             topologyNamedStringArgument arguments ["path"]] in
  let name := topologyNamedStringArgument arguments ["name"] in
  if bool_decide (path = "") then inl (RequestWithoutPath call)
  else
    let name := if bool_decide (name = "") then path else name in
    let headersValue := topologyNamedArgument arguments ["headers"] in
    check headers :=
      (if bool_decide (headersValue = "") then inr ∅
       else match parseStringMapLiteral headersValue with
            | inl e => inl (LiteralFailed e)
            | inr entries => inr (list_to_map entries)
            end) in
    let bodyValue := topologyNamedArgument arguments ["json"] in
    check body :=
      (if bool_decide (bodyValue = "") then inr ("", headers)
       else match parseJSONLiteral bodyValue with
            | inl e => inl (LiteralFailed e)
            | inr body =>
                inr (body, if bool_decide (default "" ((headers : gmap string string) !! "Content-Type") = "")
                           then <["Content-Type" := "application/json"]> headers else headers)
            end) in
    let checksValue := topologyNamedArgument arguments ["checks"] in
    check checks :=
      (if bool_decide (checksValue = "") then inr [] else parseLoadThresholdListInline checksValue) in
    inr (Request.mk (ToUpper (TrimPrefix call "traffic.")) path name body.2 body.1 checks).

(** ** The context of a plan *)
Record loadPlanContext := mkContext {
  users : gmap string LoadUser;
  tasks : gmap string LoadTask;
  requests : gmap string LoadRequest;
  waits : gmap string LoadWait;
  thresholds : gmap string LoadThreshold;
  stages : gmap string LoadStage;
}.
Definition empty_context : loadPlanContext := mkContext ∅ ∅ ∅ ∅ ∅ ∅.

Definition parseLoadRequestExpression (value : string) (ctx : loadPlanContext) : LoadError + LoadRequest :=
  let trimmed := TrimSpace value in
  if bool_decide (trimmed = "") then inl TaskWithoutRequest
  else match requests ctx !! trimmed with
  | Some request => inr request
  | None =>
      check invocation := lift (parseTopologyInvocation trimmed) in
      match invocation with
      | Some i => parseLoadRequest (Call i) (Args i)
      | None => inl (UnsupportedRequest trimmed)
      end
  end.

(** ** Waits *)
Definition parseLoadWait (call arguments : string) : LoadError + LoadWait :=
  let canonical := canonicalTrafficCall call in
  if bool_decide (canonical = "traffic.constant") then
    check seconds := parsePositionalFloatArgument arguments 0 in
    inr (Wait.mk "constant" seconds F_zero F_zero)
  else if bool_decide (canonical = "traffic.between") then
    check minSeconds := parsePositionalFloatArgument arguments 0 in
    check maxSeconds := parsePositionalFloatArgument arguments 1 in
    inr (Wait.mk "between" F_zero minSeconds maxSeconds)
  else if bool_decide (canonical = "traffic.pacing") then
    let seconds := topologyNamedNumberArgument arguments ["seconds_per_iteration"] in
    check seconds :=
      (if F_eq seconds F_zero then parsePositionalFloatArgument arguments 0 else inr seconds) in
    inr (Wait.mk "pacing" seconds F_zero F_zero)
  else inl (UnsupportedWaitHelper call).

Definition parseLoadWaitExpression (value : string) (ctx : loadPlanContext) : LoadError + LoadWait :=
  let trimmed := TrimSpace value in
  if bool_decide (trimmed = "") then inr no_wait
  else match waits ctx !! trimmed with
  | Some wait => inr wait
  | None =>
      check invocation := lift (parseTopologyInvocation trimmed) in
      match invocation with
      | Some i => parseLoadWait (Call i) (Args i)
      | None => inl (UnsupportedWait trimmed)
      end
  end.

(** ** Tasks and users *)
Definition positive_weight (w : Z) : Z := if w <=? 0 then 1 else w.

Definition parseLoadTask (assignment arguments : string) (ctx : loadPlanContext) : LoadError + LoadTask :=
  check request := parseLoadRequestExpression (topologyNamedArgument arguments ["request"]) ctx in
  let name := FirstNonEmpty [topologyNamedStringArgument arguments ["name"; "id"]; Request.Name request;
                             assignment] in
  let weight := positive_weight (int_of_float (topologyNamedNumberArgument arguments ["weight"])) in
  let checksValue := topologyNamedArgument arguments ["checks"] in
  check checks :=
    (if bool_decide (checksValue = "") then inr [] else parseLoadThresholdList checksValue (thresholds ctx)) in
  inr (Task.mk assignment name weight request (checks ++ Request.Checks request)).

Definition parseLoadTaskList (value : string) (ctx : loadPlanContext) : LoadError + list LoadTask :=
  let trimmed := TrimSpace value in
  if bool_decide (trimmed = "") then inl UserWithoutTasks
  else
    check inner := bracketContents trimmed in
    parse_items (tasks ctx) "traffic.task" UnsupportedTask (fun args => parseLoadTask "" args ctx)
      (splitTopLevel inner).

Definition parseLoadUser (assignment arguments : string) (ctx : loadPlanContext) : LoadError + LoadUser :=
  let name := FirstNonEmpty [topologyNamedStringArgument arguments ["name"; "id"]; assignment] in
  let weight := positive_weight (int_of_float (topologyNamedNumberArgument arguments ["weight"])) in
  check wait := parseLoadWaitExpression (topologyNamedArgument arguments ["wait"]) ctx in
  check tasks := parseLoadTaskList (topologyNamedArgument arguments ["tasks"]) ctx in
  inr (User.mk assignment name weight wait tasks).

Definition parseLoadUserList (value : string) (ctx : loadPlanContext) : LoadError + list LoadUser :=
  let trimmed := TrimSpace value in
  if bool_decide (trimmed = "") then inl PlanWithoutUsers
  else
    check inner := bracketContents trimmed in
    parse_items (users ctx) "traffic.user" UnsupportedUser (fun args => parseLoadUser "" args ctx)
      (splitTopLevel inner).

(** ** Stages *)
Definition parseLoadStage (arguments : string) : LoadError + LoadStage :=
  let durationValue := FirstNonEmpty [topologyNamedStringArgument arguments ["duration"];
                                      parsePositionalStringArgument arguments 0] in
  if bool_decide (durationValue = "") then inl StageWithoutDuration
  else match ParseDuration durationValue with
  | None => inl (StageInvalidDuration durationValue)
  | Some duration =>
      if duration <=? 0 then inl (StageNonPositive durationValue)
      else inr (Stage.mk duration (int_of_float (topologyNamedNumberArgument arguments ["users"]))
                  (topologyNamedNumberArgument arguments ["spawn_rate"])
                  (topologyNamedBoolArgument arguments ["stop"]))
  end.

Definition parseLoadStages (value : string) (ctx : loadPlanContext) : LoadError + list LoadStage :=
  let trimmed := TrimSpace value in
  if bool_decide (trimmed = "") then inr []
  else
    check invocation := lift (parseTopologyInvocation trimmed) in
    match invocation with
    | None => inl ShapeNotStages
    | Some i =>
        if negb (bool_decide (canonicalTrafficCall (Call i) = "traffic.stages")) then inl ShapeNotStages
        else
          check inner := bracketContents (TrimSpace (Args i)) in
          parse_items (stages ctx) "traffic.stage" UnsupportedStage parseLoadStage (splitTopLevel inner)
    end.

(** ** The plan *)
Definition applyLoadPlan (spec : LoadSpec) (arguments : string) (ctx : loadPlanContext) :
    LoadError + LoadSpec :=
  check users := parseLoadUserList (topologyNamedArgument arguments ["users"]) ctx in
  check stages := parseLoadStages (topologyNamedArgument arguments ["shape"]) ctx in
  let thresholdsValue := topologyNamedArgument arguments ["thresholds"] in
  check thresholds :=
    (if bool_decide (thresholdsValue = "") then inr (Spec.Thresholds spec)
     else parseLoadThresholdList thresholdsValue (thresholds ctx)) in
  inr (Spec.mk (Spec.Variant spec) (Spec.PlanPath spec) (Spec.Target spec) (Spec.RequestsPerS spec)
         (Spec.ArrivalRate spec) users stages thresholds).

(** One statement: the context, the specification and whether the plan was
    found. *)
Definition plan_state : Type := loadPlanContext * LoadSpec * bool.
Definition plan_statement (statement : string) (st : plan_state) : LoadError + plan_state :=
  let '(ctx, spec, foundPlan) := st in
  let '(assignment, expression, assigned) := parseTopologyAssignment statement in
  let expr := if (assigned : bool) then expression else TrimSpace statement in
  check invocation := lift (parseTopologyInvocation expr) in
  match invocation with
  | None => inr st
  | Some i =>
      let canonical := canonicalTrafficCall (Call i) in
      if bool_decide (canonical = "traffic.user") then
        check user := parseLoadUser assignment (Args i) ctx in
        inr (mkContext (<[assignment := user]> (users ctx)) (tasks ctx) (requests ctx) (waits ctx)
               (thresholds ctx) (stages ctx), spec, foundPlan)
      else if bool_decide (canonical = "traffic.task") then
        check task := parseLoadTask assignment (Args i) ctx in
        inr (mkContext (users ctx) (<[assignment := task]> (tasks ctx)) (requests ctx) (waits ctx)
               (thresholds ctx) (stages ctx), spec, foundPlan)
      else if bool_decide (canonical = "traffic.get" \/ canonical = "traffic.post") then
        check request := parseLoadRequest (Call i) (Args i) in
        inr (mkContext (users ctx) (tasks ctx) (<[assignment := request]> (requests ctx)) (waits ctx)
               (thresholds ctx) (stages ctx), spec, foundPlan)
      else if bool_decide (canonical = "traffic.constant" \/ canonical = "traffic.between" \/
                           canonical = "traffic.pacing") then
        check wait := parseLoadWait (Call i) (Args i) in
        inr (mkContext (users ctx) (tasks ctx) (requests ctx) (<[assignment := wait]> (waits ctx))
               (thresholds ctx) (stages ctx), spec, foundPlan)
      else if bool_decide (canonical = "traffic.threshold") then
        check threshold := parseLoadThreshold (Args i) in
        inr (mkContext (users ctx) (tasks ctx) (requests ctx) (waits ctx)
               (<[assignment := threshold]> (thresholds ctx)) (stages ctx), spec, foundPlan)
      else if bool_decide (canonical = "traffic.stage") then
        check stage := parseLoadStage (Args i) in
        inr (mkContext (users ctx) (tasks ctx) (requests ctx) (waits ctx) (thresholds ctx)
               (<[assignment := stage]> (stages ctx)), spec, foundPlan)
      else if bool_decide (canonical = "traffic.plan") then
        if foundPlan then inl (PlanTwice (Spec.PlanPath spec))
        else
          check spec' := applyLoadPlan spec (Args i) ctx in
          inr (ctx, spec', true)
      else inr st
  end.

Fixpoint plan_statements (statements : list string) (st : plan_state) : LoadError + plan_state :=
  match statements with
  | [] => inr st
  | statement :: rest =>
      check st' := plan_statement statement st in
      plan_statements rest st'
  end.

(** ** Validation *)

(** The loop over the stages: the total duration wraps at 64 bits. *)
Fixpoint stage_totals (planPath : string) (stages : list LoadStage) (totalDuration maxUsers : Z) :
    LoadError + Z * Z :=
  match stages with
  | [] => inr (totalDuration, maxUsers)
  | stage :: rest =>
      if Stage.Duration stage <=? 0 then inl (NonPositiveStage planPath)
      else stage_totals planPath rest (wrap64 (totalDuration + Stage.Duration stage))
             (Z.max maxUsers (Stage.Users stage))
  end.

Fixpoint validate_tasks (tasks : list LoadTask) : LoadError + list LoadTask :=
  match tasks with
  | [] => inr []
  | t :: rest =>
      let t := Task.mk (Task.ID t) (Task.Name t) (positive_weight (Task.Weight t)) (Task.Request t)
                 (Task.Checks t) in
      if bool_decide (Request.Method (Task.Request t) = "" \/ Request.Path (Task.Request t) = "")
      then inl (IncompleteTask (Task.Name t))
      else
        check rest' := validate_tasks rest in
        inr (t :: rest')
  end.

Definition default_wait (variant : string) (wait : LoadWait) : LoadWait :=
  if bool_decide (Wait.Mode wait = "") then
    if bool_decide (variant = "traffic.constant_pacing") then Wait.mk "pacing" (F_of_Z 1) F_zero F_zero
    else Wait.mk "constant" F_zero F_zero F_zero
  else wait.

Fixpoint validate_users (variant planPath : string) (totalTasks : Z) (users : list LoadUser) :
    LoadError + list LoadUser :=
  match users with
  | [] => inr []
  | u :: rest =>
      if bool_decide (User.Tasks u = []) then inl (NoTasks (User.Name u))
      else
        let totalTasks := totalTasks + Z.of_nat (length (User.Tasks u)) in
        if maxLoadTasks <? totalTasks then inl (TooManyTasks planPath)
        else
          check tasks := validate_tasks (User.Tasks u) in
          check rest' := validate_users variant planPath totalTasks rest in
          inr (User.mk (User.ID u) (User.Name u) (positive_weight (User.Weight u))
                 (default_wait variant (User.Wait u)) tasks :: rest')
  end.

(** [url.Parse] accepts the target as an absolute URL. *)
Variable ip_literal : string -> bool.
Definition absolute_target (target : string) : bool :=
  match Url.Parse ip_literal target with
  | Some u => negb (bool_decide (Url.Scheme u = "")) && negb (bool_decide (Url.Host u = ""))
  | None => false
  end.

Definition validateLoadSpec (spec : LoadSpec) : LoadError + LoadSpec :=
  if negb (absolute_target (Spec.Target spec)) then inl (InvalidTarget (Spec.Target spec))
  else if bool_decide (Spec.PlanPath spec = "") then
    if F_lt maxLoadRequestRate (Spec.RequestsPerS spec) then inl (TargetRate (Spec.Target spec))
    else if F_lt maxLoadRequestRate (Spec.ArrivalRate spec) then inl (TargetArrivals (Spec.Target spec))
    else inr spec
  else if bool_decide (Spec.Users spec = []) then inl (NoUsers (Spec.PlanPath spec))
  else if bool_decide (Spec.Stages spec = []) then inl (NoStages (Spec.PlanPath spec))
  else if maxLoadStages <? Z.of_nat (length (Spec.Stages spec)) then inl (TooManyStages (Spec.PlanPath spec))
  else
    check totals := stage_totals (Spec.PlanPath spec) (Spec.Stages spec) 0 0 in
    let '(totalDuration, maxUsers) := totals in
    if maxLoadDuration <? totalDuration then inl (TooLong (Spec.PlanPath spec))
    else if maxLoadUsers <? maxUsers then inl (TooManyUsers (Spec.PlanPath spec))
    else
      check users := validate_users (Spec.Variant spec) (Spec.PlanPath spec) 0 (Spec.Users spec) in
      let rate := if bool_decide (Spec.Variant spec = "traffic.constant_throughput") &&
                     F_le (Spec.RequestsPerS spec) F_zero
                  then F_of_Z (Z.max 1 maxUsers) else Spec.RequestsPerS spec in
      let arrivals := if bool_decide (Spec.Variant spec = "traffic.open_model") &&
                         F_le (Spec.ArrivalRate spec) F_zero
                      then F_of_Z (Z.max 1 maxUsers) else Spec.ArrivalRate spec in
      if F_lt maxLoadRequestRate rate then inl (PlanRate (Spec.PlanPath spec))
      else if F_lt maxLoadRequestRate arrivals then inl (PlanArrivals (Spec.PlanPath spec))
      else inr (Spec.mk (Spec.Variant spec) (Spec.PlanPath spec) (Spec.Target spec) rate arrivals users
                  (Spec.Stages spec) (Spec.Thresholds spec)).

(** [cloneLoadSpec] copies every value: the copy is the specification itself. *)
Definition parseLoadPlan (base : LoadSpec) (source : string) : LoadError + LoadSpec :=
  check st := plan_statements (scanLogicalStatements source) (empty_context, base, false) in
  let '(_, spec, foundPlan) := st in
  if negb foundPlan then inl (PlanMissing (Spec.PlanPath spec)) else validateLoadSpec spec.

(** ** Where the plan is *)
Definition normalizeLoadPlanPath (value : string) : string :=
  let trimmed := TrimPrefix (Trim (TrimSpace value) "/") "./" in
  if bool_decide (trimmed = "") then ""
  else if HasPrefix trimmed "traffic/" then trimmed
  else if HasPrefix trimmed "load/" then Suites.normalizeSourcePath "traffic" (TrimPrefix trimmed "load/")
  else Suites.normalizeSourcePath "traffic" trimmed.

Fixpoint source_content (sourceFiles : list Suites.SourceFile) (normalized : string) : option string :=
  match sourceFiles with
  | [] => None
  | file :: rest =>
      if negb (bool_decide (Trim (TrimSpace (Suites.Path file)) "/" = normalized)) then
        source_content rest normalized
      else if HasPrefix (TrimSpace (Suites.Content file)) "# Missing example source" then None
      else Some (Suites.Content file)
  end.
Definition sourceFileContent (sourceFiles : list Suites.SourceFile) (path : string) : option string :=
  source_content sourceFiles (Trim (TrimSpace path) "/").

(** [resolveLoadSpec] on the variant and the arguments of a raw step. *)
Definition resolveLoadSpec (variant arguments : string) (sourceFiles : list Suites.SourceFile) :
    LoadError + LoadSpec :=
  let target := TrimSpace (topologyNamedStringArgument arguments ["target"]) in
  if bool_decide (target = "") then inl (MissingTarget variant)
  else
    let planPath := normalizeLoadPlanPath (topologyNamedStringArgument arguments ["plan"]) in
    let spec := Spec.mk variant planPath target
                  (topologyNamedNumberArgument arguments ["rps"; "target_rps"])
                  (topologyNamedNumberArgument arguments ["arrival_rate"]) [] [] [] in
    if bool_decide (planPath = "") then validateLoadSpec spec
    else match sourceFileContent sourceFiles planPath with
    | None => if bool_decide (sourceFiles = []) then inr spec else inl (PlanNotFound planPath)
    | Some content =>
        if maxLoadPlanBytes <? Z.of_nat (String.length content) then inl (PlanTooLarge planPath)
        else parseLoadPlan spec content
    end.

(** ** What the validation accepts *)
Definition total_duration (stages : list LoadStage) : Z := foldr (fun s n => Stage.Duration s + n) 0 stages.
Definition most_users (stages : list LoadStage) : Z := foldl (fun m s => Z.max m (Stage.Users s)) 0 stages.
Definition total_tasks (users : list LoadUser) : Z :=
  foldr (fun u n => Z.of_nat (length (User.Tasks u)) + n) 0 users.

Definition task_complete (t : LoadTask) : Prop :=
  Request.Method (Task.Request t) <> "" /\ Request.Path (Task.Request t) <> "".

(** The rates the validated specification has. *)
Definition final_rate (spec : LoadSpec) : float64 :=
  if bool_decide (Spec.Variant spec = "traffic.constant_throughput") && F_le (Spec.RequestsPerS spec) F_zero
  then F_of_Z (Z.max 1 (most_users (Spec.Stages spec))) else Spec.RequestsPerS spec.
Definition final_arrivals (spec : LoadSpec) : float64 :=
  if bool_decide (Spec.Variant spec = "traffic.open_model") && F_le (Spec.ArrivalRate spec) F_zero
  then F_of_Z (Z.max 1 (most_users (Spec.Stages spec))) else Spec.ArrivalRate spec.

(** The plan of a specification respects the limits. *)
Definition plan_within (spec : LoadSpec) : Prop :=
  Spec.Users spec <> [] /\
  1 <= Z.of_nat (length (Spec.Stages spec)) <= maxLoadStages /\
  Forall (fun s => 0 < Stage.Duration s /\ Stage.Users s <= maxLoadUsers) (Spec.Stages spec) /\
  wrap64 (total_duration (Spec.Stages spec)) <= maxLoadDuration /\
  Forall (fun u => User.Tasks u <> [] /\ Forall task_complete (User.Tasks u)) (Spec.Users spec) /\
  total_tasks (Spec.Users spec) <= maxLoadTasks.

Definition loadable (spec : LoadSpec) : Prop :=
  absolute_target (Spec.Target spec) = true /\
  if bool_decide (Spec.PlanPath spec = "") then
    F_lt maxLoadRequestRate (Spec.RequestsPerS spec) = false /\
    F_lt maxLoadRequestRate (Spec.ArrivalRate spec) = false
  else plan_within spec /\ F_lt maxLoadRequestRate (final_rate spec) = false /\
       F_lt maxLoadRequestRate (final_arrivals spec) = false.

(** The specification with its defaults filled in. *)
Definition default_task (t : LoadTask) : LoadTask :=
  Task.mk (Task.ID t) (Task.Name t) (positive_weight (Task.Weight t)) (Task.Request t) (Task.Checks t).
Definition default_user (variant : string) (u : LoadUser) : LoadUser :=
  User.mk (User.ID u) (User.Name u) (positive_weight (User.Weight u)) (default_wait variant (User.Wait u))
    (default_task <$> User.Tasks u).
Definition defaulted (spec : LoadSpec) : LoadSpec :=
  if bool_decide (Spec.PlanPath spec = "") then spec
  else Spec.mk (Spec.Variant spec) (Spec.PlanPath spec) (Spec.Target spec) (final_rate spec)
         (final_arrivals spec) (default_user (Spec.Variant spec) <$> Spec.Users spec) (Spec.Stages spec)
         (Spec.Thresholds spec).

Lemma wrap64_add a b : wrap64 (wrap64 a + b) = wrap64 (a + b).
Proof.
  unfold wrap64. f_equal. replace ((a + 2 ^ 63) mod 2 ^ 64 - 2 ^ 63 + b + 2 ^ 63)
    with ((a + 2 ^ 63) mod 2 ^ 64 + b) by lia.
  rewrite Z.add_mod_idemp_l by done. f_equal. lia.
Qed.

(** A wrapped number, to be added to. *)
Lemma stage_totals_spec path stages : forall total most,
  stage_totals path stages (wrap64 total) most =
    if bool_decide (Forall (fun s => 0 < Stage.Duration s) stages)
    then inr (wrap64 (total + total_duration stages), foldl (fun m s => Z.max m (Stage.Users s)) most stages)
    else inl (NonPositiveStage path).
Proof.
  induction stages as [|s stages IH]; intros total most; cbn [stage_totals].
  { rewrite bool_decide_eq_true_2 by done. cbn. do 3 f_equal. lia. }
  destruct (Z.leb_spec (Stage.Duration s) 0).
  { rewrite bool_decide_eq_false_2; [done|]. intros [Hs _]%Forall_cons. lia. }
  rewrite wrap64_add, IH. cbn [total_duration foldr foldl].
  replace (total + Stage.Duration s + total_duration stages)
    with (total + (Stage.Duration s + total_duration stages)) by lia.
  destruct (decide (Forall (fun s => 0 < Stage.Duration s) stages)).
  - rewrite !bool_decide_eq_true_2; [done|by constructor|done].
  - rewrite !bool_decide_eq_false_2; [done| |done]. by intros [_ Hs]%Forall_cons.
Qed.

Lemma most_users_le stages b : forall m,
  foldl (fun m s => Z.max m (Stage.Users s)) m stages <= b <-> m <= b /\ Forall (fun s => Stage.Users s <= b) stages.
Proof.
  induction stages as [|s stages IH]; intros m; cbn [foldl].
  { split; [intros; by split|by intros [? _]]. }
  rewrite IH, Forall_cons. split.
  - intros [? ?]. split_and!; [lia|lia|done].
  - intros (? & ? & ?). split; [lia|done].
Qed.

Lemma validate_tasks_spec tasks :
  (Forall task_complete tasks -> validate_tasks tasks = inr (default_task <$> tasks)) /\
  (forall tasks', validate_tasks tasks = inr tasks' -> Forall task_complete tasks).
Proof.
  induction tasks as [|t tasks [IH1 IH2]]; [done|]. cbn [validate_tasks]. cbn [Task.Request Task.Name]. split.
  - intros [[Hm Hp] Hts]%Forall_cons. rewrite bool_decide_eq_false_2 by naive_solver. by rewrite IH1.
  - intros tasks'. case_bool_decide as Hc; [done|]. destruct (validate_tasks tasks) as [|ts] eqn:He; [done|].
    intros _. constructor; [|by apply (IH2 ts)]. unfold task_complete. naive_solver.
Qed.

Lemma total_tasks_nonneg users : 0 <= total_tasks users.
Proof. unfold total_tasks. induction users; cbn [foldr]; lia. Qed.

Lemma validate_users_spec variant path users : forall n,
  (Forall (fun u => User.Tasks u <> [] /\ Forall task_complete (User.Tasks u)) users ->
   n + total_tasks users <= maxLoadTasks ->
   validate_users variant path n users = inr (default_user variant <$> users)) /\
  (forall users', validate_users variant path n users = inr users' -> n <= maxLoadTasks ->
   Forall (fun u => User.Tasks u <> [] /\ Forall task_complete (User.Tasks u)) users /\
   n + total_tasks users <= maxLoadTasks).
Proof.
  induction users as [|u users IH]; intros n; cbn [validate_users total_tasks foldr].
  { split; [done|]. intros. split; [done|lia]. }
  destruct (IH (n + Z.of_nat (length (User.Tasks u)))) as [IH1 IH2].
  destruct (validate_tasks_spec (User.Tasks u)) as [Ht1 Ht2].
  fold (total_tasks users) in *. pose proof (total_tasks_nonneg users). split.
  - intros [[Hne Hts] Hus]%Forall_cons Hn. rewrite bool_decide_eq_false_2 by done.
    replace (maxLoadTasks <? n + Z.of_nat (length (User.Tasks u))) with false by lia.
    rewrite Ht1 by done. rewrite IH1; [done|done|lia].
  - intros users'. case_bool_decide as Hne; [done|].
    destruct (Z.ltb_spec maxLoadTasks (n + Z.of_nat (length (User.Tasks u)))); [done|].
    destruct (validate_tasks (User.Tasks u)) as [|ts] eqn:Hts; [done|].
    destruct (validate_users variant path _ users) as [|us] eqn:Hus; [done|]. intros _ Hn.
    destruct (IH2 us eq_refl ltac:(lia)) as [Hall Htot]. split; [|lia].
    constructor; [split; [done|by apply (Ht2 ts)]|done].
Qed.

Lemma validate_accepts spec spec' : validateLoadSpec spec = inr spec' <-> loadable spec /\ spec' = defaulted spec.
Proof.
  unfold validateLoadSpec, loadable, defaulted.
  destruct (absolute_target (Spec.Target spec)); cbn [negb]; [|by split; [|intros [[]]]].
  case_bool_decide as Hpath.
  { destruct (F_lt _ (Spec.RequestsPerS spec)); [by split; [|intros [(_ & ? & _)]]|].
    destruct (F_lt _ (Spec.ArrivalRate spec)); [by split; [|intros [(_ & _ & ?)]]|].
    split; [by intros [= <-]|by intros [_ ->]]. }
  unfold plan_within. case_bool_decide as Hus; [split; [done|by intros [(_ & ([] & _) & _) _]]|].
  case_bool_decide as Hst.
  { split; [done|]. intros [(_ & (_ & Hn & _) & _) _]. rewrite Hst in Hn. cbn in Hn. lia. }
  destruct (Z.ltb_spec maxLoadStages (Z.of_nat (length (Spec.Stages spec)))).
  { split; [done|]. intros [(_ & (_ & Hn & _) & _) _]. lia. }
  change (stage_totals (Spec.PlanPath spec) (Spec.Stages spec) 0 0) with
    (stage_totals (Spec.PlanPath spec) (Spec.Stages spec) (wrap64 0) 0).
  rewrite stage_totals_spec. change (0 + ?x) with x. fold (most_users (Spec.Stages spec)).
  case_bool_decide as Hdur.
  2: { split; [done|]. intros [(_ & (_ & _ & Hall & _) & _) _]. destruct Hdur.
       eapply Forall_impl; [exact Hall|]. by intros ? []. }
  destruct (Z.ltb_spec maxLoadDuration (wrap64 (total_duration (Spec.Stages spec)))).
  { split; [done|]. intros [(_ & (_ & _ & _ & Hw & _) & _) _]. lia. }
  pose proof (most_users_le (Spec.Stages spec) maxLoadUsers 0) as Hmost.
  fold (most_users (Spec.Stages spec)) in Hmost.
  destruct (Z.ltb_spec maxLoadUsers (most_users (Spec.Stages spec))) as [Hmu|Hmu].
  { split; [done|]. intros [(_ & (_ & _ & Hall & _) & _) _].
    enough (most_users (Spec.Stages spec) <= maxLoadUsers) by lia. apply Hmost. split; [done|].
    eapply Forall_impl; [exact Hall|]. by intros ? []. }
  destruct (validate_users_spec (Spec.Variant spec) (Spec.PlanPath spec) (Spec.Users spec) 0) as [Hu1 Hu2].
  fold (final_rate spec) (final_arrivals spec).
  destruct (validate_users _ _ 0 (Spec.Users spec)) as [|us] eqn:Hus'.
  { split; [done|]. intros [(_ & (_ & _ & _ & _ & Hall & Htot) & _) _]. by specialize (Hu1 Hall Htot). }
  destruct (Hu2 us eq_refl ltac:(done)) as [Hall Htot].
  assert (us = default_user (Spec.Variant spec) <$> Spec.Users spec) as ->
    by (specialize (Hu1 Hall Htot); congruence).
  destruct (F_lt _ (final_rate spec)); [by split; [|intros [(_ & _ & ? & _) _]]|].
  destruct (F_lt _ (final_arrivals spec)); [by split; [|intros [(_ & _ & _ & ?) _]]|].
  split; [|by intros [_ ->]]. intros [= <-]. split; [|done]. split; [done|]. split; [|done].
  split_and!; try done; [destruct (Spec.Stages spec); [done|cbn; lia]|].
  apply Hmost in Hmu as [_ Hmu]. apply Forall_and. done.
Qed.

Lemma positive_weight_spec w : 1 <= positive_weight w.
Proof. unfold positive_weight. destruct (Z.leb_spec w 0); lia. Qed.

(** C38: a step that sends traffic stays within the safety limits.  The
    validation accepts a specification exactly when its target is an absolute
    URL and its rates and its plan respect the limits, and returns it with the
    defaults filled in.  What [resolveLoadSpec] accepts is such a specification
    (unless no files came with the suite, in which case it has no plan at all):
    at most 12 stages of positive duration and at most 32 users each, at most 24
    tasks, all with a method and a path, every weight at least 1, every user with
    a wait, and a total duration of at most five minutes, as long as the
    durations do not overflow the 64-bit sum. *)
Theorem load_limits variant arguments sourceFiles spec
    (Hres : resolveLoadSpec variant arguments sourceFiles = inr spec) :
  (forall s s', validateLoadSpec s = inr s' <-> loadable s /\ s' = defaulted s) /\
  (sourceFiles = [] /\ Spec.Users spec = [] /\ Spec.Stages spec = [] \/
   (absolute_target (Spec.Target spec) = true /\
    F_lt maxLoadRequestRate (Spec.RequestsPerS spec) = false /\
    F_lt maxLoadRequestRate (Spec.ArrivalRate spec) = false /\
    (Spec.PlanPath spec <> "" ->
     plan_within spec /\
     Forall (fun u => 1 <= User.Weight u /\ Wait.Mode (User.Wait u) <> "" /\
                      Forall (fun t => 1 <= Task.Weight t) (User.Tasks u)) (Spec.Users spec) /\
     (total_duration (Spec.Stages spec) <= int64_max ->
      total_duration (Spec.Stages spec) <= maxLoadDuration)))).
Proof.
  split; [apply validate_accepts|].
  assert ((exists s, validateLoadSpec s = inr spec) \/
          (sourceFiles = [] /\ Spec.Users spec = [] /\ Spec.Stages spec = [])) as [[s Hs]|Hs].
  { unfold resolveLoadSpec, parseLoadPlan in Hres. case_bool_decide; [done|].
    case_bool_decide; [left; by eexists|].
    destruct (sourceFileContent _ _) as [content|].
    - destruct (_ <? _); [done|]. destruct (plan_statements _ _) as [|[[ctx s] found]]; [done|].
      destruct found; [left; by exists s|done].
    - case_bool_decide; [right|done]. by injection Hres as <-. }
  2: by left.
  right. apply validate_accepts in Hs as [[Ht Hl] ->]. unfold defaulted.
  case_bool_decide as Hp; [split_and!; tauto|]. cbn.
  destruct Hl as ((Hus & Hlen & Hst & Hw & Hall & Htot) & Hr & Ha). split_and!; try done. intros _.
  assert (total_tasks (default_user (Spec.Variant s) <$> Spec.Users s) = total_tasks (Spec.Users s)) as Heq.
  { unfold total_tasks. clear. induction (Spec.Users s) as [|u us IH]; [done|].
    rewrite fmap_cons. cbn [foldr]. rewrite IH. cbn. by rewrite length_fmap. }
  split; [|split].
  - split_and!; cbn [Spec.Users Spec.Stages]; try done; [by destruct (Spec.Users s)|lia|lia| |by rewrite Heq]. apply Forall_fmap.
    eapply Forall_impl; [exact Hall|]. intros u [Hne Hts]. cbn. split; [by destruct (User.Tasks u)|].
    by apply Forall_fmap.
  - apply Forall_fmap, Forall_forall. intros u _. cbn. split; [apply positive_weight_spec|]. split.
    + unfold default_wait. case_bool_decide; [by case_bool_decide|done].
    + apply Forall_fmap, Forall_forall. intros t _. apply positive_weight_spec.
  - intros Hfit. rewrite wrap64_small in Hw; [done|]. split; [|done].
    assert (0 <= total_duration (Spec.Stages s)); [|unfold int64_min; lia].
    clear -Hst. induction Hst as [|st stages [Hd _] _ IH]; cbn; [done|]. unfold total_duration in IH. lia.
Qed.
End Numbers.

(** ** Plans *)
Definition lines (l : list string) : string := Join l (String newline EmptyString).

Definition sample_plan : string := lines
  ["# a plan";
   "list = traffic.get(" +:+ quoted "/items" +:+ ", headers={Accept: " +:+ quoted "x" +:+ "})";
   "shop = traffic.user(tasks=[traffic.task(request=list, weight=2),";
   "  traffic.task(request=load.post(" +:+ quoted "/buy" +:+ ", json={id: 7}))])";
   "traffic.plan(users=[shop], shape=traffic.stages([traffic.stage(" +:+ quoted "30s" +:+ ", users=4)]))"].
Definition sample_arguments : string :=
  "plan=" +:+ quoted "shop.star" +:+ ", target=" +:+ quoted "http://api:8080" +:+ ", rps=2.5".
Definition sample_files (content : string) : list Suites.SourceFile :=
  [Suites.mkSource "traffic/shop.star" content].

(** The conversions the examples leave open. *)
Definition indefinite (f : float64) : Z := int64_min.
Definition no_literals (s : string) : bool := false.

Definition sample_spec : LoadSpec :=
  match resolveLoadSpec indefinite no_literals "traffic.smoke" sample_arguments (sample_files sample_plan) with
  | inr spec => spec
  | inl _ => Spec.mk "" "" "" F_zero F_zero [] [] []
  end.
Example sample_ex :
  (User.Name <$> Spec.Users sample_spec, Spec.PlanPath sample_spec,
   (fun t => (Task.Name t, Task.Weight t, Request.Method (Task.Request t), Request.Body (Task.Request t)))
     <$> mjoin (User.Tasks <$> Spec.Users sample_spec),
   (fun s => (Stage.Duration s, Stage.Users s)) <$> Spec.Stages sample_spec,
   Spec.RequestsPerS sample_spec) =
  (["shop"], "traffic/shop.star",
   [("/items", 2, "GET", ""); ("/buy", 1, "POST", "{" +:+ quoted "id" +:+ ":7}")],
   [(30 * second, 4)], F_div (F_of_Z 5) (F_of_Z 2)).
Proof. vm_compute. reflexivity. Qed.

Lemma load_limits_witness :
  resolveLoadSpec indefinite no_literals "traffic.smoke" sample_arguments (sample_files sample_plan) =
    inr sample_spec /\
  (total_duration (Spec.Stages sample_spec) <= int64_max ->
   total_duration (Spec.Stages sample_spec) <= maxLoadDuration).
Proof.
  assert (resolveLoadSpec indefinite no_literals "traffic.smoke" sample_arguments (sample_files sample_plan) =
    inr sample_spec) as H by (vm_compute; reflexivity).
  split; [exact H|].
  destruct (load_limits indefinite no_literals _ _ _ _ H) as [_ [(Hf & _ & _)|(_ & _ & _ & Hp)]].
  - discriminate Hf.
  - apply Hp. vm_compute. congruence.
Defined.

(** The five-minute limit is computed in 64 bits and can be passed: a plan
    of two stages of 2562047 hours each (292 years) is accepted, because the sum
    of its durations wraps around to a negative number. *)
Theorem load_duration_overflows :
  let plan := lines
    ["u = traffic.user(tasks=[traffic.task(request=traffic.get(" +:+ quoted "/" +:+ "))])";
     "s = traffic.stage(" +:+ quoted "2562047h" +:+ ", users=1)";
     "traffic.plan(users=[u], shape=traffic.stages([s, s]))"] in
  exists spec,
    resolveLoadSpec indefinite no_literals "traffic.smoke" sample_arguments (sample_files plan) = inr spec /\
    5000000 * hour < total_duration (Spec.Stages spec) /\
    wrap64 (total_duration (Spec.Stages spec)) < 0.
Proof. intros plan. eexists. split; [vm_compute; reflexivity|]. by vm_compute. Qed.
End LoadPlan.
