(* ===== verification/StarNode.v ===== *)
(** The data of the Starlark evaluation,
    [src/backend/internal/suites/starlark_eval.go]: the steps a suite registers and
    the values of the interpreter they are made from.

    A [starlarkNode] is a pointer in the code; the registry keeps the nodes in the
    order they were made, so a pointer is the index of its node ([order]). *)
From Stdlib Require Import ZArith Ascii.
From S2P Require Import Prelude GoStrings Strconv CallText.
Import Strconv CallText.

Module StarNode.

(** ** Values *)

(** A value of the interpreter, by the types the code tells apart.  [SOther]
    stands for every other type, with an identity. *)
Inductive sval :=
  | SNone
  | SBool (b : bool)
  | SInt (n : Z)
  | SFloat (f : float64)
  | SString (s : string)
  | SList (items : list sval)
  | SDict (items : list (sval * sval))
  | SNode (order : nat)
  | SOther (identity : handle).

(** [starlark.AsString] *)
Definition AsString (v : sval) : option string :=
  match v with SString s => Some s | _ => None end.
(** [s, _ := starlark.AsString(v)] *)
Definition string_or_empty (v : sval) : string := default "" (AsString v).

(** [starlark.AsFloat]: the float nearest to an integer. *)
Definition AsFloat (v : sval) : option float64 :=
  match v with SFloat f => Some f | SInt n => Some (F_of_Z n) | _ => None end.

(** The plain Go values of a plugin's configuration. *)
Inductive any :=
  | ANil
  | ABool (b : bool)
  | AInt (n : Z)
  | AFloat (f : float64)
  | AString (s : string)
  | AList (items : list any).

(** ** Steps *)
Record StepEvaluation := mkEvaluation {
  ExpectExit : option Z;
  ExpectLogs : list string;
  FailOnLogs : list string;
}.

Record starlarkNode := mkNode {
  id : string;
  name : string;
  explicitName : bool;
  kind : string;
  variant : string;
  image : string;
  file : string;
  commands : list string;
  ref : string;
  plan : string;
  target : string;
  technique : string;
  floodPath : string;
  floodRate : float64;
  floodDuration : float64;
  floodThrottle : bool;
  rps : float64;
  arrivalRate : float64;
  message : string;
  harden : bool;
  after : list nat;
  resetMocks : list nat;
  onFailure : list nat;
  continueOnFail : bool;
  pluginOp : string;
  pluginConfig : list (string * any);
  evaluation : option StepEvaluation;
  exports : list ArtifactExport;
  env : gmap string string;
  order : nat;
}.

(** The node a builder starts from. *)
Definition new_node (kind variant : string) : starlarkNode :=
  mkNode "" "" false kind variant "" "" [] "" "" "" "" "" F_zero F_zero false F_zero F_zero "" false
    [] [] [] false "" [] None [] ∅ 0.

(** *** The assignments to its fields *)
Definition set_id (v : string) (n : starlarkNode) : starlarkNode :=
  mkNode v (name n) (explicitName n) (kind n) (variant n) (image n) (file n) (commands n) (ref n)
    (plan n) (target n) (technique n) (floodPath n) (floodRate n) (floodDuration n)
    (floodThrottle n) (rps n) (arrivalRate n) (message n) (harden n) (after n)
    (resetMocks n) (onFailure n) (continueOnFail n) (pluginOp n) (pluginConfig n)
    (evaluation n) (exports n) (env n) (order n).
Definition set_name (v : string) (n : starlarkNode) : starlarkNode :=
  mkNode (id n) v (explicitName n) (kind n) (variant n) (image n) (file n) (commands n) (ref n)
    (plan n) (target n) (technique n) (floodPath n) (floodRate n) (floodDuration n)
    (floodThrottle n) (rps n) (arrivalRate n) (message n) (harden n) (after n)
    (resetMocks n) (onFailure n) (continueOnFail n) (pluginOp n) (pluginConfig n)
    (evaluation n) (exports n) (env n) (order n).
Definition set_explicitName (v : bool) (n : starlarkNode) : starlarkNode :=
  mkNode (id n) (name n) v (kind n) (variant n) (image n) (file n) (commands n) (ref n) (plan n)
    (target n) (technique n) (floodPath n) (floodRate n) (floodDuration n) (floodThrottle n)
    (rps n) (arrivalRate n) (message n) (harden n) (after n) (resetMocks n) (onFailure n)
    (continueOnFail n) (pluginOp n) (pluginConfig n) (evaluation n) (exports n) (env n)
    (order n).
Definition set_image (v : string) (n : starlarkNode) : starlarkNode :=
  mkNode (id n) (name n) (explicitName n) (kind n) (variant n) v (file n) (commands n) (ref n)
    (plan n) (target n) (technique n) (floodPath n) (floodRate n) (floodDuration n)
    (floodThrottle n) (rps n) (arrivalRate n) (message n) (harden n) (after n)
    (resetMocks n) (onFailure n) (continueOnFail n) (pluginOp n) (pluginConfig n)
    (evaluation n) (exports n) (env n) (order n).
Definition set_file (v : string) (n : starlarkNode) : starlarkNode :=
  mkNode (id n) (name n) (explicitName n) (kind n) (variant n) (image n) v (commands n) (ref n)
    (plan n) (target n) (technique n) (floodPath n) (floodRate n) (floodDuration n)
    (floodThrottle n) (rps n) (arrivalRate n) (message n) (harden n) (after n)
    (resetMocks n) (onFailure n) (continueOnFail n) (pluginOp n) (pluginConfig n)
    (evaluation n) (exports n) (env n) (order n).
Definition set_commands (v : list string) (n : starlarkNode) : starlarkNode :=
  mkNode (id n) (name n) (explicitName n) (kind n) (variant n) (image n) (file n) v (ref n)
    (plan n) (target n) (technique n) (floodPath n) (floodRate n) (floodDuration n)
    (floodThrottle n) (rps n) (arrivalRate n) (message n) (harden n) (after n)
    (resetMocks n) (onFailure n) (continueOnFail n) (pluginOp n) (pluginConfig n)
    (evaluation n) (exports n) (env n) (order n).
Definition set_ref (v : string) (n : starlarkNode) : starlarkNode :=
  mkNode (id n) (name n) (explicitName n) (kind n) (variant n) (image n) (file n) (commands n) v
    (plan n) (target n) (technique n) (floodPath n) (floodRate n) (floodDuration n)
    (floodThrottle n) (rps n) (arrivalRate n) (message n) (harden n) (after n)
    (resetMocks n) (onFailure n) (continueOnFail n) (pluginOp n) (pluginConfig n)
    (evaluation n) (exports n) (env n) (order n).
Definition set_plan (v : string) (n : starlarkNode) : starlarkNode :=
  mkNode (id n) (name n) (explicitName n) (kind n) (variant n) (image n) (file n) (commands n)
    (ref n) v (target n) (technique n) (floodPath n) (floodRate n) (floodDuration n)
    (floodThrottle n) (rps n) (arrivalRate n) (message n) (harden n) (after n)
    (resetMocks n) (onFailure n) (continueOnFail n) (pluginOp n) (pluginConfig n)
    (evaluation n) (exports n) (env n) (order n).
Definition set_target (v : string) (n : starlarkNode) : starlarkNode :=
  mkNode (id n) (name n) (explicitName n) (kind n) (variant n) (image n) (file n) (commands n)
    (ref n) (plan n) v (technique n) (floodPath n) (floodRate n) (floodDuration n)
    (floodThrottle n) (rps n) (arrivalRate n) (message n) (harden n) (after n)
    (resetMocks n) (onFailure n) (continueOnFail n) (pluginOp n) (pluginConfig n)
    (evaluation n) (exports n) (env n) (order n).
Definition set_technique (v : string) (n : starlarkNode) : starlarkNode :=
  mkNode (id n) (name n) (explicitName n) (kind n) (variant n) (image n) (file n) (commands n)
    (ref n) (plan n) (target n) v (floodPath n) (floodRate n) (floodDuration n)
    (floodThrottle n) (rps n) (arrivalRate n) (message n) (harden n) (after n)
    (resetMocks n) (onFailure n) (continueOnFail n) (pluginOp n) (pluginConfig n)
    (evaluation n) (exports n) (env n) (order n).
Definition set_floodPath (v : string) (n : starlarkNode) : starlarkNode :=
  mkNode (id n) (name n) (explicitName n) (kind n) (variant n) (image n) (file n) (commands n)
    (ref n) (plan n) (target n) (technique n) v (floodRate n) (floodDuration n)
    (floodThrottle n) (rps n) (arrivalRate n) (message n) (harden n) (after n)
    (resetMocks n) (onFailure n) (continueOnFail n) (pluginOp n) (pluginConfig n)
    (evaluation n) (exports n) (env n) (order n).
Definition set_floodRate (v : float64) (n : starlarkNode) : starlarkNode :=
  mkNode (id n) (name n) (explicitName n) (kind n) (variant n) (image n) (file n) (commands n)
    (ref n) (plan n) (target n) (technique n) (floodPath n) v (floodDuration n)
    (floodThrottle n) (rps n) (arrivalRate n) (message n) (harden n) (after n)
    (resetMocks n) (onFailure n) (continueOnFail n) (pluginOp n) (pluginConfig n)
    (evaluation n) (exports n) (env n) (order n).
Definition set_floodDuration (v : float64) (n : starlarkNode) : starlarkNode :=
  mkNode (id n) (name n) (explicitName n) (kind n) (variant n) (image n) (file n) (commands n)
    (ref n) (plan n) (target n) (technique n) (floodPath n) (floodRate n) v
    (floodThrottle n) (rps n) (arrivalRate n) (message n) (harden n) (after n)
    (resetMocks n) (onFailure n) (continueOnFail n) (pluginOp n) (pluginConfig n)
    (evaluation n) (exports n) (env n) (order n).
Definition set_floodThrottle (v : bool) (n : starlarkNode) : starlarkNode :=
  mkNode (id n) (name n) (explicitName n) (kind n) (variant n) (image n) (file n) (commands n)
    (ref n) (plan n) (target n) (technique n) (floodPath n) (floodRate n) (floodDuration n)
    v (rps n) (arrivalRate n) (message n) (harden n) (after n) (resetMocks n) (onFailure n)
    (continueOnFail n) (pluginOp n) (pluginConfig n) (evaluation n) (exports n) (env n)
    (order n).
Definition set_rps (v : float64) (n : starlarkNode) : starlarkNode :=
  mkNode (id n) (name n) (explicitName n) (kind n) (variant n) (image n) (file n) (commands n)
    (ref n) (plan n) (target n) (technique n) (floodPath n) (floodRate n) (floodDuration n)
    (floodThrottle n) v (arrivalRate n) (message n) (harden n) (after n) (resetMocks n)
    (onFailure n) (continueOnFail n) (pluginOp n) (pluginConfig n) (evaluation n)
    (exports n) (env n) (order n).
Definition set_arrivalRate (v : float64) (n : starlarkNode) : starlarkNode :=
  mkNode (id n) (name n) (explicitName n) (kind n) (variant n) (image n) (file n) (commands n)
    (ref n) (plan n) (target n) (technique n) (floodPath n) (floodRate n) (floodDuration n)
    (floodThrottle n) (rps n) v (message n) (harden n) (after n) (resetMocks n)
    (onFailure n) (continueOnFail n) (pluginOp n) (pluginConfig n) (evaluation n)
    (exports n) (env n) (order n).
Definition set_message (v : string) (n : starlarkNode) : starlarkNode :=
  mkNode (id n) (name n) (explicitName n) (kind n) (variant n) (image n) (file n) (commands n)
    (ref n) (plan n) (target n) (technique n) (floodPath n) (floodRate n) (floodDuration n)
    (floodThrottle n) (rps n) (arrivalRate n) v (harden n) (after n) (resetMocks n)
    (onFailure n) (continueOnFail n) (pluginOp n) (pluginConfig n) (evaluation n)
    (exports n) (env n) (order n).
Definition set_harden (v : bool) (n : starlarkNode) : starlarkNode :=
  mkNode (id n) (name n) (explicitName n) (kind n) (variant n) (image n) (file n) (commands n)
    (ref n) (plan n) (target n) (technique n) (floodPath n) (floodRate n) (floodDuration n)
    (floodThrottle n) (rps n) (arrivalRate n) (message n) v (after n) (resetMocks n)
    (onFailure n) (continueOnFail n) (pluginOp n) (pluginConfig n) (evaluation n)
    (exports n) (env n) (order n).
Definition set_after (v : list nat) (n : starlarkNode) : starlarkNode :=
  mkNode (id n) (name n) (explicitName n) (kind n) (variant n) (image n) (file n) (commands n)
    (ref n) (plan n) (target n) (technique n) (floodPath n) (floodRate n) (floodDuration n)
    (floodThrottle n) (rps n) (arrivalRate n) (message n) (harden n) v (resetMocks n)
    (onFailure n) (continueOnFail n) (pluginOp n) (pluginConfig n) (evaluation n)
    (exports n) (env n) (order n).
Definition set_resetMocks (v : list nat) (n : starlarkNode) : starlarkNode :=
  mkNode (id n) (name n) (explicitName n) (kind n) (variant n) (image n) (file n) (commands n)
    (ref n) (plan n) (target n) (technique n) (floodPath n) (floodRate n) (floodDuration n)
    (floodThrottle n) (rps n) (arrivalRate n) (message n) (harden n) (after n) v
    (onFailure n) (continueOnFail n) (pluginOp n) (pluginConfig n) (evaluation n)
    (exports n) (env n) (order n).
Definition set_onFailure (v : list nat) (n : starlarkNode) : starlarkNode :=
  mkNode (id n) (name n) (explicitName n) (kind n) (variant n) (image n) (file n) (commands n)
    (ref n) (plan n) (target n) (technique n) (floodPath n) (floodRate n) (floodDuration n)
    (floodThrottle n) (rps n) (arrivalRate n) (message n) (harden n) (after n)
    (resetMocks n) v (continueOnFail n) (pluginOp n) (pluginConfig n) (evaluation n)
    (exports n) (env n) (order n).
Definition set_continueOnFail (v : bool) (n : starlarkNode) : starlarkNode :=
  mkNode (id n) (name n) (explicitName n) (kind n) (variant n) (image n) (file n) (commands n)
    (ref n) (plan n) (target n) (technique n) (floodPath n) (floodRate n) (floodDuration n)
    (floodThrottle n) (rps n) (arrivalRate n) (message n) (harden n) (after n)
    (resetMocks n) (onFailure n) v (pluginOp n) (pluginConfig n) (evaluation n) (exports n)
    (env n) (order n).
Definition set_pluginConfig (v : list (string * any)) (n : starlarkNode) : starlarkNode :=
  mkNode (id n) (name n) (explicitName n) (kind n) (variant n) (image n) (file n) (commands n)
    (ref n) (plan n) (target n) (technique n) (floodPath n) (floodRate n) (floodDuration n)
    (floodThrottle n) (rps n) (arrivalRate n) (message n) (harden n) (after n)
    (resetMocks n) (onFailure n) (continueOnFail n) (pluginOp n) v (evaluation n)
    (exports n) (env n) (order n).
Definition set_evaluation (v : option StepEvaluation) (n : starlarkNode) : starlarkNode :=
  mkNode (id n) (name n) (explicitName n) (kind n) (variant n) (image n) (file n) (commands n)
    (ref n) (plan n) (target n) (technique n) (floodPath n) (floodRate n) (floodDuration n)
    (floodThrottle n) (rps n) (arrivalRate n) (message n) (harden n) (after n)
    (resetMocks n) (onFailure n) (continueOnFail n) (pluginOp n) (pluginConfig n) v
    (exports n) (env n) (order n).
Definition set_exports (v : list ArtifactExport) (n : starlarkNode) : starlarkNode :=
  mkNode (id n) (name n) (explicitName n) (kind n) (variant n) (image n) (file n) (commands n)
    (ref n) (plan n) (target n) (technique n) (floodPath n) (floodRate n) (floodDuration n)
    (floodThrottle n) (rps n) (arrivalRate n) (message n) (harden n) (after n)
    (resetMocks n) (onFailure n) (continueOnFail n) (pluginOp n) (pluginConfig n)
    (evaluation n) v (env n) (order n).
Definition set_env (v : gmap string string) (n : starlarkNode) : starlarkNode :=
  mkNode (id n) (name n) (explicitName n) (kind n) (variant n) (image n) (file n) (commands n)
    (ref n) (plan n) (target n) (technique n) (floodPath n) (floodRate n) (floodDuration n)
    (floodThrottle n) (rps n) (arrivalRate n) (message n) (harden n) (after n)
    (resetMocks n) (onFailure n) (continueOnFail n) (pluginOp n) (pluginConfig n)
    (evaluation n) (exports n) v (order n).
Definition set_order (v : nat) (n : starlarkNode) : starlarkNode :=
  mkNode (id n) (name n) (explicitName n) (kind n) (variant n) (image n) (file n) (commands n)
    (ref n) (plan n) (target n) (technique n) (floodPath n) (floodRate n) (floodDuration n)
    (floodThrottle n) (rps n) (arrivalRate n) (message n) (harden n) (after n)
    (resetMocks n) (onFailure n) (continueOnFail n) (pluginOp n) (pluginConfig n)
    (evaluation n) (exports n) (env n) v.

End StarNode.
