(* ===== verification/Starlark.v ===== *)
(** The Starlark evaluation, [src/backend/internal/suites/starlark_eval.go]: the
    calls a suite makes, the steps they register, and the raw topology built from
    the registry.

    The interpreter is third-party code.  The model has what the interpreter calls
    back: every builtin is a function from the registry and the arguments to the
    new registry or an error.  A suite is any sequence of calls ([run_calls]); the
    values it passes are values it was given before, so a call can only refer to
    steps that exist ([in_scope]).  The text of a value ([val.String()]), equality
    of dictionary keys and [Int64] of a large integer are functions of the
    interpreter, arguments here. *)
From Stdlib Require Import ZArith Lia Ascii SpecFloat.
From S2P Require Import Prelude GoStrings Runes Strconv CallText StarNode.
Import GoStrings Runes Strconv CallText StarNode.

Module Starlark.

(** The errors: an argument of the wrong type, with the call and the parameter;
    and those with a text of their own. *)
Inductive StarError :=
  | WrongType (call param : string)
  | ElementType (call param : string)
  | ExportMissingPath (call : string)
  | UnsupportedTrigger (call on : string)
  | ServiceNeedsImage
  | PluginArity
  | PluginName
  | NameRequired (op : string)
  | Renamed (name replacement : string)
  | NoSuchMember (name : string)
  | Interpreter
  | NoNodes.

(** The nodes in the order they were made. *)
Notation registry := (list starlarkNode).

Section Interpreter.
(** [val.String()] *)
Variable repr : sval -> string.
(** [code.Int64()] of an integer beyond 64 bits. *)
Variable int64_undefined : Z -> Z.
(** Equality of the keys of a dictionary. *)
Variable same_key : sval -> sval -> bool.

Definition Int64 (n : Z) : Z :=
  if (int64_min <=? n) && (n <=? int64_max) then n else int64_undefined n.

(** ** The module utils *)
Definition sanitize_rune (ch : Z) : ascii :=
  if ((97 <=? ch) && (ch <=? 122)) || ((48 <=? ch) && (ch <=? 57)) then byte_of ch
  else if (65 <=? ch) && (ch <=? 90) then byte_of (ch + 32)
  else "-"%char.

(** [strings.ReplaceAll(s, "--", "-")], and the loop around it; every round
    shortens the text. *)
Fixpoint halve_dashes (l : bytes) : bytes :=
  match l with
  | [] => []
  | c :: l1 =>
      match l1 with
      | d :: l2 => if bool_decide (c = "-"%char /\ d = "-"%char) then "-"%char :: halve_dashes l2
                   else c :: halve_dashes l1
      | [] => [c]
      end
  end.
Fixpoint dash_loop (fuel : nat) (l : bytes) : bytes :=
  match fuel with
  | O => l
  | S fuel' => if has_sub (of_string "--") l then dash_loop fuel' (halve_dashes l) else l
  end.

(** The text a builtin works on: the string, or the text of the value. *)
Definition text_of (v : sval) : string :=
  let s := string_or_empty v in if bool_decide (s = "") then repr v else s.

Definition utilsSanitize (v : sval) : string :=
  let b := sanitize_rune <$> runes (text_of v) in
  let result := Trim (to_string (dash_loop (length b) b)) "-" in
  if bool_decide (result = "") then "step" else result.

(** [strings.ReplaceAll(s, c, by)] for one byte and a text. *)
Definition replace_byte (c : ascii) (by_ : bytes) (l : bytes) : bytes :=
  concat ((fun d => if bool_decide (d = c) then by_ else [d]) <$> l).

Definition single : ascii := "'"%char.
(** The text that leaves single quotes, adds one and enters them again. *)
Definition escaped_single : bytes := [single; quote_byte; single; quote_byte; single].
Definition utilsQuoted (v : sval) : string :=
  to_string (single :: replace_byte single escaped_single (of_string (text_of v)) ++ [single]).

(** [merged.SetKey]: in place when the key is there, at the end otherwise. *)
Fixpoint SetKey (k v : sval) (d : list (sval * sval)) : list (sval * sval) :=
  match d with
  | [] => [(k, v)]
  | (k', w) :: d' => if same_key k' k then (k', v) :: d' else (k', w) :: SetKey k v d'
  end.
Definition utilsMerge (base overrides : list (sval * sval)) : list (sval * sval) :=
  foldl (fun d kv => SetKey kv.1 kv.2 d) (foldl (fun d kv => SetKey kv.1 kv.2 d) [] base) overrides.

Definition utilsUnique (values : list sval) (item : sval) : list sval :=
  if existsb (fun v => bool_decide (repr v = repr item)) values then values else values ++ [item].

Definition utilsSqlValue (v : sval) : string :=
  match v with
  | SNone => "null"
  | SBool b => if b then "true" else "false"
  | SInt _ | SFloat _ => repr v
  | _ => to_string (single :: replace_byte single [single; single] (of_string (string_or_empty v)) ++ [single])
  end.

Definition utilsSqlPredicate (v : sval) : StarError + string :=
  match v with
  | SString s => inr s
  | SDict items =>
      inr (Join ((fun '(k, w) => string_or_empty k +:+ " = " +:+ utilsSqlValue w) <$> items) " and ")
  | _ => inl (WrongType "utils.sql_predicate" "where")
  end.

Definition utilsJsValue (v : sval) : string :=
  match v with
  | SString s => to_string (quote_byte :: replace_byte quote_byte [backslash; quote_byte] (of_string s) ++ [quote_byte])
  | SBool b => if b then "true" else "false"
  | SNone => "null"
  | _ => repr v
  end.

(** ** Reading arguments *)
Fixpoint node_items (call param : string) (items : list sval) : StarError + list nat :=
  match items with
  | [] => inr []
  | SNode i :: rest => check out := node_items call param rest in inr (i :: out)
  | _ => inl (ElementType call param)
  end.
Definition extractNodeList (v : sval) (call param : string) : StarError + list nat :=
  match v with SList items => node_items call param items | _ => inl (WrongType call param) end.

(** One entry of the dictionary of an export. *)
Definition export_item (call : string) (kv : sval * sval) (export : ArtifactExport) : StarError + ArtifactExport :=
  match AsString kv.1 with
  | None => inr export
  | Some k =>
      if bool_decide (k ∈ ["path"; "name"; "on"; "format"]) then
        match AsString kv.2 with
        | None => inl (WrongType call ("exports " +:+ k))
        | Some s =>
            let s := TrimSpace s in
            inr (if bool_decide (k = "path") then mkExport s (ExportName export) (On export) (Format export)
                 else if bool_decide (k = "name") then mkExport (ExportPath export) s (On export) (Format export)
                 else if bool_decide (k = "on") then mkExport (ExportPath export) (ExportName export) s (Format export)
                 else mkExport (ExportPath export) (ExportName export) (On export) (ToLower s))
        end
      else inr export
  end.
Fixpoint export_dict (call : string) (items : list (sval * sval)) (export : ArtifactExport) :
    StarError + ArtifactExport :=
  match items with
  | [] => inr export
  | kv :: rest => check export' := export_item call kv export in export_dict call rest export'
  end.
Definition export_entry (call : string) (items : list (sval * sval)) : StarError + ArtifactExport :=
  check export := export_dict call items (mkExport "" "" "success" "") in
  if bool_decide (TrimSpace (ExportPath export) = "") then inl (ExportMissingPath call)
  else if bool_decide (On export = "" \/ On export = "success") then
    inr (mkExport (ExportPath export) (ExportName export) "success" (Format export))
  else if bool_decide (On export = "failure" \/ On export = "always") then inr export
  else inl (UnsupportedTrigger call (On export)).
Fixpoint export_entries (call : string) (items : list sval) : StarError + list ArtifactExport :=
  match items with
  | [] => inr []
  | SDict d :: rest =>
      check export := export_entry call d in
      check out := export_entries call rest in
      inr (export :: out)
  | _ => inl (ElementType call "exports")
  end.
Definition extractArtifactExports (v : sval) (call : string) : StarError + list ArtifactExport :=
  match v with SList items => export_entries call items | _ => inl (WrongType call "exports") end.

Fixpoint string_items (call param : string) (items : list sval) : StarError + list string :=
  match items with
  | [] => inr []
  | SString s :: rest => check out := string_items call param rest in inr (s :: out)
  | _ => inl (ElementType call param)
  end.
Definition extractStringOrList (v : sval) (call param : string) : StarError + list string :=
  match v with
  | SString s => inr (if bool_decide (s = "") then [] else [s])
  | SList items =>
      check out := string_items call param items in
      inr (filter (fun s => s <> "") out)
  | _ => inl (WrongType call param)
  end.

(** ** [buildNodeFunc] *)

(** What one call collects: its node and the parts of its evaluation. *)
Record builder := mkBuilder {
  built : starlarkNode;
  expectExit : option Z;
  expectLogs : list string;
  failOnLogs : list string;
}.
Definition on_node (f : starlarkNode -> starlarkNode) (b : builder) : builder :=
  mkBuilder (f (built b)) (expectExit b) (expectLogs b) (failOnLogs b).

(** A keyword that must be a string, and one that must be a boolean. *)
Definition string_kwarg (variant key : string) (v : sval) (set : string -> starlarkNode -> starlarkNode)
    (b : builder) : StarError + builder :=
  match AsString v with
  | Some s => inr (on_node (set (TrimSpace s)) b)
  | None => inl (WrongType variant key)
  end.
Definition bool_kwarg (variant key : string) (v : sval) (set : bool -> starlarkNode -> starlarkNode)
    (b : builder) : StarError + builder :=
  match v with SBool x => inr (on_node (set x) b) | _ => inl (WrongType variant key) end.
(** A number; another value leaves the field alone. *)
Definition float_kwarg (v : sval) (set : float64 -> starlarkNode -> starlarkNode) (b : builder) : builder :=
  match AsFloat v with Some f => on_node (set f) b | None => b end.

(** [env]: the entries whose key and value are strings. *)
Definition env_map (items : list (sval * sval)) : gmap string string :=
  foldl (fun m kv => match AsString kv.1, AsString kv.2 with
                     | Some k, Some v => <[k := v]> m
                     | _, _ => m
                     end) ∅ items.

Definition kwarg_step (variant : string) (kwarg : string * sval) (b : builder) : StarError + builder :=
  let '(key, v) := kwarg in
  let eqk k := bool_decide (key = k) in
  if bool_decide (key ∈ ["name"; "name_or_id"; "id"]) then
    string_kwarg variant key v (fun s n => set_explicitName true (set_name s n)) b
  else if eqk "message" then string_kwarg variant key v set_message b
  else if eqk "image" then string_kwarg variant key v set_image b
  else if eqk "file" then string_kwarg variant key v set_file b
  else if eqk "commands" then
    match v with
    | SList items =>
        check cmds := string_items variant "commands" items in
        inr (on_node (set_commands cmds) b)
    | _ => inl (WrongType variant "commands")
    end
  else if eqk "ref" then string_kwarg variant key v set_ref b
  else if eqk "after" then
    check deps := extractNodeList v variant "after" in inr (on_node (set_after deps) b)
  else if eqk "reset_mocks" then
    check deps := extractNodeList v variant "reset_mocks" in inr (on_node (set_resetMocks deps) b)
  else if eqk "on_failure" then
    check deps := extractNodeList v variant "on_failure" in inr (on_node (set_onFailure deps) b)
  else if eqk "continue_on_failure" then bool_kwarg variant key v set_continueOnFail b
  else if eqk "plan" then string_kwarg variant key v set_plan b
  else if eqk "target" then string_kwarg variant key v set_target b
  else if bool_decide (key ∈ ["rps"; "target_rps"]) then inr (float_kwarg v set_rps b)
  else if eqk "arrival_rate" then inr (float_kwarg v set_arrivalRate b)
  else if eqk "expect_exit" then
    match v with
    | SInt n => inr (mkBuilder (built b) (Some (Int64 n)) (expectLogs b) (failOnLogs b))
    | _ => inl (WrongType variant "expect_exit")
    end
  else if eqk "expect_logs" then
    check matchers := extractStringOrList v variant "expect_logs" in
    inr (mkBuilder (built b) (expectExit b) matchers (failOnLogs b))
  else if eqk "fail_on_logs" then
    check matchers := extractStringOrList v variant "fail_on_logs" in
    inr (mkBuilder (built b) (expectExit b) (expectLogs b) matchers)
  else if eqk "exports" then
    check exports := extractArtifactExports v variant in inr (on_node (set_exports exports) b)
  else if eqk "env" then
    match v with
    | SDict items => inr (on_node (set_env (env_map items)) b)
    | _ => inl (WrongType variant "env")
    end
  else if eqk "technique" then string_kwarg variant key v set_technique b
  else if eqk "path" then string_kwarg variant key v set_floodPath b
  else if eqk "rate" then inr (float_kwarg v set_floodRate b)
  else if eqk "duration" then inr (float_kwarg v set_floodDuration b)
  else if eqk "expect_throttle" then bool_kwarg variant key v set_floodThrottle b
  else if eqk "harden" then bool_kwarg variant key v set_harden b
  else inr b.

Fixpoint kwarg_loop (variant : string) (kwargs : list (string * sval)) (b : builder) : StarError + builder :=
  match kwargs with
  | [] => inr b
  | kwarg :: rest => check b' := kwarg_step variant kwarg b in kwarg_loop variant rest b'
  end.

(** [reg.register]: the node gets the next position. *)
Definition register (reg : registry) (n : starlarkNode) : registry := reg ++ [set_order (length reg) n].

Definition node_kind (variant : string) : string :=
  match topologyKind variant with Some kind => kind | None => variant end.

Definition buildNodeFunc (reg : registry) (variant : string) (args : list sval)
    (kwargs : list (string * sval)) : StarError + registry :=
  let node := new_node (node_kind variant) variant in
  let node := match args with
              | a :: _ => match AsString a with Some s => set_message (TrimSpace s) node | None => node end
              | [] => node
              end in
  check b := kwarg_loop variant kwargs (mkBuilder node None [] []) in
  let node := if bool_decide (expectExit b = None /\ expectLogs b = [] /\ failOnLogs b = []) then built b
              else set_evaluation (Some (mkEvaluation (expectExit b) (expectLogs b) (failOnLogs b))) (built b) in
  inr (register reg node).

Definition VariantServiceRun : string := "service.run".
Definition has_image (kwargs : list (string * sval)) : bool :=
  foldl (fun has '(key, v) => if bool_decide (key = "image") then negb (blank (string_or_empty v)) else has)
    false kwargs.
Definition buildServiceRunFunc (reg : registry) (args : list sval) (kwargs : list (string * sval)) :
    StarError + registry :=
  if has_image kwargs then buildNodeFunc reg VariantServiceRun args kwargs else inl ServiceNeedsImage.

(** ** Plugins *)
Definition plugin (args : list sval) : StarError + string :=
  match args with
  | [a] => match AsString a with
           | Some name => if blank name then inl PluginName else inr (TrimSpace name)
           | None => inl PluginName
           end
  | _ => inl PluginArity
  end.

Fixpoint starlarkToGo (v : sval) : any :=
  match v with
  | SString s => AString s
  | SInt n => AInt (Int64 n)
  | SFloat f => AFloat f
  | SBool b => ABool b
  | SList items => AList (starlarkToGo <$> items)
  | SNone => ANil
  | _ => AString (repr v)
  end.

(** [node.pluginConfig[key] = value]: the entries of the map. *)
Definition set_config (key : string) (v : any) (config : list (string * any)) : list (string * any) :=
  filter (fun e => e.1 <> key) config ++ [(key, v)].

Definition plugin_kwarg (op : string) (kwarg : string * sval) (n : starlarkNode) : StarError + starlarkNode :=
  let '(key, v) := kwarg in
  if bool_decide (key = "name") then
    match AsString v with
    | Some s => inr (set_explicitName (negb (blank s)) (set_name (TrimSpace s) n))
    | None => inl (WrongType ("plugin." +:+ op) "name")
    end
  else if bool_decide (key = "after") then
    check nodes := extractNodeList v ("plugin." +:+ op) "after" in inr (set_after nodes n)
  else inr (set_pluginConfig (set_config key (starlarkToGo v) (pluginConfig n)) n).
Fixpoint plugin_kwargs (op : string) (kwargs : list (string * sval)) (n : starlarkNode) : StarError + starlarkNode :=
  match kwargs with
  | [] => inr n
  | kwarg :: rest => check n' := plugin_kwarg op kwarg n in plugin_kwargs op rest n'
  end.

(** The builder of [starlarkPluginRef.Attr]. *)
Definition plugin_call (reg : registry) (pluginName op : string) (kwargs : list (string * sval)) :
    StarError + registry :=
  let softFail := bool_decide (op = "watch" \/ op = "monitor") in
  let n := new_node NodeKindPlugin pluginName in
  let n := mkNode (id n) (name n) (explicitName n) (kind n) (variant n) (image n) (file n) (commands n) (ref n)
             (plan n) (target n) (technique n) (floodPath n) (floodRate n) (floodDuration n) (floodThrottle n)
             (rps n) (arrivalRate n) (message n) (harden n) (after n) (resetMocks n) (onFailure n) softFail op
             [] (evaluation n) (exports n) (env n) (order n) in
  check n := plugin_kwargs op kwargs n in
  if bool_decide (name n = "") then inl (NameRequired op) else inr (register reg n).

(** ** The runtime module *)
Inductive member :=
  | NodeBuilder (variant : string)
  | ServiceBuilder.

(** [buildRuntimeModule]: the methods of each namespace. *)
Definition methods (namespace : string) : list (string * member) :=
  let nodes l := (fun m => (m, NodeBuilder (namespace +:+ "." +:+ m))) <$> l in
  if bool_decide (namespace = "service") then [("run", ServiceBuilder)]
  else if bool_decide (namespace = "mock") then nodes ["api"]
  else if bool_decide (namespace = "task") then nodes ["run"]
  else if bool_decide (namespace = "test") then nodes ["run"]
  else if bool_decide (namespace = "traffic") then
    nodes ["smoke"; "baseline"; "stress"; "spike"; "soak"; "scalability"; "step"; "wave"; "staged";
           "constant_throughput"; "constant_pacing"; "open_model"]
  else if bool_decide (namespace = "suite") then nodes ["run"]
  else if bool_decide (namespace = "security") then
    nodes ["probe"; "fuzz"; "auth"; "flood"; "headers"; "verbs"; "graphql"; "cors"]
  else if bool_decide (namespace = "log") then nodes ["info"; "warn"; "error"; "debug"]
  else [].
Definition renamed (namespace name : string) : option string :=
  if bool_decide (namespace = "service" /\ name = "mock") then Some "mock.api" else None.

(** [starlarkNamespace.Attr] *)
Definition Attr (namespace name : string) : StarError + option member :=
  match list_find (fun m => m.1 = name) (methods namespace) with
  | Some (_, (_, m)) => inr (Some m)
  | None => match renamed namespace name with
            | Some replacement => inl (Renamed name replacement)
            | None => inr None
            end
  end.

(** ** A run of a suite *)
Inductive call :=
  | NamespaceCall (namespace method : string) (args : list sval) (kwargs : list (string * sval))
  | PluginCall (plugin_args : list sval) (op : string) (kwargs : list (string * sval)).

Definition run_call (reg : registry) (c : call) : StarError + registry :=
  match c with
  | NamespaceCall namespace method args kwargs =>
      check m := Attr namespace method in
      match m with
      | Some (NodeBuilder variant) => buildNodeFunc reg variant args kwargs
      | Some ServiceBuilder => buildServiceRunFunc reg args kwargs
      | None => inl (NoSuchMember method)
      end
  | PluginCall plugin_args op kwargs =>
      check pluginName := plugin plugin_args in
      plugin_call reg pluginName op kwargs
  end.
Fixpoint run_calls (reg : registry) (calls : list call) : StarError + registry :=
  match calls with
  | [] => inr reg
  | c :: rest => check reg' := run_call reg c in run_calls reg' rest
  end.

(** ** [assignIDs] *)

(** The choice between two variables of one node: the longer name, then the
    smaller one. *)
Definition better (varName existing : string) : bool :=
  (String.length existing <? String.length varName)%nat ||
  ((String.length varName =? String.length existing)%nat && String.ltb varName existing).
Fixpoint variable_of (globals : list (string * sval)) (i : nat) (existing : option string) : option string :=
  match globals with
  | [] => existing
  | (varName, SNode j) :: rest =>
      if (i =? j)%nat then
        variable_of rest i (match existing with
                            | Some e => if better varName e then Some varName else existing
                            | None => Some varName
                            end)
      else variable_of rest i existing
  | _ :: rest => variable_of rest i existing
  end.

Definition assign_id (globals : list (string * sval)) (n : starlarkNode) : starlarkNode :=
  let varName := default "" (variable_of globals (order n) None) in
  if explicitName n then set_id (name n) n
  else if negb (bool_decide (varName = "")) then set_name varName (set_id varName n)
  else
    let generated := "node_" +:+ FormatInt (Z.of_nat (order n)) in
    set_name generated (set_id generated n).
(** [globals] in the order the map is ranged over. *)
Definition assignIDs (reg : registry) (globals : list (string * sval)) : registry :=
  assign_id globals <$> reg.

(** ** [buildStarlarkArguments] and [buildRawNodes] *)

(** Text between double quotes, not escaped; [F_lt F_zero f] is [f > 0]. *)
Definition text_argument (key value : string) : list string :=
  if bool_decide (value = "") then [] else [named (key, quoted value)].
Definition number_argument (key : string) (f : float64) : list string :=
  if F_lt F_zero f then [named (key, Sprint_g f)] else [].
Definition buildStarlarkArguments (n : starlarkNode) : string :=
  Join (text_argument "plan" (plan n) ++ text_argument "target" (target n) ++
        number_argument "rps" (rps n) ++ number_argument "arrival_rate" (arrivalRate n) ++
        text_argument "technique" (technique n) ++ text_argument "path" (floodPath n) ++
        number_argument "rate" (floodRate n) ++ number_argument "duration" (floodDuration n) ++
        (if floodThrottle n then [named ("expect_throttle", "True")] else [])) ", ".

(** [rawTopologyNode]: the edges and the arguments; the other fields are those
    of the node. *)
Record rawNode := mkRaw {
  RawNode : starlarkNode;
  Arguments : string;
  RawDependsOn : list string;
  RawResetMocks : list string;
  RawOnFailure : list string;
}.
(** The ids of the nodes referred to, without the empty ones. *)
Definition edge_ids (reg : registry) (edges : list nat) : list string :=
  filter (fun s => s <> "") ((fun i => default "" (id <$> reg !! i)) <$> edges).
Definition raw_node (reg : registry) (n : starlarkNode) : rawNode :=
  mkRaw n (buildStarlarkArguments n) (edge_ids reg (after n)) (edge_ids reg (resetMocks n))
    (edge_ids reg (onFailure n)).
Definition buildRawNodes (reg : registry) : list rawNode := raw_node reg <$> reg.

(** [evalStarlarkTopology]: the interpreter makes the calls of the suite; when
    none of them fails it ends with the globals, or fails on its own. *)
Definition evalStarlarkTopology (calls : list call) (outcome : option (list (string * sval))) :
    StarError + list rawNode :=
  check reg := run_calls [] calls in
  match outcome with
  | None => inl Interpreter
  | Some globals =>
      if bool_decide (reg = []) then inl NoNodes
      else inr (buildRawNodes (assignIDs reg globals))
  end.

(** ** Steps refer to earlier steps *)

(** The nodes inside a value exist: the interpreter got them from earlier
    calls. *)
Fixpoint scoped (n : nat) (v : sval) : Prop :=
  match v with
  | SNode i => (i < n)%nat
  | SList items => foldr (fun w P => scoped n w /\ P) True items
  | SDict items => foldr (fun '(k, w) P => (scoped n k /\ scoped n w) /\ P) True items
  | _ => True
  end.
Definition in_scope (n : nat) (c : call) : Prop :=
  match c with
  | NamespaceCall _ _ args kwargs =>
      Forall (scoped n) args /\ Forall (fun kw => scoped n kw.2) kwargs
  | PluginCall args _ kwargs => Forall (scoped n) args /\ Forall (fun kw => scoped n kw.2) kwargs
  end.
(** Call number [n] is made when [n] nodes exist. *)
Fixpoint calls_in_scope (n : nat) (calls : list call) : Prop :=
  match calls with
  | [] => True
  | c :: rest => in_scope n c /\ calls_in_scope (S n) rest
  end.

Lemma node_items_scoped call param n items out :
  node_items call param items = inr out -> foldr (fun w P => scoped n w /\ P) True items ->
  Forall (fun i => i < n)%nat out.
Proof.
  revert out. induction items as [|v items IH]; intros out; cbn [node_items foldr]; [by intros [= <-]|].
  destruct v; try done. destruct (node_items call param items) as [|o]; [done|]. intros [= <-] [Hi Hs].
  constructor; [done|]. by apply IH.
Qed.

Lemma extractNodeList_scoped v call param n out :
  extractNodeList v call param = inr out -> scoped n v -> Forall (fun i => i < n)%nat out.
Proof. destruct v; try done. apply node_items_scoped. Qed.

(** A node is well made below [n]: its references exist, its name is trimmed. *)
Definition node_ok (n : nat) (x : starlarkNode) : Prop :=
  Forall (fun i => i < n)%nat (after x) /\ Forall (fun i => i < n)%nat (resetMocks x) /\
  Forall (fun i => i < n)%nat (onFailure x) /\ TrimSpace (name x) = name x.

Lemma new_node_ok n kind variant : node_ok n (new_node kind variant).
Proof. split_and!; by apply Forall_nil || done. Qed.

(** A setter of another field keeps the references and the name. *)
Definition keeps (f : starlarkNode -> starlarkNode) : Prop :=
  forall x, after (f x) = after x /\ resetMocks (f x) = resetMocks x /\ onFailure (f x) = onFailure x /\
    name (f x) = name x.

Lemma keeps_ok f n x : keeps f -> node_ok n x -> node_ok n (f x).
Proof. intros Hf. destruct (Hf x) as (H1 & H2 & H3 & H4). unfold node_ok. by rewrite H1, H2, H3, H4. Qed.

Lemma string_kwarg_ok variant key v set b b' n : (forall s, keeps (set s)) ->
  string_kwarg variant key v set b = inr b' -> node_ok n (built b) -> node_ok n (built b').
Proof. intros Hk. unfold string_kwarg. destruct (AsString v); [intros [= <-]|done]. by apply keeps_ok. Qed.
Lemma bool_kwarg_ok variant key v set b b' n : (forall s, keeps (set s)) ->
  bool_kwarg variant key v set b = inr b' -> node_ok n (built b) -> node_ok n (built b').
Proof. intros Hk. unfold bool_kwarg. destruct v; try done. intros [= <-]. by apply keeps_ok. Qed.
Lemma float_kwarg_ok v set b n : (forall f, keeps (set f)) ->
  node_ok n (built b) -> node_ok n (built (float_kwarg v set b)).
Proof. intros Hk. unfold float_kwarg. destruct (AsFloat v); [|done]. by apply keeps_ok. Qed.
Lemma name_kwarg_ok s n e x : node_ok n x -> node_ok n (set_explicitName e (set_name (TrimSpace s) x)).
Proof. intros (H1 & H2 & H3 & _). split_and!; [done|done|done|]. apply TrimSpace_idemp. Qed.

Ltac kwarg_ok :=
  match goal with
  | |- string_kwarg _ _ _ _ _ = inr _ -> _ => apply string_kwarg_ok; by intros ? []
  | |- bool_kwarg _ _ _ _ _ = inr _ -> _ => apply bool_kwarg_ok; by intros ? []
  | |- inr (float_kwarg _ _ _) = inr _ -> _ => intros [= <-]; apply float_kwarg_ok; by intros ? []
  | |- inr _ = inr _ -> _ => intros [= <-]; done
  end.

Lemma kwarg_step_ok variant kw b b' n : kwarg_step variant kw b = inr b' -> scoped n kw.2 ->
  node_ok n (built b) -> node_ok n (built b').
Proof.
  destruct kw as [key v]. cbn [snd]. intros H Hs. revert H. unfold kwarg_step.
  repeat (case_bool_decide; [try kwarg_ok|]); [..|by intros [= <-]].
  - unfold string_kwarg. destruct (AsString v); [intros [= <-]|done]. apply name_kwarg_ok.
  - destruct v; try done. destruct (string_items _ _ _); [done|]. intros [= <-]. by apply keeps_ok.
  - destruct (extractNodeList v variant "after") as [|deps] eqn:He; [done|]. intros [= <-].
    intros (_ & ? & ? & ?). split_and!; [|done..]. by eapply extractNodeList_scoped.
  - destruct (extractNodeList v variant "reset_mocks") as [|deps] eqn:He; [done|]. intros [= <-].
    intros (? & _ & ? & ?). split_and!; [done| |done..]. by eapply extractNodeList_scoped.
  - destruct (extractNodeList v variant "on_failure") as [|deps] eqn:He; [done|]. intros [= <-].
    intros (? & ? & _ & ?). split_and!; [done|done| |done]. by eapply extractNodeList_scoped.
  - destruct v; try done. by intros [= <-].
  - destruct (extractStringOrList _ _ _); [done|]. by intros [= <-].
  - destruct (extractStringOrList _ _ _); [done|]. by intros [= <-].
  - destruct (extractArtifactExports _ _); [done|]. intros [= <-]. by apply keeps_ok.
  - destruct v; try done. intros [= <-]. by apply keeps_ok.
Qed.

Lemma kwarg_loop_ok variant n kwargs : forall b b', kwarg_loop variant kwargs b = inr b' ->
  Forall (fun kw => scoped n kw.2) kwargs -> node_ok n (built b) -> node_ok n (built b').
Proof.
  induction kwargs as [|kw kwargs IH]; intros b b'; cbn [kwarg_loop]; [by intros [= <-]|].
  destruct (kwarg_step variant kw b) as [|b1] eqn:Hk; [done|]. intros H [Hs Hss]%Forall_cons Hb.
  apply (IH b1); [done|done|]. by apply (kwarg_step_ok variant kw b).
Qed.

Lemma plugin_kwargs_ok op n kwargs : forall x x', plugin_kwargs op kwargs x = inr x' ->
  Forall (fun kw => scoped n kw.2) kwargs -> node_ok n x -> node_ok n x'.
Proof.
  induction kwargs as [|[key v] kwargs IH]; intros x x'; cbn [plugin_kwargs]; [by intros [= <-]|].
  destruct (plugin_kwarg op (key, v) x) as [|x1] eqn:Hk; [done|]. intros H [Hs Hss]%Forall_cons Hx.
  apply (IH x1); [done|done|]. revert Hk. unfold plugin_kwarg. cbn [snd] in Hs.
  case_bool_decide; [destruct (AsString v); [intros [= <-]|done]; by apply name_kwarg_ok|].
  case_bool_decide; [|intros [= <-]; done].
  destruct (extractNodeList v _ "after") as [|deps] eqn:He; [done|]. intros [= <-].
  destruct Hx as (_ & ? & ? & ?). split_and!; [|done..]. by eapply extractNodeList_scoped.
Qed.

(** A successful call registers one node, which refers to existing ones. *)
Lemma run_call_registers reg c reg' : run_call reg c = inr reg' -> in_scope (length reg) c ->
  exists x, reg' = reg ++ [x] /\ order x = length reg /\ node_ok (length reg) x.
Proof.
  assert (forall x, node_ok (length reg) x -> exists y, register reg x = reg ++ [y] /\
    order y = length reg /\ node_ok (length reg) y) as Hreg.
  { intros x Hx. by exists (set_order (length reg) x). }
  assert (forall variant args kwargs, Forall (fun kw => scoped (length reg) kw.2) kwargs ->
    buildNodeFunc reg variant args kwargs = inr reg' ->
    exists x, reg' = reg ++ [x] /\ order x = length reg /\ node_ok (length reg) x) as Hbuild.
  { intros variant args kwargs Hs. unfold buildNodeFunc. set (node := match args with [] => _ | _ => _ end).
    assert (node_ok (length reg) node) as Hn.
    { subst node. destruct args as [|a args]; [apply new_node_ok|].
      destruct (AsString a); [|apply new_node_ok]. apply keeps_ok; [by intros []|apply new_node_ok]. }
    destruct (kwarg_loop variant kwargs _) as [|b] eqn:Hb; [done|]. intros [= <-]. apply Hreg.
    pose proof (kwarg_loop_ok _ _ _ _ _ Hb Hs Hn) as Hr. case_bool_decide; [done|].
    apply keeps_ok; [by intros []|done]. }
  destruct c as [namespace method args kwargs|pargs op kwargs]; cbn [run_call in_scope].
  - intros H [_ Hs]. destruct (Attr namespace method) as [|[[variant|]|]]; try done; [by eapply Hbuild|].
    unfold buildServiceRunFunc in H. destruct (has_image kwargs); [by eapply Hbuild|done].
  - intros H [_ Hs]. destruct (plugin pargs) as [|p]; [done|]. unfold plugin_call in H.
    destruct (plugin_kwargs op kwargs _) as [|x] eqn:Hx; [done|]. case_bool_decide; [done|].
    injection H as <-. apply Hreg, (plugin_kwargs_ok _ _ _ _ _ Hx Hs), new_node_ok.
Qed.

(** The nodes of a registry refer to earlier nodes, by their positions. *)
Definition registry_ok (reg : registry) : Prop :=
  forall i x, reg !! i = Some x -> order x = i /\ node_ok i x.

Lemma run_calls_ok calls : forall reg reg', run_calls reg calls = inr reg' ->
  calls_in_scope (length reg) calls -> registry_ok reg -> registry_ok reg'.
Proof.
  induction calls as [|c calls IH]; intros reg reg'; cbn [run_calls calls_in_scope]; [by intros [= <-]|].
  destruct (run_call reg c) as [|reg1] eqn:Hc; [done|]. intros H [Hs Hss] Hok.
  destruct (run_call_registers _ _ _ Hc Hs) as (x & -> & Hord & Hrefs).
  apply (IH (reg ++ [x])); [done|by rewrite length_app, Nat.add_1_r|].
  intros i y Hi. apply lookup_app_Some in Hi as [Hi|[Hlen Hi]]; [by apply Hok|].
  apply list_lookup_singleton_Some in Hi as [Hz <-]. by replace i with (length reg) by lia.
Qed.
End Interpreter.

(** ** The ids do not depend on the order of the globals *)
Lemma better_irrefl v : better v v = false.
Proof. unfold better. by rewrite Nat.ltb_irrefl, Nat.eqb_refl, ltb_irrefl. Qed.
Lemma better_trans u v w : better u v = true -> better v w = true -> better u w = true.
Proof.
  unfold better. intros H1 H2. apply orb_true_iff in H1 as [H1|[H1 H1']%andb_prop], H2 as [H2|[H2 H2']%andb_prop];
    rewrite ?Nat.ltb_lt, ?Nat.eqb_eq in *; apply orb_true_iff; try (left; apply Nat.ltb_lt; lia).
  right. apply andb_true_iff. split; [apply Nat.eqb_eq; lia|]. by apply (ltb_trans u v w).
Qed.
Lemma better_total u v : better u v = true \/ u = v \/ better v u = true.
Proof.
  unfold better. destruct (Nat.lt_trichotomy (String.length u) (String.length v)) as [H|[H|H]].
  - right. right. apply orb_true_iff. left. by apply Nat.ltb_lt.
  - rewrite H, Nat.ltb_irrefl, Nat.eqb_refl. cbn. apply ltb_total.
  - left. apply orb_true_iff. left. by apply Nat.ltb_lt.
Qed.

(** The best of the names of a node. *)
Definition best (names : list string) (v : string) : Prop :=
  v ∈ names /\ forall u, u ∈ names -> u = v \/ better v u = true.

Lemma best_unique names v w : best names v -> best names w -> v = w.
Proof.
  intros [Hv Hv'] [Hw Hw']. destruct (Hv' w Hw) as [->|H1]; [done|]. destruct (Hw' v Hv) as [->|H2]; [done|].
  pose proof (better_trans _ _ _ H1 H2) as H. by rewrite better_irrefl in H.
Qed.

Definition names_of (globals : list (string * sval)) (i : nat) : list string :=
  omap (fun g => match g.2 with SNode j => if (i =? j)%nat then Some g.1 else None | _ => None end) globals.

Lemma variable_of_spec globals i : forall existing,
  let names := option_list existing ++ names_of globals i in
  match variable_of globals i existing with
  | None => names = []
  | Some v => best names v
  end.
Proof.
  induction globals as [|[u w] globals IH]; intros existing; cbn [variable_of].
  - destruct existing as [e|]; cbn; [|done]. split; [by left|]. intros x Hx%list_elem_of_singleton. by left.
  - assert (names_of ((u, w) :: globals) i =
      option_list (match w with SNode j => if (i =? j)%nat then Some u else None | _ => None end) ++ names_of globals i)
      as Hn.
    { unfold names_of. cbn [omap list_omap snd fst]. by destruct (match w with SNode _ => _ | _ => _ end). }
    destruct w as [| | | | | | |j|]; rewrite Hn; try apply IH. destruct (i =? j)%nat; [|apply IH].
    cbn [option_list]. destruct existing as [e|]; [|apply IH]. cbn [option_list].
    assert (forall keep drop, (keep = drop \/ better keep drop = true) ->
      (forall x, x ∈ [e] ++ [u] ++ names_of globals i <-> x = keep \/ x = drop \/ x ∈ names_of globals i) ->
      match variable_of globals i (Some keep) with
      | Some v => best ([e] ++ [u] ++ names_of globals i) v
      | None => [e] ++ [u] ++ names_of globals i = []
      end) as Hkeep.
    { intros keep drop Hb Hin. specialize (IH (Some keep)). destruct (variable_of globals i (Some keep)) as [v|]; [|done].
      destruct IH as [Hv Hmax]. assert (forall x, x ∈ option_list (Some keep) ++ names_of globals i <->
        x = keep \/ x ∈ names_of globals i) as Hin'.
      { intros x. cbn. by rewrite elem_of_cons. }
      split; [apply Hin; apply Hin' in Hv; tauto|]. intros x [->|[->|Hx]]%Hin.
      - apply Hmax, Hin'. by left.
      - destruct (Hmax keep ltac:(apply Hin'; by left)) as [<-|Hk]; destruct Hb as [->|Hb]; auto.
        right. by eapply better_trans.
      - apply Hmax, Hin'. by right. }
    destruct (better u e) eqn:Hb.
    + apply (Hkeep u e); [by right|]. intros x. cbn. rewrite !elem_of_cons. tauto.
    + apply (Hkeep e u); [|intros x; cbn; rewrite !elem_of_cons; tauto].
      destruct (better_total e u) as [H|[H|H]]; [by right|by left|congruence].
Qed.

(** The ids of the steps do not depend on the order in which the map of the
    globals is ranged over: any two orders give every step the same id and the
    same name (the longest of the variables that hold the step, the first in
    alphabetical order among those, unless the step was given a name). *)
Theorem assignIDs_deterministic (reg : registry) globals globals' (Hperm : globals ≡ₚ globals') :
  assignIDs reg globals = assignIDs reg globals'.
Proof.
  unfold assignIDs. apply list_fmap_ext. intros i n _. unfold assign_id.
  assert (variable_of globals (order n) None = variable_of globals' (order n) None) as ->; [|done].
  pose proof (variable_of_spec globals (order n) None) as H1. pose proof (variable_of_spec globals' (order n) None) as H2.
  cbv zeta in H1, H2. change (option_list None ++ ?l) with l in H1, H2.
  assert (names_of globals (order n) ≡ₚ names_of globals' (order n)) as Hp
    by (unfold names_of; by rewrite Hperm).
  destruct (variable_of globals _ None) as [v|], (variable_of globals' _ None) as [w|]; [| | |done].
  - f_equal. apply (best_unique (names_of globals (order n))); [done|]. destruct H2 as [Hw Hmax].
    split; [by rewrite Hp|]. intros u Hu. apply Hmax. by rewrite <-Hp.
  - rewrite H2 in Hp. apply Permutation_nil_r in Hp. destruct H1 as [Hv _]. rewrite Hp in Hv. by apply not_elem_of_nil in Hv.
  - rewrite H1 in Hp. symmetry in Hp. apply Permutation_nil_r in Hp. destruct H2 as [Hv _]. rewrite Hp in Hv.
    by apply not_elem_of_nil in Hv.
Qed.
Lemma assignIDs_deterministic_witness :
  let reg := [new_node "task" "task.run"] in
  [("a", SNode 0); ("db", SNode 0)] ≡ₚ [("db", SNode 0); ("a", SNode 0)] /\
  assignIDs reg [("a", SNode 0); ("db", SNode 0)] = assignIDs reg [("db", SNode 0); ("a", SNode 0)].
Proof.
  assert ([("a", SNode 0); ("db", SNode 0)] ≡ₚ [("db", SNode 0); ("a", SNode 0)]) as H by apply Permutation_swap.
  split; [exact H|]. exact (assignIDs_deterministic _ _ _ H).
Defined.

(** ** The arguments of a step are read back *)

(** A byte that is neither white space nor read by the scanner. *)
Definition inert (c : ascii) : Prop :=
  32 < code c < 127 /\ code c ∉ [34; 40; 41; 44; 91; 93; 123; 125].

Lemma atomic_inert s : s <> "" -> Forall inert (of_string s) -> atomic s.
Proof.
  intros Hne Hs. assert (Forall (fun c => code c < 128) (of_string s)) as Hlow.
  { eapply Forall_impl; [exact Hs|]. intros c [Hc _]. lia. }
  assert (runes s = code <$> of_string s) as Hr.
  { unfold runes, range_runes. rewrite range_ascii by done. apply snd_zip. by rewrite length_fmap, length_seq. }
  split_and!; [|unfold TrimSpace| |rewrite Hr]; [| |done|].
  - unfold ValidString. rewrite <-(app_nil_r (of_string s)). by rewrite valid_ascii.
  - destruct (of_string s) as [|c b] eqn:He; [by destruct s|].
    destruct (exists_last (l := c :: b) ltac:(done)) as (b' & c' & Hlast).
    rewrite (trim_visible c b b' c' Hlast); [by rewrite <-He, to_of| |].
    + apply Forall_cons in Hs as [[Hc _] _]. lia.
    + rewrite Hlast in Hs. apply Forall_app in Hs as [_ Hs]. inversion Hs as [|? ? [Hc _]]; subst. lia.
  - clear -Hs. induction Hs as [|c l [Hc Hn] _ IH]; [done|]. rewrite fmap_cons. cbn [closed].
    set_unfold. split; [by replace (code c =? 44) with false by lia|].
    assert (scan_rune scan0 (code c) = scan0) as ->; [|done].
    unfold scan_rune, scan_code. cbn.
    replace (code c =? 34) with false by lia. replace (code c =? 40) with false by lia.
    replace (code c =? 41) with false by lia. replace (code c =? 91) with false by lia.
    replace (code c =? 93) with false by lia. replace (code c =? 123) with false by lia.
    by replace (code c =? 125) with false by lia.
Qed.

Lemma digit_inert c : is_digit c -> inert c.
Proof. unfold is_digit, inert. intros Hc. split; [lia|]. set_unfold. lia. Qed.
Lemma digits_inert l : Forall is_digit l -> Forall inert l.
Proof. intros H. eapply Forall_impl; [exact H|]. apply digit_inert. Qed.

#[local] Instance inert_dec c : Decision (inert c).
Proof. unfold inert. apply _. Defined.
Ltac inert_const := apply (bool_decide_unpack _); by vm_compute.

Lemma zeros_digits n : Forall is_digit (zeros n).
Proof. apply Forall_forall. intros c Hc. apply list_elem_of_In, repeat_spec in Hc. subst. by vm_compute. Qed.

Lemma dec_digits_all n : Forall is_digit (dec_digits n).
Proof.
  unfold dec_digits. generalize (S (Z.to_nat (Z.log2 n))) as fuel. intros fuel.
  assert (forall m acc, Forall is_digit acc -> Forall is_digit (nat_digits fuel m acc)) as H; [|by apply H].
  induction fuel as [|fuel IH]; intros m acc Hacc; [done|]. cbn [nat_digits].
  assert (Forall is_digit (byte_of (48 + m mod 10) :: acc)) as Hacc'.
  { constructor; [|done]. by apply (digit_of _ (m mod 10)); [apply Z.mod_pos_bound|]. }
  destruct (m <? 10); [done|]. by apply IH.
Qed.

Lemma format_f_inert ds dp : Forall is_digit ds -> format_f ds dp <> [] /\ Forall inert (format_f ds dp).
Proof.
  intros Hds. unfold format_f. split.
  - destruct (Z.ltb_spec 0 dp); [|done].
    assert (0 < length (take (Z.to_nat dp) ds ++ zeros (dp - Z.of_nat (length ds))))%nat as Hl.
    { rewrite length_app, length_take. unfold zeros. rewrite repeat_length. lia. }
    destruct (take _ ds ++ zeros _); [simpl in Hl; lia|done].
  - apply Forall_app. split.
    + destruct (0 <? dp); [|inert_const].
      apply digits_inert, Forall_app. split; [by apply Forall_take|apply zeros_digits].
    + destruct (dp <? _); [|done]. constructor; [inert_const|].
      apply digits_inert, Forall_app. split; [apply zeros_digits|by apply Forall_drop].
Qed.

Lemma format_e_inert ds dp : Forall is_digit ds -> format_e ds dp <> [] /\ Forall inert (format_e ds dp).
Proof.
  intros Hds. unfold format_e. split; [by destruct (take 1 ds), (if (1 <? length ds)%nat then _ else _)|].
  apply Forall_app. split; [by apply digits_inert, Forall_take|]. apply Forall_app. split.
  - destruct (1 <? length ds)%nat; [|done]. constructor; [inert_const|]. by apply digits_inert, Forall_drop.
  - constructor; [inert_const|]. constructor; [destruct (dp - 1 <? 0); inert_const|].
    pose proof (digits_inert _ (dec_digits_all (Z.abs (dp - 1)))) as Hx.
    destruct (length _ <? 2)%nat; [|done]. constructor; [inert_const|done].
Qed.

Lemma shortest_digits m e : Forall is_digit (shortest m e).1.
Proof.
  unfold shortest. destruct (fraction m e) as [num den]. destruct (shortest_from 17 1 m e num den _) as [d x].
  cbn [fst]. apply Forall_reverse. pose proof (dec_digits_all d) as Hds. apply Forall_reverse in Hds.
  induction (reverse (dec_digits d)) as [|c l IH]; [done|]. cbn [drop_zeros_rev].
  apply Forall_cons in Hds as [Hc Hl]. destruct (code c =? 48); [by apply IH|by constructor].
Qed.

Lemma Sprint_g_inert f : F_lt F_zero f = true -> Sprint_g f <> "" /\ Forall inert (of_string (Sprint_g f)).
Proof.
  intros Hf. destruct f as [neg|neg| |neg m e]; [by destruct neg| |done|]; (destruct neg; [done|]).
  { split; [done|inert_const]. }
  unfold Sprint_g. pose proof (shortest_digits m e) as Hds.
  destruct (shortest m e) as [ds dp]. cbn [fst] in Hds. cbn [app].
  assert (forall l, l <> [] -> Forall inert l -> to_string l <> "" /\ Forall inert (of_string (to_string l))) as Hl.
  { intros l Hne Hi. rewrite of_to. split; [|done]. intros H. apply Hne. by rewrite <-(of_to l), H. }
  destruct (_ || _); [destruct (format_e_inert ds dp Hds)|destruct (format_f_inert ds dp Hds)]; by apply Hl.
Qed.

Definition text_pair (key value : string) : list (string * string) :=
  if bool_decide (value = "") then [] else [(key, quoted value)].
Definition number_pair (key : string) (f : float64) : list (string * string) :=
  if F_lt F_zero f then [(key, Sprint_g f)] else [].
(** The arguments of a step, before they are written. *)
Definition argument_pairs (n : starlarkNode) : list (string * string) :=
  text_pair "plan" (plan n) ++ text_pair "target" (target n) ++ number_pair "rps" (rps n) ++
  number_pair "arrival_rate" (arrivalRate n) ++ text_pair "technique" (technique n) ++
  text_pair "path" (floodPath n) ++ number_pair "rate" (floodRate n) ++
  number_pair "duration" (floodDuration n) ++ (if floodThrottle n then [("expect_throttle", "True")] else []).

Lemma arguments_named n : buildStarlarkArguments n = Join (named <$> argument_pairs n) ", ".
Proof.
  unfold buildStarlarkArguments, argument_pairs. rewrite !fmap_app.
  assert (forall k v, text_argument k v = named <$> text_pair k v) as Ht
    by (intros; unfold text_argument, text_pair; by case_bool_decide).
  assert (forall k f, number_argument k f = named <$> number_pair k f) as Hn
    by (intros; unfold number_argument, number_pair; by destruct (F_lt F_zero f)).
  rewrite !Ht, !Hn. by destruct (floodThrottle n).
Qed.

(** The texts of a step can be quoted as they are. *)
Definition quotable_node (n : starlarkNode) : Prop :=
  quotable (plan n) /\ quotable (target n) /\ quotable (technique n) /\ quotable (floodPath n).

Lemma argument_pairs_ok n : quotable_node n ->
  Forall (fun a => is_key a.1 /\ atomic a.2) (argument_pairs n).
Proof.
  intros (Hp & Ht & Hq & Hf). unfold argument_pairs.
  assert (forall k v, is_key k -> quotable v -> Forall (fun a => is_key a.1 /\ atomic a.2) (text_pair k v)) as Htext.
  { intros k v Hk Hv. unfold text_pair. case_bool_decide; [done|]. constructor; [|done]. split; [done|].
    by apply atomic_quoted. }
  assert (forall k f, is_key k -> Forall (fun a => is_key a.1 /\ atomic a.2) (number_pair k f)) as Hnum.
  { intros k f Hk. unfold number_pair. destruct (F_lt F_zero f) eqn:Hlt; [|done]. constructor; [|done].
    split; [done|]. destruct (Sprint_g_inert f Hlt). by apply atomic_inert. }
  repeat (apply Forall_app; split); try (apply Htext; [done|done]); try (by apply Hnum).
  destruct (floodThrottle n); [|done]. constructor; [|done]. split; [done|].
  apply atomic_inert; [done|inert_const].
Qed.

Lemma first_text (key value : string) pre post :
  (forall a, a ∈ pre -> a.1 <> key) -> is_key key ->
  (value = "" -> forall a, a ∈ post -> a.1 <> key) ->
  first_named [key] (pre ++ text_pair key value ++ post) = if bool_decide (value = "") then "" else quoted value.
Proof.
  intros Hpre Hk Hpost. unfold first_named. rewrite !filter_app.
  assert (forall l : list (string * string), (forall a, a ∈ l -> a.1 <> key) ->
    filter (fun a => a.1 ∈ (TrimSpace <$> [key])) l = []) as Hnone.
  { intros l Hl. induction l as [|a l IH]; [done|]. rewrite filter_cons, decide_False.
    - apply IH. intros b Hb. apply Hl. by right.
    - rewrite list_fmap_singleton, list_elem_of_singleton, key_trimmed by done. apply Hl. by left. }
  rewrite (Hnone pre) by done. cbn [app]. unfold text_pair. case_bool_decide as Hv.
  - rewrite (Hnone post) by auto. done.
  - rewrite filter_cons, decide_True; [done|]. cbn [fst].
    by rewrite list_fmap_singleton, list_elem_of_singleton, key_trimmed.
Qed.

(** What [resolveLoadSpec] reads from the arguments of a step is what the
    suite gave to the step.  For every step whose texts have no quotes,
    backslashes or newlines, whatever its other fields, the plan and the target
    are read back (up to white space around them), and a positive rate is read as
    the text [%g] writes. *)
Theorem starlark_arguments_read (n : starlarkNode) (Hn : quotable_node n) :
  topologyNamedStringArgument (buildStarlarkArguments n) ["plan"] = TrimSpace (plan n) /\
  topologyNamedStringArgument (buildStarlarkArguments n) ["target"] = TrimSpace (target n) /\
  (F_lt F_zero (rps n) = true ->
   topologyNamedArgument (buildStarlarkArguments n) ["rps"; "target_rps"] = Sprint_g (rps n)).
Proof.
  pose proof (argument_pairs_ok n Hn) as Hok. destruct Hn as (Hp & Ht & _). rewrite !arguments_named.
  assert (forall key value, quotable value ->
    first_named [key] (argument_pairs n) = (if bool_decide (value = "") then "" else quoted value) ->
    topologyNamedStringArgument (Join (named <$> argument_pairs n) ", ") [key] = TrimSpace value) as Hread.
  { intros key value Hv Hf. unfold topologyNamedStringArgument. rewrite named_join by done. rewrite Hf.
    destruct (bool_decide_reflect (value = "")) as [->|Hne]; [done|].
    rewrite bool_decide_eq_false_2 by done. unfold unquoteTopologyString. by rewrite trim_quoted, Unquote_quoted. }
  assert (forall k v a, a ∈ text_pair k v -> a.1 = k) as Hin1.
  { intros k v a. unfold text_pair. case_bool_decide; [by intros ?%not_elem_of_nil|].
    by intros ->%list_elem_of_singleton. }
  assert (forall k f a, a ∈ number_pair k f -> a.1 = k) as Hin2.
  { intros k f a. unfold number_pair. destruct (F_lt F_zero f); [|by intros ?%not_elem_of_nil].
    by intros ->%list_elem_of_singleton. }
  split_and!.
  - apply Hread; [done|]. apply (first_text "plan" (plan n) []); [by intros a ?%not_elem_of_nil|done|].
    intros _ a Ha. rewrite !elem_of_app in Ha.
    destruct_or! Ha; try (apply Hin1 in Ha; by rewrite Ha); try (apply Hin2 in Ha; by rewrite Ha).
    destruct (floodThrottle n); [by apply list_elem_of_singleton in Ha as ->|by apply not_elem_of_nil in Ha].
  - apply Hread; [done|]. apply (first_text "target" (target n) (text_pair "plan" (plan n))).
    + intros a Ha. apply Hin1 in Ha. by rewrite Ha.
    + done.
    + intros _ a Ha. rewrite !elem_of_app in Ha.
      destruct_or! Ha; try (apply Hin1 in Ha; by rewrite Ha); try (apply Hin2 in Ha; by rewrite Ha).
      destruct (floodThrottle n); [by apply list_elem_of_singleton in Ha as ->|by apply not_elem_of_nil in Ha].
  - intros Hr. rewrite named_join by done. unfold first_named, argument_pairs.
    assert (forall k v, k <> "rps" -> k <> "target_rps" ->
      filter (fun a : string * string => a.1 ∈ (TrimSpace <$> ["rps"; "target_rps"])) (text_pair k v) = []) as Hnone.
    { intros k v H1 H2. unfold text_pair. case_bool_decide; [done|]. rewrite filter_cons, decide_False; [done|].
      cbn [fst]. intros Hin. vm_compute in Hin. set_unfold. naive_solver. }
    rewrite !filter_app, (Hnone "plan"), (Hnone "target") by done. cbn [app].
    unfold number_pair at 1. rewrite Hr. rewrite filter_cons, decide_True; [done|]. by vm_compute; left.
Qed.
Lemma starlark_arguments_read_witness :
  let n := set_rps (F_of_Z 3) (set_target "http://api:8080, {x}" (new_node "traffic" "traffic.smoke")) in
  quotable_node n /\
  topologyNamedStringArgument (buildStarlarkArguments n) ["target"] = TrimSpace (target n) /\
  topologyNamedArgument (buildStarlarkArguments n) ["rps"; "target_rps"] = Sprint_g (rps n).
Proof.
  assert (quotable_node (set_rps (F_of_Z 3) (set_target "http://api:8080, {x}" (new_node "traffic" "traffic.smoke")))) as H.
  { repeat split; vm_compute; repeat constructor; congruence. }
  split; [exact H|]. destruct (starlark_arguments_read _ H) as (_ & H2 & H3).
  split; [exact H2|]. apply H3. reflexivity.
Defined.

(** ** The quoting of the module utils *)

(** How a shell reads a word made of quoted parts: outside quotes, between
    single quotes, between double quotes (where expansions are refused). *)
Inductive quoting := Outside | Single | Double.
Fixpoint shell_word (mode : quoting) (l : bytes) : option bytes :=
  match l with
  | [] => match mode with Outside => Some [] | _ => None end
  | c :: l' =>
      let b := code c in
      match mode with
      | Outside => if b =? 39 then shell_word Single l' else if b =? 34 then shell_word Double l' else None
      | Single => if b =? 39 then shell_word Outside l' else cons c <$> shell_word Single l'
      | Double => if b =? 34 then shell_word Outside l'
                  else if (b =? 36) || (b =? 96) || (b =? 92) then None
                  else cons c <$> shell_word Double l'
      end
  end.

(** How SQL reads a text literal, after its opening quote. *)
Fixpoint sql_text (l : bytes) : option bytes :=
  match l with
  | [] => None
  | c :: l' =>
      if code c =? 39 then
        match l' with
        | [] => Some []
        | d :: l'' => if code d =? 39 then cons c <$> sql_text l'' else None
        end
      else cons c <$> sql_text l'
  end.
(** How JavaScript reads a string literal with the escapes of the quote and of
    the backslash, after its opening quote. *)
Fixpoint js_text (l : bytes) : option bytes :=
  match l with
  | [] => None
  | c :: l' =>
      if code c =? 34 then match l' with [] => Some [] | _ => None end
      else if code c =? 92 then
        match l' with
        | [] => None
        | d :: l'' => if (code d =? 34) || (code d =? 92) then cons d <$> js_text l'' else None
        end
      else cons c <$> js_text l'
  end.

Lemma shell_quoted l :
  shell_word Single (replace_byte single escaped_single l ++ [single]) = Some l.
Proof.
  unfold replace_byte. induction l as [|c l IH]; [done|]. rewrite fmap_cons. cbn [concat]. rewrite <-app_assoc.
  case_bool_decide as Hc.
  - subst c. cbn. cbn in IH. by rewrite IH.
  - cbn [app shell_word]. replace (code c =? 39) with false; [by rewrite IH|].
    symmetry. apply Z.eqb_neq. intros H. apply Hc, code_inj. by rewrite H.
Qed.
Lemma sql_quoted l : sql_text (replace_byte single [single; single] l ++ [single]) = Some l.
Proof.
  unfold replace_byte. induction l as [|c l IH]; [done|]. rewrite fmap_cons. cbn [concat]. rewrite <-app_assoc.
  case_bool_decide as Hc.
  - subst c. cbn. cbn in IH. by rewrite IH.
  - cbn [app sql_text]. replace (code c =? 39) with false; [by rewrite IH|].
    symmetry. apply Z.eqb_neq. intros H. apply Hc, code_inj. by rewrite H.
Qed.
Lemma js_quoted_app k l : Forall (fun c => c <> backslash) l ->
  js_text (replace_byte quote_byte [backslash; quote_byte] l ++ k) = app l <$> js_text k.
Proof.
  unfold replace_byte. induction 1 as [|c l Hb _ IH]; [by cbn; destruct (js_text k)|].
  rewrite fmap_cons. cbn [concat]. rewrite <-app_assoc. case_bool_decide as Hc.
  - subst c. cbn. cbn in IH. rewrite IH. by destruct (js_text k).
  - cbn [app js_text]. replace (code c =? 34) with false.
    2: { symmetry. apply Z.eqb_neq. intros H. apply Hc, code_inj. by rewrite H. }
    replace (code c =? 92) with false; [rewrite IH; by destruct (js_text k)|].
    symmetry. apply Z.eqb_neq. intros H. apply Hb, code_inj. by rewrite H.
Qed.

(** The quoting functions a suite builds commands with protect any text.
    [utils.quoted] writes a shell word that is read as the text (the empty text
    is the exception: the interpreter's text of it is used, two quotes);
    [utils.sql_value] writes a SQL literal that is read as the text;
    [utils.js_value] writes a JavaScript literal that is read as the text when it
    has no backslash, but a literal that is never closed when the text ends in
    one. *)
Theorem utils_quoting repr s (Hrepr : repr (SString "") = quoted "") (Hs : backslash ∉ of_string s) :
  shell_word Outside (of_string (utilsQuoted repr (SString s))) =
    Some (of_string (if bool_decide (s = "") then quoted "" else s)) /\
  (exists l, of_string (utilsSqlValue repr (SString s)) = single :: l /\ sql_text l = Some (of_string s)) /\
  (exists l, of_string (utilsJsValue repr (SString s)) = quote_byte :: l /\ js_text l = Some (of_string s)) /\
  (exists l, of_string (utilsJsValue repr (SString (s +:+ backslash_string))) = quote_byte :: l /\
     js_text l = None).
Proof.
  assert (Forall (fun c => c <> backslash) (of_string s)) as Hb.
  { apply Forall_forall. intros c Hc ->. done. }
  split; [|split; [|split]].
  - unfold utilsQuoted, text_of. cbn [string_or_empty AsString default]. rewrite of_to.
    change (shell_word Outside (single :: ?l)) with (shell_word Single l). rewrite shell_quoted.
    cbn. case_bool_decide as Hs'; [by rewrite Hs', Hrepr|done].
  - eexists. unfold utilsSqlValue. rewrite of_to. split; [done|]. apply sql_quoted.
  - eexists. unfold utilsJsValue. rewrite of_to. split; [done|]. rewrite js_quoted_app by done.
    change (js_text [quote_byte]) with (Some (@nil ascii)). cbn [fmap option_fmap option_map].
    by rewrite app_nil_r.
  - eexists. unfold utilsJsValue. rewrite of_to. split; [done|]. rewrite of_string_app.
    unfold replace_byte. rewrite fmap_app, concat_app, <-app_assoc.
    pose proof (js_quoted_app [backslash; quote_byte] (of_string s) Hb) as H. unfold replace_byte in H.
    cbn in *. exact H.
Qed.
Lemma utils_quoting_witness :
  backslash ∉ of_string "it's" /\
  shell_word Outside (of_string (utilsQuoted (fun _ => quoted "") (SString "it's"))) = Some (of_string "it's").
Proof.
  assert (backslash ∉ of_string "it's") as H.
  { intros H. vm_compute in H. repeat (apply elem_of_cons in H as [H|H]; [discriminate H|]).
    by apply not_elem_of_nil in H. }
  split; [exact H|]. exact (proj1 (utils_quoting (fun _ => quoted "") "it's" eq_refl H)).
Defined.

(** ** Slugs *)
Definition slug_char (c : ascii) : Prop :=
  97 <= code c <= 122 \/ 48 <= code c <= 57 \/ code c = 45.
Definition dashes : bytes := of_string "--".

Lemma sanitize_char ch : slug_char (sanitize_rune ch).
Proof.
  unfold sanitize_rune, slug_char.
  destruct (((97 <=? ch) && (ch <=? 122)) || ((48 <=? ch) && (ch <=? 57))) eqn:H1.
  - assert (48 <= ch <= 122) by lia. rewrite code_byte_of by lia. lia.
  - destruct ((65 <=? ch) && (ch <=? 90)) eqn:H2; [|right; right; reflexivity]. rewrite code_byte_of by lia. lia.
Qed.

Lemma halve_spec l : (length (halve_dashes l) <= length l)%nat /\
  (has_sub dashes l = true -> length (halve_dashes l) < length l)%nat /\
  (Forall slug_char l -> Forall slug_char (halve_dashes l)).
Proof.
  induction l as [l IH] using (well_founded_induction (well_founded_ltof _ (@length ascii))).
  unfold ltof in IH. destruct l as [|c [|d l]]; [done| |].
  { cbn [halve_dashes length]. split; [lia|]. split; [|done]. intros H. exfalso. revert H. unfold has_sub, dashes.
    cbn. rewrite !orb_false_r. by case_bool_decide. }
  change (halve_dashes (c :: d :: l)) with
    (if bool_decide (c = "-"%char /\ d = "-"%char) then "-"%char :: halve_dashes l
     else c :: halve_dashes (d :: l)).
  case_bool_decide as Hcd.
  - destruct (IH l ltac:(simpl; lia)) as (Hl & _ & Hf). cbn [length]. split; [lia|]. split; [lia|].
    intros [Hc [_ Hl']%Forall_cons]%Forall_cons. constructor; [right; right; reflexivity|by apply Hf].
  - destruct (IH (d :: l) ltac:(simpl; lia)) as (Hl & Hs & Hf). cbn [length] in *. split; [lia|]. split.
    + intros H. cbn [has_sub] in H. apply orb_true_iff in H as [H|H]; [|apply Hs in H; lia].
      bool_to_prop. unfold dashes in H. cbn in H. naive_solver.
    + intros [Hc Hl']%Forall_cons. constructor; [done|by apply Hf].
Qed.

Lemma dash_loop_spec fuel : forall l, (length l <= fuel)%nat ->
  has_sub dashes (dash_loop fuel l) = false /\ (Forall slug_char l -> Forall slug_char (dash_loop fuel l)).
Proof.
  induction fuel as [|fuel IH]; intros l Hl; cbn [dash_loop].
  { destruct l; [done|simpl in Hl; lia]. }
  change (of_string "--") with dashes. destruct (has_sub dashes l) eqn:Hs; [|done].
  destruct (halve_spec l) as (_ & Hlt & Hf). destruct (IH (halve_dashes l)) as [H1 H2]; [by apply Hlt in Hs; lia|].
  split; [done|]. intros Hc. by apply H2, Hf.
Qed.

Lemma has_sub_app sub l k : has_sub sub (l ++ k) = false -> has_sub sub l = false /\ has_sub sub k = false.
Proof.
  induction l as [|c l IH]; cbn [app].
  - intros H. split; [|done]. destruct sub as [|x sub]; [|done]. by destruct k.
  - cbn [has_sub]. intros H. apply orb_false_iff in H as [H1 H2]. destruct (IH H2) as [H3 H4]. split; [|done].
    apply orb_false_iff. split; [|done]. apply bool_decide_eq_false. apply bool_decide_eq_false in H1.
    intros Ht. apply H1.
    change (c :: l ++ k) with ((c :: l) ++ k). rewrite take_app, Ht.
    assert (length sub <= length (c :: l))%nat.
    { apply (f_equal length) in Ht. rewrite length_take in Ht. lia. }
    replace (length sub - length (c :: l))%nat with 0%nat by lia. by rewrite take_0, app_nil_r.
Qed.

Definition is_slug (s : string) : Prop :=
  s <> "" /\ Forall slug_char (of_string s) /\ has_sub dashes (of_string s) = false /\
  head (of_string s) <> Some "-"%char /\ last (of_string s) <> Some "-"%char.

Lemma slug_text repr v : is_slug (utilsSanitize repr v).
Proof.
  unfold utilsSanitize. set (b := sanitize_rune <$> runes (text_of repr v)).
  destruct (dash_loop_spec (length b) b ltac:(done)) as [Hd Hc].
  assert (Forall slug_char b) as Hb by (apply Forall_fmap, Forall_forall; intros; apply sanitize_char).
  specialize (Hc Hb). set (t := to_string (dash_loop (length b) b)).
  destruct (Trim_spec t "-") as (pre & post & He & Hh & Hl).
  assert (of_string t = dash_loop (length b) b) as Ht by apply of_to. rewrite Ht in He. rewrite He in Hd, Hc.
  apply has_sub_app in Hd as [_ Hd]. apply has_sub_app in Hd as [Hd _].
  apply Forall_app in Hc as [_ Hc]. apply Forall_app in Hc as [Hc _].
  case_bool_decide as Hne; [|done]. split; [done|]. split; [|done].
  repeat (constructor; [left; split; vm_compute; congruence|]). constructor.
Qed.

Lemma slug_sanitize repr s : is_slug s -> utilsSanitize repr (SString s) = s.
Proof.
  intros (Hne & Hc & Hd & Hh & Hl). unfold utilsSanitize, text_of. cbn [string_or_empty AsString default].
  cbn. change (Datatypes.id s) with s. rewrite (bool_decide_eq_false_2 (s = "")) by done.
  assert (sanitize_rune <$> runes s = of_string s) as ->.
  { unfold runes, range_runes. rewrite range_ascii.
    2: { eapply Forall_impl; [exact Hc|]. unfold slug_char. intros; simpl in *; lia. }
    rewrite snd_zip by (by rewrite length_fmap, length_seq). clear -Hc.
    induction Hc as [|c l Hc _ IH]; [done|]. rewrite !fmap_cons, IH. f_equal. unfold slug_char in Hc.
    unfold sanitize_rune.
    destruct (((97 <=? code c) && (code c <=? 122)) || ((48 <=? code c) && (code c <=? 57))) eqn:H1;
      [apply byte_of_code|].
    replace ((65 <=? code c) && (code c <=? 90)) with false by lia.
    apply code_inj. assert (code c = 45) as -> by lia. done. }
  assert (dash_loop (length (of_string s)) (of_string s) = of_string s) as ->.
  { destruct (length (of_string s)); [done|]. cbn [dash_loop]. change (of_string "--") with dashes. by rewrite Hd. }
  rewrite to_of.
  assert (forall l, head l <> Some "-"%char -> drop_byte "-" l = l) as Hdrop.
  { intros [|c l] H; [done|]. cbn in *. by rewrite bool_decide_eq_false_2 by congruence. }
  unfold Trim. rewrite (Hdrop (of_string s)) by done. rewrite Hdrop by (by rewrite head_reverse).
  rewrite reverse_involutive, to_of. by rewrite bool_decide_eq_false_2.
Qed.

(** [utils.sanitize] makes a slug of any value and leaves slugs alone: the
    result is never empty, has only lower-case letters, digits and single dashes,
    none at an end, and sanitizing it again changes nothing. *)
Theorem sanitize_slug repr v :
  is_slug (utilsSanitize repr v) /\
  utilsSanitize repr (SString (utilsSanitize repr v)) = utilsSanitize repr v.
Proof. split; [apply slug_text|]. apply slug_sanitize, slug_text. Qed.

Example sanitize_ex : utilsSanitize (fun _ => "x") (SString "Run: My  Step!") = "run-my-step".
Proof. vm_compute. reflexivity. Qed.
End Starlark.
