(* ===== verification/StarlarkTopology.v ===== *)
(** From the calls of a suite to its ordered steps: the evaluation of Starlark.v
    composed with the resolution of Imports.v and Topology.v.

    [to_raw] is the raw step of [buildRawNodes] as [resolveSuite] uses it.  A suite
    that imports no other is the list of its raw steps turned into nodes by
    [Imports.assemble] and ordered by [resolveTopology]. *)
From Stdlib Require Import ZArith Lia Ascii.
From S2P Require Import Prelude GoStrings Runes Strconv CallText StarNode Starlark Topology TopologyOrder.
From S2P Require Import Suites Imports.
Import GoStrings Topology TopologyOrder Suites Imports.

Module StarlarkTopology.

(** [rawTopologyNode]; the handle of its other fields is its position. *)
Definition to_raw (r : Starlark.rawNode) : Raw.rawTopologyNode :=
  let n := Starlark.RawNode r in
  Raw.mk (StarNode.id n) (StarNode.id n) (StarNode.name n) (StarNode.kind n) (StarNode.variant n)
    (StarNode.ref n) (StarNode.order n) (Starlark.RawDependsOn r) (Starlark.RawResetMocks r)
    (Starlark.RawOnFailure r) (StarNode.continueOnFail n) (StarNode.env n).

(** The raw steps [resolveSuite] works on. *)
Definition raw_topology (raws : list Starlark.rawNode) : list Raw.rawTopologyNode :=
  resolveAssignmentDependencies (to_raw <$> raws).

(** ** The ids of an evaluated suite are trimmed *)
Lemma generated_trimmed n : 0 <= n ->
  TrimSpace ("node_" +:+ Strconv.FormatInt n) = "node_" +:+ Strconv.FormatInt n.
Proof.
  intros Hn. unfold Strconv.FormatInt. replace (n <? 0) with false by lia.
  destruct (Strconv.dec_digits_spec n Hn) as (Hne & Hds & _).
  unfold TrimSpace. rewrite Runes.of_string_app, of_to.
  destruct (exists_last Hne) as (b & c & Hlast). rewrite Hlast in *.
  change (of_string "node_" ++ b ++ [c]) with ("n"%char :: (of_string "ode_" ++ b ++ [c])).
  rewrite (CallText.trim_visible "n" _ (of_string "node_" ++ b) c).
  - change ("n"%char :: (of_string "ode_" ++ b ++ [c])) with (of_string "node_" ++ b ++ [c]).
    rewrite <-(of_to (b ++ [c])) at 1. rewrite <-Runes.of_string_app. apply to_of.
  - rewrite <-app_assoc. done.
  - done.
  - apply Forall_app in Hds as [_ Hc]. inversion Hc as [|? ? Hd]; subst. unfold Strconv.is_digit in Hd. lia.
Qed.

Lemma assign_id_ok globals i x : Forall (fun g => CallText.is_key g.1) globals ->
  Starlark.node_ok i x -> StarNode.order x = i ->
  let y := Starlark.assign_id globals x in
  TrimSpace (StarNode.id y) = StarNode.id y /\ StarNode.order y = i /\
  StarNode.after y = StarNode.after x /\ StarNode.onFailure y = StarNode.onFailure x.
Proof.
  intros Hg (_ & _ & _ & Hname) Ho. cbv zeta. unfold Starlark.assign_id.
  destruct (StarNode.explicitName x); [by cbn|].
  pose proof (Starlark.variable_of_spec globals (StarNode.order x) None) as Hv. cbv zeta in Hv.
  change (option_list None ++ ?l) with l in Hv.
  destruct (Starlark.variable_of globals _ None) as [v|].
  - cbn [default]. change (Datatypes.id v) with v. destruct Hv as [Hin _].
    assert (CallText.is_key v) as Hk.
    { unfold Starlark.names_of in Hin. apply list_elem_of_omap in Hin as ((u, w) & Hu & Hw).
      rewrite Forall_forall in Hg. specialize (Hg _ Hu). cbn [fst snd] in *.
      destruct w; try done. destruct (_ =? _)%nat; [|done]. by injection Hw as ->. }
    case_bool_decide as Hb; cbn [negb]; [by subst v|]. cbn. split; [|done]. by apply CallText.key_trimmed.
  - cbn. split; [|done]. apply generated_trimmed. lia.
Qed.

(** What an evaluation that succeeds returns. *)
Lemma eval_registry repr undefined calls globals raws :
  Starlark.evalStarlarkTopology repr undefined calls (Some globals) = inr raws ->
  Starlark.calls_in_scope 0 calls -> Forall (fun g => CallText.is_key g.1) globals ->
  exists reg : Starlark.registry, raws = Starlark.buildRawNodes reg /\ reg <> [] /\
    forall i x, reg !! i = Some x ->
      TrimSpace (StarNode.id x) = StarNode.id x /\
      Forall (fun j => j < i)%nat (StarNode.after x ++ StarNode.onFailure x).
Proof.
  unfold Starlark.evalStarlarkTopology. intros H Hs Hg.
  destruct (Starlark.run_calls repr undefined [] calls) as [|reg] eqn:Hrun; [done|].
  case_bool_decide as Hne; [done|]. injection H as <-.
  assert (Starlark.registry_ok reg) as Hok.
  { apply (Starlark.run_calls_ok _ _ _ [] reg Hrun Hs). by intros [|i] x. }
  exists (Starlark.assignIDs reg globals). split; [done|]. split.
  { unfold Starlark.assignIDs. by destruct reg. }
  intros i y. unfold Starlark.assignIDs. rewrite list_lookup_fmap. destruct (reg !! i) as [x|] eqn:Hx; [|done].
  intros [= <-]. destruct (Hok i x Hx) as [Ho Hn].
  destruct (assign_id_ok globals i x Hg Hn Ho) as (Ht & _ & Ha & Hf). split; [done|].
  rewrite Ha, Hf. apply Forall_app. split; apply Hn.
Qed.

(** ** From raw steps to steps *)
Lemma assignment_index_id nodes : Forall (fun n => Raw.Assignment n = Raw.ID n) nodes ->
  forall k v, assignment_index nodes !! k = Some v -> v = k.
Proof.
  unfold assignment_index. intros Hn.
  assert (forall m : gmap string string, (forall k v, m !! k = Some v -> v = k) ->
    forall k v, foldl (fun m n => if blank (Raw.Assignment n) || blank (Raw.ID n) then m
      else <[Raw.Assignment n := Raw.ID n]> m) m nodes !! k = Some v -> v = k) as H.
  { induction Hn as [|n nodes Hn _ IH]; intros m Hm; [done|]. cbn [foldl]. apply IH.
    destruct (_ || _); [done|]. intros k v. rewrite lookup_insert. case_decide as Hk; [|apply Hm].
    intros [= <-]. by rewrite <-Hk. }
  apply H. intros k v. by rewrite lookup_empty.
Qed.

Lemma remap_ids nodes edges d : Forall (fun n => Raw.Assignment n = Raw.ID n) nodes ->
  d ∈ remap_assignment (assignment_index nodes) edges -> exists e, e ∈ edges /\ d = TrimSpace e.
Proof.
  intros Hn. unfold remap_assignment. case_bool_decide; [by intros ?%not_elem_of_nil|].
  intros (_ & x & Hx & <-)%elem_of_normalizeDependencies. apply list_elem_of_fmap in Hx as (e & -> & He).
  exists e. split; [done|]. destruct (assignment_index nodes !! e) as [v|] eqn:Hv; [|done].
  by rewrite (assignment_index_id nodes Hn e v Hv).
Qed.

Section Steps.
Context (resolveLoadSpec : Raw.rawTopologyNode -> list SourceFile -> string + handle).

Lemma expand_empty edges d : d ∈ expandImportedDependencies edges ∅ <-> d <> "" /\ exists e, e ∈ edges /\ TrimSpace e = d.
Proof.
  unfold expandImportedDependencies. rewrite elem_of_normalizeDependencies.
  assert (mjoin ((fun dependency => match (∅ : gmap string topologyImport) !! dependency with
    | Some imported => if bool_decide (ExitIDs imported = []) then [dependency] else ExitIDs imported
    | None => [dependency] end) <$> edges) = edges) as ->; [|done].
  induction edges as [|e edges IH]; [done|]. rewrite fmap_cons, lookup_empty. cbn [mjoin list_join]. by f_equal.
Qed.

(** The steps of raw steps that import nothing, one for one. *)
Lemma assemble_steps suite raws nodes :
  assemble resolveLoadSpec suite ∅ raws = inr nodes -> Forall (fun r => Raw.Kind r <> "suite") raws ->
  Forall2 (fun r n => ID n = Raw.ID r /\ Kind n = Raw.Kind r /\
    DependsOn n = expandImportedDependencies (Raw.DependsOn r ++ Raw.OnFailure r) ∅) raws nodes.
Proof.
  intros H Hk. revert nodes H. induction Hk as [|r raws Hr _ IH]; intros nodes; cbn [assemble]; [by intros [= <-]|].
  rewrite bool_decide_eq_false_2 by done. unfold topologyNodeFromRaw.
  destruct (resolveLoadSpec r _) as [|body]; [done|].
  destruct (assemble resolveLoadSpec suite ∅ raws) as [|final]; [done|]. intros [= <-].
  constructor; [done|]. by apply IH.
Qed.

(** The position of the step with an id. *)
Definition position (nodes : list TopologyNode) (s : string) : nat :=
  match list_find (fun n => ID n = s) nodes with Some (i, _) => i | None => 0 end.

Lemma position_lookup nodes i n : NoDup (ID <$> nodes) -> nodes !! i = Some n -> position nodes (ID n) = i.
Proof.
  intros Hnd Hi. unfold position. destruct (list_find _ nodes) as [[j m]|] eqn:Hf.
  - apply list_find_Some in Hf as (Hj & Hid & _). rewrite NoDup_alt in Hnd. apply (Hnd j i (ID n)).
    + by rewrite list_lookup_fmap, Hj, <-Hid.
    + by rewrite list_lookup_fmap, Hi.
  - apply list_find_None in Hf. rewrite Forall_forall in Hf. destruct (Hf n); [|done]. by apply list_elem_of_lookup_2 in Hi.
Qed.

(** Only tests reset, and only mocks are reset. *)
Definition resets_ok (nodes : list TopologyNode) (n : TopologyNode) : Prop :=
  normalizeDependencies (ResetMocks n) = [] \/
  Kind n = "test" /\ Forall (fun target => Exists (fun m => ID m = target /\ Kind m = "mock") nodes)
                      (normalizeDependencies (ResetMocks n)).
#[export] Instance resets_ok_dec nodes n : Decision (resets_ok nodes n).
Proof. unfold resets_ok. apply _. Defined.

(** C9: a suite written in Starlark always has an order.  Whatever calls the
    interpreter makes (with the steps it was given before), when the evaluation
    succeeds, no step is an import, the steps get different ids and only tests
    reset mocks, [resolveTopology] orders the steps: the edges of an evaluated
    suite lead to earlier steps, so there is neither a cycle nor a missing
    dependency. *)
Theorem starlark_suite_resolves repr undefined calls globals raws suite nodes
    (Hscope : Starlark.calls_in_scope 0 calls)
    (Hglobals : Forall (fun g => CallText.is_key g.1) globals)
    (Heval : Starlark.evalStarlarkTopology repr undefined calls (Some globals) = inr raws)
    (Hkinds : Forall (fun r => Raw.Kind r <> "suite") (raw_topology raws))
    (Hnodes : assemble resolveLoadSpec suite ∅ (raw_topology raws) = inr nodes)
    (Hids : NoDup (ID <$> nodes))
    (Hresets : Forall (resets_ok nodes) nodes) :
  exists ordered, resolveTopology nodes = Some (inr ordered).
Proof.
  destruct (eval_registry _ _ _ _ _ Heval Hscope Hglobals) as (reg & -> & Hne & Hreg).
  pose proof (assemble_steps _ _ _ Hnodes Hkinds) as Hsteps.
  assert (forall i n, nodes !! i = Some n -> exists x, reg !! i = Some x /\ ID n = StarNode.id x /\
    forall d, d ∈ DependsOn n -> exists j y, (j < i)%nat /\ reg !! j = Some y /\ d = StarNode.id y) as Hnode.
  { intros i n Hi. destruct (Forall2_lookup_r _ _ _ _ _ Hsteps Hi) as (r & Hr & Hid & _ & Hdeps).
    unfold raw_topology, resolveAssignmentDependencies in Hr.
    rewrite list_lookup_fmap in Hr. unfold Starlark.buildRawNodes in Hr. rewrite !list_lookup_fmap in Hr.
    destruct (reg !! i) as [x|] eqn:Hx; [|done]. injection Hr as <-. cbn [Raw.ID Raw.DependsOn Raw.OnFailure to_raw Starlark.raw_node
      Starlark.RawDependsOn Starlark.RawOnFailure Starlark.RawNode] in Hid, Hdeps.
    exists x. split; [done|]. split; [done|]. intros d. rewrite Hdeps.
    intros (Hd & e & He & <-)%expand_empty.
    assert (exists e', e' ∈ Starlark.edge_ids reg (StarNode.after x ++ StarNode.onFailure x) /\ e = TrimSpace e')
      as (e' & He' & ->).
    { assert (Forall (fun n : Raw.rawTopologyNode => Raw.Assignment n = Raw.ID n)
        (to_raw <$> (Starlark.raw_node reg <$> reg))) as Ha.
      { apply Forall_fmap, Forall_fmap, Forall_forall. done. }
      apply elem_of_app in He as [He|He]; apply (remap_ids _ _ _ Ha) in He as (e' & He' & ->); exists e';
        (split; [|done]); unfold Starlark.edge_ids in *; apply list_elem_of_filter in He' as [Hne' He'];
        apply list_elem_of_filter; (split; [done|]); rewrite fmap_app; apply elem_of_app; auto. }
    apply list_elem_of_filter in He' as [Hne' He']. apply list_elem_of_fmap in He' as (j & -> & Hj).
    destruct (Hreg i x Hx) as [_ Hrefs]. rewrite Forall_forall in Hrefs. specialize (Hrefs j Hj).
    destruct (reg !! j) as [y|] eqn:Hy; [|done]. cbn [fmap option_fmap option_map default] in *. exists j, y. split; [done|]. split; [done|].
    destruct (Hreg j y Hy) as [Ht _]. change (Datatypes.id ?z) with z. by rewrite !Ht. }
  assert (length nodes = length reg) as Hlen.
  { apply Forall2_length in Hsteps. unfold raw_topology, resolveAssignmentDependencies, Starlark.buildRawNodes in Hsteps.
    by rewrite !length_fmap in Hsteps. }
  assert (forall i n d, nodes !! i = Some n -> d ∈ normalizeDependencies (DependsOn n) ->
    exists j m, (j < i)%nat /\ nodes !! j = Some m /\ ID m = d) as Hedge.
  { intros i n d Hi (Hd & e & He & <-)%elem_of_normalizeDependencies.
    destruct (Hnode i n Hi) as (x & Hx & _ & Hx'). destruct (Hx' e He) as (j & y & Hj & Hy & ->).
    destruct (lookup_lt_is_Some_2 nodes j) as [m Hm]; [apply lookup_lt_Some in Hy; lia|].
    destruct (Hnode j m Hm) as (y' & Hy' & Hid & _). exists j, m. split; [done|]. split; [done|].
    destruct (Hreg j y Hy) as [Ht _]. rewrite Ht, Hid. congruence. }
  assert (well_formed nodes) as Hwf.
  { split; [done| |].
    { intros n Hn Hr. rewrite Forall_forall in Hresets. destruct (Hresets n Hn) as [?|[Hk Ht]]; [done|].
      split; [done|]. intros target Hin. rewrite Forall_forall in Ht. apply Ht, Exists_exists in Hin. naive_solver. }
    intros n d [i Hi]%list_elem_of_lookup Hd.
    destruct (Hedge i n d Hi Hd) as (j & m & _ & Hm & <-). apply list_elem_of_fmap. exists m.
    split; [done|]. by apply list_elem_of_lookup_2 in Hm. }
  assert (ranked nodes (position nodes)) as Hrank.
  { intros n d [i Hi]%list_elem_of_lookup Hd. destruct (Hedge i n d Hi Hd) as (j & m & Hj & Hm & <-).
    by rewrite (position_lookup nodes i n), (position_lookup nodes j m). }
  destruct (resolve_outcome nodes) as (ordered & [[Ho _]|[_ Hno]]); [|done|by exists ordered|].
  - intros ->. destruct reg; [done|discriminate Hlen].
  - destruct Hno. by eexists.
Qed.
End Steps.

(** A suite with a mock and a test that waits for it and resets it. *)
Definition sample_calls : list Starlark.call :=
  [Starlark.NamespaceCall "mock" "api" [] [("name", StarNode.SString "api")];
   Starlark.NamespaceCall "test" "run" []
     [("after", StarNode.SList [StarNode.SNode 0]); ("reset_mocks", StarNode.SList [StarNode.SNode 0])]].
Definition sample_globals : list (string * StarNode.sval) :=
  [("smoke", StarNode.SNode 1); ("m", StarNode.SNode 0)].
Definition sample_raws : list Starlark.rawNode :=
  match Starlark.evalStarlarkTopology (fun _ => "") (fun n => n) sample_calls (Some sample_globals) with
  | inr raws => raws
  | inl _ => []
  end.
Definition sample_suite : SuiteDefinition := mkSuite "s" "S" "" "" "" "" [] [] [] [].
Definition no_payload (raw : Raw.rawTopologyNode) (files : list SourceFile) : string + handle := inr 0%nat.
Definition sample_steps : list TopologyNode :=
  match assemble no_payload sample_suite ∅ (raw_topology sample_raws) with inr nodes => nodes | inl _ => [] end.
Example sample_steps_ex :
  (fun n => (ID n, Kind n, DependsOn n, ResetMocks n)) <$> sample_steps =
  [("api", "mock", [], []); ("smoke", "test", ["api"], ["api"])].
Proof. vm_compute. reflexivity. Qed.

Lemma starlark_suite_resolves_witness :
  Starlark.calls_in_scope 0 sample_calls /\ exists ordered, resolveTopology sample_steps = Some (inr ordered).
Proof.
  assert (Starlark.calls_in_scope 0 sample_calls) as Hs by (repeat constructor).
  split; [exact Hs|].
  apply (starlark_suite_resolves no_payload (fun _ => "") (fun n => n) sample_calls sample_globals sample_raws
    sample_suite sample_steps Hs).
  - repeat (constructor; [vm_compute; reflexivity|]). constructor.
  - vm_compute. reflexivity.
  - apply (bool_decide_unpack _). vm_compute. exact I.
  - vm_compute. reflexivity.
  - apply (bool_decide_unpack _). vm_compute. exact I.
  - apply (bool_decide_unpack _). vm_compute. exact I.
Defined.
End StarlarkTopology.
