(* ===== verification/Values.v ===== *)
(** Values of type [any] as the mocks handle them ([src/backend/internal/mocking]),
    and what the code uses of encoding/json, fmt and strconv on them.

    [Unmarshal] is [json.Unmarshal] into a variable of type [any], [MarshalIndent]
    is [json.MarshalIndent(v, "", "  ")], [Sprint] is [fmt.Sprint]. *)
From Stdlib Require Import ZArith Lia Ascii SpecFloat.
From S2P Require Import Prelude GoStrings Runes Strconv Literals.
Import GoStrings Runes Strconv.

Module Values.

(** The dynamic types the code tells apart.  The entries of a [map[string]any]
    are sorted by key; a nil map is not a nil value. *)
Inductive any :=
  | ANil
  | ABool (b : bool)
  | AInt (n : Z)
  | AInt64 (n : Z)
  | AFloat (f : float64)
  | AString (s : string)
  | AList (items : list any)
  | AStrings (items : list string)
  | AMap (entries : list (string * any))
  | ANilMap
  | AStringMap (m : gmap string string)
  | ANilStringMap.

(** [m[key] = v] and [m[key]] on sorted entries. *)
Fixpoint put {A} (key : string) (v : A) (m : list (string * A)) : list (string * A) :=
  match m with
  | [] => [(key, v)]
  | (k, w) :: m' =>
      if bool_decide (k = key) then (key, v) :: m'
      else if String.ltb key k then (key, v) :: m
      else (k, w) :: put key v m'
  end.
Fixpoint get {A} (key : string) (m : list (string * A)) : option A :=
  match m with
  | [] => None
  | (k, w) :: m' => if bool_decide (k = key) then Some w else get key m'
  end.
Definition sorted_entries (m : gmap string string) : list (string * string) :=
  foldr (fun p l => put p.1 p.2 l) [] (map_to_list m).

(** ** fmt.Sprint *)
Definition Sprint_map (entries : list (string * string)) : string :=
  "map[" +:+ Join ((fun p => p.1 +:+ ":" +:+ p.2) <$> entries) " " +:+ "]".
Fixpoint Sprint (v : any) : string :=
  match v with
  | ANil => "<nil>"
  | ABool b => if b then "true" else "false"
  | AInt n | AInt64 n => FormatInt n
  | AFloat f => Sprint_g f
  | AString s => s
  | AList items => "[" +:+ Join (Sprint <$> items) " " +:+ "]"
  | AStrings items => "[" +:+ Join items " " +:+ "]"
  | AMap entries => Sprint_map ((fun '(k, w) => (k, Sprint w)) <$> entries)
  | AStringMap m => Sprint_map (sorted_entries m)
  | ANilMap | ANilStringMap => "map[]"
  end.

(** ** strconv *)

(** The value [strconv.Atoi] returns beside its error: 0 on a syntax error, the
    nearest number on a range error. *)
Definition Atoi_value (s : string) : Z :=
  let '(neg, l) := split_sign (of_string s) in
  match l with
  | [] => 0
  | _ => match digits_value 0 l with
         | Some v => Z.max int64_min (Z.min int64_max (if neg then - v else v))
         | None => 0
         end
  end.
Definition ParseBool (s : string) : option bool :=
  if bool_decide (s ∈ ["1"; "t"; "T"; "true"; "TRUE"; "True"]) then Some true
  else if bool_decide (s ∈ ["0"; "f"; "F"; "false"; "FALSE"; "False"]) then Some false
  else None.

(** ** json.Unmarshal *)
Definition hex4 (l : bytes) : option (Z * bytes) :=
  match l with
  | a :: b :: c :: d :: rest =>
      x ← unhex a; y ← unhex b; z ← unhex c; w ← unhex d;
      Some (x * 4096 + y * 256 + z * 16 + w, rest)
  | _ => None
  end.
Definition escape_byte (c : ascii) : option ascii :=
  let b := code c in
  if (b =? 34) || (b =? 92) || (b =? 47) then Some c
  else if b =? 98 then Some (byte_of 8)
  else if b =? 102 then Some (byte_of 12)
  else if b =? 110 then Some (byte_of 10)
  else if b =? 114 then Some (byte_of 13)
  else if b =? 116 then Some (byte_of 9)
  else None.
(** An escape [\u] and, for the first half of a surrogate pair, the second. *)
Definition u_rune (l : bytes) : option (Z * bytes) :=
  '(r, rest) ← hex4 l;
  if (55296 <=? r) && (r <=? 57343) then
    match rest with
    | b :: u :: rest' =>
        match (if (code b =? 92) && (code u =? 117) then hex4 rest' else None) with
        | Some (r2, rest2) =>
            if (r <? 56320) && (56320 <=? r2) && (r2 <=? 57343)
            then Some ((r - 55296) * 1024 + (r2 - 56320) + 65536, rest2)
            else Some (RuneError, rest)
        | None => Some (RuneError, rest)
        end
    | _ => Some (RuneError, rest)
    end
  else Some (r, rest).

(** The text of a string up to its closing quote. *)
Fixpoint json_unquote (fuel : nat) (l : bytes) : option (bytes * bytes) :=
  match fuel with
  | O => None
  | S fuel' =>
      match l with
      | [] => None
      | c :: l1 =>
          if code c =? 34 then Some ([], l1)
          else if code c =? 92 then
            match l1 with
            | [] => None
            | e :: l2 =>
                if code e =? 117 then
                  '(r, l3) ← u_rune l2; '(s, rest) ← json_unquote fuel' l3;
                  Some (encode_rune r ++ s, rest)
                else
                  b ← escape_byte e; '(s, rest) ← json_unquote fuel' l2; Some (b :: s, rest)
            end
          else if code c <? 32 then None
          else
            let '(r, size) := decode_rune l in
            '(s, rest) ← json_unquote fuel' (drop size l); Some (encode_rune r ++ s, rest)
      end
  end.

Fixpoint take_while (test : ascii -> bool) (l : bytes) : bytes * bytes :=
  match l with
  | c :: l' => if test c then let '(s, rest) := take_while test l' in (c :: s, rest) else ([], l)
  | [] => ([], [])
  end.
Definition decimal (c : ascii) : bool := (48 <=? code c) && (code c <=? 57).
(** At least one digit. *)
Definition some_digits (l : bytes) : option (bytes * bytes) :=
  match take_while decimal l with ([], _) => None | p => Some p end.
Definition json_number (l : bytes) : option (bytes * bytes) :=
  let '(sign, l) := match l with
                    | c :: l' => if code c =? 45 then ([c], l') else ([], l)
                    | [] => ([], l)
                    end in
  '(whole, l) ← match l with
                | c :: l' => if code c =? 48 then Some ([c], l') else some_digits l
                | [] => None
                end;
  '(frac, l) ← match l with
               | c :: l' => if code c =? 46 then '(ds, r) ← some_digits l'; Some (c :: ds, r)
                            else Some ([], l)
               | [] => Some ([], l)
               end;
  '(exp, l) ← match l with
              | c :: l' =>
                  if (code c =? 101) || (code c =? 69) then
                    let '(s, l') := match l' with
                                    | d :: l2 => if (code d =? 43) || (code d =? 45) then ([d], l2)
                                                 else ([], l')
                                    | [] => ([], l')
                                    end in
                    '(ds, r) ← some_digits l'; Some (c :: s ++ ds, r)
                  else Some ([], l)
              | [] => Some ([], l)
              end;
  Some (sign ++ whole ++ frac ++ exp, l).

Definition keyword (word : string) (v : any) (l : bytes) : option (any * bytes) :=
  let w := of_string word in
  if bool_decide (take (length w) l = w) then Some (v, drop (length w) l) else None.

Definition maxNestingDepth : Z := 10000.

Fixpoint json_parse (fuel : nat) (depth : Z) (l : bytes) : option (any * bytes) :=
  match fuel with
  | O => None
  | S fuel' =>
      match Literals.skipWhitespace l with
      | [] => None
      | (c :: l1) as l =>
          if code c =? 34 then
            '(s, rest) ← json_unquote (S (length l1)) l1; Some (AString (to_string s), rest)
          else if code c =? 123 then
            if maxNestingDepth <=? depth then None
            else match Literals.skipWhitespace l1 with
                 | d :: l2 => if code d =? 125 then Some (AMap [], l2)
                              else json_members fuel' (depth + 1) [] (d :: l2)
                 | [] => None
                 end
          else if code c =? 91 then
            if maxNestingDepth <=? depth then None
            else match Literals.skipWhitespace l1 with
                 | d :: l2 => if code d =? 93 then Some (AList [], l2)
                              else json_items fuel' (depth + 1) [] (d :: l2)
                 | [] => None
                 end
          else if code c =? 116 then keyword "true" (ABool true) l
          else if code c =? 102 then keyword "false" (ABool false) l
          else if code c =? 110 then keyword "null" ANil l
          else '(raw, rest) ← json_number l; f ← ParseFloat (to_string raw); Some (AFloat f, rest)
      end
  end
with json_members (fuel : nat) (depth : Z) (entries : list (string * any)) (l : bytes) :
    option (any * bytes) :=
  match fuel with
  | O => None
  | S fuel' =>
      match Literals.skipWhitespace l with
      | q :: l1 =>
          if negb (code q =? 34) then None
          else
            '(key, l2) ← json_unquote (S (length l1)) l1;
            match Literals.skipWhitespace l2 with
            | c :: l3 =>
                if negb (code c =? 58) then None
                else
                  '(v, l4) ← json_parse fuel' depth l3;
                  let entries := put (to_string key) v entries in
                  match Literals.skipWhitespace l4 with
                  | e :: l5 => if code e =? 44 then json_members fuel' depth entries l5
                               else if code e =? 125 then Some (AMap entries, l5) else None
                  | [] => None
                  end
            | [] => None
            end
      | [] => None
      end
  end
with json_items (fuel : nat) (depth : Z) (items : list any) (l : bytes) : option (any * bytes) :=
  match fuel with
  | O => None
  | S fuel' =>
      '(v, l1) ← json_parse fuel' depth l;
      let items := items ++ [v] in
      match Literals.skipWhitespace l1 with
      | e :: l2 => if code e =? 44 then json_items fuel' depth items l2
                   else if code e =? 93 then Some (AList items, l2) else None
      | [] => None
      end
  end.

(** Every call but those of [json_parse] by the other two reads a byte, so twice
    the length is enough fuel. *)
Definition Unmarshal (s : string) : option any :=
  let l := of_string s in
  '(v, rest) ← json_parse (2 * length l + 1) 0 l;
  match Literals.skipWhitespace rest with [] => Some v | _ => None end.

(** ** json.MarshalIndent *)
Definition new_line (depth : nat) : bytes := byte_of 10 :: repeat " "%char (2 * depth).
Fixpoint join_lines (depth : nat) (parts : list bytes) : bytes :=
  match parts with
  | [] => []
  | [p] => new_line depth ++ p
  | p :: rest => new_line depth ++ p ++ ","%char :: join_lines depth rest
  end.
Definition bracketed (left right : ascii) (depth : nat) (parts : list bytes) : bytes :=
  match parts with
  | [] => [left; right]
  | _ => left :: join_lines (S depth) parts ++ new_line depth ++ [right]
  end.
Definition json_pair (k : string) (v : bytes) : bytes :=
  Literals.json_string k ++ ":"%char :: " "%char :: v.
Fixpoint indent_value (depth : nat) (v : any) : option bytes :=
  match v with
  | ANil | ANilMap | ANilStringMap => Some (of_string "null")
  | ABool b => Some (of_string (if b then "true" else "false"))
  | AInt n | AInt64 n => Some (of_string (FormatInt n))
  | AFloat f => Literals.json_float f
  | AString s => Some (Literals.json_string s)
  | AList items =>
      bracketed "["%char "]"%char depth <$> Literals.all_some (indent_value (S depth) <$> items)
  | AStrings items => Some (bracketed "["%char "]"%char depth (Literals.json_string <$> items))
  | AMap entries =>
      bracketed "{"%char "}"%char depth <$>
        Literals.all_some ((fun '(k, w) => json_pair k <$> indent_value (S depth) w) <$> entries)
  | AStringMap m =>
      Some (bracketed "{"%char "}"%char depth
              ((fun p => json_pair p.1 (Literals.json_string p.2)) <$> sorted_entries m))
  end.
Definition MarshalIndent (v : any) : option string := to_string <$> indent_value 0 v.

(** ** strconv.Quote *)
Section Quote.
(** [unicode.IsPrint] above ASCII. *)
Variable IsPrint : Z -> bool.
Definition hex_digits (n : nat) (r : Z) : bytes :=
  (fun i => Literals.hex_digit (r / 16 ^ Z.of_nat (n - 1 - i) mod 16)) <$> seq 0 n.
Definition quote_rune (r : Z) : bytes :=
  if (r =? 34) || (r =? 92) then [backslash; byte_of r]
  else if (32 <=? r) && (r <? 127) then [byte_of r]
  else if (128 <=? r) && IsPrint r then encode_rune r
  else if r =? 7 then [backslash; "a"%char]
  else if r =? 8 then [backslash; "b"%char]
  else if r =? 12 then [backslash; "f"%char]
  else if r =? 10 then [backslash; "n"%char]
  else if r =? 13 then [backslash; "r"%char]
  else if r =? 9 then [backslash; "t"%char]
  else if r =? 11 then [backslash; "v"%char]
  else if (r <? 32) || (r =? 127) then backslash :: "x"%char :: hex_digits 2 r
  else if r <? 65536 then backslash :: "u"%char :: hex_digits 4 r
  else backslash :: "U"%char :: hex_digits 8 r.
Fixpoint quote_loop (skip : nat) (l : bytes) : bytes :=
  match l with
  | [] => []
  | c :: l' =>
      match skip with
      | S skip' => quote_loop skip' l'
      | O =>
          let '(r, size) := decode_rune l in
          (if (r =? RuneError) && (size =? 1)%nat && (128 <=? code c)
           then backslash :: "x"%char :: hex_digits 2 (code c) else quote_rune r) ++
          quote_loop (size - 1) l'
      end
  end.
Definition Quote (s : string) : string := to_string (quote_byte :: quote_loop 0 (of_string s) ++ [quote_byte]).
End Quote.

End Values.
