(* ===== verification/MockTypes.v ===== *)
(** The data of the mocks: [src/backend/internal/suites/types.go] (the types of
    an API surface) and [src/backend/internal/mocking/types.go]. *)
From S2P Require Import Prelude GoStrings Suites Values.
Import Values.

Module MockTypes.

Module Header.
Record Header := mk { Name : string; Value : string }.
End Header.

Module Constraint.
Record ParameterConstraint := mk {
  Name : string; Source : string; Required : bool; Forward : bool; Pattern : string }.
End Constraint.

Module Fallback.
Record MockFallback := mk {
  Mode : string; ExampleName : string; ProxyURL : string; Status : string; MediaType : string;
  Body : string; Headers : list Header.Header }.
End Fallback.

Module Transition.
Record MockStateTransition := mk {
  OnExample : string; MutationKeyTemplate : string; Set_ : gmap string string; Delete : list string;
  Increment : gmap string Z }.
End Transition.

Module State.
Record MockState := mk {
  LookupKeyTemplate : string; MutationKeyTemplate : string; Defaults : gmap string string;
  Transitions : list Transition.MockStateTransition }.
End State.

Module Condition.
Record MatchCondition := mk { From : string; Param : string; Value : string }.
End Condition.

Module Metadata.
Record MockOperationMetadata := mk {
  Adapter : string; Dispatcher : string; DelayMillis : Z;
  ParameterConstraints : list Constraint.ParameterConstraint; Fallback : option Fallback.MockFallback;
  State : option State.MockState; ResolverURL : string; RuntimeURL : string }.
End Metadata.

Module Exchange.
Record ExchangeExample := mk {
  Name : string; When : list Condition.MatchCondition; RequestHeaders : list Header.Header;
  RequestBody : string; ResponseStatus : string; ResponseMediaType : string;
  ResponseHeaders : list Header.Header; ResponseBody : string }.
End Exchange.

Module Operation.
Record APIOperation := mk {
  ID : string; Method : string; Name : string; MockPath : string; MockURL : string; Dispatcher : string;
  MockMetadata : Metadata.MockOperationMetadata; Exchanges : list Exchange.ExchangeExample }.
End Operation.

Module Surface.
Record APISurface := mk {
  ID : string; Title : string; Protocol : string; Operations : list Operation.APIOperation }.
End Surface.

(** The fields of [suites.Definition] the mocks read. *)
Module Suite.
Record Definition_ := mk {
  ID : string; Title : string; Repository : string; SourceFiles : list Suites.SourceFile;
  APISurfaces : list Surface.APISurface }.
End Suite.

Export Header Constraint Fallback Transition State Condition Metadata Exchange Operation Surface Suite.

(** [http.Header]: the values of every canonical name. *)
Notation http_header := (gmap string (list string)).

Module Result.
Record Result := mk {
  Status : Z; MediaType : string; Headers : http_header; Body : string; Adapter : string;
  Dispatcher : string; ResolverURL : string; RuntimeURL : string; MatchedExample : string }.
End Result.
Export Result.

(** [BodyObject] is [None] when the map is nil. *)
Module Snapshot.
Record requestSnapshot := mk {
  Method : string; Query : gmap string string; Headers : gmap string string; Path : gmap string string;
  BodyRaw : string; BodyJSON : any; BodyObject : option (list (string * any)) }.
End Snapshot.
Export Snapshot.

Module Schema.
Record schemaRequestSpec := mkRequest { RequestHeaders : any; RequestBody : any }.
Record schemaResponseSpec := mkResponse {
  ResponseStatus : string; ResponseMediaType : string; ResponseHeaders : any; ResponseBody : any }.
Record schemaBackedExample := mkExample {
  Name : string; Dispatch : list Condition.MatchCondition; Request : schemaRequestSpec;
  Response : schemaResponseSpec }.
End Schema.
Export Schema.
End MockTypes.
