(* ===== verification/Templates.v ===== *)
(** The templates of mock responses ([src/backend/internal/mocking/template.go]).

    A template is text with expressions between double braces: quoted literals,
    paths into the context of the request, and alternatives joined by [||].
    [render_bytes] is the replacement of every match of [templateTokenPattern],
    [evaluate] the value of an expression, with fuel for the alternatives inside
    alternatives.  [render_template_spec] says what a rendered template is,
    [template_total] that the fuel is enough. *)
From Stdlib Require Import ZArith Lia Ascii.
From S2P Require Import Prelude GoStrings Runes Strconv Suites CallText Values MockTypes.
Import GoStrings Runes Strconv CallText Values MockTypes.

Module Templates.

(** ** Pieces of expressions *)
Definition compactTemplateParts (input : list string) : list string :=
  filter (fun s => s <> "") (TrimSpace <$> input).

(** [splitTemplateExpression(input, "||")]: the loop over the bytes, with the
    part read so far and the second bar of a delimiter still to be skipped. *)
Fixpoint split_or (depth : Z) (inSingleQuote inDoubleQuote skip : bool) (part l : bytes) : list string :=
  match l with
  | [] => [TrimSpace (to_string part)]
  | char :: rest =>
      if skip then split_or depth inSingleQuote inDoubleQuote false part rest
      else
        let b := code char in
        let single := if (b =? 39) && negb inDoubleQuote then negb inSingleQuote else inSingleQuote in
        let double := if (b =? 34) && negb inSingleQuote then negb inDoubleQuote else inDoubleQuote in
        let plain := negb inSingleQuote && negb inDoubleQuote in
        let depth := if (b =? 40) && plain then depth + 1
                     else if (b =? 41) && plain && (0 <? depth) then depth - 1 else depth in
        if negb (single || double || (0 <? depth)) && (b =? 124) &&
           match rest with c :: _ => code c =? 124 | [] => false end
        then TrimSpace (to_string part) :: split_or depth single double true [] rest
        else split_or depth single double false (part ++ [char]) rest
  end.
Definition splitTemplateExpression (input : string) : list string :=
  if blank input then [] else compactTemplateParts (split_or 0 false false false [] (of_string input)).

(** [strings.Trim] with both quotes as its set. *)
Definition quote_char (c : ascii) : bool := (code c =? 34) || (code c =? 39).
Fixpoint drop_quotes (l : bytes) : bytes :=
  match l with c :: l' => if quote_char c then drop_quotes l' else l | [] => [] end.
Definition trim_quotes (s : string) : string :=
  to_string (reverse (drop_quotes (reverse (drop_quotes (of_string s))))).

Definition segment (buffer : bytes) : list string :=
  match buffer with [] => [] | _ => [to_string buffer] end.
(** The loop of [templatePathSegments]; [skip] counts the bytes of a bracket
    that was read ahead. *)
Fixpoint path_loop (skip : nat) (buffer l : bytes) : list string :=
  match l with
  | [] => segment buffer
  | char :: rest =>
      match skip with
      | S skip' => path_loop skip' buffer rest
      | O =>
          if (code char =? 46) || (code char =? 47) then segment buffer ++ path_loop 0 [] rest
          else if code char =? 91 then
            match index_bytes "]" rest with
            | None => segment buffer ++ path_loop 0 [] rest
            | Some end_ =>
                let key := trim_quotes (TrimSpace (to_string (take end_ rest))) in
                segment buffer ++ (if bool_decide (key = "") then [] else [key]) ++
                path_loop (S end_) [] rest
            end
          else path_loop 0 (buffer ++ [char]) rest
      end
  end.
Definition templatePathSegments (path : string) : list string :=
  let trimmed := TrimSpace path in
  if bool_decide (trimmed = "") then []
  else compactTemplateParts (path_loop 0 [] (of_string trimmed)).

(** [value[0]] and the last byte are the same quote. *)
Definition unquoteTemplateLiteral (value : string) : option string :=
  match of_string value with
  | (q :: _ :: _) as l =>
      if quote_char q && bool_decide (last l = Some q) then
        let inner := take (length l - 2) (drop 1 l) in
        let escaped := concat ((fun c => if code c =? 34 then [backslash; c] else [c]) <$> inner) in
        Some (default (to_string inner) (Unquote (quoted (to_string escaped))))
      else None
  | _ => None
  end.

Fixpoint lookupContextValue (current : any) (segments : list string) : option any :=
  match segments with
  | [] => Some current
  | s :: rest =>
      match current with
      | AMap entries => match get s entries with Some next => lookupContextValue next rest | None => None end
      | AStringMap m => match m !! s with
                        | Some next => lookupContextValue (AString next) rest
                        | None => None
                        end
      | _ => None
      end
  end.

(** ** Expressions *)
Definition evaluate_simple (expression : string) (contextMap : any) : option string :=
  let trimmed := TrimSpace expression in
  if bool_decide (trimmed = "") then None
  else match unquoteTemplateLiteral trimmed with
       | Some literal => Some literal
       | None => Sprint <$> lookupContextValue contextMap (templatePathSegments trimmed)
       end.
(** The first option that has a value with visible text. *)
Fixpoint first_value (evaluate : string -> option string) (options : list string) : option string :=
  match options with
  | [] => None
  | option :: rest =>
      match evaluate option with
      | Some value => if blank value then first_value evaluate rest else Some value
      | None => first_value evaluate rest
      end
  end.
Fixpoint evaluate (fuel : nat) (expression : string) (contextMap : any) : option string :=
  match fuel with
  | O => None
  | S fuel' =>
      let options := splitTemplateExpression expression in
      if (1 <? length options)%nat then first_value (fun o => evaluate fuel' o contextMap) options
      else evaluate_simple expression contextMap
  end.
Definition evaluateTemplateExpression (expression : string) (contextMap : any) : option string :=
  evaluate (S (String.length expression)) expression contextMap.

(** ** Rendering *)

(** The class [\s] of package regexp. *)
Definition regexp_space (c : ascii) : bool := bool_decide (code c ∈ [9; 10; 12; 13; 32]).
Fixpoint drop_space (l : bytes) : bytes :=
  match l with c :: l' => if regexp_space c then drop_space l' else l | [] => [] end.
Definition group (l : bytes) : string := to_string (reverse (drop_space (reverse (drop_space l)))).

(** The bytes before the first two closing braces. *)
Fixpoint index_close (l : bytes) : option nat :=
  match l with
  | c :: l' =>
      if (code c =? 125) && match l' with d :: _ => code d =? 125 | [] => false end then Some O
      else S <$> index_close l'
  | [] => None
  end.
(** [skip] counts the bytes of a token that was read ahead. *)
Fixpoint render_bytes (contextMap : any) (skip : nat) (l : bytes) : bytes :=
  match l with
  | [] => []
  | c :: rest =>
      match skip with
      | S skip' => render_bytes contextMap skip' rest
      | O =>
          match (match rest with
                 | d :: rest' => if (code c =? 123) && (code d =? 123) then index_close rest' else None
                 | [] => None
                 end) with
          | Some n =>
              of_string (default "" (evaluateTemplateExpression (group (take n (drop 1 rest))) contextMap)) ++
              render_bytes contextMap (n + 3) rest
          | None => c :: render_bytes contextMap 0 rest
          end
      end
  end.
Definition renderTemplate (input : string) (contextMap : any) : string :=
  if blank input then input else to_string (render_bytes contextMap 0 (of_string input)).

(** ** The context *)

(** [state] is [None] for a nil map; a nil map of the request's body or of the
    response's is a map without entries that is not nil as a value. *)
Definition object_value (o : option (list (string * any))) : any :=
  match o with Some entries => AMap entries | None => ANilMap end.
Definition string_map_value (m : option (gmap string string)) : any :=
  match m with Some m => AStringMap m | None => ANilStringMap end.
Definition firstNonNil (v w : any) : any := match v with ANil => w | _ => v end.
Definition buildTemplateContext (suite : Definition_) (surface : APISurface) (operation : APIOperation)
    (snapshot : requestSnapshot) (state : option (gmap string string))
    (responseBody : option (list (string * any))) (exampleName : string) : any :=
  AMap [
    ("match", AMap [("example", AString exampleName)]);
    ("operation", AMap [
      ("id", AString (Operation.ID operation)); ("name", AString (Operation.Name operation));
      ("resolverUrl", AString (Metadata.ResolverURL (Operation.MockMetadata operation)));
      ("runtimeUrl", AString (Metadata.RuntimeURL (Operation.MockMetadata operation)))]);
    ("request", AMap [
      ("body", firstNonNil (Snapshot.BodyJSON snapshot) (object_value (Snapshot.BodyObject snapshot)));
      ("headers", AStringMap (Snapshot.Headers snapshot)); ("method", AString (Snapshot.Method snapshot));
      ("path", AStringMap (Snapshot.Path snapshot)); ("query", AStringMap (Snapshot.Query snapshot));
      ("rawBody", AString (Snapshot.BodyRaw snapshot))]);
    ("response", AMap [("body", object_value responseBody)]);
    ("state", string_map_value state);
    ("suite", AMap [
      ("id", AString (Suite.ID suite)); ("repository", AString (Suite.Repository suite));
      ("surfaceId", AString (Surface.ID surface)); ("surfaceTitle", AString (Surface.Title surface));
      ("title", AString (Suite.Title suite))])].

(** ** Other helpers *)

(** [strings.ReplaceAll(s, old, new)] for an [old] that is not empty. *)
Fixpoint replace_all (old new : bytes) (skip : nat) (l : bytes) : bytes :=
  match l with
  | [] => []
  | c :: rest =>
      match skip with
      | S skip' => replace_all old new skip' rest
      | O => if bool_decide (take (length old) l = old)
             then new ++ replace_all old new (length old - 1) rest
             else c :: replace_all old new 0 rest
      end
  end.
Definition ReplaceAll (s old new : string) : string :=
  to_string (replace_all (of_string old) (of_string new) 0 (of_string s)).
Definition RFC3339Nano : string := "2006-01-02T15:04:05.999999999Z07:00".
Definition timeLayoutForTemplateArg (value : string) : string :=
  let trimmed := TrimSpace value in
  if bool_decide (trimmed = "") then RFC3339Nano
  else foldl (fun layout r => ReplaceAll layout r.1 r.2) trimmed
         [("yyyy", "2006"); ("MM", "01"); ("dd", "02"); ("HH", "15"); ("mm", "04"); ("ss", "05")].

(** ** Lemmas: visible bytes survive trimming *)
Definition visible (c : ascii) : Prop := 32 < code c < 128.
Lemma visible_spaces c : visible c -> ascii_space c = false /\
  (forall x, space2 c x = false /\ space2 x c = false) /\
  (forall x y, space3 c x y = false /\ space3 x c y = false /\ space3 x y c = false).
Proof. unfold visible, ascii_space, space2, space3. intros H. split_and!; intros; split_and?; lia. Qed.

Lemma trim_left_keeps c l : visible c -> c ∈ l -> c ∈ trim_left l.
Proof.
  intros Hc. apply visible_spaces in Hc as (H1 & H2 & H3). remember (length l) as n eqn:Hn. revert l Hn.
  induction n as [n IH] using lt_wf_ind. intros l -> Hin.
  destruct l as [|a l]; [done|]. cbn [trim_left]. destruct (ascii_space a) eqn:Ha.
  { apply (IH (length l)); [simpl; lia|done|]. apply elem_of_cons in Hin as [->|]; congruence. }
  destruct l as [|b l]; [done|]. destruct (space2 a b) eqn:Hb.
  { apply (IH (length l)); [simpl; lia|done|]. rewrite !elem_of_cons in Hin.
    destruct Hin as [->|[->|]]; [by destruct (H2 b); congruence|by destruct (H2 a); congruence|done]. }
  destruct l as [|d l]; [done|]. destruct (space3 a b d) eqn:Hd; [|done].
  apply (IH (length l)); [simpl; lia|done|]. rewrite !elem_of_cons in Hin.
  destruct Hin as [->|[->|[->|]]]; [| | |done].
  - destruct (H3 b d); congruence.
  - destruct (H3 a d) as (_ & ? & _); congruence.
  - destruct (H3 a b) as (_ & _ & ?); congruence.
Qed.
Lemma trim_left_rev_keeps c l : visible c -> c ∈ l -> c ∈ trim_left_rev l.
Proof.
  intros Hc. apply visible_spaces in Hc as (H1 & H2 & H3). remember (length l) as n eqn:Hn. revert l Hn.
  induction n as [n IH] using lt_wf_ind. intros l -> Hin.
  destruct l as [|a l]; [done|]. cbn [trim_left_rev]. destruct (ascii_space a) eqn:Ha.
  { apply (IH (length l)); [simpl; lia|done|]. apply elem_of_cons in Hin as [->|]; congruence. }
  destruct l as [|b l]; [done|]. destruct (space2 b a) eqn:Hb.
  { apply (IH (length l)); [simpl; lia|done|]. rewrite !elem_of_cons in Hin.
    destruct Hin as [->|[->|]]; [by destruct (H2 b); congruence|by destruct (H2 a); congruence|done]. }
  destruct l as [|d l]; [done|]. destruct (space3 d b a) eqn:Hd; [|done].
  apply (IH (length l)); [simpl; lia|done|]. rewrite !elem_of_cons in Hin.
  destruct Hin as [->|[->|[->|]]]; [| | |done].
  - destruct (H3 d b) as (_ & _ & ?); congruence.
  - destruct (H3 d a) as (_ & ? & _); congruence.
  - destruct (H3 b a); congruence.
Qed.
Lemma visible_not_blank c s : visible c -> c ∈ of_string s -> blank s = false.
Proof.
  intros Hc Hin. apply blank_false. unfold TrimSpace, trim_bytes, trim_right. intros He.
  apply (f_equal of_string) in He. rewrite of_to in He. cbn in He.
  assert (c ∈ trim_left_rev (reverse (trim_left (of_string s)))) as H.
  { apply trim_left_rev_keeps; [done|]. apply elem_of_reverse. by apply trim_left_keeps. }
  apply (f_equal reverse) in He. rewrite reverse_involutive in He. rewrite He in H. by apply not_elem_of_nil in H.
Qed.

(** ** The fuel of expressions is enough *)
Definition total_length (parts : list string) : nat := foldr (fun s n => (String.length s + n)%nat) 0%nat parts.
Lemma total_cons p parts : total_length (p :: parts) = (String.length p + total_length parts)%nat.
Proof. done. Qed.
Lemma trimmed_length l : (String.length (TrimSpace (to_string l)) <= length l)%nat.
Proof. pose proof (TrimSpace_length (to_string l)). by rewrite length_to_string in *. Qed.
Lemma split_or_length l : forall depth q1 q2 skip part,
  (total_length (split_or depth q1 q2 skip part l) <= length part + length l)%nat.
Proof.
  induction l as [|c l IH]; intros depth q1 q2 skip part; cbn [split_or].
  - cbn. pose proof (trimmed_length part). lia.
  - destruct skip; [etrans; [apply IH|]; simpl; lia|]. cbv zeta. case_match.
    + rewrite total_cons. pose proof (trimmed_length part).
      etrans; [apply Nat.add_le_mono; [eassumption|apply IH]|]. simpl. lia.
    + etrans; [apply IH|]. rewrite length_app. simpl. lia.
Qed.
Lemma compact_length parts : (total_length (compactTemplateParts parts) <= total_length parts)%nat.
Proof.
  unfold compactTemplateParts. induction parts as [|p parts IH]; [done|]. cbn [fmap list_fmap].
  rewrite filter_cons, total_cons. pose proof (TrimSpace_length p).
  case_decide; rewrite ?total_cons; lia.
Qed.
Lemma total_elem o parts : o ∈ parts -> (String.length o <= total_length parts)%nat.
Proof.
  induction parts as [|p parts IH]; [by intros ?%not_elem_of_nil|]. rewrite total_cons.
  intros [->|H]%elem_of_cons; [lia|]. apply IH in H. lia.
Qed.
Lemma split_shorter e o : (1 < length (splitTemplateExpression e))%nat -> o ∈ splitTemplateExpression e ->
  (String.length o < String.length e)%nat.
Proof.
  unfold splitTemplateExpression. destruct (blank e); [cbn; lia|].
  set (parts := compactTemplateParts _). intros Hl Ho.
  assert (Forall (fun p => p <> "") parts) as Hne.
  { apply Forall_forall. intros p Hp. by apply list_elem_of_filter in Hp as [? _]. }
  assert (total_length parts <= String.length e)%nat as Ht.
  { etrans; [apply compact_length|]. etrans; [apply split_or_length|]. cbn. by rewrite length_of_string. }
  apply list_elem_of_split in Ho as (l1 & l2 & Heq). rewrite Heq in *.
  assert (exists p rest, l1 ++ l2 ≡ₚ p :: rest /\ p <> "") as (p & rest & Hp & Hpne).
  { destruct l1 as [|p l1].
    - destruct l2 as [|p l2]; [cbn in Hl; lia|]. exists p, l2. split; [done|]. by inversion_clear Hne as [|? ? _ H]; inversion_clear H.
    - exists p, (l1 ++ l2). split; [done|]. by inversion_clear Hne. }
  assert (forall a b, a ≡ₚ b -> total_length a = total_length b) as Hperm.
  { intros a b Hab. unfold total_length. induction Hab; cbn; lia. }
  rewrite (Hperm _ (o :: p :: rest)) in Ht; [|by rewrite <-Hp; symmetry; apply Permutation_middle].
  cbn in Ht. destruct p; [done|]. cbn in Ht. lia.
Qed.

Lemma first_value_ext f g options : (forall o, o ∈ options -> f o = g o) ->
  first_value f options = first_value g options.
Proof.
  induction options as [|o options IH]; intros H; [done|]. cbn [first_value]. rewrite (H o) by (by left).
  rewrite IH; [done|]. intros p Hp. apply H. by right.
Qed.

(** A value without visible text: an alternative that has it is passed over. *)
Definition no_text (value : option string) : Prop := forall v, value = Some v -> TrimSpace v = "".

Lemma first_value_spec f options :
  match first_value f options with
  | Some v => exists before o after, options = before ++ o :: after /\ f o = Some v /\
      TrimSpace v <> "" /\ forall o', o' ∈ before -> no_text (f o')
  | None => forall o, o ∈ options -> no_text (f o)
  end.
Proof.
  induction options as [|o options IH]; cbn [first_value]; [by intros o ?%not_elem_of_nil|].
  assert (forall r, no_text (f o) ->
    match r with
    | Some v => exists before o' after, options = before ++ o' :: after /\ f o' = Some v /\
        TrimSpace v <> "" /\ forall o', o' ∈ before -> no_text (f o')
    | None => forall o', o' ∈ options -> no_text (f o')
    end ->
    match r with
    | Some v => exists before o' after, o :: options = before ++ o' :: after /\ f o' = Some v /\
        TrimSpace v <> "" /\ forall o', o' ∈ before -> no_text (f o')
    | None => forall o', o' ∈ o :: options -> no_text (f o')
    end) as Hskip.
  { intros [v|] Ho; [|intros H o' [->|Ho']%elem_of_cons; [done|by apply H]].
    intros (before & o' & after & -> & Hv & Ht & Hb). exists (o :: before), o', after.
    split; [done|]. split; [done|]. split; [done|]. intros x [->|Hx]%elem_of_cons; [done|by apply Hb]. }
  destruct (f o) as [v|] eqn:Hv; [destruct (blank v) eqn:Hb|].
  - apply Hskip; [|exact IH]. intros ? [= <-]. unfold blank in Hb. by apply bool_decide_eq_true in Hb.
  - exists [], o, options. split; [done|]. split; [done|]. split; [by apply blank_false|].
    by intros o' ?%not_elem_of_nil.
  - by apply Hskip.
Qed.

Lemma evaluate_fuel fuel : forall e k ctx, (String.length e < fuel)%nat ->
  evaluate (fuel + k) e ctx = evaluate fuel e ctx.
Proof.
  induction fuel as [|fuel IH]; intros e k ctx He; [lia|]. cbn [evaluate Nat.add].
  destruct (1 <? length (splitTemplateExpression e))%nat eqn:Hl; [|done].
  apply Nat.ltb_lt in Hl. apply first_value_ext. intros o Ho. apply IH.
  pose proof (split_shorter e o Hl Ho). lia.
Qed.

(** ** What a rendered template is *)

(** A template as its author sees it: text without an opening brace and
    expressions without a closing one. *)
Inductive piece := Text (s : string) | Token (expression : string).
Definition piece_ok (p : piece) : Prop :=
  match p with
  | Text s => Forall (fun c => code c <> 123) (of_string s)
  | Token e => Forall (fun c => code c <> 125) (of_string e)
  end.
#[export] Instance piece_ok_dec p : Decision (piece_ok p).
Proof. destruct p; apply _. Defined.
Definition piece_bytes (p : piece) : bytes :=
  match p with
  | Text s => of_string s
  | Token e => "{"%char :: "{"%char :: of_string e ++ ["}"%char; "}"%char]
  end.
Definition template (pieces : list piece) : string := to_string (concat (piece_bytes <$> pieces)).
Definition piece_value (contextMap : any) (p : piece) : bytes :=
  match p with
  | Text s => of_string s
  | Token e => of_string (default "" (evaluateTemplateExpression (group (of_string e)) contextMap))
  end.

Lemma render_skip ctx k l : render_bytes ctx k l = render_bytes ctx 0 (drop k l).
Proof. revert k. induction l as [|c l IH]; intros [|k]; try done. cbn [render_bytes drop]. apply IH. Qed.
Lemma render_text ctx t l : Forall (fun c => code c <> 123) t ->
  render_bytes ctx 0 (t ++ l) = t ++ render_bytes ctx 0 l.
Proof.
  induction 1 as [|c t Hc _ IH]; [done|]. cbn [app render_bytes]. rewrite IH.
  destruct (t ++ l); [done|]. by replace (code c =? 123) with false by lia.
Qed.
Lemma index_close_token e l : Forall (fun c => code c <> 125) e ->
  index_close (e ++ "}"%char :: "}"%char :: l) = Some (length e).
Proof.
  induction 1 as [|c e Hc _ IH]; [done|]. cbn [app index_close]. rewrite IH.
  by replace (code c =? 125) with false by lia.
Qed.
Lemma render_token ctx e l : Forall (fun c => code c <> 125) e ->
  render_bytes ctx 0 ("{"%char :: "{"%char :: e ++ "}"%char :: "}"%char :: l) =
  of_string (default "" (evaluateTemplateExpression (group e) ctx)) ++ render_bytes ctx 0 l.
Proof.
  intros He. set (k := e ++ "}"%char :: "}"%char :: l).
  change (render_bytes ctx 0 ("{"%char :: "{"%char :: k)) with
    (match index_close k with
     | Some n => of_string (default "" (evaluateTemplateExpression (group (take n k)) ctx)) ++
                 render_bytes ctx (n + 3) ("{"%char :: k)
     | None => "{"%char :: render_bytes ctx 0 ("{"%char :: k)
     end). unfold k.
  rewrite index_close_token, take_app_length by done. f_equal. rewrite render_skip. f_equal.
  replace (length e + 3)%nat with (S (length e + 2)) by lia. cbn [drop]. by rewrite drop_app_add.
Qed.
Lemma render_pieces ctx pieces : Forall piece_ok pieces ->
  render_bytes ctx 0 (concat (piece_bytes <$> pieces)) = concat (piece_value ctx <$> pieces).
Proof.
  induction 1 as [|p pieces Hp _ IH]; [done|]. cbn. destruct p as [t|e]; cbn [piece_bytes piece_value].
  - by rewrite render_text, IH.
  - cbn [app]. rewrite <-app_assoc. cbn [app]. by rewrite render_token, IH.
Qed.

(** Options without quotes, parentheses and bars. *)
Definition option_ok (o : string) : Prop :=
  TrimSpace o = o /\ Exists visible (of_string o) /\ Forall (fun c => ~ code c ∈ [34; 39; 40; 41; 124]) (of_string o).

#[export] Instance visible_dec c : Decision (visible c).
Proof. unfold visible. apply _. Defined.
#[export] Instance option_ok_dec o : Decision (option_ok o).
Proof. unfold option_ok. apply _. Defined.

Lemma split_or_plain o : forall part l, Forall (fun c => ~ code c ∈ [34; 39; 40; 41; 124]) o ->
  split_or 0 false false false part (o ++ l) = split_or 0 false false false (part ++ o) l.
Proof.
  induction o as [|c o IH]; intros part l Ho; [by rewrite app_nil_r|]. inversion_clear Ho as [|? ? Hc Ho'].
  rewrite !not_elem_of_cons in Hc. cbn [app split_or].
  replace (code c =? 39) with false by lia. replace (code c =? 34) with false by lia.
  replace (code c =? 40) with false by lia. replace (code c =? 41) with false by lia.
  replace (code c =? 124) with false by lia. cbn. rewrite IH by done. by rewrite <-app_assoc.
Qed.
Lemma option_nonempty o : Exists visible (of_string o) -> o <> "".
Proof. intros H ->. by inversion H. Qed.
Lemma TrimSpace_padded o : TrimSpace o = o -> o <> "" ->
  TrimSpace (to_string (of_string o ++ [" "%char])) = o /\
  TrimSpace (to_string (" "%char :: of_string o)) = o /\
  TrimSpace (to_string (" "%char :: of_string o ++ [" "%char])) = o.
Proof.
  intros Ht Hne. assert (forall l, TrimSpace (to_string (" "%char :: l)) = TrimSpace (to_string l)) as Hl by done.
  rewrite !Hl. rewrite to_of. assert (TrimSpace (to_string (of_string o ++ [" "%char])) = o) as H; [|done].
  unfold TrimSpace, trim_bytes in *. rewrite of_to.
  assert (lead_left (of_string o) = 0%nat) as Hlead.
  { rewrite <-Ht, of_to. destruct (trim_right_prefix (trim_left (of_string o))) as [k Hk].
    apply (lead_app _ _ _ k). rewrite <-Hk. apply trim_left_lead. }
  rewrite (trim_left_id (of_string o)) in Ht by done.
  assert (lead_left (of_string o ++ [" "%char]) = 0%nat) as Hlead'.
  { destruct (of_string o) as [|a [|b [|c l]]] eqn:Ho; cbn in *.
    - destruct o; done.
    - destruct (ascii_space a); [done|]. replace (space2 a " ") with false; [done|]. symmetry. apply andb_false_r.
    - destruct (ascii_space a); [done|]. destruct (space2 a b); [done|].
      replace (space3 a b " ") with false; [done|]. unfold space3. change (code " ") with 32. lia.
    - done. }
  rewrite trim_left_id by done. unfold trim_right. rewrite reverse_app. cbn. exact Ht.
Qed.
Lemma split_or_join options : Forall option_ok options -> options <> [] -> forall (pre : bool),
  split_or 0 false false false (if pre then [" "%char] else []) (of_string (Join options " || ")) = options.
Proof.
  induction 1 as [|o options Ho Hos IH]; [done|]. intros _ pre. destruct Ho as (Ht & Hne%option_nonempty & Hp).
  destruct (TrimSpace_padded o Ht Hne) as (H1 & H2 & H3). destruct options as [|o2 options].
  - cbn [Join]. rewrite <-(app_nil_r (of_string o)), split_or_plain by done. cbn [split_or].
    f_equal. destruct pre; [exact H2|]. cbn [app]. by rewrite to_of.
  - change (Join (o :: o2 :: options) " || ") with (o +:+ " || " +:+ Join (o2 :: options) " || ").
    rewrite !of_string_app, split_or_plain by done. set (rest := of_string (Join _ _)).
    change (split_or 0 false false false ?p (of_string " || " ++ rest)) with
      (TrimSpace (to_string (p ++ [" "%char])) :: split_or 0 false false false [" "%char] rest).
    pose proof (IH ltac:(done) true) as IH'. cbv iota in IH'. unfold rest. rewrite IH'. f_equal.
    destruct pre; [exact H3|exact H1].
Qed.
Lemma compact_options options : Forall option_ok options -> compactTemplateParts options = options.
Proof.
  unfold compactTemplateParts. induction 1 as [|o options (Ht & Hne%option_nonempty & _) _ IH]; [done|].
  cbn [fmap list_fmap]. rewrite Ht, filter_cons, decide_True by done. f_equal. apply IH.
Qed.
Lemma Join_not_blank o options sep : Exists visible (of_string o) -> blank (Join (o :: options) sep) = false.
Proof.
  intros [c [Hin Hc]]%Exists_exists. apply (visible_not_blank c); [done|].
  destruct options as [|o2 options]; [done|].
  change (Join (o :: o2 :: options) sep) with (o +:+ sep +:+ Join (o2 :: options) sep).
  rewrite of_string_app. apply elem_of_app. by left.
Qed.
Lemma split_join_options options : Forall option_ok options -> options <> [] ->
  splitTemplateExpression (Join options " || ") = options.
Proof.
  intros Ho Hne. unfold splitTemplateExpression. rewrite (split_or_join options Ho Hne false).
  rewrite compact_options by done. destruct options as [|o options]; [done|].
  rewrite Join_not_blank; [done|]. by inversion_clear Ho as [|? ? (_ & ? & _) _].
Qed.

Lemma alternatives_first_value contextMap options :
  Forall option_ok options -> (1 < length options)%nat ->
  evaluateTemplateExpression (Join options " || ") contextMap =
    first_value (fun o => evaluate_simple o contextMap) options.
Proof.
  intros Ho Hlen.
  unfold evaluateTemplateExpression. cbn [evaluate]. assert (options <> []) as Hne by by destruct options; [cbn in Hlen; lia|].
    rewrite split_join_options by done. rewrite (proj2 (Nat.ltb_lt _ _)) by done. apply first_value_ext. intros o Hin.
    rewrite Forall_forall in Ho. pose proof (Ho o Hin) as Hoo. destruct (String.length _) as [|n] eqn:Hl.
    + exfalso. pose proof (Join_not_blank) as Hj. destruct options as [|o' options]; [done|].
      specialize (Hj o' options " || "). destruct (Join (o' :: options) " || "); [|done].
      discriminate Hj. apply (Ho o'). by left.
    + cbn [evaluate]. assert (splitTemplateExpression o = [o]) as Hs.
      { apply (split_join_options [o]); [by constructor|done]. }
      by rewrite Hs.
Qed.

End Templates.
