(* ===== verification/ProxyTarget.v ===== *)
(** Where a mock may forward requests: [validateProxyTarget], [isBlockedIP] and
    [safeDialContext] of [src/backend/internal/mocking] request.go, service.go.

    Addresses are what package net makes of them: [ParseIP] gives the 16 bytes of
    an address, and [Contains] compares the 4 bytes of an IPv4 address (or of an
    IPv6 address that embeds one) with IPv4 networks and the 16 bytes of the
    others with IPv6 networks.  The resolver is an argument.  [dial_public]: no
    connection is made to an address in the blocked ranges that [ParseIP] reads;
    it reads none with a zone. *)
From Stdlib Require Import ZArith Lia Ascii.
From S2P Require Import Prelude GoStrings Runes Strconv Url.
Import GoStrings Runes Strconv.

Module ProxyTarget.

(** ** net.ParseIP *)
Notation IP := (list Z).

(** A field of an IPv4 address: 0 to 255 without leading zeros. *)
Definition octet (l : bytes) : option Z :=
  match l with
  | [] => None
  | c :: rest =>
      v ← digits_value 0 l;
      if (code c =? 48) && negb (bool_decide (rest = [])) then None
      else if 255 <? v then None else Some v
  end.
Definition parseIPv4Fields (l : bytes) : option IP :=
  match split_bytes "." l with
  | [a; b; c; d] => a ← octet a; b ← octet b; c ← octet c; d ← octet d; Some [a; b; c; d]
  | _ => None
  end.

(** The hexadecimal digits a group starts with: their value and number. *)
Fixpoint hex_group (acc : Z) (off : Z) (l : bytes) : Z * Z * bytes :=
  match l with
  | c :: l' => match unhex c with
               | Some d => hex_group (acc * 16 + d) (off + 1) l'
               | None => (acc, off, l)
               end
  | [] => (acc, off, [])
  end.
(** The loop over the groups: the bytes read so far, the position of the
    ellipsis among them, and the text. *)
Fixpoint groups_loop (fuel : nat) (ip : IP) (ellipsis : option nat) (l : bytes) :
    option (IP * option nat * bytes) :=
  match fuel with
  | O => Some (ip, ellipsis, l)
  | S fuel' =>
      if (16 <=? length ip)%nat then Some (ip, ellipsis, l)
      else
        let '(acc, off, rest) := hex_group 0 0 l in
        if (off =? 0) || (4 <? off) then None
        else
          match rest with
          | [] => Some (ip ++ [acc / 256; acc mod 256], ellipsis, [])
          | c :: rest' =>
              if code c =? 46 then
                if bool_decide (ellipsis = None) && negb (length ip =? 12)%nat then None
                else if (16 <? length ip + 4)%nat then None
                else fields ← parseIPv4Fields l; Some (ip ++ fields, ellipsis, [])
              else if negb (code c =? 58) then None
              else
                let ip := ip ++ [acc / 256; acc mod 256] in
                match rest' with
                | [] => None
                | d :: rest2 =>
                    if code d =? 58 then
                      if negb (bool_decide (ellipsis = None)) then None
                      else match rest2 with
                           | [] => Some (ip, Some (length ip), [])
                           | _ => groups_loop fuel' ip (Some (length ip)) rest2
                           end
                    else groups_loop fuel' ip ellipsis rest'
                end
          end
  end.
Definition zeros (n : nat) : IP := repeat 0 n.
Definition parseIPv6 (l : bytes) : option IP :=
  let '(ellipsis, l) :=
    match l with
    | c :: d :: rest => if (code c =? 58) && (code d =? 58) then (Some O, rest) else (None, l)
    | _ => (None, l)
    end in
  match ellipsis, l with
  | Some _, [] => Some (zeros 16)
  | _, _ =>
      '(ip, ellipsis, rest) ← groups_loop 9 [] ellipsis l;
      match rest with
      | _ :: _ => None
      | [] =>
          match ellipsis with
          | Some e => if (length ip <? 16)%nat then Some (take e ip ++ zeros (16 - length ip) ++ drop e ip)
                      else None
          | None => if (length ip <? 16)%nat then None else Some ip
          end
      end
  end.
Definition mapped_prefix : IP := zeros 10 ++ [255; 255].
(** The first dot, colon or percent sign decides; an address with a zone is no
    IP address. *)
Fixpoint first_mark (l : bytes) : option ascii :=
  match l with
  | c :: l' => if bool_decide (code c ∈ [46; 58; 37]) then Some c else first_mark l'
  | [] => None
  end.
Definition ParseIP (s : string) : option IP :=
  let l := of_string s in
  match first_mark l with
  | Some c =>
      if code c =? 46 then app mapped_prefix <$> parseIPv4Fields l
      else if (code c =? 58) && negb (Contains s "%") then parseIPv6 l
      else None
  | None => None
  end.

(** ** Networks *)
Definition To4 (ip : IP) : option IP :=
  if bool_decide (length ip = 4%nat) then Some ip
  else if bool_decide (length ip = 16%nat /\ take 12 ip = mapped_prefix) then Some (drop 12 ip)
  else None.

Record IPNet := mkNet { NetIP : IP; Ones : Z }.
(** [net.ParseCIDR]: the network number and the length of its prefix. *)
Definition ParseCIDR (s : string) : option IPNet :=
  let '(addr, mask, found) := Cut s "/" in
  if negb found || bool_decide (mask = "") then None
  else
    ip ← ParseIP addr;
    ones ← digits_value 0 (of_string mask);
    let ip := default ip (if Contains addr ":" then None else To4 ip) in
    if 8 * Z.of_nat (length ip) <? ones then None else Some (mkNet ip ones).
(** The byte of a mask with [ones] bits that comes after the bits of the bytes
    before. *)
Definition mask_byte (ones : Z) : Z := 256 - 2 ^ (8 - Z.max 0 (Z.min 8 ones)).
Fixpoint masked_equal (ones : Z) (network ip : IP) : bool :=
  match network, ip with
  | n :: network', x :: ip' =>
      (Z.land n (mask_byte ones) =? Z.land x (mask_byte ones)) && masked_equal (ones - 8) network' ip'
  | [], [] => true
  | _, _ => false
  end.
Definition NetContains (n : IPNet) (ip : IP) : bool :=
  let ip := default ip (To4 ip) in
  let network := default (NetIP n) (To4 (NetIP n)) in
  bool_decide (length ip = length network) && masked_equal (Ones n) network ip.

(** ** What may be reached *)
Definition privateRanges : list string :=
  ["0.0.0.0/8"; "127.0.0.0/8"; "10.0.0.0/8"; "172.16.0.0/12"; "192.168.0.0/16"; "169.254.0.0/16";
   "100.64.0.0/10"; "192.0.0.0/24"; "198.18.0.0/15"; "240.0.0.0/4"; "255.255.255.255/32";
   "::1/128"; "fc00::/7"; "fe80::/10"; "::/128"].
Definition privateIPNets : list IPNet := omap ParseCIDR privateRanges.
Definition isBlockedIP (ip : IP) : bool := existsb (fun n => NetContains n ip) privateIPNets.

(** [u.Hostname()]: without the port and the brackets. *)
Definition Hostname (host : string) : string :=
  let l := of_string host in
  let l := match index_bytes ":" (reverse l) with
           | Some n => let i := (length l - 1 - n)%nat in
                       if Url.validOptionalPort (drop i l) then take i l else l
           | None => l
           end in
  match l with
  | c :: l' => if (code c =? 91) && bool_decide (last l' = Some "]"%char)
               then to_string (take (length l' - 1) l') else to_string l
  | [] => ""
  end.

Inductive ProxyError := BadURL | BadScheme | PrivateAddress | Unresolved.
Definition blocked_text (addr : string) : bool :=
  match ParseIP addr with Some ip => isBlockedIP ip | None => false end.

Section Resolver.
Variable ip_literal : string -> bool.
(** [net.LookupHost]: [None] is an error. *)
Variable LookupHost : string -> option (list string).

(** [None] is no error. *)
Definition validateProxyTarget (raw : string) : option ProxyError :=
  match Url.Parse ip_literal raw with
  | None => Some BadURL
  | Some u =>
      if negb (bool_decide (Url.Scheme u = "http" \/ Url.Scheme u = "https")) then Some BadScheme
      else
        let host := Hostname (Url.Host u) in
        match ParseIP host with
        | Some ip => if isBlockedIP ip then Some PrivateAddress else None
        | None =>
            match LookupHost host with
            | None => Some Unresolved
            | Some addrs => if existsb blocked_text addrs then Some PrivateAddress else None
            end
        end
  end.

(** [safeDialContext] on the host of the address: the address it connects
    to.  An empty list of addresses is a panic of the code; [LookupHost]
    gives none without an error. *)
Definition safeDialContext (host : string) : ProxyError + string :=
  match LookupHost host with
  | None => inl Unresolved
  | Some ips =>
      if existsb blocked_text ips then inl PrivateAddress
      else match ips with ip :: _ => inr ip | [] => inl Unresolved end
  end.
End Resolver.

Example ParseIP_ex :
  ParseIP <$> ["10.0.0.1"; "::1"; "::ffff:10.0.0.1"; "fe80::1%eth0"; "1:2:3:4:5:6:7:8"; "01.2.3.4"; "1::2::3"; "1:2"] =
  [Some (mapped_prefix ++ [10; 0; 0; 1]); Some (zeros 15 ++ [1]); Some (mapped_prefix ++ [10; 0; 0; 1]);
   None; Some [0; 1; 0; 2; 0; 3; 0; 4; 0; 5; 0; 6; 0; 7; 0; 8]; None; None; None].
Proof. vm_compute. reflexivity. Qed.
Example Hostname_ex :
  Hostname <$> ["a:80"; "[::1]:80"; "[::1]"; "a"; "a:b"] = ["a"; "::1"; "::1"; "a"; "a:b"].
Proof. vm_compute. reflexivity. Qed.
Example networks : length privateIPNets = length privateRanges.
Proof. vm_compute. reflexivity. Qed.

(** ** The blocked ranges, written out *)
Definition byte (x : Z) : Prop := 0 <= x < 256.
Definition private4 (a b c d : Z) : Prop :=
  a = 0 \/ a = 10 \/ a = 127 \/ a = 100 /\ 64 <= b < 128 \/ a = 169 /\ b = 254 \/
  a = 172 /\ 16 <= b < 32 \/ a = 192 /\ b = 168 \/ a = 192 /\ b = 0 /\ c = 0 \/
  a = 198 /\ 18 <= b < 20 \/ 240 <= a.
Definition private6 (ip : IP) : Prop :=
  ip = zeros 16 \/ ip = zeros 15 ++ [1] \/
  252 <= nth 0 ip 0 < 254 \/ nth 0 ip 0 = 254 /\ 128 <= nth 1 ip 0 < 192.
Definition private (ip : IP) : Prop :=
  match To4 ip with Some [a; b; c; d] => private4 a b c d | Some _ => False | None => private6 ip end.

Lemma all_bytes P : forallb P (seqZ 0 256) = true -> forall x, byte x -> P x = true.
Proof. intros H x Hx. rewrite forallb_forall in H. apply H, list_elem_of_In, elem_of_seqZ. unfold byte in Hx. lia. Qed.
Lemma mask_full x : byte x -> Z.land x 255 = x.
Proof.
  intros H. apply Z.eqb_eq. apply (all_bytes (fun x => Z.land x 255 =? x)); [vm_compute; reflexivity|done].
Qed.
Lemma mask_range m base lo hi : forallb (fun x => Bool.eqb (base =? Z.land x m) ((lo <=? x) && (x <? hi)))
    (seqZ 0 256) = true ->
  forall x, byte x -> (base =? Z.land x m) = ((lo <=? x) && (x <? hi)).
Proof. intros H x Hx. apply eqb_prop. exact (all_bytes _ H x Hx). Qed.
Ltac range base m lo hi H := rewrite (mask_range m base lo hi ltac:(vm_compute; reflexivity) _ H).

Definition v4_nets : list IPNet :=
  [mkNet [0;0;0;0] 8; mkNet [127;0;0;0] 8; mkNet [10;0;0;0] 8; mkNet [172;16;0;0] 12; mkNet [192;168;0;0] 16;
   mkNet [169;254;0;0] 16; mkNet [100;64;0;0] 10; mkNet [192;0;0;0] 24; mkNet [198;18;0;0] 15;
   mkNet [240;0;0;0] 4; mkNet [255;255;255;255] 32].
Definition v6_nets : list IPNet :=
  [mkNet (zeros 15 ++ [1]) 128; mkNet (252 :: zeros 15) 7; mkNet (254 :: 128 :: zeros 14) 10;
   mkNet (zeros 16) 128].
Lemma nets : privateIPNets = v4_nets ++ v6_nets.
Proof. vm_compute. reflexivity. Qed.

Lemma masked4 n0 n1 n2 n3 ones a b c d :
  NetContains (mkNet [n0; n1; n2; n3] ones) [a; b; c; d] =
  ((Z.land n0 (mask_byte ones) =? Z.land a (mask_byte ones)) &&
   ((Z.land n1 (mask_byte (ones - 8)) =? Z.land b (mask_byte (ones - 8))) &&
    ((Z.land n2 (mask_byte (ones - 8 - 8)) =? Z.land c (mask_byte (ones - 8 - 8))) &&
     ((Z.land n3 (mask_byte (ones - 8 - 8 - 8)) =? Z.land d (mask_byte (ones - 8 - 8 - 8))) && true)))).
Proof. reflexivity. Qed.
Lemma blocked4 a b c d : byte a -> byte b -> byte c -> byte d ->
  isBlockedIP [a; b; c; d] = true <-> private4 a b c d.
Proof.
  intros Ha Hb Hc Hd. unfold isBlockedIP. rewrite nets. unfold v4_nets. cbn [existsb app].
  rewrite !masked4.
  repeat match goal with |- context [mask_byte ?k] =>
    let v := eval vm_compute in (mask_byte k) in change (mask_byte k) with v end.
  repeat match goal with |- context [Z.land (Zpos ?k) ?m] =>
    let v := eval vm_compute in (Z.land (Zpos k) m) in change (Z.land (Zpos k) m) with v end.
  range 16 240 16 32 Hb. range 64 192 64 128 Hb. range 18 254 18 20 Hb. range 240 240 240 256 Ha.
  rewrite !Z.land_0_r, !mask_full by done.
  change (existsb (fun n => NetContains n [a; b; c; d]) v6_nets) with false.
  unfold private4, byte in *. rewrite orb_false_r. split.
  - intros H. repeat (apply orb_true_iff in H as [H|H]); lia.
  - intros H. destruct_or! H;
      repeat (apply orb_true_iff; first [left; solve [clear -H Ha; lia] | right]); clear -H Ha; lia.
Qed.

Lemma masked_all network : forall ones ip, Forall byte network -> Forall byte ip ->
  8 * Z.of_nat (length network) <= ones -> masked_equal ones network ip = bool_decide (network = ip).
Proof.
  induction network as [|n network IH]; intros ones [|x ip] Hn Hi Ho;
    [done|by rewrite bool_decide_eq_false_2|by rewrite bool_decide_eq_false_2|].
  inversion_clear Hn. inversion_clear Hi. cbn [masked_equal length] in *.
  replace (mask_byte ones) with 255 by (unfold mask_byte; rewrite Z.min_l by lia; reflexivity).
  rewrite !mask_full, IH by (done || lia). destruct (Z.eqb_spec n x) as [->|Hne]; simpl.
  - apply bool_decide_ext. split; congruence.
  - symmetry. apply bool_decide_eq_false. congruence.
Qed.
Lemma masked_none network : forall ones ip, length network = length ip -> ones <= 0 ->
  masked_equal ones network ip = true.
Proof.
  induction network as [|n network IH]; intros ones [|x ip] Hl Ho; try done. cbn [masked_equal length] in *.
  replace (mask_byte ones) with 0 by (unfold mask_byte; rewrite Z.max_l by lia; reflexivity).
  rewrite !Z.land_0_r. cbn. apply IH; lia.
Qed.
Lemma first7 x ip : byte x -> length ip = 15%nat ->
  masked_equal 7 (252 :: zeros 15) (x :: ip) = ((252 <=? x) && (x <? 254)).
Proof.
  intros Hx Hl. cbn [masked_equal]. rewrite masked_none by (done || lia).
  change (mask_byte 7) with 254. change (Z.land 252 254) with 252.
  range 252 254 252 254 Hx. apply andb_true_r.
Qed.
Lemma first10 x y ip : byte x -> byte y -> length ip = 14%nat ->
  masked_equal 10 (254 :: 128 :: zeros 14) (x :: y :: ip) = ((x =? 254) && ((128 <=? y) && (y <? 192))).
Proof.
  intros Hx Hy Hl. cbn [masked_equal]. rewrite masked_none by (done || lia).
  change (mask_byte 10) with 255. change (mask_byte (10 - 8)) with 192. change (Z.land 254 255) with 254.
  change (Z.land 128 192) with 128. range 128 192 128 192 Hy. rewrite mask_full, andb_true_r by done.
  by rewrite Z.eqb_sym.
Qed.
Lemma blocked6 ip : length ip = 16%nat -> Forall byte ip -> To4 ip = None ->
  isBlockedIP ip = true <-> private6 ip.
Proof.
  intros Hl Hb H4. unfold isBlockedIP. rewrite nets, existsb_app.
  assert (existsb (fun n => NetContains n ip) v4_nets = false) as ->.
  { apply not_true_iff_false. rewrite existsb_exists. intros (n & Hn & Hc). unfold NetContains in Hc.
    rewrite H4 in Hc. cbn in Hc. apply andb_true_iff in Hc as [Hc _]. apply bool_decide_eq_true in Hc.
    rewrite Hl in Hc. cbn in Hn. by destruct_or! Hn; subst n. }
  destruct ip as [|x [|y ip]]; [done|done|]. cbn [orb v6_nets existsb]. unfold NetContains. rewrite H4.
  cbn [NetIP Ones To4 default]. repeat match goal with |- context [To4 ?k] => change (To4 k) with (@None IP) end.
  cbn [default]. rewrite Hl. cbn [length zeros repeat app bool_decide decide_rel andb].
  rewrite (bool_decide_eq_true_2 (16%nat = 16%nat)) by done.
  rewrite (masked_all (zeros 15 ++ [1]) 128), (masked_all (zeros 16) 128);
    [|by apply (bool_decide_unpack _); vm_compute|done|cbn; lia
     |by apply (bool_decide_unpack _); vm_compute|done|cbn; lia].
  inversion_clear Hb as [|? ? Hx Hb']. inversion_clear Hb' as [|? ? Hy Hb'']. unfold private6. cbn [nth].
  rewrite first7, first10 by (simpl in *; congruence || done).
  cbn [andb]. rewrite orb_false_r, !orb_true_iff. unfold byte in *.
  rewrite !andb_true_iff, !Z.eqb_eq, !Z.leb_le, !Z.ltb_lt, !bool_decide_eq_true.
  split; intros H; destruct_or! H; rewrite ?H; auto 10.
Qed.

(** ** What the proxy reaches *)
Definition octets (ip : IP) : Prop := length ip = 16%nat /\ Forall byte ip.
Lemma isBlockedIP_exact ip : octets ip -> isBlockedIP ip = true <-> private ip.
Proof.
  intros [Hl Hb]. unfold private. destruct (To4 ip) as [ip4|] eqn:H4; [|by apply blocked6].
  assert (isBlockedIP ip = isBlockedIP ip4) as ->.
  { unfold To4 in H4. rewrite bool_decide_eq_false_2 in H4 by lia.
    case_bool_decide as H; [|done]. injection H4 as <-. unfold isBlockedIP.
    assert (length (drop 12 ip) = 4%nat) as Hd by (rewrite length_drop; lia).
    assert (To4 (drop 12 ip) = Some (drop 12 ip)) as Ht by (unfold To4; by rewrite bool_decide_eq_true_2).
    assert (To4 ip = Some (drop 12 ip)) as Ht'.
    { unfold To4. rewrite bool_decide_eq_false_2 by lia. by rewrite bool_decide_eq_true_2. }
    induction privateIPNets as [|n nets' IH]; [done|]. cbn [existsb]. rewrite IH. unfold NetContains.
    by rewrite Ht, Ht'. }
  unfold To4 in H4. rewrite bool_decide_eq_false_2 in H4 by lia. case_bool_decide as H; [|done].
  injection H4 as <-.
  assert (Forall byte (drop 12 ip)) as Hd by (by apply Forall_drop).
  assert (length (drop 12 ip) = 4%nat) as Hl4 by (rewrite length_drop; lia).
  destruct (drop 12 ip) as [|a [|b [|c [|d [|? ?]]]]]; try done.
  rewrite !Forall_cons in Hd. destruct Hd as (Ha & Hb' & Hc & Hd & _). by apply blocked4.
Qed.

Lemma digits_value_nonneg l : forall v w, 0 <= v -> digits_value v l = Some w -> 0 <= w.
Proof.
  induction l as [|c l IH]; intros v w Hv H; [by injection H as <-|]. cbn [digits_value] in H.
  destruct (digit c) as [d|] eqn:Hd; [|done]. apply IH in H; [done|].
  unfold digit in Hd. destruct (_ && _) eqn:E; [|done]. injection Hd as <-. lia.
Qed.
Lemma octet_byte l v : octet l = Some v -> byte v.
Proof.
  unfold octet. destruct l as [|c l]; [done|]. destruct (digits_value 0 (c :: l)) as [w|] eqn:Hw; [|done].
  apply digits_value_nonneg in Hw; [|done]. cbn. destruct (_ && _); [done|].
  destruct (Z.ltb_spec 255 w); [done|]. intros [= <-]. unfold byte. lia.
Qed.
Lemma fields_octets l ip : parseIPv4Fields l = Some ip -> length ip = 4%nat /\ Forall byte ip.
Proof.
  unfold parseIPv4Fields. destruct (split_bytes _ _) as [|a [|b [|c [|d [|? ?]]]]]; try done.
  destruct (octet a) eqn:Ha; [|done]. destruct (octet b) eqn:Hb; [|done]. destruct (octet c) eqn:Hc; [|done].
  destruct (octet d) eqn:Hd; [|done]. intros [= <-]. split; [done|].
  by repeat (constructor; [by eapply octet_byte|]).
Qed.
Lemma unhex_range c d : unhex c = Some d -> 0 <= d < 16.
Proof. unfold unhex. repeat (case_match; [intros [= <-]; lia|]). done. Qed.
Lemma hex_group_range l : forall acc off a o r, 0 <= acc < 16 ^ off -> 0 <= off ->
  hex_group acc off l = (a, o, r) -> 0 <= a < 16 ^ o /\ off <= o.
Proof.
  induction l as [|c l IH]; intros acc off a o r Ha Ho H; cbn [hex_group] in H; [injection H as <- <- <-; lia|].
  destruct (unhex c) as [d|] eqn:Hd; [|injection H as <- <- <-; lia]. apply unhex_range in Hd.
  apply IH in H; [lia| |lia]. rewrite Z.pow_add_r by lia. change (16 ^ 1) with 16. lia.
Qed.
Definition partial (ip : IP) : Prop := Nat.even (length ip) = true /\ (length ip <= 16)%nat /\ Forall byte ip.
Lemma partial_app ip fields : partial ip -> Nat.even (length fields) = true ->
  (length ip + length fields <= 16)%nat -> Forall byte fields -> partial (ip ++ fields).
Proof.
  intros (He & Hl & Hb) Hf Hlen Hfb. unfold partial. rewrite length_app, Nat.even_add, He, Hf.
  split_and!; [done|lia|by apply Forall_app].
Qed.
Lemma groups_partial fuel : forall ip ellipsis l ip' e' r, partial ip ->
  groups_loop fuel ip ellipsis l = Some (ip', e', r) -> partial ip'.
Proof.
  induction fuel as [|fuel IH]; intros ip ellipsis l ip' e' r Hp H; cbn [groups_loop] in H; [by injection H as <- _ _|].
  destruct (Nat.leb_spec 16 (length ip)); [by injection H as <- _ _|].
  destruct (hex_group 0 0 l) as [[acc off] rest] eqn:Hg. apply hex_group_range in Hg as [Hacc Hoff]; [|cbn; lia|lia].
  destruct ((off =? 0) || (4 <? off)) eqn:Ho; [done|]. bool_to_prop.
  assert (16 ^ off <= 16 ^ 4) as Hpow by (apply Z.pow_le_mono_r; lia). change (16 ^ 4) with 65536 in Hpow.
  assert (partial (ip ++ [acc / 256; acc mod 256])) as Hp'.
  { apply partial_app; [done|done| |].
    - destruct Hp as (He & _). cbn. apply Nat.even_spec in He as [m Hm]. lia.
    - repeat constructor; pose proof (Z.div_pos acc 256); pose proof (Z.div_lt_upper_bound acc 256 256);
        pose proof (Z.mod_pos_bound acc 256); lia. }
  destruct rest as [|c rest]; [by injection H as <- _ _|].
  destruct (code c =? 46).
  { destruct (_ && _); [done|]. destruct (Nat.ltb_spec 16 (length ip + 4)); [done|].
    destruct (parseIPv4Fields l) as [fields|] eqn:Hf; [|done]. injection H as <- _ _.
    apply fields_octets in Hf as [Hl Hf]. apply partial_app; rewrite ?Hl; done. }
  destruct (negb _); [done|]. destruct rest as [|d rest]; [done|]. destruct (code d =? 58).
  - destruct (negb _); [done|]. destruct rest as [|x rest]; [by injection H as <- _ _|]. by eapply IH.
  - by eapply IH.
Qed.
Lemma zeros_bytes n : Forall byte (zeros n).
Proof. unfold zeros. induction n as [|n IH]; constructor; [unfold byte; lia|done]. Qed.
Lemma groups_octets fuel e l ip e' : groups_loop fuel [] e l = Some (ip, e', []) -> forall r,
  match e' with
  | Some k => if (length ip <? 16)%nat then Some (take k ip ++ zeros (16 - length ip) ++ drop k ip) else None
  | None => if (length ip <? 16)%nat then None else Some ip
  end = Some r -> octets r.
Proof.
  intros Hg r. apply groups_partial in Hg as (He & Hl & Hb); [|by split_and!; [done|cbn; lia|constructor]].
  destruct (Nat.ltb_spec (length ip) 16), e' as [k|]; try done; intros [= <-].
  - split; [|apply Forall_app; split; [by apply Forall_take|apply Forall_app; split; [apply zeros_bytes|by apply Forall_drop]]].
    rewrite !length_app, length_take, length_drop. unfold zeros. rewrite repeat_length. lia.
  - split; [lia|done].
Qed.
Lemma ParseIP_octets s ip : ParseIP s = Some ip -> octets ip.
Proof.
  unfold ParseIP. destruct (first_mark _) as [c|]; [|done]. destruct (code c =? 46).
  - destruct (parseIPv4Fields _) as [fields|] eqn:Hf; [|done]. intros Heq. assert (ip = mapped_prefix ++ fields) as -> by (cbn in Heq |- *; congruence).
    apply fields_octets in Hf as [Hl Hf]. split; [rewrite length_app, Hl; done|]. apply Forall_app. split; [|done].
    apply (bool_decide_unpack _). by vm_compute.
  - destruct (_ && _); [|done]. unfold parseIPv6.
    set (start := match of_string s with c :: d :: rest => _ | _ => _ end). destruct start as [e l].
    assert (forall e l, ('(ip, ellipsis, rest) ← groups_loop 9 [] e l;
      match rest with
      | _ :: _ => None
      | [] => match ellipsis with
              | Some e => if (length ip <? 16)%nat then Some (take e ip ++ zeros (16 - length ip) ++ drop e ip) else None
              | None => if (length ip <? 16)%nat then None else Some ip
              end
      end) = Some ip -> octets ip) as Hall.
    { intros e0 l0. destruct (groups_loop 9 [] e0 l0) as [[[ip0 e'] [|x rest]]|] eqn:Hg; try done. cbn.
      by eapply groups_octets. }
    destruct e as [e|]; [|by apply Hall]. destruct l as [|x l]; [|by apply Hall].
    intros [= <-]. split; [done|apply zeros_bytes].
Qed.

(** None of the texts that [net.ParseIP] reads as an address is a private one.
    A text it does not read, an address with a zone among them, is not judged. *)
Definition none_private (addrs : list string) : Prop :=
  forall a ip, a ∈ addrs -> ParseIP a = Some ip -> ~ private ip.

Lemma blocked_texts addrs : existsb blocked_text addrs = false <-> none_private addrs.
Proof.
  rewrite <-not_true_iff_false, existsb_exists. unfold none_private, blocked_text. split.
  - intros Hno a ip Ha Hip Hp. apply Hno. exists a. split; [by apply list_elem_of_In|]. rewrite Hip.
    apply isBlockedIP_exact; [by eapply ParseIP_octets|done].
  - intros Hno (a & Ha%list_elem_of_In & Hb). destruct (ParseIP a) as [ip|] eqn:Hip; [|done].
    apply (Hno a ip Ha Hip). apply isBlockedIP_exact; [by eapply ParseIP_octets|done].
Qed.

(** C25: what the fallback proxy of a mock checks, exactly.  A connection is made
    to the first of the addresses the host resolves to when it is made (the
    redirects and the answers of the resolver can have changed), if and only if
    none of them that reads as an IP address is in the private ranges, IPv4
    addresses inside IPv6 ones included.  A target passes beforehand if and only
    if its scheme is http or https and its host is an address outside the private
    ranges, or a name of which the same holds.  The ranges are written out in
    [private].  An address with a zone does not read as an IP address, and is
    dialled ([zone_not_blocked]). *)
Theorem dial_public ip_literal LookupHost host raw :
  (forall addr, safeDialContext LookupHost host = inr addr <->
     exists rest, LookupHost host = Some (addr :: rest) /\ none_private (addr :: rest)) /\
  (validateProxyTarget ip_literal LookupHost raw = None <-> exists u,
     Url.Parse ip_literal raw = Some u /\ (Url.Scheme u = "http" \/ Url.Scheme u = "https") /\
     match ParseIP (Hostname (Url.Host u)) with
     | Some ip => ~ private ip
     | None => exists addrs, LookupHost (Hostname (Url.Host u)) = Some addrs /\ none_private addrs
     end).
Proof.
  split.
  - intros addr. unfold safeDialContext.
    destruct (LookupHost host) as [[|a addrs]|]; [naive_solver| |naive_solver].
    pose proof (blocked_texts (a :: addrs)) as Hx. destruct (existsb blocked_text (a :: addrs)).
    + split; [done|]. intros (rest & [= -> ->] & H). by apply Hx in H.
    + split; [|by intros (rest & [= -> ->] & _)]. intros [= <-]. exists addrs. split; [done|]. by apply Hx.
  - unfold validateProxyTarget.
    destruct (Url.Parse ip_literal raw) as [u|]; [|naive_solver].
    destruct (bool_decide_reflect (Url.Scheme u = "http" \/ Url.Scheme u = "https")) as [Hs|Hs]; cbn [negb];
      [|split; [done|intros (? & [= <-] & ? & _); done]].
    destruct (ParseIP (Hostname (Url.Host u))) as [ip|] eqn:Hip.
    + pose proof (isBlockedIP_exact ip (ParseIP_octets _ _ Hip)) as Hx. destruct (isBlockedIP ip) eqn:Hbl.
      * split; [done|]. intros (? & [= <-] & _ & Hp). rewrite Hip in Hp. by destruct (Hp (proj1 Hx eq_refl)).
      * split; [|done]. intros _. exists u. rewrite Hip. split; [done|]. split; [done|]. by intros Hp%Hx.
    + destruct (LookupHost (Hostname (Url.Host u))) as [found|] eqn:Hl.
      * pose proof (blocked_texts found) as Hx. destruct (existsb blocked_text found).
        -- split; [done|]. intros (? & [= <-] & _ & Hp). rewrite Hip, Hl in Hp. destruct Hp as (? & [= <-] & Hp). by apply Hx in Hp.
        -- split; [|done]. intros _. exists u. rewrite Hip, Hl. split; [done|]. split; [done|]. exists found. split; [done|]. by apply Hx.
      * split; [done|]. intros (? & [= <-] & _ & Hp). rewrite Hip, Hl in Hp. by destruct Hp as (? & ? & _).
Qed.
Lemma dial_public_witness :
  let lookup := fun host => if bool_decide (host = "api.example.com") then Some ["93.184.216.34"; "2606:2800::1"] else None in
  safeDialContext lookup "api.example.com" = inr "93.184.216.34" /\
  exists rest, lookup "api.example.com" = Some ("93.184.216.34" :: rest) /\ none_private ("93.184.216.34" :: rest).
Proof.
  intros lookup. assert (safeDialContext lookup "api.example.com" = inr "93.184.216.34") as H
    by (vm_compute; reflexivity).
  split; [exact H|]. exact (proj1 (proj1 (dial_public (fun _ => true) lookup "api.example.com" "") _) H).
Defined.

(** Addresses with a zone are no IP addresses for [net.ParseIP]: when the
    resolver gives one back, as it does for a literal, it is dialled. *)
Lemma zone_not_blocked :
  let lookup := fun host => Some [host] in
  validateProxyTarget (fun _ => true) lookup "http://[fe80::1%25eth0]:80/" = None /\
  safeDialContext lookup "fe80::1%eth0" = inr "fe80::1%eth0" /\
  validateProxyTarget (fun _ => true) lookup "http://[fe80::1]:80/" = Some PrivateAddress.
Proof. split_and!; vm_compute; reflexivity. Qed.
End ProxyTarget.
