(* ===== verification/MockRequests.v ===== *)
(** Requests to mocks: [src/backend/internal/mocking/request.go] and the
    request-side helpers of preview.go.

    The snapshot of a request, the checks of its parameters, the choice of an
    example, the match of a path with a pattern, and the request an API gateway
    forwards to the resolver.  [matchOperationPath_exact] says which paths match a
    pattern.  The regular expressions of the constraints and the letters above
    ASCII are arguments. *)
From Stdlib Require Import ZArith Lia Ascii.
From S2P Require Import Prelude GoStrings Runes Strconv Url CallText Literals Suites Values MockTypes Templates.
Import GoStrings Runes Strconv Values MockTypes.

Module MockRequests.

(** ** http.Header *)
Definition token_byte (c : ascii) : bool := Url.alnum c || Url.one_of "!#$%&'*+-.^_`|~" c.
Fixpoint canonical_bytes (upper : bool) (l : bytes) : bytes :=
  match l with
  | [] => []
  | c :: l' => (if upper then upper_byte c else lower_byte c) :: canonical_bytes (code c =? 45) l'
  end.
(** [textproto.CanonicalMIMEHeaderKey]. *)
Definition CanonicalHeaderKey (s : string) : string :=
  let l := of_string s in if forallb token_byte l then to_string (canonical_bytes true l) else s.
Definition header_set (h : http_header) (key value : string) : http_header :=
  <[CanonicalHeaderKey key := [value]]> h.
Definition header_get (h : http_header) (key : string) : string :=
  match h !! CanonicalHeaderKey key with Some (v :: _) => v | _ => "" end.

(** The parts of [*http.Request] the code reads; [Query] is [URL.Query()]. *)
Module Request.
Record Request := mk {
  Method : string; Path : string; Query : gmap string (list string); Header : http_header;
  Body : option string }.
End Request.
Export Request.

Definition maxMockRequestBodyBytes : Z := 10485760.
(** [None] is a read error; a longer body is cut. *)
Definition readRequestBody (body : option string) : option (string * any * option (list (string * any))) :=
  body ← body;
  let body := if Z.of_nat (String.length body) <=? maxMockRequestBodyBytes then body
              else slice_to body maxMockRequestBodyBytes in
  let trimmed := TrimSpace body in
  Some (if bool_decide (trimmed = "") then ("", ANil, None)
        else match Unmarshal body with
             | None => (trimmed, AString trimmed, None)
             | Some parsed => (trimmed, parsed, match parsed with AMap object => Some object | _ => None end)
             end).

(** The first value of every key; the headers by lower-case name, in the order
    the map is ranged over. *)
Definition flattenValues (input : gmap string (list string)) : gmap string string := omap head input.
Definition flatten_entry (output : gmap string string) (e : string * list string) : gmap string string :=
  match e.2 with v :: _ => <[ToLower e.1 := v]> output | [] => output end.
Definition flattenHeader (input : list (string * list string)) : gmap string string :=
  foldl flatten_entry ∅ input.

(** ** Results *)
Definition errorResult (status : Z) (mediaType body : string) : Result :=
  Result.mk status mediaType ∅ body "" "" "" "" "".
Definition jsonErrorBody (msg : string) : string :=
  to_string ("{"%char :: Literals.json_string "error" ++ ":"%char :: Literals.json_string msg ++ ["}"%char]).
Definition parseStatusCode (value : string) (fallback : Z) : Z :=
  match ParseInt (TrimSpace value) with
  | Some status => if status <=? 0 then fallback else status
  | None => fallback
  end.
Definition inferredMediaType (body : string) : string :=
  let trimmed := TrimSpace body in
  if HasPrefix trimmed "{" || HasPrefix trimmed "[" then "application/json"
  else if HasPrefix trimmed "<" then "application/xml"
  else "text/plain; charset=utf-8".
Definition operation_dispatcher (operation : APIOperation) : string :=
  FirstNonEmpty [Operation.Dispatcher operation; Metadata.Dispatcher (Operation.MockMetadata operation)].
Definition withOperationMetadata (result : Result) (operation : APIOperation) (adapter : string) : Result :=
  let metadata := Operation.MockMetadata operation in
  let orElse v w := if blank v then w else v in
  Result.mk (Result.Status result) (Result.MediaType result) (Result.Headers result) (Result.Body result)
    (orElse (Result.Adapter result) (TrimSpace adapter))
    (orElse (Result.Dispatcher result) (operation_dispatcher operation))
    (orElse (Result.ResolverURL result) (Metadata.ResolverURL metadata))
    (orElse (Result.RuntimeURL result) (Metadata.RuntimeURL metadata)) (Result.MatchedExample result).

(** ** Values of a request *)
Fixpoint body_path (current : any) (segments : list string) : option any :=
  match segments with
  | [] => Some current
  | segment :: rest =>
      match current with
      | AMap entries => body_path (default ANil (get segment entries)) rest
      | ANilMap => body_path ANil rest
      | _ => None
      end
  end.
Definition bodyLookup (body : any) (key : string) : string :=
  match body with
  | ANil => ""
  | _ => if blank key then ""
         else match body_path body (Split key ".") with
              | None | Some ANil => ""
              | Some v => Sprint v
              end
  end.
Definition location (from : string) : string := ToLower (TrimSpace from).
Definition lookup_string (m : gmap string string) (key : string) : string := default "" (m !! key).
Definition requestValueAt (from key : string) (snapshot : requestSnapshot) : string :=
  if bool_decide (location from = "path") then lookup_string (Snapshot.Path snapshot) key
  else if bool_decide (location from = "header") then lookup_string (Snapshot.Headers snapshot) (ToLower key)
  else lookup_string (Snapshot.Query snapshot) key.
Definition valueAt (from param : string) (snapshot : requestSnapshot) : string :=
  if bool_decide (location from = "body") then bodyLookup (Snapshot.BodyJSON snapshot) param
  else requestValueAt from param snapshot.

(** ** The choice of an example *)
Definition matchWhen (conditions : list MatchCondition) (snapshot : requestSnapshot) : bool :=
  forallb (fun cond =>
    bool_decide (valueAt (Condition.From cond) (Condition.Param cond) snapshot = Condition.Value cond)) conditions.
Definition matchExample (operation : APIOperation) (snapshot : requestSnapshot) : option ExchangeExample :=
  match Operation.Exchanges operation with
  | [example] => if bool_decide (length (Exchange.When example) = 0%nat) then Some example
                 else List.find (fun e => matchWhen (Exchange.When e) snapshot) [example]
  | exchanges => List.find (fun e => matchWhen (Exchange.When e) snapshot) exchanges
  end.

(** [headers.Set] for every parameter that is forwarded and has a value. *)
Definition forward_one (snapshot : requestSnapshot) (headers : http_header) (c : ParameterConstraint) : http_header :=
  let value := requestValueAt (Constraint.Source c) (Constraint.Name c) snapshot in
  if negb (Constraint.Forward c) || blank value then headers else header_set headers (Constraint.Name c) value.
Definition applyRecopiedConstraintHeaders (headers : http_header) (constraints : list ParameterConstraint)
    (snapshot : requestSnapshot) : http_header := foldl (forward_one snapshot) headers constraints.

(** ** Constraints *)
Section Patterns.
(** [regexp.Compile(pattern)] and [MatchString(value)]: [None] when the
    pattern does not compile. *)
Variable MatchPattern : string -> string -> option bool.
(** [unicode.IsPrint] above ASCII, for [strconv.Quote]. *)
Variable IsPrint : Z -> bool.

(** What the check of the parameters does: let the request pass, answer it,
    or panic ([constraint.Source[:1]] of an empty text). *)
Inductive verdict := Pass | Reject (result : Result) | Panic.
Definition check_constraint (snapshot : requestSnapshot) (c : ParameterConstraint) : verdict :=
  let source := Constraint.Source c in
  let value := requestValueAt source (Constraint.Name c) snapshot in
  if Constraint.Required c && blank value then
    Reject (errorResult 400 "application/json"
              (jsonErrorBody ("Missing required " +:+ source +:+ " parameter " +:+
                              Quote IsPrint (Constraint.Name c) +:+ ".")))
  else if blank value || blank (Constraint.Pattern c) then Pass
  else match MatchPattern (Constraint.Pattern c) value with
       | Some false =>
           match of_string source with
           | [] => Panic
           | c0 :: rest =>
               Reject (errorResult 400 "application/json"
                 (jsonErrorBody (ToUpper (to_string [c0]) +:+ ToLower (to_string rest) +:+ " parameter " +:+
                                 Quote IsPrint (Constraint.Name c) +:+ " failed validation.")))
           end
       | _ => Pass
       end.
Fixpoint validateConstraints (constraints : list ParameterConstraint) (snapshot : requestSnapshot) : verdict :=
  match constraints with
  | [] => Pass
  | c :: rest => match check_constraint snapshot c with
                 | Pass => validateConstraints rest snapshot
                 | v => v
                 end
  end.
End Patterns.

(** ** Paths *)
Definition splitPath (path : string) : list string :=
  let trimmed := Trim (TrimSpace path) "/" in
  if bool_decide (trimmed = "") then [] else Split trimmed "/".
Definition placeholder (segment : string) : option string :=
  if HasPrefix segment "{" && HasSuffix segment "}"
  then Some (TrimSuffix (TrimPrefix segment "{") "}") else None.
Fixpoint match_segments (left right : list string) (params : gmap string string) : option (gmap string string) :=
  match left, right with
  | [], [] => Some params
  | l :: left', r :: right' =>
      match placeholder l with
      | Some name => match_segments left' right' (<[name := r]> params)
      | None => if bool_decide (l = r) then match_segments left' right' params else None
      end
  | _, _ => None
  end.
Definition matchOperationPath (pattern path : string) : option (gmap string string) :=
  let left := splitPath pattern in
  let right := splitPath path in
  if bool_decide (length left = length right) then match_segments left right ∅ else None.

(** ** The request behind a gateway *)
Section Gateway.
Variable ip_literal : string -> bool.

Definition resolverOriginalMethod (request : Request) (operation : APIOperation) : string :=
  let from_header := ToUpper (TrimSpace (header_get (Request.Header request) "X-Babelsuite-Original-Method")) in
  let from_request := ToUpper (TrimSpace (Request.Method request)) in
  let from_operation := ToUpper (TrimSpace (Operation.Method operation)) in
  if negb (bool_decide (from_header = "")) then from_header
  else if negb (bool_decide (from_request = "")) && negb (bool_decide (from_request = "POST")) then from_request
  else if bool_decide (from_operation ∈ [""; "RPC"; "EVENT"]) then "POST" else from_operation.
Definition normalizedResolverPath (candidate : string) : string :=
  let raw := TrimSpace candidate in
  if bool_decide (raw = "") then ""
  else if HasPrefix raw "/" then raw
  else match Url.Parse ip_literal raw with
       | Some parsed => if blank (Url.Path parsed) then "/" +:+ Trim raw "/" else Url.Path parsed
       | None => "/" +:+ Trim raw "/"
       end.
Definition first_path (candidates : list string) : option string :=
  head (filter (fun p => p <> "") (normalizedResolverPath <$> candidates)).
Definition resolverOriginalPath (request : Request) (operation : APIOperation) : string :=
  let query_path := match Request.Query request !! "_path" with Some (v :: _) => v | _ => "" end in
  match first_path [header_get (Request.Header request) "X-Babelsuite-Original-Path"; query_path;
                    Operation.MockURL operation; Operation.Name operation] with
  | Some path => path
  | None => if blank (Operation.ID operation) then "/"
            else "/" +:+ Trim (TrimSpace (Operation.ID operation)) "/"
  end.
Definition cloneResolverRequest (request : Request) (operation : APIOperation) (originalPath : string) : Request :=
  Request.mk (resolverOriginalMethod request operation) originalPath (Request.Query request)
    (Request.Header request) (Request.Body request).
End Gateway.

(** ** Which paths match a pattern *)
Definition names (pattern : list string) : list string := omap placeholder pattern.
Definition fill (params : gmap string string) (segment : string) : string :=
  match placeholder segment with Some name => lookup_string params name | None => segment end.

Lemma match_sound left : forall right acc params, NoDup (names left) ->
  match_segments left right acc = Some params ->
  (forall n, n ∉ names left -> params !! n = acc !! n) /\
  (forall n, n ∈ names left -> is_Some (params !! n)) /\ right = fill params <$> left.
Proof.
  induction left as [|l left IH]; intros [|r right] acc params Hnd H; cbn [match_segments] in H; try done.
  { injection H as ->. split_and!; [done|by intros n ?%not_elem_of_nil|done]. }
  unfold names in *. cbn [omap list_omap] in *. cbn [fmap list_fmap]. unfold fill at 1.
  destruct (placeholder l) as [name|].
  - apply NoDup_cons in Hnd as [Hn Hnd]. apply IH in H as (H1 & H2 & H3); [|done].
    assert (params !! name = Some r) as Hr by (rewrite H1 by done; by rewrite lookup_insert_eq).
    split_and!.
    + intros n Hn'. apply not_elem_of_cons in Hn' as [Hne Hn']. rewrite H1 by done. by rewrite lookup_insert_ne.
    + intros n [->|Hn']%elem_of_cons; [by eexists|auto].
    + unfold lookup_string. rewrite Hr. cbn. by f_equal.
  - case_bool_decide as He; [subst r|done]. apply IH in H as (H1 & H2 & H3); [|done].
    split_and!; [done|done|by f_equal].
Qed.
Lemma match_complete params left : forall acc, is_Some (match_segments left (fill params <$> left) acc).
Proof.
  induction left as [|l left IH]; intros acc; [by eexists|]. cbn [fmap list_fmap match_segments].
  destruct (placeholder l) eqn:Hl; [apply IH|].
  rewrite bool_decide_eq_true_2; [apply IH|]. unfold fill. by rewrite Hl.
Qed.
Definition segment_ok (s : string) : Prop :=
  s <> "" /\ Forall (fun c => c <> "/"%char /\ Templates.visible c) (of_string s).
#[export] Instance segment_ok_dec s : Decision (segment_ok s).
Proof. unfold segment_ok. apply _. Defined.
Lemma split_join_path segments : Forall segment_ok segments -> segments <> [] ->
  Split (Join segments "/") "/" = segments.
Proof.
  intros H. apply Split_Join. eapply Forall_impl; [exact H|]. intros s [_ Hs].
  eapply Forall_impl; [exact Hs|]. by intros ? [? ?].
Qed.

Lemma visible_leads c l : Templates.visible c -> lead_left (c :: l) = O /\ lead_right (c :: l) = O.
Proof.
  intros Hc. apply Templates.visible_spaces in Hc as (H1 & H2 & H3). unfold lead. rewrite H1.
  destruct l as [|x l]; [done|]. destruct (H2 x) as [-> ->]. destruct l as [|y l]; [done|].
  destruct (H3 x y) as (-> & _ & _). destruct (H3 y x) as (_ & _ & ->). done.
Qed.
Lemma trim_all_visible l : Forall Templates.visible l -> trim_bytes l = l.
Proof.
  intros H. apply CallText.trim_bytes_fix.
  - destruct H as [|c l Hc _]; [done|]. by apply visible_leads.
  - assert (Forall Templates.visible (reverse l)) as Hr by (by apply Forall_reverse).
    destruct Hr as [|c r Hc _]; [done|]. by apply visible_leads.
Qed.
Lemma joined_visible segments : Forall segment_ok segments ->
  Forall Templates.visible (of_string (Join segments "/")).
Proof.
  induction 1 as [|s segments [_ Hs] _ IH]; [constructor|].
  assert (Forall Templates.visible (of_string s)) as Hv by (eapply Forall_impl; [done|]; by intros ? [? ?]).
  destruct segments as [|s2 segments]; [done|].
  change (Join (s :: s2 :: segments) "/") with (s +:+ "/" +:+ Join (s2 :: segments) "/").
  rewrite !of_string_app. repeat (apply Forall_app; split); try done.
  constructor; [unfold Templates.visible; vm_compute; split; congruence|constructor].
Qed.
Lemma joined_ends segments : Forall segment_ok segments -> segments <> [] ->
  drop_byte "/" (of_string (Join segments "/")) = of_string (Join segments "/") /\
  drop_byte "/" (reverse (of_string (Join segments "/"))) = reverse (of_string (Join segments "/")).
Proof.
  assert (forall l, head l <> Some "/"%char -> drop_byte "/" l = l) as Hdrop.
  { intros [|c l] H; [done|]. cbn in *. by rewrite bool_decide_eq_false_2 by congruence. }
  intros H Hne. split; apply Hdrop.
  - destruct H as [|s segments [Hs Hf] _]; [done|]. destruct segments as [|s2 segments].
    + cbn [Join]. destruct Hf as [|c l [Hc _] _]; [done|]. cbn. congruence.
    + change (Join (s :: s2 :: segments) "/") with (s +:+ "/" +:+ Join (s2 :: segments) "/").
      rewrite of_string_app. destruct s as [|c s]; [done|]. cbn in *.
      inversion_clear Hf as [|? ? [Hc _] _]. congruence.
  - rewrite head_reverse. induction H as [|s segments [Hs Hf] Hrest IH]; [done|]. destruct segments as [|s2 segments].
    + cbn [Join]. intros Hl. apply last_Some_elem_of in Hl. rewrite Forall_forall in Hf. by apply Hf in Hl as [? _].
    + change (Join (s :: s2 :: segments) "/") with (s +:+ "/" +:+ Join (s2 :: segments) "/").
      rewrite !of_string_app. rewrite !last_app. specialize (IH ltac:(done)).
      destruct (last (of_string (Join (s2 :: segments) "/"))) eqn:Hl; [done|].
      apply last_None in Hl. inversion_clear Hrest as [|? ? [Hs2 _] _]. by destruct s2, segments.
Qed.
Lemma splitPath_join segments : Forall segment_ok segments -> segments <> [] ->
  splitPath ("/" +:+ Join segments "/") = segments.
Proof.
  intros H Hne. pose proof (joined_ends _ H Hne) as [Hl Hr]. unfold splitPath, TrimSpace.
  assert (of_string ("/" +:+ Join segments "/") = "/"%char :: of_string (Join segments "/")) as Ho by apply of_string_app.
  rewrite Ho, trim_all_visible.
  2: { constructor; [unfold Templates.visible; vm_compute; split; congruence|by apply joined_visible]. }
  assert (Trim (to_string ("/"%char :: of_string (Join segments "/"))) "/" = Join segments "/") as ->.
  { unfold Trim. rewrite of_to. cbn [drop_byte]. rewrite bool_decide_eq_true_2, Hl, Hr by done.
    by rewrite reverse_involutive, to_of. }
  rewrite bool_decide_eq_false_2; [by apply split_join_path|].
  intros He. destruct H as [|s segments [Hs _] _]; [done|]. destruct s; [done|]. by destruct segments.
Qed.

(** The match of a path with a pattern is exact.  For a pattern that uses no
    name twice, [matchOperationPath] gives the parameters [params] exactly when
    they are values for the names of the pattern, no more and no fewer, and the
    segments of the path are the segments of the pattern with the values filled
    in.  A path written from such segments is split into them again, so every path
    built from a pattern matches it with the values it was built from. *)
Theorem matchOperationPath_exact pattern (Hnd : NoDup (names (splitPath pattern))) :
  (forall path params, matchOperationPath pattern path = Some params <->
     (forall n, n ∈ names (splitPath pattern) <-> is_Some (params !! n)) /\
     splitPath path = fill params <$> splitPath pattern) /\
  (forall params, (forall n, n ∈ names (splitPath pattern) <-> is_Some (params !! n)) ->
     Forall segment_ok (fill params <$> splitPath pattern) -> splitPath pattern <> [] ->
     matchOperationPath pattern ("/" +:+ Join (fill params <$> splitPath pattern) "/") = Some params).
Proof.
  assert (forall path params, matchOperationPath pattern path = Some params <->
     (forall n, n ∈ names (splitPath pattern) <-> is_Some (params !! n)) /\
     splitPath path = fill params <$> splitPath pattern) as Hexact.
  2: { split; [done|]. intros params Hn Hs Hne. apply Hexact. split; [done|]. apply splitPath_join; [done|].
       by destruct (splitPath pattern). }
  intros path params. unfold matchOperationPath. split.
  - case_bool_decide; [|done]. intros Hm. apply match_sound in Hm as (H1 & H2 & H3); [|done]. split; [|done].
    intros n. split; [apply H2|]. intros Hn. destruct (decide (n ∈ names (splitPath pattern))) as [|Hnot]; [done|].
    rewrite H1 in Hn by done. by rewrite lookup_empty in Hn; destruct Hn.
  - intros [Hn Hp]. rewrite Hp, bool_decide_eq_true_2 by (by rewrite length_fmap).
    destruct (match_complete params (splitPath pattern) ∅) as [q Hq]. rewrite Hq. f_equal.
    apply match_sound in Hq as (H1 & H2 & H3); [|done]. apply map_eq. intros n.
    destruct (decide (n ∈ names (splitPath pattern))) as [Hin|Hnot].
    + assert (exists l, l ∈ splitPath pattern /\ placeholder l = Some n) as (l & Hl & Hpl)
        by (by apply list_elem_of_omap in Hin as (l & ? & ?); exists l).
      destruct (H2 n Hin) as [v Hv]. destruct (proj1 (Hn n) Hin) as [w Hw]. rewrite Hv, Hw.
      apply list_elem_of_lookup in Hl as [i Hi]. apply (f_equal (fun x => x !! i)) in H3.
      rewrite !list_lookup_fmap, Hi in H3. cbn in H3. injection H3 as H3. unfold fill, lookup_string in H3.
      rewrite Hpl, Hv, Hw in H3. cbn in H3. congruence.
    + rewrite H1, lookup_empty by done. symmetry. apply eq_None_not_Some. by rewrite <-Hn.
Qed.
Lemma matchOperationPath_exact_witness :
  matchOperationPath "/users/{id}/items/{item}" "/users/42/items/a-b" = Some {["id" := "42"; "item" := "a-b"]} /\
  matchOperationPath "/users/{id}/items/{item}"
    ("/" +:+ Join (fill {["id" := "42"; "item" := "a-b"]} <$> splitPath "/users/{id}/items/{item}") "/") =
    Some {["id" := "42"; "item" := "a-b"]}.
Proof.
  split; [vm_compute; reflexivity|].
  apply (matchOperationPath_exact "/users/{id}/items/{item}").
  - apply (bool_decide_unpack _). vm_compute. exact I.
  - intros n. change (names (splitPath "/users/{id}/items/{item}")) with ["id"; "item"].
    destruct (decide (n = "id")) as [->|H1]; [split; [by eexists|by left]|].
    destruct (decide (n = "item")) as [->|H2]; [split; [by eexists|by right; left]|].
    rewrite lookup_insert_ne, lookup_singleton_ne by congruence. split; [|by intros []].
    rewrite !elem_of_cons. intros [?|[?|?%not_elem_of_nil]]; done.
  - apply (bool_decide_unpack _). vm_compute. exact I.
  - discriminate.
Defined.

(** Numbers of a JSON body are compared as [fmt.Sprint] writes them: from a
    million on, no condition written in digits matches. *)
Lemma large_number_not_matched :
  let body n := Snapshot.mk "POST" ∅ ∅ ∅ "" (AMap [("id", AFloat (F_of_Z n))]) None in
  valueAt "body" "id" (body 123456) = "123456" /\ valueAt "body" "id" (body 1234567) = "1.234567e+06".
Proof. split; vm_compute; reflexivity. Qed.
End MockRequests.
