(* ===== verification/MockSchemas.v ===== *)
(** Examples with schemas: [src/backend/internal/mocking/schema_runtime.go] and the
    part of cue_schema.go that does not call the CUE library.

    A schema is a value of type [any]: [validateSchemaValue] checks a request
    against it and [renderSchemaValue] makes a response from it.  Both recurse on
    the schema with its depth as fuel.  Rendering draws random values: the state
    is the number of draws so far, and the draws, new identifiers and times are
    arguments.  [None] is a panic.  The order in which Go ranges over the
    properties is an argument of the validation. *)
From Stdlib Require Import ZArith Lia Ascii SpecFloat.
From S2P Require Import Prelude GoStrings Runes Strconv Literals LoadPlan Suites Values MockTypes Templates.
From S2P Require Import MockRequests.
Import GoStrings Runes Strconv Values MockTypes Templates MockRequests.

Module MockSchemas.

(** ** Reading values *)
Definition stringValue (v : any) : string := match v with ANil => "" | _ => TrimSpace (Sprint v) end.
Definition anySlice (v : any) : list any :=
  match v with AList items => items | AStrings items => AString <$> items | _ => [] end.
Definition toMapAny (v : any) : option (list (string * any)) :=
  match v with
  | AMap entries => Some entries
  | AStringMap m => Some ((fun p => (p.1, AString p.2)) <$> sorted_entries m)
  | ANilMap | ANilStringMap => Some []
  | _ => None
  end.
(** Only a list of any kind of values: a list of strings gives nothing. *)
Definition schemaStringList (v : any) : list string :=
  match v with
  | AList items => filter (fun s => s <> "") ((fun i => TrimSpace (Sprint i)) <$> items)
  | _ => []
  end.
Definition isNumericValue (v : any) : bool :=
  match v with AInt _ | AInt64 _ | AFloat _ => true | _ => false end.
Definition isZeroBoolean (v : any) : bool := match v with ABool b => negb b | _ => false end.
Definition node_of (schema : any) : option (list (string * any)) :=
  match schema with AMap ((_ :: _) as entries) => Some entries | _ => None end.
(** [node[key]], nil when it is missing, and the properties. *)
Definition field (key : string) (node : list (string * any)) : any := default ANil (get key node).
Definition schema_type (node : list (string * any)) : string := TrimSpace (Sprint (field "type" node)).
Definition properties_of (node : list (string * any)) : list (string * any) :=
  match field "properties" node with AMap entries => entries | _ => [] end.

Fixpoint depth (v : any) : nat :=
  match v with
  | AList items => S (foldr (fun x n => Nat.max (depth x) n) O items)
  | AMap entries => S (foldr (fun '(_, x) n => Nat.max (depth x) n) O entries)
  | _ => 1%nat
  end.

(** ** Documents *)
Definition normalizeSchemaDocumentContent (content : string) : string :=
  if negb (ContainsSub content "//") then content
  else Join (filter (fun l => HasPrefix (TrimSpace l) "//" = false) (Split content (byte_of 10)))
         (String (byte_of 10) "").
Fixpoint sourceFileContent (files : list Suites.SourceFile) (path : string) : option string :=
  match files with
  | [] => None
  | file :: rest => if bool_decide (TrimSpace (Suites.Path file) = TrimSpace path) then Some (Suites.Content file)
                    else sourceFileContent rest path
  end.

Section Runtime.
(** [strconv.Quote] and [unicode.ToUpper] above ASCII, [int(f)] of a number
    out of range. *)
Variable IsPrint : Z -> bool.
Variable ToUpperRune : Z -> Z.
Variable overflow_int : float64 -> Z.
(** [json.Unmarshal] into the document type, by name, and the examples of a
    CUE document. *)
Variable DecodeDocument : string -> option (list schemaBackedExample).
Variable parseSchemaExamplesFromCUE : string -> option (list schemaBackedExample).

Definition name_le (e1 e2 : schemaBackedExample) : Prop :=
  String.ltb (Schema.Name e2) (Schema.Name e1) = false.
#[local] Instance name_le_dec e1 e2 : Decision (name_le e1 e2).
Proof. unfold name_le. apply _. Defined.
Definition parseSchemaExamplesDocument (content : string) : option (list schemaBackedExample) :=
  let normalized := normalizeSchemaDocumentContent content in
  match DecodeDocument normalized with
  | Some ((_ :: _) as examples) => Some (merge_sort name_le examples)
  | _ => parseSchemaExamplesFromCUE normalized
  end.
Definition loadSchemaExamples (suite : Definition_) (operation : APIOperation) : list schemaBackedExample :=
  match sourceFileContent (Suite.SourceFiles suite) (Operation.MockPath operation) with
  | None => []
  | Some content => default [] (parseSchemaExamplesDocument content)
  end.

(** ** Validation *)
Definition capitalize (s : string) : string :=
  match runes s with
  | [] => s
  | r :: rest =>
      let up := if (97 <=? r) && (r <=? 122) then r - 32 else if r <? 128 then r else ToUpperRune r in
      to_string (encode_runes (up :: rest))
  end.
Definition to_int (f : float64) : Z := LoadPlan.int_of_float overflow_int f.
Definition isIntegerValue (v : any) : bool :=
  match v with AInt _ | AInt64 _ => true | AFloat f => F_eq f (F_of_Z (to_int f)) | _ => false end.

(** A required field is there and not empty. *)
Definition has_field (object : list (string * any)) (key : string) : bool :=
  match get key object with
  | None | Some ANil => false
  | Some actual => negb (blank (Sprint actual) && negb (isZeroBoolean actual) && negb (isNumericValue actual))
  end.
Fixpoint first_message (messages : list string) : string :=
  match messages with [] => "" | m :: rest => if bool_decide (m = "") then first_message rest else m end.
Variable range_order : list (string * any) -> list (string * any).
Definition type_message (ok : bool) (location kind : string) : string :=
  if ok then "" else capitalize location +:+ " must be " +:+ kind +:+ ".".
Definition is_nil (v : any) : bool := match v with ANil => true | _ => false end.
Definition is_string (v : any) : bool := match v with AString _ => true | _ => false end.
Definition is_bool (v : any) : bool := match v with ABool _ => true | _ => false end.
Fixpoint validate_value (fuel : nat) (schema value : any) (location : string) : string :=
  match fuel with
  | O => ""
  | S fuel' =>
      match node_of schema with
      | None => ""
      | Some node =>
          let kind := schema_type node in
          if bool_decide (kind = "null") then type_message (is_nil value) location "empty"
          else if bool_decide (kind = "object") then
            match toMapAny value with
            | None => type_message false location "an object"
            | Some object =>
                match List.find (fun key => negb (has_field object key))
                        (schemaStringList (field "required" node)) with
                | Some key => "Missing required " +:+ location +:+ " field " +:+ Quote IsPrint key +:+ "."
                | None =>
                    first_message ((fun '(key, property) =>
                      match get key object with
                      | Some actual => validate_value fuel' property actual (location +:+ "." +:+ key)
                      | None => ""
                      end) <$> range_order (properties_of node))
                end
            end
          else if bool_decide (kind = "array") then
            match value with
            | AList items =>
                first_message (imap (fun index item =>
                  validate_value fuel' (field "items" node) item
                    (location +:+ "[" +:+ FormatInt (Z.of_nat index) +:+ "]")) items)
            | _ => type_message (is_nil value) location "an array"
            end
          else if bool_decide (kind = "string") then
            type_message (is_nil value || is_string value) location "a string"
          else if bool_decide (kind = "integer") then
            type_message (is_nil value || isIntegerValue value) location "an integer"
          else if bool_decide (kind = "number") then
            type_message (is_nil value || isNumericValue value) location "a number"
          else if bool_decide (kind = "boolean") then
            type_message (is_nil value || is_bool value) location "a boolean"
          else ""
      end
  end.
Definition validateSchemaValue (schema value : any) (location : string) : string :=
  validate_value (S (depth schema)) schema value location.
Definition validateSchemaRequest (requestSchema : schemaRequestSpec) (snapshot : requestSnapshot) : option Result :=
  let reject message := Some (errorResult 400 "application/json" (jsonErrorBody message)) in
  let headers := validateSchemaValue (Schema.RequestHeaders requestSchema)
                   (AStringMap (Snapshot.Headers snapshot)) "request headers" in
  if negb (bool_decide (headers = "")) then reject headers
  else
    let body := validateSchemaValue (Schema.RequestBody requestSchema) (Snapshot.BodyJSON snapshot) "request body" in
    if negb (bool_decide (body = "")) then reject body else None.

(** The example that is chosen, if any, or the answer to a request that does
    not fit its schema. *)
Definition check_example (example : schemaBackedExample) (snapshot : requestSnapshot) :
    Result + option schemaBackedExample :=
  match validateSchemaRequest (Schema.Request example) snapshot with
  | Some result => inl result
  | None => inr (Some example)
  end.
Definition matchSchemaExample (examples : list schemaBackedExample) (snapshot : requestSnapshot) :
    Result + option schemaBackedExample :=
  let dispatched := List.find (fun e => matchWhen (Schema.Dispatch e) snapshot) examples in
  let found := match examples with
               | [example] => if bool_decide (length (Schema.Dispatch example) = 0%nat) then Some example
                              else dispatched
               | _ => dispatched
               end in
  match found with Some example => check_example example snapshot | None => inr None end.

(** ** Coercions *)
Definition coerceSchemaPrimitive (schemaType value : string) : any :=
  if bool_decide (schemaType = "integer") then
    match ParseInt (TrimSpace value) with Some n => AInt64 n | None => AString value end
  else if bool_decide (schemaType = "number") then
    match ParseFloat (TrimSpace value) with Some f => AFloat f | None => AString value end
  else if bool_decide (schemaType = "boolean") then
    match ParseBool (TrimSpace value) with Some b => ABool b | None => AString value end
  else if bool_decide (schemaType = "null") then ANil
  else AString value.
Definition coerceSchemaAny (schemaType : string) (value : any) : any :=
  match value with
  | ANil => ANil
  | AString s => coerceSchemaPrimitive schemaType s
  | _ => if bool_decide (schemaType = "string") then AString (Sprint value) else value
  end.
Definition intValue (v : any) : option Z :=
  match v with
  | AInt n | AInt64 n => Some n
  | AFloat f => Some (to_int f)
  | AString s => ParseInt (TrimSpace s)
  | _ => None
  end.

(** ** Generated values *)

(** The random source: [cryptoRand.Int] below a bound ([None] is an error),
    [uuid.NewString] and the current time in a layout, at each draw. *)
Variable Draw : nat -> Z -> option Z.
Variable NewString : nat -> string.
Variable Format : nat -> string -> string.

(** A computation that draws: the result and the number of draws so far, or a
    panic. *)
Definition drawing (A : Type) : Type := nat -> option (A * nat).
Definition pure {A} (x : A) : drawing A := fun n => Some (x, n).
Definition bind {A B} (m : drawing A) (k : A -> drawing B) : drawing B :=
  fun n => match m n with Some (x, n') => k x n' | None => None end.
#[local] Notation "x <- m ;; k" := (bind m (fun x => k)) (at level 100, m at next level, right associativity).

(** [cryptoRand.Int] panics when its bound is not positive. *)
Definition draw_int (span : Z) : drawing (option Z) :=
  fun n => if span <=? 0 then None else Some (Draw n span, S n).
Definition generateIntInRange (minimum maximum : Z) : drawing Z :=
  let '(minimum, maximum) := if maximum <? minimum then (maximum, minimum) else (minimum, maximum) in
  if maximum =? minimum then pure minimum
  else
    value <- draw_int (wrap64 (wrap64 (maximum - minimum) + 1)) ;;
    pure (match value with Some v => wrap64 (minimum + v) | None => minimum end).
Definition alphabet : bytes := of_string "abcdefghijklmnopqrstuvwxyzABCDEFGHIJKLMNOPQRSTUVWXYZ0123456789".
Definition letter (i : Z) : ascii := nth (Z.to_nat i) alphabet "a"%char.
Fixpoint random_letters (index : Z) (count : nat) : drawing bytes :=
  match count with
  | O => pure []
  | S count' =>
      position <- draw_int (Z.of_nat (length alphabet)) ;;
      rest <- random_letters (index + 1) count' ;;
      pure (letter (match position with Some p => p | None => index mod Z.of_nat (length alphabet) end) :: rest)
  end.
Definition generateRandomString (count : Z) : drawing string :=
  letters <- random_letters 0 (Z.to_nat count) ;; pure (to_string letters).

(** [None] is the result that is not ok. *)
Definition renderSchemaGeneratedValue (schemaType : string) (spec : any) : drawing (option any) :=
  match spec with
  | AMap node =>
      let kind := ToLower (TrimSpace (stringValue (field "kind" node))) in
      let prefix := stringValue (field "prefix" node) in
      let suffix := stringValue (field "suffix" node) in
      let layout := stringValue (field "layout" node) in
      let as_text := negb (bool_decide (prefix = "" /\ suffix = "")) || bool_decide (schemaType = "string") in
      let finish v : drawing (option any) := pure (Some (coerceSchemaAny schemaType v)) in
      if bool_decide (kind = "uuid") then
        fun n => Some (Some (coerceSchemaAny schemaType (AString (NewString n))), S n)
      else if bool_decide (kind = "timestamp") then
        let layout := if blank layout then RFC3339Nano else timeLayoutForTemplateArg layout in
        fun n => Some (Some (coerceSchemaAny schemaType (AString (Format n layout))), S n)
      else if bool_decide (kind = "int") then
        let minimum := default 0 (intValue (field "min" node)) in
        let maximum := default 2147483647 (intValue (field "max" node)) in
        generated <- generateIntInRange minimum maximum ;;
        finish (if as_text then AString (prefix +:+ FormatInt generated +:+ suffix) else AInt generated)
      else if bool_decide (kind = "string") then
        let count := default 0 (intValue (field "length" node)) in
        text <- generateRandomString (if count <=? 0 then 12 else count) ;;
        finish (AString (prefix +:+ text +:+ suffix))
      else if bool_decide (kind = "pick") then
        match anySlice (field "options" node) with
        | [] => pure None
        | options =>
            index <- generateIntInRange 0 (Z.of_nat (length options) - 1) ;;
            finish (AString (prefix +:+ Sprint (nth (Z.to_nat index) options ANil) +:+ suffix))
        end
      else if bool_decide (kind = "boolean") then
        generated <- generateIntInRange 0 1 ;;
        let b := generated =? 1 in
        finish (if as_text then AString (prefix +:+ (if b then "true" else "false") +:+ suffix) else ABool b)
      else pure None
  | _ => pure None
  end.

Definition renderSchemaResolvedValue (schemaType : string) (spec contextMap : any) : option any :=
  match spec with
  | AMap node =>
      let path := TrimSpace (stringValue (field "path" node)) in
      if bool_decide (path = "") then None
      else
        let found := lookupContextValue contextMap (templatePathSegments path) in
        let missing := match found with None | Some ANil => true | Some v => blank (Sprint v) end in
        let value := if missing then match get "fallback" node with Some f => Some f | None => found end
                     else found in
        let prefix := stringValue (field "prefix" node) in
        let suffix := stringValue (field "suffix" node) in
        (fun v => if negb (bool_decide (prefix = "" /\ suffix = ""))
                  then coerceSchemaAny schemaType (AString (prefix +:+ Sprint v +:+ suffix))
                  else coerceSchemaAny schemaType v) <$> value
  | _ => None
  end.

Definition compose_part (part contextMap : any) : drawing (option string) :=
  match part with
  | AString s => pure (Some s)
  | AMap typed =>
      match get "generate" typed with
      | Some generate =>
          value <- renderSchemaGeneratedValue "string" generate ;; pure (Sprint <$> value)
      | None =>
          match get "resolve" typed with
          | Some resolve => pure (Sprint <$> renderSchemaResolvedValue "string" resolve contextMap)
          | None => pure None
          end
      end
  | _ => pure None
  end.
Fixpoint compose_parts (parts : list any) (contextMap : any) : drawing (option string) :=
  match parts with
  | [] => pure (Some "")
  | part :: rest =>
      text <- compose_part part contextMap ;;
      match text with
      | None => pure None
      | Some s => tail <- compose_parts rest contextMap ;; pure (String.append s <$> tail)
      end
  end.
Definition renderSchemaComposedValue (spec contextMap : any) : drawing (option string) :=
  match spec with AList ((_ :: _) as parts) => compose_parts parts contextMap | _ => pure None end.

(** ** Rendering *)
Fixpoint map_draw {A B} (f : A -> drawing B) (l : list A) : drawing (list B) :=
  match l with
  | [] => pure []
  | x :: rest => y <- f x ;; ys <- map_draw f rest ;; pure (y :: ys)
  end.
(** The value of a directive, when the schema has it and it gives one. *)
Definition directive (key : string) (node : list (string * any)) (render : any -> drawing (option any)) :
    drawing (option any) :=
  match get key node with Some spec => render spec | None => pure None end.
Definition render_directives (node : list (string * any)) (contextMap : any) : drawing (option any) :=
  let kind := schema_type node in
  composed <- directive "x-babel-compose" node (fun spec =>
    text <- renderSchemaComposedValue spec contextMap ;;
    pure ((fun t => coerceSchemaAny kind (AString t)) <$> text)) ;;
  match composed with
  | Some v => pure (Some v)
  | None =>
      generated <- directive "x-babel-generate" node (renderSchemaGeneratedValue kind) ;;
      match generated with
      | Some v => pure (Some v)
      | None =>
          resolved <- directive "x-babel-resolve" node (fun spec =>
            pure (renderSchemaResolvedValue kind spec contextMap)) ;;
          match resolved with
          | Some v => pure (Some v)
          | None =>
              pure (match get "x-babel-template" node with
                    | Some (AString template) =>
                        Some (coerceSchemaPrimitive kind (renderTemplate template contextMap))
                    | _ => get "example" node
                    end)
          end
      end
  end.
Fixpoint render_value (fuel : nat) (schema contextMap : any) : drawing any :=
  match fuel with
  | O => pure ANil
  | S fuel' =>
      match schema with
      | AMap node =>
          value <- render_directives node contextMap ;;
          match value with
          | Some v => pure v
          | None =>
              let kind := schema_type node in
              if bool_decide (kind = "object") then
                entries <- map_draw (fun '(key, property) =>
                  v <- render_value fuel' property contextMap ;; pure (key, v)) (properties_of node) ;;
                pure (AMap entries)
              else if bool_decide (kind = "array") then
                match get "items" node with
                | Some items => v <- render_value fuel' items contextMap ;; pure (AList [v])
                | None => pure (AList [])
                end
              else pure (if bool_decide (kind = "integer") then AInt64 0
                         else if bool_decide (kind = "number") then AFloat F_zero
                         else if bool_decide (kind = "boolean") then ABool false
                         else if bool_decide (kind = "null") then ANil
                         else AString "")
          end
      | ANilMap => pure (AString "")
      | _ => pure schema
      end
  end.
Definition renderSchemaValue (schema contextMap : any) : drawing any :=
  render_value (S (depth schema)) schema contextMap.

Definition header_entry (headers : http_header) (e : string * any) : http_header :=
  match e.2 with ANil => headers | v => header_set headers e.1 (Sprint v) end.
Definition renderSchemaHeaders (schema contextMap : any) : drawing http_header :=
  rendered <- renderSchemaValue schema contextMap ;;
  pure (match rendered with AMap values => foldl header_entry ∅ values | _ => ∅ end).
Definition renderSchemaBody (schema : any) (mediaType : string) (contextMap : any) : drawing string :=
  rendered <- renderSchemaValue schema contextMap ;;
  pure (match rendered with
        | ANil => ""
        | _ =>
            let marshalled := MarshalIndent rendered in
            let composite := match rendered with AMap _ | ANilMap | AList _ => true | _ => false end in
            let normalized := ToLower (TrimSpace mediaType) in
            let normalized := if bool_decide (normalized = "") then inferredMediaType (Sprint rendered)
                              else normalized in
            match marshalled with
            | Some body => if composite || ContainsSub normalized "json" then body else Sprint rendered
            | None => Sprint rendered
            end
        end).

Definition buildSchemaResult (suite : Definition_) (surface : APISurface) (operation : APIOperation)
    (snapshot : requestSnapshot) (state : option (gmap string string)) (adapter : string)
    (example : schemaBackedExample) : drawing Result :=
  let contextMap := buildTemplateContext suite surface operation snapshot state None (Schema.Name example) in
  let response := Schema.Response example in
  let metadata := Operation.MockMetadata operation in
  headers <- renderSchemaHeaders (Schema.ResponseHeaders response) contextMap ;;
  body <- renderSchemaBody (Schema.ResponseBody response) (Schema.ResponseMediaType response) contextMap ;;
  pure (Result.mk (parseStatusCode (Schema.ResponseStatus response) 200)
          (FirstNonEmpty [Schema.ResponseMediaType response; inferredMediaType body])
          (applyRecopiedConstraintHeaders headers (Metadata.ParameterConstraints metadata) snapshot) body adapter
          (operation_dispatcher operation) (Metadata.ResolverURL metadata) (Metadata.RuntimeURL metadata)
          (Schema.Name example)).
End Runtime.

(** ** What is rendered fits its schema *)

(** A schema whose value is not given by a directive or an example and that
    requires nothing. *)
Definition directives : list string :=
  ["x-babel-compose"; "x-babel-generate"; "x-babel-resolve"; "x-babel-template"; "example"].
Fixpoint plain_schema (fuel : nat) (schema : any) : bool :=
  match fuel with
  | O => false
  | S fuel' =>
      match schema with
      | AMap node =>
          forallb (fun key => bool_decide (get key node = None)) directives &&
          bool_decide (schemaStringList (field "required" node) = []) &&
          bool_decide (NoDup (fst <$> properties_of node)) &&
          forallb (fun p => plain_schema fuel' p.2) (properties_of node) &&
          plain_schema fuel' (field "items" node)
      | _ => true
      end
  end.

Lemma get_elem {A} key (l : list (string * A)) v : get key l = Some v -> (key, v) ∈ l.
Proof.
  induction l as [|[k w] l IH]; [done|]. cbn [get]. case_bool_decide as H; [intros [= ->]; subst; by left|right; auto].
Qed.
Lemma depth_elem key v node : get key node = Some v -> (depth v < depth (AMap node))%nat.
Proof.
  intros H%get_elem. cbn [depth]. induction node as [|[k w] node IH]; [by apply not_elem_of_nil in H|].
  cbn [foldr]. apply elem_of_cons in H as [[= <- <-]|H]; [lia|]. apply IH in H. lia.
Qed.
Lemma depth_property p node : p ∈ properties_of node -> (depth p.2 < pred (depth (AMap node)))%nat.
Proof.
  unfold properties_of, field. destruct (get "properties" node) as [props|] eqn:Hp; [|by intros ?%not_elem_of_nil].
  apply depth_elem in Hp. cbn [default]. destruct props; try (by intros ?%not_elem_of_nil).
  intros H. assert (depth p.2 < depth (AMap entries))%nat; [|simpl in *; lia]. clear Hp. cbn [depth].
  induction entries as [|[k w] entries IH]; [by apply not_elem_of_nil in H|]. cbn [foldr].
  apply elem_of_cons in H as [->|H]; [cbn; lia|]. apply IH in H. lia.
Qed.
Lemma first_message_empty messages : first_message messages = "" <-> Forall (fun m => m = "") messages.
Proof.
  induction messages as [|m messages IH]; [done|]. cbn [first_message]. rewrite Forall_cons.
  case_bool_decide as H; [rewrite IH; tauto|]. split; [done|]. intros [? _]. done.
Qed.
Lemma get_fmap {A B} (f : A -> B) key l : get key ((fun p => (p.1, f p.2)) <$> l) = f <$> get key l.
Proof. induction l as [|[k w] l IH]; [done|]. cbn. case_bool_decide; [done|apply IH]. Qed.
Lemma get_nodup {A} key (v : A) l : NoDup (fst <$> l) -> (key, v) ∈ l -> get key l = Some v.
Proof.
  induction l as [|[k w] l IH]; intros Hnd Hin; [by apply not_elem_of_nil in Hin|]. cbn [get].
  cbn in Hnd. apply NoDup_cons in Hnd as [Hk Hnd]. apply elem_of_cons in Hin as [[= -> ->]|Hin].
  - by rewrite bool_decide_eq_true_2.
  - rewrite bool_decide_eq_false_2; [auto|]. intros ->. apply Hk, list_elem_of_fmap. by exists (key, v).
Qed.

Section Conformance.
Context (IsPrint : Z -> bool) (ToUpperRune : Z -> Z) (overflow_int : float64 -> Z).
Context (Draw : nat -> Z -> option Z) (NewString : nat -> string) (Format : nat -> string -> string).
Notation render := (render_value overflow_int Draw NewString Format).
Notation validate := (validate_value IsPrint ToUpperRune overflow_int).

Lemma directives_none node ctx n : forallb (fun key => bool_decide (get key node = None)) directives = true ->
  render_directives overflow_int Draw NewString Format node ctx n = Some (None, n).
Proof.
  unfold directives. cbn [forallb]. rewrite !andb_true_iff, !bool_decide_eq_true.
  intros (H1 & H2 & H3 & H4 & H5 & _). unfold render_directives, directive. rewrite H1, H2, H3, H4, H5. done.
Qed.

Lemma map_draw_plain fuel ctx n props :
  (forall p, p ∈ props -> exists v, render fuel p.2 ctx n = Some (v, n)) ->
  exists entries, map_draw (fun p : string * any => let '(key, property) := p in
      bind (render fuel property ctx) (fun v => pure (key, v))) props n =
    Some (entries, n) /\ fst <$> entries = fst <$> props /\
    forall key v, (key, v) ∈ entries -> exists property, (key, property) ∈ props /\
      render fuel property ctx n = Some (v, n).
Proof.
  induction props as [|[key property] props IH]; intros H.
  { exists []. split_and!; [done|done|]. by intros ? ? ?%not_elem_of_nil. }
  destruct (H (key, property) ltac:(by left)) as [v Hv]. cbn in Hv.
  destruct IH as (entries & He & Hf & Hs). { intros p Hp. apply H. by right. }
  exists ((key, v) :: entries). split_and!.
  - cbn [map_draw]. unfold bind at 1 2. rewrite Hv. unfold pure at 1. unfold bind at 1. by rewrite He.
  - cbn. by f_equal.
  - intros k w [[= -> ->]|Hin]%elem_of_cons; [exists property; split; [by left|done]|].
    destruct (Hs k w Hin) as (q & Hq & Hr). exists q. split; [by right|done].
Qed.

(** The value a plain schema is rendered to. *)
Lemma plain_render fuel : forall schema ctx n, plain_schema fuel schema = true -> (depth schema < fuel)%nat ->
  exists v, render fuel schema ctx n = Some (v, n) /\
    forall order k location, (forall l, order l ≡ₚ l) -> validate order k schema v location = "".
Proof.
  induction fuel as [|fuel IH]; intros schema ctx n Hp Hd; [done|]. cbn [plain_schema] in Hp.
  destruct schema as [| | | | | | | |node| | |]; try (eexists; split; [done|]; by intros order [|k]).
  rewrite !andb_true_iff in Hp. destruct Hp as ((((Hdir & Hreq) & Hnd) & Hprops) & Hitems).
  rewrite bool_decide_eq_true in Hreq, Hnd. rewrite forallb_forall in Hprops.
  assert (forall p, p ∈ properties_of node -> exists v, render fuel p.2 ctx n = Some (v, n) /\
    forall order k location, (forall l, order l ≡ₚ l) -> validate order k p.2 v location = "") as Hprop.
  { intros p Hin. apply IH; [by apply Hprops, list_elem_of_In|]. apply depth_property in Hin. simpl in *; lia. }
  cbn [render_value]. unfold bind at 1. rewrite directives_none by done. cbv zeta.
  destruct (decide (schema_type node = "object")) as [Hobj|Hobj];
    [rewrite bool_decide_eq_true_2 by done|rewrite (bool_decide_eq_false_2 (schema_type node = "object")) by done].
  - destruct (map_draw_plain fuel ctx n (properties_of node)) as (entries & He & Hf & Hs).
    { intros p Hin. destruct (Hprop p Hin) as (v & Hv & _). by exists v. }
    exists (AMap entries). unfold bind at 1. rewrite He. split; [done|]. intros order [|k] location Ho; [done|].
    cbn [validate_value]. destruct node as [|e node]; [done|]. cbn [node_of]. cbv zeta. rewrite Hobj. cbn [toMapAny].
    rewrite Hreq. cbn [List.find]. apply first_message_empty, Forall_forall.
    intros m ([key property] & -> & Hin)%list_elem_of_fmap. rewrite Ho in Hin.
    destruct (get key entries) as [v|] eqn:Hg; [|done]. apply get_elem, Hs in Hg as (q & Hq & Hr).
    assert (q = property) as ->.
    { apply get_nodup in Hq; [|done]. apply get_nodup in Hin; [|done]. congruence. }
    destruct (Hprop _ Hin) as (v' & Hv' & Hval). cbn in Hv'. rewrite Hr in Hv'. injection Hv' as ->. by apply Hval.
  - destruct (decide (schema_type node = "array")) as [Harr|Harr];
      [rewrite bool_decide_eq_true_2 by done|rewrite (bool_decide_eq_false_2 (schema_type node = "array")) by done].
    + assert (exists v, (match get "items" node with
          | Some items => bind (render fuel items ctx) (fun v => pure (AList [v]))
          | None => pure (AList []) end n = Some (v, n)) /\ exists l, v = AList l /\
          Forall (fun x => forall order k location, (forall l, order l ≡ₚ l) ->
            validate order k (field "items" node) x location = "") l) as (v & Hv & l & -> & Hl).
      { unfold field in *. destruct (get "items" node) as [items|] eqn:Hi.
        - destruct (IH items ctx n) as (v & Hv & Hval); [done|apply depth_elem in Hi; lia|].
          exists (AList [v]). unfold bind. rewrite Hv. split; [done|]. exists [v]. split; [done|]. by constructor.
        - exists (AList []). split; [done|]. exists []. split; [done|constructor]. }
      exists (AList l). split; [exact Hv|]. intros order [|k] location Ho; [done|]. cbn [validate_value].
      destruct node as [|e node]; [done|]. cbn [node_of]. cbv zeta. rewrite Harr.
      apply first_message_empty, Forall_forall. intros m Hm. apply list_elem_of_lookup in Hm as [i Hi].
      rewrite list_lookup_imap in Hi. destruct (l !! i) as [x|] eqn:Hx; [|done]. injection Hi as <-.
      rewrite Forall_lookup in Hl. by eapply Hl.
    + eexists. split; [done|]. intros order [|k] location Ho; [done|]. cbn [validate_value].
      destruct node as [|e node]; [done|]. cbn [node_of]. cbv zeta. by repeat case_bool_decide; try congruence.
Qed.

(** The verdict does not depend on the order of the properties. *)
Lemma validate_order order1 order2 : (forall l, order1 l ≡ₚ l) -> (forall l, order2 l ≡ₚ l) ->
  forall k schema v location, validate order1 k schema v location = "" -> validate order2 k schema v location = "".
Proof.
  intros H1 H2 k. induction k as [|k IH]; intros schema v location; [done|]. cbn [validate_value].
  destruct (node_of schema) as [node|]; [|done]. case_bool_decide; [done|]. case_bool_decide.
  - destruct (toMapAny v) as [object|]; [|done]. destruct (List.find _ _); [done|].
    rewrite !first_message_empty, !Forall_fmap, H1, H2. intros Hall. eapply Forall_impl; [exact Hall|]. intros [key property]. cbn.
    destruct (get key object); [apply IH|done].
  - case_bool_decide; [|done]. destruct v; try done. rewrite !first_message_empty, !Forall_lookup.
    intros Hall i m Hm. rewrite list_lookup_imap in Hm. specialize (Hall i).
    rewrite list_lookup_imap in Hall. destruct (items !! i) as [x|]; [|done]. injection Hm as <-.
    cbn in Hall. eapply IH, Hall. done.
Qed.
End Conformance.

(** C27: a mock's response fits its own schema, when the schema is plain: in the
    whole of it there is no [x-babel] directive, no [example] and no property
    that is required, and no map has a key twice (a Go map never does).  Such a
    schema is rendered without drawing a random value, to a value that the
    validation accepts against the same schema.  ([required_string_refused]: it
    does not accept the empty string rendered for a required one.)  Whether a
    value is accepted, by any schema, never depends on the order in which the
    properties of a schema are ranged over (the message may). *)
Theorem rendered_conforms IsPrint ToUpperRune overflow_int Draw NewString Format schema contextMap n order location
    (Hplain : plain_schema (S (depth schema)) schema = true) (Horder : forall l, order l ≡ₚ l) :
  (exists v, renderSchemaValue overflow_int Draw NewString Format schema contextMap n = Some (v, n) /\
     validateSchemaValue IsPrint ToUpperRune overflow_int order schema v location = "") /\
  (forall order' schema' v, (forall l, order' l ≡ₚ l) ->
     validateSchemaValue IsPrint ToUpperRune overflow_int order schema' v location = "" <->
     validateSchemaValue IsPrint ToUpperRune overflow_int order' schema' v location = "").
Proof.
  split.
  - destruct (plain_render IsPrint ToUpperRune overflow_int Draw NewString Format (S (depth schema)) schema contextMap n
      Hplain ltac:(lia)) as (v & Hv & Hval). exists v. split; [done|]. by apply Hval.
  - intros order' schema' v Ho. unfold validateSchemaValue. split; by apply validate_order.
Qed.

Definition sample_schema : any :=
  AMap [("properties", AMap [("ids", AMap [("items", AMap [("type", AString "integer")]); ("type", AString "array")]);
                             ("name", AMap [("type", AString "string")])]); ("type", AString "object")].
Lemma rendered_conforms_witness :
  let render := renderSchemaValue (fun _ => 0) (fun _ _ => None) (fun _ => "") (fun _ _ => "") in
  render sample_schema ANil 0%nat = Some (AMap [("ids", AList [AInt64 0]); ("name", AString "")], 0%nat) /\
  exists v, render sample_schema ANil 0%nat = Some (v, 0%nat) /\
    validateSchemaValue (fun _ => true) (fun r => r) (fun _ => 0) reverse sample_schema v "request body" = "".
Proof.
  intros render. split; [vm_compute; reflexivity|].
  exact (proj1 (rendered_conforms (fun _ => true) (fun r => r) (fun _ => 0) (fun _ _ => None) (fun _ => "") (fun _ _ => "")
    sample_schema ANil 0%nat reverse "request body" ltac:(vm_compute; reflexivity)
    (fun l => reverse_Permutation l))).
Defined.

(** The list of required headers that [parseSchemaFieldValue] makes of a CUE
    document is a list of strings, which [schemaStringList] does not read: the
    headers are not required. *)
Definition header_schema (required : any) : any :=
  AMap [("properties", AMap [("x-key", AMap [("type", AString "string")])]); ("required", required);
        ("type", AString "object")].
Lemma required_strings_ignored :
  let validate := validateSchemaValue (fun _ => true) (fun r => r) (fun _ => 0) (fun l => l) in
  validate (header_schema (AStrings ["x-key"])) (AStringMap ∅) "request headers" = "" /\
  validate (header_schema (AList [AString "x-key"])) (AStringMap ∅) "request headers" <> "".
Proof. split; vm_compute; congruence. Qed.

(** A required string is rendered to the empty string, which the validation
    against the same schema takes for a missing one. *)
Definition required_schema : any :=
  AMap [("properties", AMap [("name", AMap [("type", AString "string")])]);
        ("required", AList [AString "name"]); ("type", AString "object")].
Lemma required_string_refused :
  renderSchemaValue (fun _ => 0) (fun _ _ => None) (fun _ => "") (fun _ _ => "") required_schema ANil 0%nat
  = Some (AMap [("name", AString "")], 0%nat) /\
  validateSchemaValue (fun _ => true) (fun r => r) (fun _ => 0) (fun l => l) required_schema
    (AMap [("name", AString "")]) "response body" <> "".
Proof. split; vm_compute; congruence. Qed.

(** The widest ranges of integers make the random source panic. *)
Lemma wide_range_panics Draw n : generateIntInRange Draw int64_min int64_max n = None.
Proof. reflexivity. Qed.
End MockSchemas.
