(* ===== verification/MockService.v ===== *)
(** The mock service: [src/backend/internal/mocking] state.go, service.go and the
    decisions of handler.go.

    [state] and [suiteState] are the maps the mutex guards; [loadState],
    [storeState] and [ResetSuiteState] are the critical sections.  A request reads
    the state of its key in one and writes it in another, so other requests can
    come between: [mock_counter].  The random source, the suites, the network and
    the libraries are arguments. *)
From Stdlib Require Import ZArith Lia Ascii.
From S2P Require Import Prelude GoStrings Runes Strconv Suites Values MockTypes Templates MockRequests MockSchemas.
From S2P Require Import ProxyTarget.
Import GoStrings Runes Strconv Values MockTypes Templates MockRequests MockSchemas.

Module MockService.

(** ** The state of the mocks *)
Record Service := mkService {
  state : gmap string (gmap string string);
  suiteState : gmap string (gset string) }.
Definition NewService : Service := mkService ∅ ∅.

Definition defaults_of (config : option MockState) : gmap string string :=
  match config with Some c => State.Defaults c | None => ∅ end.
(** An empty map and a nil one are the same state. *)
Definition loadState (s : Service) (key : string) (config : option MockState) : gmap string string :=
  if blank key then defaults_of config
  else match state s !! key with
       | None => defaults_of config
       | Some current => current ∪ defaults_of config
       end.
Definition storeState (s : Service) (suiteID key : string) (value : gmap string string) : Service :=
  if blank key then s
  else mkService (<[key := value]> (state s))
         (if blank suiteID then suiteState s
          else <[suiteID := {[key]} ∪ default ∅ (suiteState s !! suiteID)]> (suiteState s)).
Definition reset_suite (s : Service) (suiteID : string) : Service :=
  let keys := default ∅ (suiteState s !! suiteID) in
  mkService (base.filter (fun p => p.1 ∉ keys) (state s)) (delete suiteID (suiteState s)).

(** What [s.suites.Get] returns. *)
Inductive GetError := NotFound | OtherError.
Definition ResetSuiteState (Get : string -> GetError + Definition_) (s : Service) (suiteID : string) :
    option GetError * Service :=
  let suiteID := TrimSpace suiteID in
  if bool_decide (suiteID = "") then (None, s)
  else match Get suiteID with
       | inl e => (Some e, s)
       | inr _ => (None, reset_suite s suiteID)
       end.

(** ** Transitions *)
Definition increment_field (field : string) (delta : Z) (m : gmap string string) : gmap string string :=
  <[field := FormatInt (wrap64 (Atoi_value (lookup_string m field) + delta))]> m.
Definition next_state (transition : MockStateTransition) (contextMap : any) (state : gmap string string) :
    gmap string string :=
  let nextState := ((fun value => renderTemplate value contextMap) <$> Transition.Set_ transition) ∪ state in
  let nextState := foldl (fun m field => delete field m) nextState (Transition.Delete transition) in
  map_fold increment_field nextState (Transition.Increment transition).
(** The key under which a transition that applies stores the state. *)
Definition transition_key (config : MockState) (lookupKey exampleName : string) (contextMap : any)
    (transition : MockStateTransition) : option string :=
  if negb (blank (Transition.OnExample transition)) &&
     negb (bool_decide (Transition.OnExample transition = exampleName)) then None
  else
    let key := renderTemplate (FirstNonEmpty [Transition.MutationKeyTemplate transition;
                                              State.MutationKeyTemplate config; lookupKey]) contextMap in
    if blank key then None else Some key.
Fixpoint first_transition (config : MockState) (lookupKey exampleName : string) (contextMap : any)
    (transitions : list MockStateTransition) : option (MockStateTransition * string) :=
  match transitions with
  | [] => None
  | t :: rest => match transition_key config lookupKey exampleName contextMap t with
                 | Some key => Some (t, key)
                 | None => first_transition config lookupKey exampleName contextMap rest
                 end
  end.
Definition parseJSONMap (body : string) : option (list (string * any)) :=
  if blank body then None else match Unmarshal body with Some (AMap payload) => Some payload | _ => None end.
Definition set_headers (headers : http_header) (r : Result) : Result :=
  Result.mk (Result.Status r) (Result.MediaType r) headers (Result.Body r) (Result.Adapter r)
    (Result.Dispatcher r) (Result.ResolverURL r) (Result.RuntimeURL r) (Result.MatchedExample r).
Definition applyStateTransition (s : Service) (config : option MockState) (lookupKey exampleName : string)
    (suite : Definition_) (surface : APISurface) (operation : APIOperation) (snapshot : requestSnapshot)
    (current : gmap string string) (result : Result) : Service * Result :=
  match config with
  | None => (s, result)
  | Some config =>
      let contextMap := buildTemplateContext suite surface operation snapshot (Some current)
                          (parseJSONMap (Result.Body result)) exampleName in
      match first_transition config lookupKey exampleName contextMap (State.Transitions config) with
      | None => (s, result)
      | Some (transition, key) =>
          (storeState s (Suite.ID suite) key (next_state transition contextMap current),
           set_headers (header_set (Result.Headers result) "X-Babelsuite-State-Key" key) result)
      end
  end.

(** ** Lookups *)
Inductive LookupError := SuiteError (e : GetError) | SurfaceNotFound | OperationNotFound.
Definition find_surface (suite : Definition_) (surfaceID : string) : option APISurface :=
  List.find (fun surface => bool_decide (Surface.ID surface = TrimSpace surfaceID)) (Suite.APISurfaces suite).
Fixpoint rest_operation (surface : APISurface) (method requestPath : string) (operations : list APIOperation) :
    option (APIOperation * gmap string string) :=
  match operations with
  | [] => None
  | operation :: rest =>
      if negb (EqualFold (Metadata.Adapter (Operation.MockMetadata operation)) "rest") &&
         negb (EqualFold (Surface.Protocol surface) "REST") then rest_operation surface method requestPath rest
      else if negb (EqualFold (TrimSpace (Operation.Method operation)) (TrimSpace method))
      then rest_operation surface method requestPath rest
      else match matchOperationPath (Operation.Name operation) requestPath with
           | Some params => Some (operation, params)
           | None => rest_operation surface method requestPath rest
           end
  end.
Definition lookupRESTOperation (Get : string -> GetError + Definition_)
    (suiteID surfaceID method requestPath : string) :
    LookupError + (Definition_ * APISurface * APIOperation * gmap string string) :=
  match Get suiteID with
  | inl e => inl (SuiteError e)
  | inr suite =>
      match find_surface suite surfaceID with
      | None => inl SurfaceNotFound
      | Some surface =>
          match rest_operation surface method requestPath (Surface.Operations surface) with
          | None => inl OperationNotFound
          | Some (operation, params) => inr (suite, surface, operation, params)
          end
      end
  end.
Definition findOperationByID (suite : Definition_) (surfaceID operationID : string) :
    LookupError + (APISurface * APIOperation) :=
  match find_surface suite surfaceID with
  | None => inl SurfaceNotFound
  | Some surface =>
      match List.find (fun o => bool_decide (Operation.ID o = TrimSpace operationID)) (Surface.Operations surface) with
      | None => inl OperationNotFound
      | Some operation => inr (surface, operation)
      end
  end.

(** ** Resolution *)

(** An answer, or an error of the server (a cancelled delay, a request that could
    not be made). *)
Inductive response := Answer (r : Result) | Failed.
Section Resolve.
Context (MatchPattern : string -> string -> option bool) (IsPrint : Z -> bool) (ToUpperRune : Z -> Z).
Context (overflow_int : float64 -> Z) (range_order : list (string * any) -> list (string * any)).
Context (DecodeDocument parseCUE : string -> option (list schemaBackedExample)).
Context (Draw : nat -> Z -> option Z) (NewString : nat -> string) (Format : nat -> string -> string).
Context (ip_literal : string -> bool) (LookupHost : string -> option (list string)).
(** The text of an error, and what the HTTP client does with a method, a
    target, headers and a body: [None] when the request cannot be made. *)
Variable error_text : ProxyTarget.ProxyError -> string.
Variable Do : string -> string -> http_header -> string -> option (string + Z * http_header * string).
Variable Get : string -> GetError + Definition_.
(** The order of the request's headers, and whether the request is cancelled
    before its delay has passed. *)
Variable header_entries : http_header -> list (string * list string).
Variable cancelled : bool.

#[local] Notation "x <- m ;; k" := (bind m (fun x => k)) (at level 100, m at next level, right associativity).
Notation build_schema := (buildSchemaResult overflow_int Draw NewString Format).

Definition proxyFallback (request : Request) (fallback : MockFallback) (dispatcher resolverURL runtimeURL : string) :
    response :=
  let target := TrimSpace (Fallback.ProxyURL fallback) in
  let gateway text := Answer (errorResult 502 "application/json" text) in
  if bool_decide (target = "") then gateway (jsonErrorBody "Fallback proxy URL is not configured.")
  else match ProxyTarget.validateProxyTarget ip_literal LookupHost target with
  | Some e => gateway (jsonErrorBody (error_text e))
  | None =>
      match readRequestBody (Request.Body request) with
      | None => Answer (errorResult 400 "application/json"
                  (jsonErrorBody "Could not replay request body for fallback proxy."))
      | Some (body, _, _) =>
          match Do (Request.Method request) target (Request.Header request) body with
          | None => Failed
          | Some (inl text) => gateway (jsonErrorBody text)
          | Some (inr (status, headers, responseBody)) =>
              let cut := if Z.of_nat (String.length responseBody) <=? maxMockRequestBodyBytes then responseBody
                         else slice_to responseBody maxMockRequestBodyBytes in
              Answer (Result.mk status (header_get headers "Content-Type")
                (header_set (header_set headers "X-Babelsuite-Fallback" "proxy")
                   "X-Babelsuite-Runtime-Url" runtimeURL)
                cut "proxy" dispatcher resolverURL runtimeURL "")
          end
      end
  end.

Definition template_headers (contextMap : any) (headers : list Header.Header) : http_header :=
  foldl (fun h header => header_set h (Header.Name header) (renderTemplate (Header.Value header) contextMap))
    ∅ headers.
(** The answer of an example (or of a fallback without one). *)
Definition template_result (operation : APIOperation) (snapshot : requestSnapshot) (contextMap : any)
    (status : string) (otherwise : Z) (mediaType : string) (inferred : string -> string)
    (headers : list Header.Header) (body adapter matched : string) : Result :=
  let metadata := Operation.MockMetadata operation in
  let rendered := renderTemplate body contextMap in
  Result.mk (parseStatusCode status otherwise) (FirstNonEmpty [mediaType; inferredMediaType (inferred rendered)])
    (applyRecopiedConstraintHeaders (template_headers contextMap headers) (Metadata.ParameterConstraints metadata)
       snapshot)
    rendered adapter (operation_dispatcher operation) (Metadata.ResolverURL metadata)
    (Metadata.RuntimeURL metadata) matched.

Definition resolveFallback (suite : Definition_) (surface : APISurface) (operation : APIOperation)
    (snapshot : requestSnapshot) (current : gmap string string) (request : Request)
    (schemaExamples : list schemaBackedExample) : drawing response :=
  let metadata := Operation.MockMetadata operation in
  match Metadata.Fallback metadata with
  | None => pure (Answer (errorResult 404 "application/json"
              (jsonErrorBody "No matching mock exchange was found.")))
  | Some fallback =>
      let mode := ToLower (TrimSpace (Fallback.Mode fallback)) in
      if bool_decide (mode = "example") then
        match List.find (fun e => bool_decide (Schema.Name e = Fallback.ExampleName fallback)) schemaExamples with
        | Some example =>
            result <- build_schema suite surface operation snapshot (Some current) (Metadata.Adapter metadata) example ;;
            pure (Answer result)
        | None =>
            match List.find (fun e => bool_decide (Exchange.Name e = Fallback.ExampleName fallback))
                    (Operation.Exchanges operation) with
            | Some example =>
                let contextMap := buildTemplateContext suite surface operation snapshot (Some current) None
                                    (Exchange.Name example) in
                pure (Answer (template_result operation snapshot contextMap (Exchange.ResponseStatus example) 200
                  (Exchange.ResponseMediaType example) (fun _ => Exchange.ResponseBody example)
                  (Exchange.ResponseHeaders example) (Exchange.ResponseBody example) (Metadata.Adapter metadata)
                  (Exchange.Name example)))
            | None => pure (Answer (errorResult 404 "application/json"
                        (jsonErrorBody "Fallback example was not found.")))
            end
        end
      else if bool_decide (mode = "proxy") then
        pure (proxyFallback request fallback (operation_dispatcher operation) (Metadata.ResolverURL metadata)
                (Metadata.RuntimeURL metadata))
      else
        let contextMap := buildTemplateContext suite surface operation snapshot (Some current) None "" in
        pure (Answer (template_result operation snapshot contextMap (Fallback.Status fallback) 400
          (Fallback.MediaType fallback) (fun _ => Fallback.Body fallback) (Fallback.Headers fallback)
          (Fallback.Body fallback) (Metadata.Adapter metadata) ""))
  end.

Definition snapshot_of (request : Request) (pathParams : gmap string string) (body : string * any * option (list (string * any))) :
    requestSnapshot :=
  let '(raw, json, object) := body in
  Snapshot.mk (Request.Method request) (flattenValues (Request.Query request))
    (flattenHeader (header_entries (Request.Header request))) pathParams raw json object.
Definition answer (operation : APIOperation) (adapter : string) (r : response) : response :=
  match r with Answer r => Answer (withOperationMetadata r operation adapter) | Failed => Failed end.
(** The delay before an answer. *)
Definition delayed (operation : APIOperation) : bool :=
  (0 <? Metadata.DelayMillis (Operation.MockMetadata operation)) && cancelled.

Definition resolveInner (s : Service) (suite : Definition_) (surface : APISurface) (operation : APIOperation)
    (pathParams : gmap string string) (request : Request) (adapter : string) : drawing (Service * response) :=
  let metadata := Operation.MockMetadata operation in
  match readRequestBody (Request.Body request) with
  | None => pure (s, answer operation adapter (Answer (errorResult 400 "application/json"
              (jsonErrorBody "Could not read request body."))))
  | Some body =>
      let snapshot := snapshot_of request pathParams body in
      match validateConstraints MatchPattern IsPrint (Metadata.ParameterConstraints metadata) snapshot with
      | Panic => fun _ => None
      | Reject result => pure (s, answer operation adapter (Answer result))
      | Pass =>
          let stateKey := match Metadata.State metadata with
                          | Some config => renderTemplate (State.LookupKeyTemplate config)
                              (buildTemplateContext suite surface operation snapshot None None "")
                          | None => ""
                          end in
          let current := loadState s stateKey (Metadata.State metadata) in
          let schemaExamples := loadSchemaExamples DecodeDocument parseCUE suite operation in
          let contextMap := buildTemplateContext suite surface operation snapshot (Some current) None "" in
          match matchSchemaExample IsPrint ToUpperRune overflow_int range_order schemaExamples snapshot with
          | inl result => pure (s, answer operation adapter (Answer result))
          | inr (Some example) =>
              if delayed operation then pure (s, Failed)
              else
                result <- build_schema suite surface operation snapshot (Some current) adapter example ;;
                let '(s', result) := applyStateTransition s (Metadata.State metadata) stateKey (Schema.Name example)
                                       suite surface operation snapshot current result in
                pure (s', Answer result)
          | inr None =>
              match matchExample operation snapshot with
              | None =>
                  r <- resolveFallback suite surface operation snapshot current request schemaExamples ;;
                  pure (s, answer operation adapter r)
              | Some example =>
                  if delayed operation then pure (s, Failed)
                  else
                    let result := template_result operation snapshot contextMap (Exchange.ResponseStatus example) 200
                      (Exchange.ResponseMediaType example) (fun rendered => rendered)
                      (Exchange.ResponseHeaders example) (Exchange.ResponseBody example) adapter
                      (Exchange.Name example) in
                    let '(s', result) := applyStateTransition s (Metadata.State metadata) stateKey
                      (Exchange.Name example) suite surface operation snapshot current result in
                    pure (s', Answer result)
              end
          end
      end
  end.

(** ** The entry points *)
Definition failed_lookup (s : Service) (e : LookupError) : drawing (Service * (LookupError + response)) :=
  pure (s, inl e).
Definition resolved (m : drawing (Service * response)) : drawing (Service * (LookupError + response)) :=
  p <- m ;; pure (p.1, inr p.2).
Definition InvokeREST (s : Service) (suiteID surfaceID requestPath : string) (request : Request) :
    drawing (Service * (LookupError + response)) :=
  match lookupRESTOperation Get suiteID surfaceID (Request.Method request) requestPath with
  | inl e => failed_lookup s e
  | inr (suite, surface, operation, params) =>
      resolved (resolveInner s suite surface operation params request "rest")
  end.
Definition find_operation (suiteID surfaceID operationID : string) :
    LookupError + (Definition_ * APISurface * APIOperation) :=
  match Get suiteID with
  | inl e => inl (SuiteError e)
  | inr suite =>
      match findOperationByID suite surfaceID operationID with
      | inl e => inl e
      | inr (surface, operation) => inr (suite, surface, operation)
      end
  end.
Definition InvokeAdapter (s : Service) (suiteID surfaceID operationID adapter : string) (request : Request) :
    drawing (Service * (LookupError + response)) :=
  match find_operation suiteID surfaceID operationID with
  | inl e => failed_lookup s e
  | inr (suite, surface, operation) =>
      resolved (resolveInner s suite surface operation ∅ request (ToLower (TrimSpace adapter)))
  end.
Definition ResolveOperation (s : Service) (suiteID surfaceID operationID : string) (request : Request) :
    drawing (Service * (LookupError + response)) :=
  match find_operation suiteID surfaceID operationID with
  | inl e => failed_lookup s e
  | inr (suite, surface, operation) =>
      let adapter := ToLower (TrimSpace (Metadata.Adapter (Operation.MockMetadata operation))) in
      let originalPath := resolverOriginalPath ip_literal request operation in
      let pathParams := if EqualFold adapter "rest"
                        then default ∅ (matchOperationPath (Operation.Name operation) originalPath) else ∅ in
      resolved (resolveInner s suite surface operation pathParams
                  (cloneResolverRequest request operation originalPath) adapter)
  end.
End Resolve.

(** ** The handler *)

(** The bearer token of a request, against the secret of the handler. *)
Definition NewHandler (secret : string) : string := TrimSpace secret.
Definition mock_authorized (secret authorization : string) : bool :=
  bool_decide (secret = "") ||
  bool_decide (TrimSpace (TrimPrefix (TrimSpace authorization) "Bearer ") = secret).
(** [strings.SplitN(s, "/", 3)], when it has three parts. *)
Definition split3 (s : string) : option (string * string * string) :=
  match Split s "/" with a :: b :: c :: rest => Some (a, b, Join (c :: rest) "/") | _ => None end.
Definition mock_route (prefix path : string) : option (string * string * string) :=
  split3 (Trim (TrimPrefix path prefix) "/").
Definition lookup_status (e : LookupError) : Z :=
  match e with
  | SuiteError NotFound | SurfaceNotFound | OperationNotFound => 404
  | SuiteError OtherError => 500
  end.
(** The headers of a written result. *)
Definition write_header (name value : string) (h : http_header) : http_header :=
  if blank value then h else header_set h name value.
Definition writeResult (r : Result) : Z * http_header * string :=
  (Result.Status r,
   write_header "X-Babelsuite-Mock-Example" (Result.MatchedExample r)
     (write_header "X-Babelsuite-Resolver-Url" (Result.ResolverURL r)
        (write_header "X-Babelsuite-Dispatcher" (Result.Dispatcher r)
           (write_header "X-Babelsuite-Mock-Adapter" (Result.Adapter r)
              (write_header "X-Babelsuite-Runtime-Url" (Result.RuntimeURL r)
                 (write_header "Content-Type" (Result.MediaType r) (Result.Headers r)))))),
   Result.Body r).

(** ** Resetting the state of a suite *)

(** What the requests and the resets do to the guarded maps, in any order. *)
Inductive state_op := Store (suiteID key : string) (value : gmap string string) | Reset (suiteID : string).
Definition apply_operation (s : Service) (o : state_op) : Service :=
  match o with Store suiteID key value => storeState s suiteID key value | Reset suiteID => reset_suite s suiteID end.
Definition run (ops : list state_op) : Service := foldl apply_operation NewService ops.
(** Every suite has an id. *)
Definition operation_ok (o : state_op) : Prop :=
  match o with Store suiteID _ _ => blank suiteID = false | Reset _ => True end.
Definition keys_of (s : Service) (suiteID : string) : gset string := default ∅ (suiteState s !! suiteID).

Lemma keys_of_store s suiteID key value b : blank key = false -> blank suiteID = false ->
  keys_of (storeState s suiteID key value) b =
    if bool_decide (b = suiteID) then {[key]} ∪ keys_of s suiteID else keys_of s b.
Proof.
  intros Hk Hs. unfold keys_of, storeState. rewrite Hk, Hs. cbn [suiteState]. case_bool_decide as H.
  - subst. by rewrite lookup_insert_eq.
  - by rewrite lookup_insert_ne.
Qed.
Lemma keys_of_reset s suiteID b :
  keys_of (reset_suite s suiteID) b = if bool_decide (b = suiteID) then ∅ else keys_of s b.
Proof.
  unfold keys_of, reset_suite. cbn [suiteState]. case_bool_decide as H.
  - subst. by rewrite lookup_delete_eq.
  - by rewrite lookup_delete_ne.
Qed.
Lemma lookup_reset s suiteID key : state (reset_suite s suiteID) !! key =
  if bool_decide (key ∈ keys_of s suiteID) then None else state s !! key.
Proof.
  unfold reset_suite, keys_of. cbn [state]. case_bool_decide as H.
  - apply map_lookup_filter_None. right. intros v _. cbn. tauto.
  - destruct (state s !! key) as [v|] eqn:Hv.
    + apply map_lookup_filter_Some. by split.
    + apply map_lookup_filter_None. by left.
Qed.

(** A stored state belongs to a suite that stored it, and a suite owns only keys
    it stored. *)
Definition mock_inv (ops : list state_op) (s : Service) : Prop :=
  (forall key v, state s !! key = Some v -> exists b, key ∈ keys_of s b /\ Store b key v ∈ ops) /\
  (forall b key, key ∈ keys_of s b -> exists v, Store b key v ∈ ops).
Lemma run_inv ops : Forall operation_ok ops -> mock_inv ops (run ops).
Proof.
  induction ops as [|o ops IH] using rev_ind; intros Hok.
  { split; [intros key v H; cbn in H; by rewrite lookup_empty in H|].
    intros b key H. unfold keys_of, run, NewService in H. cbn in H. rewrite lookup_empty in H. by apply not_elem_of_empty in H. }
  apply Forall_app in Hok as [Hok Ho]. inversion_clear Ho as [|? ? Ho' _]. destruct (IH Hok) as [H1 H2].
  unfold run. rewrite foldl_app. cbn [foldl]. fold (run ops). destruct o as [b k w|b]; cbn [apply_operation].
  - cbn in Ho'. destruct (blank k) eqn:Hk.
    { assert (storeState (run ops) b k w = run ops) as -> by (unfold storeState; by rewrite Hk).
      split; [intros key v Hv|intros b' key Hb'].
      - destruct (H1 key v Hv) as (b' & ? & ?). exists b'. rewrite elem_of_app. auto.
      - destruct (H2 b' key Hb') as (v & ?). exists v. rewrite elem_of_app. auto. }
    split.
    + intros key v. unfold storeState at 1. rewrite Hk. cbn [state]. destruct (decide (key = k)) as [->|Hne].
      * rewrite lookup_insert_eq. intros [= ->]. exists b. rewrite keys_of_store, bool_decide_eq_true_2 by done.
        split; [set_solver|]. rewrite elem_of_app. right. by left.
      * rewrite lookup_insert_ne by done. intros Hv. destruct (H1 key v Hv) as (b' & Hb' & Hin). exists b'.
        rewrite keys_of_store by done. split; [case_bool_decide; subst; set_solver|]. rewrite elem_of_app. by left.
    + intros b' key Hb'. rewrite keys_of_store in Hb' by done. case_bool_decide as Hbb.
      * subst b'. apply elem_of_union in Hb' as [->%elem_of_singleton|Hb'].
        -- exists w. rewrite elem_of_app. right. by left.
        -- destruct (H2 b key Hb') as (v & ?). exists v. rewrite elem_of_app. by left.
      * destruct (H2 b' key Hb') as (v & ?). exists v. rewrite elem_of_app. by left.
  - split.
    + intros key v. rewrite lookup_reset. case_bool_decide as Hin; [done|]. intros Hv.
      destruct (H1 key v Hv) as (b' & Hb' & Hst). exists b'. rewrite keys_of_reset, bool_decide_eq_false_2 by congruence.
      rewrite elem_of_app. auto.
    + intros b' key. rewrite keys_of_reset. case_bool_decide; [set_solver|]. intros Hb'.
      destruct (H2 b' key Hb') as (v & ?). exists v. rewrite elem_of_app. by left.
Qed.

(** Resetting the mocks of a suite.  After any sequence of requests and
    resets, in any interleaving of their critical sections, a reset of a suite
    that exists leaves no state the suite alone has stored: what is still stored
    was stored by another suite, the next request of the suite sees the defaults
    of its mock, and the keys the suite never stored keep their state.  The
    reverse also holds: a key two suites have stored is lost to both, because the
    state is not kept per suite. *)
Theorem mock_reset_restores Get ops suiteID suite (Hok : Forall operation_ok ops)
    (Hid : TrimSpace suiteID <> "") (Hget : Get (TrimSpace suiteID) = inr suite) :
  let suiteID := TrimSpace suiteID in
  exists s', ResetSuiteState Get (run ops) suiteID = (None, s') /\
  (forall key config, (forall b v, Store b key v ∈ ops -> b = suiteID) ->
     loadState s' key config = defaults_of config) /\
  (forall key v, state s' !! key = Some v -> exists b, b <> suiteID /\ Store b key v ∈ ops) /\
  (forall key, (forall v, Store suiteID key v ∉ ops) -> state s' !! key = state (run ops) !! key) /\
  (forall key, key ∈ keys_of (run ops) suiteID -> state s' !! key = None).
Proof.
  intros id. exists (reset_suite (run ops) id). destruct (run_inv ops Hok) as [H1 H2].
  assert (forall key v, state (reset_suite (run ops) id) !! key = Some v ->
    exists b, b <> id /\ Store b key v ∈ ops) as Hrest.
  { intros key v. rewrite lookup_reset. case_bool_decide as Hin; [done|]. intros Hv.
    destruct (H1 key v Hv) as (b & Hb & Hst). exists b. split; [congruence|done]. }
  split_and!.
  - unfold ResetSuiteState. unfold id. rewrite TrimSpace_idemp, bool_decide_eq_false_2, Hget by done. done.
  - intros key config Honly. unfold loadState. destruct (blank key); [done|].
    destruct (state (reset_suite (run ops) id) !! key) as [v|] eqn:Hv; [|done].
    destruct (Hrest key v Hv) as (b & Hne & Hst). by apply Honly in Hst.
  - exact Hrest.
  - intros key Hnot. rewrite lookup_reset. case_bool_decide as Hin; [|done].
    destruct (H2 id key Hin) as (v & Hv). by apply Hnot in Hv.
  - intros key Hin. by rewrite lookup_reset, bool_decide_eq_true_2.
Qed.
Definition sample_suite : Definition_ := Suite.mk "shop" "Shop" "" [] [].
Lemma mock_reset_restores_witness :
  let ops := [Store "shop" "cart" {["n" := "1"]}; Store "bank" "cart" {["n" := "7"]}; Store "bank" "account" ∅] in
  exists s', ResetSuiteState (fun _ => inr sample_suite) (run ops) " shop" = (None, s') /\
    state s' !! "cart" = None /\ state s' !! "account" = state (run ops) !! "account".
Proof.
  intros ops. assert (Forall operation_ok ops) as Hok by (repeat constructor).
  destruct (mock_reset_restores (fun _ => inr sample_suite) ops " shop" sample_suite Hok ltac:(vm_compute; congruence)
    eq_refl) as (s' & H1 & _ & _ & H4 & H5).
  exists s'. split; [exact H1|]. split.
  - apply H5. apply (bool_decide_unpack _). vm_compute. exact I.
  - apply H4. intros v Hv. unfold ops in Hv.
    repeat (apply elem_of_cons in Hv as [Hv|Hv]; [vm_compute in Hv; congruence|]). by apply not_elem_of_nil in Hv.
Defined.

(** ** Counting requests *)
Lemma ParseInt_value text n : ParseInt text = Some n -> Atoi_value text = n.
Proof.
  unfold ParseInt, Atoi_value. destruct (split_sign (of_string text)) as [neg l]. destruct l as [|c l]; [done|].
  destruct (digits_value 0 (c :: l)) as [v|]; [|done]. cbn. destruct (_ && _) eqn:H; [|done]. bool_to_prop.
  intros [= <-]. lia.
Qed.
Lemma Atoi_range text : int64_min <= Atoi_value text <= int64_max.
Proof.
  unfold Atoi_value. destruct (split_sign _) as [neg [|c l]]; [done|]. destruct (digits_value 0 (c :: l)) as [v|]; [|done].
  unfold int64_min, int64_max. lia.
Qed.
Lemma Atoi_FormatInt n : int64_min <= n <= int64_max -> Atoi_value (FormatInt n) = n.
Proof. intros H. by apply ParseInt_value, ParseInt_FormatInt. Qed.
Lemma increments_lookup inc m f : map_fold increment_field m inc !! f =
  match inc !! f with
  | Some d => Some (FormatInt (wrap64 (Atoi_value (lookup_string m f) + d)))
  | None => m !! f
  end.
Proof.
  revert f. apply (map_fold_weak_ind (fun r inc => forall f, r !! f =
    match inc !! f with
    | Some d => Some (FormatInt (wrap64 (Atoi_value (lookup_string m f) + d)))
    | None => m !! f
    end)); [intros f; by rewrite lookup_empty|].
  intros i d inc' r Hi IH f. unfold increment_field. destruct (decide (f = i)) as [->|Hne].
  - rewrite !lookup_insert_eq. unfold lookup_string. by rewrite IH, Hi.
  - by rewrite !lookup_insert_ne by done.
Qed.

(** A mock whose only transition counts: it sets and deletes nothing, and keeps
    its state under the key it was looked up with. *)
Definition counting (config : MockState) (increments : gmap string Z) : Prop :=
  blank (State.MutationKeyTemplate config) = true /\
  exists t, State.Transitions config = [t] /\ blank (Transition.OnExample t) = true /\
    blank (Transition.MutationKeyTemplate t) = true /\ Transition.Set_ t = ∅ /\ Transition.Delete t = [] /\
    Transition.Increment t = increments.
Definition plain_key (key : string) : Prop :=
  blank key = false /\ Forall (fun c => code c <> 123) (of_string key).

Section Counting.
Context (suite : Definition_) (surface : APISurface) (op : APIOperation) (config : MockState)
  (increments : gmap string Z) (key exampleName : string).
(** The two critical sections of a request: what it reads, and what it
    writes. *)
Definition observed (s : Service) : gmap string string := loadState s key (Some config).
Definition write (s : Service) (current : gmap string string) (r : requestSnapshot * Result) : Service :=
  (applyStateTransition s (Some config) key exampleName suite surface op r.1 current r.2).1.
(** The number a field holds, as the next increment reads it. *)
Definition count (s : Service) (f : string) : Z := Atoi_value (lookup_string (observed s) f).

Hypothesis Hconfig : counting config increments.
Hypothesis Hkey : plain_key key.

Lemma write_count s current r f d : increments !! f = Some d ->
  lookup_string (observed (write s current r)) f =
    FormatInt (wrap64 (Atoi_value (lookup_string current f) + d)).
Proof.
  destruct Hconfig as (Hm & t & Ht & Hon & Hmt & Hset & Hdel & Hinc), Hkey as [Hb Hp]. intros Hd.
  unfold write, applyStateTransition. rewrite Ht. cbn [first_transition]. unfold transition_key. rewrite Hon. cbn [negb andb].
  assert (FirstNonEmpty [Transition.MutationKeyTemplate t; State.MutationKeyTemplate config; key] = key) as ->.
  { cbn [FirstNonEmpty]. by rewrite Hmt, Hm, Hb. }
  set (ctx := buildTemplateContext _ _ _ _ _ _ _).
  assert (renderTemplate key ctx = key) as ->.
  { unfold renderTemplate. rewrite Hb. rewrite <-(app_nil_r (of_string key)), render_text by done.
    cbn [render_bytes]. by rewrite app_nil_r, to_of. }
  rewrite Hb. cbn [fst]. unfold observed, loadState. rewrite Hb. unfold storeState. rewrite Hb. cbn [state].
  rewrite lookup_insert_eq. unfold lookup_string at 1. rewrite lookup_union.
  unfold next_state. rewrite Hset, Hdel, Hinc, fmap_empty, map_empty_union. cbn [foldl].
  rewrite increments_lookup, Hd. by destruct (defaults_of (Some config) !! f).
Qed.
Lemma count_range s current r f d : increments !! f = Some d ->
  count (write s current r) f = wrap64 (Atoi_value (lookup_string current f) + d).
Proof. intros Hd. unfold count. rewrite (write_count s current r f d Hd). apply Atoi_FormatInt, wrap64_range. Qed.
End Counting.

(** The counters of a mock.  Requests that come one after the other add up:
    after n of them every counted field holds its first value and n times its
    increment, in 64-bit arithmetic.  Requests that overlap do not: when one reads
    the state before the other has written it, their two increments count as one,
    because the state is read and written in separate critical sections. *)
Theorem mock_counter suite surface op config increments key exampleName s requests f d
    (Hconfig : counting config increments) (Hkey : plain_key key) (Hf : increments !! f = Some d) :
  let request s r := write suite surface op config key exampleName s (observed config key s) r in
  count config key (foldl request s requests) f =
    wrap64 (count config key s f + Z.of_nat (length requests) * d) /\
  (forall r1 r2, let s1 := write suite surface op config key exampleName s (observed config key s) r1 in
     count config key (write suite surface op config key exampleName s1 (observed config key s) r2) f =
     wrap64 (count config key s f + d)).
Proof.
  intros request. split.
  - assert (forall rs s0, wrap64 (count config key (foldl request s0 rs) f) =
      wrap64 (count config key s0 f + Z.of_nat (length rs) * d)) as Hall.
    { induction rs as [|r rs IH]; intros s0; [cbn; f_equal; lia|]. cbn [foldl length]. rewrite IH.
      unfold request at 1. rewrite (count_range _ _ _ _ _ _ _ Hconfig Hkey _ _ _ f d Hf).
      fold (count config key s0 f). unfold wrap64.
      replace (_ + Z.of_nat (S (length rs)) * d + 2 ^ 63) with
        (count config key s0 f + d + 2 ^ 63 + Z.of_nat (length rs) * d) by lia.
      replace ((count config key s0 f + d + 2 ^ 63) mod 2 ^ 64 - 2 ^ 63 + Z.of_nat (length rs) * d + 2 ^ 63) with
        ((count config key s0 f + d + 2 ^ 63) mod 2 ^ 64 + Z.of_nat (length rs) * d) by lia.
      by rewrite Zplus_mod_idemp_l. }
    rewrite <-Hall. symmetry. apply wrap64_small, Atoi_range.
  - intros r1 r2 s1. by rewrite (count_range _ _ _ _ _ _ _ Hconfig Hkey _ _ _ f d Hf).
Qed.
Definition counting_config : MockState :=
  State.mk "{{request.query.id}}" "" {["n" := "5"]} [Transition.mk "" "" ∅ [] {["n" := 2]}].
Lemma mock_counter_witness :
  let empty_request := (Snapshot.mk "GET" ∅ ∅ ∅ "" ANil None, errorResult 200 "" "") in
  let op := Operation.mk "o" "GET" "/o" "" "" "" (Metadata.mk "rest" "" 0 [] None None "" "") [] in
  let surface := Surface.mk "api" "API" "REST" [op] in
  let request s r := write sample_suite surface op counting_config "k" "" s (observed counting_config "k" s) r in
  count counting_config "k" (foldl request NewService [empty_request; empty_request; empty_request]) "n" = 11.
Proof.
  intros empty_request op surface request.
  assert (counting counting_config {["n" := 2]}) as Hc by (split; [done|]; by eexists).
  assert (plain_key "k") as Hk.
  { split; [reflexivity|]. constructor; [vm_compute; congruence|constructor]. }
  etrans; [exact (proj1 (mock_counter sample_suite surface op counting_config {["n" := 2]} "k" "" NewService
    [empty_request; empty_request; empty_request] "n" 2 Hc Hk (lookup_insert_eq _ _ _)))|].
  vm_compute. reflexivity.
Defined.

(** The key the state was read with is a template of its own: a request that
    puts an expression into it reads the state under one key and writes it under
    another. *)
Lemma key_rendered_twice :
  let injected := "{{'x'}}" in
  let snapshot := Snapshot.mk "GET" {["id" := injected]} ∅ ∅ "" ANil None in
  let op := Operation.mk "o" "GET" "/o" "" "" "" (Metadata.mk "rest" "" 0 [] None None "" "") [] in
  let surface := Surface.mk "api" "API" "REST" [op] in
  let ctx := buildTemplateContext sample_suite surface op snapshot None None "" in
  let key := renderTemplate (State.LookupKeyTemplate counting_config) ctx in
  let s := (applyStateTransition NewService (Some counting_config) key "" sample_suite surface op snapshot
              (loadState NewService key (Some counting_config)) (errorResult 200 "" "")).1 in
  key = injected /\ state s !! key = None /\ state s !! "x" = Some {["n" := "7"]}.
Proof. vm_compute. split_and!; reflexivity. Qed.
End MockService.
