(* ===== verification/MockPreviews.v ===== *)
(** Previews of exchanges: [src/backend/internal/mocking/preview.go].

    A preview renders an example for a request made up from its conditions.  The
    random draws, the libraries and the documents are arguments, as in
    MockService. *)
From Stdlib Require Import ZArith Lia Ascii SpecFloat.
From S2P Require Import Prelude GoStrings Runes Strconv Url Suites Values MockTypes Templates MockRequests MockSchemas.
From S2P Require Import MockService.
Import GoStrings Runes Strconv Values MockTypes Templates MockRequests MockSchemas.

Module MockPreviews.

(** ** url.ParseQuery; parts that are malformed are left out *)
Definition query_part (values : gmap string (list string)) (part : string) : gmap string (list string) :=
  if bool_decide (part = "") || Contains part ";" then values
  else
    let '(key, value, _) := Cut part "=" in
    match Url.unescape Url.encodeQuery (of_string key), Url.unescape Url.encodeQuery (of_string value) with
    | Some k, Some v => <[to_string k := default [] (values !! to_string k) ++ [to_string v]]> values
    | _, _ => values
    end.
Definition ParseQuery (raw : string) : gmap string (list string) := foldl query_part ∅ (Split raw "&").

(** ** The request of a preview *)

(** The nested maps are made on the way; the last segment is set unless it is
    empty. *)
Fixpoint set_body_path (segments : list string) (value : string) (body : list (string * any)) : list (string * any) :=
  match segments with
  | [] => body
  | segment :: rest =>
      if bool_decide (segment = "") then set_body_path rest value body
      else match rest with
           | [] => put segment (AString value) body
           | _ =>
               let next := match get segment body with Some (AMap entries) => entries | _ => [] end in
               put segment (AMap (set_body_path rest value next)) body
           end
  end.
Definition setPreviewBodyValue (body : option (list (string * any))) (path value : string) : list (string * any) :=
  set_body_path (Split (TrimSpace path) ".") value (default [] body).

Definition preview_header (headers : gmap string string) (h : Header.Header) : gmap string string :=
  if blank (Header.Name h) then headers else <[ToLower (Header.Name h) := Header.Value h]> headers.
Definition preview_condition (snapshot : requestSnapshot) (condition : MatchCondition) : requestSnapshot :=
  let '(Snapshot.mk method query headers path raw json object) := snapshot in
  let param := Condition.Param condition in
  let value := Condition.Value condition in
  let from := location (Condition.From condition) in
  if bool_decide (from = "path") then Snapshot.mk method query headers (<[param := value]> path) raw json object
  else if bool_decide (from = "header") then
    Snapshot.mk method query (<[ToLower param := value]> headers) path raw json object
  else if bool_decide (from = "body") then
    let object := setPreviewBodyValue object param value in
    Snapshot.mk method query headers path raw (AMap object) (Some object)
  else Snapshot.mk method (<[param := value]> query) headers path raw json object.
Definition previewRequestSnapshot (ip_literal : string -> bool) (operation : APIOperation)
    (exchange : ExchangeExample) : requestSnapshot :=
  let '(query, path) :=
    match Url.Parse ip_literal (TrimSpace (Operation.MockURL operation)) with
    | Some u => (flattenValues (ParseQuery (Url.RawQuery u)),
                 default ∅ (matchOperationPath (Operation.Name operation) (Url.Path u)))
    | None => (∅, ∅)
    end in
  let headers := foldl preview_header ∅ (Exchange.RequestHeaders exchange) in
  let raw := Exchange.RequestBody exchange in
  let '(json, object) :=
    if blank raw then (ANil, None)
    else match Unmarshal raw with
         | Some v => (v, match v with AMap entries => Some entries | _ => None end)
         | None => (AString (TrimSpace raw), None)
         end in
  foldl preview_condition
    (Snapshot.mk (TrimSpace (Operation.Method operation)) query headers path raw json object)
    (Exchange.When exchange).
Definition previewState (config : option MockState) : option (gmap string string) :=
  match config with
  | Some c => if bool_decide (State.Defaults c = ∅) then None else Some (State.Defaults c)
  | None => None
  end.
Definition renderPreviewHeaders (headers : list Header.Header) (contextMap : any) : list Header.Header :=
  (fun h => Header.mk (Header.Name h) (renderTemplate (Header.Value h) contextMap)) <$> headers.
(** The headers by name, the values of one joined. *)
Definition previewResponseHeaders (headers : http_header) : list Header.Header :=
  omap (fun p => match p.2 with [] => None | values => Some (Header.mk p.1 (Join values ", ")) end)
    (foldr (fun p l => put p.1 p.2 l) [] (map_to_list headers)).

Section Previews.
Context (overflow_int : float64 -> Z) (DecodeDocument parseCUE : string -> option (list schemaBackedExample)).
Context (Draw : nat -> Z -> option Z) (NewString : nat -> string) (Format : nat -> string -> string).
Context (ip_literal : string -> bool).
#[local] Notation "x <- m ;; k" := (bind m (fun x => k)) (at level 100, m at next level, right associativity).

Definition with_response (exchange : ExchangeExample) (mediaType : string) (headers : list Header.Header)
    (body : string) : ExchangeExample :=
  Exchange.mk (Exchange.Name exchange) (Exchange.When exchange) (Exchange.RequestHeaders exchange)
    (Exchange.RequestBody exchange) (Exchange.ResponseStatus exchange) mediaType headers body.
Definition PreviewExchange (suite : Definition_) (surface : APISurface) (operation : APIOperation)
    (exchange : ExchangeExample) : drawing ExchangeExample :=
  let metadata := Operation.MockMetadata operation in
  let snapshot := previewRequestSnapshot ip_literal operation exchange in
  let state := previewState (Metadata.State metadata) in
  match List.find (fun e => bool_decide (Schema.Name e = Exchange.Name exchange))
          (loadSchemaExamples DecodeDocument parseCUE suite operation) with
  | Some example =>
      result <- buildSchemaResult overflow_int Draw NewString Format suite surface operation snapshot state
                  (Metadata.Adapter metadata) example ;;
      pure (with_response exchange
              (FirstNonEmpty [Result.MediaType result; Exchange.ResponseMediaType exchange])
              (previewResponseHeaders (Result.Headers result)) (Result.Body result))
  | None =>
      let contextMap := buildTemplateContext suite surface operation snapshot state None (Exchange.Name exchange) in
      let body := renderTemplate (Exchange.ResponseBody exchange) contextMap in
      pure (with_response exchange
              (FirstNonEmpty [Exchange.ResponseMediaType exchange; inferredMediaType body])
              (renderPreviewHeaders (Exchange.ResponseHeaders exchange) contextMap) body)
  end.

Definition with_exchanges (operation : APIOperation) (exchanges : list ExchangeExample) : APIOperation :=
  Operation.mk (Operation.ID operation) (Operation.Method operation) (Operation.Name operation)
    (Operation.MockPath operation) (Operation.MockURL operation) (Operation.Dispatcher operation)
    (Operation.MockMetadata operation) exchanges.
Definition preview_operation (suite : Definition_) (surface : APISurface) (operation : APIOperation) :
    drawing APIOperation :=
  if negb (bool_decide (length (Operation.Exchanges operation) = 0%nat)) || blank (Operation.MockPath operation)
  then pure operation
  else match loadSchemaExamples DecodeDocument parseCUE suite operation with
       | [] => pure operation
       | examples =>
           exchanges <- map_draw (fun e => PreviewExchange suite surface operation
             (Exchange.mk (Schema.Name e) [] [] "" "" "" [] "")) examples ;;
           pure (with_exchanges operation exchanges)
       end.
Definition RenderExchangePreviews (suite : Definition_) (surfaces : list APISurface) : drawing (list APISurface) :=
  map_draw (fun surface =>
    operations <- map_draw (preview_operation suite surface) (Surface.Operations surface) ;;
    pure (Surface.mk (Surface.ID surface) (Surface.Title surface) (Surface.Protocol surface) operations)) surfaces.
End Previews.
End MockPreviews.
