(* ===== verification/Format.v ===== *)
(** The parts of packages math, fmt and time that the runners use to compute
    with and to print numbers: ceilings and roundings, the verb [%.nf], and
    durations.  It has no code of its own. *)
From Stdlib Require Import ZArith Lia Ascii SpecFloat.
From S2P Require Import Prelude GoStrings Runes Strconv.
Import GoStrings Runes Strconv.

Module Format.

(** [math.Ceil] and [math.Round] (half away from zero).  A number with a
    positive exponent is an integer already. *)
Definition F_ceil (f : float64) : float64 :=
  match f with
  | S754_finite neg m e =>
      if 0 <=? e then f
      else
        let up := if neg then Zpos m / 2 ^ (- e) else - ((- Zpos m) / 2 ^ (- e)) in
        if up =? 0 then S754_zero neg else F_of_Z (if neg then - up else up)
  | _ => f
  end.
Definition F_round (f : float64) : float64 :=
  match f with
  | S754_finite neg m e =>
      if 0 <=? e then f
      else
        let near := (2 * Zpos m + 2 ^ (- e)) / (2 * 2 ^ (- e)) in
        if near =? 0 then S754_zero neg else F_of_Z (if neg then - near else near)
  | _ => f
  end.

(** [d.Seconds()]. *)
Definition Seconds (d : Z) : float64 :=
  F_add (F_of_Z (Z.quot d second)) (F_div (F_of_Z (Z.rem d second)) (F_of_Z second)).

(** [t.Sub(u)] saturates. *)
Definition Sub (t u : Z) : Z := Z.max int64_min (Z.min int64_max (t - u)).

(** [%.nf]: the nearest decimal of [n] places, the even one in the middle. *)
Definition with_point (n : nat) (d : Z) : bytes :=
  let ds := dec_digits d in
  let ds := repeat "0"%char (S n - length ds) ++ ds in
  take (length ds - n) ds ++ (if (n =? 0)%nat then [] else "."%char :: drop (length ds - n) ds).
Definition fixed (n : nat) (f : float64) : string :=
  match f with
  | S754_zero neg => to_string ((if neg then ["-"%char] else []) ++ with_point n 0)
  | S754_finite neg m e =>
      let '(num, den) := fraction m e in
      let scaled := num * 10 ^ Z.of_nat n in
      let d := scaled / den in
      let rest := 2 * (scaled - d * den) in
      let up := (den <? rest) || ((den =? rest) && Z.odd d) in
      to_string ((if neg then ["-"%char] else []) ++ with_point n (if up then d + 1 else d))
  | _ => Sprint_g f
  end.

(** [d.String()]: the digits of [v] below the point, without trailing zeros,
    and the units. *)
Definition fraction_digits (v : Z) (places : nat) : bytes :=
  let ds := dec_digits (v mod 10 ^ Z.of_nat places) in
  let ds := repeat "0"%char (places - length ds) ++ ds in
  match reverse (drop_zeros_rev (reverse ds)) with [] => [] | kept => "."%char :: kept end.
Definition in_unit (u : Z) (places : nat) : bytes :=
  dec_digits (u / 10 ^ Z.of_nat places) ++ (if (places =? 0)%nat then [] else fraction_digits u places).
Definition Duration_String (d : Z) : string :=
  let u := Z.abs d in
  let text :=
    if u =? 0 then of_string "0s"
    else if u <? 1000 then in_unit u 0 ++ of_string "ns"
    else if u <? 1000000 then in_unit u 3 ++ [byte_of 194; byte_of 181; "s"%char]
    else if u <? second then in_unit u 6 ++ of_string "ms"
    else
      let s := u / second in
      let seconds := dec_digits (s mod 60) ++ fraction_digits u 9 ++ ["s"%char] in
      let m := s / 60 in
      if m =? 0 then seconds
      else if m / 60 =? 0 then dec_digits (m mod 60) ++ "m"%char :: seconds
      else dec_digits (m / 60) ++ "h"%char :: dec_digits (m mod 60) ++ "m"%char :: seconds in
  to_string (if d <? 0 then "-"%char :: text else text).

Example fixed_ex : (fixed 1 (F_of_Z 12), (fixed 2 <$> ParseFloat "0.125"), (fixed 4 <$> ParseFloat "0.99996"),
                    (fixed 0 <$> ParseFloat "2.5"), fixed 1 F_zero) =
                   ("12.0", Some "0.12", Some "1.0000", Some "2", "0.0").
Proof. vm_compute. reflexivity. Qed.
Example Duration_String_ex : (Duration_String 0, Duration_String 90000000000, Duration_String 1500000, Duration_String (-1),
                              Duration_String 3600000000000, Duration_String 2050000000) =
                             ("0s", "1m30s", "1.5ms", "-1ns", "1h0m0s", "2.05s").
Proof. vm_compute. reflexivity. Qed.
Example rounding_ex : (F_ceil <$> ParseFloat "1.2", F_ceil <$> ParseFloat "-0.5", F_round <$> ParseFloat "2.5",
                       F_round <$> ParseFloat "-2.5", F_round <$> ParseFloat "0.4") =
                      (Some (F_of_Z 2), Some (S754_zero true), Some (F_of_Z 3), Some (F_of_Z (-3)), Some F_zero).
Proof. vm_compute. reflexivity. Qed.

End Format.
