(* ===== verification/Floats.v ===== *)
(** Rounding of binary64 numbers.  The operations of Strconv are those of the
    Standard Library's [SpecFloat], which has no lemmas about them; this file
    has the ones the runners' theorems need: an integer below [2^53] is exact,
    a product is within half a unit of the last place, and a quotient of
    positive integers is positive. *)
From Stdlib Require Import ZArith Lia SpecFloat.
From S2P Require Import Prelude Strconv LoadPlan Format.
Import Strconv Format.

Module Floats.

(** ** Digits *)
Lemma digits_range m : 2 ^ (Zpos (digits2_pos m) - 1) <= Zpos m < 2 ^ Zpos (digits2_pos m).
Proof.
  induction m as [m IH|m IH|]; cbn [digits2_pos]; [| |done].
  all: rewrite Pos2Z.inj_succ; replace (Z.succ (Zpos (digits2_pos m)) - 1) with (Zpos (digits2_pos m)) by lia.
  all: rewrite Z.pow_succ_r by lia.
  all: assert (2 ^ Zpos (digits2_pos m) = 2 * 2 ^ (Zpos (digits2_pos m) - 1))
         by (rewrite <-Z.pow_succ_r by lia; f_equal; lia); lia.
Qed.
Lemma digits_unique m d : 0 < d -> 2 ^ (d - 1) <= Zpos m < 2 ^ d -> Zpos (digits2_pos m) = d.
Proof.
  intros Hd Hm. pose proof (digits_range m) as Hr.
  destruct (Z.lt_trichotomy (Zpos (digits2_pos m)) d) as [H|[H|H]]; [|done|].
  - pose proof (Z.pow_le_mono_r 2 (Zpos (digits2_pos m)) (d - 1) ltac:(lia) ltac:(lia)). lia.
  - pose proof (Z.pow_le_mono_r 2 d (Zpos (digits2_pos m) - 1) ltac:(lia) ltac:(lia)). lia.
Qed.

(** ** Shifting right *)
Lemma iter_pos_nat {A} (f : A -> A) n : forall x, SpecFloat.iter_pos f n x = Nat.iter (Pos.to_nat n) f x.
Proof.
  assert (forall a b x, Nat.iter (a + b) f x = Nat.iter a f (Nat.iter b f x)) as Happ
    by (intros a b x; induction a as [|a IH]; [done|]; exact (f_equal f IH)).
  induction n as [n IH|n IH|]; intros x; cbn [SpecFloat.iter_pos]; [| |done]; rewrite !IH, <-Happ.
  - replace (Pos.to_nat n~1) with (Pos.to_nat n + Pos.to_nat n + 1)%nat by lia. by rewrite (Happ _ 1%nat).
  - f_equal. lia.
Qed.

(** After [k] steps the record holds the quotient, and whether something was lost. *)
Definition shifted (m : Z) (k : nat) (r : shr_record) : Prop :=
  shr_m r = m / 2 ^ Z.of_nat k /\ shr_r r || shr_s r = negb (m mod 2 ^ Z.of_nat k =? 0).
Lemma shr_1_spec r : 0 <= shr_m r ->
  shr_m (shr_1 r) = shr_m r / 2 /\ shr_r (shr_1 r) = Z.odd (shr_m r) /\ shr_s (shr_1 r) = shr_r r || shr_s r.
Proof.
  destruct r as [[|[p|p|]|p] r s]; intros H; simpl in H |- *; try lia; try done.
  all: split_and!; try done; Z.to_euclidean_division_equations; lia.
Qed.
Lemma pow_S k : 2 ^ Z.of_nat (S k) = 2 * 2 ^ Z.of_nat k.
Proof. rewrite Nat2Z.inj_succ. apply Z.pow_succ_r. lia. Qed.
Lemma half_step m k : 0 <= m ->
  m / 2 ^ Z.of_nat (S k) = m / 2 ^ Z.of_nat k / 2 /\
  m mod 2 ^ Z.of_nat (S k) = m mod 2 ^ Z.of_nat k + 2 ^ Z.of_nat k * Z.b2z (Z.odd (m / 2 ^ Z.of_nat k)).
Proof.
  intros Hm. rewrite pow_S. pose proof (Z.pow_pos_nonneg 2 (Z.of_nat k) ltac:(lia) ltac:(lia)) as Hp.
  set (P := 2 ^ Z.of_nat k) in *. split.
  - rewrite Z.mul_comm, Z.div_div by lia. done.
  - rewrite Z.mul_comm, Z.rem_mul_r by lia. by rewrite <-Zmod_odd, Zmod_even || rewrite Zmod_odd; destruct (Z.odd _).
Qed.
Lemma shifted_iter m k : 0 <= m -> shifted m k (Nat.iter k shr_1 (Build_shr_record m false false)).
Proof.
  intros Hm. induction k as [|k [IHm IHl]].
  - split; simpl; [by rewrite Z.div_1_r|]. by rewrite Z.mod_1_r.
  - set (r := Nat.iter k shr_1 _) in *. change (Nat.iter (S k) shr_1 _) with (shr_1 r).
    pose proof (Z.pow_pos_nonneg 2 (Z.of_nat k) ltac:(lia) ltac:(lia)) as Hp.
    destruct (shr_1_spec r) as (H1 & H2 & H3). { rewrite IHm. apply Z.div_pos; lia. }
    destruct (half_step m k Hm) as [Hd Hr]. split; [by rewrite H1, IHm, Hd|].
    rewrite H2, H3, IHl, IHm, Hr.
    pose proof (Z.mod_pos_bound m (2 ^ Z.of_nat k) Hp).
    destruct (Z.odd (m / 2 ^ Z.of_nat k)); cbn [Z.b2z orb]; [|f_equal; f_equal; lia].
    symmetry. apply negb_true_iff, Z.eqb_neq. lia.
Qed.

(** Rounding to the nearest keeps at most half of the last place. *)
Lemma round_shift m k : 0 <= m -> (0 < k)%nat ->
  let r := Nat.iter k shr_1 (Build_shr_record m false false) in
  let q := round_nearest_even (shr_m r) (loc_of_shr_record r) in
  2 * Z.abs (q * 2 ^ Z.of_nat k - m) <= 2 ^ Z.of_nat k /\ m / 2 ^ Z.of_nat k <= q <= m / 2 ^ Z.of_nat k + 1.
Proof.
  intros Hm Hk r q. destruct k as [|j]; [lia|].
  pose proof (Z.pow_pos_nonneg 2 (Z.of_nat j) ltac:(lia) ltac:(lia)) as Hp.
  destruct (shifted_iter m j Hm) as [Hq Hl]. set (r' := Nat.iter j shr_1 _) in *.
  destruct (shr_1_spec r') as (H1 & H2 & H3). { rewrite Hq. apply Z.div_pos; lia. }
  change r with (shr_1 r') in *. clear r. set (r := shr_1 r') in *.
  destruct (half_step m j Hm) as [Hd Hr]. rewrite Hq, <-Hd in H1. rewrite Hl in H3. rewrite Hq in H2.
  pose proof (Z.mod_pos_bound m (2 ^ Z.of_nat j) Hp) as Hrem.
  pose proof (Z_div_mod_eq_full m (2 ^ Z.of_nat (S j))) as He. rewrite Hr in He. rewrite <-H1 in He |- *.
  rewrite pow_S in *. rewrite <-H2 in He. unfold q. clear q.
  destruct r as [mr rr rs]. cbn [shr_m shr_r shr_s] in *. subst rs.
  set (P := 2 ^ Z.of_nat j) in *. set (rem := m mod P) in *.
  destruct rr; cbn [Z.b2z] in He.
  - destruct (Z.eqb_spec rem 0); cbn [negb loc_of_shr_record round_nearest_even]; [case_match|]; nia.
  - destruct (Z.eqb_spec rem 0); cbn [negb loc_of_shr_record round_nearest_even]; nia.
Qed.

(** ** Rounding *)
Notation round_aux := (binary_round_aux prec emax).

Lemma shr_fexp_keep m e : fexp prec emax (Zpos (digits2_pos m) + e) <= e ->
  shr_fexp prec emax (Zpos m) e loc_Exact = (Build_shr_record (Zpos m) false false, e).
Proof.
  intros H. unfold shr_fexp, shr. cbn [Zdigits2 shr_record_of_loc].
  destruct (fexp prec emax (Zpos (digits2_pos m) + e) - e) eqn:E; [done|lia|done].
Qed.

(** At most 53 digits are kept as they are. *)
Lemma round_aux_keep s m e : Zpos (digits2_pos m) <= 53 -> -1074 <= e <= 971 ->
  round_aux s (Zpos m) e loc_Exact = S754_finite s m e.
Proof.
  intros Hd He. unfold binary_round_aux.
  assert (fexp prec emax (Zpos (digits2_pos m) + e) <= e) as Hf by (unfold fexp, emin, prec, emax; lia).
  rewrite !(shr_fexp_keep m e Hf). cbn [loc_of_shr_record round_nearest_even shr_m].
  rewrite (shr_fexp_keep m e Hf). cbn [shr_m].
  by replace (e <=? emax - prec) with true by (unfold emax, prec; lia).
Qed.

(** More digits are rounded to 53, with an error of half a unit. *)
Lemma round_aux_near s m e (d := Zpos (digits2_pos m)) :
  53 < d -> -1074 <= e + d - 53 -> e + d - 53 + 1 <= 971 ->
  exists m' x, round_aux s (Zpos m) e loc_Exact = S754_finite s m' (e + x) /\
    d - 53 <= x <= d - 52 /\ 2 ^ 52 <= Zpos m' < 2 ^ 53 /\ 2 * Z.abs (Zpos m' * 2 ^ x - Zpos m) <= 2 ^ (d - 53).
Proof.
  intros Hd Hlo Hhi. set (k := Z.to_nat (d - 53)).
  assert (Z.of_nat k = d - 53) as Hk by lia.
  destruct (round_shift (Zpos m) k ltac:(lia) ltac:(lia)) as [Herr Hq]. cbv zeta in Herr, Hq.
  set (r := Nat.iter k shr_1 (Build_shr_record (Zpos m) false false)) in *.
  set (q := round_nearest_even (shr_m r) (loc_of_shr_record r)) in *.
  rewrite Hk in *. pose proof (digits_range m) as Hm. fold d in Hm.
  assert (2 ^ (d - 1) = 2 ^ 52 * 2 ^ (d - 53)) as E1 by (rewrite <-Z.pow_add_r by lia; f_equal; lia).
  assert (2 ^ d = 2 ^ 53 * 2 ^ (d - 53)) as E2 by (rewrite <-Z.pow_add_r by lia; f_equal; lia).
  pose proof (Z.pow_pos_nonneg 2 (d - 53) ltac:(lia) ltac:(lia)) as Hp.
  assert (2 ^ 52 <= Zpos m / 2 ^ (d - 53)) as Q1 by (apply Z.div_le_lower_bound; lia).
  assert (Zpos m / 2 ^ (d - 53) < 2 ^ 53) as Q2 by (apply Z.div_lt_upper_bound; lia).
  assert (shr_fexp prec emax (Zpos m) e loc_Exact = (r, e + (d - 53))) as Hs.
  { unfold shr_fexp, shr. cbn [Zdigits2 shr_record_of_loc]. fold d.
    replace (fexp prec emax (d + e) - e) with (d - 53) by (unfold fexp, emin, prec, emax; lia).
    destruct (d - 53) as [|p|p] eqn:E; [lia| |lia]. rewrite iter_pos_nat. unfold r. by replace k with (Pos.to_nat p) by lia. }
  unfold binary_round_aux. rewrite Hs. fold q.
  destruct (Z.eq_dec q (2 ^ 53)) as [Hc|Hc].
  - exists (2 ^ 52)%positive, (d - 52). rewrite Hc.
    assert (shr_fexp prec emax (2 ^ 53) (e + (d - 53)) loc_Exact = (Build_shr_record (2 ^ 52) false false, e + (d - 52))) as ->.
    { unfold shr_fexp, shr. change (Zdigits2 (2 ^ 53)) with 54. change (shr_record_of_loc (2 ^ 53) loc_Exact) with
        (Build_shr_record (2 ^ 53) false false).
      replace (fexp prec emax (54 + (e + (d - 53))) - (e + (d - 53))) with 1 by (unfold fexp, emin, prec, emax; lia).
      apply f_equal2; [reflexivity|lia]. }
    cbn [shr_m]. change (2 ^ 52) with (Zpos (2 ^ 52)).
    replace (e + (d - 52) <=? emax - prec) with true by (unfold emax, prec; lia).
    split_and!; [done|lia|lia|lia|lia|].
    replace (Zpos (2 ^ 52) * 2 ^ (d - 52)) with (q * 2 ^ (d - 53)); [done|].
    rewrite Hc. change (Zpos (2 ^ 52)) with (2 ^ 52). rewrite <-!Z.pow_add_r by lia. f_equal. lia.
  - destruct q as [|q'|q'] eqn:Eq; [lia| |lia]. exists q', (d - 53).
    assert (Zpos (digits2_pos q') = 53) as Hdq by (apply digits_unique; lia).
    rewrite shr_fexp_keep by (rewrite Hdq; unfold fexp, emin, prec, emax; lia). cbn [shr_m].
    replace (e + (d - 53) <=? emax - prec) with true by (unfold emax, prec; lia).
    split_and!; try lia; done.
Qed.

(** ** Integers *)
Lemma shift_left p k : Zpos (Pos.iter xO p k) = Zpos p * 2 ^ Zpos k.
Proof.
  induction k as [|k IH] using Pos.peano_ind; [change (Zpos p~0 = Zpos p * 2); lia|].
  rewrite Pos.iter_succ, Pos2Z.inj_succ, Z.pow_succ_r by lia. lia.
Qed.
(** An integer below [2^53] is exact, with 53 digits. *)
Lemma F_of_Z_exact n : 1 <= n < 2 ^ 53 ->
  exists m k, F_of_Z n = S754_finite false m (- k) /\ Zpos m = n * 2 ^ k /\ 2 ^ 52 <= Zpos m < 2 ^ 53 /\
              0 <= k <= 52 /\ n < 2 ^ (53 - k).
Proof.
  intros Hn. destruct n as [|p|p]; [lia| |lia]. pose proof (digits_range p) as Hp.
  set (d := Zpos (digits2_pos p)) in *.
  assert (d <= 53).
  { destruct (Z.le_gt_cases d 53); [done|]. pose proof (Z.pow_le_mono_r 2 53 (d - 1) ltac:(lia) ltac:(lia)). lia. }
  assert (2 ^ (d - 1) * 2 ^ (53 - d) = 2 ^ 52) as E1 by (rewrite <-Z.pow_add_r by lia; f_equal; lia).
  assert (2 ^ d * 2 ^ (53 - d) = 2 ^ 53) as E2 by (rewrite <-Z.pow_add_r by lia; f_equal; lia).
  pose proof (Z.pow_pos_nonneg 2 (53 - d) ltac:(lia) ltac:(lia)).
  assert (exists m, shl_align p 0 (fexp prec emax (d + 0)) = (m, d - 53) /\ Zpos m = Zpos p * 2 ^ (53 - d)) as (m & Hm & Hv).
  { replace (fexp prec emax (d + 0)) with (d - 53) by (unfold fexp, emin, prec, emax; lia). unfold shl_align.
    rewrite Z.sub_0_r. destruct (d - 53) as [|k|k] eqn:E; [|lia|].
    - exists p. replace (53 - d) with 0 by lia. split; [done|]. change (2 ^ 0) with 1. lia.
    - exists (Pos.iter xO p k). split; [done|]. rewrite shift_left. by replace (53 - d) with (Zpos k) by lia. }
  exists m, (53 - d). unfold F_of_Z, binary_normalize, binary_round. fold d. rewrite Hm.
  assert (Zpos (digits2_pos m) = 53) by (apply digits_unique; [lia|]; rewrite Hv; split; nia).
  rewrite round_aux_keep by lia. split_and!; [f_equal; lia|done|nia|nia|lia|lia|].
  replace (53 - (53 - d)) with d by lia. lia.
Qed.
Lemma F_trunc_of_Z n : 1 <= n < 2 ^ 53 -> F_trunc (F_of_Z n) = n.
Proof.
  intros Hn. destruct (F_of_Z_exact n Hn) as (m & k & -> & Hm & _ & Hk & _).
  pose proof (Z.pow_pos_nonneg 2 k ltac:(lia) ltac:(lia)). unfold F_trunc. rewrite Hm, Z.opp_involutive.
  destruct (Z.leb_spec 0 (- k)) as [H0|H0]; [|by rewrite Z.div_mul by lia].
  replace k with 0 by lia. change (2 ^ 0) with 1. change (2 ^ - 0) with 1. lia.
Qed.
Lemma F_ceil_spec m x K : 0 < x -> 1 <= K -> (K - 1) * 2 ^ x < Zpos m <= K * 2 ^ x ->
  F_ceil (S754_finite false m (- x)) = F_of_Z K.
Proof.
  intros Hx HK Hm. unfold F_ceil. replace (0 <=? - x) with false by lia. rewrite Z.opp_involutive.
  pose proof (Z.pow_pos_nonneg 2 x ltac:(lia) ltac:(lia)).
  assert (- (- Zpos m / 2 ^ x) = K) as -> by (Z.to_euclidean_division_equations; nia).
  by replace (K =? 0) with false by lia.
Qed.

(** ** Shares of a count

    [share] is the float of [p / 100], within [c / 2^E] of a hundredth; then the
    ceiling of the product is the ceiling of the exact number. *)
Section Share.
Context (share : positive) (E p c n : Z).
Hypothesis Hshare : 2 ^ 52 <= Zpos share < 2 ^ 53.
Hypothesis HE : E = 53 \/ E = 54.
Hypothesis Hc : Z.abs (100 * Zpos share - p * 2 ^ E) <= c /\ c * 2 ^ 53 <= 50 * Zpos share.
Let K := (p * n + 99) / 100.

Lemma ceiling_bounds T W m0 M k x m' :
  2 ^ 22 <= T -> 2 ^ 52 <= n * T < 2 ^ 53 -> W = 2 ^ E * T -> m0 = Zpos share * (n * T) -> M = m' * 2 ^ x ->
  52 <= k <= 53 -> k <= x -> (exists w, W = w * 2 ^ k) -> 2 * Z.abs (M - m0) <= 2 ^ k -> m0 < 2 ^ (k + 53) ->
  (K - 1) * W < M <= K * W.
Proof.
  intros HT HnT HW Hm0 HM Hk Hx [w Hw] Herr Hd.
  assert (100 * (K - 1) + 1 <= p * n <= 100 * K) as HK by (unfold K; Z.to_euclidean_division_equations; lia).
  destruct Hc as [Hc1 Hc2]. clearbody K.
  assert (0 <= c < 50) as Hc50 by lia.
  assert (2 ^ k <= 2 ^ 53) as Hk53 by (apply Z.pow_le_mono_r; lia).
  assert (2 ^ 75 <= W) as HW75 by (subst W; destruct HE; subst E; nia).
  assert (Z.abs (100 * m0 - p * n * W) <= c * (n * T)) as Hm.
  { subst m0 W. replace (100 * (Zpos share * (n * T)) - p * n * (2 ^ E * T)) with
      ((100 * Zpos share - p * 2 ^ E) * (n * T)) by ring. rewrite Z.abs_mul, (Z.abs_eq (n * T)) by lia.
    apply Z.mul_le_mono_nonneg_r; lia. }
  assert (c * (n * T) <= 50 * 2 ^ 53) as HcT
    by (transitivity (50 * (n * T)); [apply Z.mul_le_mono_nonneg_r|]; lia).
  assert ((100 * (K - 1) + 1) * W <= p * n * W) as Hlow by (apply Z.mul_le_mono_nonneg_r; lia).
  assert (p * n * W <= 100 * K * W) as Hup by (apply Z.mul_le_mono_nonneg_r; lia).
  split; [lia|]. destruct (Z.eq_dec (p * n) (100 * K)) as [Heq|Hne].
  2:{ assert (p * n * W <= (100 * K - 1) * W) by (apply Z.mul_le_mono_nonneg_r; lia). lia. }
  destruct (Z.le_gt_cases M (K * W)) as [|Hgt]; [done|exfalso].
  assert (K * W + 2 ^ k <= M) as Hstep.
  { assert (M = m' * 2 ^ (x - k) * 2 ^ k) as HM' by (rewrite HM, <-Z.mul_assoc, <-Z.pow_add_r by lia; do 2 f_equal; lia).
    pose proof (Z.pow_pos_nonneg 2 k ltac:(lia) ltac:(lia)). rewrite HM', Hw in *.
    rewrite Z.mul_assoc in Hgt |- *. apply Z.mul_lt_mono_pos_r in Hgt; [|done].
    transitivity ((K * w + 1) * 2 ^ k); [lia|]. apply Z.mul_le_mono_nonneg_r; lia. }
  rewrite Heq in Hm. replace (100 * K * W) with (100 * (K * W)) in Hm by ring.
  assert (50 * 2 ^ k <= c * (n * T)) by lia.
  assert (2 ^ (k + 53) = 2 ^ k * 2 ^ 53) as E53 by (rewrite Z.pow_add_r; lia).
  assert (c * 2 ^ 53 * (n * T) <= 50 * Zpos share * (n * T)) by (apply Z.mul_le_mono_nonneg_r; lia).
  assert (50 * 2 ^ k * 2 ^ 53 <= c * (n * T) * 2 ^ 53) by (apply Z.mul_le_mono_nonneg_r; lia).
  rewrite E53, Hm0 in Hd. lia.
Qed.
End Share.

Lemma mul_ceil ov share E p c n :
  2 ^ 52 <= Zpos share < 2 ^ 53 -> E = 53 \/ E = 54 -> 1 <= p < 100 ->
  Z.abs (100 * Zpos share - p * 2 ^ E) <= c /\ c * 2 ^ 53 <= 50 * Zpos share -> 1 <= n < 2 ^ 31 ->
  LoadPlan.int_of_float ov (F_ceil (F_mul (S754_finite false share (- E)) (F_of_Z n))) = (p * n + 99) / 100.
Proof.
  intros Hs HE Hp Hc Hn. set (K := (p * n + 99) / 100).
  assert (1 <= K < 2 ^ 53) as HK by (unfold K; Z.to_euclidean_division_equations; nia).
  destruct (F_of_Z_exact n ltac:(lia)) as (mn & t & -> & Hmn & Hr & Ht & Hnt).
  unfold F_mul, SFmul. cbn [xorb]. set (m0 := (share * mn)%positive).
  assert (Zpos m0 = Zpos share * (n * 2 ^ t)) as Hm0 by (unfold m0; lia). rewrite <-Hmn in Hm0.
  assert (22 <= t) as Ht22.
  { destruct (Z.le_gt_cases 22 t); [done|]. pose proof (Z.pow_le_mono_r 2 t 21 ltac:(lia) ltac:(lia)).
    assert (n * 2 ^ t <= n * 2 ^ 21) by (apply Z.mul_le_mono_nonneg_l; lia). lia. }
  pose proof (Z.pow_le_mono_r 2 22 t ltac:(lia) Ht22) as HT.
  pose proof (digits_range m0) as Hd. set (d := Zpos (digits2_pos m0)) in *.
  assert (2 ^ 104 <= Zpos m0 < 2 ^ 106) as Hm0r.
  { unfold m0. rewrite Pos2Z.inj_mul. split.
    - change (2 ^ 104) with (2 ^ 52 * 2 ^ 52). apply Z.mul_le_mono_nonneg; lia.
    - change (2 ^ 106) with (2 ^ 53 * 2 ^ 53). apply Z.mul_lt_mono_nonneg; lia. }
  assert (105 <= d <= 106) as Hd106.
  { split.
    - destruct (Z.le_gt_cases 105 d); [done|]. pose proof (Z.pow_le_mono_r 2 d 104 ltac:(lia) ltac:(lia)). lia.
    - destruct (Z.le_gt_cases d 106); [done|]. pose proof (Z.pow_le_mono_r 2 106 (d - 1) ltac:(lia) ltac:(lia)). lia. }
  destruct (round_aux_near false m0 (- E + - t)) as (m' & x & -> & Hx & Hm' & Herr); fold d; [lia..|]. fold d in Herr, Hx.
  assert (2 ^ (E + t - x) * 2 ^ x = 2 ^ E * 2 ^ t) as HW by (rewrite <-!Z.pow_add_r by lia; f_equal; lia).
  assert (exists w, 2 ^ E * 2 ^ t = w * 2 ^ (d - 53)) as Hmult.
  { exists (2 ^ (E + t - (d - 53))). rewrite <-!Z.pow_add_r by lia. f_equal. lia. }
  pose proof (ceiling_bounds share E p c n Hs HE Hc (2 ^ t) (2 ^ E * 2 ^ t) (Zpos m0) (Zpos m' * 2 ^ x) (d - 53) x (Zpos m')
    HT ltac:(lia) eq_refl ltac:(lia) eq_refl ltac:(lia) ltac:(lia) Hmult Herr) as [Hl Hu].
  { replace (d - 53 + 53) with d by lia. lia. }
  fold K in Hl, Hu. rewrite <-HW in Hl, Hu. pose proof (Z.pow_pos_nonneg 2 x ltac:(lia) ltac:(lia)).
  replace (- E + - t + x) with (- (E + t - x)) by lia.
  rewrite Z.mul_assoc in Hl, Hu. apply Z.mul_lt_mono_pos_r in Hl; [|done]. apply Z.mul_le_mono_pos_r in Hu; [|done].
  rewrite (F_ceil_spec m' (E + t - x) K) by lia.
  pose proof (F_trunc_of_Z K HK) as Htr. destruct (F_of_Z_exact K HK) as (mk & xk & Hfk & _).
  rewrite Hfk in *. unfold LoadPlan.int_of_float. rewrite Htr.
  by replace ((int64_min <=? K) && (K <=? int64_max)) with true by (unfold int64_min, int64_max; lia).
Qed.

(** ** Quotients *)
Lemma shr_m_iter r k : 0 <= shr_m r -> shr_m (Nat.iter k shr_1 r) = shr_m r / 2 ^ Z.of_nat k.
Proof.
  intros Hr. induction k as [|k IH]; [by rewrite Z.div_1_r|].
  change (Nat.iter (S k) shr_1 r) with (shr_1 (Nat.iter k shr_1 r)).
  pose proof (Z.pow_pos_nonneg 2 (Z.of_nat k) ltac:(lia) ltac:(lia)).
  destruct (shr_1_spec (Nat.iter k shr_1 r)) as [-> _]; [rewrite IH; apply Z.div_pos; lia|].
  rewrite IH, pow_S, Z.div_div by lia. f_equal. lia.
Qed.
Lemma shr_m_fexp m e l (d := Zpos (digits2_pos m)) : 53 <= d -> -1074 <= e + d - 53 ->
  exists r, shr_fexp prec emax (Zpos m) e l = (r, e + (d - 53)) /\ shr_m r = Zpos m / 2 ^ (d - 53).
Proof.
  intros Hd He. unfold shr_fexp, shr. cbn [Zdigits2]. fold d.
  replace (fexp prec emax (d + e) - e) with (d - 53) by (unfold fexp, emin, prec, emax; lia).
  assert (shr_m (shr_record_of_loc (Zpos m) l) = Zpos m) as Hm by (by destruct l as [|[]]).
  destruct (d - 53) as [|k|k] eqn:E; [| |lia].
  - exists (shr_record_of_loc (Zpos m) l). rewrite Hm. split; [f_equal; lia|]. symmetry. apply Z.div_1_r.
  - eexists. split; [done|]. rewrite iter_pos_nat, shr_m_iter, Hm by (rewrite Hm; lia). do 2 f_equal. lia.
Qed.
Lemma round_aux_pos s m e l (d := Zpos (digits2_pos m)) : 53 <= d -> -1074 <= e + d - 53 -> e + d - 53 + 1 <= 971 ->
  exists m' e', round_aux s (Zpos m) e l = S754_finite s m' e'.
Proof.
  intros Hd Hlo Hhi. destruct (shr_m_fexp m e l Hd Hlo) as (r & Hs & Hm). fold d in Hs, Hm.
  pose proof (digits_range m) as Hr. fold d in Hr.
  assert (2 ^ (d - 1) = 2 ^ 52 * 2 ^ (d - 53)) as E1 by (rewrite <-Z.pow_add_r by lia; f_equal; lia).
  assert (2 ^ d = 2 ^ 53 * 2 ^ (d - 53)) as E2 by (rewrite <-Z.pow_add_r by lia; f_equal; lia).
  pose proof (Z.pow_pos_nonneg 2 (d - 53) ltac:(lia) ltac:(lia)) as Hp.
  assert (2 ^ 52 <= shr_m r < 2 ^ 53) as Hrange.
  { rewrite Hm. split; [apply Z.div_le_lower_bound; lia|apply Z.div_lt_upper_bound; lia]. }
  unfold binary_round_aux. rewrite Hs. set (q := round_nearest_even _ _).
  assert (shr_m r <= q <= shr_m r + 1) as Hq by (unfold q, round_nearest_even; repeat case_match; lia).
  destruct q as [|q|q]; [lia| |lia].
  assert (Zpos (digits2_pos q) = 53 \/ Zpos (digits2_pos q) = 54) as Hdq.
  { destruct (Z.eq_dec (Zpos q) (2 ^ 53)); [right|left]; apply digits_unique; lia. }
  destruct (shr_m_fexp q (e + (d - 53)) loc_Exact) as (r2 & -> & ->); [lia|lia|].
  assert (0 < Zpos q / 2 ^ (Zpos (digits2_pos q) - 53)) as H2.
  { destruct Hdq as [-> | ->]; [change (2 ^ (53 - 53)) with 1|change (2 ^ (54 - 53)) with 2];
      Z.to_euclidean_division_equations; lia. }
  destruct (Zpos q / 2 ^ _) as [|q2|q2]; [lia| |lia].
  replace (_ <=? emax - prec) with true by (unfold emax, prec; lia). by do 2 eexists.
Qed.

(** The quotient of two positive integers is positive. *)
Lemma F_div_pos a b : 1 <= a < 2 ^ 53 -> 1 <= b < 2 ^ 53 ->
  exists m e, F_div (F_of_Z a) (F_of_Z b) = S754_finite false m e.
Proof.
  intros Ha Hb. destruct (F_of_Z_exact a Ha) as (ma & ka & -> & _ & Hma & Hka & _).
  destruct (F_of_Z_exact b Hb) as (mb & kb & -> & _ & Hmb & Hkb & _).
  assert (Zpos (digits2_pos ma) = 53) as Da by (apply digits_unique; lia).
  assert (Zpos (digits2_pos mb) = 53) as Db by (apply digits_unique; lia).
  unfold F_div, SFdiv, SFdiv_core_binary. cbn [Zdigits2 xorb]. rewrite Da, Db.
  replace (Z.min (fexp prec emax (53 + - ka - (53 + - kb))) (- ka - - kb)) with (kb - ka - 53)
    by (unfold fexp, emin, prec, emax; lia).
  replace (- ka - - kb - (kb - ka - 53)) with 53 by lia. cbv iota.
  rewrite Z.shiftl_mul_pow2 by lia. pose proof (Z.div_mod (Zpos ma * 2 ^ 53) (Zpos mb) ltac:(lia)) as Hd.
  unfold Z.div, Z.modulo in Hd. pose proof (Z_div_mod (Zpos ma * 2 ^ 53) (Zpos mb) ltac:(lia)) as Hr.
  destruct (Z.div_eucl (Zpos ma * 2 ^ 53) (Zpos mb)) as [q r]. destruct Hr as [_ Hr].
  assert (2 ^ 52 <= q < 2 ^ 54) as Hq by nia.
  destruct q as [|q|q]; [lia| |lia].
  assert (53 <= Zpos (digits2_pos q) <= 54) as Dq.
  { destruct (Z.lt_ge_cases (Zpos q) (2 ^ 53)); [rewrite (digits_unique q 53)|rewrite (digits_unique q 54)]; lia. }
  apply round_aux_pos; lia.
Qed.

End Floats.
