(* ===== verification/Runner.v ===== *)
(** The data of the runners, [src/backend/internal/runner] runner.go and
    backend.go with [suites] plugin_types.go and security_types.go: what a
    backend is given to run one step, and the lines it reports. *)
From Stdlib Require Import ZArith Lia Ascii SpecFloat.
From S2P Require Import Prelude GoStrings Runes Strconv Values StarNode LoadPlan Hub.
Import GoStrings Runes Strconv.

Module Runner.

Module Node.
Record StepNode := mk {
  ID : string; Name : string; Kind : string; Variant : string; Image : string; Message : string;
  File : string; Commands : list string; FileContent : string; Devices : list string;
  MemoryBytes : Z; MilliCPU : Z; DependsOn : list string }.
End Node.
Notation StepNode := Node.StepNode.

Module Artifact.
Record ArtifactExport := mk { Path : string; Name : string; On : string; Format : string }.
End Artifact.
Notation ArtifactExport := Artifact.ArtifactExport.

Module Plugin.
Record PluginSpec := mk { Name : string; Op : string; Config : Values.any }.
End Plugin.
Notation PluginSpec := Plugin.PluginSpec.

Module Custom.
Record CustomPlugin := mk {
  Name : string; Trigger : string; Kind : string; Variants : list string; Operations : list string;
  Lua : string; Schema : string; Star : string; Version : string; Deprecated : bool }.
End Custom.
Notation CustomPlugin := Custom.CustomPlugin.

Module Security.
Record SecurityThreshold := mkThreshold { Metric : string; Operator : string; Value : float64 }.
Record SecuritySpec := mk {
  Variant : string; Target : string; Technique : string; FloodPath : string; FloodRate : float64;
  FloodDuration : float64; FloodThrottle : bool; Thresholds : list SecurityThreshold }.
End Security.
Notation SecurityThreshold := Security.SecurityThreshold.
Notation SecuritySpec := Security.SecuritySpec.

(** The callback [OnArtifact] is known by whether there is one. *)
Module Step.
Record StepSpec := mk {
  ExecutionID : string; SuiteID : string; SuiteTitle : string; SuiteRepository : string;
  Profile : string; RuntimeProfile : string; Env : gmap string string; Headers : gmap string string;
  Trigger : string; BackendID : string; BackendLabel : string; BackendKind : string;
  SourceSuiteID : string; SourceSuiteTitle : string; SourceRepository : string; SourceVersion : string;
  ResolvedRef : string; Digest : string; DependencyAlias : string;
  StepIndex : Z; TotalSteps : Z; HealthySteps : Z; LeaseTTL : Z;
  Load : option LoadPlan.Spec.LoadSpec; Security : option SecuritySpec; Plugin : option PluginSpec;
  RegisteredPlugins : list CustomPlugin; Evaluation : option StarNode.StepEvaluation;
  OnFailure : list string; ArtifactExports : list ArtifactExport; OnArtifact : bool;
  Node : StepNode; NetworkName : string; NetworkAliases : list string;
  GatewayURL : string; GatewayURLs : list string; PublishPorts : list string }.
End Step.
Notation StepSpec := Step.StepSpec.
Definition name_of (step : StepSpec) : string := Node.Name (Step.Node step).

(** Copies with one field changed, for the assignments of the code. *)
Definition with_load (load : LoadPlan.Spec.LoadSpec) (s : StepSpec) : StepSpec :=
  Step.mk (Step.ExecutionID s) (Step.SuiteID s) (Step.SuiteTitle s) (Step.SuiteRepository s)
    (Step.Profile s) (Step.RuntimeProfile s) (Step.Env s) (Step.Headers s) (Step.Trigger s)
    (Step.BackendID s) (Step.BackendLabel s) (Step.BackendKind s) (Step.SourceSuiteID s)
    (Step.SourceSuiteTitle s) (Step.SourceRepository s) (Step.SourceVersion s) (Step.ResolvedRef s)
    (Step.Digest s) (Step.DependencyAlias s) (Step.StepIndex s) (Step.TotalSteps s) (Step.HealthySteps s)
    (Step.LeaseTTL s) (Some load) (Step.Security s) (Step.Plugin s) (Step.RegisteredPlugins s)
    (Step.Evaluation s) (Step.OnFailure s) (Step.ArtifactExports s) (Step.OnArtifact s) (Step.Node s)
    (Step.NetworkName s) (Step.NetworkAliases s) (Step.GatewayURL s) (Step.GatewayURLs s) (Step.PublishPorts s).

Module Config.
Record BackendConfig := mk { ID : string; Label : string; Kind : string; Permissive : bool }.
End Config.
Notation BackendConfig := Config.BackendConfig.
Definition AutoBackend : string := "auto".
Definition normalizeBackendConfig (config : BackendConfig) (fallbackID fallbackLabel fallbackKind : string) :
    BackendConfig :=
  Config.mk (FirstNonEmpty [Config.ID config; fallbackID]) (FirstNonEmpty [Config.Label config; fallbackLabel])
            (FirstNonEmpty [Config.Kind config; fallbackKind]) (Config.Permissive config).

(** [err.Error()]. *)
Fixpoint Error (e : goerr) : string :=
  match e with
  | Canceled => "context canceled"
  | DeadlineExceeded => "context deadline exceeded"
  | ErrText text => text
  | ErrWrap text inner => text +:+ ": " +:+ Error inner
  end.

(** A request to a sidecar: it cannot be built, it fails, its answer cannot be
    read, or there is an answer. *)
Inductive http_outcome :=
  | NoRequest (e : goerr)
  | NoResponse (e : goerr)
  | ReadFailed (e : goerr)
  | Response (status : Z) (body : string).

(** ** Lines *)
Notation Line := Hub.Line.
Definition line (step : StepSpec) (level text : string) : Line :=
  Hub.mkLine (Node.ID (Step.Node step)) "" level "system" text.
Definition containerLine (step : StepSpec) (text : string) : Line :=
  Hub.mkLine (Node.ID (Step.Node step)) "" "info" "output" text.
(** [line] with a text that starts with the name of the step. *)
Definition said (step : StepSpec) (level text : string) : Line :=
  line step level ("[" +:+ name_of step +:+ "] " +:+ text).

(** ** Runs

    What a step does is a computation over the lines it has reported, newest
    first, and the state [S] of its component.  An error ends the function that
    returns it, but not the ones that called it, which have their own state. *)
Section Runs.
Context {S : Type}.
Record world := mkWorld { Lines : list Line; St : S }.
Definition run (A : Type) : Type := world -> A * world.
Definition ret {A} (x : A) : run A := fun w => (x, w).
Definition bind {A B} (m : run A) (k : A -> run B) : run B := fun w => let '(x, w') := m w in k x w'.
Definition emit (l : Line) : run unit := fun w => (tt, mkWorld (l :: Lines w) (St w)).
Definition get_state : run S := fun w => (St w, w).
Definition set_state (s : S) : run unit := fun w => (tt, mkWorld (Lines w) s).
(** A loop that stops at the first error. *)
Fixpoint each {A E} (items : list A) (body : A -> run (option E)) : run (option E) :=
  match items with
  | [] => ret None
  | x :: rest => bind (body x) (fun r => match r with Some e => ret (Some e) | None => each rest body end)
  end.
Fixpoint emits (ls : list Line) : run unit :=
  match ls with [] => ret tt | l :: rest => bind (emit l) (fun _ => emits rest) end.

Lemma bind_run {A B} (m : run A) (k : A -> run B) w : bind m k w = k (m w).1 (m w).2.
Proof. unfold bind. by destruct (m w). Qed.
Lemma emits_spec ls : forall w, emits ls w = (tt, mkWorld (reverse ls ++ Lines w) (St w)).
Proof.
  induction ls as [|l ls IH]; intros [out s]; [done|].
  cbn [emits]. unfold bind, emit. rewrite IH, reverse_cons, <-app_assoc. done.
Qed.
End Runs.
Arguments world : clear implicits.
Arguments run : clear implicits.

Declare Scope run_scope.
Delimit Scope run_scope with run.
Notation "x <- m ;; k" := (bind m (fun x => k)) (at level 100, m at next level, right associativity) : run_scope.
Notation "' x <- m ;; k" := (bind m (fun x => k)) (at level 100, x strict pattern, m at next level, right associativity) : run_scope.
Notation "m ;;; k" := (bind m (fun _ => k)) (at level 100, right associativity) : run_scope.

End Runner.
