(* ===== verification/LoadStats.v ===== *)
(** The statistics of a load step, [src/backend/internal/runner/load_executor.go]:
    the histogram of latencies, the counters a run writes, and the summary that
    is read from them.

    [loadStats] is guarded by one lock, so every method is a function of it.
    Counters are 64-bit and wrap.  The theorems say that after any sequence of
    calls the counters, the histograms and the time line of the whole run, of a
    sampler and of a stage are those of the results recorded for it, and that a
    percentile is the latency of that rank, rounded down to its bucket. *)
From Stdlib Require Import ZArith Lia Ascii SpecFloat.
From S2P Require Import Prelude GoStrings Runes Strconv LoadPlan Format Floats.
Import GoStrings Runes Strconv LoadPlan Format.

Module LoadStats.

(** ** Histograms *)
Module Lat.
Record latencyBuckets := mk { m : gmap Z Z; count : Z; sumMs : Z; minMs : Z; maxMs : Z }.
End Lat.
Notation latencyBuckets := Lat.latencyBuckets.
Definition no_latencies : latencyBuckets := Lat.mk ∅ 0 0 0 0.

Definition bucketLatencyMs (ms : Z) : Z :=
  let ms := if ms <? 0 then 0 else ms in
  if ms <? 100 then ms
  else if ms <? 1000 then Z.quot ms 10 * 10
  else if ms <? 10000 then Z.quot ms 100 * 100
  else Z.quot ms 1000 * 1000.

(** [m[key] += n]. *)
Definition bump (key n : Z) (m : gmap Z Z) : gmap Z Z := <[key := wrap64 (default 0 (m !! key) + n)]> m.

Definition addMs (ms : Z) (b : latencyBuckets) : latencyBuckets :=
  let count := wrap64 (Lat.count b + 1) in
  Lat.mk (bump (bucketLatencyMs ms) 1 (Lat.m b)) count (wrap64 (Lat.sumMs b + ms))
         (if (count =? 1) || (ms <? Lat.minMs b) then ms else Lat.minMs b)
         (if Lat.maxMs b <? ms then ms else Lat.maxMs b).

Definition sorted_keys (m : gmap Z Z) : list Z := merge_sort Z.le (map_to_list m).*1.

(** The walk over the sorted keys until [target] samples are seen. *)
Fixpoint percentile_loop (m : gmap Z Z) (target accumulated : Z) (keys : list Z) : option Z :=
  match keys with
  | [] => None
  | k :: rest =>
      let accumulated := wrap64 (accumulated + default 0 (m !! k)) in
      if target <=? accumulated then Some k else percentile_loop m target accumulated rest
  end.

(** ** Summaries *)
Module Bucket.
Record loadHistogramBucket := mk { Label : string; Count : Z }.
End Bucket.
Notation loadHistogramBucket := Bucket.loadHistogramBucket.
Module Latency.
Record loadLatencySummary := mk {
  Count : Z; MinMillis : float64; MaxMillis : float64; AvgMillis : float64;
  P50Millis : float64; P90Millis : float64; P95Millis : float64; P99Millis : float64;
  Histogram : list loadHistogramBucket }.
End Latency.
Notation loadLatencySummary := Latency.loadLatencySummary.
Definition no_summary : loadLatencySummary := Latency.mk 0 F_zero F_zero F_zero F_zero F_zero F_zero F_zero [].
Module Point.
Record loadThroughputPoint := mk { OffsetSeconds : Z; Requests : Z }.
End Point.
Notation loadThroughputPoint := Point.loadThroughputPoint.
Module SamplerSummary.
Record loadSamplerSummary := mk {
  Name : string; Count : Z; Failures : Z; ErrorRate : float64; Latency : loadLatencySummary }.
End SamplerSummary.
Notation loadSamplerSummary := SamplerSummary.loadSamplerSummary.
Module StageSummary.
Record loadStageSummary := mk {
  Index : Z; Users : Z; SpawnRate : float64; PlannedDuration : Z; ActualDuration : Z;
  Requests : Z; Failures : Z; ErrorRate : float64; AverageRPS : float64; PeakRPS : float64;
  Latency : loadLatencySummary }.
End StageSummary.
Notation loadStageSummary := StageSummary.loadStageSummary.
Module Summary.
Record loadSummary := mk {
  Requests : Z; Failures : Z; ErrorRate : float64; PeakUsers : Z; ActualDuration : Z;
  AverageRPS : float64; PeakRPS : float64; Latency : loadLatencySummary;
  Throughput : list loadThroughputPoint; Samplers : list loadSamplerSummary;
  Stages : list loadStageSummary }.
End Summary.
Notation loadSummary := Summary.loadSummary.

Definition histogram_limits : list (string * Z) :=
  [("<=10ms", 10); ("<=25ms", 25); ("<=50ms", 50); ("<=100ms", 100); ("<=250ms", 250); ("<=500ms", 500);
   ("<=1000ms", 1000)].
(** The counts of one key: the first limit it does not exceed, or the last bucket. *)
Fixpoint place (limits : list (string * Z)) (key count : Z) (counts : list Z) : list Z :=
  match limits, counts with
  | (_, limit) :: limits', c :: counts' =>
      if key <=? limit then wrap64 (c + count) :: counts' else c :: place limits' key count counts'
  | [], c :: counts' => wrap64 (c + count) :: counts'
  | _, [] => []
  end.
Definition buildLatencyHistogram (b : latencyBuckets) : list loadHistogramBucket :=
  let counts := foldl (fun cs kc => place histogram_limits kc.1 kc.2 cs) (repeat 0 8) (map_to_list (Lat.m b)) in
  zip_with Bucket.mk ((histogram_limits.*1) ++ [">1000ms"]) counts.

Definition summarizeThroughput (buckets : gmap Z Z) : list loadThroughputPoint :=
  (fun offset => Point.mk offset (default 0 (buckets !! offset))) <$> sorted_keys buckets.
Definition peak_step (peak : float64) (point : loadThroughputPoint) : float64 :=
  if F_lt peak (F_of_Z (Point.Requests point)) then F_of_Z (Point.Requests point) else peak.
Definition summarizeRPS (requests duration : Z) (throughput : list loadThroughputPoint) : float64 * float64 :=
  let peak := foldl peak_step F_zero throughput in
  if duration <=? 0 then (peak, peak) else (F_div (F_of_Z requests) (Seconds duration), peak).

(** ** The statistics *)
Module Sampler.
Record loadSamplerStats := mk { Count : Z; Failures : Z; lat : latencyBuckets }.
End Sampler.
Notation loadSamplerStats := Sampler.loadSamplerStats.
Definition new_sampler : loadSamplerStats := Sampler.mk 0 0 no_latencies.
Module StageStats.
Record loadStageStats := mk {
  Index : Z; Users : Z; SpawnRate : float64; Planned : Z; Stop : bool; StartedAt : Z; FinishedAt : Z;
  Requests : Z; Failures : Z; lat : latencyBuckets; ThroughputByS : gmap Z Z }.
End StageStats.
Notation loadStageStats := StageStats.loadStageStats.
Definition new_stage (index : Z) : loadStageStats :=
  StageStats.mk index 0 F_zero 0 false 0 0 0 0 no_latencies ∅.
Module Stats.
Record loadStats := mk {
  StartedAt : Z; FinishedAt : Z; Requests : Z; Failures : Z; PeakUsers : Z; lat : latencyBuckets;
  ThroughputByS : gmap Z Z; Samplers : gmap string loadSamplerStats; Stages : gmap Z loadStageStats }.
End Stats.
Notation loadStats := Stats.loadStats.
Definition new_stats (startedAt : Z) : loadStats :=
  Stats.mk startedAt 0 0 0 0 no_latencies ∅ ∅ ∅.

Definition throughputBucketIndex (startedAt observedAt : Z) : Z :=
  if IsZero startedAt || Before observedAt startedAt then 0 else Z.quot (Sub observedAt startedAt) second.

Definition beginStage (index : Z) (stage : LoadPlan.Stage.LoadStage) (startedAt : Z) (s : loadStats) : loadStats :=
  let current := default (new_stage index) (Stats.Stages s !! index) in
  let current :=
    StageStats.mk (StageStats.Index current) (LoadPlan.Stage.Users stage) (LoadPlan.Stage.SpawnRate stage)
      (LoadPlan.Stage.Duration stage) (LoadPlan.Stage.Stop stage) startedAt
      (if Before (StageStats.FinishedAt current) startedAt then 0 else StageStats.FinishedAt current)
      (StageStats.Requests current) (StageStats.Failures current) (StageStats.lat current)
      (StageStats.ThroughputByS current) in
  Stats.mk (Stats.StartedAt s) (Stats.FinishedAt s) (Stats.Requests s) (Stats.Failures s) (Stats.PeakUsers s)
    (Stats.lat s) (Stats.ThroughputByS s) (Stats.Samplers s) (<[index := current]> (Stats.Stages s)).

Definition endStage (index finishedAt : Z) (s : loadStats) : loadStats :=
  match Stats.Stages s !! index with
  | None => s
  | Some current =>
      let current :=
        StageStats.mk (StageStats.Index current) (StageStats.Users current) (StageStats.SpawnRate current)
          (StageStats.Planned current) (StageStats.Stop current) (StageStats.StartedAt current) finishedAt
          (StageStats.Requests current) (StageStats.Failures current) (StageStats.lat current)
          (StageStats.ThroughputByS current) in
      Stats.mk (Stats.StartedAt s) (if After finishedAt (Stats.FinishedAt s) then finishedAt else Stats.FinishedAt s)
        (Stats.Requests s) (Stats.Failures s) (Stats.PeakUsers s) (Stats.lat s) (Stats.ThroughputByS s)
        (Stats.Samplers s) (<[index := current]> (Stats.Stages s))
  end.

(** The first and the last observation of a run or of a stage. *)
Definition first_seen (startedAt observedAt : Z) : Z :=
  if IsZero startedAt || Before observedAt startedAt then observedAt else startedAt.
Definition last_seen (finishedAt observedAt : Z) : Z := if After observedAt finishedAt then observedAt else finishedAt.
Definition failed_one (failed : bool) (failures : Z) : Z := if failed then wrap64 (failures + 1) else failures.

Definition record_sampler (latencyMs : Z) (failed : bool) (current : loadSamplerStats) : loadSamplerStats :=
  Sampler.mk (wrap64 (Sampler.Count current + 1)) (failed_one failed (Sampler.Failures current))
             (addMs latencyMs (Sampler.lat current)).
Definition record_stage (latencyMs : Z) (failed : bool) (observedAt : Z) (stage : loadStageStats) : loadStageStats :=
  let startedAt := first_seen (StageStats.StartedAt stage) observedAt in
  StageStats.mk (StageStats.Index stage) (StageStats.Users stage) (StageStats.SpawnRate stage)
    (StageStats.Planned stage) (StageStats.Stop stage) startedAt (last_seen (StageStats.FinishedAt stage) observedAt)
    (wrap64 (StageStats.Requests stage + 1)) (failed_one failed (StageStats.Failures stage))
    (addMs latencyMs (StageStats.lat stage))
    (bump (throughputBucketIndex startedAt observedAt) 1 (StageStats.ThroughputByS stage)).

Definition recordResult (sampler : string) (latencyMs : Z) (failed : bool) (stageIndex observedAt : Z)
    (s : loadStats) : loadStats :=
  let startedAt := first_seen (Stats.StartedAt s) observedAt in
  Stats.mk startedAt (last_seen (Stats.FinishedAt s) observedAt) (wrap64 (Stats.Requests s + 1))
    (failed_one failed (Stats.Failures s)) (Stats.PeakUsers s) (addMs latencyMs (Stats.lat s))
    (bump (throughputBucketIndex startedAt observedAt) 1 (Stats.ThroughputByS s))
    (<[sampler := record_sampler latencyMs failed (default new_sampler (Stats.Samplers s !! sampler))]>
       (Stats.Samplers s))
    (<[stageIndex := record_stage latencyMs failed observedAt
                       (default (new_stage stageIndex) (Stats.Stages s !! stageIndex))]> (Stats.Stages s)).

Definition recordActiveUsers (count : Z) (s : loadStats) : loadStats :=
  Stats.mk (Stats.StartedAt s) (Stats.FinishedAt s) (Stats.Requests s) (Stats.Failures s)
    (if Stats.PeakUsers s <? count then count else Stats.PeakUsers s) (Stats.lat s) (Stats.ThroughputByS s)
    (Stats.Samplers s) (Stats.Stages s).

(** ** The summary *)
Definition name_before (s t : loadSamplerSummary) : Prop :=
  String.ltb (SamplerSummary.Name t) (SamplerSummary.Name s) = false.
#[export] Instance name_before_dec s t : Decision (name_before s t).
Proof. unfold name_before. apply _. Defined.
Definition index_before (s t : loadStageSummary) : Prop := StageSummary.Index s <= StageSummary.Index t.
#[export] Instance index_before_dec s t : Decision (index_before s t).
Proof. unfold index_before. apply _. Defined.

(** [float64(failures) / float64(requests)], 0 without requests. *)
Definition error_rate (failures requests : Z) : float64 :=
  if 0 <? requests then F_div (F_of_Z failures) (F_of_Z requests) else F_zero.
Definition duration_of (startedAt finishedAt fallback : Z) : Z :=
  if negb (IsZero startedAt) && negb (IsZero finishedAt) && After finishedAt startedAt
  then Sub finishedAt startedAt else fallback.

Section Floats.
(** [int(f)] of a float beyond the range of [int]. *)
Variable overflow_int : float64 -> Z.

(** The rank a percentile asks for. *)
Definition rank (p : float64) (count : Z) : Z :=
  let target := int_of_float overflow_int (F_ceil (F_mul (F_div p (F_of_Z 100)) (F_of_Z count))) in
  if target <? 1 then 1 else target.
Definition percentile (b : latencyBuckets) (p : float64) : float64 :=
  if (Lat.count b =? 0) || (size (Lat.m b) =? 0)%nat then F_zero
  else
    let keys := sorted_keys (Lat.m b) in
    match percentile_loop (Lat.m b) (rank p (Lat.count b)) 0 keys with
    | Some k => F_of_Z k
    | None => F_of_Z (default 0 (last keys))
    end.

Definition summarizeLatencies (b : latencyBuckets) : loadLatencySummary :=
  if Lat.count b =? 0 then no_summary
  else Latency.mk (Lat.count b) (F_of_Z (Lat.minMs b)) (F_of_Z (Lat.maxMs b))
         (F_div (F_of_Z (Lat.sumMs b)) (F_of_Z (Lat.count b)))
         (percentile b (F_of_Z 50)) (percentile b (F_of_Z 90)) (percentile b (F_of_Z 95)) (percentile b (F_of_Z 99))
         (buildLatencyHistogram b).

Definition sampler_summary (name : string) (sampler : loadSamplerStats) : loadSamplerSummary :=
  SamplerSummary.mk name (Sampler.Count sampler) (Sampler.Failures sampler)
    (error_rate (Sampler.Failures sampler) (Sampler.Count sampler)) (summarizeLatencies (Sampler.lat sampler)).
Definition stage_summary (index : Z) (stage : loadStageStats) : loadStageSummary :=
  let actualDuration :=
    duration_of (StageStats.StartedAt stage) (StageStats.FinishedAt stage) (StageStats.Planned stage) in
  let points := summarizeThroughput (StageStats.ThroughputByS stage) in
  let '(avgRPS, peakRPS) := summarizeRPS (StageStats.Requests stage) actualDuration points in
  StageSummary.mk index (StageStats.Users stage) (StageStats.SpawnRate stage) (StageStats.Planned stage)
    actualDuration (StageStats.Requests stage) (StageStats.Failures stage)
    (error_rate (StageStats.Failures stage) (StageStats.Requests stage)) avgRPS peakRPS
    (summarizeLatencies (StageStats.lat stage)).
Definition summary (s : loadStats) : loadSummary :=
  let actualDuration := duration_of (Stats.StartedAt s) (Stats.FinishedAt s) 0 in
  let points := summarizeThroughput (Stats.ThroughputByS s) in
  let '(averageRPS, peakRPS) := summarizeRPS (Stats.Requests s) actualDuration points in
  Summary.mk (Stats.Requests s) (Stats.Failures s) (error_rate (Stats.Failures s) (Stats.Requests s))
    (Stats.PeakUsers s) actualDuration averageRPS peakRPS (summarizeLatencies (Stats.lat s)) points
    (merge_sort name_before (uncurry sampler_summary <$> map_to_list (Stats.Samplers s)))
    (merge_sort index_before (uncurry stage_summary <$> map_to_list (Stats.Stages s))).

(** ** The histogram an APISIX sidecar is turned into *)
Definition synthetic_range (n : Z) (b : latencyBuckets) (range : float64 * float64 * float64) : latencyBuckets :=
  let '(lo, hi, frac) := range in
  let count := int_of_float overflow_int (F_round (F_mul frac (F_of_Z n))) in
  if count <=? 0 then b
  else
    let '(lo, hi) := if F_lt hi lo then (hi, lo) else (lo, hi) in
    let ms := int_of_float overflow_int (F_round (F_div (F_add lo hi) (F_of_Z 2))) in
    let ms := if ms <? 0 then 0 else ms in
    Lat.mk (bump (bucketLatencyMs ms) count (Lat.m b)) (wrap64 (Lat.count b + count))
           (wrap64 (Lat.sumMs b + wrap64 (ms * count))) (Lat.minMs b) (Lat.maxMs b).
(** The constants 0.50, 0.45, 0.04 and 0.01. *)
Definition shares : list float64 :=
  [round_decimal false 50 (-2); round_decimal false 45 (-2); round_decimal false 4 (-2); round_decimal false 1 (-2)].
Definition syntheticBuckets (minMs p50 p95 p99 maxMs : float64) (n : Z) : latencyBuckets :=
  if n <=? 0 then no_latencies
  else
    let ranges := zip (zip [minMs; p50; p95; p99] [p50; p95; p99; maxMs]) shares in
    let b := foldl (synthetic_range n) no_latencies ranges in
    let least := int_of_float overflow_int (F_round minMs) in
    Lat.mk (Lat.m b) (Lat.count b) (Lat.sumMs b) (if least <? 0 then 0 else least)
           (int_of_float overflow_int (F_round maxMs)).
End Floats.

(** ** Histograms of samples *)
Definition samples_of (l : list Z) : latencyBuckets := foldl (fun b ms => addMs ms b) no_latencies l.
Definition copies (m : gmap Z Z) (k : Z) : list Z := replicate (Z.to_nat (default 0 (m !! k))) k.
Definition expand (m : gmap Z Z) : list Z := (map_to_list m).*1 ≫= copies m.
Definition counted (m : gmap Z Z) : Prop := forall k c, m !! k = Some c -> 0 < c.

Lemma bucket_mono x y : x <= y -> bucketLatencyMs x <= bucketLatencyMs y.
Proof.
  intros H. unfold bucketLatencyMs. repeat case_match; bool_to_prop; Z.to_euclidean_division_equations; lia.
Qed.
Lemma bucket_near x : 0 <= x -> bucketLatencyMs x <= x /\ 10 * (x - bucketLatencyMs x) <= x.
Proof.
  intros H. unfold bucketLatencyMs. repeat case_match; bool_to_prop; Z.to_euclidean_division_equations; lia.
Qed.

Lemma copies_ne (m : gmap Z Z) k n l : k ∉ l -> l ≫= copies (bump k n m) = l ≫= copies m.
Proof.
  induction l as [|x l IH]; [done|]. intros [? ?]%not_elem_of_cons. rewrite !bind_cons, IH by done.
  unfold copies, bump. by rewrite lookup_insert_ne.
Qed.
Lemma keys_delete (m : gmap Z Z) k c : m !! k = Some c ->
  exists l, k ∉ l /\ (map_to_list m).*1 ≡ₚ k :: l /\ forall n, (map_to_list (bump k n m)).*1 ≡ₚ k :: l.
Proof.
  intros Hk. exists (map_to_list (delete k m)).*1. split_and!.
  - intros ([k' c'] & Hk' & Hin%elem_of_map_to_list)%list_elem_of_fmap. simpl in Hk'. subst.
    by rewrite lookup_delete_eq in Hin.
  - by rewrite <-(map_to_list_delete m k c).
  - intros n. unfold bump. rewrite <-insert_delete_eq, map_to_list_insert by apply lookup_delete_eq. done.
Qed.
Lemma expand_bump k m : 0 <= default 0 (m !! k) < int64_max -> expand (bump k 1 m) ≡ₚ k :: expand m.
Proof.
  intros Hc. unfold expand.
  assert (copies (bump k 1 m) k = k :: copies m k) as Hnew.
  { unfold copies, bump. rewrite lookup_insert_eq. cbn [default from_option id]. rewrite wrap64_small by (unfold int64_min; lia).
    replace (Z.to_nat (default 0 (m !! k) + 1)) with (S (Z.to_nat (default 0 (m !! k)))) by lia. done. }
  destruct (m !! k) as [c|] eqn:Hk.
  - destruct (keys_delete m k c Hk) as (l & Hl & Hm & Hins).
    rewrite Hins, Hm. rewrite !bind_cons, Hnew, copies_ne by done. done.
  - assert ((map_to_list (bump k 1 m)).*1 ≡ₚ k :: (map_to_list m).*1) as ->
      by (unfold bump; rewrite map_to_list_insert; done).
    rewrite bind_cons, Hnew.
    assert (copies m k = []) as ->. { unfold copies. by rewrite Hk. }
    rewrite copies_ne; [done|]. intros ([k' c'] & Hk' & Hin%elem_of_map_to_list)%list_elem_of_fmap.
    simpl in Hk'. subst. congruence.
Qed.

Lemma samples_spec l : Z.of_nat (length l) <= int64_max ->
  Lat.count (samples_of l) = Z.of_nat (length l) /\ counted (Lat.m (samples_of l)) /\
  expand (Lat.m (samples_of l)) ≡ₚ bucketLatencyMs <$> l.
Proof.
  induction l as [|x l IH] using rev_ind; intros Hlen.
  { split_and!; [done| |done]. by intros k c. }
  rewrite length_app in Hlen. simpl in Hlen. destruct IH as (Hc & Hpos & Hperm); [lia|].
  unfold samples_of. rewrite foldl_app. fold (samples_of l). cbn [foldl].
  set (b := samples_of l) in *. unfold addMs. cbn [Lat.count Lat.m].
  set (k := bucketLatencyMs x).
  assert (0 <= default 0 (Lat.m b !! k) <= Z.of_nat (length l)) as Hk.
  { destruct (Lat.m b !! k) as [c|] eqn:Hk; [|simpl; lia]. specialize (Hpos k c Hk). simpl. split; [lia|].
    destruct (keys_delete _ k c Hk) as (rest & _ & Hm & _).
    apply Permutation_length in Hperm. rewrite length_fmap in Hperm. rewrite <-Hperm. unfold expand.
    rewrite Hm, bind_cons, length_app. unfold copies at 1. rewrite Hk, length_replicate. simpl. lia. }
  split_and!.
  - rewrite Hc, wrap64_small, length_app by (unfold int64_min; lia). simpl. lia.
  - intros k' c'. unfold bump. intros [[<- <-]|[_ H]]%lookup_insert_Some; [|by apply (Hpos k')].
    rewrite wrap64_small by (unfold int64_min; lia). lia.
  - rewrite expand_bump by lia. rewrite fmap_app. cbn [fmap list_fmap]. rewrite Hperm.
    by rewrite <-Permutation_cons_append.
Qed.

Lemma Sorted_replicate n (x : Z) l : Sorted Z.le l -> (forall y, y ∈ l -> x <= y) -> Sorted Z.le (replicate n x ++ l).
Proof.
  intros Hl Hx. induction n as [|n IH]; [done|]. cbn [replicate app]. constructor; [done|].
  destruct n as [|n]; cbn [replicate app]; [|constructor; lia].
  destruct l as [|y l]; constructor. apply Hx. left.
Qed.
Lemma expansion_sorted m ks : Sorted Z.le ks -> Sorted Z.le (ks ≫= copies m).
Proof.
  intros H%Sorted_StronglySorted; [|intros ???; lia]. induction H as [|k ks H IH Hk]; [done|].
  rewrite bind_cons. apply Sorted_replicate; [done|].
  intros y (k' & Hy & Hin)%list_elem_of_bind. apply elem_of_replicate in Hy as [-> _].
  rewrite Forall_forall in Hk. by apply Hk.
Qed.

Lemma percentile_loop_spec m target ks : forall accumulated,
  (forall k c, m !! k = Some c -> 0 <= c) -> 0 <= accumulated < target ->
  accumulated + Z.of_nat (length (ks ≫= copies m)) <= int64_max ->
  percentile_loop m target accumulated ks = (ks ≫= copies m) !! Z.to_nat (target - accumulated - 1).
Proof.
  induction ks as [|k ks IH]; intros acc Hm Hacc Hbound; [done|].
  cbn [percentile_loop]. rewrite bind_cons in *. rewrite length_app in Hbound.
  unfold copies in Hbound at 1. rewrite length_replicate in Hbound.
  set (c := default 0 (m !! k)) in *.
  assert (0 <= c). { unfold c. destruct (m !! k) eqn:E; simpl; [by eapply Hm|lia]. }
  rewrite wrap64_small by (unfold int64_min; lia). unfold copies at 1. fold c.
  destruct (Z.leb_spec target (acc + c)).
  - rewrite lookup_app_l by (rewrite length_replicate; lia). symmetry. apply lookup_replicate. lia.
  - rewrite IH by (done || lia). rewrite lookup_app_r, length_replicate by (rewrite length_replicate; lia).
    f_equal. lia.
Qed.
Lemma last_expansion m ks : counted m -> (forall k, k ∈ ks -> is_Some (m !! k)) ->
  last (ks ≫= copies m) = last ks.
Proof.
  intros Hm Hks. destruct ks as [|k ks _] using rev_ind; [done|].
  rewrite bind_app, last_snoc. cbn [mbind list_bind]. rewrite app_nil_r.
  destruct (Hks k) as [c Hc]; [set_solver|]. specialize (Hm k c Hc).
  unfold copies at 2. rewrite Hc. cbn [default from_option id]. replace (Z.to_nat c) with (S (Z.to_nat (c - 1))) by lia.
  rewrite replicate_S_end. by rewrite app_assoc, last_snoc.
Qed.

Lemma sorted_buckets l : Z.of_nat (length l) <= int64_max ->
  sorted_keys (Lat.m (samples_of l)) ≫= copies (Lat.m (samples_of l)) =
  bucketLatencyMs <$> merge_sort Z.le l.
Proof.
  intros Hlen. destruct (samples_spec l Hlen) as (_ & _ & Hperm).
  apply (Sorted_unique Z.le).
  - apply expansion_sorted. apply (Sorted_merge_sort Z.le).
  - assert (Sorted Z.le (merge_sort Z.le l)) as H by apply (Sorted_merge_sort Z.le).
    induction H as [|x ys _ IH Hx]; [done|]. cbn. constructor; [done|].
    destruct Hx; constructor. by apply bucket_mono.
  - unfold sorted_keys. rewrite (merge_sort_Permutation Z.le). fold (expand (Lat.m (samples_of l))).
    rewrite Hperm. by rewrite merge_sort_Permutation.
Qed.

(** The sample a percentile with this rank answers with. *)
Lemma percentile_sample overflow_int l p : l <> [] -> Z.of_nat (length l) <= int64_max ->
  exists x, merge_sort Z.le l !!
              Z.to_nat (Z.min (rank overflow_int p (Z.of_nat (length l))) (Z.of_nat (length l)) - 1) = Some x /\
            percentile overflow_int (samples_of l) p = F_of_Z (bucketLatencyMs x).
Proof.
  intros Hne Hlen. destruct (samples_spec l Hlen) as (Hcount & Hpos & Hperm).
  assert (0 < length l)%nat as H0 by (destruct l; [done|simpl; lia]).
  set (b := samples_of l) in *. set (r := rank overflow_int p (Z.of_nat (length l))).
  assert (1 <= r) as Hr by (unfold r, rank; case_match; bool_to_prop; lia).
  pose proof (Permutation_length (merge_sort_Permutation Z.le l)) as Hms.
  destruct (lookup_lt_is_Some_2 (merge_sort Z.le l) (Z.to_nat (Z.min r (Z.of_nat (length l)) - 1))) as [x Hx]; [lia|].
  exists x. split; [done|]. unfold percentile. rewrite Hcount.
  replace ((Z.of_nat (length l) =? 0) || (size (Lat.m b) =? 0)%nat) with false.
  2:{ symmetry. apply orb_false_iff. split; [lia|]. apply Nat.eqb_neq. intros Hz%map_size_empty_inv.
      unfold expand in Hperm. rewrite Hz, map_to_list_empty in Hperm. apply Permutation_length in Hperm.
      rewrite length_fmap in Hperm. simpl in Hperm. lia. }
  cbv zeta. fold r.
  assert (length (sorted_keys (Lat.m b) ≫= copies (Lat.m b)) = length l) as Hexp
    by (unfold b; rewrite sorted_buckets, length_fmap, Hms; done).
  rewrite percentile_loop_spec; [|intros k c Hk; specialize (Hpos k c Hk); lia|lia|rewrite Hexp; lia].
  destruct (Z.le_gt_cases r (Z.of_nat (length l))).
  - unfold b. rewrite sorted_buckets, list_lookup_fmap by done.
    replace (r - 0 - 1) with (Z.min r (Z.of_nat (length l)) - 1) by lia. by rewrite Hx.
  - rewrite lookup_ge_None_2 by (rewrite Hexp; lia).
    rewrite <-(last_expansion (Lat.m b)); [|done|].
    2:{ intros k Hk. unfold sorted_keys in Hk. rewrite (merge_sort_Permutation Z.le) in Hk.
        apply list_elem_of_fmap in Hk as ([k' c] & -> & Hin%elem_of_map_to_list). by exists c. }
    unfold b. rewrite sorted_buckets, fmap_last, last_lookup, Hms by done.
    replace (Nat.pred (length l)) with (Z.to_nat (Z.min r (Z.of_nat (length l)) - 1)) by lia. by rewrite Hx.
Qed.

(** The four percentiles of a summary: the float computation gives the nearest
    rank, for every count below [2^31]. *)
Definition nearest_rank (p n : Z) : Z := (p * n + 99) / 100.
Definition percentiles : list Z := [50; 90; 95; 99].
Lemma rank_exact overflow_int p n : p ∈ percentiles -> 1 <= n < 2 ^ 31 ->
  rank overflow_int (F_of_Z p) n = nearest_rank p n.
Proof.
  intros Hp Hn. unfold rank.
  assert (1 <= nearest_rank p n).
  { assert (50 <= p) by (rewrite list_elem_of_In in Hp; simpl in Hp; lia).
    unfold nearest_rank. Z.to_euclidean_division_equations; nia. }
  assert (exists share E c, F_div (F_of_Z p) (F_of_Z 100) = S754_finite false share (- E) /\
    (2 ^ 52 <= Zpos share < 2 ^ 53) /\ (E = 53 \/ E = 54) /\ 1 <= p < 100 /\
    Z.abs (100 * Zpos share - p * 2 ^ E) <= c /\ c * 2 ^ 53 <= 50 * Zpos share) as (share & E & c & -> & H1 & H2 & H3 & H4).
  { rewrite list_elem_of_In in Hp. cbn [In percentiles] in Hp. destruct Hp as [<-|[<-|[<-|[<-|[]]]]].
    - exists (2 ^ 52)%positive, 53, 0. split; [vm_compute; reflexivity|]. lia.
    - exists 8106479329266893%positive, 53, 20. split; [vm_compute; reflexivity|]. lia.
    - exists 8556839292003942%positive, 53, 40. split; [vm_compute; reflexivity|]. lia.
    - exists 8917127262193582%positive, 53, 8. split; [vm_compute; reflexivity|]. lia. }
  rewrite (Floats.mul_ceil overflow_int share E p c n H1 H2 H3 H4 Hn). fold (nearest_rank p n).
  by replace (nearest_rank p n <? 1) with false by lia.
Qed.
Lemma nearest_rank_range p n : p ∈ percentiles -> 1 <= n -> 1 <= nearest_rank p n <= n.
Proof.
  intros Hp Hn. unfold nearest_rank.
  assert (50 <= p <= 99) by (rewrite list_elem_of_In in Hp; simpl in Hp; lia).
  Z.to_euclidean_division_equations; nia.
Qed.

(** A percentile of a summary is the latency of its nearest rank: of fewer
    than [2^31] results, [p50], [p90], [p95] and [p99] are the smallest recorded
    latency that at least that share of the results does not exceed, rounded
    down by at most a tenth.  The rank the code computes in floating point is
    the exact one. *)
Theorem percentile_nearest_rank overflow_int (l : list Z) (p : Z)
    (Hp : p ∈ percentiles) (Hlen : 1 <= Z.of_nat (length l) < 2 ^ 31) (Hms : Forall (fun ms => 0 <= ms) l) :
  exists x, merge_sort Z.le l !! Z.to_nat (nearest_rank p (Z.of_nat (length l)) - 1) = Some x /\
            percentile overflow_int (samples_of l) (F_of_Z p) = F_of_Z (bucketLatencyMs x) /\
            bucketLatencyMs x <= x /\ 10 * (x - bucketLatencyMs x) <= x.
Proof.
  destruct (percentile_sample overflow_int l (F_of_Z p)) as (x & Hx & Hval).
  { intros ->. simpl in Hlen. lia. } { unfold int64_max. lia. }
  destruct (nearest_rank_range p (Z.of_nat (length l)) Hp) as [? ?]; [lia|].
  rewrite rank_exact, Z.min_l in Hx by done. exists x. split_and!; [done|done| |]; apply bucket_near;
    rewrite Forall_forall in Hms; apply Hms;
    rewrite <-(merge_sort_Permutation Z.le l); by eapply list_elem_of_lookup_2.
Qed.
Definition indefinite (f : float64) : Z := int64_min.
Lemma percentile_nearest_rank_witness :
  let l := [250; 30; 41; 1234; 7] in
  95 ∈ percentiles /\
  exists x, merge_sort Z.le l !! Z.to_nat (nearest_rank 95 5 - 1) = Some x /\
            percentile indefinite (samples_of l) (F_of_Z 95) = F_of_Z (bucketLatencyMs x) /\
            bucketLatencyMs x <= x /\ 10 * (x - bucketLatencyMs x) <= x.
Proof.
  intros l. assert (95 ∈ percentiles) as Hp by (apply (bool_decide_unpack _); vm_compute; exact I).
  split; [exact Hp|]. apply (percentile_nearest_rank indefinite l 95 Hp); [simpl; lia|].
  apply (bool_decide_unpack _); vm_compute; exact I.
Defined.

(** ** Sequences of calls *)
Module Res.
Record result := mk { sampler : string; latencyMs : Z; failed : bool; stage : Z; observedAt : Z }.
End Res.
Notation result := Res.result.
Inductive call :=
  | Begins (index : Z) (stage : LoadPlan.Stage.LoadStage) (startedAt : Z)
  | Ends (index finishedAt : Z)
  | Active (count : Z)
  | Result (r : result).
Definition apply_call (s : loadStats) (c : call) : loadStats :=
  match c with
  | Begins index stage startedAt => beginStage index stage startedAt s
  | Ends index finishedAt => endStage index finishedAt s
  | Active count => recordActiveUsers count s
  | Result r => recordResult (Res.sampler r) (Res.latencyMs r) (Res.failed r) (Res.stage r) (Res.observedAt r) s
  end.
Definition apply_calls (calls : list call) (s : loadStats) : loadStats := foldl apply_call s calls.
Definition result_of (c : call) : option result := match c with Result r => Some r | _ => None end.
Definition active_of (c : call) : option Z := match c with Active n => Some n | _ => None end.

(** What is recorded of a list of results. *)
Definition count_of (rs : list result) : Z := wrap64 (Z.of_nat (length rs)).
Definition failures_of (rs : list result) : Z := count_of (filter (fun r => Res.failed r = true) rs).
Definition latencies_of (rs : list result) : latencyBuckets := samples_of (Res.latencyMs <$> rs).
Definition of_sampler (name : string) (rs : list result) : list result := filter (fun r => Res.sampler r = name) rs.
Definition of_stage (index : Z) (rs : list result) : list result := filter (fun r => Res.stage r = index) rs.

(** A map of counters that counts the keys of a list: one counter per key of
    the list, and no other. *)
Definition times_in (k : Z) (l : list Z) : nat := length (filter (fun x => x = k) l).
Definition tallied (l : list Z) (m : gmap Z Z) : Prop :=
  forall k, m !! k = if (times_in k l =? 0)%nat then None else Some (wrap64 (Z.of_nat (times_in k l))).

(** What a histogram tells of a list of latencies: how many there are, in each
    bucket too, their sum, the greatest and the least. *)
Record latencies_told (l : list Z) (b : latencyBuckets) : Prop := {
  told_count : Lat.count b = wrap64 (Z.of_nat (length l));
  told_buckets : tallied (bucketLatencyMs <$> l) (Lat.m b);
  told_sum : Lat.sumMs b = wrap64 (foldr Z.add 0 l);
  told_max : Lat.maxMs b = foldl Z.max 0 l;
  told_min : Z.of_nat (length l) <= int64_max ->
    Lat.minMs b = match l with [] => 0 | x :: rest => foldl Z.min x rest end;
}.

(** The start of a time line and the second of a result on it: the start is the
    earliest time seen, and a result is counted in the whole seconds since. *)
Definition earliest (start observedAt : Z) : Z := if IsZero start then observedAt else Z.min start observedAt.
Definition second_on (start observedAt : Z) : Z :=
  if IsZero start then 0 else Z.max 0 (Z.min int64_max (observedAt - start) / second).
Definition on_line (line : Z * list Z) (r : result) : Z * list Z :=
  (earliest line.1 (Res.observedAt r), line.2 ++ [second_on line.1 (Res.observedAt r)]).

(** The time line of a run, from the start it is given, and that of a stage,
    whose start every [beginStage] sets. *)
Definition run_line_step (line : Z * list Z) (c : call) : Z * list Z :=
  match c with Result r => on_line line r | _ => line end.
Definition run_line (startedAt : Z) (calls : list call) : Z * list Z := foldl run_line_step (startedAt, []) calls.
Definition stage_line_step (index : Z) (line : Z * list Z) (c : call) : Z * list Z :=
  match c with
  | Begins i _ startedAt => if i =? index then (startedAt, line.2) else line
  | Result r => if Res.stage r =? index then on_line line r else line
  | _ => line
  end.
Definition stage_line (index : Z) (calls : list call) : Z * list Z :=
  foldl (stage_line_step index) (0, []) calls.

Definition sampler_accounts (rs : list result) (s : option loadSamplerStats) : Prop :=
  match s with
  | None => rs = []
  | Some s => Sampler.Count s = count_of rs /\ Sampler.Failures s = failures_of rs /\
      latencies_told (Res.latencyMs <$> rs) (Sampler.lat s)
  end.
Definition stage_accounts (rs : list result) (line : Z * list Z) (s : option loadStageStats) : Prop :=
  match s with
  | None => rs = [] /\ line = (0, [])
  | Some s => StageStats.Requests s = count_of rs /\ StageStats.Failures s = failures_of rs /\
      latencies_told (Res.latencyMs <$> rs) (StageStats.lat s) /\
      StageStats.StartedAt s = line.1 /\ tallied line.2 (StageStats.ThroughputByS s)
  end.
Record accounts (startedAt : Z) (calls : list call) (s : loadStats) : Prop := {
  acc_requests : Stats.Requests s = count_of (omap result_of calls);
  acc_failures : Stats.Failures s = failures_of (omap result_of calls);
  acc_lat : latencies_told (Res.latencyMs <$> omap result_of calls) (Stats.lat s);
  acc_start : Stats.StartedAt s = (run_line startedAt calls).1;
  acc_line : tallied (run_line startedAt calls).2 (Stats.ThroughputByS s);
  acc_peak : Stats.PeakUsers s = foldl Z.max 0 (omap active_of calls);
  acc_sampler : forall name,
    sampler_accounts (of_sampler name (omap result_of calls)) (Stats.Samplers s !! name);
  acc_stage : forall index,
    stage_accounts (of_stage index (omap result_of calls)) (stage_line index calls) (Stats.Stages s !! index);
}.

Lemma times_in_snoc k l x : times_in k (l ++ [x]) = (times_in k l + if decide (x = k) then 1 else 0)%nat.
Proof. unfold times_in. rewrite filter_app, length_app, filter_cons, filter_nil. by case_decide. Qed.

Lemma tallied_bump l m k : tallied l m -> tallied (l ++ [k]) (bump k 1 m).
Proof.
  intros H k'. rewrite times_in_snoc. unfold bump. rewrite lookup_insert.
  case_decide as Hk; [subst k'|by rewrite Nat.add_0_r].
  rewrite (H k). destruct (Nat.eqb_spec (times_in k l) 0) as [->|Hn]; [done|].
  destruct (Nat.eqb_spec (times_in k l + 1) 0); [lia|]. f_equal. cbn [default from_option id].
  rewrite LoadPlan.wrap64_add. f_equal. lia.
Qed.

Lemma told_none : latencies_told [] no_latencies.
Proof. by split. Qed.

Lemma told_snoc l b ms : latencies_told l b -> latencies_told (l ++ [ms]) (addMs ms b).
Proof.
  intros [H1 H2 H3 H4 H5].
  split; unfold addMs; cbn [Lat.count Lat.m Lat.sumMs Lat.maxMs Lat.minMs]; rewrite ?length_app; cbn [length].
  - rewrite H1, LoadPlan.wrap64_add. f_equal. lia.
  - rewrite fmap_app. by apply tallied_bump.
  - rewrite H3, LoadPlan.wrap64_add, foldr_app. f_equal. cbn [foldr].
    clear. induction l as [|x l IH]; cbn [foldr]; lia.
  - rewrite foldl_app, H4. cbn [foldl]. destruct (Z.ltb_spec (foldl Z.max 0 l) ms); lia.
  - intros Hlen. rewrite H1, LoadPlan.wrap64_add, wrap64_small by (unfold int64_min; lia).
    destruct l as [|x l]; [done|]. rewrite H5 by lia. cbn [length app foldl].
    rewrite (proj2 (Z.eqb_neq _ _)) by lia. rewrite foldl_app. cbn [orb foldl].
    destruct (Z.ltb_spec ms (foldl Z.min x l)); lia.
Qed.

(** The start and the second as the code computes them. *)
Lemma first_seen_earliest start observedAt : first_seen start observedAt = earliest start observedAt.
Proof.
  unfold first_seen, earliest, Before. destruct (IsZero start); [done|]. cbn [orb].
  destruct (Z.ltb_spec observedAt start); lia.
Qed.
Lemma bucket_second start observedAt :
  throughputBucketIndex (first_seen start observedAt) observedAt = second_on start observedAt.
Proof.
  assert (forall t, throughputBucketIndex t t = 0) as Hnow.
  { intros t. unfold throughputBucketIndex, Sub. destruct (_ || _); [done|].
    replace (t - t) with 0 by lia. reflexivity. }
  unfold first_seen, second_on, Before. destruct (IsZero start) eqn:Hz; [apply Hnow|]. cbn [orb].
  destruct (Z.ltb_spec observedAt start) as [Hlt|Hle].
  - rewrite Hnow. unfold second, int64_max. Z.to_euclidean_division_equations; lia.
  - unfold throughputBucketIndex, Before, Sub. rewrite Hz, (proj2 (Z.ltb_ge _ _)) by done. cbn [orb].
    rewrite Z.max_r by (unfold int64_min, int64_max; lia).
    rewrite Z.quot_div_nonneg by (unfold second, int64_max; lia).
    rewrite Z.max_r; [done|]. apply Z.div_pos; unfold second, int64_max; lia.
Qed.



Lemma count_snoc rs r : wrap64 (count_of rs + 1) = count_of (rs ++ [r]).
Proof. unfold count_of. rewrite LoadPlan.wrap64_add, length_app. f_equal. simpl. lia. Qed.
Lemma failures_snoc rs r : failed_one (Res.failed r) (failures_of rs) = failures_of (rs ++ [r]).
Proof.
  unfold failures_of, failed_one. rewrite filter_app. cbn. destruct (Res.failed r); [by rewrite <-(count_snoc _ r)|].
  cbn. by rewrite app_nil_r.
Qed.

Lemma sampler_recorded rs r s : sampler_accounts rs s ->
  sampler_accounts (rs ++ [r]) (Some (record_sampler (Res.latencyMs r) (Res.failed r) (default new_sampler s))).
Proof.
  intros H. assert (sampler_accounts rs (Some (default new_sampler s))) as (H1 & H2 & H3).
  { destruct s; [done|]. simpl in H. subst. split_and!; [done|done|apply told_none]. }
  unfold record_sampler. split_and!; cbn [Sampler.Count Sampler.Failures Sampler.lat].
  - by rewrite H1, (count_snoc _ r).
  - by rewrite H2, failures_snoc.
  - rewrite fmap_app. by apply told_snoc.
Qed.

Lemma stage_accounts_default rs line i s : stage_accounts rs line s ->
  stage_accounts rs line (Some (default (new_stage i) s)).
Proof.
  destruct s; [done|]. intros [-> ->]. split_and!; [done|done|apply told_none|done|]. done.
Qed.

Lemma stage_recorded rs line r i s : stage_accounts rs line s ->
  stage_accounts (rs ++ [r]) (on_line line r)
    (Some (record_stage (Res.latencyMs r) (Res.failed r) (Res.observedAt r) (default (new_stage i) s))).
Proof.
  intros (H1 & H2 & H3 & H4 & H5)%(stage_accounts_default _ _ i). unfold record_stage. cbv zeta.
  split_and!; cbn [StageStats.Requests StageStats.Failures StageStats.lat StageStats.ThroughputByS StageStats.StartedAt].
  - by rewrite H1, (count_snoc _ r).
  - by rewrite H2, failures_snoc.
  - rewrite fmap_app. by apply told_snoc.
  - rewrite first_seen_earliest. by rewrite H4.
  - rewrite bucket_second, H4. by apply tallied_bump.
Qed.

Lemma stage_line_snoc i calls c : stage_line i (calls ++ [c]) = stage_line_step i (stage_line i calls) c.
Proof. unfold stage_line. by rewrite foldl_app. Qed.
Lemma run_line_snoc startedAt calls c : run_line startedAt (calls ++ [c]) = run_line_step (run_line startedAt calls) c.
Proof. unfold run_line. by rewrite foldl_app. Qed.

(** A call that records no result. *)
Lemma accounts_other startedAt calls c s finishedAt peak stages :
  accounts startedAt calls s -> result_of c = None ->
  peak = Z.max (Stats.PeakUsers s) (default (Stats.PeakUsers s) (active_of c)) ->
  (forall i, stage_accounts (of_stage i (omap result_of calls)) (stage_line_step i (stage_line i calls) c)
               (stages !! i)) ->
  accounts startedAt (calls ++ [c]) (Stats.mk (Stats.StartedAt s) finishedAt (Stats.Requests s)
    (Stats.Failures s) peak (Stats.lat s) (Stats.ThroughputByS s) (Stats.Samplers s) stages).
Proof.
  intros [H1 H2 H3 H4 H5 H6 H7 H8] Hr -> Hst.
  assert (omap result_of (calls ++ [c]) = omap result_of calls) as Hrs
    by (rewrite omap_app; cbn [omap list_omap]; by rewrite Hr, app_nil_r).
  assert (run_line startedAt (calls ++ [c]) = run_line startedAt calls) as Hrl
    by (rewrite run_line_snoc; by destruct c).
  split; rewrite ?Hrs, ?Hrl; try done.
  - cbn [Stats.PeakUsers]. rewrite omap_app, foldl_app, H6. cbn [omap list_omap].
    destruct (active_of c); cbn; lia.
  - intros i. rewrite stage_line_snoc. apply Hst.
Qed.

Lemma accounts_result startedAt calls r s : accounts startedAt calls s ->
  accounts startedAt (calls ++ [Result r]) (apply_call s (Result r)).
Proof.
  intros [H1 H2 H3 H4 H5 H6 H7 H8].
  assert (omap result_of (calls ++ [Result r]) = omap result_of calls ++ [r]) as Hrs by by rewrite omap_app.
  unfold apply_call, recordResult. cbv zeta.
  split; rewrite ?Hrs, ?run_line_snoc; cbn [Stats.Requests Stats.Failures Stats.lat Stats.ThroughputByS
    Stats.PeakUsers Stats.Samplers Stats.Stages Stats.StartedAt run_line_step on_line fst snd].
  - by rewrite H1, (count_snoc _ r).
  - by rewrite H2, failures_snoc.
  - rewrite fmap_app. by apply told_snoc.
  - by rewrite first_seen_earliest, H4.
  - rewrite bucket_second, H4. by apply tallied_bump.
  - by rewrite omap_app, app_nil_r.
  - intros name. unfold of_sampler. rewrite filter_app, filter_cons, filter_nil.
    destruct (decide (Res.sampler r = name)) as [<-|Hne].
    + rewrite lookup_insert_eq. apply sampler_recorded, H7.
    + rewrite app_nil_r, lookup_insert_ne by done. apply H7.
  - intros index. rewrite stage_line_snoc. unfold of_stage. rewrite filter_app, filter_cons, filter_nil.
    cbn [stage_line_step]. destruct (decide (Res.stage r = index)) as [<-|Hne].
    + rewrite lookup_insert_eq, Z.eqb_refl. apply stage_recorded, H8.
    + rewrite app_nil_r, lookup_insert_ne, (proj2 (Z.eqb_neq _ _)) by done. apply H8.
Qed.

Lemma accounts_call startedAt calls c s : accounts startedAt calls s ->
  accounts startedAt (calls ++ [c]) (apply_call s c).
Proof.
  intros H. pose proof (acc_stage _ _ _ H) as H8.
  destruct c as [index stage t|index t|n|r]; cbn [apply_call]; [| | |by apply accounts_result].
  - apply accounts_other; [done|done|cbn; lia|]. intros i. rewrite lookup_insert. cbn [stage_line_step].
    destruct (decide (index = i)) as [->|Hne].
    + rewrite Z.eqb_refl. specialize (H8 i). apply (stage_accounts_default _ _ i) in H8.
      destruct H8 as (? & ? & ? & _ & ?). done.
    + rewrite (proj2 (Z.eqb_neq _ _)) by done. apply H8.
  - unfold endStage. destruct (Stats.Stages s !! index) as [cur|] eqn:Hi.
    + apply accounts_other; [done|done|cbn; lia|]. intros i. rewrite lookup_insert. cbn [stage_line_step].
      destruct (decide (index = i)) as [->|Hne]; [|apply H8]. specialize (H8 i). by rewrite Hi in H8.
    + destruct s. by apply (accounts_other _ _ _ _ _ _ _ H); [|cbn; lia|].
  - apply accounts_other; [done|done| |apply H8]. cbn. destruct (Z.ltb_spec (Stats.PeakUsers s) n); lia.
Qed.

(** C28: after any sequence of calls, in any order, the counters, the latencies
    and the time lines of a run, of every sampler and of every stage are those of
    the results recorded for it.  The latencies are told by their number, sum,
    least and greatest, and by the number in each bucket; the time line counts
    every result in the whole second since its start, which is the earliest time
    seen or the last start a stage was given.  There is an entry for each sampler
    and stage that has results, and the peak is the most users reported. *)
Theorem stats_account (startedAt : Z) (calls : list call) :
  accounts startedAt calls (apply_calls calls (new_stats startedAt)).
Proof.
  induction calls as [|c calls IH] using rev_ind; [by split; try apply told_none|].
  unfold apply_calls in *. rewrite foldl_app. by apply accounts_call.
Qed.

(** The histogram counts the buckets, which round down: up to 109 ms are
    reported as at most 100 ms. *)
Lemma histogram_rounds_down :
  Bucket.Count <$> buildLatencyHistogram (samples_of [109; 1099]) = [0; 0; 0; 1; 0; 0; 1; 0].
Proof. vm_compute. reflexivity. Qed.

(** The percentiles of a sidecar are replaced by the middles of the ranges
    between them: of a run with [p50] 100 ms, [p95] 500 ms and [p99] 900 ms the
    summary reports 50, 300 and 700 ms. *)
Lemma sidecar_percentiles_shift :
  let b := syntheticBuckets indefinite (F_of_Z 0) (F_of_Z 100) (F_of_Z 500) (F_of_Z 900) (F_of_Z 1000) 1000 in
  (percentile indefinite b (F_of_Z 50), percentile indefinite b (F_of_Z 95), percentile indefinite b (F_of_Z 99)) =
  (F_of_Z 50, F_of_Z 300, F_of_Z 700).
Proof. vm_compute. reflexivity. Qed.
(** The shares are rounded one by one: 50 results become 51 samples. *)
Lemma sidecar_samples_gained :
  Lat.count (syntheticBuckets indefinite (F_of_Z 0) (F_of_Z 100) (F_of_Z 500) (F_of_Z 900) (F_of_Z 1000) 50) = 51.
Proof. vm_compute. reflexivity. Qed.

End LoadStats.
