(* ===== verification/LoadRun.v ===== *)
(** Running a load step, [src/backend/internal/runner] load_executor.go and
    apisix_traffic.go: which model generates the traffic, the synthetic model,
    the run on an APISIX sidecar, the thresholds that decide the step, and the
    lines it reports.

    A run is a computation over [Env]: the statistics, how long it has waited,
    and the number of readings of its environment so far.  The clock, the random
    numbers and the context are functions of that number. *)
From Stdlib Require Import ZArith Lia Ascii SpecFloat.
From S2P Require Import Prelude GoStrings Runes Strconv Url LoadPlan ProxyTarget Format Floats Runner LoadStats.
Import GoStrings Runes Strconv LoadPlan Format Runner LoadStats.
#[local] Open Scope run_scope.

Module LoadRun.

(** ** Thresholds *)
Definition compareLoadValue (actual : float64) (op : string) (expected : float64) : bool :=
  if bool_decide (op = "==") then F_eq actual expected
  else if bool_decide (op = "!=") then negb (F_eq actual expected)
  else if bool_decide (op = "<") then F_lt actual expected
  else if bool_decide (op = "<=") then F_le actual expected
  else if bool_decide (op = ">") then F_lt expected actual
  else if bool_decide (op = ">=") then F_le expected actual
  else false.

Definition containsLoadMetric (thresholds : list LoadPlan.Threshold.LoadThreshold) (metric : string) : bool :=
  existsb (fun t => bool_decide (LoadPlan.Threshold.Metric t = metric)) thresholds.

(** A metric of the latencies, under both of its names. *)
Definition latency_metric (latency : loadLatencySummary) (metric : string) : option float64 :=
  if bool_decide (metric ∈ ["http.min_ms"; "latency.min_ms"]) then Some (Latency.MinMillis latency)
  else if bool_decide (metric ∈ ["http.avg_ms"; "latency.avg_ms"]) then Some (Latency.AvgMillis latency)
  else if bool_decide (metric ∈ ["http.max_ms"; "latency.max_ms"]) then Some (Latency.MaxMillis latency)
  else if bool_decide (metric ∈ ["http.p50_ms"; "latency.p50_ms"]) then Some (Latency.P50Millis latency)
  else if bool_decide (metric ∈ ["http.p90_ms"; "latency.p90_ms"]) then Some (Latency.P90Millis latency)
  else if bool_decide (metric ∈ ["http.p95_ms"; "latency.p95_ms"]) then Some (Latency.P95Millis latency)
  else if bool_decide (metric ∈ ["http.p99_ms"; "latency.p99_ms"]) then Some (Latency.P99Millis latency)
  else None.
Definition metricValue (s : loadSummary) (metric sampler : string) : float64 * bool :=
  if bool_decide (metric = "http.error_rate") then (Summary.ErrorRate s, true)
  else if bool_decide (metric ∈ ["throughput.avg_rps"; "traffic.avg_rps"]) then (Summary.AverageRPS s, true)
  else if bool_decide (metric ∈ ["throughput.peak_rps"; "traffic.peak_rps"]) then (Summary.PeakRPS s, true)
  else
    let latency :=
      if bool_decide (sampler = "") then Some (Summary.Latency s)
      else SamplerSummary.Latency <$> List.find (fun item => bool_decide (SamplerSummary.Name item = sampler)) (Summary.Samplers s) in
    match latency with
    | None => (F_zero, false)
    | Some latency => match latency_metric latency metric with
                      | Some v => (v, 0 <? Latency.Count latency)
                      | None => (F_zero, false)
                      end
    end.

Definition known_metrics : list string :=
  ["http.min_ms"; "latency.min_ms"; "http.avg_ms"; "latency.avg_ms"; "http.max_ms"; "latency.max_ms";
   "http.p50_ms"; "latency.p50_ms"; "http.p90_ms"; "latency.p90_ms"; "http.p95_ms"; "latency.p95_ms";
   "http.p99_ms"; "latency.p99_ms"; "throughput.avg_rps"; "traffic.avg_rps"; "throughput.peak_rps"; "traffic.peak_rps"].

Definition taskSamplerName (task : LoadPlan.Task.LoadTask) : string :=
  FirstNonEmpty [LoadPlan.Request.Name (LoadPlan.Task.Request task); LoadPlan.Task.Name task;
                 LoadPlan.Request.Path (LoadPlan.Task.Request task)].
(** The checks of a task, about its own sampler unless they name one. *)
Definition normalized_check (task : LoadPlan.Task.LoadTask) (c : LoadPlan.Threshold.LoadThreshold) :
    LoadPlan.Threshold.LoadThreshold :=
  if bool_decide (LoadPlan.Threshold.Sampler c = "")
  then LoadPlan.Threshold.mk (LoadPlan.Threshold.Metric c) (LoadPlan.Threshold.Op c) (LoadPlan.Threshold.Value c)
         (taskSamplerName task)
  else c.
Definition task_checks (task : LoadPlan.Task.LoadTask) : list LoadPlan.Threshold.LoadThreshold :=
  normalized_check task <$> filter (fun c => LoadPlan.Threshold.Metric c <> "status") (LoadPlan.Task.Checks task).
Definition no_errors : LoadPlan.Threshold.LoadThreshold := LoadPlan.Threshold.mk "http.error_rate" "<=" F_zero "".
Definition effective_thresholds (load : LoadPlan.Spec.LoadSpec) : list LoadPlan.Threshold.LoadThreshold :=
  let thresholds := LoadPlan.Spec.Thresholds load in
  thresholds ++ (if containsLoadMetric thresholds "http.error_rate" then [] else [no_errors]) ++
  concat ((fun user => concat (task_checks <$> LoadPlan.User.Tasks user)) <$> LoadPlan.Spec.Users load).

(** What one threshold says when it does not hold. *)
Definition threshold_failure (summary : loadSummary) (t : LoadPlan.Threshold.LoadThreshold) : option string :=
  let metric := LoadPlan.Threshold.Metric t in
  let op := LoadPlan.Threshold.Op t in
  let limit := fixed 2 (LoadPlan.Threshold.Value t) in
  if bool_decide (metric = "http.error_rate") then
    if compareLoadValue (Summary.ErrorRate summary) op (LoadPlan.Threshold.Value t) then None
    else Some (metric +:+ " " +:+ op +:+ " " +:+ limit +:+ " failed (got " +:+ fixed 4 (Summary.ErrorRate summary) +:+ ")")
  else if bool_decide (metric ∈ known_metrics) then
    let '(value, ok) := metricValue summary metric (LoadPlan.Threshold.Sampler t) in
    if negb ok || negb (compareLoadValue value op (LoadPlan.Threshold.Value t))
    then Some (metric +:+ " " +:+ op +:+ " " +:+ limit +:+ " failed for " +:+
               FirstNonEmpty [LoadPlan.Threshold.Sampler t; "all"])
    else None
  else None.

(** ** The traffic of one user *)
Definition maxInt (left right : Z) : Z := if right <? left then left else right.
Definition syntheticTaskLatency (name : string) : Z :=
  35 + Z.rem (foldl (fun total ch => wrap64 (total + ch)) 0 (runes name)) 25.

(** The choice by weight, shared by users and tasks: [target] is below the total. *)
Definition weight_total (weights : list Z) : Z := foldl (fun total w => wrap64 (total + maxInt 1 w)) 0 weights.
Fixpoint weight_index (target cursor : Z) (weights : list Z) : option nat :=
  match weights with
  | [] => None
  | w :: rest =>
      let cursor := wrap64 (cursor + maxInt 1 w) in
      if target <? cursor then Some O else S <$> weight_index target cursor rest
  end.

Record Env := mkEnv { Reads : nat; Waited : Z; Stats : loadStats }.
Notation loading A := (run Env A).
Definition with_stats (f : loadStats -> loadStats) : loading unit :=
  e <- get_state ;; set_state (mkEnv (Reads e) (Waited e) (f (Stats e))).
Definition read {A} (f : nat -> A) : loading A :=
  e <- get_state ;; set_state (mkEnv (S (Reads e)) (Waited e) (Stats e)) ;;; ret (f (Reads e)).
Definition wait_for (d : Z) : loading unit :=
  e <- get_state ;; set_state (mkEnv (Reads e) (Waited e + d) (Stats e)).

Section Environment.
(** [int(f)] out of range, [time.Now()], [selector.Intn(n)], [ctx.Err()]. *)
Variable overflow_int : float64 -> Z.
Variable Now : nat -> Z.
Variable Intn : nat -> Z -> Z.
Variable ContextErr : nat -> option goerr.

(** [nil] selects the first, as [users[0]] does. *)
Definition pick {A} (weight : A -> Z) (items : list A) (first : A) : loading A :=
  let total := weight_total (weight <$> items) in
  if total <=? 0 then ret (default first (head items))
  else
    target <- read (fun n => Intn n total) ;;
    ret (match weight_index target 0 (weight <$> items) with
         | Some i => default first (items !! i)
         | None => default first (last items)
         end).
Definition pickLoadUser (first : LoadPlan.User.LoadUser) (users : list LoadPlan.User.LoadUser) :
    loading LoadPlan.User.LoadUser := pick LoadPlan.User.Weight users first.
Definition pickLoadTask (first : LoadPlan.Task.LoadTask) (tasks : list LoadPlan.Task.LoadTask) :
    loading LoadPlan.Task.LoadTask := pick LoadPlan.Task.Weight tasks first.

Definition record (sampler : string) (latencyMs stageIndex : Z) : loading unit :=
  now <- read Now ;; with_stats (recordResult sampler latencyMs false stageIndex now).
Definition one_iteration (first : LoadPlan.User.LoadUser) (users : list LoadPlan.User.LoadUser) (stageIndex : Z) : loading unit :=
  user <- pickLoadUser first users ;;
  match LoadPlan.User.Tasks user with
  | [] => record (FirstNonEmpty [LoadPlan.User.Name user; "synthetic"]) 45 stageIndex
  | (first_task :: _) as tasks =>
      task <- pickLoadTask first_task tasks ;;
      record (taskSamplerName task) (syntheticTaskLatency (taskSamplerName task)) stageIndex
  end.
Fixpoint repeat_iterations (n : nat) (body : loading unit) : loading unit :=
  match n with O => ret tt | S n' => body ;;; repeat_iterations n' body end.
Definition recordSyntheticIterations (users : list LoadPlan.User.LoadUser) (iterations stageIndex : Z) : loading unit :=
  match users with
  | [] => record "synthetic" 45 stageIndex
  | first :: _ => repeat_iterations (Z.to_nat iterations) (one_iteration first users stageIndex)
  end.

(** ** A stage of the synthetic model *)
Definition stage_seconds (duration : Z) : Z :=
  let s := int_of_float overflow_int (F_ceil (Seconds duration)) in if s <=? 0 then 1 else s.
Definition tick_wait (duration tick : Z) : Z :=
  let remaining := wrap64 (duration - wrap64 (wrap64 (tick + 1) * second)) in
  if (remaining <? 0) && (- second <? remaining) then second + remaining else second.
Fixpoint ticks (n : nat) (tick stageSeconds : Z) (users : list LoadPlan.User.LoadUser)
    (stage : LoadPlan.Stage.LoadStage) (stageIndex : Z) : loading (option goerr) :=
  match n with
  | O => ret None
  | S n' =>
      stopped <- read ContextErr ;;
      match stopped with
      | Some e => ret (Some e)
      | None =>
          recordSyntheticIterations users (maxInt 1 (LoadPlan.Stage.Users stage)) stageIndex ;;;
          let wait := tick_wait (LoadPlan.Stage.Duration stage) tick in
          if (tick =? stageSeconds - 1) || (wait <=? 0) then ticks n' (tick + 1) stageSeconds users stage stageIndex
          else
            stopped <- read ContextErr ;;
            match stopped with
            | Some e => ret (Some e)
            | None => wait_for wait ;;; ticks n' (tick + 1) stageSeconds users stage stageIndex
            end
      end
  end.
Definition runSyntheticStage (users : list LoadPlan.User.LoadUser) (stageIndex : Z) (stage : LoadPlan.Stage.LoadStage) :
    loading (option goerr) :=
  let stageSeconds := stage_seconds (LoadPlan.Stage.Duration stage) in
  with_stats (recordActiveUsers (LoadPlan.Stage.Users stage)) ;;;
  ticks (Z.to_nat stageSeconds) 0 stageSeconds users stage stageIndex.

Definition evaluateLoadThresholds (load : LoadPlan.Spec.LoadSpec) (stats : loadStats) : option goerr :=
  match omap (threshold_failure (summary overflow_int stats)) (effective_thresholds load) with
  | [] => None
  | failures => Some (ErrText (Join failures "; "))
  end.

(** ** The models *)
Definition stage_text (kind : string) (index : Z) (stage : LoadPlan.Stage.LoadStage) : string :=
  kind +:+ FormatInt (LoadPlan.Stage.Users stage) +:+ " spawn_rate=" +:+ fixed 1 (LoadPlan.Stage.SpawnRate stage) +:+
  " duration=" +:+ Duration_String (LoadPlan.Stage.Duration stage) +:+ ".".
Fixpoint synthetic_stages (step : StepSpec) (users : list LoadPlan.User.LoadUser) (index : Z)
    (stages : list LoadPlan.Stage.LoadStage) : loading (option goerr) :=
  match stages with
  | [] => ret None
  | stage :: rest =>
      started <- read Now ;;
      with_stats (beginStage index stage started) ;;;
      emit (said step "info" (stage_text ("Entering stage " +:+ FormatInt (index + 1) +:+ " with target users=") index stage)) ;;;
      failed <- runSyntheticStage users index stage ;;
      match failed with
      | Some e => ret (Some e)
      | None =>
          ended <- read Now ;;
          with_stats (endStage index ended) ;;;
          if LoadPlan.Stage.Stop stage then ret None else synthetic_stages step users (index + 1) rest
      end
  end.
Definition runSyntheticLoadModel (step : StepSpec) (load : LoadPlan.Spec.LoadSpec) : loading (option goerr) :=
  synthetic_stages step (LoadPlan.Spec.Users load) 0 (LoadPlan.Spec.Stages load).

Definition latency_text (l : loadLatencySummary) : string :=
  "avg=" +:+ fixed 1 (Latency.AvgMillis l) +:+ "ms min=" +:+ fixed 1 (Latency.MinMillis l) +:+ "ms max=" +:+
  fixed 1 (Latency.MaxMillis l) +:+ "ms p50=" +:+ fixed 1 (Latency.P50Millis l) +:+ "ms p90=" +:+
  fixed 1 (Latency.P90Millis l) +:+ "ms p95=" +:+ fixed 1 (Latency.P95Millis l) +:+ "ms p99=" +:+
  fixed 1 (Latency.P99Millis l) +:+ "ms".
Definition probe_text (index : Z) (stage : LoadPlan.Stage.LoadStage) (s : loadSummary) : string :=
  "Probe " +:+ FormatInt (index + 1) +:+ " result: users=" +:+ FormatInt (LoadPlan.Stage.Users stage) +:+ " requests=" +:+
  FormatInt (Summary.Requests s) +:+ " failures=" +:+ FormatInt (Summary.Failures s) +:+ " error_rate=" +:+
  fixed 4 (Summary.ErrorRate s) +:+ " avg=" +:+ fixed 1 (Latency.AvgMillis (Summary.Latency s)) +:+ "ms p95=" +:+
  fixed 1 (Latency.P95Millis (Summary.Latency s)) +:+ "ms p99=" +:+ fixed 1 (Latency.P99Millis (Summary.Latency s)) +:+ "ms.".

(** Every probe has statistics of its own, started at its first reading of the
    clock.  The run ends at the first probe that breaks a threshold, and the
    step passes all the same. *)
Fixpoint scalability_stages (step : StepSpec) (load : LoadPlan.Spec.LoadSpec) (index lastPassingUsers : Z)
    (stages : list LoadPlan.Stage.LoadStage) : loading (option goerr) :=
  match stages with
  | [] =>
      emit (said step "info" ("All " +:+ FormatInt (Z.of_nat (length (LoadPlan.Spec.Stages load))) +:+
        " scalability probes passed. Max sustainable load: " +:+ FormatInt lastPassingUsers +:+ " users.")) ;;;
      ret None
  | stage :: rest =>
      created <- read Now ;;
      with_stats (fun _ => new_stats created) ;;;
      started <- read Now ;;
      with_stats (beginStage 0 stage started) ;;;
      emit (said step "info" (stage_text ("Scalability probe " +:+ FormatInt (index + 1) +:+ ": users=") index stage)) ;;;
      failed <- runSyntheticStage (LoadPlan.Spec.Users load) 0 stage ;;
      match failed with
      | Some e => ret (Some e)
      | None =>
          ended <- read Now ;;
          with_stats (endStage 0 ended) ;;;
          e <- get_state ;;
          emit (said step "info" (probe_text index stage (summary overflow_int (Stats e)))) ;;;
          match evaluateLoadThresholds load (Stats e) with
          | Some err =>
              emit (said step "warn" ("Breaking point found at " +:+ FormatInt (LoadPlan.Stage.Users stage) +:+ " users: " +:+
                                      Error err +:+ ".")) ;;;
              (if 0 <? lastPassingUsers
               then emit (said step "info" ("Max sustainable load: " +:+ FormatInt lastPassingUsers +:+
                                            " users (last passing probe before breaking point)."))
               else emit (said step "warn" "No passing probes recorded; system cannot sustain load at any tested level.")) ;;;
              ret None
          | None => scalability_stages step load (index + 1) (LoadPlan.Stage.Users stage) rest
          end
      end
  end.
Definition runScalabilityModel (step : StepSpec) (load : LoadPlan.Spec.LoadSpec) : loading (option goerr) :=
  scalability_stages step load 0 0 (LoadPlan.Spec.Stages load).

(** ** The report *)
Definition throughput_part (p : loadThroughputPoint) : string :=
  "t+" +:+ FormatInt (Point.OffsetSeconds p) +:+ "s=" +:+ FormatInt (Point.Requests p) +:+ "rps".
Definition formatThroughputTimeline (points : list loadThroughputPoint) : string :=
  match points with
  | [] => "none"
  | _ => if (length points <=? 12)%nat then Join (throughput_part <$> points) ", "
         else Join ((throughput_part <$> take 8 points) ++ "..." ::
                    (throughput_part <$> drop (length points - 3) points)) ", "
  end.
Definition formatHistogram (buckets : list loadHistogramBucket) : string :=
  Join ((fun b => Bucket.Label b +:+ "=" +:+ FormatInt (Bucket.Count b)) <$> buckets) ", ".

Definition sampler_text (s : loadSamplerSummary) : string :=
  "Sampler " +:+ SamplerSummary.Name s +:+ " " +:+ latency_text (SamplerSummary.Latency s) +:+ " count=" +:+
  FormatInt (SamplerSummary.Count s) +:+ " failures=" +:+ FormatInt (SamplerSummary.Failures s) +:+ ".".
Definition stage_report (s : loadStageSummary) : string :=
  "Stage " +:+ FormatInt (StageSummary.Index s + 1) +:+ " summary users=" +:+ FormatInt (StageSummary.Users s) +:+
  " spawn_rate=" +:+ fixed 1 (StageSummary.SpawnRate s) +:+ " duration=" +:+ Duration_String (StageSummary.ActualDuration s) +:+
  " requests=" +:+ FormatInt (StageSummary.Requests s) +:+ " failures=" +:+ FormatInt (StageSummary.Failures s) +:+
  " avg_rps=" +:+ fixed 1 (StageSummary.AverageRPS s) +:+ " peak_rps=" +:+ fixed 1 (StageSummary.PeakRPS s) +:+
  " avg=" +:+ fixed 1 (Latency.AvgMillis (StageSummary.Latency s)) +:+ "ms p95=" +:+
  fixed 1 (Latency.P95Millis (StageSummary.Latency s)) +:+ "ms p99=" +:+
  fixed 1 (Latency.P99Millis (StageSummary.Latency s)) +:+ "ms.".
Definition report (step : StepSpec) (s : loadSummary) : list Line :=
  let histogram := formatHistogram (Latency.Histogram (Summary.Latency s)) in
  said step "info" ("Native traffic run completed with " +:+ FormatInt (Summary.Requests s) +:+ " requests, " +:+
    FormatInt (Summary.Failures s) +:+ " failures, and peak concurrency " +:+ FormatInt (Summary.PeakUsers s) +:+ ".") ::
  said step "info" ("Latency " +:+ latency_text (Summary.Latency s) +:+ ".") ::
  said step "info" ("Throughput avg=" +:+ fixed 1 (Summary.AverageRPS s) +:+ "rps peak=" +:+ fixed 1 (Summary.PeakRPS s) +:+
    "rps timeline=" +:+ formatThroughputTimeline (Summary.Throughput s) +:+ ".") ::
  (if bool_decide (histogram = "") then [] else [said step "info" ("Latency histogram " +:+ histogram +:+ ".")]) ++
  ((fun x => said step "info" (sampler_text x)) <$> Summary.Samplers s) ++
  ((fun x => said step "info" (stage_report x)) <$> Summary.Stages s).
Definition finalizeLoadStep (step : StepSpec) (load : LoadPlan.Spec.LoadSpec) : loading (option goerr) :=
  e <- get_state ;;
  match evaluateLoadThresholds load (Stats e) with
  | Some err => ret (Some err)
  | None => emits (report step (summary overflow_int (Stats e))) ;;; ret None
  end.

(** [netip.ParseAddr] of an address in brackets. *)
Variable ip_literal : string -> bool.
Definition useSyntheticLoadTarget (target : string) : bool :=
  match Url.Parse ip_literal (TrimSpace target) with
  | None => false
  | Some parsed =>
      let host := TrimSpace (ProxyTarget.Hostname (Url.Host parsed)) in
      if bool_decide (host = "") then false
      else if EqualFold host "localhost" || bool_decide (is_Some (ProxyTarget.ParseIP host)) then false
      else negb (ContainsSub host ".")
  end.
End Environment.

Module Metric.
Record TrafficMetricSnapshot := mk {
  Requests : Z; Failures : Z; ErrorRate : float64; RPS : float64; Users : Z; MinMS : float64; AvgMS : float64;
  P50MS : float64; P95MS : float64; P99MS : float64; MaxMS : float64 }.
End Metric.
Definition snapshotMetrics (overflow_int : float64 -> Z) (stats : loadStats) : Metric.TrafficMetricSnapshot :=
  let s := summary overflow_int stats in
  let l := Summary.Latency s in
  Metric.mk (Summary.Requests s) (Summary.Failures s) (Summary.ErrorRate s) (Summary.AverageRPS s) (Summary.PeakUsers s)
    (Latency.MinMillis l) (Latency.AvgMillis l) (Latency.P50Millis l) (Latency.P95Millis l) (Latency.P99Millis l)
    (Latency.MaxMillis l).

(** ** The APISIX sidecar *)
Module Cannon.
Record apisixTaskConfig := mkTask { Method : string; Path : string; Body : string; Headers : gmap string string }.
Record apisixUserConfig := mkUser { Name : string; Weight : Z; Tasks : list apisixTaskConfig }.
Record apisixStageConfig := mkStage { Users : Z; Duration : float64; Stop : bool }.
Record apisixTrafficConfig := mk {
  Target : string; Model : string; RPS : float64; Stages : list apisixStageConfig; UsersDef : list apisixUserConfig }.
Record apisixTrafficResult := mkResult {
  Total : Z; Failures : Z; P50 : float64; P95 : float64; P99 : float64; Min : float64; Max : float64 }.
End Cannon.
Notation apisixTaskConfig := Cannon.apisixTaskConfig.
Notation apisixUserConfig := Cannon.apisixUserConfig.
Notation apisixStageConfig := Cannon.apisixStageConfig.
Notation apisixTrafficConfig := Cannon.apisixTrafficConfig.
Notation apisixTrafficResult := Cannon.apisixTrafficResult.

Definition TrafficCannonTriggerRoute : string := "/_babelsuite/traffic/start".
Definition firstNonEmptyStr (a b : string) : string := if blank a then b else a.
Definition canUseAPISIXTraffic (step : StepSpec) : bool := negb (blank (Step.GatewayURL step)).

Definition apisix_task (t : LoadPlan.Task.LoadTask) : apisixTaskConfig :=
  let r := LoadPlan.Task.Request t in
  Cannon.mkTask (firstNonEmptyStr (LoadPlan.Request.Method r) "GET") (firstNonEmptyStr (LoadPlan.Request.Path r) "/")
    (LoadPlan.Request.Body r) (LoadPlan.Request.Headers r).
Definition buildAPISIXConfig (spec : LoadPlan.Spec.LoadSpec) : apisixTrafficConfig :=
  let model := if bool_decide (LoadPlan.Spec.Variant spec ∈ ["traffic.constant_throughput"; "traffic.open_model"])
               then "open" else "closed" in
  let stages := (fun s => Cannon.mkStage (LoadPlan.Stage.Users s) (Seconds (LoadPlan.Stage.Duration s)) (LoadPlan.Stage.Stop s))
                <$> LoadPlan.Spec.Stages spec in
  let stages := match stages with [] => [Cannon.mkStage 1 (F_of_Z 60) false] | _ => stages end in
  let users := (fun u => Cannon.mkUser (LoadPlan.User.Name u) (LoadPlan.User.Weight u) (apisix_task <$> LoadPlan.User.Tasks u))
               <$> LoadPlan.Spec.Users spec in
  let users := match users with
               | [] => [Cannon.mkUser "default" 1 [Cannon.mkTask "GET" "/" "" ∅]]
               | _ => users
               end in
  Cannon.mk (LoadPlan.Spec.Target spec) model (LoadPlan.Spec.RequestsPerS spec) stages users.

Section Sidecar.
Variable overflow_int : float64 -> Z.
Variable Now : nat -> Z.
Variable Intn : nat -> Z -> Z.
Variable ContextErr : nat -> option goerr.
Variable ip_literal : string -> bool.
(** [json.Marshal] of the configuration, the request with its body and its
    timeout, and [json.Unmarshal] of the answer. *)
Variable MarshalConfig : apisixTrafficConfig -> goerr + string.
Variable Post : string -> string -> Z -> http_outcome.
Variable UnmarshalResult : string -> goerr + apisixTrafficResult.

Definition trigger_timeout (cfg : apisixTrafficConfig) : Z :=
  let totalDuration :=
    foldl (fun total s => wrap64 (total + int_of_float overflow_int (F_mul (Cannon.Duration s) (F_of_Z second))))
          0 (Cannon.Stages cfg) in
  let timeout := wrap64 (totalDuration + 5 * minute) in
  if timeout <? 10 * minute then 10 * minute else timeout.
Definition triggerAPISIXTraffic (gatewayURL cfgJSON : string) (cfg : apisixTrafficConfig) : goerr + apisixTrafficResult :=
  match Post (gatewayURL +:+ TrafficCannonTriggerRoute) cfgJSON (trigger_timeout cfg) with
  | NoRequest e | NoResponse e => inl e
  | ReadFailed e => inl (ErrWrap "read response" e)
  | Response status body =>
      if negb (status =? 200)
      then inl (ErrText ("APISIX sidecar returned HTTP " +:+ FormatInt status +:+ ": " +:+ TrimSpace body))
      else match UnmarshalResult body with
           | inl e => inl (ErrWrap "parse response JSON" e)
           | inr result => inr result
           end
  end.

Definition applyAPISIXResult (result : apisixTrafficResult) (now : Z) (s : loadStats) : loadStats :=
  let lat := syntheticBuckets overflow_int (Cannon.Min result) (Cannon.P50 result) (Cannon.P95 result) (Cannon.P99 result)
               (Cannon.Max result) (Cannon.Total result) in
  let stage := StageStats.mk 0 0 F_zero 0 false (Stats.StartedAt s) now (Cannon.Total result) (Cannon.Failures result) lat ∅ in
  Stats.mk (Stats.StartedAt s) now (Cannon.Total result) (Cannon.Failures result)
    (if Stats.PeakUsers s <? Cannon.Total result then Cannon.Total result else Stats.PeakUsers s) lat
    (Stats.ThroughputByS s) (Stats.Samplers s)
    (match Stats.Stages s !! 0 with Some _ => Stats.Stages s | None => <[0 := stage]> (Stats.Stages s) end).

Definition runAPISIXTraffic (step : StepSpec) (load : LoadPlan.Spec.LoadSpec) : loading (option goerr) :=
  let gatewayURL := TrimSuffix (TrimSpace (Step.GatewayURL step)) "/" in
  emit (said step "info" ("Delegating traffic generation to APISIX sidecar at " +:+ gatewayURL +:+ ".")) ;;;
  let cfg := buildAPISIXConfig load in
  match MarshalConfig cfg with
  | inl e => ret (Some (ErrWrap "apisix traffic: marshal config" e))
  | inr cfgJSON =>
      emit (said step "info" ("Triggering traffic cannon: model=" +:+ Cannon.Model cfg +:+ " stages=" +:+
        FormatInt (Z.of_nat (length (Cannon.Stages cfg))) +:+ " target=" +:+ Cannon.Target cfg +:+ ".")) ;;;
      match triggerAPISIXTraffic gatewayURL cfgJSON cfg with
      | inl e => ret (Some (ErrWrap "apisix traffic: trigger failed" e))
      | inr result =>
          now <- read Now ;;
          with_stats (applyAPISIXResult result now) ;;;
          emit (said step "info" ("APISIX run completed: total=" +:+ FormatInt (Cannon.Total result) +:+ " failures=" +:+
            FormatInt (Cannon.Failures result) +:+ " p50=" +:+ fixed 1 (Cannon.P50 result) +:+ "ms p95=" +:+
            fixed 1 (Cannon.P95 result) +:+ "ms p99=" +:+ fixed 1 (Cannon.P99 result) +:+ "ms.")) ;;;
          ret None
      end
  end.

(** ** The step *)
Definition default_load (step : StepSpec) : LoadPlan.Spec.LoadSpec :=
  LoadPlan.Spec.mk (Node.Variant (Step.Node step)) "" "" F_zero F_zero [] [LoadPlan.Stage.mk (60 * second) 1 F_zero false] [].
Definition then_finalize (step : StepSpec) (load : LoadPlan.Spec.LoadSpec) (m : loading (option goerr)) :
    loading (option goerr) :=
  failed <- m ;;
  match failed with Some e => ret (Some e) | None => finalizeLoadStep overflow_int step load end.
Definition executeLoadStep (step : StepSpec) : loading (option goerr) :=
  let load := default (default_load step) (Step.Load step) in
  emit (said step "info" ("Loaded native traffic plan " +:+ LoadPlan.Spec.PlanPath load +:+ " against " +:+
                          LoadPlan.Spec.Target load +:+ ".")) ;;;
  if bool_decide (LoadPlan.Spec.Variant load = "traffic.scalability")
  then runScalabilityModel overflow_int Now Intn ContextErr step load
  else
    started <- read Now ;;
    with_stats (fun _ => new_stats started) ;;;
    if useSyntheticLoadTarget ip_literal (LoadPlan.Spec.Target load) then
      emit (said step "info" ("Target " +:+ LoadPlan.Spec.Target load +:+
        " resolves as a suite-local symbolic service; using bounded synthetic traffic.")) ;;;
      then_finalize step load (runSyntheticLoadModel overflow_int Now Intn ContextErr step load)
    else if canUseAPISIXTraffic step then then_finalize step load (runAPISIXTraffic step load)
    else
      emit (said step "info" "No APISIX gateway configured; using bounded synthetic traffic.") ;;;
      then_finalize step load (runSyntheticLoadModel overflow_int Now Intn ContextErr step load).
End Sidecar.

(** ** The choice by weight *)
Definition sum_of (l : list Z) : Z := foldr Z.add 0 l.
Definition effective (w : Z) : Z := Z.max 1 w.
Lemma maxInt_spec w : maxInt 1 w = effective w.
Proof. unfold maxInt, effective. destruct (Z.ltb_spec w 1); lia. Qed.
Lemma sum_effective_cons w ws : sum_of (effective <$> w :: ws) = effective w + sum_of (effective <$> ws).
Proof. done. Qed.
Lemma sum_effective_nonneg ws : 0 <= sum_of (effective <$> ws).
Proof. induction ws as [|w ws IH]; [done|]. rewrite sum_effective_cons. unfold effective in *. lia. Qed.
Lemma weight_total_spec ws : forall acc, 0 <= acc -> acc + sum_of (effective <$> ws) <= int64_max ->
  foldl (fun total w => wrap64 (total + maxInt 1 w)) acc ws = acc + sum_of (effective <$> ws).
Proof.
  induction ws as [|w ws IH]; intros acc Ha Hs; [cbn; lia|]. rewrite sum_effective_cons in *. cbn [foldl]. pose proof (sum_effective_nonneg ws).
  rewrite maxInt_spec, wrap64_small by (unfold effective, int64_min in *; lia).
  rewrite IH; unfold effective in *; lia.
Qed.
Lemma weight_index_spec ws : forall target cursor, 0 <= cursor <= target ->
  target < cursor + sum_of (effective <$> ws) -> cursor + sum_of (effective <$> ws) <= int64_max ->
  exists i, weight_index target cursor ws = Some i /\ (i < length ws)%nat /\
            cursor + sum_of (effective <$> take i ws) <= target < cursor + sum_of (effective <$> take (S i) ws).
Proof.
  induction ws as [|w ws IH]; intros target cursor Hc Ht Hs; [cbn in Ht; lia|].
  rewrite sum_effective_cons in Ht, Hs.
  pose proof (sum_effective_nonneg ws). cbn [weight_index].
  rewrite maxInt_spec, wrap64_small by (unfold effective, int64_min in *; lia).
  destruct (Z.ltb_spec target (cursor + effective w)).
  - exists O. rewrite firstn_cons, sum_effective_cons, !firstn_O. change (sum_of (effective <$> [])) with 0.
    cbn [length]. split_and!; [done|lia|lia|lia].
  - destruct (IH target (cursor + effective w)) as (i & -> & Hi & Hr); [unfold effective in *; lia|lia|lia|].
    exists (S i). rewrite !firstn_cons, !sum_effective_cons. cbn [length]. split_and!; [done|lia|lia|lia].
Qed.

(** A user, or a task, is chosen with the share of its weight: of the
    numbers below the sum of the weights (at least 1 each), as many choose the
    item as its weight says, those from the sum of the weights before it. *)
Theorem pick_weighted {A} (Intn : nat -> Z -> Z) (weight : A -> Z) (items : list A) (first : A) (v : world Env)
    (ws := weight <$> items) (total := sum_of (effective <$> ws)) (Hne : items <> []) (Hsum : total <= int64_max)
    (target := Intn (Reads (St v)) total) (Hintn : 0 <= target < total) :
  exists i x, items !! i = Some x /\ (pick Intn weight items first v).1 = x /\
    sum_of (effective <$> take i ws) <= target < sum_of (effective <$> take i ws) + effective (weight x).
Proof.
  destruct (weight_index_spec ws target 0) as (i & Hi & Hlt & Hr); [lia|fold total; lia|fold total; lia|].
  unfold ws in Hlt. rewrite length_fmap in Hlt. destruct (lookup_lt_is_Some_2 items i Hlt) as [x Hx].
  exists i, x. split; [done|].
  assert (take (S i) ws = take i ws ++ [weight x]) as Htake
    by (apply take_S_r; unfold ws; by rewrite list_lookup_fmap, Hx).
  split.
  - unfold pick. fold ws. assert (weight_total ws = total) as -> by (apply weight_total_spec; [done|fold total; lia]).
    replace (total <=? 0) with false by lia. unfold read, bind, get_state, set_state, ret. fold target.
    cbn [fst]. rewrite Hi. cbn. by rewrite Hx.
  - assert (forall l a, sum_of (l ++ [a]) = sum_of l + a) as Hadd.
    { induction l as [|y l IH]; intros a; [cbn; lia|]. change (y + sum_of (l ++ [a]) = y + sum_of l + a). rewrite IH. lia. }
    rewrite Htake, fmap_app in Hr. change (effective <$> [weight x]) with [effective (weight x)] in Hr.
    rewrite Hadd in Hr. lia.
Qed.
Lemma pick_weighted_witness :
  let items := [("a", 3); ("b", 0); ("c", 2)] in
  let v := mkWorld [] (mkEnv 0 0 (new_stats 1)) in
  items <> [] /\ 0 <= 4 < 6 /\
  exists i x, items !! i = Some x /\ (pick (fun _ _ => 4) snd items ("a", 3) v).1 = x /\
    sum_of (effective <$> take i (snd <$> items)) <= 4 < sum_of (effective <$> take i (snd <$> items)) + effective x.2.
Proof.
  intros items v. split; [done|]. split; [lia|].
  apply (pick_weighted (fun _ _ => 4) snd items ("a", 3) v); [done|cbv; discriminate|cbv; split; discriminate || done].
Defined.

(** ** The synthetic model *)
Definition requests_in (v : world Env) : Z := Stats.Requests (Stats (St v)).
Definition failures_in (v : world Env) : Z := Stats.Failures (Stats (St v)).
(** [k] more results without a failure, and [w] more waiting. *)
Definition advanced (k w : Z) (v v' : world Env) : Prop :=
  wrap64 (requests_in v') = wrap64 (requests_in v + k) /\ failures_in v' = failures_in v /\
  Waited (St v') = Waited (St v) + w.
Lemma advanced_refl v : advanced 0 0 v v.
Proof. unfold advanced. by rewrite !Z.add_0_r. Qed.
Lemma advanced_trans k w k' w' v1 v2 v3 : advanced k w v1 v2 -> advanced k' w' v2 v3 ->
  advanced (k + k') (w + w') v1 v3.
Proof.
  intros (H1 & H2 & H3) (H1' & H2' & H3'). unfold advanced. split_and!; [|congruence|lia].
  rewrite H1', <-LoadPlan.wrap64_add, H1, LoadPlan.wrap64_add. f_equal. lia.
Qed.
Lemma advanced_eq k w k' w' v1 v2 : advanced k w v1 v2 -> k = k' -> w = w' -> advanced k' w' v1 v2.
Proof. by intros ? <- <-. Qed.

Section Synthetic.
Variable overflow_int : float64 -> Z.
Variable Now : nat -> Z.
Variable Intn : nat -> Z -> Z.
Variable ContextErr : nat -> option goerr.

Lemma read_advanced {A} (f : nat -> A) v : advanced 0 0 v (read f v).2.
Proof. unfold advanced, requests_in, failures_in. cbn. by rewrite !Z.add_0_r. Qed.
Lemma record_advanced sampler ms index v : advanced 1 0 v (record Now sampler ms index v).2.
Proof.
  unfold advanced, requests_in, failures_in, record, with_stats, read, bind, get_state, set_state, ret.
  cbn. split_and!; [|done|lia]. apply wrap64_small, wrap64_range.
Qed.
Lemma pick_advanced {A} weight (items : list A) first v : advanced 0 0 v (pick Intn weight items first v).2.
Proof.
  unfold pick. case_match; [apply advanced_refl|]. unfold bind. 
  pose proof (read_advanced (fun n => Intn n (weight_total (weight <$> items))) v) as Hr. by destruct (read _ v).
Qed.
Lemma bind_advanced {A B} (m : run Env A) (k : A -> run Env B) a w a' w' v :
  advanced a w v (m v).2 -> (forall x v', advanced a' w' v' (k x v').2) -> advanced (a + a') (w + w') v (bind m k v).2.
Proof.
  intros Hm Hk. unfold bind. destruct (m v) as [x v'] eqn:E. eapply advanced_trans; [exact Hm|]. apply Hk.
Qed.
Lemma iteration_advanced first users index v : advanced 1 0 v (one_iteration Now Intn first users index v).2.
Proof.
  unfold one_iteration, pickLoadUser, pickLoadTask.
  apply (bind_advanced _ _ 0 0 1 0); [apply pick_advanced|]. intros u v'.
  destruct (LoadPlan.User.Tasks u); [apply record_advanced|].
  apply (bind_advanced _ _ 0 0 1 0); [apply pick_advanced|]. intros t v''. apply record_advanced.
Qed.
Lemma repeat_advanced n body : (forall v, advanced 1 0 v (body v).2) ->
  forall v, advanced (Z.of_nat n) 0 v (repeat_iterations n body v).2.
Proof.
  intros Hb. induction n as [|n IH]; intros v; cbn [repeat_iterations]; [apply advanced_refl|].
  eapply advanced_eq; [apply (bind_advanced _ _ 1 0 (Z.of_nat n) 0); [apply Hb|intros _; apply IH]|lia|lia].
Qed.

(** The results of one second of a stage. *)
Definition per_second (users : list LoadPlan.User.LoadUser) (stage : LoadPlan.Stage.LoadStage) : Z :=
  match users with [] => 1 | _ => effective (LoadPlan.Stage.Users stage) end.
Lemma iterations_advanced users stage index v :
  advanced (per_second users stage) 0 v
    (recordSyntheticIterations Now Intn users (maxInt 1 (LoadPlan.Stage.Users stage)) index v).2.
Proof.
  unfold recordSyntheticIterations, per_second. destruct users as [|u users]; [apply record_advanced|].
  rewrite maxInt_spec. eapply advanced_eq; [apply repeat_advanced; intros; apply iteration_advanced| |done].
  unfold effective. lia.
Qed.

(** A stage of a whole number of seconds. *)
Lemma Seconds_whole k : 1 <= k < 2 ^ 31 -> Seconds (k * second) = F_of_Z k.
Proof.
  intros Hk. unfold Seconds. rewrite Z.quot_mul, Z.rem_mul by (unfold second; lia).
  change (F_of_Z 0) with F_zero. replace (F_div F_zero (F_of_Z second)) with F_zero by (vm_compute; reflexivity).
  destruct (Floats.F_of_Z_exact k) as (m & t & -> & _); [lia|]. done.
Qed.
Lemma stage_seconds_whole k : 1 <= k < 2 ^ 31 -> stage_seconds overflow_int (k * second) = k.
Proof.
  intros Hk. unfold stage_seconds. rewrite Seconds_whole by done.
  destruct (Floats.F_of_Z_exact k) as (m & t & Hf & Hm & Hr & Ht & _); [lia|]. rewrite Hf.
  assert (0 < t).
  { destruct (Z.lt_ge_cases 0 t); [done|]. replace t with 0 in Hm by lia. change (2 ^ 0) with 1 in Hm. lia. }
  pose proof (Z.pow_pos_nonneg 2 t ltac:(lia) ltac:(lia)).
  rewrite (Floats.F_ceil_spec m t k) by (rewrite ?Hm; lia || (split; nia)).
  pose proof (Floats.F_trunc_of_Z k ltac:(lia)) as Htr. rewrite Hf in *. unfold int_of_float. rewrite Htr.
  replace ((int64_min <=? k) && (k <=? int64_max)) with true by (unfold int64_min, int64_max; lia).
  by replace (k <=? 0) with false by lia.
Qed.
(** The seconds the code gives a stage are those it lasts, begun ones included,
    as far as the waiting goes: the last of them begins within the stage. *)
Definition seconds_of (stage : LoadPlan.Stage.LoadStage) : Z :=
  stage_seconds overflow_int (LoadPlan.Stage.Duration stage).
Definition paced (stage : LoadPlan.Stage.LoadStage) : Prop :=
  LoadPlan.Stage.Duration stage <= int64_max /\ 1 <= seconds_of stage < 2 ^ 31 /\
  (seconds_of stage - 1) * second < LoadPlan.Stage.Duration stage.
Lemma whole_paced stage k : LoadPlan.Stage.Duration stage = k * second -> 1 <= k < 2 ^ 31 ->
  seconds_of stage = k /\ paced stage.
Proof.
  intros HD Hk. assert (seconds_of stage = k) as Hs by (unfold seconds_of; rewrite HD; by apply stage_seconds_whole).
  split; [done|]. unfold paced. rewrite Hs, HD. unfold second, int64_max. lia.
Qed.
Lemma tick_wait_paced stage tick : paced stage -> 0 <= tick < seconds_of stage - 1 ->
  tick_wait (LoadPlan.Stage.Duration stage) tick = second.
Proof.
  intros (HD & Hk & Hlast) Ht. unfold tick_wait. unfold second in *.
  rewrite (wrap64_small (tick + 1)), (wrap64_small ((tick + 1) * _)), wrap64_small
    by (unfold int64_min, int64_max in *; lia).
  by rewrite (proj2 (Z.ltb_ge _ _)) by lia.
Qed.

Hypothesis Hlive : forall n, ContextErr n = None.

(** The run goes on: it returns no error, with [a] results and [w] of waiting. *)
Definition completes (a w : Z) (m : run Env (option goerr)) : Prop :=
  forall v, (m v).1 = None /\ advanced a w v (m v).2.
Lemma completes_after {A} (m : run Env A) (k : A -> run Env (option goerr)) a w a' w' :
  (forall v, advanced a w v (m v).2) -> (forall x, completes a' w' (k x)) -> completes (a + a') (w + w') (bind m k).
Proof.
  intros Hm Hk v. unfold bind. specialize (Hm v). destruct (m v) as [x v'].
  destruct (Hk x v') as [H1 H2]. split; [done|]. by eapply advanced_trans.
Qed.
Lemma completes_read (k : option goerr -> run Env (option goerr)) a w :
  completes a w (k None) -> completes a w (bind (read ContextErr) k).
Proof.
  intros Hk v. unfold bind. pose proof (read_advanced ContextErr v) as H.
  assert ((read ContextErr v).1 = None) as E by apply Hlive. destruct (read ContextErr v) as [x v']. cbn in E, H. subst x.
  destruct (Hk v') as [H1 H2]. split; [done|]. exact (advanced_trans 0 0 a w _ _ _ H H2).
Qed.
Lemma completes_then (m : run Env (option goerr)) (k : option goerr -> run Env (option goerr)) a w a' w' :
  completes a w m -> completes a' w' (k None) -> completes (a + a') (w + w') (bind m k).
Proof.
  intros Hm Hk v. unfold bind. destruct (Hm v) as [E H]. destruct (m v) as [x v']. cbn in E, H. subst x.
  destruct (Hk v') as [H1 H2]. split; [done|]. by eapply advanced_trans.
Qed.
Lemma completes_eq a w a' w' m : completes a w m -> a = a' -> w = w' -> completes a' w' m.
Proof. by intros ? <- <-. Qed.
Lemma completes_ret : completes 0 0 (ret None).
Proof. intros v. split; [done|apply advanced_refl]. Qed.
Lemma wait_advanced d v : advanced 0 d v (wait_for d v).2.
Proof. unfold advanced, requests_in, failures_in. cbn. by rewrite Z.add_0_r. Qed.
Lemma emit_advanced l v : advanced 0 0 v (emit l v).2.
Proof. unfold advanced, requests_in, failures_in. cbn. by rewrite !Z.add_0_r. Qed.

Lemma ticks_complete users stage index : paced stage ->
  forall n tick, 0 <= tick -> tick + Z.of_nat n = seconds_of stage -> (0 < n)%nat ->
  completes (Z.of_nat n * per_second users stage) ((Z.of_nat n - 1) * second)
    (ticks Now Intn ContextErr n tick (seconds_of stage) users stage index).
Proof.
  intros Hp n. induction n as [|n IH]; intros tick Ht Hn H0; [lia|]. cbn [ticks].
  apply completes_read. eapply completes_eq;
    [apply (completes_after _ _ (per_second users stage) 0 (Z.of_nat n * per_second users stage) (Z.of_nat n * second));
     [intros v; apply iterations_advanced|intros _]|lia|lia].
  destruct n as [|n].
  - replace (tick =? seconds_of stage - 1) with true by lia. apply completes_ret.
  - replace (tick =? seconds_of stage - 1) with false by lia. rewrite tick_wait_paced by (done || lia).
    replace (second <=? 0) with false by done. apply completes_read.
    eapply completes_eq; [apply (completes_after _ _ 0 second); [intros v; apply wait_advanced|intros _; apply IH; lia]|lia|lia].
Qed.

Lemma stage_completes users index stage : paced stage ->
  completes (seconds_of stage * per_second users stage) ((seconds_of stage - 1) * second)
    (runSyntheticStage overflow_int Now Intn ContextErr users index stage).
Proof.
  intros Hp. pose proof Hp as (_ & Hk & _). unfold runSyntheticStage. fold (seconds_of stage).
  eapply completes_eq; [apply (completes_after _ _ 0 0);
    [|intros _; apply (ticks_complete users stage index Hp); lia]|lia|lia].
  intros v. unfold advanced, requests_in, failures_in. cbn. by rewrite !Z.add_0_r.
Qed.

(** The stages that are run: up to one that stops. *)
Fixpoint executed (stages : list LoadPlan.Stage.LoadStage) : list LoadPlan.Stage.LoadStage :=
  match stages with
  | [] => []
  | stage :: rest => stage :: if LoadPlan.Stage.Stop stage then [] else executed rest
  end.
Lemma stages_complete step users stages : Forall paced stages -> forall index,
  completes (sum_of ((fun s => seconds_of s * per_second users s) <$> executed stages))
            (sum_of ((fun s => (seconds_of s - 1) * second) <$> executed stages))
            (synthetic_stages overflow_int Now Intn ContextErr step users index stages).
Proof.
  induction 1 as [|stage stages Hs _ IH]; intros index; cbn [synthetic_stages executed]; [apply completes_ret|].
  rewrite !fmap_cons. cbn [sum_of foldr].
  apply (completes_after _ _ 0 0); [intros; apply read_advanced|intros t].
  apply (completes_after _ _ 0 0); [intros v; unfold advanced, requests_in, failures_in; cbn; by rewrite !Z.add_0_r|intros _].
  apply (completes_after _ _ 0 0); [intros; apply emit_advanced|intros _].
  apply completes_then; [by apply stage_completes|].
  apply (completes_after _ _ 0 0); [intros; apply read_advanced|intros t'].
  apply (completes_after _ _ 0 0); [|intros _; destruct (LoadPlan.Stage.Stop stage); [apply completes_ret|apply IH]].
  intros v. unfold advanced, requests_in, failures_in, with_stats, bind, get_state, set_state, endStage. cbn.
  case_match; cbn; by rewrite !Z.add_0_r.
Qed.

(** C29: a synthetic run that is not cancelled comes to its end.  For each
    second of every stage up to one that stops, begun ones included, it records
    one result for each of its users (one when the plan has no users), none of
    them failed, and it waits one second less than these.  The seconds of a stage
    are the ceiling of its duration as [runSyntheticStage] computes it in floating
    point; they are fewer than [2^31], and the last of them begins within the
    stage, which is so for every whole number of seconds ([whole_paced]). *)
Theorem synthetic_run_completes (step : StepSpec) (load : LoadPlan.Spec.LoadSpec) (v : world Env)
    (Hpaced : Forall paced (LoadPlan.Spec.Stages load)) :
  let '(failed, v') := runSyntheticLoadModel overflow_int Now Intn ContextErr step load v in
  let stages := executed (LoadPlan.Spec.Stages load) in
  failed = None /\
  wrap64 (requests_in v') =
    wrap64 (requests_in v + sum_of ((fun s => seconds_of s * per_second (LoadPlan.Spec.Users load) s) <$> stages)) /\
  failures_in v' = failures_in v /\
  Waited (St v') = Waited (St v) + sum_of ((fun s => (seconds_of s - 1) * second) <$> stages).
Proof.
  destruct (stages_complete step (LoadPlan.Spec.Users load) _ Hpaced 0 v) as [H1 H2].
  unfold runSyntheticLoadModel. destruct (synthetic_stages _ _ _ _ _ _ _ _ v) as [r v']. by split.
Qed.
End Synthetic.

(** ** A sample *)
Definition sample_stage (users seconds : Z) (stop : bool) : LoadPlan.Stage.LoadStage :=
  LoadPlan.Stage.mk (seconds * second) users F_zero stop.
Definition sample_request : LoadPlan.Request.LoadRequest :=
  LoadPlan.Request.mk "GET" "/health" "health" ∅ "" [].
Definition sample_user (name : string) (weight : Z) : LoadPlan.User.LoadUser :=
  LoadPlan.User.mk name name weight LoadPlan.no_wait [LoadPlan.Task.mk "t" "probe" 1 sample_request []].
Definition sample_load (thresholds : list LoadPlan.Threshold.LoadThreshold) : LoadPlan.Spec.LoadSpec :=
  LoadPlan.Spec.mk "traffic.staged" "traffic/plan.star" "http://api" F_zero F_zero
    [sample_user "reader" 3; sample_user "writer" 1]
    [sample_stage 2 3 false; sample_stage 4 2 true; sample_stage 9 9 false] thresholds.
Definition sample_node : StepNode := Node.mk "s1" "traffic" "traffic" "traffic.staged" "" "" "" [] "" [] 0 0 [].
Definition sample_step (load : LoadPlan.Spec.LoadSpec) (gateway : string) : StepSpec :=
  Step.mk "e1" "suite" "Suite" "" "dev" "" ∅ ∅ "" "" "" "" "" "" "" "" "" "" "" 0 1 0 0 (Some load) None None [] None [] []
    false sample_node "" [] gateway [] [].
Definition sample_world : world Env := mkWorld [] (mkEnv 0 0 (new_stats 1)).
Definition sample_now (n : nat) : Z := 1 + Z.of_nat n.
Definition sample_random (n : nat) (bound : Z) : Z := Z.of_nat n mod bound.
Definition never (n : nat) : option goerr := None.

(** Three stages, of 1.5, 2 and 9 seconds; the second one stops the run. *)
Definition uneven_load : LoadPlan.Spec.LoadSpec :=
  LoadPlan.Spec.mk "traffic.staged" "traffic/plan.star" "http://api" F_zero F_zero
    [sample_user "reader" 3; sample_user "writer" 1]
    [LoadPlan.Stage.mk 1500000000 2 F_zero false; sample_stage 4 2 true; sample_stage 9 9 false] [].

Lemma synthetic_run_completes_witness :
  (forall n, never n = None) /\ Forall (paced indefinite) (LoadPlan.Spec.Stages uneven_load) /\
  let '(failed, v') := runSyntheticLoadModel indefinite sample_now sample_random never (sample_step uneven_load "")
                         uneven_load sample_world in
  failed = None /\ wrap64 (requests_in v') = 2 * 2 + 2 * 4 /\ Waited (St v') = 1 * second + 1 * second.
Proof.
  split; [done|].
  assert (Forall (paced indefinite) (LoadPlan.Spec.Stages uneven_load)) as H
    by (unfold paced; repeat constructor; vm_compute; discriminate || reflexivity).
  split; [exact H|].
  pose proof (synthetic_run_completes indefinite sample_now sample_random never (fun n => eq_refl)
           (sample_step uneven_load "") uneven_load sample_world H) as Hrun.
  destruct (runSyntheticLoadModel _ _ _ _ _ _ _) as [failed v']. destruct Hrun as (Hf & Hr & _ & Hw).
  split; [exact Hf|]. split; [rewrite Hr|rewrite Hw]; vm_compute; reflexivity.
Defined.

(** ** The verdict *)

(** A threshold holds when its metric is not evaluated, or has a value that
    compares as it asks. *)
Definition holds (s : loadSummary) (t : LoadPlan.Threshold.LoadThreshold) : Prop :=
  let metric := LoadPlan.Threshold.Metric t in
  metric <> "http.error_rate" /\ metric ∉ known_metrics \/
  exists value, metricValue s metric (LoadPlan.Threshold.Sampler t) = (value, true) /\
                compareLoadValue value (LoadPlan.Threshold.Op t) (LoadPlan.Threshold.Value t) = true.
Lemma threshold_failure_spec s t : threshold_failure s t = None <-> holds s t.
Proof.
  unfold threshold_failure, holds. case_bool_decide as He.
  - rewrite He. unfold metricValue at 1. rewrite bool_decide_true by done.
    destruct (compareLoadValue _ _ _) eqn:Hc; split; try done.
    + intros _. right. by eexists.
    + intros [[? _]|(value & [= <-] & Hv)]; congruence.
  - case_bool_decide as Hk.
    + destruct (metricValue _ _ _) as [value []] eqn:Hm; cbn [negb orb];
        [destruct (compareLoadValue _ _ _) eqn:Hc; cbn [negb orb]|]; split; try done.
      * intros _. right. by exists value.
      * intros [[_ ?]|(v & [= <-] & Hv)]; congruence.
      * intros [[_ ?]|(v & [=] & Hv)]; done.
    + split; [by left|done].
Qed.
Lemma error_rate_zero failures requests : 0 <= failures < 2 ^ 53 -> 1 <= requests < 2 ^ 53 ->
  F_le (error_rate failures requests) F_zero = true -> failures = 0.
Proof.
  intros Hf Hr. unfold error_rate. replace (0 <? requests) with true by lia.
  destruct (Z.eq_dec failures 0) as [|Hne]; [done|].
  destruct (Floats.F_div_pos failures requests) as (m & e & ->); [lia|lia|]. done.
Qed.
Lemma evaluate_spec overflow_int load stats : evaluateLoadThresholds overflow_int load stats = None <->
  Forall (holds (summary overflow_int stats)) (effective_thresholds load).
Proof.
  unfold evaluateLoadThresholds. induction (effective_thresholds load) as [|t ts IH]; [by split|].
  cbn [omap list_omap]. rewrite Forall_cons, <-threshold_failure_spec.
  destruct (threshold_failure (summary overflow_int stats) t); [|rewrite <-IH; tauto].
  split; [done|]. intros [? _]. done.
Qed.
Lemma ErrorRate_summary overflow_int s :
  Summary.ErrorRate (summary overflow_int s) = error_rate (Stats.Failures s) (Stats.Requests s).
Proof. unfold summary. cbv zeta. by destruct (summarizeRPS _ _ _). Qed.

(** A load step passes its thresholds exactly when each of them holds: the
    plan's, those of the checks of its tasks about their own samplers, and, for a
    plan without a threshold of its own on the error rate, that no request
    failed. *)
Theorem load_verdict overflow_int (load : LoadPlan.Spec.LoadSpec) (stats : loadStats)
    (Hf : 0 <= Stats.Failures stats < 2 ^ 53) (Hr : 1 <= Stats.Requests stats < 2 ^ 53) :
  (evaluateLoadThresholds overflow_int load stats = None <->
   Forall (holds (summary overflow_int stats)) (LoadPlan.Spec.Thresholds load) /\
   (forall user task c, user ∈ LoadPlan.Spec.Users load -> task ∈ LoadPlan.User.Tasks user ->
      c ∈ LoadPlan.Task.Checks task -> LoadPlan.Threshold.Metric c <> "status" ->
      holds (summary overflow_int stats) (normalized_check task c)) /\
   (Forall (fun t => LoadPlan.Threshold.Metric t <> "http.error_rate") (LoadPlan.Spec.Thresholds load) ->
    Stats.Failures stats = 0)).
Proof.
  rewrite evaluate_spec. unfold effective_thresholds. cbv zeta. rewrite !Forall_app.
  assert (Forall (holds (summary overflow_int stats))
            (concat ((fun user => concat (task_checks <$> LoadPlan.User.Tasks user)) <$> LoadPlan.Spec.Users load)) <->
          forall user task c, user ∈ LoadPlan.Spec.Users load -> task ∈ LoadPlan.User.Tasks user ->
            c ∈ LoadPlan.Task.Checks task -> LoadPlan.Threshold.Metric c <> "status" ->
            holds (summary overflow_int stats) (normalized_check task c)) as ->.
  { rewrite Forall_concat, Forall_fmap, Forall_forall. apply forall_proper. intros user. split.
    - intros H task c Hu Ht Hc Hs. specialize (H Hu). cbn in H. rewrite Forall_concat, Forall_fmap, Forall_forall in H.
      specialize (H task Ht). cbn in H. unfold task_checks in H. rewrite Forall_fmap, Forall_forall in H.
      apply (H c). by apply list_elem_of_filter.
    - intros H Hu. cbn. rewrite Forall_concat, Forall_fmap, Forall_forall. intros task Ht. cbn. unfold task_checks.
      rewrite Forall_fmap, Forall_forall. intros c [Hs Hc]%list_elem_of_filter. by apply H. }
  assert (Forall (holds (summary overflow_int stats))
            (if containsLoadMetric (LoadPlan.Spec.Thresholds load) "http.error_rate" then [] else [no_errors]) <->
          (Forall (fun t => LoadPlan.Threshold.Metric t <> "http.error_rate") (LoadPlan.Spec.Thresholds load) ->
           Stats.Failures stats = 0)) as ->; [|tauto].
  assert (containsLoadMetric (LoadPlan.Spec.Thresholds load) "http.error_rate" = false <->
          Forall (fun t => LoadPlan.Threshold.Metric t <> "http.error_rate") (LoadPlan.Spec.Thresholds load)) as Hin.
  { unfold containsLoadMetric. induction (LoadPlan.Spec.Thresholds load) as [|t ts IH]; cbn; [by split|].
    rewrite orb_false_iff, IH, Forall_cons, bool_decide_eq_false. done. }
  destruct (containsLoadMetric _ _); [split; [|done]; intros _ H; apply Hin in H; done|].
  rewrite Forall_singleton. unfold holds, no_errors.
  change (metricValue ?s _ _) with (Summary.ErrorRate s, true).
  cbn [LoadPlan.Threshold.Metric LoadPlan.Threshold.Sampler LoadPlan.Threshold.Op LoadPlan.Threshold.Value].
  rewrite ErrorRate_summary. split.
  - intros [[? _]|(v & [= <-] & Hc)] _; [done|]. by apply (error_rate_zero _ (Stats.Requests stats)).
  - intros H. rewrite H by (by apply Hin). right. eexists. split; [done|].
    unfold error_rate. replace (0 <? Stats.Requests stats) with true by lia.
    destruct (Floats.F_of_Z_exact (Stats.Requests stats) Hr) as (m & k & -> & _). done.
Qed.
Definition sample_stats : loadStats :=
  Stats (St (runSyntheticLoadModel indefinite sample_now sample_random never (sample_step (sample_load []) "")
               (sample_load []) sample_world).2).
Lemma load_verdict_witness :
  0 <= Stats.Failures sample_stats < 2 ^ 53 /\ 1 <= Stats.Requests sample_stats < 2 ^ 53 /\
  (evaluateLoadThresholds indefinite (sample_load []) sample_stats = None <->
   Forall (holds (summary indefinite sample_stats)) (LoadPlan.Spec.Thresholds (sample_load [])) /\
   (forall user task c, user ∈ LoadPlan.Spec.Users (sample_load []) -> task ∈ LoadPlan.User.Tasks user ->
      c ∈ LoadPlan.Task.Checks task -> LoadPlan.Threshold.Metric c <> "status" ->
      holds (summary indefinite sample_stats) (normalized_check task c)) /\
   (Forall (fun t => LoadPlan.Threshold.Metric t <> "http.error_rate") (LoadPlan.Spec.Thresholds (sample_load [])) ->
    Stats.Failures sample_stats = 0)).
Proof.
  assert (0 <= Stats.Failures sample_stats < 2 ^ 53) as Hf by (vm_compute; split; discriminate || reflexivity).
  assert (1 <= Stats.Requests sample_stats < 2 ^ 53) as Hr by (vm_compute; split; discriminate || reflexivity).
  split; [exact Hf|]. split; [exact Hr|]. exact (load_verdict indefinite (sample_load []) sample_stats Hf Hr).
Defined.

(** A threshold on a metric the runner does not know, such as one that is
    misspelt, or on the status of the answers, always passes. *)
Lemma unknown_metrics_pass overflow_int (stats : loadStats) :
  let t metric := LoadPlan.Threshold.mk metric "==" (F_of_Z 200) "" in
  threshold_failure (summary overflow_int stats) (t "status") = None /\
  threshold_failure (summary overflow_int stats) (t "http.p95") = None.
Proof. done. Qed.
(** The peak concurrency of a sidecar run is its number of requests. *)
Lemma sidecar_peak overflow_int result now s : Stats.PeakUsers s <= Cannon.Total result ->
  Stats.PeakUsers (applyAPISIXResult overflow_int result now s) = Cannon.Total result.
Proof. intros H. cbn. destruct (Z.ltb_spec (Stats.PeakUsers s) (Cannon.Total result)); lia. Qed.

End LoadRun.
