(* ===== verification/StepRun.v ===== *)
(** Running one step on the local backend, [src/backend/internal/runner]
    local.go, plugin_executor.go and security_executor.go: which of its ways a
    step is run, what a plugin and a security scan decide, and the expectations
    on the reported lines.

    A run starts without lines; the lines it reported so far are the captured
    logs its expectations are matched against.  Containers, the sidecar's
    answers and the formats on the wire are arguments. *)
From Stdlib Require Import ZArith Lia Ascii SpecFloat.
From S2P Require Import Prelude GoStrings Runes Strconv Literals Values StarNode Hub LoadPlan Format Runner LoadStats LoadRun.
Import GoStrings Runes Strconv Values Format Runner.
#[local] Open Scope run_scope.

Module StepRun.
Notation steps A := (run unit A).
Definition newline : string := String (byte_of 10) "".

(** ** Backends *)
Definition NewLocal (configs : list BackendConfig) : BackendConfig :=
  normalizeBackendConfig (default (Config.mk "" "" "" false) (head configs)) "local" "Local Docker" "local".
(** [Capacity]: the variable BABELSUITE_LOCAL_MAX_STEPS and the number of CPUs. *)
Definition Capacity (max_steps : string) (num_cpu : Z) : Z :=
  match ParseInt (TrimSpace max_steps) with
  | Some n => if 0 <? n then n else num_cpu
  | None => num_cpu
  end.

(** The cached answer of the Docker daemon, for five seconds; [ping] is asked
    with no lock held, and [later] is the time it answered. *)
Record availability := mkAvailability { dockerAvailCached : bool; dockerAvailAt : Z }.
Definition dockerAvailTTL : Z := 5 * second.
Definition IsAvailable (config : BackendConfig) (now : Z) (ping : bool) (later : Z) (c : availability) :
    bool * availability :=
  if Config.Permissive config then (true, c)
  else if Sub now (dockerAvailAt c) <? dockerAvailTTL then (dockerAvailCached c, c)
  else (ping, mkAvailability ping later).

(** ** Messages *)
Definition regexp_space (c : ascii) : bool := bool_decide (code c ∈ [9; 10; 12; 13; 32]).
Definition word_or_dot (c : ascii) : bool :=
  (48 <=? code c) && (code c <=? 57) || (65 <=? code c) && (code c <=? 90) || (97 <=? code c) && (code c <=? 122) ||
  (code c =? 95) || (code c =? 46).
(** A match of [logTemplateVar] at the start of the text: its key and its length. *)
Definition template_var (l : bytes) : option (string * nat) :=
  match l with
  | c :: d :: rest =>
      if (code c =? 123) && (code d =? 123) then
        let '(before, rest) := take_while regexp_space rest in
        let '(key, rest) := take_while word_or_dot rest in
        let '(after, rest) := take_while regexp_space rest in
        match key, rest with
        | _ :: _, e :: f :: _ =>
            if (code e =? 125) && (code f =? 125)
            then Some (to_string key, 4 + length before + length key + length after)%nat
            else None
        | _, _ => None
        end
      else None
  | _ => None
  end.
Definition expand_key (step : StepSpec) (key : string) (matched : bytes) : bytes :=
  if bool_decide (key = "suite") then of_string (Step.SuiteTitle step)
  else if bool_decide (key = "profile") then of_string (Step.Profile step)
  else if bool_decide (key = "total") then of_string (FormatInt (Step.TotalSteps step))
  else if bool_decide (key = "healthy") then of_string (FormatInt (Step.HealthySteps step))
  else if HasPrefix key "env." then of_string (default "" (Step.Env step !! TrimPrefix key "env."))
  else matched.
Fixpoint expand_bytes (step : StepSpec) (skip : nat) (l : bytes) : bytes :=
  match l with
  | [] => []
  | c :: l' =>
      match skip with
      | S skip' => expand_bytes step skip' l'
      | O => match template_var l with
             | Some (key, size) => expand_key step key (take size l) ++ expand_bytes step (size - 1) l'
             | None => c :: expand_bytes step 0 l'
             end
      end
  end.
Definition expandLogMessage (msg : string) (step : StepSpec) : string := to_string (expand_bytes step 0 (of_string msg)).

Definition effectiveProfile (step : StepSpec) : string :=
  if bool_decide (Step.RuntimeProfile step = "") then Step.Profile step else Step.RuntimeProfile step.
Definition trafficProfileLabel (variant : string) : string :=
  let plain := ["smoke"; "baseline"; "stress"; "spike"; "soak"; "scalability"; "step"; "wave"; "staged"] in
  let named := ((fun s => ("traffic." +:+ s, s +:+ " traffic")) <$> plain) ++
    [("traffic.constant_throughput", "constant-throughput traffic"); ("traffic.constant_pacing", "constant-pacing traffic");
     ("traffic.open_model", "open-model traffic")] in
  match List.find (fun p => bool_decide (p.1 = variant)) named with Some p => p.2 | None => "traffic" end.
Definition logLevelFromVariant (variant : string) : string :=
  if bool_decide (variant = "log.warn") then "warn"
  else if bool_decide (variant = "log.error") then "error"
  else if bool_decide (variant = "log.debug") then "debug" else "info".
Definition millisecond : Z := 1000000.
Definition nodeDelay (kind : string) : Z :=
  millisecond * (if bool_decide (kind = "task") then 450 else if bool_decide (kind = "mock") then 550
                 else if bool_decide (kind = "service") then 650 else if bool_decide (kind = "traffic") then 1100
                 else if bool_decide (kind = "test") then 700 else 900).
Definition kind_of (step : StepSpec) : string := Node.Kind (Step.Node step).
Definition label_of (step : StepSpec) : string := trafficProfileLabel (Node.Variant (Step.Node step)).
Definition bootMessage (step : StepSpec) : Line :=
  let kind := kind_of step in
  let profile := effectiveProfile step in
  said step "info"
    (if bool_decide (kind = "mock") then
       "Hydrating mock assets from api/ and mock/ for " +:+ Step.SuiteTitle step +:+ " with the " +:+ profile +:+ " profile."
     else if bool_decide (kind = "service") then
       "Starting background service infrastructure for " +:+ Step.SuiteTitle step +:+ " under the " +:+ profile +:+ " profile."
     else if bool_decide (kind = "task") then
       "Running one-shot task assets from tasks/ under the " +:+ profile +:+ " profile."
     else if bool_decide (kind = "traffic") then
       "Starting the " +:+ label_of step +:+ " profile and preparing threshold collectors."
     else if bool_decide (kind = "test") then
       "Running verification assets from tests/ under the " +:+ profile +:+ " profile."
     else "Starting workload under the local runner with the " +:+ profile +:+ " profile.").
Definition probeMessage (step : StepSpec) : Line :=
  let kind := kind_of step in
  said step "info"
    (if bool_decide (kind = "mock") then "Dispatch table loaded and mock endpoint is answering health probes."
     else if bool_decide (kind = "service") then
       "Background service answered readiness probes and is available to downstream steps."
     else if bool_decide (kind = "task") then "Task completed successfully and published its derived outputs."
     else if bool_decide (kind = "traffic") then
       label_of step +:+ " thresholds passed and result summaries are ready for downstream checks."
     else if bool_decide (kind = "test") then "Test checks completed without violating suite assertions."
     else "Health probe passed and downstream dependencies may proceed.").

Definition emitLogStep (step : StepSpec) : Line :=
  let msg := TrimSpace (Node.Message (Step.Node step)) in
  let msg := if bool_decide (msg = "") then name_of step else msg in
  Hub.mkLine (Node.ID (Step.Node step)) "" (logLevelFromVariant (Node.Variant (Step.Node step))) "user"
             (expandLogMessage msg step).

(** ** What the runner needs of a step *)
Definition stepRequiresContainer (step : StepSpec) : bool :=
  let n := Step.Node step in
  let hasScript := (0 <? Z.of_nat (length (Node.Commands n))) || negb (bool_decide (Node.FileContent n = "")) in
  if bool_decide (kind_of step ∈ ["task"; "test"]) then hasScript
  else if bool_decide (kind_of step = "service") then negb (bool_decide (Node.Image n = ""))
  else false.

(** What the scanner is sent, and what it answers. *)
Module Scanner.
Record scannerConfig := mk {
  Target : string; Mode : string; Technique : string; Path_ : string; Rate : float64; Duration : float64;
  ExpectThrottle : bool; TimeoutMS : Z }.
Record scannerFinding := mkFinding {
  Label : string; Method : string; Path : string; Payload : string; Status : Z; Severity : string; Detail : string }.
Record scannerResult := mkResult {
  Total : Z; PassedChecks : Z; Failed : Z; Findings : list scannerFinding }.
End Scanner.
Notation scannerConfig := Scanner.scannerConfig.
Notation scannerFinding := Scanner.scannerFinding.
Notation scannerResult := Scanner.scannerResult.
Definition sidecarInternalURL : string := "http://127.0.0.1:9080".
Definition AttackScannerTriggerRoute : string := "/_babelsuite/attack/start".

(** What a plugin answers. *)
Module Finding.
Record pluginFinding := mk { Label : string; Severity : string; Detail : string }.
Record pluginResult := mkResult {
  Passed : bool; Findings : list pluginFinding; Stderr : string; Summary : string; Level : string;
  Attributes : gmap string string }.
End Finding.
Notation pluginFinding := Finding.pluginFinding.
Notation pluginResult := Finding.pluginResult.

Section Local.
(** [unicode.IsPrint] above ASCII, for [%q]. *)
Variable IsPrint : Z -> bool.
Notation q := (Quote IsPrint).

Definition requireResolvedStepFile (step : StepSpec) : option goerr :=
  if negb (bool_decide (kind_of step ∈ ["task"; "test"; "service"])) then None
  else
    let file := TrimSpace (Node.File (Step.Node step)) in
    if bool_decide (file = "") || negb (blank (Node.FileContent (Step.Node step))) then None
    else
      let searched := [file; "tasks/" +:+ file; "tests/" +:+ file] in
      Some (ErrText ("file " +:+ q file +:+ " was not found in the suite package (looked for " +:+
        Join searched ", " +:+ ") — check the path or ship the file")).

(** ** Expectations *)
Definition captured (lines : list Line) : list string :=
  filter (fun text => text <> "") ((fun l => TrimSpace (Hub.LineText l)) <$> reverse lines).
Definition evaluation_failed (step : StepSpec) (text : string) : steps (option goerr) :=
  emit (said step "error" (text +:+ ".")) ;;; ret (Some (ErrText text)).
Fixpoint first_missing (joinedLogs : string) (expected : list string) : option string :=
  match expected with
  | [] => None
  | e :: rest => if bool_decide (e = "") || ContainsSub joinedLogs e then first_missing joinedLogs rest else Some e
  end.
Fixpoint first_forbidden (joinedLogs : string) (forbidden : list string) : option string :=
  match forbidden with
  | [] => None
  | f :: rest => if negb (bool_decide (f = "")) && ContainsSub joinedLogs f then Some f else first_forbidden joinedLogs rest
  end.
Definition evaluateStepExpectations (step : StepSpec) (exitCode : Z) (logs : list string) : steps (option goerr) :=
  match Step.Evaluation step with
  | None => ret None
  | Some ev =>
      let wrong_exit := match StarNode.ExpectExit ev with
                        | Some code => if exitCode =? code then None else Some code
                        | None => None
                        end in
      match wrong_exit with
      | Some code => evaluation_failed step ("evaluation failed: expected exit code " +:+ FormatInt code +:+ ", got " +:+
                                             FormatInt exitCode)
      | None =>
          let joinedLogs := Join logs newline in
          match first_missing joinedLogs (StarNode.ExpectLogs ev) with
          | Some expected => evaluation_failed step ("evaluation failed: expected logs containing " +:+ q expected)
          | None =>
              match first_forbidden joinedLogs (StarNode.FailOnLogs ev) with
              | Some forbidden => evaluation_failed step ("evaluation failed: encountered forbidden log match " +:+ q forbidden)
              | None =>
                  if bool_decide (is_Some (StarNode.ExpectExit ev)) || (0 <? Z.of_nat (length (StarNode.ExpectLogs ev))) ||
                     (0 <? Z.of_nat (length (StarNode.FailOnLogs ev)))
                  then emit (said step "info" "Evaluation controls passed for exit code and log assertions.") ;;; ret None
                  else ret None
              end
          end
      end
  end.
(** With the lines captured so far. *)
Definition evaluate_now (step : StepSpec) : steps (option goerr) :=
  fun w => evaluateStepExpectations step 0 (captured (Lines w)) w.

(** The expectations of a step on an exit code and the captured lines. *)
Definition meets (step : StepSpec) (exitCode : Z) (logs : list string) : Prop :=
  forall ev, Step.Evaluation step = Some ev ->
    (forall code, StarNode.ExpectExit ev = Some code -> exitCode = code) /\
    (forall e, e ∈ StarNode.ExpectLogs ev -> e = "" \/ ContainsSub (Join logs newline) e = true) /\
    (forall f, f ∈ StarNode.FailOnLogs ev -> f = "" \/ ContainsSub (Join logs newline) f = false).
Lemma first_missing_None logs expected : first_missing logs expected = None <->
  forall e, e ∈ expected -> e = "" \/ ContainsSub logs e = true.
Proof.
  induction expected as [|x l IH]; cbn [first_missing]; [split; [intros _ e He; by apply elem_of_nil in He|done]|].
  case_bool_decide as Hx; cbn [orb]; [|destruct (ContainsSub logs x) eqn:Hc].
  1,2: rewrite IH; setoid_rewrite elem_of_cons; split; [intros H e [-> |He]; [tauto|by apply H]|intros H e He; apply H; tauto].
  split; [done|]. intros H. destruct (H x); [left|done|congruence].
Qed.
Lemma first_forbidden_None logs forbidden : first_forbidden logs forbidden = None <->
  forall f, f ∈ forbidden -> f = "" \/ ContainsSub logs f = false.
Proof.
  induction forbidden as [|x l IH]; cbn [first_forbidden]; [split; [intros _ e He; by apply elem_of_nil in He|done]|].
  case_bool_decide as Hx; cbn [negb andb]; [|destruct (ContainsSub logs x) eqn:Hc].
  1,3: rewrite IH; setoid_rewrite elem_of_cons; split; [intros H e [-> |He]; [tauto|by apply H]|intros H e He; apply H; tauto].
  split; [done|]. intros H. destruct (H x); [left|done|congruence].
Qed.
Lemma evaluate_passes step exitCode logs w :
  (evaluateStepExpectations step exitCode logs w).1 = None <-> meets step exitCode logs.
Proof.
  unfold evaluateStepExpectations, meets, evaluation_failed. destruct (Step.Evaluation step) as [ev|] eqn:Hev; [|by split].
  assert (forall P : StarNode.StepEvaluation -> Prop, (forall ev', Some ev = Some ev' -> P ev') <-> P ev) as Hone
    by (intros P; split; [intros H; by apply H|intros H ev' [= <-]; done]).
  rewrite (Hone (fun ev => _ /\ _ /\ _)), <-(first_missing_None (Join logs newline)), <-first_forbidden_None.
  set (wrong := match StarNode.ExpectExit ev with Some _ => _ | None => None end).
  assert (wrong = None <-> forall code, StarNode.ExpectExit ev = Some code -> exitCode = code) as Hw.
  { unfold wrong. destruct (StarNode.ExpectExit ev) as [code|]; [|by split].
    destruct (Z.eqb_spec exitCode code) as [->|Hn].
    - split; [intros _ c [= <-]; reflexivity|done].
    - split; [discriminate|intros H; exfalso; apply Hn, H; reflexivity]. }
  rewrite <-Hw. clearbody wrong. clear Hw Hone.
  destruct wrong; [split; [done|intros [? _]; done]|].
  destruct (first_missing _ _); [split; [done|intros (_ & ? & _); done]|].
  destruct (first_forbidden _ _); [split; [done|intros (_ & _ & ?); done]|].
  case_match; by split.
Qed.

Lemma evaluate_now_spec step w : (evaluate_now step w).1 = None ->
  meets step 0 (captured (Lines w)) /\ exists added, Lines (evaluate_now step w).2 = added ++ Lines w.
Proof.
  intros H. unfold evaluate_now in *. split; [by eapply evaluate_passes|].
  revert H. unfold evaluateStepExpectations, evaluation_failed, emit, ret, bind.
  repeat (case_match; cbn); intros; simplify_eq; solve [by exists [] | by eexists [_]].
Qed.

(** ** Plugins *)
Definition canUsePlugin (step : StepSpec) (plugins : list CustomPlugin) : goerr + option CustomPlugin :=
  match Step.Plugin step with
  | None => inr None
  | Some call =>
      if blank (Step.GatewayURL step) then inr None
      else match List.find (fun p => bool_decide (Custom.Name p = Plugin.Name call)) plugins with
           | None => inr None
           | Some p =>
               if (0 <? Z.of_nat (length (Custom.Operations p))) && negb (bool_decide (Plugin.Op call ∈ Custom.Operations p))
               then inl (ErrText ("plugin " +:+ q (Custom.Name p) +:+ " does not support operation " +:+ q (Plugin.Op call) +:+
                                  " (supported: " +:+ Join (Custom.Operations p) ", " +:+ ")"))
               else inr (Some p)
           end
  end.

Definition isUnsetPluginValue (v : Values.any) : bool :=
  match v with Values.ANil => true | Values.AString s => blank s | _ => false end.
Definition merge_one (config : gmap string Values.any) (kv : string * Values.any) : gmap string Values.any :=
  if bool_decide (is_Some (config !! kv.1)) && isUnsetPluginValue kv.2 then config else <[kv.1 := kv.2]> config.
Definition mergePluginConfig (env : gmap string string) (pluginConfig : Values.any) : gmap string Values.any :=
  foldl merge_one (Values.AString <$> env) (match pluginConfig with Values.AMap entries => entries | _ => [] end).

(** [pluginFindings.UnmarshalJSON]; the decoders of an object and of a list of
    findings belong to encoding/json. *)
Variable UnmarshalObject : string -> goerr + gmap string string.
Variable UnmarshalFindings : string -> goerr + list pluginFinding.
Definition findings_UnmarshalJSON (data : string) : goerr + list pluginFinding :=
  let trimmed := TrimSpace data in
  if bool_decide (trimmed = "") || bool_decide (trimmed = "null") then inr []
  else if HasPrefix trimmed "{" then
    check object := UnmarshalObject trimmed in
    if (0 <? size object)%nat
    then inl (ErrText ("findings must be an array, got an object with " +:+ FormatInt (Z.of_nat (size object)) +:+ " field(s)"))
    else inr []
  else UnmarshalFindings trimmed.

(** The request, with the configuration of the call, and the answer. *)
Variable MarshalPayload : string -> string -> gmap string Values.any -> goerr + string.
Variable PostPlugin : string -> string -> http_outcome.
Variable UnmarshalPlugin : string -> goerr + pluginResult.

Definition finding_line (step : StepSpec) (f : pluginFinding) : Line :=
  said step (if bool_decide (Finding.Severity f = "critical") then "error" else "warn")
    ("Finding [" +:+ Finding.Label f +:+ "] severity=" +:+ Finding.Severity f +:+ " — " +:+ Finding.Detail f +:+ ".").
Definition plugin_report (step : StepSpec) (result : pluginResult) : list Line :=
  let summary := TrimSpace (Finding.Summary result) in
  let level := TrimSpace (Finding.Level result) in
  (if bool_decide (Finding.Stderr result = "") then []
   else [said step "warn" ("Plugin stderr: " +:+ TrimSpace (Finding.Stderr result))]) ++
  (finding_line step <$> Finding.Findings result) ++
  (if bool_decide (summary = "") then []
   else [said step (if bool_decide (level = "") then "info" else level) summary]) ++
  [said step "debug" ("Plugin complete: passed=" +:+ (if Finding.Passed result then "true" else "false") +:+ " findings=" +:+
                      FormatInt (Z.of_nat (length (Finding.Findings result))) +:+ ".")].
Definition executePlugin (step : StepSpec) (call : PluginSpec) (plugin : CustomPlugin) : steps (option goerr) :=
  let gatewayURL := TrimSuffix (TrimSpace (Step.GatewayURL step)) "/" in
  let op := TrimSpace (Plugin.Op call) in
  let named text := "plugin " +:+ Custom.Name plugin +:+ ": " +:+ text in
  emit (said step "debug" ("Dispatching to plugin " +:+ q (Custom.Name plugin) +:+
    (if bool_decide (op = "") then "" else " op=" +:+ op) +:+ " at " +:+ gatewayURL +:+ ".")) ;;;
  match MarshalPayload (name_of step) (Plugin.Op call) (mergePluginConfig (Step.Env step) (Plugin.Config call)) with
  | inl e => ret (Some (ErrWrap (named "marshal payload") e))
  | inr body =>
      let trigger := TrimSpace (Custom.Trigger plugin) in
      if bool_decide (trigger = "") then ret (Some (ErrText (named "no trigger route configured")))
      else
        match PostPlugin (gatewayURL +:+ trigger) body with
        | NoRequest e => ret (Some (ErrWrap (named "build request") e))
        | NoResponse e => ret (Some (ErrWrap (named "request failed") e))
        | ReadFailed e => ret (Some (ErrWrap (named "read response") e))
        | Response status respBody =>
            if negb (status =? 200)
            then ret (Some (ErrText (named ("sidecar returned HTTP " +:+ FormatInt status +:+ ": " +:+ TrimSpace respBody))))
            else
              match UnmarshalPlugin respBody with
              | inl e => ret (Some (ErrWrap (named "parse response") e))
              | inr result =>
                  emits (plugin_report step result) ;;;
                  (if Finding.Passed result then ret None
                   else ret (Some (ErrText (named (FormatInt (Z.of_nat (length (Finding.Findings result))) +:+
                                                   " finding(s) exceeded thresholds")))))
              end
        end
  end.

(** ** Security scans *)
Definition canUseAPISIXSecurity (step : StepSpec) : bool :=
  if blank (Step.GatewayURL step) then false
  else match Step.Security step with
       | None => false
       | Some spec => bool_decide (Security.Variant spec ∈
           ["security.probe"; "security.fuzz"; "security.auth"; "security.flood"; "security.headers"; "security.verbs";
            "security.graphql"; "security.cors"])
       end.
Definition buildScannerConfig (spec : SecuritySpec) : scannerConfig :=
  let mode := TrimPrefix (Security.Variant spec) "security." in
  let target := if bool_decide (Security.Target spec = "") then sidecarInternalURL else Security.Target spec in
  if bool_decide (mode = "flood") then
    Scanner.mk target mode (Security.Technique spec) (Security.FloodPath spec)
      (if F_lt F_zero (Security.FloodRate spec) then Security.FloodRate spec else F_zero)
      (if F_lt F_zero (Security.FloodDuration spec) then Security.FloodDuration spec else F_zero)
      (Security.FloodThrottle spec) 10000
  else Scanner.mk target mode (Security.Technique spec) "" F_zero F_zero false 10000.

Variable MarshalScanner : scannerConfig -> goerr + string.
Variable PostScanner : string -> string -> http_outcome.
Variable UnmarshalScanner : string -> goerr + scannerResult.
Definition triggerScanner (gatewayURL cfgJSON : string) : goerr + scannerResult :=
  match PostScanner (gatewayURL +:+ AttackScannerTriggerRoute) cfgJSON with
  | NoRequest e | NoResponse e => inl e
  | ReadFailed e => inl (ErrWrap "read response" e)
  | Response status body =>
      if negb (status =? 200) then inl (ErrText ("scanner returned HTTP " +:+ FormatInt status +:+ ": " +:+ TrimSpace body))
      else match UnmarshalScanner body with
           | inl e => inl (ErrWrap "parse response" e)
           | inr result => inr result
           end
  end.

Definition findings_count (result : scannerResult) : Z := Z.of_nat (length (Scanner.Findings result)).
Fixpoint security_thresholds (result : scannerResult) (thresholds : list SecurityThreshold) : option goerr :=
  match thresholds with
  | [] => None
  | t :: rest =>
      let metric := Security.Metric t in
      let actual :=
        if bool_decide (metric = "findings.total") then Some (F_of_Z (findings_count result))
        else if bool_decide (metric = "findings.failed") then Some (F_of_Z (Scanner.Failed result))
        else None in
      match actual with
      | None => security_thresholds result rest
      | Some actual =>
          if LoadRun.compareLoadValue actual (Security.Operator t) (Security.Value t) then security_thresholds result rest
          else Some (ErrText ("security threshold " +:+ metric +:+ " " +:+ Security.Operator t +:+ " " +:+
                              fixed 0 (Security.Value t) +:+ " violated (got " +:+ fixed 0 actual +:+ ")"))
      end
  end.
Definition evaluateSecurityThresholds (spec : SecuritySpec) (result : scannerResult) : option goerr :=
  if (0 <? Scanner.Failed result) && (length (Security.Thresholds spec) =? 0)%nat
  then Some (ErrText (FormatInt (Scanner.Failed result) +:+ " security check(s) failed with " +:+
                      FormatInt (findings_count result) +:+ " finding(s)"))
  else security_thresholds result (Security.Thresholds spec).

Definition scan_line (step : StepSpec) (f : scannerFinding) : Line :=
  said step "warn" ("Finding [" +:+ Scanner.Label f +:+ "] " +:+ Scanner.Method f +:+ " " +:+ Scanner.Path f +:+ " status=" +:+
    FormatInt (Scanner.Status f) +:+ " severity=" +:+ Scanner.Severity f +:+ " — " +:+ Scanner.Detail f +:+ ".").
Definition executeSecurityStep (step : StepSpec) : steps (option goerr) :=
  match Step.Security step with
  | None => ret (Some (ErrText ("security step " +:+ q (name_of step) +:+ " has no security spec")))
  | Some spec =>
      if negb (canUseAPISIXSecurity step)
      then ret (Some (ErrText ("security step " +:+ q (name_of step) +:+
             " requires an APISIX sidecar — add a mock.api node before this step in the topology")))
      else
        let gatewayURL := TrimSuffix (TrimSpace (Step.GatewayURL step)) "/" in
        let mode := TrimPrefix (Security.Variant spec) "security." in
        emit (said step "info" ("Starting " +:+ mode +:+ " assessment via APISIX sidecar at " +:+ gatewayURL +:+ ".")) ;;;
        match MarshalScanner (buildScannerConfig spec) with
        | inl e => ret (Some (ErrWrap "security: marshal config" e))
        | inr cfgJSON =>
            match triggerScanner gatewayURL cfgJSON with
            | inl e => ret (Some (ErrWrap "security: scanner failed" e))
            | inr result =>
                emits ((scan_line step <$> Scanner.Findings result) ++
                  [said step "info" ("Assessment complete: total=" +:+ FormatInt (Scanner.Total result) +:+ " passed=" +:+
                     FormatInt (Scanner.PassedChecks result) +:+ " failed=" +:+ FormatInt (Scanner.Failed result) +:+
                     " findings=" +:+ FormatInt (findings_count result) +:+ ".")]) ;;;
                ret (evaluateSecurityThresholds spec result)
            end
        end
  end.

(** ** The local backend *)

(** The load step of LoadRun; the result of a container; whether the daemon
    answers; whether the context ends before the delay of a step without work. *)
Variable LoadStep : StepSpec -> steps (option goerr).
Variable Docker : StepSpec -> steps (option goerr).
Variable docker_available : bool.
Variable cancelled : bool.

Definition failed_line (step : StepSpec) (text : string) (e : goerr) : Line := said step "error" (text +:+ Error e).
(** Whether the step was handled, and its error. *)
Definition runInProcessStep (step : StepSpec) : steps (bool * option goerr) :=
  if bool_decide (kind_of step = "plugin") then
    match canUsePlugin step (Step.RegisteredPlugins step), Step.Plugin step with
    | inl e, _ => emit (failed_line step "" e) ;;; ret (true, Some e)
    | inr (Some p), Some call =>
        failed <- executePlugin step call p ;;
        match failed with
        | Some e => emit (failed_line step "Plugin execution failed: " e) ;;; ret (true, Some e)
        | None => ret (true, None)
        end
    | inr _, None => ret (true, Some (ErrText ("plugin step " +:+ q (name_of step) +:+ " carries no plugin call")))
    | inr None, Some call =>
        if blank (Step.GatewayURL step)
        then ret (true, Some (ErrText ("plugin step " +:+ q (name_of step) +:+
               ": the suite's APISIX sidecar is not running, so plugin " +:+ q (Plugin.Name call) +:+ " cannot be reached")))
        else ret (true, Some (ErrText ("plugin step " +:+ q (name_of step) +:+ ": no registered plugin named " +:+
               q (Plugin.Name call) +:+ " — add it to configuration.yaml")))
    end
  else if bool_decide (kind_of step = "security") then
    failed <- executeSecurityStep step ;;
    match failed with
    | Some e => emit (failed_line step "Security step failed: " e) ;;; ret (true, Some e)
    | None => ret (true, None)
    end
  else if bool_decide (kind_of step = "traffic") && bool_decide (is_Some (Step.Load step)) then
    emit (said step "info" ("Resolving " +:+ label_of step +:+ " assets from traffic/ before the run begins.")) ;;;
    emit (said step "info" ("Applying the " +:+ label_of step +:+ " profile budgets for users, pacing, and latency thresholds.")) ;;;
    failed <- LoadStep step ;;
    match failed with
    | Some e => ret (true, Some e)
    | None => failed <- evaluate_now step ;; ret (true, failed)
    end
  else ret (false, None).

Definition runSimulatedStep (step : StepSpec) : steps (option goerr) :=
  if cancelled then
    emit (said step "warn" "Runner received cancellation before the step finished.") ;;; ret (Some Canceled)
  else
    (if bool_decide (kind_of step = "traffic")
     then emit (said step "info"
            "Synthetic traffic reached the target ramp and streamed aggregate counters back to the runner.")
     else ret tt) ;;;
    emit (probeMessage step) ;;;
    emit (said step "info" "Local runner reported the step healthy and released the lease cycle.") ;;;
    evaluate_now step.

Definition announcements (step : StepSpec) : list Line :=
  [said step "info" "Local runner claimed the step on the host worker."; bootMessage step] ++
  (if (0 <? size (Step.Env step))%nat
   then [said step "info" ("Injected " +:+ FormatInt (Z.of_nat (size (Step.Env step))) +:+
                           " runtime variables into the step context.")] else []) ++
  (if bool_decide (kind_of step = "mock") && (0 <? size (Step.Headers step))%nat
   then [said step "info" ("Forwarded " +:+ FormatInt (Z.of_nat (size (Step.Headers step))) +:+
                           " runtime headers into the mock context.")] else []) ++
  (if (0 <? length (Step.ArtifactExports step))%nat
   then [said step "info" ("Registered " +:+ FormatInt (Z.of_nat (length (Step.ArtifactExports step))) +:+
                           " artifact export rules for this step.")] else []).
Definition run_step (step : StepSpec) : steps (option goerr) :=
  if bool_decide (kind_of step = "log") then emit (emitLogStep step) ;;; ret None
  else
    match requireResolvedStepFile step with
    | Some e => emit (failed_line step "" e) ;;; ret (Some e)
    | None =>
        emits (announcements step) ;;;
        '(handled, failed) <- runInProcessStep step ;;
        if handled : bool then ret failed
        else if docker_available && stepRequiresContainer step then
          failed <- Docker step ;;
          match failed with
          | Some e => emit (failed_line step "Container execution failed: " e) ;;; ret (Some e)
          | None => evaluate_now step
          end
        else runSimulatedStep step
    end.
(** [Local.Run]: the error, and the lines in the order they are reported. *)
Definition Run (step : StepSpec) : option goerr * list Line :=
  let '(failed, w) := run_step step (mkWorld [] tt) in (failed, reverse (Lines w)).
(** ** Runs of a step *)

(** The kinds of steps whose expectations are evaluated. *)
Definition evaluated (step : StepSpec) : Prop := kind_of step ∉ ["log"; "plugin"; "security"].

(** A step other than a message, a plugin call or a scan passes only when
    its expectations hold for exit code 0 and the lines reported up to the end of
    its work; no step passes that expects another exit code. *)
Theorem passing_step_meets_expectations (step : StepSpec) (lines : list Line)
    (Hkind : evaluated step) (Hrun : Run step = (None, lines)) :
  exists before after, lines = before ++ after /\ meets step 0 (captured (reverse before)).
Proof using Type.
  assert (forall w, (run_step step w).1 = None -> exists w' : world unit,
    meets step 0 (captured (Lines w')) /\ exists added, Lines (run_step step w).2 = added ++ Lines w') as H.
  { unfold evaluated in Hkind. intros w. unfold run_step. rewrite bool_decide_false by set_solver.
    destruct (requireResolvedStepFile step); [done|]. rewrite !bind_run.
    set (w1 := (emits _ _).2). unfold runInProcessStep. rewrite (bool_decide_false (kind_of step = "plugin")) by set_solver.
    rewrite (bool_decide_false (kind_of step = "security")) by set_solver.
    destruct (bool_decide (kind_of step = "traffic") && _).
    - rewrite !bind_run. set (w2 := (emit _ _).2). destruct (LoadStep step w2) as [[e|] w3]; [done|]. cbn [fst snd].
      rewrite !bind_run. intros Hn. exists w3. by apply evaluate_now_spec.
    - change ((ret (false, None) w1).1) with (false, @None goerr). change ((ret (false, None) w1).2) with w1. cbv iota.
      destruct (docker_available && stepRequiresContainer step).
      + rewrite !bind_run. destruct (Docker step w1) as [[e|] w3]; [done|].
        intros Hn. exists w3. by apply evaluate_now_spec.
      + unfold runSimulatedStep. destruct cancelled; [done|].
        rewrite !bind_run. intros Hn. eexists. by apply evaluate_now_spec. }
  unfold Run in Hrun. specialize (H (mkWorld [] tt)). destruct (run_step step (mkWorld [] tt)) as [r w].
  injection Hrun as -> <-. destruct (H eq_refl) as (w' & Hm & added & Ha). cbn in Ha.
  exists (reverse (Lines w')), (reverse added). rewrite Ha, reverse_app, reverse_involutive. done.
Qed.

(** A task, a test or a service that names a file the package does not
    contain always fails, with one line that says so, whatever its image, its
    commands or the backend. *)
Theorem missing_file_fails (step : StepSpec)
    (Hkind : kind_of step ∈ ["task"; "test"; "service"])
    (Hfile : blank (Node.File (Step.Node step)) = false) (Hcontent : blank (Node.FileContent (Step.Node step)) = true) :
  exists e, Run step = (Some e, [said step "error" (Error e)]).
Proof using Type.
  assert (exists e, requireResolvedStepFile step = Some e) as [e He].
  { unfold requireResolvedStepFile. rewrite bool_decide_true, Hcontent by done. cbn [negb orb].
    rewrite bool_decide_false by (by apply blank_false in Hfile). by eexists. }
  exists e. unfold Run, run_step. rewrite bool_decide_false, He; [done|]. intros E. rewrite E in Hkind. set_solver.
Qed.

(** The configuration of a plugin call is the profile's environment
    overridden by the arguments of the call, except that an argument that is
    unset does not erase a value of the environment. *)
Theorem mergePluginConfig_spec (env : gmap string string) (entries : list (string * Values.any)) (k : string)
    (Hnodup : NoDup entries.*1) :
  mergePluginConfig env (Values.AMap entries) !! k =
  match Values.get k entries, env !! k with
  | Some v, Some d => Some (if isUnsetPluginValue v then Values.AString d else v)
  | Some v, None => Some v
  | None, d => Values.AString <$> d
  end.
Proof using Type.
  unfold mergePluginConfig.
  assert (forall config, foldl merge_one config entries !! k =
    match Values.get k entries, config !! k with
    | Some v, Some d => Some (if isUnsetPluginValue v then d else v)
    | Some v, None => Some v
    | None, d => d
    end) as H.
  { induction entries as [|[k' v] entries IH]; intros config; [done|]. cbn [foldl Values.get].
    apply NoDup_cons in Hnodup as [Hnew Hnodup]. rewrite IH by done.
    assert (k' = k -> Values.get k entries = None) as Hget.
    { intros ->. clear -Hnew. induction entries as [|[k'' v'] entries IH]; [done|]. cbn in Hnew |- *.
      apply not_elem_of_cons in Hnew as [Hne Hnew]. rewrite bool_decide_false by congruence. by apply IH. }
    unfold merge_one. cbn [fst snd]. destruct (decide (k' = k)) as [->|Hk].
    - rewrite (bool_decide_true (k = k)), Hget by done. destruct (config !! k) as [d|] eqn:Hd.
      + rewrite bool_decide_true by done. cbn [andb].
        destruct (isUnsetPluginValue v); [by rewrite Hd|by rewrite lookup_insert_eq].
      + rewrite bool_decide_false by (intros [? [=]]). cbn [andb]. by rewrite lookup_insert_eq.
    - rewrite (bool_decide_false (k' = k)) by done.
      destruct (bool_decide (is_Some (config !! k')) && _); [done|]. by rewrite lookup_insert_ne by done. }
  rewrite H, lookup_fmap. destruct (Values.get k entries), (env !! k); done.
Qed.
End Local.

(** The load step within a run of another state. *)
Definition within {S T A} (s : T) (m : run T A) : run S A :=
  fun w => let '(x, w') := m (mkWorld (Lines w) s) in (x, mkWorld (Lines w') (St w)).

(** ** A sample *)
Definition plain_letters (r : Z) : bool := false.
Definition sample_node (kind file content : string) : StepNode :=
  Node.mk "s1" "seed" kind "task.run" "" "" file [] content [] 0 0 [].
Definition sample_step (kind file content : string) (ev : option StarNode.StepEvaluation) : StepSpec :=
  Step.mk "e1" "suite" "Suite" "" "dev" "" ∅ ∅ "" "" "" "" "" "" "" "" "" "" "" 0 1 0 0 None None None [] ev [] []
    false (sample_node kind file content) "" [] "" [] [].
Definition no_load (step : StepSpec) : steps (option goerr) := ret None.
Definition container (step : StepSpec) : steps (option goerr) := emit (containerLine step "seeded 3 rows") ;;; ret None.
Definition no_json {A} (x : A) : goerr + string := inl Canceled.
Definition no_payload (a b : string) (c : gmap string Values.any) : goerr + string := inl Canceled.
Definition no_answer {A} (s : string) : goerr + A := inl Canceled.
Definition no_post (url body : string) : http_outcome := NoResponse Canceled.
Definition sample_run (step : StepSpec) : option goerr * list Line :=
  Run plain_letters no_payload no_post no_answer no_json no_post no_answer no_load container true false step.
Definition sample_ev : StarNode.StepEvaluation := StarNode.mkEvaluation (Some 0) ["3 rows"] ["FATAL"].

Lemma passing_step_meets_expectations_witness :
  let step := sample_step "task" "seed.sh" "echo" (Some sample_ev) in
  let lines := (sample_run step).2 in
  evaluated step /\ sample_run step = (None, lines) /\
  exists before after, lines = before ++ after /\ meets step 0 (captured (reverse before)).
Proof.
  intros step lines.
  assert (evaluated step) as Hk by (unfold evaluated; apply (bool_decide_unpack _); vm_compute; exact I).
  assert (sample_run step = (None, lines)) as Hr by (vm_compute; reflexivity).
  split; [exact Hk|]. split; [exact Hr|].
  exact (passing_step_meets_expectations plain_letters no_payload no_post no_answer no_json no_post no_answer no_load
           container true false step lines Hk Hr).
Defined.
Lemma missing_file_fails_witness :
  let step := sample_step "test" "smoke.py" "" None in
  kind_of step ∈ ["task"; "test"; "service"] /\ blank (Node.File (Step.Node step)) = false /\
  blank (Node.FileContent (Step.Node step)) = true /\
  exists e, sample_run step = (Some e, [said step "error" (Error e)]).
Proof.
  intros step.
  assert (kind_of step ∈ ["task"; "test"; "service"]) as Hk by (apply (bool_decide_unpack _); vm_compute; exact I).
  split; [exact Hk|]. split; [reflexivity|]. split; [reflexivity|].
  apply (missing_file_fails plain_letters no_payload no_post no_answer no_json no_post no_answer no_load container true
           false step Hk); reflexivity.
Defined.
Lemma mergePluginConfig_spec_witness :
  let env := <["sim_url" := "http://sim"]> ∅ in
  let entries := [("sim_url", Values.AString ""); ("speed", Values.AFloat F_zero)] in
  NoDup entries.*1 /\
  mergePluginConfig env (Values.AMap entries) !! "sim_url" =
  match Values.get "sim_url" entries, env !! "sim_url" with
  | Some v, Some d => Some (if isUnsetPluginValue v then Values.AString d else v)
  | Some v, None => Some v
  | None, d => Values.AString <$> d
  end.
Proof.
  intros env entries. assert (NoDup entries.*1) as H by (apply (bool_decide_unpack _); vm_compute; exact I).
  split; [exact H|]. exact (mergePluginConfig_spec env entries "sim_url" H).
Defined.

(** A step that expects a nonzero exit code fails even when its container
    exits with it, which is an error of the container run. *)
Lemma nonzero_exit_never_passes :
  (sample_run (sample_step "task" "seed.sh" "exit 3" (Some (StarNode.mkEvaluation (Some 3) [] [])))).1 =
  Some (ErrText "evaluation failed: expected exit code 3, got 0").
Proof. vm_compute. reflexivity. Qed.
(** The expectations are matched against the runner's own lines too: a task
    without a script passes an expected log nobody printed, and the file name in
    the announcement of a task fails a forbidden one. *)
Lemma own_lines_match :
  (sample_run (sample_step "task" "" "" (Some (StarNode.mkEvaluation None ["Task completed successfully"] [])))).1 = None /\
  (sample_run (sample_step "task" "seed.sh" "echo" (Some (StarNode.mkEvaluation None [] ["tasks/"])))).1 <> None.
Proof. split; [vm_compute; reflexivity|]. intros H. vm_compute in H. discriminate H. Qed.
(** A threshold on another metric lets failed checks pass. *)
Lemma unknown_security_metric_passes :
  evaluateSecurityThresholds
    (Security.mk "security.probe" "" "" "" F_zero F_zero false [Security.mkThreshold "findings.critical" "<=" F_zero])
    (Scanner.mkResult 4 1 3 []) = None.
Proof. reflexivity. Qed.

End StepRun.
