(* ===== verification/Containers.v ===== *)
(** Names, scripts and files of containers, [src/backend/internal/runner]
    docker_exec.go, docker_labels.go, kubernetes_services.go and
    kubernetes_inventory.go: what the Docker and the Kubernetes backend call
    their objects, the script a step runs, and which files of its workspace are
    read as artifacts. *)
From Stdlib Require Import ZArith Lia Ascii.
From S2P Require Import Prelude GoStrings Runes Strconv Suites CallText Values StarNode LoadPlan Hub Format Runner.
Import GoStrings Runes Strconv Runner.

Module Containers.

(** ** Names *)
Definition lower_alnum (ch : Z) : bool := (97 <=? ch) && (ch <=? 122) || (48 <=? ch) && (ch <=? 57).
Definition sanitize_rune (ch : Z) : Z :=
  if lower_alnum ch || (ch =? 45) then ch
  else if (65 <=? ch) && (ch <=? 90) then ch + 32 else 45.
Definition sanitizeID (id : string) : string :=
  Trim (slice_to (to_string (encode_runes (sanitize_rune <$> runes id))) 40) "-".

Definition dns_rune (ch : Z) : Z := if lower_alnum ch then ch else 45.
Definition k8sDNSLabel (s : string) : string :=
  let s := Trim (to_string (encode_runes (dns_rune <$> runes (ToLower s)))) "-" in
  if (63 <? String.length s)%nat then TrimRight (slice_to s 63) "-" else s.

(** [fnv.New32a], and a number of 32 bits as eight hexadecimal digits. *)
Definition fnv_byte (h : Z) (c : ascii) : Z := (Z.lxor h (code c) * 16777619) mod 2 ^ 32.
Definition Sum32 (s : string) : Z := foldl fnv_byte 2166136261 (of_string s).
Definition hex_digit (d : Z) : ascii := byte_of (if d <? 10 then 48 + d else 87 + d).
Definition hex8 (n : Z) : string := to_string ((fun i => hex_digit (n / 16 ^ i mod 16)) <$> [7; 6; 5; 4; 3; 2; 1; 0]).

(** The pod of the node [id] in an execution. *)
Definition pod_name (executionID id : string) : string :=
  let full := "babel-" +:+ sanitizeID executionID +:+ "-" +:+ k8sDNSLabel id in
  if (String.length full <=? 63)%nat then TrimRight full "-"
  else TrimRight (slice_to full 54) "-" +:+ "-" +:+ hex8 (Sum32 id).
Definition k8sPodName (step : StepSpec) : string := pod_name (Step.ExecutionID step) (Node.ID (Step.Node step)).
Definition k8sExecutionSubdomain (executionID : string) : string := k8sDNSLabel ("babel-" +:+ executionID).
Definition k8sWorkspaceClaim (executionID : string) : string := k8sDNSLabel ("babel-" +:+ executionID +:+ "-workspace").
Definition executionDomain (namespace executionID : string) : string :=
  k8sExecutionSubdomain executionID +:+ "." +:+ namespace +:+ ".svc." +:+ "cluster.local".
(** [alias[idx+1:]] after the last slash. *)
Definition last_segment (alias : string) : string :=
  let idx := LastIndex alias "/" in if 0 <=? idx then slice_from alias (idx + 1) else alias.
Definition k8sServiceHostname (step : StepSpec) : string :=
  let label := k8sDNSLabel (last_segment (default (name_of step) (head (Step.NetworkAliases step)))) in
  if negb (bool_decide (label = "")) then label else k8sDNSLabel (Node.ID (Step.Node step)).

(** A label value keeps letters of both cases, underscores and dots. *)
Definition label_rune (ch : Z) : Z :=
  if lower_alnum ch || (65 <=? ch) && (ch <=? 90) || (ch =? 45) || (ch =? 95) || (ch =? 46) then ch else 45.
Fixpoint drop_cutset (cutset : string) (l : bytes) : bytes :=
  match l with
  | c :: l' => if bool_decide (c ∈ of_string cutset) then drop_cutset cutset l' else l
  | [] => []
  end.
Definition k8sLabelValue (s : string) : string :=
  let l := take 63 (encode_runes (label_rune <$> runes s)) in
  to_string (reverse (drop_cutset "-_." (reverse (drop_cutset "-_." l)))).

Definition executionNetworkName (executionID : string) : string := "babel-net-" +:+ sanitizeID executionID.
Definition ExecutionNetworkName (executionID : string) : string := executionNetworkName executionID.
Definition containerName (executionID id : string) : string :=
  "babel-" +:+ sanitizeID executionID +:+ "-" +:+ sanitizeID id.
(** [strings.NewReplacer] on the profile of a sidecar. *)
Definition profile_slug (profile : string) : string :=
  to_string ((fun c => if bool_decide (c ∈ ["."; "/"; " "]%char) then "-"%char else c) <$> of_string profile).
Definition SidecarContainerName (suiteID profile : string) : string :=
  "babel-sidecar-" +:+ sanitizeID suiteID +:+ "-" +:+ sanitizeID (profile_slug profile).
Definition sidecarRunID (suiteID profile : string) : string :=
  "sidecar-" +:+ sanitizeID suiteID +:+ "-" +:+ sanitizeID profile.

(** [filepath.Join] on Unix. *)
Fixpoint path_join (elems : list string) : string :=
  match elems with
  | [] => ""
  | e :: rest => if bool_decide (e = "") then path_join rest else Suites.Clean (Join (e :: rest) "/")
  end.
Definition ExecutionWorkspaceDir (tempDir executionID : string) : string :=
  path_join [tempDir; "babel-workspace"; sanitizeID executionID].
Definition SidecarConfDir (tempDir suiteID profile : string) : string :=
  path_join [tempDir; "babel-sidecar"; sanitizeID suiteID +:+ "-" +:+ sanitizeID (profile_slug profile); "conf"].

(** ** Labels *)
Definition labelManaged : string := "babelsuite.managed".
Definition labelRunID : string := "babelsuite.run_id".
Definition labelOrchestratorPID : string := "babelsuite.orchestrator_pid".
Definition labelSuite : string := "babelsuite.suite".
Definition labelProfile : string := "babelsuite.profile".
Definition managedLabels (pid : Z) (runID : string) (extra : gmap string string) : gmap string string :=
  filter (fun kv => kv.2 <> "") extra ∪
  list_to_map [(labelManaged, "true"); (labelRunID, runID); (labelOrchestratorPID, FormatInt pid)].
Definition sidecarLabels (pid : Z) (suiteID profile : string) : gmap string string :=
  delete labelOrchestratorPID
    (managedLabels pid (sidecarRunID suiteID profile)
       (list_to_map [(labelSuite, suiteID); (labelProfile, profile); ("babelsuite.kind", "apisix-sidecar")])).

(** ** Scripts *)
Definition newline : string := String (byte_of 10) "".
Definition containerWorkspaceMount : string := "/babelsuite/workspace".
Definition typescriptCommand (target : string) : string :=
  "if node --experimental-strip-types -e '' >/dev/null 2>&1; then" +:+ newline +:+
  "  node --experimental-strip-types " +:+ target +:+ newline +:+
  "else" +:+ newline +:+
  "  npx --yes ts-node " +:+ target +:+ newline +:+
  "fi" +:+ newline.
Definition interpreter (ext : string) : string :=
  default "" (list_to_map (M := gmap string string)
    [(".py", "python"); (".sh", "sh"); (".bash", "bash"); (".js", "node"); (".rb", "ruby")] !! ext).
Definition without_returns (s : string) : string := to_string (filter (fun c => c <> byte_of 13) (of_string s)).
Definition file_command (file : string) : string :=
  let ext := ToLower (Suites.Ext file) in
  let target := containerWorkspaceMount +:+ "/" +:+ file in
  if bool_decide (ext = ".ts") then typescriptCommand target
  else if negb (bool_decide (interpreter ext = "")) then interpreter ext +:+ " " +:+ target +:+ newline
  else "/bin/sh " +:+ target +:+ newline.
Definition buildStepScript (step : StepSpec) : string :=
  let node := Step.Node step in
  if bool_decide (Node.FileContent node = "") && (length (Node.Commands node) =? 0)%nat then ""
  else
    "set -e" +:+ newline +:+ "cd " +:+ containerWorkspaceMount +:+ newline +:+
    (if negb (bool_decide (Node.FileContent node = "")) then file_command (Node.File node) else "") +:+
    Join ((fun cmd => without_returns cmd +:+ newline) <$> Node.Commands node) "".

(** [strings.ReplaceAll] of CR LF by LF, then of CR. *)
Fixpoint unify_newlines (l : bytes) : bytes :=
  match l with
  | c :: ((d :: _) as rest) => if (code c =? 13) && (code d =? 10) then unify_newlines rest else c :: unify_newlines rest
  | l => l
  end.
Definition normalizeScriptContent (content : string) : string :=
  ReplaceByte (to_string (unify_newlines (of_string content))) (byte_of 13) (byte_of 10).

(** [path.Dir]: everything up to the last slash, cleaned. *)
Definition Dir (path : string) : string := Suites.Clean (slice_to path (LastIndex path "/" + 1)).
Definition k8sStepScript (step : StepSpec) : string :=
  let script := buildStepScript step in
  if bool_decide (script = "") || bool_decide (Node.FileContent (Step.Node step) = "") then script
  else
    let target := containerWorkspaceMount +:+ "/" +:+ Node.File (Step.Node step) in
    let quote := String quote_byte "" in
    "mkdir -p '" +:+ Dir target +:+ "'" +:+ newline +:+
    "printf '%s' " +:+ quote +:+ "$BABELSUITE_FILE" +:+ quote +:+ " | base64 -d > '" +:+ target +:+ "'" +:+ newline +:+ script.

(** [base64.StdEncoding.EncodeToString]. *)
Definition base64_char (v : Z) : ascii :=
  byte_of (if v <? 26 then 65 + v else if v <? 52 then 71 + v else if v <? 62 then v - 4 else if v =? 62 then 43 else 47).
Fixpoint base64_bytes (l : bytes) : bytes :=
  match l with
  | a :: b :: c :: rest =>
      let v := code a * 65536 + code b * 256 + code c in
      [base64_char (v / 262144); base64_char (v / 4096 mod 64); base64_char (v / 64 mod 64); base64_char (v mod 64)] ++
      base64_bytes rest
  | [a; b] =>
      let v := code a * 65536 + code b * 256 in
      [base64_char (v / 262144); base64_char (v / 4096 mod 64); base64_char (v / 64 mod 64); "="%char]
  | [a] => let v := code a * 65536 in [base64_char (v / 262144); base64_char (v / 4096 mod 64); "="%char; "="%char]
  | [] => []
  end.
Definition EncodeToString (s : string) : string := to_string (base64_bytes (of_string s)).

(** ** Images and artifacts *)
Definition stepImageFromVariant (variant : string) : string :=
  if bool_decide (variant = "task.run") || bool_decide (variant = "test.run") then "alpine:3.19" else "".
Definition resolveStepImage (step : StepSpec) : string :=
  if bool_decide (Node.Kind (Step.Node step) ∈ ["task"; "test"; "service"])
  then stepImageFromVariant (Node.Variant (Step.Node step)) else "".
Definition step_image (step : StepSpec) : string :=
  if bool_decide (Node.Image (Step.Node step) = "") then resolveStepImage step else Node.Image (Step.Node step).
Definition isDetachedService (step : StepSpec) : bool :=
  bool_decide (Node.Kind (Step.Node step) = "service") &&
  (negb (bool_decide (Node.Image (Step.Node step) = "")) || negb (bool_decide (resolveStepImage step = ""))).
Definition artifactTriggerMatchesStatus (trigger status : string) : bool :=
  let t := TrimSpace trigger in
  if bool_decide (t = "") || bool_decide (t = "success") then bool_decide (status = "success")
  else if bool_decide (t = "failure") then bool_decide (status = "failure")
  else bool_decide (t = "always").

Definition maxArtifactBytes : Z := 10 * 1024 * 1024.
(** The file system below the mount: a file that can be opened and read, and
    the matches of a pattern. *)
Section Mount.
Variable Open : string -> goerr + string.
Variable Glob : string -> goerr + list string.
Variable IsPrint : Z -> bool.
Definition read_limited (path : string) : goerr + string := check content := Open path in inr (slice_to content maxArtifactBytes).
Definition stays_within (mountDir path : string) : bool := HasPrefix (path +:+ "/") (mountDir +:+ "/").
Definition readArtifactGlob (mountDir exportPath : string) : goerr + string :=
  let pattern := path_join [mountDir; Suites.Clean ("/" +:+ exportPath)] in
  let glob text := "artifact glob " +:+ Values.Quote IsPrint text in
  match Glob pattern with
  | inl e => inl (ErrWrap (glob exportPath) e)
  | inr [] => inl (ErrText (glob exportPath +:+ ": no matching files in mount"))
  | inr ((first :: _) as matches) =>
      match List.find (fun m => negb (stays_within mountDir m)) matches with
      | Some m => inl (ErrText ("artifact glob match " +:+ Values.Quote IsPrint m +:+ " escapes mount directory"))
      | None => read_limited first
      end
  end.
Definition readArtifactFromMount (mountDir exportPath : string) : goerr + string :=
  let exportPath := TrimSpace exportPath in
  if existsb (fun c => bool_decide (c ∈ ["*"; "?"; "["]%char)) (of_string exportPath)
  then readArtifactGlob mountDir exportPath
  else
    let hostPath := path_join [mountDir; Suites.Clean ("/" +:+ exportPath)] in
    if negb (stays_within mountDir hostPath)
    then inl (ErrText ("artifact path " +:+ Values.Quote IsPrint exportPath +:+ " escapes mount directory"))
    else read_limited hostPath.
End Mount.

Example names : (sanitizeID "My Suite/v1.0--", k8sDNSLabel "--A.b_c", containerName "e1" "db/seed", profile_slug "a.b c/d",
    k8sLabelValue "-Pay.ment suite_") = ("my-suite-v1-0", "a-b-c", "babel-e1-db-seed", "a-b-c-d", "Pay.ment-suite").
Proof. vm_compute. reflexivity. Qed.
Example fnv_ex : (Sum32 "", hex8 (Sum32 "foobar")) = (2166136261, "bf9cf968").
Proof. vm_compute. reflexivity. Qed.
Example base64_ex : EncodeToString <$> [""; "f"; "fo"; "foo"; "foob"; "Man?~"] = [""; "Zg=="; "Zm8="; "Zm9v"; "Zm9vYg=="; "TWFuP34="].
Proof. vm_compute. reflexivity. Qed.
Example newlines_ex : normalizeScriptContent (to_string (byte_of <$> [97; 13; 10; 98; 13; 99; 13; 13; 10])) =
  to_string (byte_of <$> [97; 10; 98; 10; 99; 10; 10]).
Proof. vm_compute. reflexivity. Qed.

(** ** Names are labels *)
Notation dash := "-"%char.
Definition label_char (c : ascii) : Prop := lower_alnum (code c) = true \/ c = dash.
Definition alnum_ends (l : bytes) : Prop := head l <> Some dash /\ last l <> Some dash.
(** A label of RFC 1123. *)
Record dns_label (s : string) : Prop := {
  label_length : (1 <= String.length s <= 63)%nat;
  label_chars : Forall label_char (of_string s);
  label_ends : alnum_ends (of_string s);
}.

Lemma lower_alnum_range ch : lower_alnum ch = true -> 48 <= ch < 128.
Proof. unfold lower_alnum. lia. Qed.
Lemma label_char_rune ch : lower_alnum ch = true \/ ch = 45 -> 0 <= ch < 128 /\ label_char (byte_of ch).
Proof.
  intros [H| ->]; [|split; [lia|by right]]. apply lower_alnum_range in H as Hr.
  split; [lia|left]. by rewrite code_byte_of by lia.
Qed.
Lemma label_char_code c : label_char c -> lower_alnum (code c) = true \/ code c = 45.
Proof. intros [H| ->]; [by left|by right]. Qed.
Lemma label_char_ascii l : Forall label_char l -> Forall (fun c => code c < 128) l.
Proof.
  intros Hl. eapply Forall_impl; [exact Hl|]. intros c [H|H]%label_char_code; [apply lower_alnum_range in H; lia|lia].
Qed.
Lemma encode_labels (f : Z -> Z) (rs : list Z) : (forall ch, lower_alnum (f ch) = true \/ f ch = 45) ->
  Forall label_char (encode_runes (f <$> rs)).
Proof.
  intros Hf. unfold encode_runes. induction rs as [|r rs IH]; [constructor|].
  cbn. destruct (label_char_rune (f r) (Hf r)). rewrite encode1 by done. by constructor.
Qed.
Lemma encode_fixed (f : Z -> Z) s : (forall ch, lower_alnum ch = true \/ ch = 45 -> f ch = ch) ->
  Forall label_char (of_string s) -> encode_runes (f <$> runes s) = of_string s.
Proof.
  intros Hf Hs. unfold runes, range_runes. rewrite CallText.range_ascii by by apply label_char_ascii.
  generalize 0%nat. induction Hs as [|c l Hc Hl IH]; intros i; [done|].
  unfold encode_runes. cbn. pose proof (label_char_code _ Hc) as Hcode.
  rewrite Hf, encode1 by (done || by apply label_char_rune). cbn. rewrite byte_of_code. f_equal. apply IH.
Qed.
Lemma sanitize_rune_char ch : lower_alnum (sanitize_rune ch) = true \/ sanitize_rune ch = 45.
Proof. unfold sanitize_rune, lower_alnum. repeat case_match; lia. Qed.
Lemma dns_rune_char ch : lower_alnum (dns_rune ch) = true \/ dns_rune ch = 45.
Proof. unfold dns_rune. destruct (lower_alnum ch) eqn:H; auto. Qed.

Lemma Trim_label s : Forall label_char (of_string s) -> Forall label_char (of_string (Trim s dash)) /\
  alnum_ends (of_string (Trim s dash)) /\ (String.length (Trim s dash) <= String.length s)%nat.
Proof.
  intros Hs. destruct (Trim_spec s dash) as (pre & post & He & Hends). rewrite <-!CallText.length_of_string, He.
  rewrite He in Hs. apply Forall_app in Hs as [_ [Hs _]%Forall_app]. split_and!; [done|done|].
  rewrite !length_app. lia.
Qed.
Lemma drop_byte_id cut l : head l <> Some cut -> drop_byte cut l = l.
Proof. destruct l as [|c l]; [done|]. cbn. intros H. by rewrite bool_decide_false by congruence. Qed.
Lemma Trim_id s : alnum_ends (of_string s) -> Trim s dash = s.
Proof.
  intros [Hh Hl]. unfold Trim. rewrite (drop_byte_id _ (of_string s)) by done.
  rewrite drop_byte_id by by rewrite head_reverse. by rewrite reverse_involutive, to_of.
Qed.
Lemma TrimRight_id s : last (of_string s) <> Some dash -> TrimRight s dash = s.
Proof.
  intros Hl. unfold TrimRight. rewrite drop_byte_id by by rewrite head_reverse. by rewrite reverse_involutive, to_of.
Qed.
Lemma TrimRight_spec s : exists post, of_string s = of_string (TrimRight s dash) ++ post /\
  last (of_string (TrimRight s dash)) <> Some dash /\ Forall (fun c => c = dash) post.
Proof.
  unfold TrimRight. rewrite of_to. set (l := of_string s). rewrite last_reverse.
  assert (exists k, reverse l = k ++ drop_byte dash (reverse l) /\ Forall (fun c => c = dash) k /\
    head (drop_byte dash (reverse l)) <> Some dash) as (k & Hk & Hall & Hh).
  { induction (reverse l) as [|c r (k & Hk & Hall & Hh)]; [by exists []|]. cbn [drop_byte]. case_bool_decide as Hc.
    - exists (c :: k). split_and!; [cbn; by rewrite <-Hk|by constructor|done].
    - exists []. split_and!; [done|constructor|]. cbn. congruence. }
  exists (reverse k). split_and!; [|done|by apply Forall_reverse].
  by rewrite <-reverse_app, <-Hk, reverse_involutive.
Qed.
(** Cutting a text off keeps its first character when that one is not cut. *)
Lemma TrimRight_head s c l : of_string s = c :: l -> c <> dash -> head (of_string (TrimRight s dash)) = Some c.
Proof.
  intros Hs Hc. destruct (TrimRight_spec s) as (post & He & _ & Hall). rewrite Hs in He.
  destruct (of_string (TrimRight s dash)) as [|d r]; [|cbn in *; congruence].
  cbn in He. subst post. apply Forall_cons in Hall as [-> _]. done.
Qed.

Lemma sanitizeID_shape id : Forall label_char (of_string (sanitizeID id)) /\
  alnum_ends (of_string (sanitizeID id)) /\ (String.length (sanitizeID id) <= 40)%nat.
Proof.
  unfold sanitizeID. set (s := slice_to _ _).
  assert (Forall label_char (of_string s) /\ (String.length s <= 40)%nat) as [Hs Hlen].
  { unfold s, slice_to. rewrite !of_to, CallText.length_to_string, length_take. split; [|lia].
    apply Forall_take, encode_labels, sanitize_rune_char. }
  destruct (Trim_label s Hs) as (? & ? & ?). split_and!; [done|done|lia].
Qed.
Lemma sanitizeID_id s : Forall label_char (of_string s) -> alnum_ends (of_string s) -> (String.length s <= 40)%nat ->
  sanitizeID s = s.
Proof.
  intros Hs He Hlen. unfold sanitizeID. rewrite encode_fixed; [| |done].
  - unfold slice_to. rewrite of_to, take_ge by (rewrite CallText.length_of_string; lia). rewrite to_of. by apply Trim_id.
  - intros ch. unfold sanitize_rune. intros [-> | ->]; [done|]. by rewrite orb_true_r.
Qed.
Lemma sanitizeID_idemp id : sanitizeID (sanitizeID id) = sanitizeID id.
Proof. destruct (sanitizeID_shape id) as (? & ? & ?). by apply sanitizeID_id. Qed.

Lemma ToLower_label s : Forall label_char (of_string s) -> ToLower s = s.
Proof.
  intros Hs. unfold ToLower. rewrite <-(to_of s) at 2. f_equal.
  induction Hs as [|c l Hc Hl IH]; [done|].
  assert (lower_byte c = c) as Hlow.
  { unfold lower_byte. apply label_char_code in Hc. unfold lower_alnum in Hc. by replace (_ && _) with false by lia. }
  assert (code c < 128) as Hcode by (apply label_char_ascii in Hl; pose proof (label_char_code _ Hc) as [H|H];
    [apply lower_alnum_range in H; lia|lia]).
  cbn [lower_bytes]. destruct l as [|d l]; [by rewrite Hlow|].
  replace (code c =? 196) with false by lia. cbn [andb]. destruct l as [|e l]; [by rewrite Hlow, IH|].
  replace (code c =? 226) with false by lia. cbn [andb]. by rewrite Hlow, IH.
Qed.
Lemma k8sDNSLabel_shape s : Forall label_char (of_string (k8sDNSLabel s)) /\
  alnum_ends (of_string (k8sDNSLabel s)) /\ (String.length (k8sDNSLabel s) <= 63)%nat.
Proof.
  unfold k8sDNSLabel. cbv zeta. set (r := to_string _).
  assert (Forall label_char (of_string r)) as Hr by (unfold r; rewrite of_to; apply encode_labels, dns_rune_char).
  destruct (Trim_label r Hr) as (Ht & Hends & _). set (t := Trim r dash) in *.
  destruct (Nat.ltb_spec 63 (String.length t)) as [Hlong|Hshort]; [|by split_and!].
  destruct (TrimRight_spec (slice_to t 63)) as (post & He & Hlast & _). unfold slice_to in He at 1. rewrite of_to in He.
  assert (Forall label_char (take (Z.to_nat 63) (of_string t))) as Htake by by apply Forall_take.
  rewrite He in Htake. apply Forall_app in Htake as [Hchars _].
  split_and!; [done| |].
  - split; [|done]. destruct Hends as [Hh _]. intros Hd. apply Hh.
    destruct (of_string (TrimRight (slice_to t 63) dash)) as [|c l]; [done|]. cbn in Hd. injection Hd as ->.
    destruct (of_string t) as [|c' l']; [done|]. cbn in He. by injection He as -> _.
  - apply (f_equal length) in He. rewrite length_app, length_take, (CallText.length_of_string (TrimRight _ _)) in He. lia.
Qed.
Lemma k8sDNSLabel_id s : Forall label_char (of_string s) -> alnum_ends (of_string s) -> (String.length s <= 63)%nat ->
  k8sDNSLabel s = s.
Proof.
  intros Hs He Hlen. unfold k8sDNSLabel. rewrite ToLower_label, encode_fixed; [| |done|done].
  - rewrite to_of, Trim_id by done. cbv zeta. by destruct (Nat.ltb_spec 63 (String.length s)); [lia|].
  - intros ch. unfold dns_rune. intros [-> | ->]; done.
Qed.

Lemma hex_digit_label d : 0 <= d < 16 -> lower_alnum (code (hex_digit d)) = true.
Proof.
  intros Hd. unfold hex_digit. rewrite code_byte_of by (case_match; lia). unfold lower_alnum. case_match; lia.
Qed.
Lemma hex8_shape n : Forall (fun c => lower_alnum (code c) = true) (of_string (hex8 n)) /\ String.length (hex8 n) = 8%nat.
Proof.
  unfold hex8. rewrite of_to. split; [|done].
  apply Forall_fmap, Forall_forall. intros i _. apply hex_digit_label, Z.mod_pos_bound. lia.
Qed.

(** The text of a pod's name before it is cut. *)
Lemma pod_full_chars e id : Forall label_char (of_string ("babel-" +:+ sanitizeID e +:+ "-" +:+ k8sDNSLabel id)).
Proof.
  rewrite !of_string_app. destruct (sanitizeID_shape e) as (? & _ & _), (k8sDNSLabel_shape id) as (? & _ & _).
  repeat (apply Forall_app; split); try done.
  - repeat (constructor; [first [by left|by right]|]). constructor.
  - constructor; [by right|constructor].
Qed.

(** A text that starts with a letter, cut at its end. *)
Lemma TrimRight_label s : Forall label_char (of_string s) -> head (of_string s) = Some "b"%char ->
  Forall label_char (of_string (TrimRight s dash)) /\ head (of_string (TrimRight s dash)) = Some "b"%char /\
  last (of_string (TrimRight s dash)) <> Some dash /\ (1 <= String.length (TrimRight s dash) <= String.length s)%nat.
Proof.
  intros Hs Hb. destruct (of_string s) as [|c l] eqn:Hl; [done|]. cbn in Hb. injection Hb as ->.
  assert (head (of_string (TrimRight s dash)) = Some "b"%char) as Hh by by eapply TrimRight_head.
  destruct (TrimRight_spec s) as (post & He & Hlast & _). rewrite <-Hl, He in Hs.
  apply Forall_app in Hs as [Hs _]. split_and!; [done|done|done| |].
  - rewrite <-CallText.length_of_string. destruct (of_string (TrimRight s dash)); [done|cbn; lia].
  - rewrite <-!CallText.length_of_string, He, length_app. lia.
Qed.

(** A name cut for a hash. *)
Lemma hashed_label t x : Forall label_char (of_string t) -> head (of_string t) = Some "b"%char ->
  (1 <= String.length t <= 54)%nat -> Forall (fun c => lower_alnum (code c) = true) (of_string x) ->
  String.length x = 8%nat -> dns_label (t +:+ "-" +:+ x).
Proof.
  intros Hc Hh Hlen Hx Hx8.
  assert (of_string (t +:+ "-" +:+ x) = of_string t ++ dash :: of_string x) as Hs by by rewrite !of_string_app.
  constructor.
  - rewrite <-CallText.length_of_string, Hs, length_app. cbn [length]. rewrite !CallText.length_of_string. lia.
  - rewrite Hs. apply Forall_app. split; [done|]. constructor; [by right|].
    eapply Forall_impl; [exact Hx|]. by left.
  - rewrite Hs. split; [destruct (of_string t); cbn in *; congruence|].
    assert (forall c, last (of_string x) = Some c -> c <> dash) as Hd.
    { intros c Hl ->. rewrite Forall_forall in Hx. apply last_Some_elem_of, Hx in Hl. done. }
    rewrite last_app. destruct (of_string x) as [|c y] eqn:Hxe.
    { rewrite <-CallText.length_of_string, Hxe in Hx8. done. }
    change (last (dash :: c :: y)) with (last (c :: y)).
    destruct (last (c :: y)) eqn:Hl; [|by apply last_None in Hl]. intros [= ->]. by apply (Hd dash).
Qed.

(** The name of a pod whose node has a short label for its id. *)
Lemma pod_name_short e id : dns_label id -> (String.length (sanitizeID e) + String.length id <= 56)%nat ->
  pod_name e id = "babel-" +:+ sanitizeID e +:+ "-" +:+ id.
Proof.
  intros [Hl Hc [Hh Hlast]] Hlen. unfold pod_name. rewrite k8sDNSLabel_id by (done || by split || lia).
  set (full := "babel-" +:+ _).
  assert (String.length full = 7 + String.length (sanitizeID e) + String.length id)%nat as Hfull.
  { unfold full. rewrite <-!CallText.length_of_string, !of_string_app, !length_app.
    change (length (of_string "babel-")) with 6%nat. change (length (of_string "-")) with 1%nat. lia. }
  cbv zeta. destruct (Nat.leb_spec (String.length full) 63); [|lia]. apply TrimRight_id.
  unfold full. rewrite !of_string_app, !app_assoc, last_app.
  destruct (last (of_string id)) eqn:Hi; [congruence|].
  apply last_None in Hi. rewrite <-CallText.length_of_string, Hi in Hl. cbn in Hl. lia.
Qed.

(** The name of a pod is a DNS label, of at most 63 lower-case letters,
    digits and hyphens and without a hyphen at its ends, for any execution and
    node; and two nodes of one execution whose ids are such labels and fit have
    different pods. *)
Theorem pod_names_are_labels (e : string) :
  (forall id, dns_label (pod_name e id)) /\
  (forall id1 id2, dns_label id1 -> dns_label id2 ->
     (String.length (sanitizeID e) + String.length id1 <= 56)%nat ->
     (String.length (sanitizeID e) + String.length id2 <= 56)%nat ->
     pod_name e id1 = pod_name e id2 -> id1 = id2).
Proof.
  split.
  - intros id. unfold pod_name. pose proof (pod_full_chars e id) as Hc. cbv zeta. set (full := "babel-" +:+ _) in *.
    assert (head (of_string full) = Some "b"%char) as Hb by (unfold full; by rewrite of_string_app).
    destruct (Nat.leb_spec (String.length full) 63) as [Hle|Hgt].
    + destruct (TrimRight_label full Hc Hb) as (? & Hh & ? & ?). constructor; [lia|done|]. split; [by rewrite Hh|done].
    + destruct (TrimRight_label (slice_to full 54)) as (? & ? & _ & Hlen).
      * unfold slice_to. rewrite of_to. by apply Forall_take.
      * unfold slice_to. rewrite of_to. by destruct (of_string full).
      * destruct (hex8_shape (Sum32 id)). apply hashed_label; [done|done| |done|done].
        unfold slice_to in Hlen at 3. rewrite CallText.length_to_string, length_take in Hlen. lia.
  - intros id1 id2 H1 H2 Hl1 Hl2. rewrite !pod_name_short by done. intros He. apply (f_equal of_string) in He.
    rewrite !of_string_app in He. do 3 apply app_inv_head in He. apply (f_equal to_string) in He. by rewrite !to_of in He.
Qed.

Lemma pod_names_are_labels_witness : dns_label (pod_name "e1" "A very long name of a check/that the upstream is alive") /\
  pod_name "e1" "db" <> pod_name "e1" "db-seed".
Proof.
  destruct (pod_names_are_labels "e1") as [Hl Hd]. split; [apply Hl|]. intros He.
  enough ("db" = "db-seed") by discriminate. apply Hd; [| |vm_compute; lia|vm_compute; lia|exact He].
  all: constructor; [vm_compute; lia| |split; vm_compute; discriminate].
  all: repeat (constructor; [first [by left|by right]|]); constructor.
Defined.

(** Two ids that are not labels: a step of the suite imported as [db] and one
    of the suite itself have the same pod, and the same container; and so have,
    on Docker, two ids that agree in 40 characters. *)
Example names_collide :
  pod_name "e1" "db/seed" = pod_name "e1" "db-seed" /\ containerName "e1" "db/seed" = containerName "e1" "db-seed" /\
  containerName "e1" "check-that-the-upstream-identity-provider" =
  containerName "e1" "check-that-the-upstream-identity-provider-is-alive".
Proof. vm_compute. done. Qed.

(** ** Artifacts stay in the workspace *)

(** A segment as it is left by [Clean] and found by [Split]. *)
Definition segment_in (s : string) : Prop := Suites.plain s /\ Forall (fun c => c <> "/"%char) (of_string s).
Definition absolute (segments : list string) : string := "/" +:+ Join segments "/".

Lemma clean_fold segments : Forall segment_in segments -> forall out,
  foldl (Suites.clean_step true) out segments = reverse segments ++ out.
Proof.
  induction 1 as [|s l [Hs _] _ IH]; intros out; [done|]. cbn [foldl].
  rewrite Suites.clean_step_plain, IH by done. by rewrite reverse_cons, <-app_assoc.
Qed.
(** A join of segments, split and cleaned: the segments. *)
Lemma clean_join segments out : Forall segment_in segments ->
  foldl (Suites.clean_step true) out (Split (Join segments "/") "/") = reverse segments ++ out.
Proof.
  intros H. destruct segments as [|s l]; [done|].
  rewrite Split_Join; [by apply clean_fold| |done]. eapply Forall_impl; [exact H|]. by intros ? [_ ?].
Qed.
Lemma clean_in segments : Forall (fun s => Forall (fun c => c <> "/"%char) (of_string s)) segments ->
  Forall segment_in (Suites.clean_segments true segments).
Proof.
  unfold Suites.clean_segments. intros Hs. apply Forall_reverse.
  assert (Forall segment_in []) as Hout by constructor. revert Hout. generalize (@nil string).
  induction Hs as [|s l Hs _ IH]; intros out Hout; [done|]. cbn [foldl]. apply IH. unfold Suites.clean_step.
  destruct (bool_decide_reflect (s = "")); [done|]. destruct (bool_decide_reflect (s = ".")); [done|]. cbn [orb].
  case_bool_decide.
  - destruct Hout as [|x out Hx Hout]; [constructor|]. case_bool_decide as Hd; [|done].
    destruct Hx as [(_ & _ & Hx) _]. done.
  - constructor; [|done]. by split.
Qed.
Lemma Split_parts s : Forall (fun p => Forall (fun c => c <> "/"%char) (of_string p)) (Split s "/").
Proof.
  unfold Split. apply Forall_fmap. eapply Forall_impl; [apply split_parts|]. intros p Hp. unfold compose. rewrite of_to.
  apply Forall_forall. intros c Hc ->. done.
Qed.

Lemma Clean_absolute p : exists segments, Suites.Clean ("/" +:+ p) = absolute segments /\ Forall segment_in segments.
Proof.
  eexists. split; [|apply (clean_in ("" :: Split p "/"))]; [reflexivity|]. constructor; [constructor|apply Split_parts].
Qed.

(** Below a clean directory the cleaned path of an export stays there. *)
Lemma join_below root p : Forall segment_in root -> root <> [] -> exists segments, Forall segment_in segments /\
  path_join [absolute root; Suites.Clean ("/" +:+ p)] = absolute (root ++ segments).
Proof.
  intros Hr Hne. destruct (Clean_absolute p) as (segments & -> & Hs). exists segments. split; [done|].
  unfold path_join. rewrite bool_decide_false by done.
  change (Join [absolute root; absolute segments] "/") with ("/" +:+ (Join root "/" +:+ "/" +:+ ("/" +:+ Join segments "/"))).
  unfold Suites.Clean. replace (HasPrefix ("/" +:+ _) "/") with true by done. unfold absolute. f_equal. f_equal.
  change (Split ("/" +:+ (Join root "/" +:+ "/" +:+ ("/" +:+ Join segments "/"))) "/")
    with ("" :: Split (Join root "/" +:+ "/" +:+ ("/" +:+ Join segments "/")) "/").
  rewrite Split_app. unfold Suites.clean_segments. cbn [foldl]. rewrite foldl_app.
  change (Suites.clean_step true [] "") with (@nil string). rewrite clean_join by done.
  change (Split ("/" +:+ Join segments "/") "/") with ("" :: Split (Join segments "/") "/"). cbn [foldl].
  change (Suites.clean_step true (reverse root ++ []) "") with (reverse root ++ []).
  rewrite clean_join by done. by rewrite app_nil_r, <-reverse_app, reverse_involutive.
Qed.

Definition below (mountDir path : string) : Prop := stays_within mountDir path = true /\ ".." ∉ Split path "/".
Lemma absolute_below root segments : Forall segment_in root -> Forall segment_in segments -> root <> [] ->
  below (absolute root) (absolute (root ++ segments)).
Proof.
  intros Hr Hs Hne. split.
  - unfold stays_within, absolute. destruct segments as [|s l].
    { rewrite app_nil_r. apply (HasPrefix_of _ ""). by rewrite string_app_nil. }
    rewrite Join_app by done. apply (HasPrefix_of _ (Join (s :: l) "/" +:+ "/")). by rewrite !string_app_assoc.
  - unfold absolute. change (Split ("/" +:+ ?s) "/") with ("" :: Split s "/").
    assert (Forall segment_in (root ++ segments)) as Ha by by apply Forall_app.
    rewrite Split_Join; [|eapply Forall_impl; [exact Ha|]; by intros ? [_ ?]|by destruct root].
    rewrite elem_of_cons. intros [?|Hin]; [done|]. rewrite Forall_forall in Ha. by destruct (Ha _ Hin) as [(_ & _ & ?) _].
Qed.

(** Reading an artifact depends only on the files whose names, as written,
    are inside the workspace, without a parent directory in them: whatever the
    path of the export, two file systems that agree on those give the same
    result. Patterns are covered when the matches of the file system have no
    parent directory in them. *)
Theorem artifacts_from_the_workspace (Open Open' : string -> goerr + string) (Glob : string -> goerr + list string)
    (IsPrint : Z -> bool) (root : list string) (exportPath : string)
    (Hroot : Forall segment_in root) (Hne : root <> [])
    (Hagree : forall path, below (absolute root) path -> Open path = Open' path)
    (Hglob : forall pattern matches m, Glob pattern = inr matches -> m ∈ matches -> ".." ∉ Split m "/") :
  readArtifactFromMount Open Glob IsPrint (absolute root) exportPath =
  readArtifactFromMount Open' Glob IsPrint (absolute root) exportPath.
Proof.
  unfold readArtifactFromMount, read_limited. cbv zeta. destruct (existsb _ _).
  - unfold readArtifactGlob, read_limited. cbv zeta. destruct (Glob _) as [|[|m ms]] eqn:Hg; [done|done|].
    destruct (List.find _ _) eqn:Hf; [done|]. rewrite Hagree; [done|].
    split; [|by eapply Hglob; [exact Hg|left]].
    apply (List.find_none _ _) with (x := m) in Hf; [by apply negb_false_iff in Hf|by left].
  - destruct (join_below root (TrimSpace exportPath) Hroot Hne) as (segments & Hs & Hj). rewrite Hj.
    pose proof (absolute_below root segments Hroot Hs Hne) as Hb.
    destruct (negb (stays_within _ _)); [done|]. by rewrite Hagree.
Qed.

(** Two file systems that differ outside the workspace. *)
Definition sample_files (secret path : string) : goerr + string :=
  if bool_decide (path = "/tmp/w/out.json") then inr "{}"
  else if bool_decide (path = "/etc/passwd") then inr secret else inl (ErrText "no such file").
Definition no_matches (pattern : string) : goerr + list string := inr [].
Lemma artifacts_from_the_workspace_witness :
  readArtifactFromMount (sample_files "a") no_matches (fun _ => false) (absolute ["tmp"; "w"]) "../../out.json" = inr "{}" /\
  readArtifactFromMount (sample_files "a") no_matches (fun _ => false) (absolute ["tmp"; "w"]) "../../etc/passwd" =
  readArtifactFromMount (sample_files "b") no_matches (fun _ => false) (absolute ["tmp"; "w"]) "../../etc/passwd".
Proof.
  split; [vm_compute; reflexivity|]. apply artifacts_from_the_workspace.
  - repeat (constructor; [split; [repeat split; discriminate|apply (bool_decide_unpack _); vm_compute; exact I]|]). constructor.
  - discriminate.
  - intros path [Hin _]. unfold sample_files. destruct (bool_decide_reflect (path = "/etc/passwd")) as [->|]; [|done].
    vm_compute in Hin. discriminate Hin.
  - intros pattern matches m [= <-] Hm. by apply not_elem_of_nil in Hm.
Defined.

(** The Environments page reaps an execution by the id its labels show: the
    selector finds the same pods and containers. *)
Lemma reaped_by_label id : sanitizeID (sanitizeID id) = sanitizeID id /\
  executionNetworkName (sanitizeID id) = executionNetworkName id.
Proof. unfold executionNetworkName. by rewrite sanitizeID_idemp. Qed.

End Containers.
