(* ===== verification/DockerRun.v ===== *)
(** Steps in Docker containers, [src/backend/internal/runner/docker_exec.go]:
    the container of a step from its creation to its removal, the network of an
    execution and the sidecar of a suite.

    The Docker daemon and the file system are arguments: what they answer to
    the calls of one function.  A run records the calls that change something
    there, oldest first. *)
From Stdlib Require Import ZArith Lia Ascii.
From S2P Require Import Prelude GoStrings Runes Strconv Suites Url Values StarNode LoadPlan Hub Format Runner Containers.
Import GoStrings Runes Strconv Runner Containers.
#[local] Open Scope run_scope.

Module DockerRun.

(** ** The shared client *)

(** [dockerClientOnce], [dockerClient] and [dockerAvailable]. *)
Record shared := mkShared { once : bool; client : bool; available : bool }.
(** [created]: a client could be made; [pong]: the daemon answers. *)
Definition sharedDockerClient (created pong : bool) (s : shared) : bool * shared :=
  let s := if once s then s
           else if created && pong then mkShared true true true else mkShared true (client s) (available s) in
  (available s, s).
Definition pingDocker (created pong : bool) (s : shared) : bool * shared :=
  if client s then (pong, mkShared (once s) true pong)
  else if created && pong then (true, mkShared (once s) true true) else (false, s).

(** ** Calls *)
Record DeviceRequest := mkRequest { Driver : string; Count : Z; Capabilities : list (list string) }.
Record DeviceMapping := mkMapping { PathOnHost : string; PathInContainer : string; CgroupPermissions : string }.
Record container_config := mkContainer {
  Image : string; Env : list string; Labels : gmap string string; Entrypoint : list string;
  ExposedPorts : gset string; PortBindings : gmap string (string * string);
  Memory : Z; MemorySwap : Z; NanoCPUs : Z; PidsLimit : option Z; Devices : list DeviceMapping;
  DeviceRequests : list DeviceRequest; Binds : list string; CapDrop : list string; SecurityOpt : list string;
  NetworkName : string; Aliases : list string; ExtraHosts : list string }.

Inductive effect :=
  | MkdirAll (dir : string) | Chmod (dir : string) | WriteFile (path content : string)
  | ImagePull (image : string)
  | ContainerCreate (id name : string) (config : container_config)
  | ContainerStart (id : string) | ContainerStop (id : string) | ContainerRemove (id : string)
  (** a goroutine that stops and removes the container when its step is
      cancelled or it ends by itself *)
  | Watch (id : string)
  | OnArtifact (path content : string)
  | NetworkCreate (name : string) | NetworkDisconnect (name id : string) | NetworkRemove (name : string).
Notation calls A := (run (list effect) A).
Definition perform (e : effect) : calls unit := fun w => (tt, mkWorld (Lines w) (St w ++ [e])).

Inductive create_outcome := ContainerCreated (id : string) | ImageNotFound (e : goerr) | CreateFailed (e : goerr).
(** The context ends, the wait fails, or the container is not running any more. *)
Inductive wait_outcome := ContextDone | WaitError (e : option goerr) | NotRunning (status : Z) (message : string).

(** What the calls of one step answer. *)
Record daemon := mkDaemon {
  d_client : bool;
  d_mkdir : option goerr; d_chmod : option goerr; d_file_dir : bool; d_file_written : bool;
  d_create : create_outcome; d_pull : option goerr; d_create_again : create_outcome; d_start : option goerr;
  d_crash : option Z;             (** the status of a service that exits within half a second *)
  d_output : option string;       (** what the container writes, if its logs can be read *)
  d_early : nat;                  (** how many of its lines are reported before it is waited for *)
  d_wait : wait_outcome }.

(** ** Configuration *)
Definition containerMemoryLimit : Z := 512 * 1024 * 1024.
Definition minContainerMemoryLimit : Z := 6 * 1024 * 1024.
Definition containerPidsLimit : Z := 256.

(** [fmt.Sscanf(text, "%d", &n)]: blanks but no newline, a sign, digits. *)
Fixpoint digit_prefix (l : bytes) : bytes :=
  match l with
  | c :: l' => if bool_decide (is_Some (digit c)) then c :: digit_prefix l' else []
  | [] => []
  end.
Definition Sscanf_d (text : string) : option Z :=
  let l := of_string text in
  let rest := trim_left l in
  if bool_decide (byte_of 10 ∈ take (length l - length rest) l) then None
  else
    let '(sign, digits) := match rest with
                           | c :: r => if (code c =? 43) || (code c =? 45) then ([c], r) else ([], rest)
                           | [] => ([], [])
                           end in
    ParseInt (to_string (sign ++ digit_prefix digits)).
Definition gpus (n : Z) : DeviceRequest := mkRequest "nvidia" n [["gpu"]].
Definition add_device (acc : list DeviceRequest * list DeviceMapping) (d : string) : list DeviceRequest * list DeviceMapping :=
  let '(requests, mappings) := acc in
  if bool_decide (d = "gpu") then (requests ++ [gpus (-1)], mappings)
  else if HasPrefix d "gpu:" then (requests ++ [gpus (default 1 (Sscanf_d (TrimPrefix d "gpu:")))], mappings)
  else if HasPrefix d "/dev/" then (requests, mappings ++ [mkMapping d d "rwm"])
  else acc.
Definition buildDeviceConfig (devices : list string) : list DeviceRequest * list DeviceMapping :=
  foldl add_device ([], []) devices.

(** The lines of the output: [bufio.Scanner] gives up at a line that does not
    fit its buffer of 64 KB. *)
Definition MaxScanTokenSize : nat := 65536.
Fixpoint scan_lines (parts : list bytes) : list bytes :=
  match parts with
  | [] => []
  | part :: rest => if (length part <? MaxScanTokenSize)%nat then part :: scan_lines rest else []
  end.
Definition trim_returns (l : bytes) : bytes := reverse (drop_cutset (to_string [byte_of 13; byte_of 10]) (reverse l)).
Definition container_lines (step : StepSpec) (output : string) : list Hub.Line :=
  containerLine step <$> filter (fun text => text <> "")
    ((fun part => to_string (trim_returns part)) <$> scan_lines (split_bytes (byte_of 10) (of_string output))).

Section Docker.
Variable tempDir : string.
Variable pid : Z.
Variable IsPrint : Z -> bool.
(** The entries of a map in the order of a [range]. *)
Variable entries : gmap string string -> list (string * string).
(** The file system the artifacts are read from. *)
Variable Open : string -> goerr + string.
Variable Glob : string -> goerr + list string.

Definition step_env (step : StepSpec) : list string :=
  let gateway := TrimSpace (Step.GatewayURL step) in
  ((fun kv => kv.1 +:+ "=" +:+ kv.2) <$> entries (Step.Env step)) ++
  ["BABELSUITE_WORKSPACE_DIR=" +:+ containerWorkspaceMount] ++
  (if negb (bool_decide (gateway = "")) then ["BABELSUITE_GATEWAY_URL=" +:+ gateway] else []) ++
  (if (0 <? length (Step.GatewayURLs step))%nat
   then ["BABELSUITE_GATEWAY_URLS=" +:+ Join (Step.GatewayURLs step) ","] else []).
Definition step_labels (step : StepSpec) : gmap string string :=
  managedLabels pid (Step.ExecutionID step) (list_to_map
    [("babelsuite.execution", Step.ExecutionID step); ("babelsuite.step", Node.ID (Step.Node step));
     ("babelsuite.kind", Node.Kind (Step.Node step)); (labelSuite, Step.SuiteID step); (labelProfile, Step.Profile step)]).
Definition run_encoded_script : list string := ["/bin/sh"; "-c"; "echo $BABELSUITE_SCRIPT | base64 -d | /bin/sh -e"].
Definition step_aliases (step : StepSpec) : list string :=
  if (length (Step.NetworkAliases step) =? 0)%nat then [last_segment (name_of step)] else Step.NetworkAliases step.
Definition step_config (step : StepSpec) (img : string) : container_config :=
  let node := Step.Node step in
  let script := buildStepScript step in
  let scripted := negb (bool_decide (script = "")) in
  let '(deviceRequests, deviceMappings) := buildDeviceConfig (Node.Devices node) in
  let detached := isDetachedService step in
  mkContainer img
    (step_env step ++ (if scripted then ["BABELSUITE_SCRIPT=" +:+ EncodeToString script] else []))
    (step_labels step) (if scripted then run_encoded_script else [])
    (list_to_set (Step.PublishPorts step))
    (list_to_map ((fun p => (p, ("127.0.0.1", ""))) <$> Step.PublishPorts step))
    (if 0 <? Node.MemoryBytes node then Node.MemoryBytes node else containerMemoryLimit)
    (if 0 <? Node.MemoryBytes node then Node.MemoryBytes node else 0)
    (wrap64 (Node.MilliCPU node * 1000000)) (Some containerPidsLimit) deviceMappings deviceRequests
    [ExecutionWorkspaceDir tempDir (Step.ExecutionID step) +:+ ":" +:+ containerWorkspaceMount +:+ ":rw"]
    (if detached then [] else ["ALL"]) (if detached then [] else ["no-new-privileges:true"])
    (executionNetworkName (Step.ExecutionID step)) (step_aliases step) [].

(** ** One step *)
Definition stop_with {A} (text : string) (e : goerr) : calls (goerr + A) := ret (inl (ErrWrap text e)).
(** The workspace with the file of the step. *)
Definition prepare_workspace (d : daemon) (step : StepSpec) : calls (goerr + string) :=
  let workspaceDir := ExecutionWorkspaceDir tempDir (Step.ExecutionID step) in
  let node := Step.Node step in
  match d_mkdir d with
  | Some e => stop_with "workspace dir unavailable" e
  | None =>
      perform (MkdirAll workspaceDir) ;;;
      match d_chmod d with
      | Some e => stop_with "workspace dir not writable" e
      | None =>
          perform (Chmod workspaceDir) ;;;
          (if negb (bool_decide (Node.FileContent node = "")) && d_file_dir d then
             let hostPath := path_join [workspaceDir; Node.File node] in
             perform (MkdirAll (Dir hostPath)) ;;;
             (if d_file_written d then perform (WriteFile hostPath (normalizeScriptContent (Node.FileContent node))) else ret tt)
           else ret tt) ;;;
          ret (inr workspaceDir)
      end
  end.
Definition memory_error (step : StepSpec) : option goerr :=
  let bytes := Node.MemoryBytes (Step.Node step) in
  if (0 <? bytes) && (bytes <? minContainerMemoryLimit)
  then Some (ErrText ("step " +:+ Values.Quote IsPrint (name_of step) +:+ ": memory limit " +:+ FormatInt bytes +:+
                      " bytes is below the " +:+ FormatInt minContainerMemoryLimit +:+ " bytes Docker requires"))
  else None.
Definition created (outcome : create_outcome) (name : string) (config : container_config) : calls (goerr + string) :=
  match outcome with
  | ContainerCreated id => perform (ContainerCreate id name config) ;;; ret (inr id)
  | ImageNotFound e | CreateFailed e => stop_with "container create failed" e
  end.
(** Creates the container, pulling its image when it is not there. *)
Definition create_container (d : daemon) (step : StepSpec) (img : string) : calls (goerr + string) :=
  let name := containerName (Step.ExecutionID step) (Node.ID (Step.Node step)) in
  match d_create d with
  | ImageNotFound _ =>
      emit (said step "info" ("Pulling image " +:+ img +:+ ".")) ;;;
      match d_pull d with
      | Some e => stop_with ("image pull failed for " +:+ img) e
      | None => perform (ImagePull img) ;;; created (d_create_again d) name (step_config step img)
      end
  | outcome => created outcome name (step_config step img)
  end.

(** What a watching goroutine does in the end. *)
Definition watched_to_the_end (id : string) : list effect := [ContainerStop id; ContainerRemove id].

(** A service is left running; its lines come later. *)
Definition run_detached (d : daemon) (step : StepSpec) (id : string) : calls (option goerr) :=
  perform (Watch id) ;;;
  emits (take (d_early d) (container_lines step (default "" (d_output d)))) ;;;
  match d_crash d with
  | Some status => ret (Some (ErrText ("service exited immediately with code " +:+ FormatInt status)))
  | None => ret None
  end.

Definition exit_error (status : Z) (message : string) : option goerr :=
  if negb (bool_decide (message = "")) then Some (ErrText ("container exited with error: " +:+ message))
  else if negb (status =? 0) then Some (ErrText ("container exited with code " +:+ FormatInt status)) else None.
Definition exit_status (failed : option goerr) : string := match failed with None => "success" | Some _ => "failure" end.
(** The artifacts read for one export rule. *)
Definition exported (workspaceDir exitStatus : string) (export : ArtifactExport) : list effect :=
  if artifactTriggerMatchesStatus (Artifact.On export) exitStatus then
    match readArtifactFromMount Open Glob IsPrint workspaceDir (Artifact.Path export) with
    | inr content => if (0 <? String.length content)%nat then [OnArtifact (Artifact.Path export) content] else []
    | inl _ => []
    end
  else [].
Definition collected (step : StepSpec) (workspaceDir exitStatus : string) : list effect :=
  if Step.OnArtifact step then concat (exported workspaceDir exitStatus <$> Step.ArtifactExports step) else [].
Fixpoint performs (es : list effect) : calls unit :=
  match es with [] => ret tt | e :: rest => perform e ;;; performs rest end.
Definition finish_run (step : StepSpec) (workspaceDir : string) (failed : option goerr) : calls (option goerr) :=
  performs (collected step workspaceDir (exit_status failed)) ;;;
  match failed with
  | Some e => ret (Some e)
  | None => emit (said step "info" "Container finished successfully.") ;;; ret None
  end.
(** The lines that are still read when the body has returned are reported
    before the deferred removal. *)
Definition run_foreground (d : daemon) (step : StepSpec) (workspaceDir id : string) : calls (option goerr) :=
  let lines := container_lines step (default "" (d_output d)) in
  emits (take (d_early d) lines) ;;;
  failed <- match d_wait d with
            | ContextDone => perform (ContainerStop id) ;;; ret (Some Canceled)
            | WaitError (Some e) => ret (Some (ErrWrap "container wait error" e))
            | WaitError None => finish_run step workspaceDir None
            | NotRunning status message => finish_run step workspaceDir (exit_error status message)
            end ;;
  emits (drop (d_early d) lines) ;;;
  perform (ContainerRemove id) ;;;
  ret failed.

Definition runInDocker (d : daemon) (step : StepSpec) : calls (option goerr) :=
  let img := step_image step in
  if negb (d_client d) then ret (Some (ErrText "docker daemon unavailable"))
  else if bool_decide (img = "")
  then ret (Some (ErrText ("no image configured for step " +:+ Values.Quote IsPrint (name_of step))))
  else
    prepared <- prepare_workspace d step ;;
    match prepared with
    | inl e => ret (Some e)
    | inr workspaceDir =>
        match memory_error step with
        | Some e => ret (Some e)
        | None =>
            container <- create_container d step img ;;
            match container with
            | inl e => ret (Some e)
            | inr id =>
                match d_start d with
                | Some e => perform (ContainerRemove id) ;;; ret (Some (ErrWrap "container start failed" e))
                | None =>
                    perform (ContainerStart id) ;;;
                    emit (said step "info" "Container started.") ;;;
                    (if isDetachedService step then run_detached d step id
                     else run_foreground d step workspaceDir id)
                end
            end
        end
    end.

(** ** Networks *)
(** The network is there afterwards, unless it could not be created. *)
Definition SetupExecutionNetwork (client_ok : bool) (failure : option (bool * goerr)) (executionID : string) :
    option goerr * list effect :=
  let name := executionNetworkName executionID in
  if negb client_ok then (None, [])
  else match failure with
       | None => (None, [NetworkCreate name])
       | Some (true, _) => (None, [])
       | Some (false, e) => (Some (ErrWrap ("create execution network " +:+ name) e), [])
       end.
(** [listed]: the containers with the label of the execution; [attached]: those
    still on the network, in the order of the map. *)
Definition RemoveExecutionNetwork (client_ok : bool) (listed attached : option (list string)) (executionID : string) :
    list effect :=
  let name := executionNetworkName executionID in
  if negb client_ok then []
  else (ContainerRemove <$> default [] listed) ++ (NetworkDisconnect name <$> default [] attached) ++ [NetworkRemove name].

(** The host port bound to a port of a container, from its bindings. *)
Definition host_port (bindings : option (list string)) : string :=
  match bindings with Some (port :: _) => port | _ => "" end.
Definition SuiteSidecarURL (client_ok : bool) (inspect : string -> option (gmap string (list string))) (suiteID profile : string) : string :=
  if negb client_ok then ""
  else match inspect (SidecarContainerName suiteID profile) with
       | None => ""
       | Some ports =>
           let port := host_port (ports !! "9080/tcp") in
           if bool_decide (port = "") then "" else "http://127.0.0.1:" +:+ port
       end.
Definition ContainerHostPort (client_ok : bool) (inspect : string -> option (gmap string (list string)))
    (executionID nodeID containerPort : string) : string :=
  if negb client_ok then ""
  else match inspect (containerName executionID nodeID) with
       | None => ""
       | Some ports => host_port (ports !! containerPort)
       end.

(** ** The life of a container *)
Definition container_call (e : effect) : bool :=
  match e with
  | ContainerCreate _ _ _ | ContainerStart _ | ContainerStop _ | ContainerRemove _ | Watch _ => true
  | _ => false
  end.
Notation container_calls := (filter (fun e => container_call e = true)).
Lemma performs_spec es : forall w : world (list effect), performs es w = (tt, mkWorld (Lines w) (St w ++ es)).
Proof using Type.
  induction es as [|e es IH]; intros [ls t]; cbn [performs]; [by rewrite app_nil_r|].
  rewrite bind_run, IH. cbn [perform fst snd Lines St]. by rewrite <-app_assoc.
Qed.
Lemma emits_state {S} ls (w : world S) : St (emits ls w).2 = St w.
Proof using Type. by rewrite emits_spec. Qed.
Lemma collected_calls step dir status : container_calls (collected step dir status) = [].
Proof using Type.
  unfold collected. destruct (Step.OnArtifact step); [|done].
  induction (Step.ArtifactExports step) as [|export rest IH]; [done|]. cbn. rewrite filter_app, IH, app_nil_r.
  unfold exported. repeat case_match; done.
Qed.
Lemma prepare_calls d step w : container_calls (St (prepare_workspace d step w).2) = container_calls (St w).
Proof using Type.
  unfold prepare_workspace, stop_with, perform, bind, ret.
  repeat (case_match; cbn [fst snd St Lines]); simplify_eq; cbn [fst snd St Lines]; rewrite ?filter_app;
    cbn; by rewrite ?app_nil_r.
Qed.
(** The calls of a foreground container after its start. *)
Lemma foreground_calls d step dir id w :
  container_calls (St (run_foreground d step dir id w).2) = container_calls (St w) ++
    (match d_wait d with ContextDone => [ContainerStop id] | _ => [] end) ++ [ContainerRemove id].
Proof using Type.
  unfold run_foreground. cbv zeta. rewrite !bind_run. cbn [ret snd]. unfold perform at 1. cbn [snd St].
  rewrite emits_state, filter_app. change (container_calls [ContainerRemove id]) with [ContainerRemove id].
  rewrite app_assoc. f_equal.
  assert (forall failed w', container_calls (St (finish_run step dir failed w').2) = container_calls (St w')) as Hf.
  { intros failed w'. unfold finish_run. rewrite bind_run, performs_spec. cbn [fst snd].
    destruct failed; cbn [ret snd St bind emit]; by rewrite filter_app, collected_calls, app_nil_r. }
  destruct (d_wait d) as [|[e|]|status message]; rewrite ?Hf, ?bind_run; cbn [ret snd fst perform St];
    rewrite ?filter_app, emits_state; [done|by rewrite app_nil_r..].
Qed.
Lemma detached_calls d step id w :
  container_calls (St (run_detached d step id w).2) = container_calls (St w) ++ [Watch id].
Proof using Type.
  unfold run_detached. rewrite !bind_run.
  destruct (d_crash d); cbn [ret snd]; rewrite emits_state; unfold perform; cbn [snd St]; by rewrite filter_app.
Qed.

(** What a run calls, with what its watching goroutine calls later. *)
Definition with_watchers (calls : list effect) : list effect :=
  concat ((fun e => match e with Watch id => watched_to_the_end id | e => [e] end) <$> calls).
Inductive container_life (detached : bool) : list effect -> Prop :=
  | life_none : container_life detached []
  | life_not_started id name config :
      container_life detached [ContainerCreate id name config; ContainerRemove id]
  | life_stopped id name config : detached = false ->
      container_life detached [ContainerCreate id name config; ContainerStart id; ContainerStop id; ContainerRemove id]
  | life_ended id name config : detached = false ->
      container_life detached [ContainerCreate id name config; ContainerStart id; ContainerRemove id]
  | life_watched id name config : detached = true ->
      container_life detached [ContainerCreate id name config; ContainerStart id; Watch id].

(** C31: Whatever Docker and the file system answer, a step creates at most one
    container; a step that is not a service removes it before it returns; a
    service removes it when it cannot be started and otherwise leaves it to the
    goroutine that stops and removes it: in the end the last call for every
    container created is its removal. *)
Theorem containers_are_removed (d : daemon) (step : StepSpec) (lines : list Hub.Line) :
  let calls := container_calls (St (runInDocker d step (mkWorld lines [])).2) in
  container_life (isDetachedService step) calls /\
  (forall id name config, ContainerCreate id name config ∈ calls -> last (with_watchers calls) = Some (ContainerRemove id)).
Proof using Type.
  cbv zeta. set (calls := container_calls _).
  assert (container_life (isDetachedService step) calls) as H.
  { unfold calls, runInDocker. cbv zeta. destruct (negb (d_client d)); [constructor|]. case_bool_decide; [constructor|].
    rewrite bind_run. pose proof (prepare_calls d step (mkWorld lines [])) as Hp.
    destruct (prepare_workspace d step _) as [[e|dir] w]; cbn [fst snd ret] in *; [rewrite Hp; constructor|].
    destruct (memory_error step); [cbn [ret snd]; rewrite Hp; constructor|]. rewrite bind_run.
    assert (exists result w', create_container d step (step_image step) w = (result, w') /\
      container_calls (St w') = match result with
        | inl _ => []
        | inr id => [ContainerCreate id (containerName (Step.ExecutionID step) (Node.ID (Step.Node step)))
                                     (step_config step (step_image step))] end) as (result & w' & -> & Hc).
    { unfold create_container, created, stop_with, perform, emit, bind, ret. cbv zeta. cbn in Hp.
      repeat case_match; simplify_eq; eexists _, _; (split; [reflexivity|]); cbn [St Lines];
        rewrite ?filter_app, ?Hp; done. }
    cbn [fst snd]. destruct result as [e|id]; [cbn [ret snd]; rewrite Hc; constructor|].
    destruct (d_start d); rewrite !bind_run; cbn [perform emit fst snd ret St].
    { rewrite filter_app, Hc. constructor. }
    destruct (isDetachedService step) eqn:Hd.
    - rewrite detached_calls. cbn [St]. rewrite filter_app, Hc. by constructor.
    - rewrite foreground_calls. cbn [St]. rewrite filter_app, Hc. destruct (d_wait d); by constructor. }
  split; [done|]. destruct H; intros ? ? ? Hin; set_unfold in Hin; naive_solver.
Qed.

(** ** The verdict of a container *)
Definition obtained (d : daemon) : option string :=
  match d_create d with
  | ContainerCreated id => Some id
  | CreateFailed _ => None
  | ImageNotFound _ =>
      match d_pull d, d_create_again d with
      | None, ContainerCreated id => Some id
      | _, _ => None
      end
  end.
(** The container of the step runs. *)
Record started (d : daemon) (step : StepSpec) : Prop := {
  started_client : d_client d = true;
  started_image : step_image step <> "";
  started_workspace : d_mkdir d = None /\ d_chmod d = None;
  started_memory : memory_error step = None;
  started_created : is_Some (obtained d);
  started_start : d_start d = None;
}.
Definition artifact_call (e : effect) : bool := match e with OnArtifact _ _ => true | _ => false end.
Notation artifact_calls := (filter (fun e => artifact_call e = true)).

Lemma prepare_result d step w : exists w', artifact_calls (St w') = artifact_calls (St w) /\
  prepare_workspace d step w =
    (match d_mkdir d, d_chmod d with
     | None, None => inr (ExecutionWorkspaceDir tempDir (Step.ExecutionID step))
     | Some e, _ => inl (ErrWrap "workspace dir unavailable" e)
     | None, Some e => inl (ErrWrap "workspace dir not writable" e)
     end, w').
Proof using Type.
  unfold prepare_workspace, stop_with, perform, bind, ret. cbv zeta.
  repeat case_match; simplify_eq; (eexists; split; [|reflexivity]); cbn [fst snd St Lines]; rewrite ?filter_app;
    cbn; by rewrite ?app_nil_r.
Qed.
Lemma create_result d step img w : exists w', artifact_calls (St w') = artifact_calls (St w) /\
  (create_container d step img w).2 = w' /\
  match obtained d with
  | Some id => (create_container d step img w).1 = inr id
  | None => exists e, (create_container d step img w).1 = inl e
  end.
Proof using Type.
  unfold create_container, obtained, created, stop_with, perform, emit, bind, ret. cbv zeta.
  repeat case_match; simplify_eq; (eexists; split; [|split; [reflexivity|]]); cbn [fst snd St Lines]; rewrite ?filter_app;
    cbn; rewrite ?app_nil_r; eauto.
Qed.
Lemma collected_artifacts step dir status : artifact_calls (collected step dir status) = collected step dir status.
Proof using Type.
  unfold collected. destruct (Step.OnArtifact step); [|done].
  induction (Step.ArtifactExports step) as [|export rest IH]; [done|]. cbn. rewrite filter_app, IH. f_equal.
  unfold exported. repeat case_match; done.
Qed.
Lemma foreground_result d step dir id w :
  ((run_foreground d step dir id w).1 = None <-> d_wait d = WaitError None \/ d_wait d = NotRunning 0 "") /\
  artifact_calls (St (run_foreground d step dir id w).2) = artifact_calls (St w) ++
    match d_wait d with
    | NotRunning status message => collected step dir (exit_status (exit_error status message))
    | WaitError None => collected step dir "success"
    | _ => []
    end.
Proof using Type.
  unfold run_foreground. cbv zeta. rewrite !bind_run. cbn [ret snd fst perform St].
  rewrite emits_state, filter_app. change (artifact_calls [ContainerRemove id]) with (@nil effect). rewrite app_nil_r.
  assert (forall failed w', (finish_run step dir failed w').1 = failed /\
    artifact_calls (St (finish_run step dir failed w').2) = artifact_calls (St w') ++ collected step dir (exit_status failed)) as Hf.
  { intros failed w'. unfold finish_run. rewrite bind_run, performs_spec. cbn [fst snd].
    destruct failed; cbn [ret fst snd St bind emit]; by rewrite filter_app, collected_artifacts. }
  assert (forall ls, artifact_calls (St (emits ls w).2) = artifact_calls (St w)) as He by (intros; by rewrite emits_state).
  destruct (d_wait d) as [|[e|]|status message].
  - rewrite bind_run. cbn [ret fst snd perform St]. rewrite filter_app, He. split; [split; [done|by intros [?|?]]|done].
  - cbn [ret fst snd]. rewrite He, app_nil_r. split; [split; [done|by intros [?|?]]|done].
  - destruct (Hf None (emits (take (d_early d) (container_lines step (default "" (d_output d)))) w).2) as [-> ->].
    rewrite He. split; [tauto|done].
  - destruct (Hf (exit_error status message) (emits (take (d_early d) (container_lines step (default "" (d_output d)))) w).2) as [-> ->].
    rewrite He. split; [|done]. unfold exit_error. destruct (bool_decide_reflect (message = "")) as [->|Hm]; cbn [negb].
    + destruct (Z.eqb_spec status 0) as [->|Hs]; [tauto|]. split; [done|]. intros [?|[= ?]]; done.
    + split; [done|]. intros [?|[= ? ?]]; done.
Qed.

(** A run gets as far as a started container, or fails before without
    artifacts. *)
Lemma run_reaches d step lines :
  (started d step /\ exists id w, artifact_calls (St w) = [] /\
     runInDocker d step (mkWorld lines []) =
       (if isDetachedService step then run_detached d step id w
        else run_foreground d step (ExecutionWorkspaceDir tempDir (Step.ExecutionID step)) id w)) \/
  (~ started d step /\ exists e, (runInDocker d step (mkWorld lines [])).1 = Some e).
Proof using Type.
  unfold runInDocker. cbv zeta.
  destruct (d_client d) eqn:Hcl; cbn [negb]; [|right; split; [intros []; congruence|by eexists]].
  case_bool_decide as Himg; [right; split; [intros []; congruence|by eexists]|].
  rewrite bind_run. destruct (prepare_result d step (mkWorld lines [])) as (w1 & Hw1 & ->). cbn [fst snd].
  destruct (d_mkdir d) eqn:Hmk; [right; split; [intros [? ? [] ? ? ?]; congruence|by eexists]|].
  destruct (d_chmod d) eqn:Hch; [right; split; [intros [? ? [] ? ? ?]; congruence|by eexists]|].
  destruct (memory_error step) eqn:Hmem; [right; split; [intros []; congruence|by eexists]|].
  rewrite bind_run. destruct (create_result d step (step_image step) w1) as (w2 & Hw2 & <- & Hr).
  destruct (obtained d) as [id|] eqn:Hob; [rewrite Hr|destruct Hr as [e ->]; right; split;
    [intros [? ? ? ? [? ?] ?]; congruence|by eexists]].
  destruct (d_start d) eqn:Hst; [right; split; [intros []; congruence|rewrite bind_run; by eexists]|].
  left. split; [by constructor|]. rewrite !bind_run. eexists id, _. split; [|by destruct (isDetachedService step)].
  cbn [perform emit snd St]. rewrite filter_app, Hw2, Hw1. done.
Qed.

Lemma run_verdict (d : daemon) (step : StepSpec) (lines : list Hub.Line) :
  let '(failed, w) := runInDocker d step (mkWorld lines []) in
  (failed = None <-> started d step /\
     (if isDetachedService step then d_crash d = None
      else d_wait d = WaitError None \/ d_wait d = NotRunning 0 "")) /\
  (forall status message, started d step -> isDetachedService step = false -> d_wait d = NotRunning status message ->
     artifact_calls (St w) =
     collected step (ExecutionWorkspaceDir tempDir (Step.ExecutionID step))
       (if bool_decide (status = 0 /\ message = "") then "success" else "failure")).
Proof using Type.
  destruct (run_reaches d step lines) as [(Hs & id & w & Hw & ->)|(Hs & e & He)].
  - destruct (isDetachedService step) eqn:Hd.
    + unfold run_detached. rewrite !bind_run. destruct (d_crash d); cbn [ret]; split; [split; [done|by intros [_ ?]]|done|tauto|done].
    + destruct (foreground_result d step (ExecutionWorkspaceDir tempDir (Step.ExecutionID step)) id w) as [Hr Ha].
      destruct (run_foreground _ _ _ _ _) as [failed w']. cbn [fst snd] in *. split; [tauto|].
      intros status message _ _ Hwait. rewrite Ha, Hw, Hwait. cbn [app]. f_equal. unfold exit_error.
      repeat case_bool_decide; destruct (Z.eqb_spec status 0); naive_solver.
  - destruct (runInDocker _ _ _) as [failed w]. cbn [fst] in He. rewrite He. split; [split; [done|tauto]|tauto].
Qed.

(** A step passes on Docker exactly when its container was started and, for
    a service, did not exit within the first half second, for any other step,
    ended with status 0 and without an error. Each artifact of a started step
    that is not a service is delivered when its trigger matches that result,
    its file can be read and is not empty, in the order of the exports, even
    when the step fails. *)
Theorem container_verdict (d : daemon) (step : StepSpec) (lines : list Hub.Line) :
  let '(failed, w) := runInDocker d step (mkWorld lines []) in
  (failed = None <-> started d step /\
     (if isDetachedService step then d_crash d = None
      else d_wait d = WaitError None \/ d_wait d = NotRunning 0 "")) /\
  (forall status message, started d step -> isDetachedService step = false -> d_wait d = NotRunning status message ->
     artifact_calls (St w) =
     collected step (ExecutionWorkspaceDir tempDir (Step.ExecutionID step))
       (if bool_decide (status = 0 /\ message = "") then "success" else "failure")).
Proof using Type. apply run_verdict. Qed.
(** ** The sidecar of a suite *)
Record sidecar_daemon := mkSidecar {
  s_client : bool; s_running : bool;
  s_conf_dir : option goerr; s_config : option goerr; s_routes : option goerr; s_lua_dir : option goerr; s_lua : option goerr;
  s_create : create_outcome; s_pull : option goerr; s_create_again : create_outcome; s_start : option goerr;
  s_crash : option Z }.
Definition standaloneCfg : string :=
  Join ["deployment:"; "  role: data_plane"; "  role_data_plane:"; "    config_provider: yaml"; ""] newline.
Definition LuaPluginMountPath : string := "/usr/local/openresty/site/lualib/apisix/plugins".

(** [url.Parse] of an address with brackets validates the address inside. *)
Variable ip_literal : string -> bool.
Fixpoint mock_aliases (seen : gset string) (hosts : list string) : list string :=
  match hosts with
  | [] => []
  | mockHost :: rest =>
      match Url.Parse ip_literal mockHost with
      | None => mock_aliases seen rest
      | Some u =>
          let h := TrimSpace (Url.Host u) in
          if bool_decide (h = "") || bool_decide (h ∈ seen) then mock_aliases seen rest
          else (h +:+ ":127.0.0.1") :: mock_aliases ({[h]} ∪ seen) rest
      end
  end.
Definition sidecar_config (suiteID profile image mountPath confDir luaDir : string) (mockHosts : list string) : container_config :=
  mkContainer image ["APISIX_STAND_ALONE=true"; "BABELSUITE_ENGINE_ADDR=host.docker.internal:8090"]
    (sidecarLabels pid suiteID profile) [] {["9080/tcp"]} {["9080/tcp" := ("127.0.0.1", "")]} 0 0 0 None [] []
    [path_join [confDir; "config.yaml"] +:+ ":/usr/local/apisix/conf/config.yaml";
     path_join [confDir; "apisix.yaml"] +:+ ":" +:+ mountPath +:+ ":ro"; luaDir +:+ ":" +:+ LuaPluginMountPath +:+ ":ro"]
    [] [] "" [] ("host.docker.internal:host-gateway" :: mock_aliases ∅ mockHosts).
(** Goes on when the call before succeeded. *)
Definition then_ (failure : option goerr) (text : string) (k : calls (option goerr)) : calls (option goerr) :=
  match failure with Some e => ret (Some (ErrWrap text e)) | None => k end.
Definition start_sidecar (d : sidecar_daemon) (id : string) : calls (option goerr) :=
  match s_start d with
  | Some e => perform (ContainerRemove id) ;;; ret (Some (ErrWrap "start sidecar container" e))
  | None =>
      perform (ContainerStart id) ;;;
      ret ((fun status => ErrText ("apisix sidecar crashed on startup (code " +:+ FormatInt status +:+ ")")) <$> s_crash d)
  end.
Definition sidecar_created (d : sidecar_daemon) (outcome : create_outcome) (name : string) (config : container_config) :
    calls (option goerr) :=
  match outcome with
  | ContainerCreated id => perform (ContainerCreate id name config) ;;; start_sidecar d id
  | ImageNotFound e | CreateFailed e => ret (Some (ErrWrap "create sidecar container" e))
  end.
(** [yaml] is the rendered configuration of the suite's routes. *)
Definition EnsureSuiteSidecar (d : sidecar_daemon) (suiteID profile sidecarImage configMountPath yaml : string)
    (mockHosts : list string) : calls (option goerr) :=
  let name := SidecarContainerName suiteID profile in
  let confDir := SidecarConfDir tempDir suiteID profile in
  let luaDir := path_join [confDir; ".."; "plugins"] in
  let image := if bool_decide (sidecarImage = "") then "apache/apisix:latest" else sidecarImage in
  let mountPath := if bool_decide (configMountPath = "") then "/usr/local/apisix/conf/apisix.yaml" else configMountPath in
  let config := sidecar_config suiteID profile image mountPath confDir luaDir mockHosts in
  if negb (s_client d) || s_running d then ret None
  else
    then_ (s_conf_dir d) "sidecar conf dir" (perform (MkdirAll confDir) ;;;
    then_ (s_config d) "write config.yaml" (perform (WriteFile (path_join [confDir; "config.yaml"]) standaloneCfg) ;;;
    then_ (s_routes d) "write apisix.yaml" (perform (WriteFile (path_join [confDir; "apisix.yaml"]) yaml) ;;;
    then_ (s_lua_dir d) "create lua dir" (perform (MkdirAll luaDir) ;;;
    then_ (s_lua d) "write lua plugins" (
      perform (ContainerRemove name) ;;;
      match s_create d with
      | ImageNotFound _ =>
          then_ (s_pull d) "pull apisix image" (perform (ImagePull image) ;;; sidecar_created d (s_create_again d) name config)
      | outcome => sidecar_created d outcome name config
      end))))).
End Docker.

(** ** A sample *)
Definition sample_order (env : gmap string string) : list (string * string) := map_to_list env.
Definition sample_daemon (wait : wait_outcome) : daemon :=
  mkDaemon true None None true true (ImageNotFound (ErrText "no such image")) None (ContainerCreated "c1") None None
    (Some ("seeded" +:+ newline +:+ "3 rows" +:+ newline)) 1 wait.
Definition sample_task (exports : list ArtifactExport) : StepSpec :=
  Step.mk "e1" "suite" "Suite" "" "dev" "" {["A" := "1"]} ∅ "" "" "" "" "" "" "" "" "" "" "" 0 1 0 0 None None None [] None []
    exports true (Node.mk "seed" "db/seed" "task" "task.run" "" "" "seed.sh" ["echo hi"] "ls" ["gpu:2"; "/dev/kvm"] 0 1500 []) ""
    [] "http://127.0.0.1:9080" [] [].
Definition sample_exports : list ArtifactExport :=
  [Artifact.mk "out.json" "" "success" ""; Artifact.mk "log.txt" "" "failure" ""; Artifact.mk "empty" "" "always" ""].
Definition sample_open (path : string) : goerr + string :=
  if bool_decide (path = "/tmp/babel-workspace/e1/out.json") then inr "{}"
  else if bool_decide (path = "/tmp/babel-workspace/e1/log.txt") then inr "log"
  else if bool_decide (path = "/tmp/babel-workspace/e1/empty") then inr "" else inl (ErrText "no such file").
Definition sample_container (wait : wait_outcome) : option goerr * world (list effect) :=
  runInDocker "/tmp" 1 (fun _ => false) sample_order sample_open no_matches (sample_daemon wait) (sample_task sample_exports)
    (mkWorld [] []).
Definition summary (e : effect) : string :=
  match e with
  | MkdirAll dir => "mkdir " +:+ dir | Chmod dir => "chmod " +:+ dir | WriteFile path _ => "write " +:+ path
  | ImagePull image => "pull " +:+ image | ContainerCreate _ name _ => "create " +:+ name
  | ContainerStart id => "start " +:+ id | ContainerStop id => "stop " +:+ id | ContainerRemove id => "remove " +:+ id
  | Watch id => "watch " +:+ id | OnArtifact path content => "artifact " +:+ path +:+ "=" +:+ content
  | NetworkCreate n => "network " +:+ n | NetworkDisconnect n _ => "disconnect " +:+ n | NetworkRemove n => "remove network " +:+ n
  end.
Example failing_container :
  let '(failed, w) := sample_container (NotRunning 3 "") in
  (failed, summary <$> St w, Hub.LineText <$> reverse (Lines w)) =
  (Some (ErrText "container exited with code 3"),
   ["mkdir /tmp/babel-workspace/e1"; "chmod /tmp/babel-workspace/e1"; "mkdir /tmp/babel-workspace/e1";
    "write /tmp/babel-workspace/e1/seed.sh"; "pull alpine:3.19"; "create babel-e1-seed"; "start c1"; "artifact log.txt=log";
    "remove c1"],
   ["[db/seed] Pulling image alpine:3.19."; "[db/seed] Container started."; "seeded"; "3 rows"]).
Proof. vm_compute. reflexivity. Qed.
Example devices_ex : buildDeviceConfig ["gpu"; "gpu: +2x"; "gpu:many"; "/dev/kvm"; "usb"] =
  ([gpus (-1); gpus 2; gpus 1], [mkMapping "/dev/kvm" "/dev/kvm" "rwm"]).
Proof. vm_compute. reflexivity. Qed.
Example aliases_ex : step_aliases (sample_task []) = ["seed"].
Proof. vm_compute. reflexivity. Qed.

Notation sample_args f := (f "/tmp" 1 (fun _ => false) sample_order sample_open no_matches).
Lemma containers_are_removed_witness :
  last (with_watchers (filter (fun e => container_call e = true) (St (sample_container ContextDone).2))) =
  Some (ContainerRemove "c1").
Proof.
  pose proof (sample_args containers_are_removed (sample_daemon ContextDone) (sample_task sample_exports) []) as [_ H].
  eapply H. vm_compute. left.
Defined.
Lemma container_verdict_witness :
  (sample_container (NotRunning 3 "")).1 <> None /\
  filter (fun e => artifact_call e = true) (St (sample_container (NotRunning 3 "")).2) = [OnArtifact "log.txt" "log"].
Proof.
  pose proof (sample_args container_verdict (sample_daemon (NotRunning 3 "")) (sample_task sample_exports) []) as H.
  change (runInDocker _ _ _ _ _ _ _ _ _) with (sample_container (NotRunning 3 "")) in H.
  destruct (sample_container (NotRunning 3 "")) as [failed w]. destruct H as [Hr Ha]. cbn [fst snd]. split.
  - rewrite Hr. intros [_ [H|H]]; discriminate H.
  - rewrite (Ha 3 ""); [vm_compute; reflexivity| |reflexivity|reflexivity].
    constructor; [reflexivity|discriminate|split; reflexivity|reflexivity|by eexists|reflexivity].
Defined.

(** A line that does not fit the scanner's buffer hides itself and everything
    after it. *)
Lemma long_line_hides_the_rest step (before long after : bytes) :
  (MaxScanTokenSize <= length long)%nat -> byte_of 10 ∉ long ->
  container_lines step (to_string (before ++ byte_of 10 :: long ++ byte_of 10 :: after)) = container_lines step (to_string before).
Proof.
  intros Hlen Hin. unfold container_lines. do 2 f_equal. rewrite !of_to, !split_app.
  rewrite (split_no_sep _ long) by (apply Forall_forall; intros c Hc ->; done). f_equal. cbn [app].
  induction (split_bytes (byte_of 10) before) as [|part parts IH]; cbn [app scan_lines].
  - by rewrite (proj2 (Nat.ltb_ge _ _)).
  - destruct (_ <? _)%nat; [by rewrite IH|done].
Qed.

End DockerRun.
