(* ===== verification/KubeRun.v ===== *)
(** Steps in Kubernetes pods, [src/backend/internal/runner] kubernetes.go,
    kubernetes_services.go and kubernetes_portforward.go: the pod of a step, how
    it is waited for, its artifacts, the services an execution keeps, and their
    forwarded ports.

    The cluster is an argument: what it answers to the calls of one function,
    and the events a watch delivers until its context ends.  A run records the
    calls that change something, oldest first. *)
From Stdlib Require Import ZArith Lia Ascii.
From S2P Require Import Prelude GoStrings Runes Strconv Url Values StarNode LoadPlan ProxyTarget Hub Format Runner StepRun Containers DockerRun.
Import GoStrings Runes Strconv Runner Containers.
#[local] Open Scope run_scope.

Module KubeRun.

(** ** Pods *)
Definition k8sStepContainer : string := "step".
Definition k8sArtifactSidecar : string := "artifact-collector".
Definition k8sArtifactsMount : string := "/babelsuite-artifacts".
Definition k8sExecutionLabel : string := "babelsuite.execution".

(** The quantities of package resource, as they are built. *)
Inductive quantity := NewQuantity (bytes : Z) | NewMilliQuantity (milli : Z) | MustParse (text : string).
Module Pod.
Record SecurityContext := mkSecurity {
  RunAsUser : option Z; AllowPrivilegeEscalation : option bool; Drop : list string; Seccomp : string }.
Record Container := mkContainer {
  Name : string; Image : string; Env : list (string * string); Command : list string; ImagePullPolicy : string;
  Requests : gmap string quantity; Limits : gmap string quantity; VolumeMounts : list (string * string);
  Security : option SecurityContext }.
Inductive volume := Claim (name claim : string) | EmptyDir (name : string).
Record Toleration := mkToleration { Key : string; Operator : string; Effect : string }.
Record t := mk {
  PodName : string; Labels : gmap string string; RestartPolicy : string; Containers : list Container;
  Volumes : list volume; Searches : list string; Hostname : string; Subdomain : string; Tolerations : list Toleration }.
End Pod.

(** What a watch or a read shows of a pod. *)
Module Status.
Record condition := mkCondition { Type_ : string; Status : string; Reason : string; Message : string }.
Record terminated := mkTerminated { ExitCode : Z; TReason : string; TMessage : string }.
Record container := mk { Name : string; Waiting : option (string * string); Running : bool; Terminated : option terminated }.
Record pod := mkPod { PodName : string; Conditions : list condition; Containers : list container; Phase : string; PMessage : string }.
End Status.
Notation pod_status := Status.pod.
(** A watch delivers a pod, an error, another object, or is closed; at the end
    of a list of items the context is done. *)
Inductive watch_item := PodEvent (pod : pod_status) | ErrorEvent | OtherObject | ChannelClosed.

Definition k8sFatalWaitingReasons : list string :=
  ["ImagePullBackOff"; "InvalidImageName"; "CreateContainerConfigError"; "CreateContainerError"].
Definition is_unschedulable (c : Status.condition) : bool :=
  bool_decide (Status.Type_ c = "PodScheduled") && bool_decide (Status.Status c = "False") &&
  bool_decide (Status.Reason c = "Unschedulable").
Definition is_step (cs : Status.container) : bool := bool_decide (Status.Name cs = k8sStepContainer).
Fixpoint waiting_failure (statuses : list Status.container) : option goerr :=
  match statuses with
  | [] => None
  | cs :: rest =>
      match Status.Waiting cs with
      | Some (reason, message) =>
          if is_step cs && bool_decide (reason ∈ k8sFatalWaitingReasons)
          then Some (ErrText ("container cannot start (" +:+ reason +:+ "): " +:+ message))
          else waiting_failure rest
      | None => waiting_failure rest
      end
  end.
Definition podStartFailure (pod : pod_status) : option goerr :=
  match List.find is_unschedulable (Status.Conditions pod) with
  | Some c => Some (ErrText ("pod " +:+ Status.PodName pod +:+ " is unschedulable: " +:+ Status.Message c))
  | None => waiting_failure (Status.Containers pod)
  end.

(** [serviceState]: running, not ready yet, or an error. *)
Inductive service_state := ServiceRunning | ServiceNotReady | ServiceFailed (e : goerr).
Fixpoint step_service_state (statuses : list Status.container) : service_state :=
  match statuses with
  | [] => ServiceNotReady
  | cs :: rest =>
      if negb (is_step cs) then step_service_state rest
      else match Status.Terminated cs with
           | Some t =>
               let reason := Status.TReason t +:+
                 (if negb (bool_decide (Status.TMessage t = "")) then ": " +:+ Status.TMessage t else "") in
               ServiceFailed (ErrText ("service exited immediately with code " +:+ FormatInt (Status.ExitCode t) +:+
                                       " (" +:+ reason +:+ ")"))
           | None => if Status.Running cs then ServiceRunning else step_service_state rest
           end
  end.
Definition serviceState (pod : pod_status) : service_state :=
  match podStartFailure pod with
  | Some e => ServiceFailed e
  | None =>
      match step_service_state (Status.Containers pod) with
      | ServiceNotReady =>
          if bool_decide (Status.Phase pod ∈ ["Failed"; "Succeeded"])
          then ServiceFailed (ErrText ("service pod " +:+ Status.PodName pod +:+ " ended in phase " +:+ Status.Phase pod +:+
                                       ": " +:+ Status.PMessage pod))
          else ServiceNotReady
      | state => state
      end
  end.

(** ** Waiting for a step

    What one event says: an exit code with an error, or that the container
    runs. *)
Definition terminated_result (t : Status.terminated) : Z * option goerr :=
  if negb (Status.ExitCode t =? 0) then
    let msg := if bool_decide (Status.TMessage t = "") then Status.TReason t else Status.TMessage t in
    let msg := if bool_decide (msg = "") then "exit code " +:+ FormatInt (Status.ExitCode t) else msg in
    (Status.ExitCode t, Some (ErrText ("step container failed: " +:+ msg)))
  else (0, None).
(** The first terminated step container, and whether one before it runs. *)
Fixpoint step_statuses (running : bool) (statuses : list Status.container) : bool * option (Z * option goerr) :=
  match statuses with
  | [] => (running, None)
  | cs :: rest =>
      if negb (is_step cs) then step_statuses running rest
      else
        let running := running || Status.Running cs in
        match Status.Terminated cs with
        | Some t => (running, Some (terminated_result t))
        | None => step_statuses running rest
        end
  end.
Definition phase_result (pod : pod_status) : option (Z * option goerr) :=
  if bool_decide (Status.Phase pod = "Succeeded") then Some (0, None)
  else if bool_decide (Status.Phase pod = "Failed")
  then Some (1, Some (ErrText (if bool_decide (Status.PMessage pod = "") then "pod exited with failure" else Status.PMessage pod)))
  else None.
Definition event_result (pod : pod_status) : bool * option (Z * option goerr) :=
  match podStartFailure pod with
  | Some e => (false, Some (0, Some e))
  | None =>
      let '(running, result) := step_statuses false (Status.Containers pod) in
      (running, match result with Some r => Some r | None => phase_result pod end)
  end.
Section Watch.
Context {S : Type}.
Fixpoint wait_loop (step : StepSpec) (runningEmitted : bool) (items : list watch_item) : run S (Z * option goerr) :=
  match items with
  | [] => ret (0, Some Canceled)
  | ChannelClosed :: _ => ret (0, Some (ErrText "pod watch channel closed unexpectedly"))
  | ErrorEvent :: _ => ret (0, Some (ErrText "pod watch error event received"))
  | OtherObject :: rest => wait_loop step runningEmitted rest
  | PodEvent pod :: rest =>
      let '(running, result) := event_result pod in
      (if running && negb runningEmitted
       then emit (said step "info" "Pod admitted, sidecars initialized, and readiness probes turned green.") else ret tt) ;;;
      match result with
      | Some r => ret r
      | None => wait_loop step (runningEmitted || running) rest
      end
  end.
Definition waitForStepContainer (step : StepSpec) (watch : goerr + list watch_item) : run S (Z * option goerr) :=
  match watch with
  | inl e => ret (0, Some (ErrWrap "pod watch" e))
  | inr items => wait_loop step false items
  end.
End Watch.

(** Waiting for a service: the events, whether the context ended by its
    deadline, and the pod read after the window for a crash. *)
Definition k8sServiceStartTimeout : Z := 15 * 60 * second.
Fixpoint service_loop (podName : string) (deadline : bool) (items : list watch_item) : option goerr :=
  match items with
  | [] => Some (if deadline then ErrText ("pod " +:+ podName +:+ " did not reach Running within " +:+
                                          Format.Duration_String k8sServiceStartTimeout) else Canceled)
  | ChannelClosed :: _ => Some (ErrText ("pod watch closed before " +:+ podName +:+ " was running"))
  | ErrorEvent :: _ => Some (ErrText ("pod watch error for " +:+ podName))
  | OtherObject :: rest => service_loop podName deadline rest
  | PodEvent pod :: rest =>
      match serviceState pod with
      | ServiceRunning => None
      | ServiceFailed e => Some e
      | ServiceNotReady => service_loop podName deadline rest
      end
  end.
Definition errServiceNotReady : goerr := ErrText "service pod not running yet".
(** [after]: the context ends within the window, or the pod that is read. *)
Definition waitForServiceRunning (podName : string) (watch : goerr + list watch_item) (deadline : bool)
    (after : option (goerr + pod_status)) : option goerr :=
  match watch with
  | inl e => Some (ErrWrap "pod watch" e)
  | inr items =>
      match service_loop podName deadline items with
      | Some e => Some e
      | None =>
          match after with
          | None => Some Canceled
          | Some (inl e) => Some (ErrWrap ("get pod " +:+ podName) e)
          | Some (inr pod) =>
              match serviceState pod with
              | ServiceRunning => None
              | ServiceNotReady => Some errServiceNotReady
              | ServiceFailed e => Some e
              end
          end
      end
  end.

(** ** Addresses *)
(** [u.Port()] *)
Definition Port (host : string) : string :=
  let l := of_string host in
  match index_bytes ":" (reverse l) with
  | Some n => let i := (length l - 1 - n)%nat in
              if Url.validOptionalPort (drop i l) then to_string (drop (S i) l) else ""
  | None => ""
  end.
Definition with_host (host : string) (u : Url.URL) : Url.URL :=
  {| Url.Scheme := Url.Scheme u; Url.Opaque := Url.Opaque u; Url.User := Url.User u; Url.Host := host; Url.Path := Url.Path u;
     Url.RawQuery := Url.RawQuery u; Url.Fragment := Url.Fragment u; Url.RawPath := Url.RawPath u;
     Url.RawFragment := Url.RawFragment u; Url.ForceQuery := Url.ForceQuery u; Url.OmitHost := Url.OmitHost u |}.
Section Rewrite.
Variable ip_literal : string -> bool.
Definition RewriteLoopbackURL (raw host : string) : string :=
  match Url.Parse ip_literal raw with
  | None => raw
  | Some u =>
      if blank host then raw
      else if bool_decide (ProxyTarget.Hostname (Url.Host u) ∈ ["127.0.0.1"; "localhost"; "::1"]) then
        let port := Port (Url.Host u) in
        Url.URL_String (with_host (if bool_decide (port = "") then host else host +:+ ":" +:+ port) u)
      else raw
  end.
End Rewrite.
Definition k8sHostAlias : string := "host.docker.internal".
Example rewrite_ex : (fun raw => RewriteLoopbackURL (fun _ => true) raw k8sHostAlias) <$>
    ["http://127.0.0.1:32768"; "http://[::1]/x?q=1"; "http://localhost:80/%2F"; "http://api:80"; "::"] =
  ["http://host.docker.internal:32768"; "http://host.docker.internal/x?q=1"; "http://host.docker.internal:80/%2F";
   "http://api:80"; "::"].
Proof. vm_compute. reflexivity. Qed.

(** ** Calls *)
Inductive effect :=
  | PodCreate (pod : Pod.t) | PodDelete (name : string)
  | ArtifactRead (path : string) | OnArtifact (path content : string)
  | ServiceCreate (name : string) (labels : gmap string string) | ClaimCreate (name : string) (labels : gmap string string)
  | ServiceDelete (name : string) | ClaimDelete (name : string).
(** The forwarded ports of the backend: the host port of each key, and the
    channels that stop the forwards of each execution. *)
Record forward_state := mkForwards { forwards : gmap string string; stops : gmap string (list handle); closed : list handle }.
Definition no_forwards : forward_state := mkForwards ∅ ∅ [].
Record kube_state := mkKube { Effects : list effect; Forwards : forward_state }.
Notation calls A := (run kube_state A).
Definition perform (e : effect) : calls unit :=
  fun w => (tt, mkWorld (Lines w) (mkKube (Effects (St w) ++ [e]) (Forwards (St w)))).

Definition k8sForwardKey (executionID nodeID containerPort : string) : string :=
  executionID +:+ "|" +:+ nodeID +:+ "|" +:+ containerPort.
Definition HostPort (executionID nodeID containerPort : string) (s : forward_state) : string :=
  default "" (forwards s !! k8sForwardKey executionID nodeID containerPort).
Definition registerForward (executionID key hostPort : string) (stop : handle) (s : forward_state) : forward_state :=
  mkForwards (<[key := hostPort]> (forwards s))
    (<[executionID := default [] (stops s !! executionID) ++ [stop]]> (stops s)) (closed s).
Definition closeForwards (executionID : string) (s : forward_state) : forward_state :=
  mkForwards (filter (fun kv => HasPrefix kv.1 (executionID +:+ "|") = false) (forwards s))
    (delete executionID (stops s)) (closed s ++ default [] (stops s !! executionID)).

(** ** The backend *)
(** What the cluster answers to the calls of one step. *)
Record cluster := mkCluster {
  c_client : option goerr; c_create : option goerr; c_watch : goerr + list watch_item;
  c_deadline : bool; c_after : option (goerr + pod_status);
  c_output : option string;       (** what the container writes, if its logs can be followed *)
  c_early : nat; c_drained : nat; (** the lines reported before it ends, and before the runner stops waiting for them *)
  c_config : option goerr; c_read : string -> goerr + string;
  c_forward : string -> goerr + (string * handle) }.

Section Kubernetes.
Variable namespace : string.
Variable IsPrint : Z -> bool.
Variable ip_literal : string -> bool.
(** [resource.ParseQuantity] accepts the text. *)
Variable Parses : string -> bool.
Variable entries : gmap string string -> list (string * string).

Definition k8sReachableURL (raw : string) : string := RewriteLoopbackURL ip_literal raw k8sHostAlias.
Definition pod_env (step : StepSpec) : list (string * string) :=
  let gateway := TrimSpace (Step.GatewayURL step) in
  entries (Step.Env step) ++ [("BABELSUITE_WORKSPACE_DIR", containerWorkspaceMount)] ++
  (if negb (bool_decide (gateway = "")) then [("BABELSUITE_GATEWAY_URL", k8sReachableURL gateway)] else []) ++
  (if (0 <? length (Step.GatewayURLs step))%nat
   then [("BABELSUITE_GATEWAY_URLS", Join (k8sReachableURL <$> Step.GatewayURLs step) ",")] else []).
Definition script_env (step : StepSpec) : list (string * string) :=
  let script := k8sStepScript step in
  let content := normalizeScriptContent (Node.FileContent (Step.Node step)) in
  (if negb (bool_decide (script = "")) then [("BABELSUITE_SCRIPT", EncodeToString script)] else []) ++
  (if negb (bool_decide (content = "")) then [("BABELSUITE_FILE", EncodeToString content)] else []).
(** The requests and limits; the request of 100m is lowered to a smaller limit. *)
Definition step_requests (milliCPU : Z) : gmap string quantity :=
  let requests := {["memory" := MustParse "64Mi"; "cpu" := MustParse "100m"]} in
  if (0 <? milliCPU) && (milliCPU <? 100) then <["cpu" := NewMilliQuantity milliCPU]> requests else requests.
Definition step_limits (memoryBytes milliCPU : Z) : gmap string quantity :=
  let limits := {["memory" := NewQuantity (if 0 <? memoryBytes then memoryBytes else 512 * 1024 * 1024)]} in
  if 0 <? milliCPU then <["cpu" := NewMilliQuantity milliCPU]> limits else limits.
Definition gpu_toleration : Pod.Toleration := Pod.mkToleration "nvidia.com/gpu" "Exists" "NoSchedule".
(** [None]: [resource.MustParse] panics. *)
Fixpoint applyDevices (limits : gmap string quantity) (tolerations : list Pod.Toleration) (devices : list string) :
    option (gmap string quantity * list Pod.Toleration) :=
  match devices with
  | [] => Some (limits, tolerations)
  | d :: rest =>
      if bool_decide (d = "gpu")
      then applyDevices (<["nvidia.com/gpu" := MustParse "1"]> limits) (tolerations ++ [gpu_toleration]) rest
      else if HasPrefix d "gpu:" then
        let count := TrimPrefix d "gpu:" in
        if Parses count
        then applyDevices (<["nvidia.com/gpu" := MustParse count]> limits) (tolerations ++ [gpu_toleration]) rest
        else None
      else if HasPrefix d "/dev/"
      then applyDevices (<["smarter-devices/" +:+ TrimPrefix d "/dev/" := MustParse "1"]> limits) tolerations rest
      else applyDevices limits tolerations rest
  end.
Definition artifact_sidecar : Pod.Container :=
  Pod.mkContainer k8sArtifactSidecar "busybox:1.36" [] ["sh"; "-c"; "sleep infinity"] ""
    {["memory" := MustParse "16Mi"; "cpu" := MustParse "10m"]} {["memory" := MustParse "32Mi"; "cpu" := MustParse "50m"]}
    [("artifacts", k8sArtifactsMount)] (Some (Pod.mkSecurity (Some 0) (Some false) [] "")).
Definition buildPod (podName : string) (step : StepSpec) (img : string) (withArtifacts : bool) : option Pod.t :=
  let node := Step.Node step in
  let detached := isDetachedService step in
  match applyDevices (step_limits (Node.MemoryBytes node) (Node.MilliCPU node)) [] (Node.Devices node) with
  | None => None
  | Some (limits, tolerations) =>
      let container := Pod.mkContainer k8sStepContainer img
        (pod_env step ++ script_env step ++ (if withArtifacts then [("BABELSUITE_ARTIFACTS_DIR", k8sArtifactsMount)] else []))
        (if bool_decide (k8sStepScript step = "") then []
         else ["/bin/sh"; "-c"; "echo $BABELSUITE_SCRIPT | base64 -d | /bin/sh -e"])
        "IfNotPresent" (step_requests (Node.MilliCPU node)) limits
        ([("workspace", containerWorkspaceMount)] ++ (if withArtifacts then [("artifacts", k8sArtifactsMount)] else []))
        (if detached then None else Some (Pod.mkSecurity None (Some false) ["ALL"] "RuntimeDefault")) in
      Some (Pod.mk podName
        (list_to_map [(k8sExecutionLabel, sanitizeID (Step.ExecutionID step)); ("babelsuite.step", sanitizeID (Node.ID node));
                      ("babelsuite.kind", Node.Kind node); (labelSuite, k8sLabelValue (Step.SuiteID step));
                      (labelProfile, k8sLabelValue (Step.Profile step))])
        "Never" (container :: if withArtifacts then [artifact_sidecar] else [])
        (Pod.Claim "workspace" (k8sWorkspaceClaim (Step.ExecutionID step)) ::
         if withArtifacts then [Pod.EmptyDir "artifacts"] else [])
        [executionDomain namespace (Step.ExecutionID step)]
        (if detached then k8sServiceHostname step else "") (if detached then k8sExecutionSubdomain (Step.ExecutionID step) else "")
        tolerations)
  end.

(** ** Artifacts and ports *)
Definition artifact_path (filePath : string) : string := k8sArtifactsMount +:+ "/" +:+ TrimPrefix (TrimSpace filePath) "/".
Definition export_one (c : cluster) (exitStatus : string) (export : ArtifactExport) : calls unit :=
  if artifactTriggerMatchesStatus (Artifact.On export) exitStatus then
    let path := artifact_path (Artifact.Path export) in
    perform (ArtifactRead path) ;;;
    match c_read c path with
    | inl _ => ret tt
    | inr content =>
        let content := slice_to content maxArtifactBytes in
        if (0 <? String.length content)%nat then perform (OnArtifact (Artifact.Path export) content) else ret tt
    end
  else ret tt.
Fixpoint collect_exports (c : cluster) (exitStatus : string) (exports : list ArtifactExport) : calls unit :=
  match exports with
  | [] => ret tt
  | export :: rest => export_one c exitStatus export ;;; collect_exports c exitStatus rest
  end.
Definition collectArtifacts (c : cluster) (step : StepSpec) (exitStatus : string) : calls unit :=
  match c_config c with
  | Some _ => ret tt
  | None => collect_exports c exitStatus (Step.ArtifactExports step)
  end.
Definition forward (step : StepSpec) (remote hostPort : string) (stop : handle) : calls unit :=
  fun w => (tt, mkWorld (Lines w) (mkKube (Effects (St w))
    (registerForward (Step.ExecutionID step)
       (k8sForwardKey (Step.ExecutionID step) (Node.ID (Step.Node step)) (remote +:+ "/tcp")) hostPort stop (Forwards (St w))))).
Fixpoint forward_ports (c : cluster) (step : StepSpec) (ports : list string) : calls (option goerr) :=
  match ports with
  | [] => ret None
  | published :: rest =>
      let remote := TrimSuffix (TrimSpace published) "/tcp" in
      match ParseInt remote with
      | None => forward_ports c step rest
      | Some _ =>
          match c_forward c remote with
          | inl e => ret (Some (ErrWrap ("port-forward " +:+ remote) e))
          | inr (hostPort, stop) => forward step remote hostPort stop ;;; forward_ports c step rest
          end
      end
  end.
Definition forwardServicePorts (c : cluster) (step : StepSpec) : calls (option goerr) :=
  if (length (Step.PublishPorts step) =? 0)%nat then ret None
  else match c_config c with
       | Some e => ret (Some e)
       | None => forward_ports c step (Step.PublishPorts step)
       end.

(** ** One step *)
Inductive outcome := Panicked | Returned (failed : option goerr).
Definition followed (c : cluster) (step : StepSpec) : list Hub.Line :=
  DockerRun.container_lines step (default "" (c_output c)).
(** Exit code and error; [None] is a panic. *)
Definition runPod (c : cluster) (step : StepSpec) (img : string) : calls (option (Z * option goerr)) :=
  let podName := k8sPodName step in
  let needsArtifacts := Step.OnArtifact step && (0 <? length (Step.ArtifactExports step))%nat in
  match buildPod podName step img needsArtifacts with
  | None => ret None
  | Some pod =>
      emit (said step "info" ("Creating Pod " +:+ podName +:+ ".")) ;;;
      match c_create c with
      | Some e => ret (Some (0, Some (ErrWrap "pod create" e)))
      | None =>
          perform (PodCreate pod) ;;;
          emit (said step "info" "Pod scheduled, waiting for completion.") ;;;
          emits (take (c_early c) (followed c step)) ;;;
          '(exitCode, waitErr) <- waitForStepContainer step (c_watch c) ;;
          emits (drop (c_early c) (take (c_drained c) (followed c step))) ;;;
          result <- match waitErr with
                    | Some e => ret (exitCode, Some e)
                    | None =>
                        (if needsArtifacts
                         then collectArtifacts c step (if exitCode =? 0 then "success" else "failure") else ret tt) ;;;
                        emit (said step "info" "Pod finished successfully.") ;;;
                        ret (exitCode, None)
                    end ;;
          perform (PodDelete podName) ;;;
          ret (Some result)
      end
  end.
Definition startServicePod (c : cluster) (step : StepSpec) (img : string) : calls outcome :=
  let podName := k8sPodName step in
  match buildPod podName step img false with
  | None => ret Panicked
  | Some pod =>
      emit (said step "info" ("Creating service Pod " +:+ podName +:+ ", reachable as " +:+ Pod.Hostname pod +:+ ".")) ;;;
      match c_create c with
      | Some e => ret (Returned (Some (ErrWrap "pod create" e)))
      | None =>
          perform (PodCreate pod) ;;;
          match waitForServiceRunning podName (c_watch c) (c_deadline c) (c_after c) with
          | Some e => perform (PodDelete podName) ;;; ret (Returned (Some e))
          | None =>
              failed <- forwardServicePorts c step ;;
              match failed with
              | Some e => perform (PodDelete podName) ;;; ret (Returned (Some e))
              | None => emit (said step "info" "Service Pod is running.") ;;; ret (Returned None)
              end
          end
      end
  end.
(** A container step, once the client is there. *)
Definition run_container (c : cluster) (step : StepSpec) (img : string) : calls outcome :=
  emit (said step "info" ("Scheduler reserved an execution slot in namespace " +:+ namespace +:+ ".")) ;;;
  emit (StepRun.bootMessage step) ;;;
  if isDetachedService step then
    started <- startServicePod c step img ;;
    match started with
    | Returned (Some e) => emit (StepRun.failed_line step "Service pod failed: " e) ;;; ret started
    | _ => ret started
    end
  else
    result <- runPod c step img ;;
    match result with
    | None => ret Panicked
    | Some (_, Some e) => emit (StepRun.failed_line step "Pod execution failed: " e) ;;; ret (Returned (Some e))
    | Some (exitCode, None) =>
        fun w =>
          let '(failed, w') := StepRun.within tt (StepRun.evaluateStepExpectations IsPrint step exitCode (StepRun.captured (Lines w))) w in
          (Returned failed, w')
    end.
(** ** One execution *)
Definition execution_labels (executionID : string) : gmap string string := {[k8sExecutionLabel := sanitizeID executionID]}.
(** [Some (true, _)]: the object exists already, or does not exist. *)
Notation failure := (option (bool * goerr)).
Definition SetupExecution (client : option goerr) (service claim : failure) (executionID : string) : option goerr * list effect :=
  let labels := execution_labels executionID in
  let create (f : failure) e := match f with None => [e] | Some _ => [] end in
  let service_calls := create service (ServiceCreate (k8sExecutionSubdomain executionID) labels) in
  match client with
  | Some e => (Some (ErrWrap "kubernetes client unavailable" e), [])
  | None =>
      match service with
      | Some (false, e) => (Some (ErrWrap "create headless service" e), [])
      | _ =>
          match claim with
          | Some (false, e) => (Some (ErrWrap "create workspace volume" e), service_calls)
          | _ => (None, service_calls ++ create claim (ClaimCreate (k8sWorkspaceClaim executionID) labels))
          end
      end
  end.
Definition deletion (f : failure) (e : effect) : list goerr * list effect :=
  match f with None => ([], [e]) | Some (true, _) => ([], []) | Some (false, err) => ([err], []) end.
(** [pods]: the pods with the label of the execution, each with the failure of
    its deletion.  The joined errors: none is nil. *)
Definition DestroyExecution (client : option goerr) (pods : goerr + list (string * failure)) (service claim : failure)
    (executionID : string) (s : forward_state) : list goerr * list effect * forward_state :=
  let s := closeForwards executionID s in
  match client with
  | Some e => ([e], [], s)
  | None =>
      let deletions := match pods with
                       | inl e => [([e], [])]
                       | inr items => (fun '(name, f) => deletion f (PodDelete name)) <$> items
                       end ++ [deletion service (ServiceDelete (k8sExecutionSubdomain executionID));
                               deletion claim (ClaimDelete (k8sWorkspaceClaim executionID))] in
      (concat (fst <$> deletions), concat (snd <$> deletions), s)
  end.
Definition Reap := DestroyExecution.

(** ** Pods are removed *)
Definition pod_call (e : effect) : bool := match e with PodCreate _ | PodDelete _ => true | _ => false end.
Definition artifact_read (e : effect) : bool := match e with ArtifactRead _ | OnArtifact _ _ => true | _ => false end.
Notation pod_calls := (filter (fun e => pod_call e = true)).
Notation artifact_reads := (filter (fun e => artifact_read e = true)).

Lemma within_state {S T A} (s : T) (m : run T A) (w : world S) : St (StepRun.within s m w).2 = St w.
Proof using Type. unfold StepRun.within. by destruct (m _). Qed.
Lemma wait_loop_state {S} step items : forall b (w : world S), St (wait_loop step b items w).2 = St w.
Proof using Type.
  induction items as [|[pod| | |] items IH]; intros b w; cbn [wait_loop]; [done| |done|apply IH|done].
  destruct (event_result pod) as [running result]. rewrite bind_run.
  destruct (running && negb b); destruct result; cbn [emit ret snd St]; by rewrite ?IH.
Qed.
Lemma wait_state {S} step watch (w : world S) : St (waitForStepContainer step watch w).2 = St w.
Proof using Type. destruct watch; [done|apply wait_loop_state]. Qed.
Lemma forward_effects c step ports : forall w, Effects (St (forward_ports c step ports w).2) = Effects (St w).
Proof using Type.
  induction ports as [|port ports IH]; intros w; cbn [forward_ports]; [done|].
  destruct (ParseInt _); [|apply IH]. destruct (c_forward c _) as [e|[hostPort stop]]; [done|].
  rewrite bind_run, IH. done.
Qed.
(** A step of a run that only adds calls [added] with the property [P]. *)
Definition adds {A} (m : calls A) (P : list effect -> Prop) : Prop :=
  forall w, exists added, Effects (St (m w).2) = Effects (St w) ++ added /\ P added.
(** Reading artifacts adds no call of another kind, and none at all when no
    export asks for it. *)
Definition unasked (status : string) (exports : list ArtifactExport) : Prop :=
  Forall (fun e => artifactTriggerMatchesStatus (Artifact.On e) status = false) exports.
Lemma export_spec c status export :
  adds (export_one c status export) (fun added => pod_calls added = [] /\ (unasked status [export] -> added = [])).
Proof using Type.
  intros w. unfold export_one. destruct (artifactTriggerMatchesStatus _ _) eqn:Ht.
  - rewrite bind_run. cbn [perform snd].
    assert (unasked status [export] -> forall l : list effect, l = []) as Hno.
    { unfold unasked. rewrite Forall_singleton, Ht. done. }
    destruct (c_read c _) as [e|content]; [|destruct (0 <? _)%nat]; cbn [perform ret snd St Effects Lines];
      rewrite <-?app_assoc; eexists; (split_and!; [reflexivity|reflexivity|intros H; by apply Hno]).
  - exists []. cbn. by rewrite app_nil_r.
Qed.
Lemma collect_spec c status exports :
  adds (collect_exports c status exports) (fun added => pod_calls added = [] /\ (unasked status exports -> added = [])).
Proof using Type.
  induction exports as [|export exports IH]; intros w; cbn [collect_exports].
  { exists []. cbn. by rewrite app_nil_r. }
  rewrite bind_run. destruct (export_spec c status export w) as (a & Ha & Hp & Hn).
  destruct (IH (export_one c status export w).2) as (b & Hb & Hq & Hm). exists (a ++ b).
  rewrite Hb, Ha, <-app_assoc, filter_app, Hp, Hq. split_and!; [done|done|].
  intros [H1 H2]%Forall_cons. rewrite Hn, Hm; [done|done|by constructor].
Qed.
(** A wait without an error has exit code 0. *)
Lemma event_code pod code : (event_result pod).2 = Some (code, None) -> code = 0.
Proof using Type.
  unfold event_result. destruct (podStartFailure pod); [done|].
  destruct (step_statuses false (Status.Containers pod)) as [running result] eqn:Hs. cbn [snd].
  assert (forall r, result = Some r -> r.2 = None -> r.1 = 0) as Hr.
  { revert Hs. generalize false. induction (Status.Containers pod) as [|cs rest IH]; intros b; cbn [step_statuses]; [by intros [= <- <-]|].
    destruct (negb _); [apply IH|]. destruct (Status.Terminated cs) as [t|]; [|apply IH].
    intros [= <- <-] r [= <-]. unfold terminated_result. by destruct (negb _). }
  destruct result as [r|]; [intros [= ->]; by apply (Hr (code, None))|].
  unfold phase_result. repeat case_bool_decide; by intros [= <-].
Qed.
Lemma wait_code {S} step watch (w : world S) :
  (waitForStepContainer step watch w).1.2 = None -> (waitForStepContainer step watch w).1.1 = 0.
Proof using Type.
  destruct watch as [e|items]; [done|]. cbn [waitForStepContainer]. revert w. generalize false.
  induction items as [|[p| | |] items IH]; intros b w; cbn [wait_loop]; [done| |done|apply IH|done].
  pose proof (event_code p) as Hc. destruct (event_result p) as [running [[code [e|]]|]]; rewrite bind_run; cbn [snd] in Hc; [done| |apply IH].
  intros _. cbn. by apply Hc.
Qed.

(** What a pod of a step is created and deleted for. *)
Inductive pod_life (detached : bool) : outcome -> list effect -> Prop :=
  | life_none o : pod_life detached o []
  | life_removed o pod : pod_life detached o [PodCreate pod; PodDelete (Pod.PodName pod)]
  | life_kept pod : detached = true -> pod_life detached (Returned None) [PodCreate pod].
Lemma buildPod_name podName step img b pod : buildPod podName step img b = Some pod -> Pod.PodName pod = podName.
Proof using Type. unfold buildPod. destruct (applyDevices _ _ _) as [[? ?]|]; [by intros [= <-]|done]. Qed.

(** The calls of one pod: created, its artifacts, deleted. *)
Definition pod_run (step : StepSpec) (added : list effect) : Prop :=
  (pod_calls added = [] \/ exists pod, pod_calls added = [PodCreate pod; PodDelete (Pod.PodName pod)]) /\
  (unasked "success" (Step.ArtifactExports step) -> artifact_reads added = []).
Lemma runPod_spec c step img : adds (runPod c step img) (pod_run step).
Proof using Type.
  intros w. assert (pod_run step []) as Hnone by (split; [by left|done]).
  unfold runPod. cbv zeta. destruct (buildPod _ _ _ _) as [pod|] eqn:Hpod; [|exists []; by rewrite app_nil_r].
  rewrite bind_run. destruct (c_create c); [exists []; by rewrite app_nil_r|]. rewrite !bind_run.
  set (w1 := (emits _ _).2). assert (Effects (St w1) = Effects (St w) ++ [PodCreate pod]) as Hw1.
  { unfold w1. by rewrite DockerRun.emits_state. }
  pose proof (wait_state step (c_watch c) w1) as Hw2. pose proof (wait_code step (c_watch c) w1) as Hcode.
  destruct (waitForStepContainer step (c_watch c) w1) as [[code failed] w2]. cbn [fst snd] in *.
  rewrite !bind_run. cbn [ret perform fst snd St Effects].
  set (w3 := (emits _ w2).2). assert (Effects (St w3) = Effects (St w) ++ [PodCreate pod]) as Hw3.
  { unfold w3. by rewrite DockerRun.emits_state, Hw2. }
  assert (forall added w', Effects (St w') = Effects (St w3) ++ added -> pod_calls added = [] ->
    (unasked "success" (Step.ArtifactExports step) -> added = []) -> exists all,
    Effects (St w') ++ [PodDelete (k8sPodName step)] = Effects (St w) ++ all /\ pod_run step all) as Hend.
  { intros added w' He Hp Hr. exists ([PodCreate pod] ++ added ++ [PodDelete (k8sPodName step)]).
    rewrite He, Hw3, <-!app_assoc. split; [done|]. unfold pod_run. rewrite !filter_app, Hp. split.
    - right. exists pod. by rewrite (buildPod_name _ _ _ _ _ Hpod).
    - intros H. by rewrite Hr. }
  destruct failed as [e|]; [by apply (Hend []); [rewrite app_nil_r|..]|].
  rewrite Hcode by done. cbn [Z.eqb]. rewrite !bind_run. cbn [emit ret snd St].
  destruct (Step.OnArtifact step && _); [|by apply (Hend []); [rewrite app_nil_r|..]].
  unfold collectArtifacts. destruct (c_config c); [by apply (Hend []); [rewrite app_nil_r|..]|].
  destruct (collect_spec c "success" (Step.ArtifactExports step) w3) as (added & Ha & Hp & Hn). by apply (Hend added).
Qed.
Lemma service_spec c step img w : isDetachedService step = true -> exists added,
  Effects (St (startServicePod c step img w).2) = Effects (St w) ++ added /\
  pod_life true (startServicePod c step img w).1 (pod_calls added) /\ artifact_reads added = [].
Proof using Type.
  intros Hd. unfold startServicePod. cbv zeta. assert (forall o, pod_life true o []) as Hnone by constructor.
  destruct (buildPod _ _ _ _) as [pod|] eqn:Hpod; [|exists []; by rewrite app_nil_r].
  apply buildPod_name in Hpod. rewrite <-!Hpod.
  rewrite bind_run. destruct (c_create c); [exists []; by rewrite app_nil_r|]. rewrite bind_run.
  assert (forall o, pod_life true o [PodCreate pod; PodDelete (Pod.PodName pod)]) as Hremoved by constructor.
  destruct (waitForServiceRunning _ _ _ _).
  { exists [PodCreate pod; PodDelete (Pod.PodName pod)]. cbn. by rewrite <-app_assoc. }
  rewrite bind_run. set (w1 := (perform (PodCreate pod) _).2).
  assert (Effects (St (forwardServicePorts c step w1).2) = Effects (St w1)) as Hf.
  { unfold forwardServicePorts. destruct (length _ =? 0)%nat; [done|]. destruct (c_config c); [done|apply forward_effects]. }
  destruct (forwardServicePorts c step w1) as [[e|] w2]; cbn [fst snd] in *; rewrite bind_run; cbn [ret perform emit fst snd St Effects].
  - exists [PodCreate pod; PodDelete (Pod.PodName pod)]. rewrite Hf. cbn. by rewrite <-app_assoc.
  - exists [PodCreate pod]. rewrite Hf. cbn. split_and!; [done|by constructor|done].
Qed.

(** The calls of a step, whatever the cluster answers. *)
Lemma run_container_spec c step img w : exists added,
  Effects (St (run_container c step img w).2) = Effects (St w) ++ added /\
  pod_life (isDetachedService step) (run_container c step img w).1 (pod_calls added) /\
  (unasked "success" (Step.ArtifactExports step) -> artifact_reads added = []).
Proof using Type.
  unfold run_container. rewrite !bind_run. set (w1 := (emit (StepRun.bootMessage step) _).2).
  change (St w) with (St w1). clearbody w1. destruct (isDetachedService step) eqn:Hd.
  - rewrite bind_run. destruct (service_spec c step img w1 Hd) as (added & Ha & Hl & Hn).
    exists added. destruct (startServicePod c step img w1) as [[|[e|]] w2]; cbn in *; tauto.
  - rewrite bind_run. destruct (runPod_spec c step img w1) as (added & Ha & Hl & Hn). exists added.
    assert (forall o, pod_life false o (pod_calls added)) as Hlife.
    { intros o. destruct Hl as [->|[pod ->]]; constructor. }
    destruct (runPod c step img w1) as [[[code [e|]]|] w2]; cbn [fst snd] in *; [by rewrite bind_run| |by cbn].
    pose proof (within_state tt (StepRun.evaluateStepExpectations IsPrint step code (StepRun.captured (Lines w2))) w2) as Hs.
    destruct (StepRun.within _ _ _) as [failed w3]. cbn [fst snd] in *. by rewrite Hs.
Qed.
(** A step in this process, and one without work: StepRun. *)
Variable InProcess : StepSpec -> run unit (bool * option goerr).
Variable Simulated : StepSpec -> run unit (option goerr).
Definition returned (m : calls (option goerr)) : calls outcome := failed <- m ;; ret (Returned failed).
Definition run_step (c : cluster) (step : StepSpec) : calls outcome :=
  if bool_decide (StepRun.kind_of step = "log") then emit (StepRun.emitLogStep step) ;;; ret (Returned None)
  else
    match StepRun.requireResolvedStepFile IsPrint step with
    | Some e => emit (StepRun.failed_line step "" e) ;;; ret (Returned (Some e))
    | None =>
        '(handled, failed) <- StepRun.within tt (InProcess step) ;;
        if handled : bool then ret (Returned failed)
        else if negb (StepRun.stepRequiresContainer step) then returned (StepRun.within tt (Simulated step))
        else
          match c_client c with
          | Some e => ret (Returned (Some (ErrWrap "kubernetes client unavailable" e)))
          | None =>
              let img := step_image step in
              if bool_decide (img = "")
              then ret (Returned (Some (ErrText ("no image configured for step " +:+ Values.Quote IsPrint (name_of step)))))
              else run_container c step img
          end
    end.
(** [Kubernetes.Run] on a backend with the given forwards. *)
Definition Run (c : cluster) (forwards : forward_state) (step : StepSpec) : outcome * world kube_state :=
  run_step c step (mkWorld [] (mkKube [] forwards)).

Lemma run_spec c forwards step : let '(o, w) := Run c forwards step in
  pod_life (isDetachedService step) o (pod_calls (Effects (St w))) /\
  (unasked "success" (Step.ArtifactExports step) -> artifact_reads (Effects (St w)) = []).
Proof using Type.
  unfold Run, run_step. set (w0 := mkWorld [] (mkKube [] forwards)).
  assert (forall o (w : world kube_state), Effects (St w) = [] -> pod_life (isDetachedService step) o (pod_calls (Effects (St w))) /\
    (unasked "success" (Step.ArtifactExports step) -> artifact_reads (Effects (St w)) = [])) as Hnone.
  { intros o w ->. split; [constructor|done]. }
  case_bool_decide; [by apply Hnone|]. destruct (StepRun.requireResolvedStepFile IsPrint step); [by apply Hnone|].
  rewrite bind_run. pose proof (within_state tt (InProcess step) w0) as H1.
  destruct (StepRun.within tt (InProcess step) w0) as [[handled failed] w1]. cbn [fst snd] in *.
  destruct handled; [apply Hnone; by rewrite H1|]. destruct (negb (StepRun.stepRequiresContainer step)).
  { unfold returned. rewrite bind_run. pose proof (within_state tt (Simulated step) w1) as H2.
    destruct (StepRun.within tt (Simulated step) w1) as [r w2]. cbn [fst snd] in *. apply Hnone. by rewrite H2, H1. }
  destruct (c_client c); [apply Hnone; cbn; by rewrite H1|]. cbv zeta. case_bool_decide; [apply Hnone; cbn; by rewrite H1|].
  destruct (run_container_spec c step (step_image step) w1) as (added & Ha & Hl & Hn).
  destruct (run_container c step (step_image step) w1) as [o w2]. cbn [fst snd] in *.
  rewrite Ha, H1. done.
Qed.

(** C32: Whatever the cluster answers, a step creates at most one pod, and the
    pod is deleted before the step returns unless it is a service that was
    reported started. *)
Theorem pods_are_removed (c : cluster) (forwards : forward_state) (step : StepSpec) :
  let '(o, w) := Run c forwards step in pod_life (isDetachedService step) o (pod_calls (Effects (St w))).
Proof using Type. pose proof (run_spec c forwards step) as H. destruct (Run c forwards step). tauto. Qed.

(** No artifact is ever read from the pod of a failed step: whatever the
    cluster answers, a step whose exports are all for failures reads and
    delivers none. *)
Theorem failure_artifacts_never_read (c : cluster) (forwards : forward_state) (step : StepSpec)
    (Hexports : Forall (fun e => TrimSpace (Artifact.On e) = "failure") (Step.ArtifactExports step)) :
  artifact_reads (Effects (St (Run c forwards step).2)) = [].
Proof using Type.
  pose proof (run_spec c forwards step) as H. destruct (Run c forwards step) as [o w]. apply H.
  eapply Forall_impl; [exact Hexports|]. intros e He. unfold artifactTriggerMatchesStatus. by rewrite He.
Qed.
End Kubernetes.

(** ** Forwarded ports *)
Inductive forward_op :=
  | Register (executionID nodeID containerPort hostPort : string) (stop : handle)
  | Close (executionID : string).
Definition forward_step (s : forward_state) (op : forward_op) : forward_state :=
  match op with
  | Register e n p hostPort stop => registerForward e (k8sForwardKey e n p) hostPort stop s
  | Close e => closeForwards e s
  end.
Definition opened (ops : list forward_op) : list handle :=
  omap (fun op => match op with Register _ _ _ _ stop => Some stop | Close _ => None end) ops.
Definition channels (s : forward_state) : list handle := closed s ++ concat (snd <$> map_to_list (stops s)).

Lemma stops_split (m : gmap string (list handle)) e :
  concat (snd <$> map_to_list m) ≡ₚ default [] (m !! e) ++ concat (snd <$> map_to_list (delete e m)).
Proof.
  destruct (m !! e) as [l|] eqn:He; cbn [default from_option id].
  - by rewrite <-(map_to_list_delete m e l) by done.
  - by rewrite delete_id by done.
Qed.
Lemma stops_insert (m : gmap string (list handle)) e l :
  concat (snd <$> map_to_list (<[e := l]> m)) ≡ₚ l ++ concat (snd <$> map_to_list (delete e m)).
Proof. rewrite (stops_split _ e), lookup_insert_eq, delete_insert_eq. done. Qed.
Lemma step_channels s op : channels (forward_step s op) ≡ₚ opened [op] ++ channels s.
Proof.
  unfold channels. destruct op as [e n p hostPort stop|e]; cbn [forward_step registerForward closeForwards stops closed opened omap list_omap].
  - rewrite stops_insert, (stops_split (stops s) e). cbn. rewrite <-!app_assoc. cbn.
    rewrite <-!Permutation_middle. done.
  - cbn [app]. rewrite <-app_assoc, <-(stops_split (stops s) e). done.
Qed.

(** However the forwards of any executions are opened and closed, each
    channel is closed at most once, and after an execution is closed and until
    it opens another forward none of its ports has one; the ports of an
    execution whose id does not start with that id and a bar keep theirs. *)
Theorem forwards_closed_once (ops : list forward_op) (Hfresh : NoDup (opened ops)) :
  let s := foldl forward_step no_forwards ops in
  NoDup (closed s) /\
  forall e, let s' := forward_step s (Close e) in
    (forall n p, HostPort e n p s' = "") /\
    (forall e' n p, HasPrefix (k8sForwardKey e' n p) (e +:+ "|") = false -> HostPort e' n p s' = HostPort e' n p s).
Proof.
  cbv zeta. split.
  - assert (channels (foldl forward_step no_forwards ops) ≡ₚ opened ops ++ channels no_forwards) as H.
    { generalize no_forwards. induction ops as [|op ops IH]; intros s; [done|]. cbn [foldl].
      change (op :: ops) with ([op] ++ ops). rewrite IH, step_channels.
      - unfold opened. rewrite omap_app, <-app_assoc, !(assoc_L (++)). by rewrite (comm (++) (omap _ ops)).
      - unfold opened in *. change (op :: ops) with ([op] ++ ops) in Hfresh. rewrite omap_app in Hfresh. by apply NoDup_app in Hfresh as (_ & _ & ?). }
    change (channels no_forwards) with (@nil handle) in H. rewrite app_nil_r in H.
    rewrite <-H in Hfresh. by apply NoDup_app in Hfresh as [? _].
  - intros e. cbn [forward_step]. unfold HostPort, closeForwards. cbn [forwards]. split.
    + intros n p. rewrite (proj2 (map_lookup_filter_None _ _ _)); [done|]. right. intros v _. cbn.
      unfold k8sForwardKey. rewrite (HasPrefix_of _ (n +:+ "|" +:+ p)); [done|]. by rewrite !string_app_assoc.
    + intros e' n p Hp. f_equal. destruct (forwards _ !! k8sForwardKey e' n p) as [v|] eqn:Hv.
      * by apply map_lookup_filter_Some.
      * apply map_lookup_filter_None. by left.
Qed.
Lemma forwards_closed_once_witness :
  let ops := [Register "e1" "db" "5432/tcp" "40001" 1%nat; Register "e1" "mq" "5672/tcp" "40002" 2%nat; Close "e1";
              Register "e2" "db" "5432/tcp" "40003" 3%nat; Close "e1"] in
  NoDup (closed (foldl forward_step no_forwards ops)) /\
  HostPort "e2" "db" "5432/tcp" (forward_step (foldl forward_step no_forwards ops) (Close "e1")) = "40003".
Proof.
  intros ops. destruct (forwards_closed_once ops) as [Hn Hc].
  - apply (bool_decide_unpack _). vm_compute. exact I.
  - split; [exact Hn|]. destruct (Hc "e1") as [_ Hk]. rewrite Hk; vm_compute; reflexivity.
Defined.

(** ** A sample *)
Definition step_status (state : option Status.terminated) : pod_status :=
  Status.mkPod "babel-e1-seed" [] [Status.mk k8sStepContainer None (match state with None => true | Some _ => false end) state] "Running" "".
Definition sample_cluster (code : Z) : cluster :=
  mkCluster None None (inr [OtherObject; PodEvent (step_status None); PodEvent (step_status None);
                            PodEvent (step_status (Some (Status.mkTerminated code "Error" "")))])
    false None (Some ("seeded" +:+ newline)) 1 2 None (fun path => inr path) (fun port => inr ("40001", 1%nat)).
Definition not_here (step : StepSpec) : run unit (bool * option goerr) := ret (false, None).
Definition nothing (step : StepSpec) : run unit (option goerr) := ret None.
Definition is_count (text : string) : bool := bool_decide (is_Some (ParseInt text)).
Definition sample_step (devices : list string) : StepSpec :=
  Step.mk "e1" "suite" "Suite" "" "dev" "" ∅ ∅ "" "" "" "" "" "" "" "" "" "" "" 0 1 0 0 None None None [] None []
    [Artifact.mk "log.txt" "" "failure" ""; Artifact.mk "dump" "" " failure" ""] true
    (Node.mk "seed" "seed" "task" "task.run" "" "" "" ["false"] "" devices 0 0 []) "" [] "" [] [].
Definition sample_run (code : Z) (step : StepSpec) : outcome * world kube_state :=
  Run "default" (fun _ => false) (fun _ => true) is_count DockerRun.sample_order not_here nothing (sample_cluster code)
    no_forwards step.
Definition summary (e : effect) : string :=
  match e with
  | PodCreate pod => "create " +:+ Pod.PodName pod | PodDelete name => "delete " +:+ name
  | ArtifactRead path => "read " +:+ path | OnArtifact path content => "artifact " +:+ path +:+ "=" +:+ content
  | ServiceCreate n _ | ClaimCreate n _ | ServiceDelete n | ClaimDelete n => n
  end.
Definition shown (r : outcome * world kube_state) : outcome * list string * list string :=
  (r.1, summary <$> Effects (St r.2), Hub.LineText <$> reverse (Lines r.2)).
Example failing_pod : shown (sample_run 3 (sample_step [])) =
  (Returned (Some (ErrText "step container failed: Error")), ["create babel-e1-seed"; "delete babel-e1-seed"],
   ["[seed] Scheduler reserved an execution slot in namespace default.";
    "[seed] Running one-shot task assets from tasks/ under the dev profile."; "[seed] Creating Pod babel-e1-seed.";
    "[seed] Pod scheduled, waiting for completion."; "seeded";
    "[seed] Pod admitted, sidecars initialized, and readiness probes turned green.";
    "[seed] Pod execution failed: step container failed: Error"]).
Proof. vm_compute. reflexivity. Qed.
(** A malformed number of GPUs stops the process that runs the step. *)
Lemma malformed_gpus_panic : (sample_run 0 (sample_step ["gpu:all"])).1 = Panicked.
Proof. vm_compute. reflexivity. Qed.

Lemma failure_artifacts_never_read_witness :
  (sample_run 3 (sample_step [])).1 = Returned (Some (ErrText "step container failed: Error")) /\
  filter (fun e => artifact_read e = true) (Effects (St (sample_run 3 (sample_step [])).2)) = [].
Proof.
  split; [vm_compute; reflexivity|]. apply failure_artifacts_never_read.
  repeat (constructor; [vm_compute; reflexivity|]). constructor.
Defined.
End KubeRun.
