(* ===== verification/RemoteRun.v ===== *)
(** Steps on remote agents, [src/backend/internal/runner/remote.go],
    [internal/agent] types.go and proto_convert.go, and [cmd/agent/main.go]: the
    request the control plane makes of a step, its form on the wire, and the
    step an agent makes of it, with what is lost on the way.

    The wire format of durations and the dispatcher are arguments. *)
From Stdlib Require Import ZArith Lia Ascii.
From S2P Require Import Prelude GoStrings Runes Strconv Url Values StarNode LoadPlan Hub Agents Runner LoadStats StepRun Containers DockerRun KubeRun.
Import GoStrings Runes Strconv LoadPlan Runner.
#[local] Open Scope run_scope.

Module RemoteRun.
Import LoadPlan.Threshold LoadPlan.Wait LoadPlan.Request LoadPlan.Task LoadPlan.User LoadPlan.Stage LoadPlan.Spec.

(** ** Requests *)
Module Req.
Record StepNode := mkNode {
  ID : string; Name : string; Kind : string; Variant : string; DependsOn : list string; Image : string; File : string;
  Commands : list string; FileContent : string; Message : string; Devices : list string; MemoryBytes : Z; MilliCPU : Z }.
Record ArtifactExport := mkExport { Path : string; ExportName : string; On : string; Format : string }.
Record StepRequest := mk {
  JobID : string; ExecutionID : string; SuiteID : string; SuiteTitle : string; SuiteRepository : string;
  Profile : string; RuntimeProfile : string; Env : gmap string string; Headers : gmap string string; Trigger : string;
  BackendID : string; BackendKind : string; BackendLabel : string; SourceSuiteID : string; SourceSuiteTitle : string;
  SourceRepository : string; SourceVersion : string; ResolvedRef : string; Digest : string; DependencyAlias : string;
  StepIndex : Z; TotalSteps : Z; LeaseTTL : Z; Load : option LoadSpec; Evaluation : option StarNode.StepEvaluation;
  OnFailure : list string; ArtifactExports : list ArtifactExport; Node : StepNode; GatewayURL : string;
  GatewayURLs : list string; NetworkAliases : list string }.
End Req.
Notation StepRequest := Req.StepRequest.

(** ** Copies

    The copies share no slice or map with their original; here a copy is the
    same value. *)
Definition cloneRunnerMap (input : gmap string string) : gmap string string := if (size input =? 0)%nat then ∅ else input.
Definition cloneRunnerArtifactExports (input : list ArtifactExport) : list Req.ArtifactExport :=
  (fun item => Req.mkExport (Artifact.Path item) (Artifact.Name item) (Artifact.On item) (Artifact.Format item)) <$> input.
Definition clone_request (r : LoadRequest) : LoadRequest :=
  Request.mk (Request.Method r) (Request.Path r) (Request.Name r) (cloneRunnerMap (Request.Headers r)) (Request.Body r) (Request.Checks r).
Definition clone_task (t : LoadTask) : LoadTask :=
  Task.mk (Task.ID t) (Task.Name t) (Task.Weight t) (clone_request (Task.Request t)) (Task.Checks t).
Definition clone_user (u : LoadUser) : LoadUser :=
  User.mk (User.ID u) (User.Name u) (User.Weight u) (User.Wait u) (clone_task <$> User.Tasks u).
Definition clone_spec (s : LoadSpec) : LoadSpec :=
  Spec.mk (Spec.Variant s) (Spec.PlanPath s) (Spec.Target s) (Spec.RequestsPerS s) (Spec.ArrivalRate s)
    (clone_user <$> Spec.Users s) (Spec.Stages s) (Spec.Thresholds s).
Definition cloneRunnerLoadSpec (input : option LoadSpec) : option LoadSpec := clone_spec <$> input.
Definition clone_evaluation (e : StarNode.StepEvaluation) : StarNode.StepEvaluation :=
  StarNode.mkEvaluation (StarNode.ExpectExit e) (StarNode.ExpectLogs e) (StarNode.FailOnLogs e).
Definition cloneRunnerEvaluation (input : option StarNode.StepEvaluation) : option StarNode.StepEvaluation :=
  clone_evaluation <$> input.

(** ** The control plane *)
Definition remoteLeaseTTL : Z := 60 * second.
Definition step_node (n : StepNode) : Req.StepNode :=
  Req.mkNode (Node.ID n) (Node.Name n) (Node.Kind n) (Node.Variant n) (Node.DependsOn n) (Node.Image n) (Node.File n)
    (Node.Commands n) (Node.FileContent n) (Node.Message n) (Node.Devices n) (Node.MemoryBytes n) (Node.MilliCPU n).
(** The request made of a step; the dispatcher gives it its job id. *)
Definition step_request (s : StepSpec) : StepRequest :=
  Req.mk "" (Step.ExecutionID s) (Step.SuiteID s) (Step.SuiteTitle s) (Step.SuiteRepository s) (Step.Profile s)
    (Step.RuntimeProfile s) (cloneRunnerMap (Step.Env s)) (cloneRunnerMap (Step.Headers s)) (Step.Trigger s)
    (Step.BackendID s) (Step.BackendKind s) (Step.BackendLabel s) (Step.SourceSuiteID s) (Step.SourceSuiteTitle s)
    (Step.SourceRepository s) (Step.SourceVersion s) (Step.ResolvedRef s) (Step.Digest s) (Step.DependencyAlias s)
    (Step.StepIndex s) (Step.TotalSteps s) (Z.max (Step.LeaseTTL s) remoteLeaseTTL) (cloneRunnerLoadSpec (Step.Load s))
    (cloneRunnerEvaluation (Step.Evaluation s)) (Step.OnFailure s) (cloneRunnerArtifactExports (Step.ArtifactExports s))
    (step_node (Step.Node s)) (Step.GatewayURL s) (Step.GatewayURLs s) (Step.NetworkAliases s).

Record Remote := mkRemote { config : BackendConfig; baseURL : string; dispatches : bool; capacity : option Z; secret : string }.
(** [dispatcher]: one is given; without one the agent is called over HTTP. *)
Definition NewRemote (c : BackendConfig) (baseURL : string) (capacity : option Z) (secret : string) : Remote :=
  mkRemote (normalizeBackendConfig c "remote" "Remote Agent" "remote") baseURL true capacity secret.
Definition Capacity (r : Remote) : Z := default 0 (capacity r).

Section Remote.
Variable IsPrint : Z -> bool.
Variable InProcess : StepSpec -> run unit (bool * option goerr).
Variable Simulated : StepSpec -> run unit (option goerr).
(** The dispatcher: the lines of the agent and its result. *)
Variable Dispatch : StepRequest -> run unit (option goerr).
Definition run_step (r : Remote) (step : StepSpec) : run unit (option goerr) :=
  if negb (dispatches r)
  then ret (Some (ErrText ("remote backend " +:+ Values.Quote IsPrint (Config.ID (config r)) +:+ " is missing a dispatcher")))
  else if bool_decide (StepRun.kind_of step = "log") then emit (StepRun.emitLogStep step) ;;; ret None
  else
    '(handled, failed) <- InProcess step ;;
    if handled : bool then ret failed
    else if negb (StepRun.stepRequiresContainer step) then Simulated step
    else
      emit (said step "info" ("Forwarding the step to the remote worker at " +:+ baseURL r +:+ ".")) ;;;
      Dispatch (step_request step).
Definition Run (r : Remote) (step : StepSpec) : option goerr * list Hub.Line :=
  let '(failed, w) := run_step r step (mkWorld [] tt) in (failed, reverse (Lines w)).
End Remote.

(** ** The wire

    The generated messages, whose [int32] fields hold 32 bits and whose
    messages in messages may be absent. *)
Definition wrap32 (z : Z) : Z := (z + 2 ^ 31) mod 2 ^ 32 - 2 ^ 31.
Definition fits32 (z : Z) : Prop := - 2 ^ 31 <= z < 2 ^ 31.
Module Proto.
Record LoadThreshold := mkThreshold { Metric : string; Op : string; Value : float64; Sampler : string }.
Record LoadWait := mkWait { Mode : string; Seconds : float64; MinSeconds : float64; MaxSeconds : float64 }.
Record LoadRequest := mkRequest {
  Method : string; Path : string; RequestName : string; Headers : gmap string string; Body : string;
  RequestChecks : list (option LoadThreshold) }.
Record LoadTask := mkTask {
  TaskId : string; TaskName : string; TaskWeight : Z; Request : option LoadRequest; Checks : list (option LoadThreshold) }.
Record LoadUser := mkUser { Id : string; Name : string; Weight : Z; Wait : option LoadWait; Tasks : list LoadTask }.
Record LoadStage {Duration} := mkStage { StageUsers : Z; SpawnRate : float64; Stop : bool; StageDuration : option Duration }.
Arguments LoadStage : clear implicits.
Record LoadSpec {Duration} := mkSpec {
  Variant : string; PlanPath : string; Target : string; RequestsPerSecond : float64; ArrivalRate : float64;
  Users : list LoadUser; Stages : list (LoadStage Duration); Thresholds : list (option LoadThreshold) }.
Arguments LoadSpec : clear implicits.
Record StepEvaluation := mkEvaluation { ExpectLogs : list string; FailOnLogs : list string; ExpectExit : option Z }.
Record StepNode := mkNode {
  NodeId : string; NodeName : string; Kind : string; NodeVariant : string; DependsOn : list string; Image : string; File : string;
  Commands : list string; FileContent : string; Message : string; Devices : list string; MemoryBytes : Z; MilliCpu : Z }.
Record ArtifactExport := mkExport { ExportPath : string; ExportName : string; On : string; Format : string }.
Record StepRequest {Duration} := mk {
  JobId : string; ExecutionId : string; SuiteId : string; SuiteTitle : string; SuiteRepository : string; Profile : string;
  RuntimeProfile : string; Env : gmap string string; StepHeaders : gmap string string; Trigger : string; BackendId : string;
  BackendKind : string; BackendLabel : string; SourceSuiteId : string; SourceSuiteTitle : string; SourceRepository : string;
  SourceVersion : string; ResolvedRef : string; Digest : string; DependencyAlias : string; StepIndex : Z; TotalSteps : Z;
  OnFailure : list string; Node : option StepNode; GatewayUrl : string; GatewayUrls : list string; NetworkAliases : list string;
  LeaseTtl : option Duration; Load : option (LoadSpec Duration); Evaluation : option StepEvaluation;
  ArtifactExports : list ArtifactExport }.
Arguments StepRequest : clear implicits.
End Proto.

Section Wire.
(** [durationpb.New] and [AsDuration]. *)
Context {Duration : Type}.
Variable New : Z -> Duration.
Variable AsDuration : Duration -> Z.

Definition thresholdToProto (t : LoadThreshold) : Proto.LoadThreshold :=
  Proto.mkThreshold (Threshold.Metric t) (Threshold.Op t) (Threshold.Value t) (Threshold.Sampler t).
Definition protoToThreshold (p : option Proto.LoadThreshold) : LoadThreshold :=
  match p with
  | None => Threshold.mk "" "" F_zero ""
  | Some p => Threshold.mk (Proto.Metric p) (Proto.Op p) (Proto.Value p) (Proto.Sampler p)
  end.
Definition checks_proto (l : list LoadThreshold) : list (option Proto.LoadThreshold) := (fun c => Some (thresholdToProto c)) <$> l.
Definition task_proto (t : LoadTask) : Proto.LoadTask :=
  let r := Task.Request t in
  Proto.mkTask (Task.ID t) (Task.Name t) (wrap32 (Task.Weight t))
    (Some (Proto.mkRequest (Request.Method r) (Request.Path r) (Request.Name r) (Request.Headers r) (Request.Body r)
             (checks_proto (Request.Checks r))))
    (checks_proto (Task.Checks t)).
Definition user_proto (u : LoadUser) : Proto.LoadUser :=
  let w := User.Wait u in
  Proto.mkUser (User.ID u) (User.Name u) (wrap32 (User.Weight u))
    (Some (Proto.mkWait (Wait.Mode w) (Wait.Seconds w) (Wait.MinSeconds w) (Wait.MaxSeconds w))) (task_proto <$> User.Tasks u).
Definition duration_proto (d : Z) : option Duration := if 0 <? d then Some (New d) else None.
Definition stage_proto (st : LoadStage) : Proto.LoadStage Duration :=
  Proto.mkStage _ (wrap32 (Stage.Users st)) (Stage.SpawnRate st) (Stage.Stop st) (duration_proto (Stage.Duration st)).
Definition loadSpecToProto (s : LoadSpec) : Proto.LoadSpec Duration :=
  Proto.mkSpec _ (Spec.Variant s) (Spec.PlanPath s) (Spec.Target s) (Spec.RequestsPerS s) (Spec.ArrivalRate s)
    (user_proto <$> Spec.Users s) (stage_proto <$> Spec.Stages s) (checks_proto (Spec.Thresholds s)).
Definition task_of (pt : Proto.LoadTask) : LoadTask :=
  Task.mk (Proto.TaskId pt) (Proto.TaskName pt) (Proto.TaskWeight pt)
    (match Proto.Request pt with
     | Some r => Request.mk (Proto.Method r) (Proto.Path r) (Proto.RequestName r) (Proto.Headers r) (Proto.Body r)
                   (protoToThreshold <$> Proto.RequestChecks r)
     | None => Request.mk "" "" "" ∅ "" []
     end) (protoToThreshold <$> Proto.Checks pt).
Definition user_of (pu : Proto.LoadUser) : LoadUser :=
  User.mk (Proto.Id pu) (Proto.Name pu) (Proto.Weight pu)
    (match Proto.Wait pu with
     | Some w => Wait.mk (Proto.Mode w) (Proto.Seconds w) (Proto.MinSeconds w) (Proto.MaxSeconds w)
     | None => LoadPlan.no_wait
     end) (task_of <$> Proto.Tasks pu).
Definition duration_of (d : option Duration) : Z := match d with Some d => AsDuration d | None => 0 end.
Definition stage_of (ps : Proto.LoadStage Duration) : LoadStage :=
  Stage.mk (duration_of (Proto.StageDuration ps)) (Proto.StageUsers ps) (Proto.SpawnRate ps) (Proto.Stop ps).
Definition protoToLoadSpec (p : Proto.LoadSpec Duration) : LoadSpec :=
  Spec.mk (Proto.Variant p) (Proto.PlanPath p) (Proto.Target p) (Proto.RequestsPerSecond p) (Proto.ArrivalRate p)
    (user_of <$> Proto.Users p) (stage_of <$> Proto.Stages p) (protoToThreshold <$> Proto.Thresholds p).
Definition evaluationToProto (e : StarNode.StepEvaluation) : Proto.StepEvaluation :=
  Proto.mkEvaluation (StarNode.ExpectLogs e) (StarNode.FailOnLogs e) (wrap32 <$> StarNode.ExpectExit e).
Definition protoToEvaluation (p : Proto.StepEvaluation) : StarNode.StepEvaluation :=
  StarNode.mkEvaluation (Proto.ExpectExit p) (Proto.ExpectLogs p) (Proto.FailOnLogs p).
Definition stepNodeToProto (n : Req.StepNode) : Proto.StepNode :=
  Proto.mkNode (Req.ID n) (Req.Name n) (Req.Kind n) (Req.Variant n) (Req.DependsOn n) (Req.Image n) (Req.File n)
    (Req.Commands n) (Req.FileContent n) (Req.Message n) (Req.Devices n) (Req.MemoryBytes n) (Req.MilliCPU n).
Definition protoToStepNode (p : option Proto.StepNode) : Req.StepNode :=
  match p with
  | None => Req.mkNode "" "" "" "" [] "" "" [] "" "" [] 0 0
  | Some p => Req.mkNode (Proto.NodeId p) (Proto.NodeName p) (Proto.Kind p) (Proto.NodeVariant p) (Proto.DependsOn p)
      (Proto.Image p) (Proto.File p) (Proto.Commands p) (Proto.FileContent p) (Proto.Message p) (Proto.Devices p)
      (Proto.MemoryBytes p) (Proto.MilliCpu p)
  end.
Definition export_proto (ae : Req.ArtifactExport) : Proto.ArtifactExport :=
  Proto.mkExport (Req.Path ae) (Req.ExportName ae) (Req.On ae) (Req.Format ae).
Definition export_of (ae : Proto.ArtifactExport) : Req.ArtifactExport :=
  Req.mkExport (Proto.ExportPath ae) (Proto.ExportName ae) (Proto.On ae) (Proto.Format ae).
Definition stepRequestToProto (r : StepRequest) : Proto.StepRequest Duration :=
  Proto.mk _ (Req.JobID r) (Req.ExecutionID r) (Req.SuiteID r) (Req.SuiteTitle r) (Req.SuiteRepository r) (Req.Profile r)
    (Req.RuntimeProfile r) (Req.Env r) (Req.Headers r) (Req.Trigger r) (Req.BackendID r) (Req.BackendKind r) (Req.BackendLabel r)
    (Req.SourceSuiteID r) (Req.SourceSuiteTitle r) (Req.SourceRepository r) (Req.SourceVersion r) (Req.ResolvedRef r)
    (Req.Digest r) (Req.DependencyAlias r) (wrap32 (Req.StepIndex r)) (wrap32 (Req.TotalSteps r)) (Req.OnFailure r)
    (Some (stepNodeToProto (Req.Node r))) (Req.GatewayURL r) (Req.GatewayURLs r) (Req.NetworkAliases r)
    (duration_proto (Req.LeaseTTL r)) (loadSpecToProto <$> Req.Load r) (evaluationToProto <$> Req.Evaluation r)
    (export_proto <$> Req.ArtifactExports r).
Definition protoToStepRequest (p : Proto.StepRequest Duration) : StepRequest :=
  Req.mk (Proto.JobId p) (Proto.ExecutionId p) (Proto.SuiteId p) (Proto.SuiteTitle p) (Proto.SuiteRepository p) (Proto.Profile p)
    (Proto.RuntimeProfile p) (Proto.Env p) (Proto.StepHeaders p) (Proto.Trigger p) (Proto.BackendId p) (Proto.BackendKind p)
    (Proto.BackendLabel p) (Proto.SourceSuiteId p) (Proto.SourceSuiteTitle p) (Proto.SourceRepository p) (Proto.SourceVersion p)
    (Proto.ResolvedRef p) (Proto.Digest p) (Proto.DependencyAlias p) (Proto.StepIndex p) (Proto.TotalSteps p)
    (duration_of (Proto.LeaseTtl p)) (protoToLoadSpec <$> Proto.Load p) (protoToEvaluation <$> Proto.Evaluation p)
    (Proto.OnFailure p) (export_of <$> Proto.ArtifactExports p) (protoToStepNode (Proto.Node p)) (Proto.GatewayUrl p)
    (Proto.GatewayUrls p) (Proto.NetworkAliases p).

(** Lines, registrations and statuses. *)
Record proto_line := mkProtoLine { Source : string; PTimestamp : string; Level : string; LineKind : string; Text : string }.
Definition lineToProto (l : Hub.Line) : proto_line :=
  mkProtoLine (Hub.LineSource l) (Hub.LineTimestamp l) (Hub.LineLevel l) (Hub.LineKind l) (Hub.LineText l).
Definition protoToLine (p : option proto_line) : Hub.Line :=
  match p with
  | None => Hub.mkLine "" "" "" "" ""
  | Some p => Hub.mkLine (Source p) (PTimestamp p) (Level p) (LineKind p) (Text p)
  end.
Inductive proto_status := UNSPECIFIED | PENDING | RUNNING | SUCCEEDED | FAILED | CANCELED.
Definition assignmentStatusToProto (s : option Agents.AssignmentStatus) : proto_status :=
  match s with
  | Some Agents.AssignmentPending => PENDING | Some Agents.AssignmentRunning => RUNNING
  | Some Agents.AssignmentSucceeded => SUCCEEDED | Some Agents.AssignmentFailed => FAILED
  | Some Agents.AssignmentCanceled => CANCELED | None => UNSPECIFIED
  end.
Definition protoToAssignmentStatus (s : proto_status) : option Agents.AssignmentStatus :=
  match s with
  | PENDING => Some Agents.AssignmentPending | RUNNING => Some Agents.AssignmentRunning
  | SUCCEEDED => Some Agents.AssignmentSucceeded | FAILED => Some Agents.AssignmentFailed
  | CANCELED => Some Agents.AssignmentCanceled | UNSPECIFIED => None
  end.
Record proto_registration {Timestamp} := mkProtoRegistration {
  PAgentId : string; PName : string; PHostUrl : string; PStatus : string; PCapabilities : list string;
  PRegisteredAt : option Timestamp; PLastHeartbeatAt : option Timestamp; PCapacity : Z }.
Arguments proto_registration : clear implicits.
Section Registration.
(** [timestamppb.New] and [AsTime]; [zero] is the zero time. *)
Context {Timestamp : Type}.
Variable NewTime : Z -> Timestamp.
Variable AsTime : Timestamp -> Z.
Variable zero : Z.
Definition registrationToProto (r : Agents.Registration) : proto_registration Timestamp :=
  mkProtoRegistration _ (Agents.AgentID r) (Agents.AgentName r) (Agents.HostURL r) (Agents.AgentStatus r) (Agents.Capabilities r)
    (Some (NewTime (Agents.RegisteredAt r))) (Some (NewTime (Agents.LastHeartbeatAt r))) (wrap32 (Agents.AgentCapacity r)).
Definition protoToRegistration (p : option (proto_registration Timestamp)) : Agents.Registration :=
  match p with
  | None => Agents.mkRegistration "" "" "" "" [] zero zero 0
  | Some p => Agents.mkRegistration (PAgentId p) (PName p) (PHostUrl p) (PStatus p) (PCapabilities p)
      (match PRegisteredAt p with Some t => AsTime t | None => zero end)
      (match PLastHeartbeatAt p with Some t => AsTime t | None => zero end) (PCapacity p)
  end.
End Registration.
End Wire.

(** ** The agent *)
Definition cloneArtifactExports (input : list Req.ArtifactExport) : list ArtifactExport :=
  (fun item => Artifact.mk (Req.Path item) (Req.ExportName item) (Req.On item) (Req.Format item)) <$> input.
Definition runner_node (n : Req.StepNode) : StepNode :=
  Node.mk (Req.ID n) (Req.Name n) (Req.Kind n) (Req.Variant n) (Req.Image n) (Req.Message n) (Req.File n) (Req.Commands n)
    (Req.FileContent n) (Req.Devices n) (Req.MemoryBytes n) (Req.MilliCPU n) (Req.DependsOn n).
Section Agent.
Variable ip_literal : string -> bool.
Definition rewriteAll (urls : list string) (host : string) : list string :=
  (fun u => KubeRun.RewriteLoopbackURL ip_literal u host) <$> urls.
(** The step the agent runs on its local backend. *)
Definition agent_step (controlPlaneHost : string) (r : StepRequest) : StepSpec :=
  Step.mk (Req.ExecutionID r) (Req.SuiteID r) (Req.SuiteTitle r) (Req.SuiteRepository r) (Req.Profile r) (Req.RuntimeProfile r)
    (cloneRunnerMap (Req.Env r)) (cloneRunnerMap (Req.Headers r)) "" "" "" "" (Req.SourceSuiteID r) (Req.SourceSuiteTitle r)
    (Req.SourceRepository r) (Req.SourceVersion r) (Req.ResolvedRef r) (Req.Digest r) (Req.DependencyAlias r) 0 0 0 0
    (cloneRunnerLoadSpec (Req.Load r)) None None [] (cloneRunnerEvaluation (Req.Evaluation r)) (Req.OnFailure r)
    (cloneArtifactExports (Req.ArtifactExports r)) false (runner_node (Req.Node r)) "" (Req.NetworkAliases r)
    (KubeRun.RewriteLoopbackURL ip_literal (Req.GatewayURL r) controlPlaneHost) (rewriteAll (Req.GatewayURLs r) controlPlaneHost) [].
End Agent.

(** [executionScopes]: the context of each execution, and the contexts
    cancelled, newest first. *)
Record scopes := mkScopes { next : nat; live : gmap string nat; cancelled : list nat }.
Definition newExecutionScopes : scopes := mkScopes 0 ∅ [].
Definition scope_context (executionID : string) (s : scopes) : nat * scopes :=
  match live s !! executionID with
  | Some ctx => (ctx, s)
  | None => (next s, mkScopes (S (next s)) (<[executionID := next s]> (live s)) (cancelled s))
  end.
Definition track (executionID : string) (s : scopes) : scopes := (scope_context executionID s).2.
Definition release (executionID : string) (s : scopes) : scopes :=
  mkScopes (next s) (delete executionID (live s))
    (match live s !! executionID with Some ctx => ctx :: cancelled s | None => cancelled s end).
(** [ids] is the order of the range over the map. *)
Definition releaseAll (ids : list string) (s : scopes) : scopes := foldl (fun s id => release id s) s ids.
Definition ReleaseKind : string := "release".
(** What the agent does with a request. *)
Inductive job := JobRelease (executionID : string) | JobFailed (e : goerr) | JobRun (ctx : option nat) (step : StepSpec).
Definition execute (ip_literal : string -> bool) (controlPlaneHost : string) (network : option goerr) (r : StepRequest) (s : scopes) :
    job * scopes :=
  if bool_decide (Req.Kind (Req.Node r) = ReleaseKind) then (JobRelease (Req.ExecutionID r), release (Req.ExecutionID r) s)
  else match network with
       | Some e => (JobFailed e, s)
       | None =>
           let '(ctx, s) := scope_context (Req.ExecutionID r) s in
           (JobRun (if bool_decide (Req.Kind (Req.Node r) = "service") then Some ctx else None)
              (agent_step ip_literal controlPlaneHost r), s)
       end.
(** The calls of [destroyExecution] after the scope is released. *)
Definition destroyExecution (client_ok : bool) (listed attached : option (list string)) (executionID : string) (s : scopes) :
    list DockerRun.effect * scopes :=
  (DockerRun.RemoveExecutionNetwork client_ok listed attached executionID, release executionID s).

(** ** What arrives

    A step whose numbers fit the wire. *)
Definition portable_user (u : LoadUser) : Prop :=
  fits32 (User.Weight u) /\ Forall (fun t => fits32 (Task.Weight t)) (User.Tasks u).
Definition portable_stage (st : LoadStage) : Prop := fits32 (Stage.Users st) /\ 0 <= Stage.Duration st <= int64_max.
Record portable (s : StepSpec) : Prop := {
  portable_index : fits32 (Step.StepIndex s) /\ fits32 (Step.TotalSteps s);
  portable_lease : Step.LeaseTTL s <= int64_max;
  portable_exit : forall e code, Step.Evaluation s = Some e -> StarNode.ExpectExit e = Some code -> fits32 code;
  portable_load : forall l, Step.Load s = Some l -> Forall portable_user (Spec.Users l) /\ Forall portable_stage (Spec.Stages l);
}.

Lemma wrap32_fits z : fits32 z -> wrap32 z = z.
Proof. unfold fits32, wrap32. intros. rewrite Z.mod_small; lia. Qed.
Lemma clone_map_id m : cloneRunnerMap m = m.
Proof.
  unfold cloneRunnerMap. destruct (Nat.eqb_spec (size m) 0) as [H|]; [|done]. symmetry. by apply map_size_empty_iff.
Qed.
Lemma fmap_id_Forall {A} (f : A -> A) l : Forall (fun x => f x = x) l -> f <$> l = l.
Proof. induction 1 as [|x l Hx _ IH]; [done|]. cbn. by rewrite Hx; f_equal. Qed.
Lemma clone_spec_id l : clone_spec l = l.
Proof.
  destruct l. unfold clone_spec. cbn. f_equal. apply fmap_id_Forall, Forall_forall. intros [] _. unfold clone_user. cbn. f_equal.
  apply fmap_id_Forall, Forall_forall. intros [? ? ? [] ?] _. unfold clone_task, clone_request. cbn. by rewrite clone_map_id.
Qed.
Lemma clone_evaluation_id e : clone_evaluation e = e.
Proof. by destruct e. Qed.

Section Arrival.
Context {Duration : Type}.
Variable New : Z -> Duration.
Variable AsDuration : Duration -> Z.
Hypothesis AsDuration_New : forall d, 0 < d <= int64_max -> AsDuration (New d) = d.

Lemma duration_round_trip d : 0 <= d <= int64_max -> duration_of AsDuration (duration_proto New d) = d.
Proof using AsDuration_New.
  intros H. unfold duration_proto. destruct (Z.ltb_spec 0 d); cbn; [apply AsDuration_New; lia|lia].
Qed.
Lemma checks_round_trip l : protoToThreshold <$> checks_proto l = l.
Proof using Type.
  unfold checks_proto. rewrite <-list_fmap_compose. apply fmap_id_Forall, Forall_forall. by intros [] _.
Qed.
Lemma user_round_trip u : portable_user u -> user_of (user_proto u) = u.
Proof using Type.
  destruct u as [id name weight [] tasks]. intros [Hw Ht]. unfold user_of, user_proto. cbn in *. rewrite wrap32_fits by done.
  f_equal. rewrite <-list_fmap_compose. apply fmap_id_Forall. eapply Forall_impl; [exact Ht|].
  intros [? ? ? [] ?]. unfold compose, task_of, task_proto. cbn. intros Hf. by rewrite wrap32_fits, !checks_round_trip.
Qed.
Lemma spec_round_trip l : Forall portable_user (Spec.Users l) -> Forall portable_stage (Spec.Stages l) ->
  protoToLoadSpec AsDuration (loadSpecToProto New l) = l.
Proof using AsDuration_New.
  destruct l. unfold protoToLoadSpec, loadSpecToProto. cbn. intros Hu Hs.
  rewrite checks_round_trip, <-!list_fmap_compose. f_equal; apply fmap_id_Forall.
  - eapply Forall_impl; [exact Hu|]. apply user_round_trip.
  - eapply Forall_impl; [exact Hs|]. intros [] [Hf Hd]. unfold compose, stage_of, stage_proto. cbn in *.
    by rewrite wrap32_fits, duration_round_trip.
Qed.

(** What the agent has of the step [s]: what to run, where it comes from and
    what is expected of it are the same, and the gateway is at the address of the control plane. *)
Record carried (ip_literal : string -> bool) (host : string) (s a : StepSpec) : Prop := {
  same_execution_id : Step.ExecutionID a = Step.ExecutionID s; same_suite_id : Step.SuiteID a = Step.SuiteID s;
  same_suite_title : Step.SuiteTitle a = Step.SuiteTitle s;
  same_suite_repository : Step.SuiteRepository a = Step.SuiteRepository s;
  same_profile : Step.Profile a = Step.Profile s;
  same_runtime_profile : Step.RuntimeProfile a = Step.RuntimeProfile s; same_env : Step.Env a = Step.Env s;
  same_headers : Step.Headers a = Step.Headers s; same_source_suite_id : Step.SourceSuiteID a = Step.SourceSuiteID s;
  same_source_suite_title : Step.SourceSuiteTitle a = Step.SourceSuiteTitle s;
  same_source_repository : Step.SourceRepository a = Step.SourceRepository s;
  same_source_version : Step.SourceVersion a = Step.SourceVersion s;
  same_resolved_ref : Step.ResolvedRef a = Step.ResolvedRef s; same_digest : Step.Digest a = Step.Digest s;
  same_dependency_alias : Step.DependencyAlias a = Step.DependencyAlias s; same_load : Step.Load a = Step.Load s;
  same_evaluation : Step.Evaluation a = Step.Evaluation s; same_on_failure : Step.OnFailure a = Step.OnFailure s;
  same_artifact_exports : Step.ArtifactExports a = Step.ArtifactExports s; same_node : Step.Node a = Step.Node s;
  same_network_aliases : Step.NetworkAliases a = Step.NetworkAliases s;
  gateway_moved : Step.GatewayURL a = KubeRun.RewriteLoopbackURL ip_literal (Step.GatewayURL s) host;
  gateways_moved : Step.GatewayURLs a = (fun u => KubeRun.RewriteLoopbackURL ip_literal u host) <$> Step.GatewayURLs s;
}.
(** What it never has, whatever the step was: the backend and the trigger, the
    place in the run, the lease, the calls of security and plugin steps, the
    callback for artifacts, the network and the ports to publish. *)
Record left_behind (a : StepSpec) : Prop := {
  no_trigger : Step.Trigger a = ""; no_backend_id : Step.BackendID a = "";
  no_backend_label : Step.BackendLabel a = ""; no_backend_kind : Step.BackendKind a = "";
  no_step_index : Step.StepIndex a = 0; no_total_steps : Step.TotalSteps a = 0;
  no_healthy_steps : Step.HealthySteps a = 0; no_lease_ttl : Step.LeaseTTL a = 0;
  no_security : Step.Security a = None; no_plugin : Step.Plugin a = None;
  no_registered_plugins : Step.RegisteredPlugins a = []; no_on_artifact : Step.OnArtifact a = false;
  no_network_name : Step.NetworkName a = ""; no_publish_ports : Step.PublishPorts a = [];
}.

(** C34: A step whose numbers fit 32 bits comes out of the wire as the request
    that went in, with a lease of at least a minute, and the agent runs the same node with the
    same environment, load plan, expectations and exports, with the loopback
    gateway addresses pointed at the control plane.  The rest is lost on the way:
    the backend, trigger, place, lease, security and plugin calls, registered
    plugins, artifact callback, network name and ports to publish are empty in what the agent runs. *)
Theorem agent_runs_the_step (ip_literal : string -> bool) (host : string) (s : StepSpec) (Hs : portable s) :
  let r := protoToStepRequest AsDuration (stepRequestToProto New (step_request s)) in
  r = step_request s /\ remoteLeaseTTL <= Req.LeaseTTL r /\
  carried ip_literal host s (agent_step ip_literal host r) /\ left_behind (agent_step ip_literal host r).
Proof using AsDuration_New.
  cbv zeta. assert (protoToStepRequest AsDuration (stepRequestToProto New (step_request s)) = step_request s) as Hr.
  { destruct Hs as [[Hi Ht] Hl He Hload]. unfold protoToStepRequest, stepRequestToProto. cbn -[remoteLeaseTTL Z.max].
    rewrite !wrap32_fits by done. rewrite duration_round_trip by (unfold remoteLeaseTTL, second, int64_max in *; lia).
    unfold step_request. f_equal.
    - unfold cloneRunnerLoadSpec. destruct (Step.Load s) as [l|]; [|done]. cbn. rewrite clone_spec_id. f_equal.
      apply spec_round_trip; by apply Hload.
    - unfold cloneRunnerEvaluation. destruct (Step.Evaluation s) as [e|]; [|done]. cbn [fmap option_fmap option_map]. rewrite !clone_evaluation_id. f_equal.
      destruct e as [code logs fails]. unfold protoToEvaluation, evaluationToProto. cbn. f_equal.
      destruct code as [code|]; [|done]. cbn. f_equal. apply wrap32_fits. by eapply He.
    - unfold cloneRunnerArtifactExports. rewrite <-!list_fmap_compose. apply list_fmap_ext. by intros _ [] _.
  }
  rewrite Hr. split_and!; [done|cbn -[remoteLeaseTTL Z.max]; lia| |done].
  constructor; cbn -[remoteLeaseTTL Z.max]; rewrite ?clone_map_id; try done.
  - unfold cloneRunnerLoadSpec. destruct (Step.Load s); cbn; by rewrite ?clone_spec_id.
  - unfold cloneRunnerEvaluation. destruct (Step.Evaluation s); cbn; by rewrite ?clone_evaluation_id.
  - unfold cloneArtifactExports, cloneRunnerArtifactExports. rewrite <-list_fmap_compose.
    apply fmap_id_Forall, Forall_forall. by intros [] _.
  - by destruct (Step.Node s).
Qed.
End Arrival.

(** Durations sent as seconds and nanoseconds. *)
Definition sent_duration (d : Z) : Z * Z := (d / second, d mod second).
Definition received_duration (d : Z * Z) : Z := d.1 * second + d.2.
Definition sample_spec : LoadSpec :=
  Spec.mk "traffic.smoke" "" "http://api" F_zero F_zero
    [User.mk "u" "U" 3 LoadPlan.no_wait [Task.mk "t" "T" 1 (Request.mk "GET" "/" "" {["A" := "1"]} "" []) []]]
    [Stage.mk 1500000000 10 F_zero false] [Threshold.mk "http.p95_ms" "<" F_zero ""].
Definition sample_sent : StepSpec := with_load sample_spec (DockerRun.sample_task DockerRun.sample_exports).
Lemma agent_runs_the_step_witness :
  let r := protoToStepRequest received_duration (stepRequestToProto sent_duration (step_request sample_sent)) in
  Step.GatewayURL (agent_step (fun _ => true) "10.0.2.2" r) = "http://10.0.2.2:9080" /\ Req.Load r = Some sample_spec.
Proof.
  destruct (agent_runs_the_step sent_duration received_duration) with (ip_literal := fun _ : string => true) (host := "10.0.2.2")
    (s := sample_sent) as (Hr & _ & Ha & _).
  - intros d _. unfold sent_duration, received_duration. cbn [fst snd]. pose proof (Z.div_mod d second ltac:(done)). lia.
  - constructor; [split; split; vm_compute; congruence|vm_compute; congruence|discriminate|].
    intros l [= <-]. split; repeat constructor; vm_compute; congruence.
  - cbv zeta. rewrite (gateway_moved _ _ _ _ Ha), Hr. split; vm_compute; reflexivity.
Defined.

(** A number that does not fit arrives as another one. *)
Lemma large_numbers_wrap :
  Req.TotalSteps (protoToStepRequest received_duration (stepRequestToProto sent_duration
    (Req.mk "" "" "" "" "" "" "" ∅ ∅ "" "" "" "" "" "" "" "" "" "" "" 0 (2 ^ 32) 0 None None [] [] (step_node (Step.Node sample_sent))
       "" [] []))) = 0.
Proof. vm_compute. reflexivity. Qed.

End RemoteRun.
