(* ===== verification/Backends.v ===== *)
(** The three backends side by side, [src/backend/internal/runner]: what local,
    Kubernetes and remote runs of one step have in common, and a step on the
    local backend with its container. *)
From Stdlib Require Import ZArith Lia Ascii.
From S2P Require Import Prelude GoStrings Runes Strconv Values StarNode LoadPlan Hub Runner StepRun Containers DockerRun KubeRun RemoteRun.
Import GoStrings Runes Strconv Runner.
#[local] Open Scope run_scope.

Module Backends.
Notation steps A := (run unit A).

(** ** Results that do not depend on the lines reported before *)
Definition steady {A} (m : steps A) : Prop := forall w w', (m w).1 = (m w').1.
Create HintDb steady.
Lemma steady_ret {A} (x : A) : steady (ret x).
Proof. done. Qed.
Lemma steady_emit l : steady (emit l).
Proof. done. Qed.
Lemma steady_emits ls : steady (emits ls).
Proof. intros w w'. by rewrite !emits_spec. Qed.
Lemma steady_bind {A B} (m : steps A) (k : A -> steps B) : steady m -> (forall x, steady (k x)) -> steady (bind m k).
Proof. intros Hm Hk w w'. rewrite !bind_run, (Hm w w'). apply Hk. Qed.
#[export] Hint Resolve steady_ret steady_emit steady_emits steady_bind : steady.
Ltac steady := repeat first [progress eauto with steady | apply steady_bind; intros | case_match].

Section Backends.
Variable IsPrint : Z -> bool.
Variable MarshalPayload : string -> string -> gmap string Values.any -> goerr + string.
Variable PostPlugin : string -> string -> http_outcome.
Variable UnmarshalPlugin : string -> goerr + StepRun.pluginResult.
Variable MarshalScanner : StepRun.scannerConfig -> goerr + string.
Variable PostScanner : string -> string -> http_outcome.
Variable UnmarshalScanner : string -> goerr + StepRun.scannerResult.
Variable LoadStep : StepSpec -> steps (option goerr).
Variable cancelled : bool.
Definition in_process : StepSpec -> steps (bool * option goerr) :=
  StepRun.runInProcessStep IsPrint MarshalPayload PostPlugin UnmarshalPlugin MarshalScanner PostScanner UnmarshalScanner LoadStep.
Definition simulated : StepSpec -> steps (option goerr) := StepRun.runSimulatedStep IsPrint cancelled.
(** The local backend with the containers [Docker]. *)
Definition local (Docker : StepSpec -> steps (option goerr)) (docker_available : bool) : StepSpec -> option goerr * list Hub.Line :=
  StepRun.Run IsPrint MarshalPayload PostPlugin UnmarshalPlugin MarshalScanner PostScanner UnmarshalScanner LoadStep Docker
    docker_available cancelled.

Lemma steady_evaluate step : Step.Evaluation step = None -> steady (StepRun.evaluate_now IsPrint step).
Proof using Type. intros H w w'. unfold StepRun.evaluate_now, StepRun.evaluateStepExpectations. by rewrite H. Qed.
Lemma steady_in_process step : Step.Evaluation step = None -> steady (LoadStep step) -> steady (in_process step).
Proof using Type.
  intros He Hl. pose proof (steady_evaluate step He) as Hev.
  unfold in_process, StepRun.runInProcessStep, StepRun.executePlugin, StepRun.executeSecurityStep. steady.
Qed.
Lemma steady_simulated step : Step.Evaluation step = None -> steady (simulated step).
Proof using Type.
  intros He. pose proof (steady_evaluate step He) as Hev. unfold simulated, StepRun.runSimulatedStep. steady.
Qed.

(** ** Steps without a container *)
Section Kubernetes.
Variable namespace : string.
Variable ip_literal : string -> bool.
Variable Parses : string -> bool.
Variable entries : gmap string string -> list (string * string).
Definition kubernetes (c : KubeRun.cluster) (forwards : KubeRun.forward_state) (step : StepSpec) :
    KubeRun.outcome * world KubeRun.kube_state :=
  KubeRun.Run namespace IsPrint ip_literal Parses entries in_process simulated c forwards step.
Definition remote (Dispatch : RemoteRun.StepRequest -> steps (option goerr)) (r : RemoteRun.Remote) (step : StepSpec) :
    option goerr * list Hub.Line :=
  RemoteRun.Run IsPrint in_process simulated Dispatch r step.

Lemma within_run {S T A} (s : T) (m : run T A) (w : world S) : (StepRun.within s m w).1 = (m (mkWorld (Lines w) s)).1.
Proof using Type. unfold StepRun.within. by destruct (m _). Qed.

(** C33: A step that needs no container, whose file is there and that declares
    no expectations has the same result on the local, the Kubernetes and the
    remote backend, whatever Docker, the cluster and the agents answer. *)
Theorem backends_agree (step : StepSpec) Docker docker_available c forwards Dispatch (r : RemoteRun.Remote)
    (Hcontainer : StepRun.stepRequiresContainer step = false)
    (Hfile : StepRun.requireResolvedStepFile IsPrint step = None)
    (Hev : Step.Evaluation step = None) (Hload : steady (LoadStep step)) (Hdispatch : RemoteRun.dispatches r = true) :
  (kubernetes c forwards step).1 = KubeRun.Returned (local Docker docker_available step).1 /\
  (remote Dispatch r step).1 = (local Docker docker_available step).1.
Proof using Type.
  pose proof (steady_in_process step Hev Hload) as Hin. pose proof (steady_simulated step Hev) as Hsim.
  unfold kubernetes, remote, local, KubeRun.Run, KubeRun.run_step, RemoteRun.Run, RemoteRun.run_step, StepRun.Run, StepRun.run_step.
  rewrite Hdispatch, Hfile, Hcontainer, andb_false_r. cbn [negb]. case_bool_decide; [done|].
  fold in_process. fold simulated. set (w := mkWorld [] tt). rewrite !bind_run.
  set (verdict := match (in_process step w).1 with (true, failed) => failed | (false, _) => (simulated step w).1 end).
  assert (forall w1 : world unit, (let '(failed, w2) :=
    (let '(handled, failed) := (in_process step w1).1 in if handled : bool then ret failed else simulated step) (in_process step w1).2
    in (failed, reverse (Lines w2))).1 = verdict) as Hcommon.
  { intros w1. unfold verdict. rewrite (Hin w1 w). destruct (in_process step w).1 as [[] failed]; [done|].
    rewrite (Hsim w (in_process step w1).2). by destruct (simulated step (in_process step w1).2). }
  split; [|by rewrite !Hcommon]. rewrite Hcommon. unfold verdict. rewrite within_run, (Hin _ w).
  destruct (in_process step w).1 as [[] failed]; [done|].
  unfold KubeRun.returned. rewrite bind_run. cbn [ret fst]. by rewrite within_run, (Hsim _ w).
Qed.

Lemma not_in_process step (w : world unit) : StepRun.kind_of step ∉ ["plugin"; "security"; "traffic"] ->
  in_process step w = ((false, None), w).
Proof using Type.
  rewrite !not_elem_of_cons. intros (Hp & Hs & Ht & _). unfold in_process, StepRun.runInProcessStep. by rewrite !bool_decide_false by done.
Qed.

(** A task or a test that names a file the package does not contain and has
    no commands fails on the local and the Kubernetes backend and passes on the
    remote one, without being sent to an agent, when it declares no
    expectations and is not cancelled. *)
Theorem remote_passes_missing_file (step : StepSpec) Docker docker_available c forwards Dispatch (r : RemoteRun.Remote)
    (Hkind : StepRun.kind_of step ∈ ["task"; "test"])
    (Hfile : blank (Node.File (Step.Node step)) = false) (Hcontent : Node.FileContent (Step.Node step) = "")
    (Hcommands : Node.Commands (Step.Node step) = []) (Hev : Step.Evaluation step = None)
    (Hdispatch : RemoteRun.dispatches r = true) (Hcancel : cancelled = false) :
  (exists e, (local Docker docker_available step).1 = Some e /\
             (kubernetes c forwards step).1 = KubeRun.Returned (Some e)) /\
  (remote Dispatch r step).1 = None.
Proof using Type.
  assert (StepRun.kind_of step = "task" \/ StepRun.kind_of step = "test") as Hk.
  { rewrite !elem_of_cons, elem_of_nil in Hkind. tauto. }
  assert (StepRun.kind_of step <> "log" /\ StepRun.kind_of step <> "plugin" /\ StepRun.kind_of step <> "security" /\
    StepRun.kind_of step <> "traffic") as (Hlog & Hplugin & Hsecurity & Htraffic) by (destruct Hk as [-> | ->]; split_and!; discriminate).
  assert (StepRun.kind_of step ∈ ["task"; "test"; "service"]) as Hkind3 by (rewrite !elem_of_cons; tauto). split.
  - assert (exists e, StepRun.requireResolvedStepFile IsPrint step = Some e) as [e He].
    { unfold StepRun.requireResolvedStepFile. rewrite bool_decide_true, Hcontent by done. cbn [negb orb].
      rewrite bool_decide_false by (by apply blank_false in Hfile). by eexists. }
    exists e. unfold local, kubernetes, StepRun.Run, StepRun.run_step, KubeRun.Run, KubeRun.run_step.
    by rewrite bool_decide_false, He by done.
  - unfold remote, RemoteRun.Run, RemoteRun.run_step. rewrite Hdispatch, bool_decide_false by done. cbn [negb]. rewrite bind_run.
    rewrite not_in_process by (rewrite !not_elem_of_cons; split_and!; (done || apply not_elem_of_nil)).
    cbn [fst snd]. assert (StepRun.stepRequiresContainer step = false) as ->.
    { unfold StepRun.stepRequiresContainer. by rewrite bool_decide_true, Hcommands, Hcontent by done. }
    cbn [negb]. unfold simulated, StepRun.runSimulatedStep. rewrite Hcancel, (bool_decide_false (_ = "traffic")) by done.
    rewrite !bind_run. unfold StepRun.evaluate_now, StepRun.evaluateStepExpectations. by rewrite Hev.
Qed.
End Kubernetes.

(** ** A task in its container *)
Section InDocker.
Variable tempDir : string.
Variable pid : Z.
Variable entries : gmap string string -> list (string * string).
Variable Open : string -> goerr + string.
Variable Glob : string -> goerr + list string.
Notation in_docker := (DockerRun.runInDocker tempDir pid IsPrint entries Open Glob).
(** [runInDocker] with the answers [d], as the local backend calls it. *)
Definition docker (d : DockerRun.daemon) (step : StepSpec) : steps (option goerr) := StepRun.within [] (in_docker d step).

(** C30: A task or a test with a script passes on the local backend with Docker
    exactly when its container was started and ended with status 0 and without
    an error, or the wait for it ended without a status and an error, and its expectations hold
    for exit code 0, the announcements of the runner and the lines reported until
    then.  So a step that expects another exit code than 0 fails, and fails when
    its container ends with that code, although the documentation describes
    [expect_exit] as the expected exit code of the process. *)
Theorem container_step_passes (d : DockerRun.daemon) (step : StepSpec)
    (Hkind : StepRun.kind_of step ∈ ["task"; "test"])
    (Hscript : StepRun.stepRequiresContainer step = true)
    (Hfile : StepRun.requireResolvedStepFile IsPrint step = None) :
  ((local (docker d) true step).1 = None <->
   DockerRun.started IsPrint d step /\
   (DockerRun.d_wait d = DockerRun.WaitError None \/ DockerRun.d_wait d = DockerRun.NotRunning 0 "") /\
   StepRun.meets step 0 (StepRun.captured (Lines (in_docker d step (mkWorld (reverse (StepRun.announcements step)) [])).2))) /\
  (forall ev code, Step.Evaluation step = Some ev -> StarNode.ExpectExit ev = Some code -> code <> 0 ->
     (local (docker d) true step).1 <> None).
Proof using Type.
  match goal with |- ?spec /\ _ => assert spec as Hpass end; cycle 1.
  { split; [exact Hpass|]. intros ev code He Hc Hz (_ & _ & Hm)%Hpass. destruct (Hm ev He) as [Hm' _]. by specialize (Hm' code Hc). }
  assert (StepRun.kind_of step = "task" \/ StepRun.kind_of step = "test") as Hk.
  { rewrite !elem_of_cons, elem_of_nil in Hkind. tauto. }
  unfold local, StepRun.Run, StepRun.run_step. fold in_process.
  rewrite bool_decide_false by (destruct Hk as [-> | ->]; discriminate).
  rewrite Hfile, Hscript. cbn [andb]. rewrite !bind_run, emits_spec. cbn [fst snd Lines St]. rewrite app_nil_r.
  rewrite not_in_process by (rewrite !not_elem_of_cons; destruct Hk as [-> | ->]; split_and!; (discriminate || apply not_elem_of_nil)).
  cbn [fst snd]. rewrite bind_run. unfold docker at 1 2, StepRun.within. cbn [Lines St].
  pose proof (DockerRun.run_verdict tempDir pid IsPrint entries Open Glob d step (reverse (StepRun.announcements step))) as H.
  assert (Containers.isDetachedService step = false) as Hd.
  { unfold Containers.isDetachedService. rewrite bool_decide_false; [done|]. unfold StepRun.kind_of in Hk. destruct Hk as [-> | ->]; discriminate. }
  rewrite Hd in H. destruct (in_docker d step _) as [failed w]. destruct H as [Hv _]. cbn [fst snd].
  destruct failed as [e|].
  - split; [done|]. intros (Hs & Hw & _). by destruct (proj2 Hv (conj Hs Hw)).
  - destruct (proj1 Hv eq_refl) as [Hs Hw]. unfold StepRun.evaluate_now. cbn [Lines].
    rewrite <-(StepRun.evaluate_passes IsPrint step 0 _ (mkWorld (Lines w) tt)).
    destruct (StepRun.evaluateStepExpectations IsPrint step 0 _ _) as [r w']. cbn [fst]. tauto.
Qed.
End InDocker.
End Backends.

(** ** Samples *)
Notation sample f := (f (fun _ => false) StepRun.no_payload StepRun.no_post StepRun.no_answer StepRun.no_json StepRun.no_post
  StepRun.no_answer StepRun.no_load false).
Notation sample_kube f := (f "default" (fun _ => false) (fun _ => true) DockerRun.sample_order).
Definition no_agent (r : RemoteRun.StepRequest) : steps (option goerr) := ret (Some Canceled).
Definition sample_remote : RemoteRun.Remote := RemoteRun.NewRemote (Config.mk "vm" "" "" false) "http://vm:8091" None "".
Definition sample_plain : StepSpec := StepRun.sample_step "mock" "" "" None.
Definition sample_missing : StepSpec := StepRun.sample_step "test" "smoke.py" "" None.
Definition sample_scripted : StepSpec :=
  StepRun.sample_step "task" "seed.sh" "echo" (Some (StarNode.mkEvaluation (Some 0) ["3 rows"] ["FATAL"])).
Lemma backends_agree_witness :
  (local (fun _ => false) StepRun.no_payload StepRun.no_post StepRun.no_answer StepRun.no_json StepRun.no_post StepRun.no_answer
     StepRun.no_load false StepRun.container true sample_plain).1 = None /\
  (remote (fun _ => false) StepRun.no_payload StepRun.no_post StepRun.no_answer StepRun.no_json StepRun.no_post StepRun.no_answer
     StepRun.no_load false no_agent sample_remote sample_plain).1 = None.
Proof.
  assert ((sample local StepRun.container true sample_plain).1 = None) as H by (vm_compute; reflexivity). split; [exact H|].
  rewrite <-H. refine (proj2 (sample_kube (sample backends_agree) sample_plain StepRun.container true (KubeRun.sample_cluster 0)
    KubeRun.no_forwards no_agent sample_remote eq_refl eq_refl eq_refl _ eq_refl)). apply steady_ret.
Defined.
Lemma remote_passes_missing_file_witness :
  (remote (fun _ => false) StepRun.no_payload StepRun.no_post StepRun.no_answer StepRun.no_json StepRun.no_post StepRun.no_answer
     StepRun.no_load false no_agent sample_remote sample_missing).1 = None.
Proof.
  refine (proj2 (sample_kube (sample remote_passes_missing_file) sample_missing StepRun.container true (KubeRun.sample_cluster 0)
    KubeRun.no_forwards no_agent sample_remote _ eq_refl eq_refl eq_refl eq_refl eq_refl eq_refl)).
  apply (bool_decide_unpack _). vm_compute. exact I.
Defined.
Lemma container_step_passes_witness :
  let d := DockerRun.mkDaemon true None None true true (DockerRun.ContainerCreated "c1") None (DockerRun.ContainerCreated "c1") None
             None (Some "seeded 3 rows") 0 (DockerRun.NotRunning 0 "") in
  DockerRun.started (fun _ => false) d sample_scripted.
Proof.
  intros d. refine (proj1 (proj1 (proj1 (sample container_step_passes "/tmp" 1 DockerRun.sample_order DockerRun.sample_open
    Containers.no_matches d sample_scripted _ eq_refl eq_refl)) _)).
  - apply (bool_decide_unpack _). vm_compute. exact I.
  - vm_compute. reflexivity.
Defined.
End Backends.
