(* ===== verification/Profiles.v ===== *)
(** Managed profiles, [src/backend/internal/profiles]: the records of a suite,
    seeded from its package and edited through the API, with
    [suites/source_profiles.go], which reads the options of a package.

    The YAML decoder, the clock (one reading per operation), the random
    identifiers and the suites are arguments.  [nil] and empty slices are one
    value, and a map without entries is the [nil] map.  Every operation holds
    the service's mutex, so an operation is one function. *)
From Stdlib Require Import ZArith Lia Ascii.
From S2P Require Import Prelude GoStrings Runes Strconv Suites.
Import GoStrings Runes Strconv.

Module Profiles.

(** ** Data *)
Record SecretReference := mkSecret { Key : string; Provider : string; Ref : string }.
#[export] Instance SecretReference_eq_dec : EqDecision SecretReference.
Proof. solve_decision. Defined.

Record ProfileRecord := mkRecord {
  ID : string;
  Name : string;
  FileName : string;
  Description : string;
  Scope : string;
  YAML : string;
  SecretRefs : list SecretReference;
  IsDefault : bool;
  ExtendsID : string;
  Launchable : bool;
  UpdatedAt : Z;
}.
#[export] Instance ProfileRecord_eq_dec : EqDecision ProfileRecord.
Proof. solve_decision. Defined.

Definition set_default (b : bool) (r : ProfileRecord) : ProfileRecord :=
  mkRecord (ID r) (Name r) (FileName r) (Description r) (Scope r) (YAML r) (SecretRefs r) b
    (ExtendsID r) (Launchable r) (UpdatedAt r).

Record UpsertRequest := mkUpsert {
  ReqName : string;
  ReqFileName : string;
  ReqDescription : string;
  ReqScope : string;
  ReqYAML : string;
  ReqSecretRefs : list SecretReference;
  ReqDefault : bool;
  ReqExtendsID : string;
}.

Record SuiteDocument := mkSuiteDocument { DocProfiles : list ProfileRecord }.
Notation Document := (gmap string SuiteDocument).
Definition defaultDocument : Document := ∅.

Record SuiteProfiles := mkSuiteProfiles {
  SuiteID : string;
  SuiteTitle : string;
  SuiteDescription : string;
  Repository : string;
  DefaultProfileID : string;
  DefaultProfileFileName : string;
  Profiles : list ProfileRecord;
}.

Record SuiteSummary := mkSummary {
  SummaryID : string;
  SummaryTitle : string;
  SummaryDescription : string;
  SummaryRepository : string;
  ProfileCount : Z;
  LaunchableCount : Z;
  SummaryDefault : string;
}.

Definition ErrSuiteNotFound : goerr := ErrText "suite not found".
Definition ErrProfileNotFound : goerr := ErrText "profile not found".

(** ** identifiers.go *)

(** [nonAlphaNumeric.ReplaceAllString(s, "-")]: every maximal run of bytes
    outside a-z and 0-9 becomes one dash (no byte of a longer rune is inside). *)
Definition alphanumeric (c : ascii) : bool :=
  ((97 <=? code c) && (code c <=? 122)) || ((48 <=? code c) && (code c <=? 57)).
Fixpoint dash_runs (in_run : bool) (l : bytes) : bytes :=
  match l with
  | [] => []
  | c :: l' =>
      if alphanumeric c then c :: dash_runs false l'
      else if in_run then dash_runs true l' else "-"%char :: dash_runs true l'
  end.
Definition profileIDFromFileName (fileName : string) : string :=
  let trimmed := TrimSpace (ToLower fileName) in
  let trimmed := TrimSuffix trimmed ".yaml" in
  let trimmed := TrimSuffix trimmed ".yml" in
  let trimmed := to_string (dash_runs false (of_string trimmed)) in
  Trim trimmed "-".

(** [strings.FieldsFunc] for separators of one byte. *)
Fixpoint fields (separator : ascii -> bool) (l word : bytes) : list bytes :=
  let flush := match word with [] => [] | _ => [reverse word] end in
  match l with
  | [] => flush
  | c :: l' => if separator c then flush ++ fields separator l' [] else fields separator l' (c :: word)
  end.
Definition FieldsFunc (s : string) (separator : ascii -> bool) : list string :=
  to_string <$> fields separator (of_string s) [].

(** A word with an upper case first byte: where the byte or the rest is not
    UTF-8 by itself, the case mapping writes U+FFFD for what it cannot read. *)
Definition readable (s : string) : string := to_string (encode_runes (runes s)).
Definition capitalized (part : string) : string :=
  ToUpper (readable (slice_to part 1)) +:+ ToLower (readable (slice_from part 1)).
Definition labelFromFileName (fileName : string) : string :=
  let trimmed := TrimSuffix (TrimSuffix (TrimSpace fileName) ".yaml") ".yml" in
  Join (capitalized <$> FieldsFunc trimmed (fun c => bool_decide (c ∈ ["-"; "_"; "."]%char))) " ".

Definition scopeFromFileName (fileName : string) : string :=
  let normalized := ToLower (TrimSpace fileName) in
  if ContainsSub normalized "base" then "Base"
  else if ContainsSub normalized "local" then "Local"
  else if ContainsSub normalized "ci" then "CI"
  else if ContainsSub normalized "perf" then "Performance"
  else if ContainsSub normalized "stage" then "Staging"
  else if ContainsSub normalized "canary" then "Canary"
  else if ContainsSub normalized "year" then "Year End"
  else labelFromFileName fileName.

Fixpoint indexOfProfile (records : list ProfileRecord) (profileID : string) : option nat :=
  match records with
  | [] => None
  | record :: rest =>
      if bool_decide (ID record = TrimSpace profileID) then Some O
      else S <$> indexOfProfile rest profileID
  end.

(** The loop over the candidates tries one more name than there are records,
    which is enough ([candidate_found]). *)
Fixpoint next_candidate (fuel : nat) (records : list ProfileRecord) (baseID candidate : string)
    (index : Z) : option string :=
  match fuel with
  | O => None
  | S fuel =>
      match indexOfProfile records candidate with
      | Some _ => next_candidate fuel records baseID (baseID +:+ "-" +:+ FormatInt index) (index + 1)
      | None => Some candidate
      end
  end.
Definition uniqueProfileID (newID : string) (records : list ProfileRecord) (fileName : string) : string :=
  let baseID := profileIDFromFileName fileName in
  match next_candidate (S (length records)) records baseID baseID 2 with
  | Some candidate =>
      if bool_decide (candidate = "") then "profile-" +:+ slice_to newID 8 else candidate
  | None => ""
  end.

(** ** document.go: records, defaults *)
Definition compactSecretRefs (secretRefs : list SecretReference) : list SecretReference :=
  omap (fun secretRef =>
    let key := TrimSpace (Key secretRef) in
    let provider := TrimSpace (Provider secretRef) in
    let ref := TrimSpace (Ref secretRef) in
    if bool_decide (key = "") && bool_decide (provider = "") && bool_decide (ref = "") then None
    else Some (mkSecret key provider ref)) secretRefs.

Definition nonZeroTime (value fallback : Z) : Z := if IsZero value then fallback else value.

Definition normalizeRecord (now : Z) (record : ProfileRecord) : ProfileRecord :=
  mkRecord (TrimSpace (ID record)) (TrimSpace (Name record)) (TrimSpace (FileName record))
    (TrimSpace (Description record))
    (FirstNonEmpty [TrimSpace (Scope record); scopeFromFileName (TrimSpace (FileName record))])
    (TrimSpace (YAML record)) (compactSecretRefs (SecretRefs record)) (IsDefault record)
    (TrimSpace (ExtendsID record)) (Launchable record) (nonZeroTime (UpdatedAt record) now).

(** The first pass keeps the first launchable default, the second gives the
    flag to the first launchable record when there was none. *)
Fixpoint keep_first_default (now : Z) (defaultSeen : bool) (records : list ProfileRecord)
    : bool * list ProfileRecord :=
  match records with
  | [] => (defaultSeen, [])
  | record :: rest =>
      let record := normalizeRecord now record in
      if negb (Launchable record) then
        let '(seen, rest) := keep_first_default now defaultSeen rest in (seen, set_default false record :: rest)
      else if IsDefault record && negb defaultSeen then
        let '(seen, rest) := keep_first_default now true rest in (seen, record :: rest)
      else
        let record := if IsDefault record && defaultSeen then set_default false record else record in
        let '(seen, rest) := keep_first_default now defaultSeen rest in (seen, record :: rest)
  end.
Fixpoint default_first_launchable (records : list ProfileRecord) : list ProfileRecord :=
  match records with
  | [] => []
  | record :: rest =>
      if Launchable record then set_default true record :: rest
      else record :: default_first_launchable rest
  end.
Definition normalizeRecords (now : Z) (records : list ProfileRecord) : list ProfileRecord :=
  let '(defaultSeen, records) := keep_first_default now false records in
  if defaultSeen then records else default_first_launchable records.

Definition cloneRecords (records : list ProfileRecord) : list ProfileRecord := records.

Fixpoint defaultProfile (records : list ProfileRecord) : string * string :=
  match records with
  | [] => ("", "")
  | record :: rest =>
      if Launchable record && IsDefault record then (ID record, FileName record) else defaultProfile rest
  end.

Definition countLaunchable (records : list ProfileRecord) : Z :=
  foldl (fun count record => if Launchable record then count + 1 else count) 0 records.

Definition toLaunchOptions (records : list ProfileRecord) : list Suites.ProfileOption :=
  omap (fun record =>
    if negb (Launchable record) then None
    else Some (Suites.mkProfileOption (FileName record) (Name record) (Description record) (IsDefault record)))
    records.

Definition buildSuiteProfiles (definition : Suites.SuiteDefinition) (records : list ProfileRecord)
    : SuiteProfiles :=
  let '(defaultID, defaultFileName) := defaultProfile records in
  mkSuiteProfiles (Suites.SuiteID definition) (Suites.Title definition) (Suites.SuiteDescription definition)
    (Suites.Repository definition) defaultID defaultFileName (cloneRecords records).

Definition writeSuiteProfiles (document : Document) (suiteID : string) (records : list ProfileRecord)
    : Document := <[suiteID := mkSuiteDocument (cloneRecords records)]> document.

Definition cloneDocument (document : Document) : Document :=
  (fun suite => mkSuiteDocument (cloneRecords (DocProfiles suite))) <$> document.

(** The range over the map visits its keys in any order, and the entries it
    adds while it runs may be visited too.  The records are normalized in
    place, for the key as it is and for the key without its white space. *)
Definition normalize_entry (now : Z) (document : Document) (suiteID : string) : Document :=
  match document !! suiteID with
  | Some suite =>
      let suite := mkSuiteDocument (normalizeRecords now (DocProfiles suite)) in
      <[TrimSpace suiteID := suite]> (<[suiteID := suite]> document)
  | None => document
  end.
Definition normalizeDocument (now : Z) (order : list string) (document : Document) : Document :=
  foldl (normalize_entry now) document order.

(** ** yaml_secret_refs.go *)

(** The references in order of first use of their key, each with its last
    value; [indexByKey] is the position of the key in the list. *)
Fixpoint put_ref (ref : SecretReference) (ordered : list SecretReference) : list SecretReference :=
  match ordered with
  | [] => [ref]
  | other :: rest =>
      if bool_decide (TrimSpace (Key other) = TrimSpace (Key ref)) then ref :: rest
      else other :: put_ref ref rest
  end.
Definition appendRef (ordered : list SecretReference) (ref : SecretReference) : list SecretReference :=
  if bool_decide (TrimSpace (Key ref) = "") then ordered else put_ref ref ordered.
Definition mergeSecretRefs (base : list SecretReference) (overlays : list (list SecretReference))
    : list SecretReference :=
  foldl appendRef (foldl appendRef [] (compactSecretRefs base))
    (concat (compactSecretRefs <$> overlays)).

(** [unmarshal_refs], [unmarshal_extends] and [unmarshal] are [yaml.Unmarshal]
    into the structure with [secretRefs], into the one with [extendsId], and
    into a value of any shape, of which only the error matters. *)
Section Seeds.
Context (unmarshal_refs : string -> goerr + list SecretReference)
  (unmarshal_extends : string -> goerr + string) (unmarshal : string -> option goerr)
  (error_text : goerr -> string).

Definition ExtractSecretRefsFromYAML (source : string) : list SecretReference :=
  let source := TrimSpace source in
  if bool_decide (source = "") then []
  else match unmarshal_refs source with
       | inl _ => []
       | inr refs => compactSecretRefs refs
       end.

(** ** seed_profiles.go *)
Definition extendsIDFromYAML (content : string) : string :=
  match unmarshal_extends content with inl _ => "" | inr id => TrimSpace id end.

Fixpoint profileYAMLFromSourceFiles (sourceFiles : list Suites.SourceFile) (fileName : string) : string :=
  match sourceFiles with
  | [] => ""
  | file :: rest =>
      if bool_decide (Suites.Path file = "profiles/" +:+ TrimSpace fileName) then Suites.Content file
      else profileYAMLFromSourceFiles rest fileName
  end.

Definition seed_record (now : Z) (sourceFiles : list Suites.SourceFile) (profile : Suites.ProfileOption)
    : ProfileRecord :=
  let fileName := Suites.FileName profile in
  let content := profileYAMLFromSourceFiles sourceFiles fileName in
  let scope := scopeFromFileName fileName in
  mkRecord (profileIDFromFileName fileName)
    (FirstNonEmpty [TrimSpace (Suites.Label profile); labelFromFileName fileName]) fileName
    (TrimSpace (Suites.OptionDescription profile)) scope content (ExtractSecretRefsFromYAML content)
    (Suites.Default profile) (extendsIDFromYAML content) (negb (bool_decide (scope = "Base"))) now.
Definition seedSuiteProfiles (now : Z) (definition : Suites.SuiteDefinition) : list ProfileRecord :=
  normalizeRecords now
    (seed_record now (Suites.SourceFiles definition) <$> Suites.Profiles definition).

(** ** document.go: merging *)

(** The first unused stored record that stands for the seed: its index. *)
Fixpoint match_stored (seed : ProfileRecord) (usedStored : list nat) (index : nat)
    (stored : list ProfileRecord) : option (nat * ProfileRecord) :=
  match stored with
  | [] => None
  | record :: rest =>
      if bool_decide (index ∈ usedStored) then match_stored seed usedStored (S index) rest
      else if bool_decide (ID record = ID seed) ||
              (bool_decide (ID record = "") && EqualFold (FileName record) (FileName seed))
      then Some (index, record)
      else match_stored seed usedStored (S index) rest
  end.
Definition merge_record (record seed : ProfileRecord) : ProfileRecord :=
  mkRecord (FirstNonEmpty [ID record; ID seed]) (Name record) (FileName record) (Description record)
    (Scope record) (YAML record) (SecretRefs record) (IsDefault record) (ExtendsID record)
    (Launchable seed) (nonZeroTime (UpdatedAt record) (UpdatedAt seed)).
Fixpoint merge_seeds (now : Z) (stored seeds : list ProfileRecord) (usedStored : list nat)
    : list ProfileRecord * list nat :=
  match seeds with
  | [] => ([], usedStored)
  | seed :: rest =>
      match match_stored seed usedStored 0 stored with
      | Some (index, record) =>
          let '(merged, used) := merge_seeds now stored rest (index :: usedStored) in
          (normalizeRecord now (merge_record record seed) :: merged, used)
      | None =>
          let '(merged, used) := merge_seeds now stored rest usedStored in
          (normalizeRecord now seed :: merged, used)
      end
  end.
Fixpoint merge_rest (now : Z) (usedStored : list nat) (index : nat) (stored : list ProfileRecord)
    : list ProfileRecord :=
  match stored with
  | [] => []
  | record :: rest =>
      if bool_decide (index ∈ usedStored) then merge_rest now usedStored (S index) rest
      else normalizeRecord now record :: merge_rest now usedStored (S index) rest
  end.
Definition mergeSuiteProfiles (now : Z) (definition : Suites.SuiteDefinition) (document : Document)
    : list ProfileRecord :=
  let seed := seedSuiteProfiles now definition in
  let stored := default [] (DocProfiles <$> document !! Suites.SuiteID definition) in
  if bool_decide (stored = []) then cloneRecords seed
  else
    let '(merged, usedStored) := merge_seeds now stored seed [] in
    normalizeRecords now (merged ++ merge_rest now usedStored 0 stored).

(** ** validation.go *)
Fixpoint name_taken (record : ProfileRecord) (current : list ProfileRecord) (currentID : string) : bool :=
  match current with
  | [] => false
  | existing :: rest =>
      if bool_decide (ID existing = currentID) then name_taken record rest currentID
      else EqualFold (FileName existing) (FileName record) || name_taken record rest currentID
  end.
Definition incomplete (secretRef : SecretReference) : bool :=
  bool_decide (Key secretRef = "") || bool_decide (Provider secretRef = "") || bool_decide (Ref secretRef = "").
Definition validateRecord (record : ProfileRecord) (current : list ProfileRecord) (currentID : string)
    : option goerr :=
  if bool_decide (Name record = "") then Some (ErrText "Profile name is required.")
  else if bool_decide (FileName record = "") then Some (ErrText "Profile file name is required.")
  else if negb (HasSuffix (ToLower (FileName record)) ".yaml") && negb (HasSuffix (ToLower (FileName record)) ".yml")
  then Some (ErrText "Profile file names must end with .yaml or .yml.")
  else if bool_decide (YAML record = "") then Some (ErrText "Profile YAML is required.")
  else match unmarshal (YAML record) with
  | Some e => Some (ErrText ("Invalid YAML: " +:+ error_text e))
  | None =>
  if name_taken record current currentID
  then Some (ErrText "A profile with that file name already exists for this suite.")
  else if negb (bool_decide (ExtendsID record = "")) && negb (bool_decide (ExtendsID record = "base")) &&
          bool_decide (indexOfProfile current (ExtendsID record) = None) &&
          negb (bool_decide (ExtendsID record = currentID))
  then Some (ErrText "The selected base profile was not found.")
  else if existsb incomplete (SecretRefs record)
  then Some (ErrText "Secret references need a key, provider, and reference.")
  else None
  end.

Definition applyUpsertRequest (now : Z) (record : ProfileRecord) (request : UpsertRequest)
    (current : list ProfileRecord) (currentID : string) : goerr + ProfileRecord :=
  let yaml := TrimSpace (ReqYAML request) in
  let extendsID := TrimSpace (ReqExtendsID request) in
  let record := mkRecord (ID record) (TrimSpace (ReqName request)) (TrimSpace (ReqFileName request))
    (TrimSpace (ReqDescription request))
    (FirstNonEmpty [TrimSpace (ReqScope request); scopeFromFileName (ReqFileName request)])
    yaml (mergeSecretRefs (ExtractSecretRefsFromYAML yaml) [ReqSecretRefs request])
    (ReqDefault request && Launchable record)
    (if bool_decide (extendsID = "") && Launchable record then "base" else extendsID)
    (Launchable record) now in
  match validateRecord record current currentID with Some e => inl e | None => inr record end.
End Seeds.

(** ** The store of the document *)

(** [Load] and [Save] of [Store]; loading may write too (a cache). *)
Class Store (W : Type) := {
  Load : W -> (goerr + Document) * W;
  Save : Document -> W -> option goerr * W;
}.

(** No key of the document is written with white space around it. *)
Definition tidy (document : Document) : Prop := forall suiteID suite,
  document !! suiteID = Some suite -> TrimSpace suiteID = suiteID.

(** What the service relies on: a successful save is what the next load reads,
    suite by suite, up to normalizing again, and loading changes nothing. *)
Definition normalized_once (records records' : list ProfileRecord) : Prop :=
  exists now, now <> 0 /\ records' = normalizeRecords now records.
Definition renormalized (suite suite' : SuiteDocument) : Prop :=
  rtc normalized_once (DocProfiles suite) (DocProfiles suite').
Class StoreLaws (W : Type) `{Store W} (contents : W -> Document -> Prop) : Prop := {
  load_reads : forall w document w', Load w = (inr document, w') -> contents w document;
  load_keeps : forall w document, contents w document -> contents (Load w).2 document;
  save_reads : forall document w w', tidy document -> Save document w = (None, w') -> exists saved,
    contents w' saved /\ forall suiteID, option_Forall2 renormalized (document !! suiteID) (saved !! suiteID);
  contents_one : forall w document document', contents w document -> contents w document' ->
    document = document';
}.

(** ** service.go *)
Section Service.
Context {W : Type} `{Store W}.
Context (base_List : list Suites.SuiteDefinition) (base_Get base_Resolve : string -> goerr + Suites.SuiteDefinition)
  (base_ResolveModuleFiles : string -> goerr + gmap string string) (suites_ErrNotFound : goerr).
Context (unmarshal_refs : string -> goerr + list SecretReference)
  (unmarshal_extends : string -> goerr + string) (unmarshal : string -> option goerr)
  (error_text : goerr -> string).
Notation mergeSuiteProfiles := (mergeSuiteProfiles unmarshal_refs unmarshal_extends).
Notation applyUpsertRequest := (applyUpsertRequest unmarshal_refs unmarshal error_text).

Definition lookupSuite (suiteID : string) : goerr + Suites.SuiteDefinition :=
  match base_Get (TrimSpace suiteID) with
  | inl err => inl (if errors_Is err suites_ErrNotFound then ErrSuiteNotFound else err)
  | inr definition => inr definition
  end.

Definition safeLoadDocument (w : W) : Document * W :=
  match Load w with (inr document, w) => (document, w) | (inl _, w) => (defaultDocument, w) end.

(** A suite with the profiles that can be launched. *)
Definition with_profiles (now : Z) (document : Document) (definition : Suites.SuiteDefinition)
    : Suites.SuiteDefinition :=
  Suites.mkSuite (Suites.SuiteID definition) (Suites.Title definition) (Suites.SuiteDescription definition)
    (Suites.Repository definition) (Suites.Version definition) (Suites.SuiteStar definition)
    (toLaunchOptions (mergeSuiteProfiles now definition document))
    (Suites.Folders definition) (Suites.SeedSources definition) (Suites.SourceFiles definition).

Definition List (now : Z) (w : W) : list Suites.SuiteDefinition * W :=
  let '(document, w) := safeLoadDocument w in
  (with_profiles now document <$> base_List, w).
Definition Get (now : Z) (id : string) (w : W) : (goerr + Suites.SuiteDefinition) * W :=
  match base_Get id with
  | inl err => (inl err, w)
  | inr definition =>
      let '(document, w) := safeLoadDocument w in (inr (with_profiles now document definition), w)
  end.
Definition Resolve (now : Z) (ref : string) (w : W) : (goerr + Suites.SuiteDefinition) * W :=
  match base_Resolve ref with
  | inl err => (inl err, w)
  | inr definition =>
      let '(document, w) := safeLoadDocument w in (inr (with_profiles now document definition), w)
  end.
Definition ResolveModuleFiles (name : string) : goerr + gmap string string := base_ResolveModuleFiles name.

Definition suite_summary (now : Z) (document : Document) (definition : Suites.SuiteDefinition) : SuiteSummary :=
  let records := mergeSuiteProfiles now definition document in
  mkSummary (Suites.SuiteID definition) (Suites.Title definition) (Suites.SuiteDescription definition)
    (Suites.Repository definition) (Z.of_nat (length records)) (countLaunchable records)
    (defaultProfile records).2.
Definition ListSuiteSummaries (now : Z) (w : W) : (goerr + list SuiteSummary) * W :=
  match Load w with
  | (inl err, w) => (inl err, w)
  | (inr document, w) => (inr (suite_summary now document <$> base_List), w)
  end.

(** The suite and the stored document, which every operation reads first. *)
Definition load_suite (suiteID : string) (w : W)
    : (goerr + (Suites.SuiteDefinition * Document)) * W :=
  match lookupSuite suiteID with
  | inl err => (inl err, w)
  | inr definition =>
      match Load w with
      | (inl err, w) => (inl err, w)
      | (inr document, w) => (inr (definition, document), w)
      end
  end.
Definition GetSuiteProfiles (now : Z) (suiteID : string) (w : W) : (goerr + SuiteProfiles) * W :=
  match load_suite suiteID w with
  | (inl err, w) => (inl err, w)
  | (inr (definition, document), w) =>
      (inr (buildSuiteProfiles definition (mergeSuiteProfiles now definition document)), w)
  end.

(** The records after an edit are normalized, written and returned. *)
Definition save_records (now : Z) (definition : Suites.SuiteDefinition) (document : Document)
    (records : list ProfileRecord) (w : W) : (goerr + SuiteProfiles) * W :=
  let records := normalizeRecords now records in
  match Save (writeSuiteProfiles document (Suites.SuiteID definition) records) w with
  | (Some err, w) => (inl err, w)
  | (None, w) => (inr (buildSuiteProfiles definition records), w)
  end.
(** An operation: load, edit the merged records, save. *)
Definition edit_suite (now : Z) (edit : list ProfileRecord -> goerr + list ProfileRecord)
    (suiteID : string) (w : W) : (goerr + SuiteProfiles) * W :=
  match load_suite suiteID w with
  | (inl err, w) => (inl err, w)
  | (inr (definition, document), w) =>
      match edit (mergeSuiteProfiles now definition document) with
      | inl err => (inl err, w)
      | inr records => save_records now definition document records w
      end
  end.

Definition create_record (now : Z) (newID : string) (request : UpsertRequest) (records : list ProfileRecord)
    : goerr + list ProfileRecord :=
  let record := mkRecord (uniqueProfileID newID records (ReqFileName request)) "" "" "" "" "" [] false "" true 0 in
  check record := applyUpsertRequest now record request records "" in
  inr (records ++ [record]).
Definition CreateProfile (now : Z) (newID suiteID : string) (request : UpsertRequest)
    : W -> (goerr + SuiteProfiles) * W := edit_suite now (create_record now newID request) suiteID.

Definition update_record (now : Z) (profileID : string) (request : UpsertRequest) (records : list ProfileRecord)
    : goerr + list ProfileRecord :=
  match indexOfProfile records profileID with
  | None => inl ErrProfileNotFound
  | Some index =>
      match records !! index with
      | None => inl ErrProfileNotFound
      | Some record =>
          check record := applyUpsertRequest now record request records (ID record) in
          let record := if negb (Launchable record) then set_default false record else record in
          inr (<[index := record]> records)
      end
  end.
Definition UpdateProfile (now : Z) (suiteID profileID : string) (request : UpsertRequest)
    : W -> (goerr + SuiteProfiles) * W := edit_suite now (update_record now profileID request) suiteID.

Definition delete_record (profileID : string) (records : list ProfileRecord) : goerr + list ProfileRecord :=
  match indexOfProfile records profileID with
  | None => inl ErrProfileNotFound
  | Some index =>
      if negb (default false (Launchable <$> records !! index)) then
        inl (ErrText "Base profiles cannot be deleted.")
      else inr (take index records ++ drop (S index) records)
  end.
Definition DeleteProfile (now : Z) (suiteID profileID : string) : W -> (goerr + SuiteProfiles) * W :=
  edit_suite now (delete_record profileID) suiteID.

Definition make_default (profileID : string) (records : list ProfileRecord) : goerr + list ProfileRecord :=
  match indexOfProfile records profileID with
  | None => inl ErrProfileNotFound
  | Some index =>
      if negb (default false (Launchable <$> records !! index)) then
        inl (ErrText "Base profiles cannot be used as the default launch profile.")
      else inr ((fun record =>
                   set_default (bool_decide (ID record = profileID) && Launchable record) record) <$> records)
  end.
Definition SetDefaultProfile (now : Z) (suiteID profileID : string) : W -> (goerr + SuiteProfiles) * W :=
  edit_suite now (make_default profileID) suiteID.

(** ** handler.go: the status and the message or the payload *)
Definition service_error (err : goerr) : Z * string :=
  if errors_Is err ErrSuiteNotFound then (404, "Suite not found.")
  else if errors_Is err ErrProfileNotFound then (404, "Profile not found.")
  else (500, "Could not process request.").
Definition write_profiles (status : Z) (answer : (goerr + SuiteProfiles) * W)
    : ((Z * string) + (Z * SuiteProfiles)) * W :=
  match answer with
  | (inl err, w) => (inl (service_error err), w)
  | (inr payload, w) => (inr (status, payload), w)
  end.
Definition listSuites (now : Z) (w : W) : ((Z * string) + (Z * list SuiteSummary)) * W :=
  match ListSuiteSummaries now w with
  | (inl _, w) => (inl (500, "Could not load profile suites."), w)
  | (inr summaries, w) => (inr (200, summaries), w)
  end.
Definition getSuiteProfiles (now : Z) (suiteID : string) (w : W) :=
  write_profiles 200 (GetSuiteProfiles now suiteID w).
(** [body] is the decoded request, [None] when it cannot be decoded. *)
Definition createProfile (now : Z) (newID suiteID : string) (body : option UpsertRequest) (w : W) :=
  match body with
  | None => (inl (400, "Invalid profile payload."), w)
  | Some request => write_profiles 201 (CreateProfile now newID suiteID request w)
  end.
Definition updateProfile (now : Z) (suiteID profileID : string) (body : option UpsertRequest) (w : W) :=
  match body with
  | None => (inl (400, "Invalid profile payload."), w)
  | Some request => write_profiles 200 (UpdateProfile now suiteID profileID request w)
  end.
Definition deleteProfile (now : Z) (suiteID profileID : string) (w : W) :=
  write_profiles 200 (DeleteProfile now suiteID profileID w).
Definition setDefaultProfile (now : Z) (suiteID profileID : string) (w : W) :=
  write_profiles 200 (SetDefaultProfile now suiteID profileID w).
End Service.

End Profiles.
