(* ===== verification/ProfileRecords.v ===== *)
(** The records of a suite's profiles: what normalizing, merging and the edits
    of [Profiles] do to identifiers, defaults and the profiles of the package. *)
From Stdlib Require Import ZArith Lia Ascii.
From S2P Require Import Prelude GoStrings Runes Strconv Suites Profiles.
Import GoStrings Runes Strconv Profiles.

Module ProfileRecords.

(** * Defaults *)
Definition is_default (r : ProfileRecord) : Prop := IsDefault r = true.
#[export] Instance is_default_dec r : Decision (is_default r).
Proof. unfold is_default. apply _. Defined.

(** The default profiles can be launched, and there is exactly one as soon as
    some profile can. *)
Record one_default (records : list ProfileRecord) : Prop := {
  default_launchable : forall r, r ∈ records -> IsDefault r = true -> Launchable r = true;
  default_count : length (filter is_default records) = if existsb Launchable records then 1%nat else 0%nat;
}.

Lemma filter_default r records : filter is_default (r :: records) =
  if IsDefault r then r :: filter is_default records else filter is_default records.
Proof.
  destruct (IsDefault r) eqn:E; [apply filter_cons_True | apply filter_cons_False];
    unfold is_default; rewrite E; auto.
Qed.

Lemma keep_first_spec now records : forall seen,
  let '(seen', records') := keep_first_default now seen records in
  Launchable <$> records' = Launchable <$> records /\
  ID <$> records' = (fun r => TrimSpace (ID r)) <$> records /\
  (forall r, r ∈ records' -> IsDefault r = true -> Launchable r = true) /\
  (seen = true -> seen' = true) /\
  length (filter is_default records') = if seen' && negb seen then 1%nat else 0%nat.
Proof.
  induction records as [|r records IH]; intros seen; cbn [keep_first_default].
  { split_and!; [done|done|intros r Hr; set_solver|done|by destruct seen]. }
  pose proof (IH true) as IHt. specialize (IH seen).
  destruct (Launchable r) eqn:El; cbn [normalizeRecord Launchable IsDefault negb]; rewrite El; cbn [negb].
  2: { destruct (keep_first_default now seen records) as [seen' records'].
       destruct IH as (Hl & Hi & Hd & Hs & Hc). rewrite !fmap_cons, filter_default. cbn.
       rewrite El, Hl, Hi. split_and!; [done|done| |done|done].
       intros r' [->|Hr]%elem_of_cons; [done | by apply Hd]. }
  destruct (IsDefault r) eqn:Ed, seen; cbn [andb negb set_default IsDefault].
  - destruct (keep_first_default now true records) as [seen' records'].
    destruct IH as (Hl & Hi & Hd & Hs & Hc). rewrite !fmap_cons, filter_default. cbn.
    rewrite El, Hl, Hi. split_and!; [done|done| |done|done].
    intros r' [->|Hr]%elem_of_cons; [done | by apply Hd].
  - destruct (keep_first_default now true records) as [seen' records'].
    destruct IHt as (Hl & Hi & Hd & Hs & Hc). rewrite !fmap_cons, filter_default. cbn.
    rewrite Ed, El, Hl, Hi, (Hs eq_refl) in *. cbn. split_and!; [done|done| |done|cbn in Hc; lia].
    intros r' [->|Hr]%elem_of_cons; [done | by apply Hd].
  - destruct (keep_first_default now true records) as [seen' records'].
    destruct IH as (Hl & Hi & Hd & Hs & Hc). rewrite !fmap_cons, filter_default. cbn.
    rewrite Ed, El, Hl, Hi. split_and!; [done|done| |done|done].
    intros r' [->|Hr]%elem_of_cons; [done | by apply Hd].
  - destruct (keep_first_default now false records) as [seen' records'].
    destruct IH as (Hl & Hi & Hd & Hs & Hc). rewrite !fmap_cons, filter_default. cbn.
    rewrite Ed, El, Hl, Hi. split_and!; [done|done| |done|done].
    intros r' [->|Hr]%elem_of_cons; [done | by apply Hd].
Qed.

Lemma existsb_launchable (a b : list ProfileRecord) :
  Launchable <$> a = Launchable <$> b -> existsb Launchable a = existsb Launchable b.
Proof.
  revert b. induction a as [|x a IH]; intros [|y b] E; try done. rewrite !fmap_cons in E.
  injection E as E1 E2. cbn. by rewrite E1, (IH b).
Qed.
Lemma existsb_default records : (forall r, r ∈ records -> IsDefault r = true -> Launchable r = true) ->
  filter is_default records <> [] -> existsb Launchable records = true.
Proof.
  induction records as [|r records IH]; intros Hd Hf; [done|]. cbn.
  rewrite filter_default in Hf. destruct (IsDefault r) eqn:E.
  - by rewrite (Hd r); [|set_solver|].
  - rewrite IH; [apply orb_true_r | set_solver | done].
Qed.

Lemma default_first_spec records : filter is_default records = [] ->
  let records' := default_first_launchable records in
  Launchable <$> records' = Launchable <$> records /\ ID <$> records' = ID <$> records /\
  (forall r, r ∈ records' -> IsDefault r = true -> Launchable r = true) /\
  length (filter is_default records') = if existsb Launchable records then 1%nat else 0%nat.
Proof.
  induction records as [|r records IH]; intros Hf; cbn [default_first_launchable]; [split_and!; set_solver|].
  rewrite filter_default in Hf. destruct (IsDefault r) eqn:Ed; [done|]. specialize (IH Hf).
  cbn zeta in *. destruct (Launchable r) eqn:El.
  - rewrite !fmap_cons, filter_default. cbn. rewrite El, Hf. split_and!; [done|done| |done].
    intros r' [->|Hr]%elem_of_cons Hd; [done|].
    assert (r' ∈ filter is_default records) as Hin by (apply list_elem_of_filter; done).
    rewrite Hf in Hin. set_solver.
  - destruct IH as (Hl & Hi & Hd & Hc). rewrite !fmap_cons, filter_default. cbn.
    rewrite Ed, El, Hl, Hi. split_and!; [done|done| |done].
    intros r' [->|Hr]%elem_of_cons; [congruence | by apply Hd].
Qed.

Lemma normalizeRecords_ids now records :
  ID <$> normalizeRecords now records = (fun r => TrimSpace (ID r)) <$> records.
Proof.
  unfold normalizeRecords. pose proof (keep_first_spec now records false) as Hk.
  destruct (keep_first_default now false records) as [[] records']; destruct Hk as (Hl & Hi & Hd & Hs & Hc); [done|].
  cbn in Hc. apply nil_length_inv in Hc. destruct (default_first_spec _ Hc) as (_ & Hi' & _). by rewrite Hi'.
Qed.
Lemma normalizeRecords_launchable now records :
  Launchable <$> normalizeRecords now records = Launchable <$> records.
Proof.
  unfold normalizeRecords. pose proof (keep_first_spec now records false) as Hk.
  destruct (keep_first_default now false records) as [[] records']; destruct Hk as (Hl & Hi & Hd & Hs & Hc); [done|].
  cbn in Hc. apply nil_length_inv in Hc. destruct (default_first_spec _ Hc) as (Hl' & _). by rewrite Hl'.
Qed.

Lemma normalizeRecords_default now records : one_default (normalizeRecords now records).
Proof.
  unfold normalizeRecords. pose proof (keep_first_spec now records false) as Hk.
  destruct (keep_first_default now false records) as [[] records']; destruct Hk as (Hl & Hi & Hd & Hs & Hc).
  - split; [done|]. rewrite Hc, (existsb_default records'); [done | done |].
    intros E. by rewrite E in Hc.
  - cbn in Hc. apply nil_length_inv in Hc. destruct (default_first_spec _ Hc) as (Hl' & _ & Hd' & Hc').
    split; [done|]. by rewrite Hc', (existsb_launchable _ _ Hl').
Qed.

(** * Identifiers *)

(** The identifiers are written without surrounding white space, are not empty
    and are not shared. *)
Record sound_ids (ids : list string) : Prop := {
  ids_distinct : NoDup ids;
  ids_trimmed : forall id, id ∈ ids -> TrimSpace id = id /\ id <> "";
}.

#[export] Instance sound_ids_dec ids : Decision (sound_ids ids).
Proof.
  destruct (decide (NoDup ids /\ Forall (fun id => TrimSpace id = id /\ id <> "") ids)) as [H|H]; [left|right].
  - destruct H as [Hn Hf]. split; [done|]. by apply Forall_forall.
  - intros [Hn Ht]. apply H. split; [done|]. by apply Forall_forall.
Defined.

Lemma sublist_in {A} (x : A) a b : x ∈ a -> a `sublist_of` b -> x ∈ b.
Proof. intros Hx Hs. eapply elem_of_submseteq; [exact Hx | by apply sublist_submseteq]. Qed.

Lemma trimmed_ids ids : sound_ids ids -> TrimSpace <$> ids = ids.
Proof.
  intros [_ Ht]. rewrite <- (list_fmap_id ids) at 2. apply list_fmap_ext.
  intros i x Hx. by apply Ht, list_elem_of_lookup_2 with i.
Qed.

Lemma trim_fmap (records : list ProfileRecord) :
  (fun r => TrimSpace (ID r)) <$> records = TrimSpace <$> (ID <$> records).
Proof. by rewrite <- list_fmap_compose. Qed.

Lemma indexOf_found records id i : indexOfProfile records id = Some i ->
  exists r, records !! i = Some r /\ ID r = TrimSpace id.
Proof.
  revert i. induction records as [|r records IH]; intros i Hi; cbn in Hi; [done|].
  case_bool_decide; [injection Hi as <-; eauto|].
  apply fmap_Some in Hi as (j & Hj & ->). destruct (IH j Hj) as (r' & ? & ?). eauto.
Qed.
Lemma indexOf_none records id : indexOfProfile records id = None <-> TrimSpace id ∉ ID <$> records.
Proof.
  induction records as [|r records IH]; cbn; [set_solver|].
  case_bool_decide as E.
  - split; [done|]. rewrite E. set_solver.
  - rewrite fmap_None, IH, not_elem_of_cons. naive_solver.
Qed.

(** ** New identifiers *)
Definition dashed (c : ascii) : Prop := alphanumeric c = true \/ c = "-"%char.

Lemma dash_runs_dashed l : forall b, Forall dashed (dash_runs b l).
Proof.
  induction l as [|c l IH]; intros b; cbn [dash_runs]; [constructor|].
  destruct (alphanumeric c) eqn:E; [constructor; [by left | apply IH]|].
  destruct b; [apply IH|]. constructor; [by right | apply IH].
Qed.

Lemma dashed_not_space l : Forall dashed l -> lead_left l = O /\ lead_right l = O.
Proof.
  intros Hl. destruct l as [|c l]; [done|]. apply Forall_cons in Hl as [Hc _].
  assert (45 <= code c <= 122) as Hr.
  { destruct Hc as [Hc | ->]; [|by vm_compute]. unfold alphanumeric in Hc. bool_to_prop. destruct Hc; bool_to_prop; lia. }
  split; unfold lead, ascii_space, space2, space3; destruct l as [|d [|e l]];
    repeat match goal with |- context [if ?b then _ else _] => destruct b eqn:?E end; try done;
    bool_to_prop; lia.
Qed.

Lemma TrimSpace_dashed s : Forall dashed (of_string s) -> TrimSpace s = s.
Proof.
  intros Hs. unfold TrimSpace, trim_bytes. rewrite trim_left_id by by apply dashed_not_space.
  unfold trim_right. rewrite trim_left_rev_id; [by rewrite reverse_involutive, to_of|].
  by apply dashed_not_space, Forall_reverse.
Qed.

Lemma profileID_dashed fileName : Forall dashed (of_string (profileIDFromFileName fileName)).
Proof.
  unfold profileIDFromFileName. set (l := dash_runs _ _).
  assert (Forall dashed l) as Hl by apply dash_runs_dashed.
  destruct (Trim_spec (to_string l) "-") as (pre & post & E & _). rewrite of_to in E.
  rewrite E, !Forall_app in Hl. tauto.
Qed.

Lemma FormatInt_digits n : 0 <= n -> of_string (FormatInt n) = dec_digits n.
Proof. intros Hn. unfold FormatInt. rewrite of_to. by destruct (Z.ltb_spec n 0); [lia|]. Qed.
Lemma FormatInt_inj n m : 0 <= n -> 0 <= m -> FormatInt n = FormatInt m -> n = m.
Proof.
  intros Hn Hm E. apply (f_equal of_string) in E. rewrite !FormatInt_digits in E by done.
  destruct (dec_digits_spec n Hn) as (_ & _ & Hvn), (dec_digits_spec m Hm) as (_ & _ & Hvm). congruence.
Qed.

(** The names the loop tries: the identifier itself, then with -2, -3, ... *)
Definition candidate (baseID : string) (k : nat) : string :=
  if (k =? 0)%nat then baseID else baseID +:+ "-" +:+ FormatInt (Z.of_nat k + 1).

Lemma candidate_dashed baseID k : Forall dashed (of_string baseID) -> Forall dashed (of_string (candidate baseID k)).
Proof.
  intros Hb. unfold candidate. destruct (k =? 0)%nat; [done|].
  rewrite !of_string_app, !Forall_app, FormatInt_digits by lia. split_and!; [done| |].
  - constructor; [by right | constructor].
  - destruct (dec_digits_spec (Z.of_nat k + 1) ltac:(lia)) as (_ & Hd & _).
    eapply Forall_impl; [exact Hd|]. intros c [? ?]. left. unfold alphanumeric.
    apply orb_true_iff. right. apply andb_true_iff. lia.
Qed.

Lemma string_app_inv (a b c : string) : a +:+ b = a +:+ c -> b = c.
Proof. intros E. by simplify_eq. Qed.

Lemma candidate_inj baseID j k : candidate baseID j = candidate baseID k -> j = k.
Proof.
  unfold candidate. destruct (Nat.eqb_spec j 0) as [->|], (Nat.eqb_spec k 0) as [->|]; intros E; [done| | |].
  - exfalso. apply (f_equal (length ∘ of_string)) in E. unfold compose in E.
    rewrite !of_string_app, !length_app in E. change (length (of_string "-")) with 1%nat in E. lia.
  - exfalso. apply (f_equal (length ∘ of_string)) in E. unfold compose in E.
    rewrite !of_string_app, !length_app in E. change (length (of_string "-")) with 1%nat in E. lia.
  - apply string_app_inv, string_app_inv, FormatInt_inj in E; lia.
Qed.

Lemma next_candidate_some fuel records baseID : forall k c,
  next_candidate fuel records baseID (candidate baseID k) (Z.of_nat k + 2) = Some c ->
  (exists j, c = candidate baseID j) /\ TrimSpace c ∉ ID <$> records.
Proof.
  induction fuel as [|fuel IH]; intros k c E; [done|]. cbn [next_candidate] in E.
  destruct (indexOfProfile records (candidate baseID k)) eqn:Ei.
  - apply (IH (S k)). rewrite <- E. f_equal; [|lia].
    unfold candidate. cbn [Nat.eqb]. do 3 f_equal. lia.
  - injection E as <-. split; [eauto|]. by apply indexOf_none.
Qed.
Lemma next_candidate_none fuel records baseID : Forall dashed (of_string baseID) -> forall k,
  next_candidate fuel records baseID (candidate baseID k) (Z.of_nat k + 2) = None ->
  forall j, (k <= j < k + fuel)%nat -> candidate baseID j ∈ ID <$> records.
Proof.
  intros Hb. induction fuel as [|fuel IH]; intros k E j Hj; [lia|]. cbn [next_candidate] in E.
  destruct (indexOfProfile records (candidate baseID k)) as [i|] eqn:Ei; [|done].
  destruct (decide (j = k)) as [->|].
  - apply indexOf_found in Ei as (r & Hr & Hid). rewrite TrimSpace_dashed in Hid by by apply candidate_dashed.
    rewrite <- Hid. by eapply list_elem_of_fmap_2, list_elem_of_lookup_2.
  - apply (IH (S k)); [|lia]. rewrite <- E. f_equal; [|lia].
    unfold candidate. cbn [Nat.eqb]. do 3 f_equal. lia.
Qed.

(** One more name than there are records is enough. *)
Lemma candidate_found records baseID : Forall dashed (of_string baseID) ->
  next_candidate (S (length records)) records baseID baseID 2 <> None.
Proof.
  intros Hb E. pose proof (next_candidate_none _ _ _ Hb 0 E) as Hin. cbn in Hin.
  assert (candidate baseID <$> seq 0 (S (length records)) ⊆+ ID <$> records) as Hsub.
  { apply NoDup_submseteq.
    - apply NoDup_fmap_2; [intros j k; apply candidate_inj | apply NoDup_seq].
    - intros x (j & -> & Hj)%list_elem_of_fmap. apply elem_of_seq in Hj. apply Hin. lia. }
  apply submseteq_length in Hsub. rewrite !length_fmap, length_seq in Hsub. lia.
Qed.

Lemma uniqueProfileID_fresh newID records fileName :
  let fresh := "profile-" +:+ slice_to newID 8 in
  TrimSpace fresh = fresh -> fresh ∉ ID <$> records ->
  let id := uniqueProfileID newID records fileName in
  id ∉ ID <$> records /\ TrimSpace id = id /\ id <> "".
Proof.
  intros fresh Ht Hf. unfold uniqueProfileID.
  pose proof (candidate_found records _ (profileID_dashed fileName)) as Hc.
  destruct (next_candidate _ records _ _ 2) as [c|] eqn:E; [|done].
  apply (next_candidate_some _ _ _ 0) in E as ((j & ->) & Hn).
  rewrite TrimSpace_dashed in Hn by apply candidate_dashed, profileID_dashed.
  case_bool_decide as Hb; [done|]. split_and!; [done| |done].
  apply TrimSpace_dashed, candidate_dashed, profileID_dashed.
Qed.

(** ** Merging keeps identifiers apart *)
Section Merge.
Context (now : Z) (stored : list ProfileRecord).
Hypothesis stored_ids : sound_ids (ID <$> stored).

Lemma stored_id i r : stored !! i = Some r -> TrimSpace (ID r) = ID r /\ ID r <> "".
Proof using Type*.
  intros Hr. apply (ids_trimmed _ stored_ids).
  by eapply list_elem_of_fmap_2, list_elem_of_lookup_2.
Qed.
Lemma stored_same i j r r' : stored !! i = Some r -> stored !! j = Some r' -> ID r = ID r' -> i = j.
Proof using Type*.
  intros Hi Hj E. eapply NoDup_lookup; [apply (ids_distinct _ stored_ids)| |];
    rewrite list_lookup_fmap; [by rewrite Hi | rewrite Hj; cbn; by rewrite E].
Qed.

Lemma match_stored_some seed used k rest i r :
  match_stored seed used k rest = Some (i, r) ->
  (exists j, i = (k + j)%nat /\ rest !! j = Some r) /\ i ∉ used /\ (ID r = ID seed \/ ID r = "").
Proof using Type.
  revert k. induction rest as [|x rest IH]; intros k E; cbn [match_stored] in E; [done|].
  assert (match_stored seed used (S k) rest = Some (i, r) -> (exists j, i = (k + j)%nat /\ (x :: rest) !! j = Some r) /\
            i ∉ used /\ (ID r = ID seed \/ ID r = "")) as Hnext.
  { intros E'. destruct (IH (S k) E') as ((j & -> & Hj) & ?). split; [|done]. exists (S j). split; [lia|done]. }
  case_bool_decide; [by apply Hnext|].
  destruct (bool_decide (ID x = ID seed) || (bool_decide (ID x = "") && EqualFold (FileName x) (FileName seed))) eqn:Ex;
    [|by apply Hnext].
  injection E as <- <-. split; [exists 0%nat; split; [lia|done]|]. split; [done|].
  bool_to_prop. destruct Ex as [Ex|Ex]; bool_to_prop; auto.
Qed.
Lemma match_stored_none seed used k rest j r :
  match_stored seed used k rest = None -> rest !! j = Some r -> (k + j)%nat ∉ used -> ID r <> ID seed.
Proof using Type.
  revert k j. induction rest as [|x rest IH]; intros k j E Hj Hu; [done|]. cbn [match_stored] in E.
  destruct j as [|j]; cbn in Hj.
  - injection Hj as ->. rewrite Nat.add_0_r in Hu. rewrite bool_decide_eq_false_2 in E by done.
    case_bool_decide; done.
  - case_bool_decide; [apply (IH (S k) j); [done|done|by rewrite Nat.add_succ_comm]|].
    destruct (_ || _); [done|]. apply (IH (S k) j); [done|done|by rewrite Nat.add_succ_comm].
Qed.

Lemma merge_seeds_spec seeds : (forall id, id ∈ ID <$> seeds -> TrimSpace id = id /\ id <> "") -> forall used,
  let '(merged, used') := merge_seeds now stored seeds used in
  ID <$> merged = ID <$> seeds /\ used ⊆ used' /\
  forall i r, stored !! i = Some r -> ID r ∈ ID <$> seeds -> i ∈ used'.
Proof using Type*.
  induction seeds as [|seed seeds IH]; intros Hs used; cbn [merge_seeds]; [split_and!; set_solver|].
  assert (TrimSpace (ID seed) = ID seed /\ ID seed <> "") as [Ht Hne] by (apply Hs; set_solver).
  assert (forall id, id ∈ ID <$> seeds -> TrimSpace id = id /\ id <> "") as Hs' by (intros; apply Hs; set_solver).
  destruct (match_stored seed used 0 stored) as [[i r]|] eqn:Em.
  - specialize (IH Hs' (i :: used)). destruct (merge_seeds now stored seeds (i :: used)) as [merged used'].
    destruct IH as (Hi & Hu & Hall). apply match_stored_some in Em as ((j & -> & Hj) & _ & Hid).
    cbn in Hj. destruct (stored_id _ _ Hj) as [Hrt Hrn]. destruct Hid as [Hid|]; [|done].
    split_and!.
    + rewrite !fmap_cons, Hi. f_equal. cbn [normalizeRecord merge_record ID FirstNonEmpty].
      unfold blank. rewrite Hrt, bool_decide_eq_false_2 by done. cbn [negb]. by rewrite Hrt.
    + set_solver.
    + intros i' r' Hr' Hin. rewrite fmap_cons in Hin. apply elem_of_cons in Hin as [Heq|Hin].
      * assert (i' = j) as -> by (eapply stored_same; [done..|congruence]). apply Hu. set_solver.
      * by apply (Hall i' r').
  - specialize (IH Hs' used). destruct (merge_seeds now stored seeds used) as [merged used'].
    destruct IH as (Hi & Hu & Hall). split_and!.
    + rewrite !fmap_cons, Hi. f_equal. exact Ht.
    + done.
    + intros i' r' Hr' Hin. rewrite fmap_cons in Hin. apply elem_of_cons in Hin as [Heq|Hin].
      * destruct (decide (i' ∈ used)); [set_solver|]. by destruct (match_stored_none _ _ _ _ _ _ Em Hr' n).
      * by apply (Hall i' r').
Qed.

Lemma merge_rest_spec used rest : (forall r, r ∈ rest -> TrimSpace (ID r) = ID r) -> forall k,
  ID <$> merge_rest now used k rest `sublist_of` ID <$> rest /\
  forall id, id ∈ ID <$> merge_rest now used k rest -> exists j r, rest !! j = Some r /\ ID r = id /\ (k + j)%nat ∉ used.
Proof using Type.
  clear stored_ids stored. induction rest as [|x rest IH]; intros Ht k; cbn [merge_rest]; [split; [constructor|set_solver]|].
  destruct (IH ltac:(set_solver) (S k)) as (Hsub & Hin).
  assert (forall id, id ∈ ID <$> merge_rest now used (S k) rest ->
            exists j r, (x :: rest) !! j = Some r /\ ID r = id /\ (k + j)%nat ∉ used) as Hin'.
  { intros id (j & r & ? & ? & ?)%Hin. exists (S j), r. by rewrite <- Nat.add_succ_comm. }
  assert (TrimSpace (ID x) = ID x) as Hx by (apply Ht; set_solver).
  case_bool_decide as Hu.
  - split; [by apply sublist_cons | done].
  - rewrite !fmap_cons. cbn [normalizeRecord ID]. rewrite Hx. split; [by apply sublist_skip|].
    intros id [->|Hid]%elem_of_cons; [exists 0%nat, x; by rewrite Nat.add_0_r | by apply Hin'].
Qed.

Lemma merged_ids seeds : sound_ids (ID <$> seeds) ->
  let '(merged, used) := merge_seeds now stored seeds [] in
  sound_ids (ID <$> normalizeRecords now (merged ++ merge_rest now used 0 stored)).
Proof using Type*.
  intros [Hnd Htr]. pose proof (merge_seeds_spec seeds Htr []) as Hm.
  destruct (merge_seeds now stored seeds []) as [merged used]. destruct Hm as (Hi & _ & Hall).
  destruct stored_ids as [Hsn Hst].
  destruct (merge_rest_spec used stored) with (k := 0%nat) as (Hsub & Hin).
  { intros r Hr. by apply Hst, list_elem_of_fmap_2. }
  assert (sound_ids (ID <$> merged ++ merge_rest now used 0 stored)) as Hok.
  { rewrite fmap_app, Hi. split.
    - apply NoDup_app. split_and!; [done| |by eapply sublist_NoDup].
      intros id Hid (j & r & Hj & <- & Hju)%Hin. by apply Hju, (Hall j r).
    - intros id [Hid|Hid]%elem_of_app; [by apply Htr|]. apply Hst. by eapply sublist_in. }
  by rewrite normalizeRecords_ids, trim_fmap, trimmed_ids.
Qed.
End Merge.

(** ** The edits keep identifiers apart *)
Lemma sound_sublist ids ids' : sound_ids ids -> ids' `sublist_of` ids -> sound_ids ids'.
Proof.
  intros [Hn Ht] Hs. split; [by eapply sublist_NoDup|].
  intros id Hid. apply Ht. by eapply sublist_in.
Qed.

(** Records as the package declares them: identifier and launchability. *)
Definition shape (records : list ProfileRecord) : list (string * bool) :=
  (fun r => (ID r, Launchable r)) <$> records.

Lemma shape_ids a b : shape a = shape b -> ID <$> a = ID <$> b.
Proof.
  intros E. apply (f_equal (fmap fst)) in E. unfold shape in E. by rewrite <- !list_fmap_compose in E.
Qed.
Lemma shape_split a b : ID <$> a = ID <$> b -> Launchable <$> a = Launchable <$> b -> shape a = shape b.
Proof.
  revert b. induction a as [|x a IH]; intros [|y b] Hi Hl; try done.
  injection Hi as Hi1 Hi2. injection Hl as Hl1 Hl2.
  unfold shape in *. cbn. rewrite Hi1, Hl1. f_equal. by apply IH.
Qed.
Lemma normalizeRecords_shape now records : sound_ids (ID <$> records) ->
  shape (normalizeRecords now records) = shape records.
Proof.
  intros Hs. apply shape_split; [|apply normalizeRecords_launchable].
  by rewrite normalizeRecords_ids, trim_fmap, trimmed_ids.
Qed.

Section Edits.
Context (unmarshal_refs : string -> goerr + list SecretReference) (unmarshal : string -> option goerr)
  (error_text : goerr -> string).
Notation applyUpsertRequest := (applyUpsertRequest unmarshal_refs unmarshal error_text).

Lemma applyUpsert_shape now record request current currentID record' :
  applyUpsertRequest now record request current currentID = inr record' ->
  ID record' = ID record /\ Launchable record' = Launchable record.
Proof using Type. unfold Profiles.applyUpsertRequest. destruct (validateRecord _ _ _ _ _); [discriminate|]. by intros <-%(inj inr). Qed.

Lemma create_shape now newID request records records' :
  create_record unmarshal_refs unmarshal error_text now newID request records = inr records' ->
  exists record, records' = records ++ [record] /\
    ID record = uniqueProfileID newID records (ReqFileName request) /\ Launchable record = true.
Proof using Type.
  unfold create_record. destruct (applyUpsertRequest _ _ _ _ _) as [|record] eqn:E; [done|].
  intros [= <-]. apply applyUpsert_shape in E as [Hi Hl]. by exists record.
Qed.

Lemma update_shape now profileID request records records' :
  update_record unmarshal_refs unmarshal error_text now profileID request records = inr records' ->
  shape records' = shape records.
Proof using Type.
  unfold update_record. destruct (indexOfProfile records profileID) as [i|]; [|done].
  destruct (records !! i) as [r|] eqn:Hr; [|done].
  destruct (applyUpsertRequest _ _ _ _ _) as [|r'] eqn:E; [done|]. intros [= <-].
  apply applyUpsert_shape in E as [Hi Hl]. unfold shape. rewrite list_fmap_insert.
  apply list_insert_id. rewrite list_lookup_fmap, Hr. cbn. f_equal.
  destruct (negb (Launchable r')); cbn; congruence.
Qed.

Lemma delete_shape profileID records records' : delete_record profileID records = inr records' ->
  exists i r, indexOfProfile records profileID = Some i /\ records !! i = Some r /\ Launchable r = true /\
    records' = delete i records.
Proof using Type.
  unfold delete_record. destruct (indexOfProfile records profileID) as [i|]; [|done].
  destruct (records !! i) as [r|] eqn:Hr; cbn; [|done]. destruct (Launchable r) eqn:Hl; cbn; [|done].
  intros [= <-]. exists i, r. by rewrite delete_take_drop.
Qed.

Lemma make_default_shape profileID records records' : make_default profileID records = inr records' ->
  shape records' = shape records.
Proof using Type.
  unfold make_default. destruct (indexOfProfile records profileID) as [i|]; [|done].
  destruct (negb _); [done|]. intros [= <-]. unfold shape. by rewrite <- list_fmap_compose.
Qed.

Lemma create_sound now newID request records records' :
  let fresh := "profile-" +:+ slice_to newID 8 in
  TrimSpace fresh = fresh -> fresh ∉ ID <$> records -> sound_ids (ID <$> records) ->
  create_record unmarshal_refs unmarshal error_text now newID request records = inr records' ->
  sound_ids (ID <$> records').
Proof using Type.
  intros fresh Ht Hf [Hn Htr] (r & -> & Hi & _)%create_shape.
  destruct (uniqueProfileID_fresh newID records (ReqFileName request) Ht Hf) as (Hu & Hut & Hne).
  rewrite fmap_app, fmap_cons, Hi. split.
  - apply NoDup_app. split_and!; [done|set_solver|apply NoDup_singleton].
  - intros id [Hid|Hid]%elem_of_app; [by apply Htr|].
    apply list_elem_of_singleton in Hid as ->. done.
Qed.
Lemma delete_sound profileID records records' : sound_ids (ID <$> records) ->
  delete_record profileID records = inr records' -> sound_ids (ID <$> records').
Proof using Type.
  intros Hs (i & r & _ & _ & _ & ->)%delete_shape. eapply sound_sublist; [done|].
  apply fmap_sublist, sublist_delete.
Qed.
Lemma shape_sound records records' : sound_ids (ID <$> records) -> shape records' = shape records ->
  sound_ids (ID <$> records').
Proof using Type. intros Hs E. by rewrite (shape_ids _ _ E). Qed.
End Edits.

(** ** Normalizing twice *)

(** A record as normalizing leaves it. *)
Definition normal (r : ProfileRecord) : Prop := UpdatedAt r <> 0 /\ forall now, normalizeRecord now r = r.
(** The scope of the record survives being trimmed. *)
Definition plain_scope (r : ProfileRecord) : Prop :=
  TrimSpace (Scope r) <> "" \/ blank (scopeFromFileName (TrimSpace (FileName r))) = true.

Lemma compact_idemp refs : compactSecretRefs (compactSecretRefs refs) = compactSecretRefs refs.
Proof.
  induction refs as [|ref refs IH]; [done|]. unfold compactSecretRefs in *. cbn [omap list_omap].
  destruct (bool_decide (TrimSpace (Key ref) = "") && bool_decide (TrimSpace (Provider ref) = "") &&
            bool_decide (TrimSpace (Ref ref) = "")) eqn:E; [done|].
  cbn [omap list_omap Key Provider Ref]. rewrite !TrimSpace_idemp, E. f_equal. exact IH.
Qed.

Lemma first_of_two a b : FirstNonEmpty [a; b] = if blank a then if blank b then "" else b else a.
Proof. cbn. by destruct (blank a), (blank b). Qed.
Lemma blank_empty : blank "" = true.
Proof. done. Qed.
Lemma blank_trim s : blank (TrimSpace s) = blank s.
Proof. unfold blank. by rewrite TrimSpace_idemp. Qed.
Lemma blank_true s : blank s = true -> TrimSpace s = "".
Proof. unfold blank. apply bool_decide_eq_true_1. Qed.

Lemma scope_plain now r : plain_scope (normalizeRecord now r).
Proof.
  unfold plain_scope. cbn [normalizeRecord Scope FileName]. rewrite TrimSpace_idemp, first_of_two.
  destruct (blank (TrimSpace (Scope r))) eqn:Eb.
  - destruct (blank (scopeFromFileName (TrimSpace (FileName r)))) eqn:Es; [by right|].
    left. by apply blank_false.
  - left. apply blank_false in Eb. by rewrite TrimSpace_idemp in *.
Qed.

Lemma normalizeRecord_normal now r : now <> 0 -> plain_scope r -> normal (normalizeRecord now r).
Proof.
  intros Hn Hs. assert (forall n', nonZeroTime (nonZeroTime (UpdatedAt r) now) n' = nonZeroTime (UpdatedAt r) now /\
    nonZeroTime (UpdatedAt r) now <> 0) as Ht.
  { intros n'. unfold nonZeroTime, IsZero. destruct (Z.eqb_spec (UpdatedAt r) 0) as [E|E];
      [destruct (Z.eqb_spec now 0); done | destruct (Z.eqb_spec (UpdatedAt r) 0); done]. }
  split; [by apply (Ht 0)|]. intros n'. unfold normalizeRecord at 1. destruct (Ht n') as [Ht' _].
  cbn [normalizeRecord ID Name FileName Description Scope YAML SecretRefs IsDefault ExtendsID Launchable UpdatedAt].
  rewrite !TrimSpace_idemp, compact_idemp, Ht'. unfold normalizeRecord. f_equal.
  rewrite !first_of_two, (blank_trim (Scope r)). destruct (blank (Scope r)) eqn:Eb.
  - destruct Hs as [Hs|Hs]; [by apply blank_true in Eb|]. by rewrite !Hs.
  - by rewrite !blank_trim, Eb, TrimSpace_idemp.
Qed.

Lemma normal_default b r : normal r -> normal (set_default b r).
Proof.
  intros [Hu Hn]. split; [done|]. intros now.
  change (normalizeRecord now (set_default b r)) with (set_default b (normalizeRecord now r)). by rewrite Hn.
Qed.
Lemma normal_plain r : normal r -> plain_scope r.
Proof. intros [_ Hn]. rewrite <- (Hn 0). apply scope_plain. Qed.

Lemma keep_first_forall now (P : ProfileRecord -> Prop) records : (forall b r, P r -> P (set_default b r)) ->
  Forall (fun r => P (normalizeRecord now r)) records -> forall seen, Forall P (keep_first_default now seen records).2.
Proof.
  intros Hb. induction 1 as [|r records Hr _ IH]; intros seen; cbn [keep_first_default]; [constructor|].
  pose proof (IH true) as IHt. specialize (IH seen).
  destruct (negb _); [|destruct (_ && _)]; [destruct (keep_first_default now seen records)
    |destruct (keep_first_default now true records)|destruct (keep_first_default now seen records)];
    cbn [snd] in *; constructor; auto. by case_match; auto.
Qed.
Lemma default_first_forall (P : ProfileRecord -> Prop) records : (forall b r, P r -> P (set_default b r)) ->
  Forall P records -> Forall P (default_first_launchable records).
Proof.
  intros Hb. induction 1 as [|r records Hr Hrs IH]; cbn [default_first_launchable]; [constructor|].
  destruct (Launchable r); constructor; auto.
Qed.
Lemma normalizeRecords_forall now (P : ProfileRecord -> Prop) records : (forall b r, P r -> P (set_default b r)) ->
  Forall (fun r => P (normalizeRecord now r)) records -> Forall P (normalizeRecords now records).
Proof.
  intros Hb Hr. unfold normalizeRecords. pose proof (keep_first_forall now P records Hb Hr false) as Hk.
  destruct (keep_first_default now false records) as [[] rs]; [done|]. by apply default_first_forall.
Qed.

Lemma normalizeRecords_normal now records : now <> 0 -> Forall plain_scope records ->
  Forall normal (normalizeRecords now records).
Proof.
  intros Hn Hr. apply normalizeRecords_forall; [apply normal_default|].
  eapply Forall_impl; [exact Hr|]. intros r. by apply normalizeRecord_normal.
Qed.
Lemma normalizeRecords_plain now records : Forall plain_scope (normalizeRecords now records).
Proof.
  apply normalizeRecords_forall; [done|]. apply Forall_true. intros r. apply scope_plain.
Qed.

(** Records as an operation leaves them: normalizing changes nothing. *)
Definition settled (records : list ProfileRecord) : Prop := Forall normal records /\ one_default records.

Lemma set_default_same r b : IsDefault r = b -> set_default b r = r.
Proof. intros <-. by destruct r. Qed.

Lemma keep_first_settled now records : Forall normal records ->
  (forall r, r ∈ records -> IsDefault r = true -> Launchable r = true) -> forall seen : bool,
  (length (filter is_default records) <= if seen then 0 else 1)%nat ->
  keep_first_default now seen records = (seen || negb (bool_decide (filter is_default records = [])), records).
Proof.
  induction 1 as [|r records [Hu Hr] _ IH]; intros Hd seen Hc; cbn [keep_first_default].
  { cbn. by rewrite orb_false_r. }
  assert (forall r', r' ∈ records -> IsDefault r' = true -> Launchable r' = true) as Hd' by set_solver.
  rewrite Hr, filter_default in *. destruct (IsDefault r) eqn:Ed.
  - rewrite (Hd r) by (done || set_solver). destruct seen; cbn in Hc; [lia|]. cbn.
    rewrite (IH Hd' true) by (cbn; lia). done.
  - cbn [negb andb]. destruct (Launchable r) eqn:El; cbn [negb]; rewrite (IH Hd' seen) by done; [done|].
    by rewrite set_default_same.
Qed.
Lemma default_first_none records : existsb Launchable records = false -> default_first_launchable records = records.
Proof.
  induction records as [|r records IH]; [done|]. cbn. destruct (Launchable r); [done|]. cbn. intros E. by rewrite IH.
Qed.

Lemma settled_fixed now records : settled records -> normalizeRecords now records = records.
Proof.
  intros [Hn [Hd Hc]]. unfold normalizeRecords.
  rewrite (keep_first_settled now records Hn Hd false) by (rewrite Hc; destruct (existsb _ _); lia).
  cbn [orb]. case_bool_decide as E; cbn [negb]; [|done].
  apply default_first_none. rewrite E in Hc. by destruct (existsb _ _).
Qed.
Lemma settled_normalize now records : now <> 0 -> Forall plain_scope records ->
  settled (normalizeRecords now records).
Proof. intros ??. split; [by apply normalizeRecords_normal | apply normalizeRecords_default]. Qed.

(** ** Merging what an operation wrote *)
Section Remerge.
Context (now : Z) (stored : list ProfileRecord).
Hypothesis stored_ids : sound_ids (ID <$> stored).
Hypothesis stored_normal : Forall normal stored.

Lemma match_stored_at seed used i r : stored !! i = Some r -> i ∉ used -> ID r = ID seed -> 
  match_stored seed used 0 stored = Some (i, r).
Proof using stored_ids.
  intros Hr Hu Hid. destruct (match_stored seed used 0 stored) as [[j r']|] eqn:E.
  - apply match_stored_some in E as ((k & -> & Hk) & _ & Hj). cbn in *.
    destruct (stored_id _ stored_ids _ _ Hk) as [_ Hne]. destruct Hj as [Hj|]; [|done].
    assert (k = i) as -> by (eapply stored_same; [done..|congruence]). congruence.
  - by destruct (match_stored_none _ _ _ _ _ _ E Hr Hu).
Qed.

Lemma merge_record_same r seed i : stored !! i = Some r -> Launchable r = Launchable seed ->
  normalizeRecord now (merge_record r seed) = r.
Proof using Type*.
  intros Hr Hl. destruct (stored_id _ stored_ids _ _ Hr) as [Ht Hne].
  destruct (Forall_lookup_1 _ _ _ _ stored_normal Hr) as [Hu Hn]. rewrite <- (Hn now) at 2. f_equal.
  unfold merge_record. rewrite first_of_two. unfold blank at 1. rewrite Ht, bool_decide_eq_false_2 by done.
  unfold nonZeroTime, IsZero. destruct (Z.eqb_spec (UpdatedAt r) 0); [done|]. rewrite <- Hl. by destruct r.
Qed.

Lemma remerge_seeds S1 : forall P S2 seeds used, stored = P ++ S1 ++ S2 -> shape S1 = shape seeds ->
  (forall i, i ∈ used <-> (i < length P)%nat) ->
  exists used', merge_seeds now stored seeds used = (S1, used') /\
    forall i, i ∈ used' <-> (i < length P + length S1)%nat.
Proof using Type*.
  induction S1 as [|r S1 IH]; intros P S2 [|seed seeds] used Hs Hsh Hu; try done.
  { exists used. split; [done|]. intros i. rewrite Hu. cbn. lia. }
  unfold shape in Hsh. rewrite !fmap_cons in Hsh. injection Hsh as Hid Hl Hsh.
  assert (stored !! length P = Some r) as Hr by (rewrite Hs; by apply list_lookup_middle).
  cbn [merge_seeds]. rewrite (match_stored_at seed used (length P) r) by (done || (rewrite Hu; lia)).
  destruct (IH (P ++ [r]) S2 seeds (length P :: used)) as (used' & -> & Hu').
  { by rewrite <- app_assoc. }
  { done. }
  { intros i. rewrite elem_of_cons, Hu, length_app. cbn. lia. }
  exists used'. rewrite (merge_record_same r seed _ Hr Hl). split; [done|].
  intros i. rewrite Hu', length_app. cbn. lia.
Qed.

Lemma remerge_rest used : forall rest k A, A ++ rest `suffix_of` stored ->
  (forall i, i ∈ used <-> (i < k + length A)%nat) -> merge_rest now used k (A ++ rest) = rest.
Proof using stored_normal.
  intros rest k A. revert k. induction A as [|a A IH]; intros k Hsuf Hu; cbn [app].
  - assert (forall k', (k <= k')%nat -> merge_rest now used k' rest = rest) as Hrest; [|by apply Hrest].
    assert (Forall normal rest) as Hn.
    { pose proof stored_normal as Hs. destruct Hsuf as [B HB]. rewrite HB in Hs. apply Forall_app in Hs. tauto. }
    clear Hsuf. induction Hn as [|r rest [_ Hr] _ IH]; intros k' Hk; cbn [merge_rest]; [done|].
    rewrite bool_decide_eq_false_2 by (rewrite Hu; cbn; lia). by rewrite Hr, IH by lia.
  - cbn [merge_rest]. rewrite bool_decide_eq_true_2 by (rewrite Hu; cbn; lia). apply IH.
    + destruct Hsuf as [B HB]. exists (B ++ [a]). by rewrite <- app_assoc.
    + intros i. rewrite Hu. cbn. lia.
Qed.
End Remerge.

Lemma remerge unmarshal_refs unmarshal_extends now definition document S1 S2 :
  let stored := S1 ++ S2 in
  document !! Suites.SuiteID definition = Some (mkSuiteDocument stored) -> stored <> [] -> settled stored ->
  sound_ids (ID <$> stored) ->
  shape S1 = shape (seedSuiteProfiles unmarshal_refs unmarshal_extends now definition) ->
  mergeSuiteProfiles unmarshal_refs unmarshal_extends now definition document = stored.
Proof.
  intros stored Hd Hne Hset Hids Hsh. unfold mergeSuiteProfiles. rewrite Hd. cbn [fmap option_fmap option_map default id DocProfiles].
  rewrite bool_decide_eq_false_2 by done. destruct Hset as [Hn Ho].
  destruct (remerge_seeds now stored Hids Hn S1 [] S2 _ [] eq_refl Hsh) as (used & -> & Hu).
  { intros i. cbn. split; [set_solver|lia]. }
  assert (merge_rest now used 0 stored = S2) as ->; [|by apply settled_fixed].
  apply (remerge_rest now stored Hn used S2 0 S1); [done|]. intros i. rewrite Hu. cbn. lia.
Qed.

(** The profile that is shown as the default one. *)
Lemma defaultProfile_spec records : one_default records -> existsb Launchable records = true ->
  exists r, r ∈ records /\ Launchable r = true /\ IsDefault r = true /\ defaultProfile records = (ID r, FileName r).
Proof.
  intros [Hd Hc] He. rewrite He in Hc. clear He.
  induction records as [|r records IH]; [done|]. cbn [defaultProfile].
  rewrite filter_default in Hc. destruct (IsDefault r) eqn:E.
  - exists r. rewrite (Hd r) by set_solver. set_solver.
  - rewrite andb_false_r. destruct IH as (r' & ? & ? & ? & ?); [set_solver|done|]. exists r'. set_solver.
Qed.

(** ** Whether a profile becomes the default one *)
Definition launch_default (r : ProfileRecord) : bool := Launchable r && IsDefault r.

Lemma keep_first_seen now records : forall seen,
  (keep_first_default now seen records).1 = seen || existsb launch_default records.
Proof.
  induction records as [|r records IH]; intros seen; cbn [keep_first_default existsb]; [by rewrite orb_false_r|].
  pose proof (IH true) as IHt. specialize (IH seen). unfold launch_default at 1.
  cbn [normalizeRecord Launchable IsDefault]. destruct (Launchable r), (IsDefault r), seen; cbn in *;
    destruct (keep_first_default now true records), (keep_first_default now false records); done.
Qed.
Lemma keep_first_app now a b : forall seen, keep_first_default now seen (a ++ b) =
  let '(seen1, a') := keep_first_default now seen a in
  let '(seen2, b') := keep_first_default now seen1 b in (seen2, a' ++ b').
Proof.
  induction a as [|r a IH]; intros seen; cbn [keep_first_default app].
  { by destruct (keep_first_default now seen b). }
  destruct (negb _); [|destruct (_ && _)]; rewrite IH.
  all: destruct (keep_first_default now _ a) as [s1 a']; by destruct (keep_first_default now s1 b).
Qed.

(** A record added behind a launchable default is never the default one. *)
Lemma added_not_default now records r : one_default records -> existsb Launchable records = true ->
  exists before r', normalizeRecords now (records ++ [r]) = before ++ [r'] /\ IsDefault r' = false.
Proof.
  intros Hone He. destruct (defaultProfile_spec _ Hone He) as (d & Hd & Hl & Hi & _).
  assert (existsb launch_default records = true) as Hs.
  { apply existsb_exists. exists d. split; [by apply list_elem_of_In|]. unfold launch_default. by rewrite Hl, Hi. }
  pose proof (keep_first_seen now records false) as Hk. unfold normalizeRecords. rewrite keep_first_app.
  destruct (keep_first_default now false records) as [s1 a']. cbn [fst orb] in Hk. rewrite Hs in Hk. subst s1.
  cbn [keep_first_default]. destruct (Launchable (normalizeRecord now r)) eqn:El; cbn [negb].
  - rewrite andb_false_r. destruct (IsDefault (normalizeRecord now r)) eqn:Ed; cbn; eauto.
  - eauto.
Qed.

End ProfileRecords.
