(* ===== verification/ProfileService.v ===== *)
(** The profile service over a store that keeps its promises: its histories,
    what an edit writes and what the next read answers, and the stores of
    [store.go], which keep them, and of [cache.go], which does not when a write
    of the cache fails. *)
From Stdlib Require Import ZArith Lia Ascii.
From S2P Require Import Prelude GoStrings Runes Strconv Suites Profiles ProfileRecords.
Import GoStrings Runes Strconv Profiles ProfileRecords.

Module ProfileService.

(** * The service *)

(** A document in which the records stored for one suite have sound
    identifiers. *)
Definition sound_document (key : string) (document : Document) : Prop :=
  tidy document /\ forall suite, document !! key = Some suite -> sound_ids (ID <$> DocProfiles suite).

(** The profile files of a package give identifiers, each another one.  Nothing
    ensures this of a package: [ci.yaml] and [ci.yml] give the same one. *)
Definition file_ids (definition : Suites.SuiteDefinition) : list string :=
  (fun profile => profileIDFromFileName (Suites.FileName profile)) <$> Suites.Profiles definition.
Definition distinct_files (definition : Suites.SuiteDefinition) : Prop :=
  NoDup (file_ids definition) /\ "" ∉ file_ids definition.

Lemma sound_nil : sound_ids [].
Proof. split; [constructor | set_solver]. Qed.

Section Edited.
Context {W : Type} `{Store W} (contents : W -> Document -> Prop) `{!StoreLaws W contents}.
Context (base_Get : string -> goerr + Suites.SuiteDefinition) (suites_ErrNotFound : goerr).
Context (unmarshal_refs : string -> goerr + list SecretReference)
  (unmarshal_extends : string -> goerr + string) (unmarshal : string -> option goerr)
  (error_text : goerr -> string).
Notation seeds := (seedSuiteProfiles unmarshal_refs unmarshal_extends).
Notation merge := (mergeSuiteProfiles unmarshal_refs unmarshal_extends).
Notation load_suite := (load_suite base_Get suites_ErrNotFound).
Notation edit_suite := (edit_suite base_Get suites_ErrNotFound unmarshal_refs unmarshal_extends).
Notation GetSuiteProfiles := (GetSuiteProfiles base_Get suites_ErrNotFound unmarshal_refs unmarshal_extends).

(** The packages name their suites without white space around the identifier.
    The suite [key] is the one whose identifiers are followed: the files of its
    package give distinct ones; those of the other packages need not. *)
Context (key : string).
Definition sound_package (definition : Suites.SuiteDefinition) : Prop :=
  TrimSpace (Suites.SuiteID definition) = Suites.SuiteID definition /\
  (Suites.SuiteID definition = key -> distinct_files definition).
Hypothesis packages : forall id definition, base_Get id = inr definition -> sound_package definition.
Notation sound_document := (sound_document key).

(** The identifiers of the package's own profiles, at every reading. *)
Lemma seeds_ids now definition : ID <$> seeds now definition = file_ids definition.
Proof using Type.
  unfold seedSuiteProfiles, file_ids. rewrite normalizeRecords_ids, <- list_fmap_compose.
  apply list_fmap_ext. intros i profile _. cbn. apply TrimSpace_dashed, profileID_dashed.
Qed.
Lemma seeds_sound now definition : sound_package definition -> Suites.SuiteID definition = key ->
  sound_ids (ID <$> seeds now definition).
Proof using Type.
  intros [_ Hp] Hk. destruct (Hp Hk) as [Hn He]. rewrite seeds_ids. split; [done|]. intros id Hid.
  split; [|by intros ->]. apply list_elem_of_fmap in Hid as (profile & -> & _).
  apply TrimSpace_dashed, profileID_dashed.
Qed.

Lemma seeds_default now definition : one_default (seeds now definition).
Proof using Type. apply normalizeRecords_default. Qed.

Lemma merge_default now definition document : one_default (merge now definition document).
Proof using Type.
  unfold mergeSuiteProfiles. case_bool_decide; [apply seeds_default|].
  destruct (merge_seeds _ _ _ _). apply normalizeRecords_default.
Qed.

Lemma merge_sound now definition document : sound_package definition -> Suites.SuiteID definition = key ->
  sound_document document -> sound_ids (ID <$> merge now definition document).
Proof using Type.
  intros Hp Hk [_ Hd]. pose proof (seeds_sound now definition Hp Hk) as Hs. unfold mergeSuiteProfiles.
  destruct (document !! Suites.SuiteID definition) as [suite|] eqn:E; cbn [fmap option_fmap option_map default id].
  - case_bool_decide; [done|]. rewrite Hk in E.
    pose proof (merged_ids now (DocProfiles suite) (Hd _ E) (seeds now definition) Hs) as Hm.
    by destruct (merge_seeds _ _ _ _).
  - by rewrite bool_decide_eq_true_2 by done.
Qed.

Lemma load_suite_spec suiteID w definition document w' : load_suite suiteID w = (inr (definition, document), w') ->
  base_Get (TrimSpace suiteID) = inr definition /\ sound_package definition /\
  contents w document /\ contents w' document.
Proof using Type*.
  unfold Profiles.load_suite, lookupSuite. destruct (base_Get (TrimSpace suiteID)) as [|d] eqn:Eb; [done|].
  destruct (Load w) as [[|doc] w1] eqn:El; [done|]. intros [= <- <- <-].
  pose proof (load_reads _ _ _ El) as Hc. pose proof (load_keeps _ _ Hc) as Hk. rewrite El in Hk.
  split; [done|]. split; [by eapply packages|done].
Qed.

(** What an edit that succeeded did. *)
Lemma edit_spec now edit suiteID w payload w' : edit_suite now edit suiteID w = (inr payload, w') ->
  exists definition document w1 records,
    load_suite suiteID w = (inr (definition, document), w1) /\
    edit (merge now definition document) = inr records /\
    Save (writeSuiteProfiles document (Suites.SuiteID definition) (normalizeRecords now records)) w1 = (None, w') /\
    payload = buildSuiteProfiles definition (normalizeRecords now records).
Proof using Type.
  unfold Profiles.edit_suite. destruct (load_suite suiteID w) as [[|[definition document]] w1] eqn:El; [done|].
  destruct (edit _) as [|records] eqn:Ee; [done|]. unfold save_records.
  destruct (Save _ _) as [[err|] w2] eqn:Es; [done|]. intros [= <- <-].
  by exists definition, document, w1, records.
Qed.

(** The document after the edit. *)
Lemma edit_document now edit suiteID w document0 payload w' : contents w document0 -> sound_document document0 ->
  edit_suite now edit suiteID w = (inr payload, w') ->
  exists definition records saved,
    base_Get (TrimSpace suiteID) = inr definition /\
    edit (merge now definition document0) = inr records /\ sound_package definition /\
    payload = buildSuiteProfiles definition (normalizeRecords now records) /\ contents w' saved /\
    forall other, option_Forall2 renormalized
      (<[Suites.SuiteID definition := mkSuiteDocument (normalizeRecords now records)]> document0 !! other)
      (saved !! other).
Proof using Type*.
  intros Hw Hd (definition & document & w1 & records & El & Ee & Es & ->)%edit_spec.
  destruct (load_suite_spec _ _ _ _ _ El) as (Hg & Hp & Hc & _).
  pose proof (contents_one _ _ _ Hw Hc) as ->.
  assert (tidy (writeSuiteProfiles document (Suites.SuiteID definition) (normalizeRecords now records))) as Ht.
  { intros id suite Hi. unfold writeSuiteProfiles in Hi.
    apply lookup_insert_Some in Hi as [[<- _]|[_ Hs]]; [apply Hp | apply (proj1 Hd _ _ Hs)]. }
  destruct (save_reads _ _ _ Ht Es) as (saved & Hs & Hall). by exists definition, records, saved.
Qed.

Lemma normalized_sound n rs : sound_ids (ID <$> rs) -> sound_ids (ID <$> normalizeRecords n rs).
Proof using Type. intros Hrs. eapply shape_sound; [exact Hrs|]. by apply normalizeRecords_shape. Qed.
Lemma renormalized_sound suite suite' : renormalized suite suite' -> sound_ids (ID <$> DocProfiles suite) ->
  sound_ids (ID <$> DocProfiles suite').
Proof using Type.
  unfold renormalized. induction 1 as [|rs rs1 rs2 (now & _ & ->) _ IH]; [done|]. intros Hs.
  by apply IH, normalized_sound.
Qed.

(** An edit that keeps identifiers sound keeps the document sound. *)
Lemma edit_keeps_sound now edit suiteID w document payload w' : contents w document -> sound_document document ->
  (forall definition records', base_Get (TrimSpace suiteID) = inr definition -> Suites.SuiteID definition = key ->
     sound_ids (ID <$> merge now definition document) -> edit (merge now definition document) = inr records' ->
     sound_ids (ID <$> records')) ->
  edit_suite now edit suiteID w = (inr payload, w') ->
  exists saved, contents w' saved /\ sound_document saved.
Proof using Type*.
  intros Hw Hd He Hr. destruct (edit_document _ _ _ _ _ _ _ Hw Hd Hr)
    as (definition & records & saved & Hg & Ee & Hp & _ & Hs & Hall).
  assert (Suites.SuiteID definition = key -> sound_ids (ID <$> normalizeRecords now records)) as Hn.
  { intros Hk. apply normalized_sound. eapply He; [done..| |done]. by apply merge_sound. }
  exists saved. split; [done|].
  assert (forall id suite, saved !! id = Some suite -> TrimSpace id = id /\
            (id = key -> sound_ids (ID <$> DocProfiles suite))) as Hok.
  { intros id suite Hid. specialize (Hall id). rewrite Hid in Hall. inversion Hall as [before after Hr' Hb|]; subst.
    symmetry in Hb. apply lookup_insert_Some in Hb as [[<- <-]|[_ Hb]].
    - split; [apply Hp|]. intros Hk. apply (renormalized_sound _ _ Hr' (Hn Hk)).
    - split; [apply (proj1 Hd _ _ Hb)|]. intros ->. eapply renormalized_sound; [done|]. apply (proj2 Hd _ Hb). }
  split; [intros id suite Hid; apply (proj1 (Hok _ _ Hid))|]. intros suite Hid. by apply (proj2 (Hok _ _ Hid)).
Qed.

(** Histories of the service: reads, edits that succeed and edits that are
    refused, of any suites and in any order.  The random part of an identifier
    is not one the suite [key] already has. *)
Definition fresh_for (now : Z) (newID suiteID : string) (document : Document) : Prop :=
  let fresh := "profile-" +:+ slice_to newID 8 in
  TrimSpace fresh = fresh /\ forall definition, base_Get (TrimSpace suiteID) = inr definition ->
    Suites.SuiteID definition = key -> fresh ∉ ID <$> merge now definition document.
Notation CreateProfile :=
  (CreateProfile base_Get suites_ErrNotFound unmarshal_refs unmarshal_extends unmarshal error_text).
Notation UpdateProfile :=
  (UpdateProfile base_Get suites_ErrNotFound unmarshal_refs unmarshal_extends unmarshal error_text).
Notation DeleteProfile := (DeleteProfile base_Get suites_ErrNotFound unmarshal_refs unmarshal_extends).
Notation SetDefaultProfile := (SetDefaultProfile base_Get suites_ErrNotFound unmarshal_refs unmarshal_extends).

(** The four edits of the API. *)
Inductive edit :=
  | EditCreate (newID : string) (request : UpsertRequest)
  | EditUpdate (profileID : string) (request : UpsertRequest)
  | EditDelete (profileID : string)
  | EditDefault (profileID : string).
Definition run_edit (now : Z) (suiteID : string) (e : edit) : W -> (goerr + SuiteProfiles) * W :=
  match e with
  | EditCreate newID request => CreateProfile now newID suiteID request
  | EditUpdate profileID request => UpdateProfile now suiteID profileID request
  | EditDelete profileID => DeleteProfile now suiteID profileID
  | EditDefault profileID => SetDefaultProfile now suiteID profileID
  end.
Definition record_edit (now : Z) (e : edit) : list ProfileRecord -> goerr + list ProfileRecord :=
  match e with
  | EditCreate newID request => create_record unmarshal_refs unmarshal error_text now newID request
  | EditUpdate profileID request => update_record unmarshal_refs unmarshal error_text now profileID request
  | EditDelete profileID => delete_record profileID
  | EditDefault profileID => make_default profileID
  end.

Lemma run_edit_is now suiteID e : run_edit now suiteID e = edit_suite now (record_edit now e) suiteID.
Proof using Type. by destruct e. Qed.

Definition new_id_free (now : Z) (suiteID : string) (document : Document) (e : edit) : Prop :=
  match e with EditCreate newID _ => fresh_for now newID suiteID document | _ => True end.

(** An edit that is refused loads the document and saves nothing; an edit
    whose save fails is no step, since it may leave half of a file. *)
Inductive step : W -> W -> Prop :=
  | step_read now suiteID w : step w (GetSuiteProfiles now suiteID w).2
  | step_edit now suiteID e w document payload w' :
      contents w document -> new_id_free now suiteID document e ->
      run_edit now suiteID e w = (inr payload, w') -> step w w'
  | step_refused now suiteID e w err :
      run_edit now suiteID e w = (inl err, (load_suite suiteID w).2) -> step w (load_suite suiteID w).2.

Lemma load_suite_keeps suiteID w document : contents w document -> contents (load_suite suiteID w).2 document.
Proof using Type*.
  intros Hw. unfold Profiles.load_suite. destruct (lookupSuite _ _ _); [done|]. pose proof (load_keeps _ _ Hw) as Hk.
  by destruct (Load w) as [[|] ?].
Qed.

Lemma edit_ids now suiteID e document definition records : base_Get (TrimSpace suiteID) = inr definition ->
  Suites.SuiteID definition = key -> new_id_free now suiteID document e ->
  sound_ids (ID <$> merge now definition document) -> record_edit now e (merge now definition document) = inr records ->
  sound_ids (ID <$> records).
Proof using Type.
  intros Hg Hk Hf Hs He. destruct e; cbn in Hf, He.
  - destruct Hf as [Ht Hf]. by eapply create_sound; [..|exact He]; [|by apply Hf|].
  - eapply shape_sound; [exact Hs|]. by eapply update_shape.
  - by eapply delete_sound.
  - eapply shape_sound; [exact Hs|]. by eapply make_default_shape.
Qed.

Lemma step_sound w w' document : step w w' -> contents w document -> sound_document document ->
  exists document', contents w' document' /\ sound_document document'.
Proof using Type*.
  destruct 1 as [now suiteID w|now suiteID e w d payload w' Hd Hf E|now suiteID e w err E]; intros Hw Hs.
  - exists document. split; [|done]. pose proof (load_suite_keeps suiteID _ _ Hw) as Hk.
    unfold Profiles.GetSuiteProfiles. by destruct (load_suite suiteID w) as [[|[??]] ?].
  - pose proof (contents_one _ _ _ Hw Hd) as ->. rewrite run_edit_is in E.
    eapply edit_keeps_sound; [exact Hw|exact Hs| |exact E]. intros definition records Hg Hk Hi. by eapply edit_ids.
  - exists document. split; [by apply load_suite_keeps|done].
Qed.

Lemma history_sound w w' document : rtc step w w' -> contents w document -> sound_document document ->
  exists document', contents w' document' /\ sound_document document'.
Proof using Type*.
  intros Hr. revert document. induction Hr as [w|w w1 w' Hs _ IH]; intros document Hw Hd; [by exists document|].
  destruct (step_sound _ _ _ Hs Hw Hd) as (d & ? & ?). by apply (IH d).
Qed.

(** ** What is written is what is read back *)
Lemma scope_trimmed fileName : scopeFromFileName (TrimSpace fileName) = scopeFromFileName fileName.
Proof using Type. unfold scopeFromFileName, labelFromFileName. by rewrite TrimSpace_idemp. Qed.

Lemma upsert_plain now record request current currentID record' :
  applyUpsertRequest unmarshal_refs unmarshal error_text now record request current currentID = inr record' ->
  plain_scope record'.
Proof using Type.
  unfold applyUpsertRequest. destruct (validateRecord _ _ _ _ _); [discriminate|]. intros <-%(inj inr). unfold plain_scope. cbn [Scope FileName].
  rewrite TrimSpace_idemp, scope_trimmed, first_of_two.
  destruct (blank (TrimSpace (ReqScope request))) eqn:Eb; cbn [negb]; [|left; by apply blank_false].
  destruct (blank (scopeFromFileName (ReqFileName request))) eqn:Es; [by right|]. left. by apply blank_false.
Qed.

Lemma seeds_shape now now' definition :
  shape (seeds now definition) = shape (seeds now' definition).
Proof using Type.
  apply shape_split; unfold seedSuiteProfiles.
  - rewrite !normalizeRecords_ids, <- !list_fmap_compose. done.
  - rewrite !normalizeRecords_launchable, <- !list_fmap_compose. done.
Qed.

Lemma merge_seeds_launchable now stored records : forall used,
  Launchable <$> (merge_seeds now stored records used).1 = Launchable <$> records.
Proof using Type.
  induction records as [|r records IH]; intros used; cbn [merge_seeds]; [done|].
  destruct (match_stored r used 0 stored) as [[i r']|].
  - specialize (IH (i :: used)). destruct (merge_seeds now stored records (i :: used)) as [m u].
    cbn in *. by rewrite IH.
  - specialize (IH used). destruct (merge_seeds now stored records used) as [m u]. cbn in *. by rewrite IH.
Qed.

Lemma merge_shape now definition document : sound_package definition -> Suites.SuiteID definition = key ->
  sound_document document ->
  shape (seeds now definition) `prefix_of` shape (merge now definition document) /\
  Forall plain_scope (merge now definition document).
Proof using Type.
  intros Hp Hk [_ Hd]. pose proof (seeds_sound now definition Hp Hk) as Hps.
  unfold mergeSuiteProfiles. case_bool_decide.
  { split; [done | apply normalizeRecords_plain]. }
  destruct (document !! Suites.SuiteID definition) as [suite|] eqn:E; [|done].
  rewrite Hk in E. cbn [fmap option_fmap option_map default id] in *. destruct (Hps) as [Hpn Hpt].
  pose proof (merge_seeds_spec now (DocProfiles suite) (Hd _ E) (seeds now definition) Hpt []) as Hm.
  pose proof (merged_ids now (DocProfiles suite) (Hd _ E) (seeds now definition) Hps) as Hids.
  pose proof (merge_seeds_launchable now (DocProfiles suite) (seeds now definition) []) as Hl.
  destruct (merge_seeds _ _ _ _) as [merged used]. destruct Hm as (Hi & _ & _). cbn [fst] in Hl.
  split; [|apply normalizeRecords_plain].
  assert (shape (normalizeRecords now (merged ++ merge_rest now used 0 (DocProfiles suite))) =
          shape merged ++ ((fun r => (TrimSpace (ID r), Launchable r)) <$> merge_rest now used 0 (DocProfiles suite))) as ->.
  { assert (forall rs, shape (normalizeRecords now rs) = (fun r => (TrimSpace (ID r), Launchable r)) <$> rs) as Hnorm.
    { intros rs. transitivity (zip (ID <$> normalizeRecords now rs) (Launchable <$> normalizeRecords now rs)).
      - unfold shape. generalize (normalizeRecords now rs). intros l. induction l as [|x l IH]; cbn; [done|]. by f_equal.
      - rewrite normalizeRecords_ids, normalizeRecords_launchable. induction rs as [|x rs IH]; cbn; [done|]. by f_equal. }
    rewrite Hnorm, fmap_app. f_equal. unfold shape. apply list_fmap_ext. intros i r Hr. f_equal.
    apply Hpt. rewrite <- Hi. by eapply list_elem_of_fmap_2, list_elem_of_lookup_2. }
  rewrite (shape_split merged (seeds now definition)) by done. by eexists.
Qed.

Lemma delete_after (records : list ProfileRecord) (package : list (string * bool)) i r :
  package `prefix_of` shape records -> records !! i = Some r -> ID r ∉ package.*1 ->
  package `prefix_of` shape (delete i records).
Proof using Type.
  intros [rest Hrest] Hr Hn. unfold shape in *.
  assert (length package <= i)%nat as Hle.
  { destruct (decide (i < length package)%nat) as [Hlt|]; [|lia]. exfalso. apply Hn.
    destruct (lookup_lt_is_Some_2 package i Hlt) as [p Hp].
    assert (((fun r => (ID r, Launchable r)) <$> records) !! i = Some p) as Hi.
    { rewrite Hrest. by apply lookup_app_l_Some. }
    rewrite list_lookup_fmap, Hr in Hi. injection Hi as <-.
    apply list_elem_of_fmap. by exists (ID r, Launchable r); split; [|eapply list_elem_of_lookup_2]. }
  rewrite list_fmap_delete, Hrest. exists (delete (i - length package)%nat rest).
  rewrite !delete_take_drop, take_app_ge, drop_app_ge by lia.
  rewrite <- app_assoc. do 3 f_equal. lia.
Qed.

(** The profile to delete is not one the package declares, and the random
    part of a new identifier is not taken. *)
Definition readable_edit (now : Z) (suiteID : string) (document : Document) (e : edit) : Prop :=
  match e with
  | EditDelete profileID => forall definition, base_Get (TrimSpace suiteID) = inr definition ->
      TrimSpace profileID ∉ ID <$> seeds now definition
  | _ => new_id_free now suiteID document e
  end.

Lemma edited_records now suiteID definition document e records :
  base_Get (TrimSpace suiteID) = inr definition -> Suites.SuiteID definition = key -> sound_document document ->
  readable_edit now suiteID document e -> record_edit now e (merge now definition document) = inr records ->
  sound_ids (ID <$> records) /\ shape (seeds now definition) `prefix_of` shape records /\ Forall plain_scope records.
Proof using Type*.
  intros Hg Hk Hd Hre He. pose proof (packages _ _ Hg) as Hp. pose proof (merge_sound now definition document Hp Hk Hd) as Hs.
  destruct (merge_shape now definition document Hp Hk Hd) as [Hsh Hpl].
  split. { eapply edit_ids; [exact Hg|exact Hk| |exact Hs|exact He]. by destruct e. }
  destruct e as [newID request|profileID request|profileID|profileID]; cbn [record_edit readable_edit] in *.
  - unfold create_record in He. destruct (applyUpsertRequest _ _ _ _ _ _ _ _) as [|r] eqn:Eu; [done|]. injection He as <-.
    split; [unfold shape in *; rewrite fmap_app; by apply prefix_app_r|].
    apply Forall_app. split; [done|]. apply Forall_singleton. by eapply upsert_plain.
  - pose proof (update_shape _ _ _ _ _ _ _ _ He) as Hu. split; [by rewrite Hu|].
    unfold update_record in He. destruct (indexOfProfile _ _) as [i|]; [|done]. destruct (_ !! i) as [r|]; [|done].
    destruct (applyUpsertRequest _ _ _ _ _ _ _ _) as [|r'] eqn:Eu; [done|]. injection He as <-.
    apply Forall_insert; [done|]. apply upsert_plain in Eu. by destruct (negb (Launchable r')).
  - apply delete_shape in He as (i & r & Hi & Hr & _ & ->).
    split; [|by apply Forall_delete]. eapply delete_after; [exact Hsh|exact Hr|].
    apply indexOf_found in Hi as (r' & Hr' & Hid). assert (r' = r) as -> by congruence.
    rewrite Hid. unfold shape. rewrite <- list_fmap_compose. by apply Hre.
  - pose proof (make_default_shape _ _ _ He) as Hu. split; [by rewrite Hu|].
    unfold make_default in He. destruct (indexOfProfile _ _) as [i|]; [|done]. destruct (negb _); [done|].
    injection He as <-. apply Forall_fmap. eapply Forall_impl; [exact Hpl|]. by intros r.
Qed.

Lemma renormalized_settled suite suite' : renormalized suite suite' -> settled (DocProfiles suite) -> suite' = suite.
Proof using Type.
  destruct suite as [a], suite' as [b]. unfold renormalized. cbn [DocProfiles]. intros Hr Hs. f_equal.
  induction Hr as [|a a1 b (now & _ & ->) _ IH]; [done|]. rewrite settled_fixed in IH by done. by apply IH.
Qed.

(** C24: Over a store that keeps its promises (those in memory and in a file do, the cache over one
    does not), an edit of the profiles of a suite that succeeds answers what the next read of the
    suite answers, record by record, unless it deleted a profile that the package declares: for
    a suite whose package files and stored records have distinct identifiers, a package that did not
    change in between, and a random part of an identifier that is not taken. *)
Theorem edits_are_read_back now suiteID e w document payload w' now' payload' w'' :
  contents w document -> sound_document document -> now <> 0 -> readable_edit now suiteID document e ->
  run_edit now suiteID e w = (inr payload, w') -> GetSuiteProfiles now' suiteID w' = (inr payload', w'') ->
  SuiteID payload = key -> payload' = payload.
Proof using Type*.
  intros Hw Hd Hn Hre Hrun Hget Hkey. rewrite run_edit_is in Hrun.
  destruct (edit_document _ _ _ _ _ _ _ Hw Hd Hrun) as (definition & records & saved & Hg & He & Hp & -> & Hs & Hall).
  assert (Suites.SuiteID definition = key) as Hk by (unfold buildSuiteProfiles in Hkey; by destruct (defaultProfile _)).
  destruct (edited_records _ _ _ _ _ _ Hg Hk Hd Hre He) as (Hids & Hsh & Hpl).
  pose proof (settled_normalize now records Hn Hpl) as Hset. pose proof (normalized_sound now records Hids) as Hnids.
  specialize (Hall (Suites.SuiteID definition)). rewrite lookup_insert_eq in Hall.
  inversion Hall as [before after Hren Hb Ha|]; subst. apply renormalized_settled in Hren; [|done]. subst after. symmetry in Ha.
  unfold Profiles.GetSuiteProfiles in Hget.
  destruct (load_suite suiteID w') as [[|[definition' d]] w1] eqn:El; [done|]. injection Hget as <- <-.
  destruct (load_suite_spec _ _ _ _ _ El) as (Hg' & _ & Hc & _).
  assert (definition' = definition) as -> by congruence. pose proof (contents_one _ _ _ Hs Hc) as <-.
  f_equal. rewrite (seeds_shape now now') in Hsh. rewrite <- (normalizeRecords_shape now records Hids) in Hsh.
  set (stored := normalizeRecords now records) in *. destruct (decide (stored = [])) as [E|Hne].
  - rewrite E in *. unfold mergeSuiteProfiles. rewrite Ha. cbn [fmap option_fmap option_map default id DocProfiles].
    rewrite bool_decide_eq_true_2 by done. apply prefix_nil_inv in Hsh. by destruct (seeds now' definition).
  - destruct Hsh as [rest Hrest]. rewrite <- (take_drop (length (seeds now' definition)) stored).
    apply remerge; rewrite ?take_drop; [done..|].
    unfold shape in *. rewrite fmap_take, Hrest. by rewrite take_app_length' by by rewrite length_fmap.
Qed.

(** A profile that the package declares is read again after it was deleted. *)
Lemma package_profile_returns now suiteID w document payload w' now' payload' w'' profileID definition :
  contents w document -> sound_document document ->
  base_Get (TrimSpace suiteID) = inr definition -> Suites.SuiteID definition = key ->
  profileID ∈ file_ids definition ->
  DeleteProfile now suiteID profileID w = (inr payload, w') ->
  GetSuiteProfiles now' suiteID w' = (inr payload', w'') -> profileID ∈ ID <$> Profiles payload'.
Proof using Type* unmarshal error_text.
  intros Hw Hd Hg Hk Hin Hdel Hget.
  destruct (step_sound _ _ _ (step_edit now suiteID (EditDelete profileID) _ _ _ _ Hw I Hdel) Hw Hd) as (d & Hc & Hs).
  unfold Profiles.GetSuiteProfiles in Hget.
  destruct (load_suite suiteID w') as [[|[definition' d']] w1] eqn:El; [done|]. injection Hget as <- <-.
  destruct (load_suite_spec _ _ _ _ _ El) as (Hg' & Hp & Hc' & _).
  assert (definition' = definition) as -> by congruence. pose proof (contents_one _ _ _ Hc Hc') as <-.
  destruct (merge_shape now' definition d Hp Hk Hs) as [[rest Hrest] _].
  unfold buildSuiteProfiles. destruct (defaultProfile _). cbn [Profiles]. unfold cloneRecords.
  assert (ID <$> merge now' definition d = (ID <$> seeds now' definition) ++ rest.*1) as ->; [|rewrite seeds_ids; set_solver].
  apply (f_equal (fmap fst)) in Hrest. unfold shape in Hrest. by rewrite fmap_app, <- !list_fmap_compose in Hrest.
Qed.

(** A new profile is never the default one, whatever the request asks, once
    some profile of the suite can be launched. *)
Lemma create_default_ignored now newID suiteID request w payload w' definition document w1 :
  load_suite suiteID w = (inr (definition, document), w1) ->
  existsb Launchable (merge now definition document) = true ->
  CreateProfile now newID suiteID request w = (inr payload, w') ->
  exists before r, Profiles payload = before ++ [r] /\ IsDefault r = false.
Proof using Type.
  intros El He (definition' & document' & w2 & records & El' & Ee & _ & ->)%edit_spec.
  assert (definition' = definition /\ document' = document) as [-> ->] by by rewrite El in El'; simplify_eq.
  apply create_shape in Ee as (r & -> & _ & _).
  destruct (added_not_default now _ r (merge_default now definition document) He) as (before & r' & E & Hr).
  unfold buildSuiteProfiles. destruct (defaultProfile _). cbn [Profiles]. unfold cloneRecords. eauto.
Qed.

(** C23: In every history of reads, edits and refused edits of the profile service, over a store that
    keeps its promises, what any suite's profiles are read as has exactly one default when some
    profile can be launched, one that can be launched, and names it as the default; and a suite
    whose package files give distinct identifiers, and which starts with distinct ones stored, is read with distinct
    identifiers without surrounding white space, whatever the other suites are. *)
Theorem profiles_stay_sound w document w' : contents w document -> sound_document document -> rtc step w w' ->
  forall now suiteID payload w'', GetSuiteProfiles now suiteID w' = (inr payload, w'') ->
    one_default (Profiles payload) /\
    (existsb Launchable (Profiles payload) = true -> exists r, r ∈ Profiles payload /\ Launchable r = true /\
       IsDefault r = true /\ DefaultProfileID payload = ID r /\ DefaultProfileFileName payload = FileName r) /\
    (SuiteID payload = key -> sound_ids (ID <$> Profiles payload)).
Proof using Type*.
  intros Hw Hd Hr now suiteID payload w'' E. destruct (history_sound _ _ _ Hr Hw Hd) as (document' & Hw' & Hd').
  unfold Profiles.GetSuiteProfiles in E.
  destruct (load_suite suiteID w') as [[|[definition d]] w1] eqn:El; [done|]. injection E as <- <-.
  destruct (load_suite_spec _ _ _ _ _ El) as (_ & Hp & Hc & _). pose proof (contents_one _ _ _ Hw' Hc) as ->.
  pose proof (merge_default now definition d) as Hone.
  unfold buildSuiteProfiles. destruct (defaultProfile _) as [did dfile] eqn:Ed. cbn [Profiles cloneRecords].
  split; [done|]. split; [|intros Hk; by apply merge_sound]. intros He.
  destruct (defaultProfile_spec _ Hone He) as (r & ? & ? & ? & Er). exists r.
  rewrite Ed in Er. by injection Er as -> ->.
Qed.
End Edited.

(** * The stores *)

(** ** Normalizing a document *)
Lemma normalize_tidy now order : forall document, tidy document -> NoDup order -> forall suiteID,
  (normalizeDocument now order document : Document) !! suiteID =
    if bool_decide (suiteID ∈ order)
    then (fun suite => mkSuiteDocument (normalizeRecords now (DocProfiles suite))) <$> document !! suiteID
    else document !! suiteID.
Proof.
  unfold normalizeDocument. induction order as [|key order IH]; intros document Ht Hn suiteID; cbn [foldl].
  { by rewrite bool_decide_eq_false_2 by set_solver. }
  apply NoDup_cons in Hn as [Hk Hn].
  assert (forall id, normalize_entry now document key !! id =
            (if bool_decide (id = key)
             then (fun suite => mkSuiteDocument (normalizeRecords now (DocProfiles suite))) <$> document !! id
             else document !! id)) as He.
  { intros id. unfold normalize_entry. destruct (document !! key) as [suite|] eqn:E.
    - rewrite (Ht key suite E). case_bool_decide as Hid; [subst; by rewrite lookup_insert_eq, E|].
      by rewrite !lookup_insert_ne by done.
    - case_bool_decide; [subst; by rewrite E | done]. }
  rewrite IH; [|intros id suite; rewrite He; case_bool_decide; [subst|by apply Ht]|done].
  - rewrite He. repeat case_bool_decide; subst; try done; set_solver.
  - rewrite fmap_Some. intros (old & Ho & _). by eapply Ht.
Qed.

Lemma cloneDocument_same document : cloneDocument document = document.
Proof.
  unfold cloneDocument. rewrite <- (map_fmap_id document) at 2. apply map_fmap_ext. by intros id [records] _.
Qed.

Section Stores.
(** The clock, and the order in which a range visits the keys of a map. *)
Context (now : Z) (order : Document -> list string).
Definition visits_all : Prop := forall document, tidy document ->
  NoDup (order document) /\ forall id, is_Some (document !! id) -> id ∈ order document.

(** ** MemoryStore *)
#[local] Instance MemoryStore : Store Document := {
  Load document := (inr (cloneDocument document), document);
  Save document _ := (None, normalizeDocument now (order (cloneDocument document)) (cloneDocument document));
}.

Lemma normalize_all document : visits_all -> tidy document -> forall id,
  normalizeDocument now (order document) document !! id =
    (fun suite => mkSuiteDocument (normalizeRecords now (DocProfiles suite))) <$> document !! id.
Proof using Type.
  intros Hv Ht id. destruct (Hv document Ht) as [Hn Hall]. rewrite normalize_tidy by done.
  case_bool_decide as Hin; [done|]. destruct (document !! id) eqn:E; [|done]. exfalso. apply Hin, Hall. by rewrite E.
Qed.
Lemma normalize_all_tidy document : visits_all -> tidy document -> tidy (normalizeDocument now (order document) document).
Proof using Type.
  intros Hv Ht id suite. rewrite normalize_all by done. intros (old & Ho & _)%fmap_Some. by eapply Ht.
Qed.

Lemma memory_laws : now <> 0 -> visits_all -> StoreLaws Document (fun w document => w = document).
Proof using Type.
  intros Hnow Hv. split.
  - intros w document w'. cbn. rewrite cloneDocument_same. by intros [= <- _].
  - done.
  - cbn. intros document w w' Ht. rewrite cloneDocument_same. intros [= <-]. eexists. split; [done|]. intros id.
    rewrite normalize_all by done. destruct (document !! id); constructor.
    apply rtc_once. by exists now.
  - congruence.
Qed.

(** ** FileStore *)
Section Files.
(** The file system, the YAML encoder and decoder of documents, and what is
    documented of them: a file that was written is read as it was written, and
    an encoded document is decoded to itself. *)
Context {FS : Type} (ReadFile : string -> FS -> goerr + string) (IsNotExist : goerr -> bool)
  (MkdirAll : string -> FS -> option goerr * FS) (WriteFile : string -> string -> FS -> option goerr * FS)
  (Marshal : Document -> goerr + string) (Unmarshal : string -> goerr + Document) (path : string).

Definition Dir (path : string) : string := Suites.Clean (slice_to path (LastIndex path "/" + 1)).

#[local] Instance FileStore : Store FS := {
  Load fs := (match ReadFile path fs with
              | inl err => if IsNotExist err then inr defaultDocument else inl err
              | inr data => check document := Unmarshal data in
                            inr (normalizeDocument now (order document) document)
              end, fs);
  Save document fs :=
    let document := normalizeDocument now (order document) document in
    match Marshal document with
    | inl err => (Some err, fs)
    | inr data =>
        let dir := Dir path in
        let '(err, fs) := if negb (bool_decide (dir = ".")) && negb (bool_decide (dir = "")) then MkdirAll dir fs
                          else (None, fs) in
        match err with Some err => (Some err, fs) | None => WriteFile path data fs end
    end;
}.

Lemma file_laws : now <> 0 -> visits_all ->
  (forall data fs fs', WriteFile path data fs = (None, fs') -> ReadFile path fs' = inr data) ->
  (forall document data, Marshal document = inr data -> Unmarshal data = inr document) ->
  StoreLaws FS (fun fs document => (Load fs).1 = inr document).
Proof using Type.
  intros Hnow Hv Hwrite Hyaml. split.
  - intros fs document fs'. cbn. by intros [= -> _].
  - done.
  - intros document fs fs' Ht E. set (document1 := normalizeDocument now (order document) document).
    cbn in E. fold document1 in E. destruct (Marshal document1) as [|data] eqn:Em; [done|].
    assert (ReadFile path fs' = inr data) as Hread.
    { destruct (_ && _); [destruct (MkdirAll _ _) as [[err|] fs1]; [done|]|]; by eapply Hwrite. }
    apply Hyaml in Em. cbn. rewrite Hread, Em. eexists. split; [done|]. intros id.
    assert (tidy document1) as Ht1 by by apply normalize_all_tidy.
    rewrite (normalize_all document1) by done. unfold document1. rewrite normalize_all by done.
    destruct (document !! id); constructor. eapply rtc_l; [by exists now|]. apply rtc_once. by exists now.
  - congruence.
Qed.
End Files.

(** ** cacheStore, over the cache of [internal/cachehub] *)
Section Cached.
Context {W H : Type} `{Store W} (ReadJSON : H -> (goerr + option Document) * H)
  (WriteJSON : Document -> H -> option goerr * H).

#[local] Instance cacheStore : Store (W * H) := {
  Load '(w, h) :=
    match ReadJSON h with
    | (inr (Some cached), h) => (inr (normalizeDocument now (order cached) cached), (w, h))
    | (_, h) =>
        match Load w with
        | (inl err, w) => (inl err, (w, h))
        | (inr document, w) => (inr document, (w, (WriteJSON document h).2))
        end
    end;
  Save document '(w, h) :=
    match Save document w with
    | (Some err, w) => (Some err, (w, h))
    | (None, w) =>
        match Load w with
        | (inl err, w) => (Some err, (w, h))
        | (inr fresh, w) => (None, (w, (WriteJSON fresh h).2))
        end
    end;
}.

(** A saved document is not read back while the cache holds an older one and
    cannot be written: the save succeeds, and the next load answers the older
    document. *)
Lemma stale_after_failed_write document old w h w' h' :
  (forall d, WriteJSON d h = (Some (ErrText "cache"), h)) -> ReadJSON h = (inr (Some old), h) ->
  Save document (w, h) = (None, (w', h')) ->
  (Load (w', h')).1 = inr (normalizeDocument now (order old) old).
Proof using Type.
  intros Hwrite Hread. cbn. destruct (Save document w) as [[err|] w1]; [done|].
  destruct (Load w1) as [[err|fresh] w2]; [done|]. rewrite Hwrite. intros [= <- <-]. by rewrite Hread.
Qed.
End Cached.
End Stores.

(** * An example *)
Definition sample_package : Suites.SuiteDefinition :=
  Suites.mkSuite "payments" "Payments" "" "ghcr.io/acme/payments" "1.0.0" ""
    [Suites.mkProfileOption "base.yaml" "" "" false; Suites.mkProfileOption "ci.yaml" "" "" false;
     Suites.mkProfileOption "local.yaml" "Local" "" true] [] [] [].
Definition sample_Get (id : string) : goerr + Suites.SuiteDefinition :=
  if bool_decide (id = "payments") then inr sample_package else inl (ErrText "suite not found").
Definition sample_refs (yaml : string) : goerr + list SecretReference := inr [].
Definition sample_extends (yaml : string) : goerr + string := inr "base".
Definition sample_yaml (yaml : string) : option goerr := None.
Definition sample_text (err : goerr) : string := "".
Definition sample_order (document : Document) : list string := (map_to_list document).*1.
#[local] Instance sample_store : Store Document := MemoryStore 5 sample_order.

Lemma sample_visits : visits_all sample_order.
Proof.
  intros document _. split; [apply NoDup_fst_map_to_list|]. intros id [suite E].
  apply list_elem_of_fmap. exists (id, suite). by rewrite elem_of_map_to_list.
Qed.
Lemma sample_laws : StoreLaws Document (fun w document => w = document).
Proof. apply memory_laws; [done | apply sample_visits]. Qed.
Lemma sample_sound id definition : sample_Get id = inr definition ->
  sound_package "payments" definition.
Proof.
  unfold sample_Get. case_bool_decide; [|done]. intros [= <-]. split; [done|]. intros _.
  split; apply (bool_decide_unpack _); vm_compute; exact I.
Qed.

Notation sample f := (f sample_Get (ErrText "suite not found") sample_refs sample_extends).
Definition sample_request : UpsertRequest :=
  mkUpsert " Nightly " "Nightly Run.yaml" "" "" "env: {}" [] true "ci".
Definition sample_created : (goerr + SuiteProfiles) * Document :=
  sample CreateProfile sample_yaml sample_text 7 "0123456789" " payments " sample_request ∅.

(** The new profile is the last one, and not the default one. *)
Example created_ex : match sample_created.1 with
  | inr payload => (DefaultProfileID payload, ID <$> Profiles payload, Scope <$> Profiles payload) =
      ("local", ["base"; "ci"; "local"; "nightly-run"], ["Base"; "CI"; "Local"; "Nightly run"])
  | inl _ => False
  end.
Proof. vm_compute. reflexivity. Qed.

(** A package with [ci.yaml] and [ci.yml] is read with two profiles of the
    same identifier, of which the edits only reach the first. *)
Definition twin_package : Suites.SuiteDefinition :=
  Suites.mkSuite "twins" "Twins" "" "ghcr.io/acme/twins" "1.0.0" ""
    [Suites.mkProfileOption "ci.yaml" "One" "" true; Suites.mkProfileOption "ci.yml" "Two" "" false] [] [] [].
Definition twin_Get (id : string) : goerr + Suites.SuiteDefinition :=
  if bool_decide (id = "twins") then inr twin_package else inl (ErrText "suite not found").
Example twin_ids :
  ~ distinct_files twin_package /\
  match (GetSuiteProfiles twin_Get (ErrText "suite not found") sample_refs sample_extends 7 "twins" ∅).1 with
  | inr payload => (fun r => (ID r, FileName r)) <$> Profiles payload = [("ci", "ci.yaml"); ("ci", "ci.yml")]
  | inl _ => False
  end.
Proof.
  split; [|vm_compute; reflexivity]. intros [Hn _]. revert Hn. apply (bool_decide_unpack (¬ _)). vm_compute. exact I.
Qed.

(** An identifier with white space around it is found, but not made the
    default one: the first launchable profile becomes it. *)
Example set_default_spaces :
  match (sample SetDefaultProfile 7 "payments" "local " ∅).1 with
  | inr payload => DefaultProfileID payload = "ci"
  | inl _ => False
  end.
Proof. vm_compute. reflexivity. Qed.

(** A profile may name itself as its base. *)
Example extends_itself :
  match (sample UpdateProfile sample_yaml sample_text 7 "payments" "ci"
           (mkUpsert "CI" "ci.yaml" "" "" "env: {}" [] false "ci") ∅).1 with
  | inr payload => ExtendsID <$> Profiles payload = ["base"; "ci"; "base"]
  | inl _ => False
  end.
Proof. vm_compute. reflexivity. Qed.

(** What the validation says never reaches the client, whose request is
    answered as a failure of the server. *)
Example invalid_is_500 :
  (sample createProfile sample_yaml sample_text 7 "0123456789" "payments"
     (Some (mkUpsert "" "ci.yaml" "" "" "env: {}" [] false "")) ∅).1 = inl (500, "Could not process request.").
Proof. vm_compute. reflexivity. Qed.

Lemma empty_sound key : sound_document key ∅.
Proof. split; [intros id suite E | intros suite E]; by rewrite lookup_empty in E. Qed.
Lemma sample_fresh : fresh_for sample_Get sample_refs sample_extends "payments" 7 "0123456789" " payments " ∅.
Proof.
  split; [vm_compute; reflexivity|]. intros definition. unfold sample_Get. case_bool_decide; [|done]. intros [= <-] _.
  apply (bool_decide_unpack _). vm_compute. exact I.
Qed.

Lemma profiles_stay_sound_witness : match (sample GetSuiteProfiles 9 "payments" sample_created.2).1 with
  | inr payload => sound_ids (ID <$> Profiles payload) /\ one_default (Profiles payload)
  | inl _ => False
  end.
Proof.
  destruct (sample GetSuiteProfiles 9 "payments" sample_created.2) as [[err|payload] w''] eqn:E.
  - exfalso. apply (f_equal fst) in E. vm_compute in E. discriminate E.
  - destruct sample_created as [[err|created] w'] eqn:Ec.
    { exfalso. apply (f_equal fst) in Ec. vm_compute in Ec. discriminate Ec. }
    assert (step (fun w document => w = document) sample_Get (ErrText "suite not found") sample_refs sample_extends
              sample_yaml sample_text "payments" ∅ w') as Hstep.
    { eapply (step_edit _ _ _ _ _ _ _ _ 7 " payments " (EditCreate "0123456789" sample_request) ∅ ∅ created w');
        [reflexivity | exact sample_fresh | exact Ec]. }
    pose proof (@profiles_stay_sound Document sample_store (fun w document => w = document) sample_laws sample_Get
      (ErrText "suite not found") sample_refs sample_extends sample_yaml sample_text "payments" sample_sound ∅ ∅ w'
      eq_refl (empty_sound _) (rtc_once _ _ Hstep) 9 "payments" payload w'' E) as (H1 & _ & H2).
    cbv beta iota. split; [apply H2 | exact H1]. apply (f_equal fst) in E. apply (f_equal snd) in Ec. cbn [snd] in Ec. subst w'.
    vm_compute in E. by injection E as <-.
Defined.

Lemma edits_are_read_back_witness :
  match sample_created.1, (sample GetSuiteProfiles 9 "payments" sample_created.2).1 with
  | inr payload, inr payload' => payload' = payload
  | _, _ => False
  end.
Proof.
  destruct sample_created as [[err|created] w'] eqn:Ec.
  { exfalso. apply (f_equal fst) in Ec. vm_compute in Ec. discriminate Ec. }
  cbn [fst snd]. destruct (sample GetSuiteProfiles 9 "payments" w') as [[err|payload] w''] eqn:E.
  { exfalso. apply (f_equal snd) in Ec. cbn [snd] in Ec. subst w'. apply (f_equal fst) in E. vm_compute in E. discriminate E. }
  assert (sample GetSuiteProfiles 9 " payments " w' = (inr payload, w'')) as E'.
  { rewrite <- E. reflexivity. }
  assert (SuiteID created = "payments") as Hkey.
  { apply (f_equal fst) in Ec. vm_compute in Ec. by injection Ec as <-. }
  exact (@edits_are_read_back Document sample_store (fun w document => w = document) sample_laws sample_Get
    (ErrText "suite not found") sample_refs sample_extends sample_yaml sample_text "payments" sample_sound 7 " payments "
    (EditCreate "0123456789" sample_request) ∅ ∅ created w' 9 payload w''
    eq_refl (empty_sound _) (ltac:(discriminate)) sample_fresh Ec E' Hkey).
Defined.

End ProfileService.
