(* ===== verification/ProfileRuntime.v ===== *)
(** What a run takes from its profile, [src/backend/internal/execution/profile_runtime.go]:
    the inheritance of profiles, the documents they are parsed to, the overlay
    of an execution, and the secrets of Vault and of the process environment.

    The YAML decoder, quantities of Kubernetes, the resolver of host names, the
    HTTP exchange with Vault, the process environment and the order in which a
    range visits a map are arguments.  [nil] maps and slices are empty ones. *)
From Stdlib Require Import ZArith Lia Ascii.
From S2P Require Import Prelude GoStrings Runes Strconv Suites Topology Url Values ProxyTarget Containers Profiles.
Import GoStrings Runes Strconv Values.

Module ProfileRuntime.
Notation strings := (gmap string string).
Notation SecretReference := Profiles.SecretReference.
Notation ProfileRecord := Profiles.ProfileRecord.

(** ** Data *)
Record serviceSpec := mkSpec {
  Env : strings;
  Devices : list string;
  Memory : Z;
  MilliCPU : Z;
}.
Definition no_spec : serviceSpec := mkSpec ∅ [] 0 0.

Record profileRuntimeDocument := mkRuntime {
  DocEnv : strings;
  DocServices : gmap string serviceSpec;
  DocNetworkMode : string;
  DocSecretRefs : list SecretReference;
  DocAgentTags : list string;
}.
Definition no_runtime : profileRuntimeDocument := mkRuntime ∅ ∅ "" [] [].

(** [executionRuntimeOverlay] of [types.go]. *)
Record executionRuntimeOverlay := mkOverlay {
  OverlayEnv : strings;
  Services : gmap string serviceSpec;
  SecretEnv : strings;
  NetworkMode : string;
}.

(** The secrets part of [platform.PlatformSettings]. *)
Record GlobalOverride := mkOverride { OverrideKey : string; OverrideValue : string }.
Record SecretsConfig := mkSecrets {
  Provider : string;
  VaultAddress : string;
  VaultNamespace : string;
  VaultRole : string;
  SecretPrefix : string;
  GlobalOverrides : list GlobalOverride;
}.

(** One constructor for each [fmt.Errorf] of the file. *)
Inductive RuntimeError :=
  | SettingsFailed (cause : goerr)
  | ProfilesFailed (suiteID : string) (cause : goerr)
  | InheritanceCycle (id : string)
  | BaseMissing (id : string)
  | ParseFailed (fileName : string) (cause : goerr)
  | UnsupportedProvider (provider key : string)
  | LocalUnresolved (ref : string)
  | VaultNotConfigured
  | ProviderCannotResolve (provider : string)
  | VaultAddressMissing
  | VaultTokenMissing (key : string)
  | VaultRefEmpty
  | VaultRefWithoutPath (ref : string)
  | VaultAddressBad
  | VaultSchemeBad
  | VaultAddressReserved
  | VaultHostUnresolved
  | VaultTargetBad (address : string)
  | VaultRequestFailed
  | VaultLookupFailed (key detail : string)
  | VaultBodyBad (key : string)
  | VaultDataMissing (key : string)
  | SecretEmpty (key : string)
  | SecretFieldUnclear (key : string).
(** [errors.Is(err, errProfileSecretUnavailable)]; every other error wraps
    [ErrProfileRuntime]. *)
Definition secret_unavailable (err : RuntimeError) : bool :=
  match err with LocalUnresolved _ | VaultNotConfigured => true | _ => false end.

(** ** Merging *)

(** [mergeRuntimeMaps]: the last map that has a key gives its value. *)
Definition mergeRuntimeMaps (items : list strings) : strings := foldl (fun merged item => item ∪ merged) ∅ items.

Definition merge_spec (existing v : serviceSpec) : serviceSpec :=
  mkSpec (mergeRuntimeMaps [Env existing; Env v])
    (if bool_decide (Devices v = []) then Devices existing else Devices v)
    (if 0 <? Memory v then Memory v else Memory existing)
    (if 0 <? MilliCPU v then MilliCPU v else MilliCPU existing).
Definition mergeServiceSpecs (base overlay : gmap string serviceSpec) : gmap string serviceSpec :=
  map_imap (fun name v => Some (merge_spec (default no_spec (base !! name)) v)) overlay ∪ base.

Definition cloneServiceMap (input : gmap string serviceSpec) : gmap string serviceSpec :=
  (fun spec => mkSpec (Env spec) (Devices spec) (Memory spec) (MilliCPU spec)) <$> input.

Definition mergeSecretRefs (base : list SecretReference) (overlays : list (list SecretReference))
    : list SecretReference := foldl Profiles.appendRef [] (base ++ concat overlays).

Definition platformGlobalOverrideEnv (settings : option SecretsConfig) : strings :=
  match settings with
  | None => ∅
  | Some settings =>
      foldl (fun env override =>
        let key := TrimSpace (OverrideKey override) in
        if bool_decide (key = "") then env else <[key := OverrideValue override]> env) ∅ (GlobalOverrides settings)
  end.

(** ** Quantities and scalars *)

(** [int64(f)] for a [float64] (amd64: what does not fit is the least integer). *)
Definition int64_of_float (f : float64) : Z :=
  match f with
  | SpecFloat.S754_finite _ _ _ =>
      let n := F_trunc f in if (int64_min <=? n) && (n <=? int64_max) then n else int64_min
  | SpecFloat.S754_zero _ => 0
  | _ => int64_min
  end.

Section Quantities.
(** [resource.ParseQuantity], then [Value] and [MilliValue]. *)
Context (ParseQuantity ParseMilli : string -> option Z).

Definition parseMemoryQuantity (raw : any) : Z :=
  let bytes := match raw with
    | AInt value | AInt64 value => value
    | AFloat value => int64_of_float value
    | AString value =>
        let text := TrimSpace value in
        if bool_decide (text = "") then 0 else default 0 (ParseQuantity text)
    | _ => 0
    end in
  if bytes <=? 0 then 0 else bytes.

Definition parseCPUQuantity (raw : any) : Z :=
  let milli := match raw with
    | AInt value | AInt64 value => wrap64 (value * 1000)
    | AFloat value => int64_of_float (F_mul value (F_of_Z 1000))
    | AString value =>
        let text := TrimSpace value in
        if bool_decide (text = "") then 0 else default 0 (ParseMilli text)
    | _ => 0
    end in
  if milli <=? 0 then 0 else milli.

(** The keys in sorted order, which is the order of the entries. *)
Definition scalarStringMap (value : any) : strings :=
  match value with
  | AMap items =>
      foldl (fun result '(key, item) =>
        let trimmedKey := TrimSpace key in
        if bool_decide (trimmedKey = "") then result
        else match item with
             | ANil => result
             | AString typed => <[trimmedKey := typed]> result
             | typed => <[trimmedKey := Sprint typed]> result
             end) ∅ items
  | _ => ∅
  end.

(** ** Documents *)
Definition field (key : string) (document : list (string * any)) : any := default ANil (get key document).
(** The non-blank texts of a list. *)
Definition trimmed_texts (value : any) : list string :=
  match value with
  | AList items => omap (fun item => match item with
      | AString text => if bool_decide (TrimSpace text = "") then None else Some (TrimSpace text)
      | _ => None
      end) items
  | _ => []
  end.

Definition parse_service (svcMap : list (string * any)) : serviceSpec :=
  mkSpec (scalarStringMap (field "env" svcMap)) (trimmed_texts (field "devices" svcMap))
    (parseMemoryQuantity (field "memory" svcMap)) (parseCPUQuantity (field "cpu" svcMap)).
Definition sets_something (entry : serviceSpec) : bool :=
  negb (bool_decide (Env entry = ∅)) || negb (bool_decide (Devices entry = [])) ||
  (0 <? Memory entry) || (0 <? MilliCPU entry).

(** [range] is the order in which the entries of a map are visited, and the
    decoder gives the entries of the document, none for [null]. *)
Context (range : list (string * any) -> list (string * any))
  (unmarshal_map : string -> goerr + list (string * any))
  (unmarshal_refs : string -> goerr + list SecretReference).

Definition parse_services (services : list (string * any)) : gmap string serviceSpec :=
  foldl (fun result '(name, rawService) =>
    match rawService with
    | AMap svcMap =>
        let entry := parse_service svcMap in
        if sets_something entry then <[TrimSpace name := entry]> result else result
    | _ => result
    end) ∅ (range services).

Definition parseManagedProfileYAML (source : string) : goerr + profileRuntimeDocument :=
  let source := TrimSpace source in
  if bool_decide (source = "") then inr no_runtime
  else
    check document := unmarshal_map source in
    inr (mkRuntime (scalarStringMap (field "env" document))
      (match field "services" document with AMap services => parse_services services | _ => ∅ end)
      (match field "network" document with
       | AMap netBlock => match field "mode" netBlock with AString mode => TrimSpace (ToLower mode) | _ => "" end
       | _ => ""
       end)
      (Profiles.ExtractSecretRefsFromYAML unmarshal_refs source)
      (match field "agent" document with AMap agentBlock => trimmed_texts (field "tags" agentBlock) | _ => [] end)).
End Quantities.

(** ** The chain of profiles *)
Definition records_by_id (records : list ProfileRecord) : gmap string ProfileRecord :=
  foldl (fun byID record => <[TrimSpace (Profiles.ID record) := record]> byID) ∅ records.

(** The closure [visit], on the sets [visiting] and [visited] and the list
    [ordered].  Every call but the last two adds an identifier of [byID] to
    [visiting], so one call more than records, and one to fail, are enough
    ([chain_found]); [None] is fuel run out. *)
Fixpoint visit (fuel : nat) (byID : gmap string ProfileRecord) (id : string)
    (visiting visited : gset string) (ordered : list ProfileRecord)
    : option (RuntimeError + (gset string * gset string * list ProfileRecord)) :=
  match fuel with
  | O => None
  | S fuel =>
      let id := TrimSpace id in
      if bool_decide (id = "") then Some (inr (visiting, visited, ordered))
      else if bool_decide (id ∈ visiting) then Some (inl (InheritanceCycle id))
      else if bool_decide (id ∈ visited) then Some (inr (visiting, visited, ordered))
      else match byID !! id with
           | None => if bool_decide (id = "base") then Some (inr (visiting, visited, ordered))
                     else Some (inl (BaseMissing id))
           | Some record =>
               match visit fuel byID (Profiles.ExtendsID record) ({[id]} ∪ visiting) visited ordered with
               | Some (inr (visiting, visited, ordered)) =>
                   Some (inr (visiting ∖ {[id]}, {[id]} ∪ visited, ordered ++ [record]))
               | other => other
               end
           end
  end.
Definition resolveProfileChain (records : list ProfileRecord) (selectedID : string)
    : option (RuntimeError + list ProfileRecord) :=
  match visit (length records + 2) (records_by_id records) selectedID ∅ ∅ [] with
  | Some (inr (_, _, ordered)) => Some (inr ordered)
  | Some (inl err) => Some (inl err)
  | None => None
  end.

Definition findProfileRecord (records : list ProfileRecord) (fileName : string) : option ProfileRecord :=
  List.find (fun record => EqualFold (TrimSpace (Profiles.FileName record)) (TrimSpace fileName)) records.

(** One step of the loop over the chain. *)
Definition extend_runtime (runtime parsed : profileRuntimeDocument) (refs : list SecretReference)
    : profileRuntimeDocument :=
  mkRuntime (mergeRuntimeMaps [DocEnv runtime; DocEnv parsed])
    (mergeServiceSpecs (DocServices runtime) (DocServices parsed))
    (if bool_decide (DocNetworkMode parsed = "") then DocNetworkMode runtime else DocNetworkMode parsed)
    (mergeSecretRefs (DocSecretRefs runtime) [DocSecretRefs parsed; refs])
    (if bool_decide (DocAgentTags parsed = []) then DocAgentTags runtime else DocAgentTags parsed).

Section Profile.
Context (parse : string -> goerr + profileRuntimeDocument).

Fixpoint chain_runtime (chain : list ProfileRecord) (runtime : profileRuntimeDocument)
    : RuntimeError + profileRuntimeDocument :=
  match chain with
  | [] => inr runtime
  | current :: rest =>
      match parse (Profiles.YAML current) with
      | inl err => inl (ParseFailed (Profiles.FileName current) err)
      | inr parsed => chain_runtime rest (extend_runtime runtime parsed (Profiles.SecretRefs current))
      end
  end.

(** [profiles] answers the profiles of a suite; [None] when the suites do not
    come with managed profiles. *)
Definition resolveManagedProfileRuntime (profiles : option (string -> goerr + list ProfileRecord))
    (suiteID profile : string) : option (RuntimeError + profileRuntimeDocument) :=
  match profiles with
  | None => Some (inr no_runtime)
  | Some reader =>
      match reader suiteID with
      | inl err => Some (inl (ProfilesFailed suiteID err))
      | inr records =>
          match findProfileRecord records profile with
          | None => Some (inr no_runtime)
          | Some record =>
              match resolveProfileChain records (Profiles.ID record) with
              | None => None
              | Some (inl err) => Some (inl err)
              | Some (inr chain) => Some (chain_runtime chain no_runtime)
              end
          end
      end
  end.

(** The tags decide where a run may go; a profile that cannot be read asks
    for none. *)
Definition profileAgentTags (profiles : option (string -> goerr + list ProfileRecord))
    (suiteID profile : string) : list string :=
  match resolveManagedProfileRuntime profiles suiteID profile with
  | Some (inr runtime) => DocAgentTags runtime
  | _ => []
  end.
End Profile.

(** ** What a step gets from the overlay *)

(** The entry of a step, by its identifier and then by its name, if it sets
    what is asked. *)
Definition spec_of (services : gmap string serviceSpec) (node : Topology.TopologyNode) (asked : serviceSpec -> bool)
    : option serviceSpec :=
  match services !! TrimSpace (Topology.ID node) with
  | Some spec => if asked spec then Some spec
                 else match services !! TrimSpace (Topology.Name node) with
                      | Some spec => if asked spec then Some spec else None
                      | None => None
                      end
  | None => match services !! TrimSpace (Topology.Name node) with
            | Some spec => if asked spec then Some spec else None
            | None => None
            end
  end.
Definition has_env (spec : serviceSpec) : bool := negb (bool_decide (Env spec = ∅)).
Definition has_devices (spec : serviceSpec) : bool := negb (bool_decide (Devices spec = [])).

Definition serviceEnv (o : executionRuntimeOverlay) (node : Topology.TopologyNode) : strings :=
  match spec_of (Services o) node has_env with Some spec => Env spec | None => ∅ end.

(** The executions the service knows, with their overlays. *)
Definition resolveNodeRuntimeEnv (executions : gmap string executionRuntimeOverlay) (executionID : string)
    (node : Topology.TopologyNode) : strings :=
  match executions !! executionID with
  | None => Topology.RuntimeEnv node
  | Some runtime =>
      mergeRuntimeMaps [OverlayEnv runtime; Topology.RuntimeEnv node; serviceEnv runtime node; SecretEnv runtime]
  end.
Definition resolveExecutionNetworkName (executions : gmap string executionRuntimeOverlay) (executionID : string)
    : string :=
  match executions !! executionID with
  | Some runtime => if bool_decide (NetworkMode runtime = "execution")
                    then Containers.ExecutionNetworkName executionID else ""
  | None => ""
  end.
Definition resolveNodeDevices (executions : gmap string executionRuntimeOverlay) (executionID : string)
    (node : Topology.TopologyNode) : list string :=
  match executions !! executionID with
  | Some runtime => match spec_of (Services runtime) node has_devices with Some spec => Devices spec | None => [] end
  | None => []
  end.
Definition resolveNodeCPU (executions : gmap string executionRuntimeOverlay) (executionID : string)
    (node : Topology.TopologyNode) : Z :=
  match executions !! executionID with
  | Some runtime => match spec_of (Services runtime) node (fun spec => 0 <? MilliCPU spec) with
                    | Some spec => MilliCPU spec | None => 0 end
  | None => 0
  end.
Definition resolveNodeMemory (executions : gmap string executionRuntimeOverlay) (executionID : string)
    (node : Topology.TopologyNode) : Z :=
  match executions !! executionID with
  | Some runtime => match spec_of (Services runtime) node (fun spec => 0 <? Memory spec) with
                    | Some spec => Memory spec | None => 0 end
  | None => 0
  end.

(** ** Vault addresses *)
Definition vaultRanges : list string :=
  ["0.0.0.0/8"; "127.0.0.0/8"; "10.0.0.0/8"; "172.16.0.0/12"; "192.168.0.0/16"; "169.254.0.0/16";
   "100.64.0.0/10"; "192.0.0.0/24"; "198.18.0.0/15"; "240.0.0.0/4"; "255.255.255.255/32";
   "::1/128"; "fc00::/7"; "fe80::/10"; "::/128"].
Definition vaultBlockedNets : list ProxyTarget.IPNet := omap ProxyTarget.ParseCIDR vaultRanges.
Definition isVaultBlockedIP (ip : ProxyTarget.IP) : bool :=
  existsb (fun n => ProxyTarget.NetContains n ip) vaultBlockedNets.
Definition vault_blocked_text (addr : string) : bool :=
  match ProxyTarget.ParseIP addr with Some ip => isVaultBlockedIP ip | None => false end.

(** ** References *)
Definition contains_text (s sub : string) : bool := ContainsSub s sub.
Definition normalizeSecretProvider (provider ref : string) (settings : option SecretsConfig) : string :=
  let lowerProvider := ToLower (TrimSpace provider) in
  if HasPrefix (ToLower (TrimSpace ref)) "vault://" then "vault"
  else if HasPrefix (ToLower (TrimSpace ref)) "secrets://" then "local"
  else if contains_text lowerProvider "vault" then "vault"
  else if contains_text lowerProvider "local" then "local"
  else if bool_decide (lowerProvider = "") &&
          match settings with Some s => EqualFold (TrimSpace (Provider s)) "vault" | None => false end then "vault"
  else lowerProvider.

Definition vaultUnavailable (settings : option SecretsConfig) : bool :=
  match settings with
  | None => true
  | Some settings =>
      let provider := ToLower (TrimSpace (Provider settings)) in
      if bool_decide (provider = "none") then true
      else if bool_decide (provider = "") then
        bool_decide (TrimSpace (VaultAddress settings) = "") && bool_decide (TrimSpace (VaultNamespace settings) = "") &&
        bool_decide (TrimSpace (VaultRole settings) = "") && bool_decide (TrimSpace (SecretPrefix settings) = "")
      else false
  end.

(** The path under the mount and the field of a reference. *)
Definition normalizeVaultRef (rawRef prefix : string) : RuntimeError + (string * string) :=
  let ref := TrimSpace rawRef in
  if bool_decide (ref = "") then inl VaultRefEmpty
  else
    let '(pathPart, field, found) := Cut (TrimPrefix ref "vault://") "#" in
    let field := if found : bool then TrimSpace field else "" in
    let pathPart := Trim (TrimSpace pathPart) "/" in
    if bool_decide (pathPart = "") then inl (VaultRefWithoutPath rawRef)
    else
      let prefix := Trim (TrimSpace prefix) "/" in
      let pathPart :=
        if negb (bool_decide (prefix = "")) && negb (HasPrefix pathPart prefix) then
          let mount := (Cut prefix "/").1.1 in
          if bool_decide (mount = "") || negb (HasPrefix pathPart (mount +:+ "/"))
          then prefix +:+ "/" +:+ pathPart else pathPart
        else pathPart in
      inr (Suites.Clean pathPart, field).

(** ** Fields of a secret *)
Definition scalarString (value : any) : option string :=
  match value with
  | AString typed => Some typed
  | ABool _ | AInt _ | AInt64 _ | AFloat _ => Some (Sprint value)
  | _ => None
  end.

Section Secrets.
(** The order of a range over a map, the process environment, and the decoder
    of the body of an answer into a map. *)
Context (range : list (string * any) -> list (string * any)) (LookupEnv : string -> option string)
  (decode : string -> option (list (string * any))).

Definition lookupScalarValue (values : list (string * any)) (candidate : string) : option string :=
  match get candidate values with
  | Some raw => scalarString raw
  | None =>
      match List.find (fun entry => EqualFold (TrimSpace entry.1) (TrimSpace candidate)) (range values) with
      | Some (_, raw) => scalarString raw
      | None => None
      end
  end.

Definition addCandidate (candidates : list string) (candidate : string) : list string :=
  let candidate := TrimSpace candidate in
  if bool_decide (candidate = "") || bool_decide (candidate ∈ candidates) then candidates
  else candidates ++ [candidate].
Definition field_candidates (envKey explicitField : string) : list string :=
  foldl addCandidate []
    [explicitField; envKey; ToLower envKey; ToLower (ReplaceByte envKey "_" "-");
     ToLower (ReplaceByte envKey "-" "_"); "value"; "secret"; "token"].
Fixpoint first_candidate (values : list (string * any)) (candidates : list string) : option string :=
  match candidates with
  | [] => None
  | candidate :: rest =>
      match lookupScalarValue values candidate with
      | Some value => Some value
      | None => first_candidate values rest
      end
  end.
Definition selectSecretField (values : list (string * any)) (envKey explicitField : string)
    : RuntimeError + string :=
  if bool_decide (values = []) then inl (SecretEmpty envKey)
  else match first_candidate values (field_candidates envKey explicitField) with
       | Some value => inr value
       | None =>
           match omap (fun entry => scalarString entry.2) (range values) with
           | [value] => inr value
           | _ => inl (SecretFieldUnclear envKey)
           end
       end.
Definition extractVaultSecretValue (payload : list (string * any)) (envKey explicitField : string)
    : RuntimeError + string :=
  match field "data" payload with
  | AMap data =>
      match field "data" data with
      | AMap nested => selectSecretField nested envKey explicitField
      | _ => selectSecretField data envKey explicitField
      end
  | _ => inl (VaultDataMissing envKey)
  end.

(** ** Secrets of the process environment *)
Definition sanitizeEnvToken (value : string) : string :=
  ToUpper (to_string ((fun c => if bool_decide (c ∈ ["/"; "-"; "."; ":"]%char) then "_"%char else c)
                        <$> of_string (TrimSpace value))).
(** The candidates without underscores around them, the first of equal ones. *)
Definition distinct_candidates (candidates : list string) : list string :=
  foldl (fun ordered candidate =>
    let candidate := Trim candidate "_" in
    if bool_decide (candidate = "") || bool_decide (candidate ∈ ordered) then ordered else ordered ++ [candidate])
    [] candidates.
Definition localSecretEnvCandidates (ref : SecretReference) : list string :=
  let pathRef := TrimSpace (TrimPrefix (TrimSpace (Profiles.Ref ref)) "secrets://") in
  let slash := LastIndex pathRef "/" in
  distinct_candidates
    ([TrimSpace (Profiles.Key ref); sanitizeEnvToken pathRef; "BABELSUITE_SECRET_" +:+ sanitizeEnvToken pathRef] ++
     if (0 <=? slash) && (slash + 1 <? Z.of_nat (String.length pathRef))
     then [sanitizeEnvToken (slice_from pathRef (slash + 1))] else []).

Fixpoint firstEnvValue (keys : list string) : option string :=
  match keys with
  | [] => None
  | key :: rest => match LookupEnv key with Some value => Some value | None => firstEnvValue rest end
  end.

Definition resolveLocal (settings : option SecretsConfig) (ref : SecretReference) : RuntimeError + string :=
  let key := TrimSpace (Profiles.Key ref) in
  let overrides := match settings with Some s => GlobalOverrides s | None => [] end in
  match List.find (fun override => EqualFold (TrimSpace (OverrideKey override)) key) overrides with
  | Some override => inr (OverrideValue override)
  | None =>
      match firstEnvValue (localSecretEnvCandidates ref) with
      | Some value => inr value
      | None => inl (LocalUnresolved (Profiles.Ref ref))
      end
  end.

(** ** Secrets of Vault *)

(** [url.JoinPath(base, elem...)]: a path that cannot be decoded leaves the
    address as it is. *)
Definition path_Join (elements : list string) : string :=
  let elements := filter (fun e => e <> "") elements in
  if bool_decide (elements = []) then "" else Suites.Clean (Join elements "/").
Definition setPath (u : Url.URL) (p : string) : option Url.URL :=
  path ← Url.unescape Url.encodePath (of_string p);
  Some {| Url.Scheme := Url.Scheme u; Url.Opaque := Url.Opaque u; Url.User := Url.User u; Url.Host := Url.Host u;
          Url.Path := to_string path; Url.RawQuery := Url.RawQuery u; Url.Fragment := Url.Fragment u;
          Url.RawPath := Url.raw_form Url.encodePath (of_string p) (to_string path);
          Url.RawFragment := Url.RawFragment u; Url.ForceQuery := Url.ForceQuery u; Url.OmitHost := Url.OmitHost u |}.

(** A request to Vault and its answer. *)
Record VaultRequest := mkVaultRequest { Target : string; Token : string; Namespace : string }.
Record VaultAnswer := mkVaultAnswer { StatusCode : Z; Status : string; Body : string }.

Context (ip_literal : string -> bool) (LookupHost : string -> option (list string))
  (Do : VaultRequest -> goerr + VaultAnswer) (error_text : goerr -> string).

Definition validateVaultAddress (raw : string) : option RuntimeError :=
  match Url.Parse ip_literal raw with
  | None => Some VaultAddressBad
  | Some u =>
      if negb (bool_decide (Url.Scheme u = "http")) && negb (bool_decide (Url.Scheme u = "https"))
      then Some VaultSchemeBad
      else
        let host := ProxyTarget.Hostname (Url.Host u) in
        match ProxyTarget.ParseIP host with
        | Some ip => if isVaultBlockedIP ip then Some VaultAddressReserved else None
        | None =>
            match LookupHost host with
            | None => Some VaultHostUnresolved
            | Some addrs => if existsb vault_blocked_text addrs then Some VaultAddressReserved else None
            end
        end
  end.

Definition JoinPath (base : string) (elem : list string) : option string :=
  u ← Url.Parse ip_literal base;
  let escaped := Url.EscapedPath u in
  let rooted := HasPrefix escaped "/" in
  let elem := (if rooted then escaped else "/" +:+ escaped) :: elem in
  let p := path_Join elem in
  let p := if rooted then p else slice_from p 1 in
  let p := if HasSuffix (default "" (last elem)) "/" && negb (HasSuffix p "/") then p +:+ "/" else p in
  Some (Url.URL_String (default u (setPath u p))).

(** The result and the requests that were sent. *)
Definition resolveVault (settings : option SecretsConfig) (ref : SecretReference)
    : (RuntimeError + string) * list VaultRequest :=
  match settings with
  | None => (inl VaultNotConfigured, [])
  | Some settings =>
  if vaultUnavailable (Some settings) then (inl VaultNotConfigured, [])
  else
    let provider := ToLower (TrimSpace (Provider settings)) in
    if negb (bool_decide (provider = "")) && negb (bool_decide (provider = "vault")) && negb (bool_decide (provider = "none"))
    then (inl (ProviderCannotResolve (Provider settings)), [])
    else
      let address := TrimSpace (VaultAddress settings) in
      if bool_decide (address = "") then (inl VaultAddressMissing, [])
      else match firstEnvValue ["BABELSUITE_VAULT_TOKEN"; "VAULT_TOKEN"] with
      | None => (inl (VaultTokenMissing (Profiles.Key ref)), [])
      | Some token =>
      match normalizeVaultRef (Profiles.Ref ref) (SecretPrefix settings) with
      | inl err => (inl err, [])
      | inr (secretPath, fieldName) =>
      match validateVaultAddress address with
      | Some err => (inl err, [])
      | None =>
      match JoinPath (TrimRight address "/") ["v1"; secretPath] with
      | None => (inl (VaultTargetBad address), [])
      | Some target =>
          let request := mkVaultRequest target token (TrimSpace (VaultNamespace settings)) in
          if negb (bool_decide (is_Some (Url.Parse ip_literal target))) then (inl VaultRequestFailed, []) else
          (match Do request with
           | inl err => inl (VaultLookupFailed (Profiles.Key ref) (error_text err))
           | inr answer =>
               if (StatusCode answer <? 200) || (300 <=? StatusCode answer) then
                 let detail := TrimSpace (slice_to (Body answer) 512) in
                 inl (VaultLookupFailed (Profiles.Key ref)
                        (if bool_decide (detail = "") then Status answer else detail))
               else match decode (Body answer) with
                    | None => inl (VaultBodyBad (Profiles.Key ref))
                    | Some payload => extractVaultSecretValue payload (Profiles.Key ref) fieldName
                    end
           end, [request])
      end end end end
  end.

Definition Resolve (settings : option SecretsConfig) (ref : SecretReference)
    : (RuntimeError + string) * list VaultRequest :=
  let provider := normalizeSecretProvider (Profiles.Provider ref) (Profiles.Ref ref) settings in
  if bool_decide (provider = "vault") then resolveVault settings ref
  else if bool_decide (provider = "local") then (resolveLocal settings ref, [])
  else (inl (UnsupportedProvider (Profiles.Provider ref) (Profiles.Key ref)), []).

(** The loop over the references: an unavailable secret is left out, any other
    error ends the loop. *)
Fixpoint resolve_refs (settings : option SecretsConfig) (refs : list SecretReference) (env : strings)
    (sent : list VaultRequest) : (RuntimeError + strings) * list VaultRequest :=
  match refs with
  | [] => (inr env, sent)
  | ref :: rest =>
      let key := TrimSpace (Profiles.Key ref) in
      if bool_decide (key = "") then resolve_refs settings rest env sent
      else
        let '(value, requests) := Resolve settings ref in
        match value with
        | inr value => resolve_refs settings rest (<[key := value]> env) (sent ++ requests)
        | inl err => if secret_unavailable err then resolve_refs settings rest env (sent ++ requests)
                     else (inl err, sent ++ requests)
        end
  end.
Definition resolveProfileSecrets (settings : option SecretsConfig) (refs : list SecretReference)
    : (RuntimeError + strings) * list VaultRequest := resolve_refs settings refs ∅ [].

(** ** The overlay of an execution *)
Definition resolveExecutionRuntimeOverlay (loadPlatformSettings : goerr + option SecretsConfig)
    (profile : option (RuntimeError + profileRuntimeDocument))
    : option (RuntimeError + executionRuntimeOverlay) * list VaultRequest :=
  match loadPlatformSettings with
  | inl err => (Some (inl (SettingsFailed err)), [])
  | inr settings =>
      match profile with
      | None => (None, [])
      | Some (inl err) => (Some (inl err), [])
      | Some (inr runtime) =>
          let '(secretEnv, sent) := resolveProfileSecrets settings (DocSecretRefs runtime) in
          (Some (check secretEnv := secretEnv in
                 inr (mkOverlay (mergeRuntimeMaps [DocEnv runtime; platformGlobalOverrideEnv settings])
                        (cloneServiceMap (DocServices runtime)) secretEnv (DocNetworkMode runtime))), sent)
      end
  end.
End Secrets.

(** * The chain is the line of ancestors *)
Section Chain.
Context (byID : gmap string ProfileRecord).

(** The ancestors of the profile [k], the profile last: up to a profile that
    extends nothing, or [base] when there is no such record. *)
Inductive lineage : string -> list ProfileRecord -> Prop :=
  | lineage_end : lineage "" []
  | lineage_base : byID !! "base" = None -> lineage "base" []
  | lineage_step k r rest : k <> "" -> byID !! k = Some r -> lineage (TrimSpace (Profiles.ExtendsID r)) rest ->
      lineage k (rest ++ [r]).

Definition extends (k k' : string) : Prop :=
  exists r, k <> "" /\ byID !! k = Some r /\ k' = TrimSpace (Profiles.ExtendsID r).

Lemma lineage_det k a : lineage k a -> forall b, lineage k b -> a = b.
Proof using Type.
  induction 1 as [|Hb|k r rest Hk Hr _ IH]; intros b Hl.
  - by inversion Hl.
  - inversion Hl; [done|congruence].
  - inversion Hl as [|Hb|k' r' rest' Hk' Hr' Hl']; subst; [done|congruence|].
    assert (r' = r) as -> by congruence. by rewrite (IH rest').
Qed.
Lemma lineage_shrinks k k' a : tc extends k k' -> lineage k a -> exists b, lineage k' b /\ (length b < length a)%nat.
Proof using Type.
  intros Ht. revert a. assert (forall x y a, extends x y -> lineage x a -> exists b, lineage y b /\ (length b < length a)%nat) as Hone.
  { intros x y a (r & Hx & Hr & ->) Hl. inversion Hl as [|Hb|k0 r' rest' Hk' Hr' Hl']; subst; [done|congruence|].
    assert (r' = r) as -> by congruence. exists rest'. rewrite length_app. cbn. split; [done|lia]. }
  induction Ht as [x y Hxy|x y z Hxy _ IH]; intros a Hl; [by apply (Hone x)|].
  destruct (Hone _ _ _ Hxy Hl) as (b & Hb & ?). destruct (IH _ Hb) as (c & Hc & ?). exists c. split; [done|lia].
Qed.
Lemma lineage_acyclic k a : lineage k a -> ~ tc extends k k.
Proof using Type.
  intros Hl Ht. destruct (lineage_shrinks _ _ _ Ht Hl) as (b & Hb & Hlt). rewrite (lineage_det _ _ Hl _ Hb) in Hlt. lia.
Qed.

Lemma visit_sound fuel : forall id visiting V ordered,
  visit fuel byID id visiting ∅ [] = Some (inr (V, ordered)) -> lineage (TrimSpace id) ordered.
Proof using Type.
  induction fuel as [|fuel IH]; intros id visiting V ordered E; [done|]. cbn [visit] in E.
  case_bool_decide as Hid; [injection E as <- <-; rewrite Hid; constructor|].
  case_bool_decide; [done|]. rewrite bool_decide_eq_false_2 in E by set_solver.
  destruct (byID !! TrimSpace id) as [r|] eqn:Hr.
  - destruct (visit fuel byID _ _ ∅ []) as [[|[[V1 D1] o1]]|] eqn:Ev; [done| |done]. injection E as <- <-.
    apply lineage_step; [done..|]. by eapply IH.
  - case_bool_decide as Hb; [|done]. injection E as <- <-. rewrite Hb in *. by constructor.
Qed.

Lemma visit_complete fuel : forall id visiting err,
  (forall v, v ∈ visiting -> tc extends v (TrimSpace id)) ->
  visit fuel byID id visiting ∅ [] = Some (inl err) -> forall chain, ~ lineage (TrimSpace id) chain.
Proof using Type.
  induction fuel as [|fuel IH]; intros id visiting err Hv E chain Hl; [done|]. cbn [visit] in E.
  case_bool_decide as Hid; [done|].
  case_bool_decide as Hin; [by eapply lineage_acyclic, Hv|]. rewrite bool_decide_eq_false_2 in E by set_solver.
  destruct (byID !! TrimSpace id) as [r|] eqn:Hr.
  - destruct (visit fuel byID _ _ ∅ []) as [[err1|[[V1 D1] o1]]|] eqn:Ev; [|done|done].
    assert (extends (TrimSpace id) (TrimSpace (Profiles.ExtendsID r))) as He by by exists r.
    inversion Hl as [H0|Hb H0|k0 r' rest' Hk' Hr' Hl']; subst; [congruence|congruence|].
    assert (r' = r) as -> by congruence.
    refine (IH _ _ _ _ Ev rest' Hl'). intros v [->%elem_of_singleton|Hv']%elem_of_union; [by apply tc_once|].
    eapply tc_r; [by apply Hv|done].
  - case_bool_decide; [done|]. inversion Hl; subst; congruence.
Qed.

Lemma visit_total fuel : forall id visiting visited ordered, (size (dom byID ∖ visiting) < fuel)%nat ->
  visit fuel byID id visiting visited ordered <> None.
Proof using Type.
  induction fuel as [|fuel IH]; intros id visiting visited ordered Hf; [lia|]. cbn [visit].
  case_bool_decide; [done|]. case_bool_decide; [done|]. case_bool_decide; [done|].
  destruct (byID !! TrimSpace id) as [r|] eqn:Hr; [|by case_bool_decide].
  assert (size (dom byID ∖ ({[TrimSpace id]} ∪ visiting)) < size (dom byID ∖ visiting))%nat as Hlt.
  { apply subset_size. assert (TrimSpace id ∈ dom byID) by by eapply elem_of_dom_2. set_solver. }
  specialize (IH (Profiles.ExtendsID r) ({[TrimSpace id]} ∪ visiting) visited ordered ltac:(lia)).
  by destruct (visit fuel byID _ _ _ _) as [[|[[? ?] ?]]|].
Qed.
End Chain.

Lemma records_by_id_size records : (size (records_by_id records) <= length records)%nat.
Proof.
  unfold records_by_id. assert (forall m : gmap string ProfileRecord, (size (foldl (fun byID record =>
    <[TrimSpace (Profiles.ID record) := record]> byID) m records) <= size m + length records)%nat) as H.
  { induction records as [|r records IH]; intros m; cbn [foldl length]; [lia|]. etransitivity; [apply IH|].
    destruct (m !! TrimSpace (Profiles.ID r)) eqn:E.
    - rewrite map_size_insert_Some by (by rewrite E). lia.
    - rewrite map_size_insert_None by done. lia. }
  etransitivity; [apply H|]. rewrite map_size_empty. lia.
Qed.

(** The chain is found, or there is none. *)
Lemma chain_found records selectedID : exists result, resolveProfileChain records selectedID = Some result /\
  forall chain, result = inr chain <-> lineage (records_by_id records) (TrimSpace selectedID) chain.
Proof.
  unfold resolveProfileChain. pose proof (records_by_id_size records) as Hs.
  destruct (visit _ _ _ ∅ ∅ []) as [[err|[V ordered]]|] eqn:E.
  - exists (inl err). split; [done|]. intros chain. split; [done|]. intros Hl. exfalso.
    eapply visit_complete; [|exact E|exact Hl]. set_solver.
  - destruct V as [V D]. exists (inr ordered). split; [done|]. apply visit_sound in E.
    intros chain. split; [by intros [= <-]|]. intros Hl. f_equal. by eapply lineage_det.
  - exfalso. revert E. apply visit_total. rewrite difference_empty_L, size_dom. lia.
Qed.

(** C15: Resolving the inheritance of a profile always ends, and answers exactly its line of ancestors,
    oldest first, up to one that extends nothing or a missing base; it fails for circles and for other
    missing ancestors. *)
Theorem chain_is_lineage records selectedID : exists result, resolveProfileChain records selectedID = Some result /\
  forall chain, result = inr chain <-> lineage (records_by_id records) (TrimSpace selectedID) chain.
Proof. apply chain_found. Qed.

(** * The environment of a step *)

(** The value of the first map that has the key. *)
Fixpoint first_set (maps : list strings) (k : string) : option string :=
  match maps with
  | [] => None
  | m :: rest => match m !! k with Some v => Some v | None => first_set rest k end
  end.

Lemma first_set_app a b k : first_set (a ++ b) k = match first_set a k with Some v => Some v | None => first_set b k end.
Proof. induction a as [|m a IH]; cbn; [done|]. by destruct (m !! k). Qed.
Lemma mergeRuntimeMaps_lookup items k : mergeRuntimeMaps items !! k = first_set (reverse items) k.
Proof.
  unfold mergeRuntimeMaps. assert (forall m : strings, foldl (fun merged item => item ∪ merged) m items !! k =
    match first_set (reverse items) k with Some v => Some v | None => m !! k end) as H.
  { induction items as [|item items IH]; intros m; cbn [foldl]; [done|].
    rewrite IH, reverse_cons, first_set_app. destruct (first_set (reverse items) k); [done|]. cbn.
    rewrite lookup_union. by destruct (item !! k), (m !! k). }
  rewrite H, lookup_empty. by destruct (first_set _ _).
Qed.

Lemma chain_runtime_docs parse chain : forall runtime runtime', chain_runtime parse chain runtime = inr runtime' ->
  exists docs, Forall2 (fun r d => parse (Profiles.YAML r) = inr d) chain docs /\
    runtime' = foldl (fun rt '(r, d) => extend_runtime rt d (Profiles.SecretRefs r)) runtime (zip chain docs).
Proof.
  induction chain as [|r chain IH]; intros runtime runtime' E; cbn [chain_runtime] in E.
  - injection E as <-. by exists [].
  - destruct (parse (Profiles.YAML r)) as [err|d] eqn:Ep; [done|].
    destruct (IH _ _ E) as (docs & Hd & ->). exists (d :: docs). split; [by constructor|done].
Qed.

Lemma extended_env (k : string) chain : forall docs runtime, length chain = length docs ->
  DocEnv (foldl (fun rt '(r, d) => extend_runtime rt d (Profiles.SecretRefs r)) runtime (zip chain docs)) !! k =
  first_set (reverse (DocEnv <$> docs) ++ [DocEnv runtime]) k.
Proof.
  induction chain as [|r chain IH]; intros [|d docs] runtime Hl; try done.
  { cbn. by destruct (DocEnv runtime !! k). }
  cbn [zip zip_with foldl]. rewrite IH by (cbn in Hl; lia). cbn [fmap list_fmap].
  rewrite reverse_cons, <- app_assoc, !first_set_app. destruct (first_set (reverse _) k); [done|].
  cbn [extend_runtime DocEnv first_set app]. rewrite mergeRuntimeMaps_lookup. cbn.
  by destruct (DocEnv d !! k), (DocEnv runtime !! k).
Qed.

(** C14: A step of an execution whose profile was read gets, for each variable, the value of the first of:
    the secrets, the service's entry of the profiles, the step's own environment, the global overrides of
    the platform, and then the profiles from the selected one up its line of ancestors. *)
Theorem step_environment parse range LookupEnv decode ip_literal LookupHost Do error_text
    reader suiteID profile records record settings overlay sent executions executionID node :
  reader suiteID = inr records -> findProfileRecord records profile = Some record ->
  resolveExecutionRuntimeOverlay range LookupEnv decode ip_literal LookupHost Do error_text (inr settings)
    (resolveManagedProfileRuntime parse (Some reader) suiteID profile) = (Some (inr overlay), sent) ->
  executions !! executionID = Some overlay ->
  exists chain docs, lineage (records_by_id records) (TrimSpace (Profiles.ID record)) chain /\
    Forall2 (fun r d => parse (Profiles.YAML r) = inr d) chain docs /\
    forall k, resolveNodeRuntimeEnv executions executionID node !! k =
      first_set ([SecretEnv overlay; serviceEnv overlay node; Topology.RuntimeEnv node;
                  platformGlobalOverrideEnv settings] ++ reverse (DocEnv <$> docs)) k.
Proof.
  intros Hreader Hfind Hover Hexec. unfold resolveManagedProfileRuntime in Hover. rewrite Hreader, Hfind in Hover.
  destruct (chain_found records (Profiles.ID record)) as (result & Hchain & Hspec). rewrite Hchain in Hover.
  destruct result as [err|chain]; [done|].
  destruct (chain_runtime parse chain no_runtime) as [err|runtime] eqn:Er; [done|].
  destruct (chain_runtime_docs _ _ _ _ Er) as (docs & Hdocs & Hrt). pose proof (Forall2_length _ _ _ Hdocs) as Hlen.
  cbn [resolveExecutionRuntimeOverlay] in Hover.
  destruct (resolveProfileSecrets _ _ _ _ _ _ _ settings (DocSecretRefs runtime)) as [[err|secretEnv] sent']; [done|].
  injection Hover as Hoverlay _. exists chain, docs. split; [by apply Hspec|]. split; [done|]. intros k.
  unfold resolveNodeRuntimeEnv. rewrite Hexec, mergeRuntimeMaps_lookup.
  change (reverse [OverlayEnv overlay; Topology.RuntimeEnv node; serviceEnv overlay node; SecretEnv overlay])
    with [SecretEnv overlay; serviceEnv overlay node; Topology.RuntimeEnv node; OverlayEnv overlay].
  cbn [first_set app]. destruct (SecretEnv overlay !! k); [done|]. destruct (serviceEnv overlay node !! k); [done|].
  destruct (Topology.RuntimeEnv node !! k); [done|]. rewrite <- Hoverlay. cbn [OverlayEnv].
  rewrite mergeRuntimeMaps_lookup. cbn. destruct (platformGlobalOverrideEnv settings !! k); [done|].
  rewrite Hrt, extended_env by done. rewrite first_set_app. cbn. rewrite lookup_empty.
  by destruct (first_set _ k).
Qed.

(** * Vault is asked only at checked addresses *)
Lemma vault_nets : vaultBlockedNets = ProxyTarget.privateIPNets.
Proof. reflexivity. Qed.
Lemma vault_blocked ip : isVaultBlockedIP ip = ProxyTarget.isBlockedIP ip.
Proof. unfold isVaultBlockedIP, ProxyTarget.isBlockedIP. by rewrite vault_nets. Qed.

Section Checked.
Context (range : list (string * any) -> list (string * any)) (LookupEnv : string -> option string)
  (decode : string -> option (list (string * any))) (ip_literal : string -> bool)
  (LookupHost : string -> option (list string)) (Do : VaultRequest -> goerr + VaultAnswer) (error_text : goerr -> string).
Notation resolveVault := (resolveVault range LookupEnv decode ip_literal LookupHost Do error_text).

(** The host of the address is an IP address that is not private, or a name
    none of whose addresses is one. *)
Definition public_address (address : string) : Prop := exists u,
  Url.Parse ip_literal address = Some u /\ (Url.Scheme u = "http" \/ Url.Scheme u = "https") /\
  let host := ProxyTarget.Hostname (Url.Host u) in
  match ProxyTarget.ParseIP host with
  | Some ip => ~ ProxyTarget.private ip
  | None => exists addrs, LookupHost host = Some addrs /\
      forall addr ip, addr ∈ addrs -> ProxyTarget.ParseIP addr = Some ip -> ~ ProxyTarget.private ip
  end.

Lemma not_private s ip : ProxyTarget.ParseIP s = Some ip -> isVaultBlockedIP ip = false -> ~ ProxyTarget.private ip.
Proof using Type.
  intros Hs Hb Hp. rewrite vault_blocked in Hb.
  apply (ProxyTarget.isBlockedIP_exact ip) in Hp; [congruence|]. by eapply ProxyTarget.ParseIP_octets.
Qed.
Lemma validated_public address : validateVaultAddress ip_literal LookupHost address = None -> public_address address.
Proof using Type.
  unfold validateVaultAddress, public_address. destruct (Url.Parse ip_literal address) as [u|]; [|done].
  destruct (negb _ && negb _) eqn:Es; [done|]. intros E. exists u. split; [done|]. split.
  { bool_to_prop. destruct Es as [Es|Es]; apply negb_false_iff, bool_decide_eq_true in Es; auto. }
  cbn zeta. destruct (ProxyTarget.ParseIP _) as [ip|] eqn:Ei.
  - destruct (isVaultBlockedIP ip) eqn:Eb; [done|]. by eapply not_private.
  - destruct (LookupHost _) as [addrs|]; [|done]. exists addrs. split; [done|].
    destruct (existsb vault_blocked_text addrs) eqn:Ex; [done|]. intros addr ip Hin Ha.
    eapply not_private; [exact Ha|]. destruct (isVaultBlockedIP ip) eqn:Eb; [|done]. exfalso.
    assert (existsb vault_blocked_text addrs = true) as Ht; [|congruence]. apply existsb_exists. exists addr.
    split; [by apply list_elem_of_In|]. unfold vault_blocked_text. by rewrite Ha.
Qed.

(** What every request was sent for. *)
Definition justified (settings : option SecretsConfig) (request : VaultRequest) : Prop :=
  exists s, settings = Some s /\ vaultUnavailable settings = false /\
    public_address (TrimSpace (VaultAddress s)) /\ Namespace request = TrimSpace (VaultNamespace s) /\
    (LookupEnv "BABELSUITE_VAULT_TOKEN" = Some (Token request) \/
     LookupEnv "BABELSUITE_VAULT_TOKEN" = None /\ LookupEnv "VAULT_TOKEN" = Some (Token request)).

Lemma first_env_two a b token : firstEnvValue LookupEnv [a; b] = Some token ->
  LookupEnv a = Some token \/ LookupEnv a = None /\ LookupEnv b = Some token.
Proof using Type. cbn. destruct (LookupEnv a); [by left|]. destruct (LookupEnv b); [by right|done]. Qed.

Lemma resolveVault_justified settings ref request : request ∈ (resolveVault settings ref).2 -> justified settings request.
Proof using Type.
  unfold ProfileRuntime.resolveVault. destruct settings as [s|]; [|set_solver].
  destruct (vaultUnavailable (Some s)) eqn:Eu; [set_solver|]. destruct (_ && _ && _); [set_solver|].
  case_bool_decide; [set_solver|]. destruct (firstEnvValue _ _) as [token|] eqn:Et; [|set_solver].
  destruct (normalizeVaultRef _ _) as [|[secretPath fieldName]]; [set_solver|].
  destruct (validateVaultAddress _ _ _) eqn:Ev; [set_solver|]. destruct (JoinPath _ _ _) as [target|]; [|set_solver].
  destruct (negb _); [set_solver|]. cbn [snd]. intros ->%list_elem_of_singleton. exists s.
  split_and!; [done|done|by apply validated_public|done|by apply first_env_two].
Qed.

Lemma resolve_refs_justified settings refs : forall env sent request,
  request ∈ (resolve_refs range LookupEnv decode ip_literal LookupHost Do error_text settings refs env sent).2 ->
  request ∈ sent \/ justified settings request.
Proof using Type.
  induction refs as [|ref refs IH]; intros env sent request Hin; cbn [resolve_refs] in Hin; [by left|].
  case_bool_decide; [by apply IH in Hin|].
  destruct (Resolve range LookupEnv decode ip_literal LookupHost Do error_text settings ref) as [value requests] eqn:Er.
  assert (request ∈ sent ++ requests -> request ∈ sent \/ justified settings request) as Hstep.
  { intros [?|Hr]%elem_of_app; [by left|]. right. unfold Resolve in Er. case_bool_decide; [|case_bool_decide].
    - apply (resolveVault_justified settings ref). by rewrite Er.
    - injection Er as _ <-. set_solver.
    - injection Er as _ <-. set_solver. }
  destruct value as [err|value]; [destruct (secret_unavailable err)|].
  - apply IH in Hin as [Hin|]; [by apply Hstep|by right].
  - by apply Hstep.
  - apply IH in Hin as [Hin|]; [by apply Hstep|by right].
Qed.

(** Resolving the secrets of a profile sends a request to Vault only when Vault is configured, with
    the token of the environment, and when the configured address is an http or https one whose host is,
    and resolves to, no private or reserved address. *)
Theorem vault_requests_justified settings refs request :
  request ∈ (resolveProfileSecrets range LookupEnv decode ip_literal LookupHost Do error_text settings refs).2 ->
  justified settings request.
Proof using Type. intros [?|]%resolve_refs_justified; [set_solver|done]. Qed.
End Checked.

(** * Examples *)
Definition no_host (text : string) : bool := false.
(** A reference can leave the prefix of the secrets, and the API of the address. *)
Example vault_ref_leaves_prefix :
  normalizeVaultRef "vault://kv/payments/../../sys/raw#x" "kv/payments" = inr ("sys/raw", "x") /\
  normalizeVaultRef "../../sys/raw" "kv/payments" = inr ("sys/raw", "") /\
  JoinPath no_host "https://vault.example.com" ["v1"; "../sys/raw"] = Some "https://vault.example.com/sys/raw".
Proof. vm_compute. auto. Qed.
Example vault_ref_ex : normalizeVaultRef " vault://db-password # user " "kv/payments/" = inr ("kv/payments/db-password", "user") /\
  normalizeVaultRef "kv/orders/db" "kv/payments" = inr ("kv/orders/db", "").
Proof. vm_compute. auto. Qed.
(** A number is cut to whole millicores after a floating point product, a text
    is read exactly. *)
Example cpu_number_truncated :
  (fun f => parseCPUQuantity (fun _ => Some 1009) (AFloat f)) <$> ParseFloat "1.009" = Some 1008 /\
  parseCPUQuantity (fun _ => Some 1009) (AString "1.009") = 1009.
Proof. vm_compute. auto. Qed.
Example candidates_ex :
  localSecretEnvCandidates (Profiles.mkSecret "DB_PASSWORD" "" "secrets://payments/db-password") =
  ["DB_PASSWORD"; "PAYMENTS_DB_PASSWORD"; "BABELSUITE_SECRET_PAYMENTS_DB_PASSWORD"].
Proof. vm_compute. reflexivity. Qed.
(** The address of a zone is no IP address to [net.ParseIP], so it is not
    compared with the blocked networks. *)
Example vault_zone_not_blocked :
  validateVaultAddress no_host (fun _ => Some ["fe80::1%eth0"]) "http://vault.internal:8200" = None.
Proof. vm_compute. reflexivity. Qed.

Definition sample_record (id fileName extends yaml : string) (refs : list SecretReference) : ProfileRecord :=
  Profiles.mkRecord id id fileName "" "" yaml refs false extends true 1.
Definition sample_records : list ProfileRecord :=
  [sample_record "base" "base.yaml" "" "base" [];
   sample_record "ci" "ci.yaml" "base" "ci" [Profiles.mkSecret "TOKEN" "vault" "kv/app/token"]].
Definition sample_unmarshal (source : string) : goerr + list (string * any) :=
  if bool_decide (source = "base") then inr [("env", AMap [("LEVEL", AString "info"); ("MODE", AString "plain")])]
  else inr [("env", AMap [("LEVEL", AString "debug")]);
            ("services", AMap [("api", AMap [("env", AMap [("PORT", AInt 8080)])])])].
Definition sample_parse : string -> goerr + profileRuntimeDocument :=
  parseManagedProfileYAML (fun _ => None) (fun _ => None) (fun entries => entries) sample_unmarshal (fun _ => inr []).
Definition sample_settings : option SecretsConfig :=
  Some (mkSecrets "vault" "https://vault.example.com" "team" "" "" [mkOverride "MODE" "strict"]).
Definition sample_env (key : string) : option string := if bool_decide (key = "VAULT_TOKEN") then Some "t0ken" else None.
Definition sample_host (host : string) : option (list string) := Some ["93.184.216.34"].
Definition sample_do (request : VaultRequest) : goerr + VaultAnswer := inr (mkVaultAnswer 200 "200 OK" "{}").
Definition sample_decode (body : string) : option (list (string * any)) :=
  Some [("data", AMap [("data", AMap [("token", AString "s3cret")])])].
Notation sample f := (f (fun entries => entries) sample_env sample_decode no_host sample_host sample_do (fun _ => "")).
Definition sample_node : Topology.TopologyNode :=
  Topology.mkNode "api" "api" "service" "" 0%nat [] [] [] false 0 "" "" "" "" "" "" "" "" {["HOST" := "api"]} ∅ 0.
Definition sample_overlay : option (RuntimeError + executionRuntimeOverlay) * list VaultRequest :=
  sample resolveExecutionRuntimeOverlay (inr sample_settings)
    (resolveManagedProfileRuntime sample_parse (Some (fun _ => inr sample_records)) "payments" "CI.yaml").

Lemma chain_ex : resolveProfileChain sample_records "ci" = Some (inr sample_records) /\
  resolveProfileChain [sample_record "a" "a.yaml" "a" "" []] "a" = Some (inl (InheritanceCycle "a")) /\
  resolveProfileChain [sample_record "a" "a.yaml" "b" "" []] "a" = Some (inl (BaseMissing "b")) /\
  resolveProfileChain [sample_record "a" "a.yaml" "base" "" []] "a" = Some (inr [sample_record "a" "a.yaml" "base" "" []]).
Proof. vm_compute. auto. Qed.

Lemma step_environment_witness :
  match sample_overlay.1 with
  | Some (inr overlay) =>
      let env := resolveNodeRuntimeEnv {["e" := overlay]} "e" sample_node in
      (env !! "TOKEN", env !! "PORT", env !! "HOST", env !! "MODE", env !! "LEVEL") =
        (Some "s3cret", Some "8080", Some "api", Some "strict", Some "debug") /\
      exists chain docs, lineage (records_by_id sample_records) "ci" chain /\
        Forall2 (fun r d => sample_parse (Profiles.YAML r) = inr d) chain docs /\
        env !! "LEVEL" = first_set ([SecretEnv overlay; serviceEnv overlay sample_node; Topology.RuntimeEnv sample_node;
                  platformGlobalOverrideEnv sample_settings] ++ reverse (DocEnv <$> docs)) "LEVEL"
  | _ => False
  end.
Proof.
  destruct sample_overlay as [[[err|overlay]|] sent] eqn:E;
    try (exfalso; apply (f_equal fst) in E; vm_compute in E; discriminate E).
  cbn [fst]. split.
  - apply (f_equal fst) in E. cbn [fst] in E. assert (overlay =
      match sample_overlay.1 with Some (inr o) => o | _ => mkOverlay ∅ ∅ ∅ "" end) as -> by by rewrite E.
    vm_compute. reflexivity.
  - destruct (step_environment sample_parse (fun entries => entries) sample_env sample_decode no_host sample_host sample_do
      (fun _ => "") (fun _ => inr sample_records) "payments" "CI.yaml" sample_records
      (sample_record "ci" "ci.yaml" "base" "ci" [Profiles.mkSecret "TOKEN" "vault" "kv/app/token"]) sample_settings
      overlay sent {["e" := overlay]} "e" sample_node eq_refl (ltac:(vm_compute; reflexivity)) E
      (lookup_singleton_eq "e" overlay)) as (chain & docs & Hl & Hd & Henv).
    exists chain, docs. split; [exact Hl|]. split; [exact Hd|]. exact (Henv "LEVEL").
Defined.

Lemma vault_requests_justified_witness :
  match (sample resolveProfileSecrets sample_settings [Profiles.mkSecret "TOKEN" "vault" "kv/app/token"]).2 with
  | [request] => Target request = "https://vault.example.com/v1/kv/app/token" /\
                 justified sample_env no_host sample_host sample_settings request
  | _ => False
  end.
Proof.
  destruct ((sample resolveProfileSecrets sample_settings [Profiles.mkSecret "TOKEN" "vault" "kv/app/token"]).2)
    as [|request [|]] eqn:E; try (exfalso; vm_compute in E; discriminate E).
  split; [vm_compute in E; injection E as <-; reflexivity|].
  apply (vault_requests_justified (fun entries => entries) sample_env sample_decode no_host sample_host sample_do
    (fun _ => "") sample_settings [Profiles.mkSecret "TOKEN" "vault" "kv/app/token"] request).
  rewrite E. apply list_elem_of_singleton. reflexivity.
Defined.

End ProfileRuntime.
