(* ===== verification/Cron.v ===== *)
(** Cron jobs, [src/backend/internal/cronjobs]: the jobs and their entries in
    the scheduler, what a run of a job does, its report, and the handlers.

    The scheduler library is known by the entries it holds and by the test
    whether it accepts a schedule; the executions, the clock, the mail server
    and the Slack webhook are arguments.  A call of the store does what the
    stores of [internal/store] do, or fails with an error and changes nothing. *)
From Stdlib Require Import ZArith Lia Ascii.
From S2P Require Import Prelude GoStrings Runes Strconv.
Import GoStrings Strconv.

Module Cron.

(** ** Data *)
Record SuiteTarget := mkTarget { SuiteID : string; Profile : string; BackendID : string }.
Record CronJob := mkJob {
  ID : string;
  Name : string;
  Schedule : string;
  Enabled : bool;
  Suites : list SuiteTarget;
  Recipients : list string;
  Subject : string;
  WebhookURL : string;
  LastRunAt : option Z;
  NextRunAt : option Z;
  LastError : string;
  CreatedAt : Z;
  UpdatedAt : Z;
}.
Definition ErrNotFound : goerr := ErrText "cron job not found".

(** [entries] are the entries of the scheduler, each with its job and schedule;
    [entryIDs] is the service's map of jobs to entries. *)
Record Service := mkService {
  store : gmap string CronJob;
  entries : gmap Z (string * string);
  entryIDs : gmap string Z;
  next_entry : Z;
}.

(** ** The store *)
Definition UpdateCronJob (fault : option goerr) (job : CronJob) (s : Service) : option goerr * Service :=
  match fault, store s !! ID job with
  | Some e, _ => (Some e, s)
  | None, None => (Some ErrNotFound, s)
  | None, Some _ => (None, mkService (<[ID job := job]> (store s)) (entries s) (entryIDs s) (next_entry s))
  end.
Definition DeleteCronJob (fault : option goerr) (id : string) (s : Service) : option goerr * Service :=
  match fault, store s !! id with
  | Some e, _ => (Some e, s)
  | None, None => (Some ErrNotFound, s)
  | None, Some _ => (None, mkService (delete id (store s)) (entries s) (entryIDs s) (next_entry s))
  end.
Definition GetCronJob (fault : option goerr) (id : string) (s : Service) : goerr + CronJob :=
  match fault, store s !! id with
  | Some e, _ => inl e
  | None, None => inl ErrNotFound
  | None, Some job => inr job
  end.

(** ** service.go: scheduling *)
Section Scheduling.
(** Whether the scheduler accepts the text of a schedule. *)
Context (valid : string -> bool).

Definition schedule (job : CronJob) (s : Service) : Service :=
  if valid (Schedule job) then
    mkService (store s) (<[next_entry s := (ID job, Schedule job)]> (entries s))
      (<[ID job := next_entry s]> (entryIDs s)) (next_entry s + 1)
  else s.
Definition unschedule (jobID : string) (s : Service) : Service :=
  match entryIDs s !! jobID with
  | Some eid => mkService (store s) (delete eid (entries s)) (delete jobID (entryIDs s)) (next_entry s)
  | None => s
  end.

Definition Start (fault : option goerr) (jobs : list CronJob) (s : Service) : option goerr * Service :=
  match fault with
  | Some e => (Some (ErrWrap "loading cron jobs" e), s)
  | None => (None, foldl (fun s job => if Enabled job then schedule job s else s) s jobs)
  end.

Definition stamped (id : string) (created updated : Z) (job : CronJob) : CronJob :=
  mkJob id (Name job) (Schedule job) (Enabled job) (Suites job) (Recipients job) (Subject job) (WebhookURL job)
    (LastRunAt job) (NextRunAt job) (LastError job) created updated.
Definition Create (now : Z) (newID : string) (fault : option goerr) (job : CronJob) (s : Service)
    : (goerr + CronJob) * Service :=
  let job := stamped newID now now job in
  match fault with
  | Some e => (inl e, s)
  | None =>
      let s := mkService (<[ID job := job]> (store s)) (entries s) (entryIDs s) (next_entry s) in
      (inr job, if Enabled job then schedule job s else s)
  end.
Definition Update (now : Z) (fault : option goerr) (job : CronJob) (s : Service) : (goerr + CronJob) * Service :=
  let job := stamped (ID job) (CreatedAt job) now job in
  let s := unschedule (ID job) s in
  let s := if Enabled job then schedule job s else s in
  match UpdateCronJob fault job s with
  | (Some e, s) => (inl e, s)
  | (None, s) => (inr job, s)
  end.
Definition Delete (fault : option goerr) (id : string) (s : Service) : option goerr * Service :=
  DeleteCronJob fault id (unschedule id s).
End Scheduling.

(** ** Runs *)
Record ExecutionEvent := mkEvent { Source : string; EventStatus : string }.
Record ExecutionRecord := mkRecord {
  SuiteTitle : string; Status : string; Duration : string; Events : list ExecutionEvent }.
Record suiteResult := mkResult { target : SuiteTarget; outcome : goerr + ExecutionRecord }.

(** The poll of an execution: [clock], [ctx_done] and [GetExecution] give what
    is read in each turn of the loop; one turn is between two polls. *)
Section Wait.
Context (clock : nat -> Z) (ctx_done : nat -> option goerr) (GetExecution : nat -> goerr + ExecutionRecord)
  (timed_out : goerr).
Definition terminal (rec : ExecutionRecord) : bool :=
  bool_decide (Status rec = "Healthy") || bool_decide (Status rec = "Failed").
Fixpoint wait_loop (fuel turn : nat) (deadline : Z) : option (goerr + ExecutionRecord) :=
  match fuel with
  | O => None
  | S fuel =>
      if negb (Before (clock turn) deadline) then Some (inl timed_out)
      else match GetExecution turn with
           | inl err => Some (inl err)
           | inr rec =>
               if terminal rec then Some (inr rec)
               else match ctx_done turn with
                    | Some err => Some (inl err)
                    | None => wait_loop fuel (S turn) deadline
                    end
           end
  end.
End Wait.
Definition suite_timeout : Z := 10 * minute.
Definition poll_interval : Z := 5 * second.
(** Two turns are at least the interval apart, so the deadline ends the loop. *)
Definition wait_fuel : nat := 122.
Definition waitForExecution (clock : nat -> Z) (ctx_done : nat -> option goerr)
    (GetExecution : nat -> goerr + ExecutionRecord) (timed_out : goerr) : option (goerr + ExecutionRecord) :=
  wait_loop clock ctx_done GetExecution timed_out wait_fuel 1 (clock 0%nat + suite_timeout).

Section Runs.
(** [launch n target] is what the launch and the wait for the [n]-th target
    give; [None] when there is no execution service. *)
Context (launch : option (nat -> SuiteTarget -> (goerr + string))) (wait : nat -> string -> goerr + ExecutionRecord).
Definition run_target (n : nat) (t : SuiteTarget) : suiteResult :=
  match launch with
  | None => mkResult t (inl (ErrText "execution service not available"))
  | Some create =>
      match create n t with
      | inl err => mkResult t (inl err)
      | inr id => mkResult t (wait n id)
      end
  end.
Definition runSuites (targets : list SuiteTarget) : list suiteResult := imap run_target targets.
End Runs.

(** ** The report *)
Definition reported (e : ExecutionEvent) : bool :=
  negb (bool_decide (Source e = "")) &&
  (bool_decide (EventStatus e = "healthy") || bool_decide (EventStatus e = "failed") || bool_decide (EventStatus e = "skipped")).
Definition last_statuses (events : list ExecutionEvent) : gmap string string :=
  foldl (fun seen e => if reported e then <[Source e := EventStatus e]> seen else seen) ∅ events.
Definition countSteps (rec : ExecutionRecord) : Z * Z :=
  let seen := last_statuses (Events rec) in
  (tally (fun status => bool_decide (status = "healthy")) seen, tally (fun status => bool_decide (status = "failed")) seen).

Definition failed_result (r : suiteResult) : bool :=
  match outcome r with inl _ => true | inr rec => bool_decide (Status rec = "Failed") end.
(** [%-8s]. *)
Definition pad8 (s : string) : string := s +:+ to_string (repeat " "%char (8 - length (Runes.Runes.runes s))).
Definition newline : string := String (ascii_of_nat 10) "".

Section Report.
Context (error_text : goerr -> string) (stamp : string).
Definition result_label (r : suiteResult) : string :=
  SuiteID (target r) +:+ (if bool_decide (Profile (target r) = "") then "" else " [" +:+ Profile (target r) +:+ "]").
Definition result_text (r : suiteResult) : string :=
  match outcome r with
  | inl err => "FAILED   " +:+ result_label r +:+ newline +:+ "  Error: " +:+ error_text err +:+ newline
  | inr rec =>
      let title := if bool_decide (SuiteTitle rec = "") then result_label r else SuiteTitle rec in
      let '(healthy, failed) := countSteps rec in
      pad8 (Status rec) +:+ " " +:+ title +:+ " [" +:+ Profile (target r) +:+ "]" +:+ newline +:+
      "  Steps: " +:+ FormatInt healthy +:+ " healthy, " +:+ FormatInt failed +:+ " failed | Duration: " +:+
      Duration rec +:+ newline
  end.
Definition formatResults (jobName : string) (results : list suiteResult) : string :=
  "Cron job report: " +:+ jobName +:+ newline +:+ "Run at: " +:+ stamp +:+ newline +:+ newline +:+
  (if existsb failed_result results then "Overall: One or more suites failed" else "Overall: All suites passed") +:+
  newline +:+ newline +:+ foldr (fun r text => result_text r +:+ text) "" results.
End Report.

(** ** Notifications *)
Record SMTPConfig := mkSMTP { Host : string; Port : Z; Username : string; Password : string; From : string }.
(** What goes out: a mail to its recipients, a post to a webhook. *)
Inductive notice :=
  | Mail (addr : string) (config : SMTPConfig) (recipients : list string) (msg : string)
  | Post (url text : string).

Section Dispatch.
Context (error_text : goerr -> string) (stamp : string) (smtp : SMTPConfig)
  (SendMail : notice -> option goerr) (HTTPPost : notice -> goerr + Z).

Definition crlf : string := String (ascii_of_nat 13) newline.
Definition sendEmail (job : CronJob) (body : string) : option goerr * list notice :=
  if bool_decide (Host smtp = "") then (Some (ErrText "SMTP not configured"), [])
  else
    let msg := "From: " +:+ From smtp +:+ crlf +:+ "To: " +:+ Join (Recipients job) ", " +:+ crlf +:+
               "Subject: " +:+ Subject job +:+ crlf +:+ crlf +:+ body in
    let mail := Mail (Host smtp +:+ ":" +:+ FormatInt (Port smtp)) smtp (Recipients job) msg in
    (SendMail mail, [mail]).
Definition sendSlack (job : CronJob) (body : string) : option goerr * list notice :=
  let post := Post (WebhookURL job) body in
  (match HTTPPost post with
   | inl err => Some err
   | inr status => if 300 <=? status then Some (ErrText ("slack webhook returned " +:+ FormatInt status)) else None
   end, [post]).

(** The notifications of a job, and the error of those that failed. *)
Definition dispatch (job : CronJob) (results : list suiteResult) : option goerr * list notice :=
  let body := formatResults error_text stamp (Name job) results in
  let '(mail_error, mails) :=
    if negb (bool_decide (Recipients job = [])) && negb (bool_decide (Subject job = "")) then sendEmail job body
    else (None, []) in
  let '(slack_error, posts) :=
    if negb (bool_decide (WebhookURL job = "")) then sendSlack job body else (None, []) in
  let errs := match mail_error with Some e => ["email: " +:+ error_text e] | None => [] end ++
              match slack_error with Some e => ["slack: " +:+ error_text e] | None => [] end in
  (if bool_decide (errs = []) then None else Some (ErrText (Join errs "; ")), mails ++ posts).
End Dispatch.

(** A run of a job reads it at the start, and writes it back at the end with
    the time and the error of the run. *)
Definition run_read (fault : option goerr) (jobID : string) (s : Service) : option CronJob :=
  match GetCronJob fault jobID s with inr job => Some job | inl _ => None end.
Definition run_result (error_text : goerr -> string) (now : Z) (run_error : option goerr) (job : CronJob) : CronJob :=
  mkJob (ID job) (Name job) (Schedule job) (Enabled job) (Suites job) (Recipients job) (Subject job) (WebhookURL job)
    (Some now) (NextRunAt job) (match run_error with Some e => error_text e | None => "" end) (CreatedAt job) now.
Definition run_write (error_text : goerr -> string) (fault : option goerr) (now : Z) (run_error : option goerr)
    (job : CronJob) (s : Service) : Service :=
  (UpdateCronJob fault (run_result error_text now run_error job) s).2.

(** ** handler.go: the status, and the message or the payload *)
Inductive answer := Refused (status : Z) (message : string) | Answered (status : Z) (jobs : list CronJob).
Definition list_jobs (fault : option goerr) (jobs : list CronJob) : answer :=
  match fault with Some _ => Refused 500 "Could not load cron jobs." | None => Answered 200 jobs end.
Definition create (valid : string -> bool) (now : Z) (newID : string) (fault : option goerr) (body : option CronJob)
    (s : Service) : answer * Service :=
  match body with
  | None => (Refused 400 "Invalid request body.", s)
  | Some job => match Create valid now newID fault job s with
                | (inl _, s) => (Refused 500 "Could not create cron job.", s)
                | (inr job, s) => (Answered 201 [job], s)
                end
  end.
Definition get_job (fault : option goerr) (id : string) (s : Service) : answer :=
  match GetCronJob fault id s with
  | inr job => Answered 200 [job]
  | inl err => if errors_Is err ErrNotFound then Refused 404 "Cron job not found." else Refused 500 "Could not load cron job."
  end.
Definition update (valid : string -> bool) (now : Z) (fault : option goerr) (id : string) (body : option CronJob)
    (s : Service) : answer * Service :=
  match body with
  | None => (Refused 400 "Invalid request body.", s)
  | Some patch =>
      match Update valid now fault (stamped id (CreatedAt patch) (UpdatedAt patch) patch) s with
      | (inl err, s) => (if errors_Is err ErrNotFound then Refused 404 "Cron job not found."
                         else Refused 500 "Could not update cron job.", s)
      | (inr job, s) => (Answered 200 [job], s)
      end
  end.
Definition delete_job (fault : option goerr) (id : string) (s : Service) : answer * Service :=
  match Delete fault id s with
  | (Some err, s) => (if errors_Is err ErrNotFound then Refused 404 "Cron job not found."
                      else Refused 500 "Could not delete cron job.", s)
  | (None, s) => (Answered 204 [], s)
  end.

(** * The schedule matches the jobs *)
Section Histories.
Context (valid : string -> bool) (error_text : goerr -> string).

(** The entries of the scheduler are exactly the enabled jobs of [wanted] with a
    schedule it accepts, each once, and the service knows them. *)
Record matched (wanted : gmap string CronJob) (s : Service) : Prop := {
  entry_known : forall job eid, entryIDs s !! job = Some eid -> exists spec, entries s !! eid = Some (job, spec);
  entry_owned : forall eid job spec, entries s !! eid = Some (job, spec) -> entryIDs s !! job = Some eid;
  entry_old : forall eid, is_Some (entries s !! eid) -> eid < next_entry s;
  entry_job : forall eid job spec, entries s !! eid = Some (job, spec) ->
    exists j, wanted !! job = Some j /\ Enabled j = true /\ Schedule j = spec;
  job_entry : forall job j, wanted !! job = Some j -> Enabled j = true -> valid (Schedule j) = true ->
    is_Some (entryIDs s !! job);
}.

(** Only the scheduler's side of a service matters. *)
Lemma matched_same wanted s s' : entries s' = entries s -> entryIDs s' = entryIDs s -> next_entry s' = next_entry s ->
  matched wanted s -> matched wanted s'.
Proof using Type. intros E1 E2 E3 []. split; rewrite ?E1, ?E2, ?E3; done. Qed.

(** Without the job [id]: no entry is left for it. *)
Lemma unscheduled wanted s id : matched wanted s ->
  matched (delete id wanted) (unschedule id s) /\ entryIDs (unschedule id s) !! id = None.
Proof using Type.
  intros [Hk Ho Hl Hj He]. unfold unschedule. destruct (entryIDs s !! id) as [eid|] eqn:E; (split; [|]);
    [|apply lookup_delete_eq| |done].
  - split; cbn [entries entryIDs next_entry].
    + intros job e Hje. apply lookup_delete_Some in Hje as [Hne Hje]. destruct (Hk _ _ Hje) as (spec & Hs).
      exists spec. rewrite lookup_delete_ne; [done|]. intros ->.
      destruct (Hk _ _ E) as (spec' & Hs'). rewrite Hs in Hs'. by injection Hs' as ->.
    + intros e job spec Hs. apply lookup_delete_Some in Hs as [Hne Hs]. pose proof (Ho _ _ _ Hs) as Hid.
      rewrite lookup_delete_ne; [done|]. intros ->. congruence.
    + intros e [x Hx]. apply lookup_delete_Some in Hx as [_ Hx]. apply Hl. by rewrite Hx.
    + intros e job spec Hs. apply lookup_delete_Some in Hs as [Hne Hs]. pose proof (Ho _ _ _ Hs) as Hid.
      rewrite lookup_delete_ne by (intros ->; congruence). by apply (Hj e).
    + intros job j Hs Hen Hv. apply lookup_delete_Some in Hs as [Hne Hs]. rewrite lookup_delete_ne by done.
      by apply (He job j).
  - split; try done.
    + intros e job spec Hs. rewrite lookup_delete_ne; [by apply (Hj e)|]. intros ->.
      rewrite (Ho _ _ _ Hs) in E. done.
    + intros job j Hs. apply lookup_delete_Some in Hs as [_ Hs]. by apply He.
Qed.

(** The job is given its entry, when it is enabled and has a schedule. *)
Lemma scheduled wanted s job : matched wanted s -> wanted !! ID job = None -> entryIDs s !! ID job = None ->
  matched (<[ID job := job]> wanted) (if Enabled job then schedule valid job s else s).
Proof using Type.
  intros [Hk Ho Hl Hj He] Hw Hnone.
  assert (forall eid j spec, entries s !! eid = Some (j, spec) -> j <> ID job) as Hother.
  { intros eid j spec Hs ->. rewrite (Ho _ _ _ Hs) in Hnone. done. }
  assert (forall eid j spec, entries s !! eid = Some (j, spec) ->
            exists x, <[ID job := job]> wanted !! j = Some x /\ Enabled x = true /\ Schedule x = spec) as Hj'.
  { intros eid j spec Hs. rewrite lookup_insert_ne by (apply not_eq_sym; by eapply Hother). by apply (Hj eid). }
  assert (entries s !! next_entry s = None) as Hfree.
  { destruct (entries s !! next_entry s) eqn:E; [|done]. specialize (Hl (next_entry s)). rewrite E in Hl.
    specialize (Hl (mk_is_Some _ _ eq_refl)). lia. }
  unfold schedule. destruct (Enabled job) eqn:Ee; [destruct (valid (Schedule job)) eqn:Ev|];
    (split; cbn [entries entryIDs next_entry]); try done.
  - intros j eid Hje. apply lookup_insert_Some in Hje as [[<- <-]|[Hne Hje]].
    + eexists. apply lookup_insert_eq.
    + destruct (Hk _ _ Hje) as (spec & Hs). exists spec. rewrite lookup_insert_ne; [done|]. congruence.
  - intros eid j spec Hs. apply lookup_insert_Some in Hs as [[<- [= <- <-]]|[Hne Hs]]; [apply lookup_insert_eq|].
    rewrite lookup_insert_ne by (apply not_eq_sym; by eapply Hother). by eapply Ho.
  - intros eid [x Hx]. apply lookup_insert_Some in Hx as [[<- _]|[_ Hx]]; [lia|].
    specialize (Hl eid). rewrite Hx in Hl. specialize (Hl (mk_is_Some _ _ eq_refl)). lia.
  - intros eid j spec Hs. apply lookup_insert_Some in Hs as [[<- [= <- <-]]|[Hne Hs]]; [|by apply (Hj' eid)].
    exists job. by rewrite lookup_insert_eq.
  - intros j x Hx Hen Hv. apply lookup_insert_Some in Hx as [[<- <-]|[Hne Hx]]; [rewrite lookup_insert_eq; eauto|].
    rewrite lookup_insert_ne by done. by apply (He j x).
  - intros j x Hx Hen Hv. apply lookup_insert_Some in Hx as [[<- <-]|[Hne Hx]]; [congruence|]. by apply (He j x).
  - intros j x Hx Hen Hv. apply lookup_insert_Some in Hx as [[<- <-]|[Hne Hx]]; [congruence|]. by apply (He j x).
Qed.

(** ** Histories

    Calls of the API, each as a whole, and ends of runs that began at any time
    before, in any order, on a store that can fail: the jobs asked for, and the
    service.  What is asked
    for is the last job that was created or handed to [Update], stored or not,
    and nothing once its deletion was asked for.  [calm] says of a step that its
    write was done: an update of a job there is, a deletion, and a run whose job
    was not edited meanwhile.  New identifiers are new. *)
Inductive step (wanted : gmap string CronJob) (s : Service) : Prop -> gmap string CronJob -> Service -> Prop :=
  | step_create now newID fault job :
      store s !! newID = None -> wanted !! newID = None ->
      step wanted s True
        (match fault with None => <[newID := stamped newID now now job]> wanted | Some _ => wanted end)
        (Create valid now newID fault job s).2
  | step_update now fault job :
      step wanted s (fault = None /\ is_Some (store s !! ID job))
        (<[ID job := stamped (ID job) (CreatedAt job) now job]> wanted) (Update valid now fault job s).2
  | step_delete fault id : step wanted s (fault = None) (delete id wanted) (Delete fault id s).2
  | step_run now fault run_error job :
      step wanted s (store s !! ID job = Some job) wanted (run_write error_text fault now run_error job s).

Inductive history (jobs : gmap string CronJob) (s0 : Service) : Prop -> gmap string CronJob -> Service -> Prop :=
  | history_start : history jobs s0 True jobs s0
  | history_step calm wanted s calm' wanted' s' :
      history jobs s0 calm wanted s -> step wanted s calm' wanted' s' ->
      history jobs s0 (calm /\ calm') wanted' s'.

Lemma UpdateCronJob_schedules fault job s :
  entries (UpdateCronJob fault job s).2 = entries s /\ entryIDs (UpdateCronJob fault job s).2 = entryIDs s /\
  next_entry (UpdateCronJob fault job s).2 = next_entry s.
Proof using Type. unfold UpdateCronJob. by destruct fault, (store s !! ID job). Qed.
Lemma Update_schedules now fault job s :
  let job' := stamped (ID job) (CreatedAt job) now job in
  let s' := unschedule (ID job) s in
  let s' := if Enabled job then schedule valid job' s' else s' in
  entries (Update valid now fault job s).2 = entries s' /\ entryIDs (Update valid now fault job s).2 = entryIDs s' /\
  next_entry (Update valid now fault job s).2 = next_entry s'.
Proof using Type.
  cbn zeta. unfold Update. change (Enabled (stamped _ _ _ job)) with (Enabled job).
  change (ID (stamped _ _ _ job)) with (ID job). set (s' := if Enabled job then _ else _).
  pose proof (UpdateCronJob_schedules fault (stamped (ID job) (CreatedAt job) now job) s') as H.
  by destruct (UpdateCronJob _ _ _) as [[e|] s2].
Qed.

Lemma step_matched wanted s calm wanted' s' : step wanted s calm wanted' s' -> matched wanted s -> matched wanted' s'.
Proof using Type.
  intros [now newID [e|] job Hnew Hw|now fault job|fault id|now fault run_error job] Hm; [done|..].
  - unfold Create. cbn [snd stamped Enabled ID]. apply (matched_same _ (if Enabled job
      then schedule valid (stamped newID now now job) s else s)).
    1-3: unfold schedule; destruct (Enabled job); [destruct (valid _)|]; done.
    apply (scheduled wanted s (stamped newID now now job)); [done|done|]. cbn [stamped ID].
    destruct (entryIDs s !! newID) as [eid|] eqn:E; [|done].
    destruct (entry_known _ _ Hm _ _ E) as (spec & Hs). destruct (entry_job _ _ Hm _ _ _ Hs) as (x & Hx & _). congruence.
  - destruct (Update_schedules now fault job s) as (E1 & E2 & E3).
    eapply matched_same; [exact E1|exact E2|exact E3|]. destruct (unscheduled _ _ (ID job) Hm) as [Hm' Hn].
    rewrite <-insert_delete_eq. apply (scheduled _ _ (stamped (ID job) (CreatedAt job) now job) Hm'); [|done].
    apply lookup_delete_eq.
  - destruct (unscheduled _ _ id Hm) as [Hm' _]. eapply matched_same; [..|exact Hm']; unfold Delete, DeleteCronJob;
      by destruct fault, (store (unschedule id s) !! id).
  - unfold run_write. destruct (UpdateCronJob_schedules fault (run_result error_text now run_error job) s) as (E1 & E2 & E3).
    by eapply matched_same.
Qed.

(** The store has the schedules that were asked for, as long as the writes are
    done. *)
Definition plan (job : CronJob) : bool * string := (Enabled job, Schedule job).
Definition stored_as (wanted : gmap string CronJob) (s : Service) : Prop :=
  (forall id, plan <$> wanted !! id = plan <$> store s !! id) /\ (forall id j, store s !! id = Some j -> ID j = id).

Lemma schedule_store job s : store (schedule valid job s) = store s.
Proof using Type. unfold schedule. by destruct (valid _). Qed.
Lemma unschedule_store id s : store (unschedule id s) = store s.
Proof using Type. unfold unschedule. by destruct (entryIDs s !! id). Qed.
Lemma update_stored job s : is_Some (store s !! ID job) ->
  UpdateCronJob None job s = (None, mkService (<[ID job := job]> (store s)) (entries s) (entryIDs s) (next_entry s)).
Proof using Type. intros [x Hx]. unfold UpdateCronJob. by rewrite Hx. Qed.

Lemma stored_insert wanted s id job job' s' : stored_as wanted s -> ID job' = id -> plan job = plan job' ->
  store s' = <[id := job']> (store s) -> stored_as (<[id := job]> wanted) s'.
Proof using Type.
  intros [H Hn] Hid Hp Hs. split; intros i; rewrite Hs.
  - rewrite !lookup_insert. case_decide; [cbn; by rewrite Hp|apply H].
  - intros j. rewrite lookup_insert. case_decide; [intros [= <-]; congruence|apply Hn].
Qed.

Lemma step_stored wanted s calm wanted' s' : step wanted s calm wanted' s' -> calm ->
  stored_as wanted s -> stored_as wanted' s'.
Proof using Type.
  intros [now newID [e|] job Hnew Hw|now fault job|fault id|now fault run_error job] Hc Hst; [done|..].
  - eapply (stored_insert _ _ _ _ (stamped newID now now job)); [exact Hst|done|done|]. unfold Create. cbn [snd].
    destruct (Enabled _); rewrite ?schedule_store; done.
  - destruct Hc as [-> Hin]. eapply (stored_insert _ _ _ _ (stamped (ID job) (CreatedAt job) now job)); [exact Hst|done|done|].
    unfold Update. cbn zeta. change (ID (stamped _ _ _ job)) with (ID job). set (s1 := if Enabled _ then _ else _).
    assert (store s1 = store s) as Hs1 by (unfold s1; destruct (Enabled _); rewrite ?schedule_store; apply unschedule_store).
    rewrite update_stored by by rewrite Hs1. cbn [snd store]. by rewrite Hs1.
  - subst fault. destruct Hst as [H Hn]. unfold Delete, DeleteCronJob. pose proof (unschedule_store id s) as Hu.
    destruct (store (unschedule id s) !! id) eqn:E; (split; cbn [snd store]; rewrite ?Hu in *); intros i.
    + rewrite !lookup_delete. case_decide; [done|apply H].
    + intros j Hj. apply lookup_delete_Some in Hj as [_ Hj]. by apply Hn.
    + rewrite lookup_delete. case_decide; [subst i; by rewrite E|apply H].
    + apply Hn.
  - destruct Hst as [H Hn]. unfold run_write. destruct fault as [e|].
    { unfold UpdateCronJob. by destruct (store s !! _). }
    rewrite update_stored by (cbn [run_result ID]; rewrite Hc; eauto). split; intros i; cbn [snd store run_result ID].
    + rewrite lookup_insert. case_decide; [subst i; by rewrite H, Hc|apply H].
    + intros j. rewrite lookup_insert. case_decide; [by intros [= <-]|apply Hn].
Qed.

(** Loading the jobs at the start. *)
Lemma started wanted jobs : forall s, NoDup (ID <$> jobs) ->
  (forall j, j ∈ jobs -> wanted !! ID j = Some j /\ entryIDs s !! ID j = None) ->
  (forall job eid, entryIDs s !! job = Some eid -> exists spec, entries s !! eid = Some (job, spec)) ->
  (forall eid job spec, entries s !! eid = Some (job, spec) -> entryIDs s !! job = Some eid) ->
  (forall eid, is_Some (entries s !! eid) -> eid < next_entry s) ->
  (forall eid job spec, entries s !! eid = Some (job, spec) ->
    exists j, wanted !! job = Some j /\ Enabled j = true /\ Schedule j = spec) ->
  (forall job j, wanted !! job = Some j -> Enabled j = true -> valid (Schedule j) = true ->
    j ∈ jobs \/ is_Some (entryIDs s !! job)) ->
  (forall job j, wanted !! job = Some j -> ID j = job) ->
  matched wanted (foldl (fun s job => if Enabled job then schedule valid job s else s) s jobs).
Proof using Type.
  induction jobs as [|job jobs IH]; intros s Hnd Hjobs Hk Ho Hl Hj He Hn; cbn [foldl].
  { split; try done. intros job j Hs Hen Hv. destruct (He job j) as [Hin|]; [done..| |done]. by apply elem_of_nil in Hin. }
  rewrite fmap_cons in Hnd. apply NoDup_cons in Hnd as [Hfresh Hnd].
  destruct (Hjobs job) as [Hstored Hnone]; [set_solver|].
  assert (forall j, j ∈ jobs -> ID j <> ID job) as Hdiff.
  { intros j Hin Heq. apply Hfresh. rewrite <- Heq. by apply list_elem_of_fmap_2. }
  assert (forall eid j spec, entries s !! eid = Some (j, spec) -> j <> ID job) as Hother.
  { intros eid j spec Hs ->. rewrite (Ho _ _ _ Hs) in Hnone. done. }
  assert (entries s !! next_entry s = None) as Hfree.
  { destruct (entries s !! next_entry s) eqn:E; [|done]. specialize (Hl (next_entry s)). rewrite E in Hl.
    specialize (Hl (mk_is_Some _ _ eq_refl)). lia. }
  assert (Enabled job = true /\ valid (Schedule job) = true \/ ~ (Enabled job = true /\ valid (Schedule job) = true)) as [[Een Ev]|Hno].
  { destruct (Enabled job), (valid (Schedule job)); auto; right; intros [? ?]; congruence. }
  - rewrite Een. unfold schedule at 2. rewrite Ev. apply IH; cbn [store entries entryIDs next_entry]; [done|..].
    + intros j Hin. destruct (Hjobs j) as [? ?]; [set_solver|]. rewrite lookup_insert_ne; [done|]. by apply not_eq_sym, Hdiff.
    + intros j eid Hje. apply lookup_insert_Some in Hje as [[<- <-]|[Hne Hje]]; [eexists; apply lookup_insert_eq|].
      destruct (Hk _ _ Hje) as (spec & Hs). exists spec. rewrite lookup_insert_ne; [done|congruence].
    + intros eid j spec Hs. apply lookup_insert_Some in Hs as [[<- [= <- <-]]|[Hne Hs]]; [apply lookup_insert_eq|].
      rewrite lookup_insert_ne by (apply not_eq_sym; by eapply Hother). by eapply Ho.
    + intros eid [x Hx]. apply lookup_insert_Some in Hx as [[<- _]|[_ Hx]]; [lia|].
      specialize (Hl eid). rewrite Hx in Hl. specialize (Hl (mk_is_Some _ _ eq_refl)). lia.
    + intros eid j spec Hs. apply lookup_insert_Some in Hs as [[<- [= <- <-]]|[Hne Hs]]; [by exists job|by apply (Hj eid)].
    + intros j x Hx Hen Hv. destruct (decide (j = ID job)) as [->|Hne]; [rewrite lookup_insert_eq; eauto|].
      rewrite lookup_insert_ne by done. destruct (He j x Hx Hen Hv) as [Hin|]; [|by right]. left.
      apply elem_of_cons in Hin as [->|]; [|done]. by rewrite (Hn _ _ Hx) in Hne.
    + done.
  - assert ((if Enabled job then schedule valid job s else s) = s) as ->.
    { destruct (Enabled job) eqn:Een; [|done]. unfold schedule. destruct (valid (Schedule job)) eqn:Ev; [|done].
      exfalso. by apply Hno. }
    apply IH; try done.
    + intros j Hin. apply Hjobs. set_solver.
    + intros j x Hx Hen Hv. destruct (He j x Hx Hen Hv) as [Hin|]; [|by right]. left.
      apply elem_of_cons in Hin as [->|]; [|done]. exfalso. by apply Hno.
Qed.

(** The service as the process starts it on the jobs of the store. *)
Definition fresh_service (jobs : gmap string CronJob) : Service := mkService jobs ∅ ∅ 1.

(** C37: From the start of the service on, whatever calls and ends of runs follow
    in whatever order, and whichever writes of the store fail: the scheduler
    holds exactly one entry, with its schedule, for every enabled job that was
    asked for with a schedule it accepts, and no other entry.  As long as updates
    name jobs there are, no update or deletion fails to be written, and no job is
    edited while it runs, these are the jobs of the store. *)
Theorem schedule_matches_jobs jobs listed calm wanted s : NoDup (ID <$> listed) ->
  (forall id j, jobs !! id = Some j <-> j ∈ listed /\ ID j = id) ->
  history jobs (Start valid None listed (fresh_service jobs)).2 calm wanted s ->
  (forall id j, wanted !! id = Some j -> Enabled j = true -> valid (Schedule j) = true ->
     exists! eid, entries s !! eid = Some (id, Schedule j)) /\
  (forall eid id spec, entries s !! eid = Some (id, spec) ->
     exists j, wanted !! id = Some j /\ Enabled j = true /\ Schedule j = spec) /\
  (calm -> forall id, plan <$> wanted !! id = plan <$> store s !! id).
Proof using Type.
  intros Hnd Hjobs Hr. assert (matched jobs (Start valid None listed (fresh_service jobs)).2) as Hm.
  { apply started; cbn [fresh_service store entries entryIDs next_entry]; try done.
    - intros j Hin. split; [by apply Hjobs | apply lookup_empty].
    - intros eid [x Hx]. by rewrite lookup_empty in Hx.
    - intros id j Hx _ _. left. by apply (Hjobs id).
    - intros id j Hx. by apply Hjobs. }
  assert (stored_as jobs (Start valid None listed (fresh_service jobs)).2) as Hst.
  { assert (store (Start valid None listed (fresh_service jobs)).2 = jobs) as Hs.
    { cbn [Start snd]. change jobs with (store (fresh_service jobs)) at 2. generalize (fresh_service jobs).
      clear. induction listed as [|j l IH]; intros s; [done|]. cbn [foldl]. rewrite IH.
      destruct (Enabled j); [apply schedule_store|done]. }
    split; intros id; rewrite Hs; [done|]. intros j Hj. by apply Hjobs. }
  assert (matched wanted s /\ (calm -> stored_as wanted s)) as [Hs Hcalm].
  { induction Hr as [|calm w s calm' w' s' _ [IH1 IH2] Hstep]; [done|].
    split; [by eapply step_matched|]. intros [Hc Hc']. eapply step_stored; eauto. }
  split; [|split; [intros eid id spec; by apply entry_job|intros Hc; by apply Hcalm]]. intros id j Hj Hen Hv.
  destruct (job_entry _ _ Hs _ _ Hj Hen Hv) as [eid Heid]. destruct (entry_known _ _ Hs _ _ Heid) as (spec & He).
  destruct (entry_job _ _ Hs _ _ _ He) as (j' & Hj' & _ & Hspec). assert (j' = j) as -> by congruence. subst spec.
  exists eid. split; [done|]. intros eid' He'. apply (entry_owned _ _ Hs) in He'. congruence.
Qed.
End Histories.

(** An update of a job that is not there is refused, and leaves an entry in the
    scheduler for it. *)
Lemma update_unknown_leaves_entry valid now job s : store s !! ID job = None -> entryIDs s !! ID job = None ->
  Enabled job = true -> valid (Schedule job) = true ->
  exists s', Update valid now None job s = (inl ErrNotFound, s') /\ store s' !! ID job = None /\
    entries s' !! next_entry s = Some (ID job, Schedule job).
Proof.
  intros Hs Hn He Hv. unfold Update, unschedule. cbn [stamped ID Enabled]. rewrite Hn, He.
  unfold schedule. cbn [stamped ID Schedule]. rewrite Hv. unfold UpdateCronJob. cbn [stamped ID store]. rewrite Hs.
  eexists. split; [done|]. split; [done|]. cbn [entries]. apply lookup_insert_eq.
Qed.

(** A job that is disabled, or edited in any way, while it runs is stored again
    as it was when the run began. *)
Lemma stale_run_overwrites valid error_text now now' run_error s job edited s1 :
  run_read None (ID job) s = Some job -> store s !! ID job = Some job -> ID edited = ID job ->
  Update valid now None edited s = (inr edited, s1) ->
  store (run_write error_text None now' run_error job s1) !! ID job = Some (run_result error_text now' run_error job).
Proof.
  intros _ Hs Hid Hu. unfold run_write, UpdateCronJob. cbn [run_result ID].
  assert (is_Some (store s1 !! ID job)) as [x ->]; [|cbn [snd store]; apply lookup_insert_eq].
  unfold Update in Hu. cbn [stamped ID] in Hu. rewrite update_stored in Hu.
  - injection Hu as _ <-. cbn [store]. rewrite <- Hid. cbn [stamped ID]. rewrite lookup_insert_eq. eauto.
  - cbn [stamped ID Enabled]. rewrite Hid. destruct (Enabled edited); rewrite ?schedule_store, unschedule_store, Hs; eauto.
Qed.

(** ** The wait for an execution ends *)
Lemma wait_loop_ends clock ctx_done poll timed_out deadline fuel : forall turn,
  (forall n, (1 <= n)%nat -> clock n + poll_interval <= clock (S n)) -> (1 <= turn)%nat ->
  deadline <= clock turn + (Z.of_nat fuel - 1) * poll_interval -> (1 <= fuel)%nat ->
  wait_loop clock ctx_done poll timed_out fuel turn deadline <> None.
Proof.
  induction fuel as [|fuel IH]; intros turn Hc Ht Hd Hf; [lia|]. cbn [wait_loop].
  destruct (negb (Before (clock turn) deadline)) eqn:Eb; [done|].
  destruct (poll turn); [done|]. destruct (terminal _); [done|]. destruct (ctx_done turn); [done|].
  apply negb_false_iff, Z.ltb_lt in Eb. unfold poll_interval, second in *.
  destruct fuel as [|fuel]; [lia|]. apply IH; [done|lia| |lia]. specialize (Hc turn Ht). lia.
Qed.
Lemma wait_ends clock ctx_done poll timed_out : clock 0%nat <= clock 1%nat ->
  (forall n, (1 <= n)%nat -> clock n + poll_interval <= clock (S n)) ->
  waitForExecution clock ctx_done poll timed_out <> None.
Proof.
  intros H0 Hc. apply wait_loop_ends; [done|lia| |unfold wait_fuel; lia].
  unfold suite_timeout, poll_interval, wait_fuel, minute, second. lia.
Qed.

(** * Examples *)
Definition sample_job (id schedule : string) (enabled : bool) : CronJob :=
  mkJob id id schedule enabled [mkTarget "payments" "ci" ""] ["qa@example.com"] "" "" None None "" 1 1.
Definition any_schedule (spec : string) : bool := negb (bool_decide (spec = "never")).
Definition sample_service : Service :=
  fresh_service {["a" := sample_job "a" "0 8 * * *" true; "b" := sample_job "b" "never" true]}.

(** A job with recipients and no subject sends no mail, and records no error. *)
Example no_subject_no_mail : dispatch (fun _ => "") "" (mkSMTP "" 0 "" "" "") (fun _ => None) (fun _ => inr 200)
  (sample_job "a" "0 8 * * *" true) [] = (None, []).
Proof. reflexivity. Qed.

Example report_ex : formatResults (fun _ => "refused") "Sat, 23 May 2026 02:00:00 UTC" "nightly"
    [mkResult (mkTarget "payments" "ci" "") (inr (mkRecord "Payments" "Healthy" "4m12s"
       [mkEvent "db" "healthy"; mkEvent "db" "running"; mkEvent "api" "failed"; mkEvent "api" "healthy"]));
     mkResult (mkTarget "shop" "" "") (inl ErrNotFound)] =
  "Cron job report: nightly" +:+ newline +:+ "Run at: Sat, 23 May 2026 02:00:00 UTC" +:+ newline +:+ newline +:+
  "Overall: One or more suites failed" +:+ newline +:+ newline +:+
  "Healthy  Payments [ci]" +:+ newline +:+ "  Steps: 2 healthy, 0 failed | Duration: 4m12s" +:+ newline +:+
  "FAILED   shop" +:+ newline +:+ "  Error: refused" +:+ newline.
Proof. vm_compute. reflexivity. Qed.

Definition sample_created : Service :=
  (Create any_schedule 5 "c" None (sample_job "" "*/15 * * * *" true)
     (Start any_schedule None [sample_job "a" "0 8 * * *" true; sample_job "b" "never" true] sample_service).2).2.

Lemma schedule_matches_jobs_witness :
  size (entries sample_created) = 2%nat /\ exists! eid, entries sample_created !! eid = Some ("c", "*/15 * * * *").
Proof.
  split; [vm_compute; reflexivity|].
  set (jobs := {["a" := sample_job "a" "0 8 * * *" true; "b" := sample_job "b" "never" true]} : gmap string CronJob).
  set (listed := [sample_job "a" "0 8 * * *" true; sample_job "b" "never" true]).
  destruct (schedule_matches_jobs any_schedule (fun _ => "") jobs listed (True /\ True)
    (<["c" := stamped "c" 5 5 (sample_job "" "*/15 * * * *" true)]> jobs) sample_created) as [H _].
  - apply (bool_decide_unpack _). vm_compute. exact I.
  - intros id j. split.
    + intros [[<- <-]|[Hne [<- <-]%lookup_singleton_Some]]%lookup_insert_Some; set_solver.
    + intros [[->|[->|[]%elem_of_nil]%elem_of_cons]%elem_of_cons <-]; vm_compute; reflexivity.
  - eapply history_step; [apply history_start|].
    apply (step_create any_schedule (fun _ => "") jobs _ 5 "c" None); vm_compute; reflexivity.
  - apply (H "c" (stamped "c" 5 5 (sample_job "" "*/15 * * * *" true))); vm_compute; reflexivity.
Defined.

End Cron.
