(* ===== verification/Platform.v ===== *)
(** The settings of the platform, [src/backend/internal/platform]: their data,
    normalization and validation, the deployment mode, the file they are stored
    in, and the handlers of settings and plugins.

    The file system, the YAML encoder and decoder, the clock and the evaluator
    of CUE are arguments; [nil] and empty slices are one value, and a body that
    cannot be decoded is [None]. *)
From Stdlib Require Import ZArith Lia Ascii.
From S2P Require Import Prelude GoStrings.
Import GoStrings.

Module Platform.

(** ** types.go *)
Record APISIXSidecarConfig := mkSidecar {
  Image : string; ConfigMountPath : string; ListenPort : Z; AdminPort : Z; Capabilities : list string }.
Record ExecutionAgent := mkAgent {
  AgentID : string;
  AgentName : string;
  AgentType : string;
  AgentDescription : string;
  Enabled : bool;
  Default : bool;
  Status : string;
  RegisteredAt : option Z;
  LastHeartbeatAt : option Z;
  RoutingTags : list string;
  RuntimeCapabilities : list string;
  DockerSocket : string;
  HostURL : string;
  TLSCert : string;
  TLSKey : string;
  KubeconfigPath : string;
  TargetNamespace : string;
  ServiceAccountToken : string;
  APISIXSidecar : APISIXSidecarConfig;
}.
Record OCIRegistry := mkRegistry {
  RegistryID : string;
  RegistryName : string;
  RegistryProvider : string;
  RegistryURL : string;
  RegistryUsername : string;
  Secret : string;
  RepositoryScope : string;
  Region : string;
  AllowLocalNetwork : bool;
  SyncStatus : string;
  LastSyncedAt : option Z;
}.
Record GlobalOverride := mkOverride {
  OverrideKey : string; OverrideValue : string; OverrideDescription : string; Sensitive : bool }.
Record SecretsConfig := mkSecrets {
  SecretsProvider : string; VaultAddress : string; VaultNamespace : string; VaultRole : string;
  AWSRegion : string; SecretPrefix : string; GlobalOverrides : list GlobalOverride }.
Record SMTPNotificationsConfig := mkSMTP {
  Host : string; Port : Z; Username : string; Password : string; From : string }.
Record CustomPlugin := mkPlugin {
  PluginName : string; Trigger : string; Kind : string; Variants : list string; Operations : list string;
  Lua : string; Schema : string; Star : string; PluginVersion : string; Deprecated : bool }.
Record PlatformSettings := mkSettings {
  Mode : string;
  Agents : list ExecutionAgent;
  Registries : list OCIRegistry;
  Secrets : SecretsConfig;
  SMTP : SMTPNotificationsConfig;
  Plugins : list CustomPlugin;
  UpdatedAt : Z;
  Description : string;
}.
Definition ErrNotFound : goerr := ErrText "not found".

(** ** mode.go *)
Definition ModeLocal : string := "local".
Definition ModeRemote : string := "remote".
Definition ModeHybrid : string := "hybrid".
Definition IsLocalAgentType (agentType : string) : bool :=
  bool_decide (ToLower (TrimSpace agentType) ∈ [""; "local"; "docker"]).
Definition ModeAllowsAgent (mode agentType : string) : bool :=
  let mode := ToLower (TrimSpace mode) in
  if bool_decide (mode = ModeHybrid) then true
  else if bool_decide (mode = ModeRemote) then negb (IsLocalAgentType agentType)
  else IsLocalAgentType agentType.
Definition validMode (mode : string) : bool := bool_decide (mode ∈ [ModeLocal; ModeRemote; ModeHybrid]).

(** ** defaults.go *)
Definition defaultPlatformDescription : string :=
  "Physical-layer configuration for BabelSuite execution agents, OCI catalog sources, and shared platform credentials.".
Definition defaultAPISIXSidecar : APISIXSidecarConfig :=
  mkSidecar "apache/apisix:latest" "/usr/local/apisix/conf/apisix.yaml" 9080 9180
    ["rest"; "soap"; "graphql"; "grpc"; "async"; "kafka"; "mqtt"; "websocket"; "sse"; "tcp"; "udp"; "amqp"; "nats";
     "webhook"].
Definition DefaultSettings (now : Z) : PlatformSettings :=
  mkSettings "local"
    [mkAgent "local-docker" "Local Docker" "local"
       "Uses the host machine's native Docker socket with zero extra configuration." true true "Ready" None None
       ["default"; "local"] [] "/var/run/docker.sock" "" "" "" "" "" "" defaultAPISIXSidecar;
     mkAgent "remote-agent" "Remote Worker Pool" "remote-agent"
       "Dispatches suite steps to a remote worker service for isolated or heavier workloads." false false
       "Disconnected" None None ["high-memory"] [] "" "http://agent.internal.company.com:8091"
       "vault://kv/platform/remote-agent/cert" "vault://kv/platform/remote-agent/key" "" "" "" defaultAPISIXSidecar;
     mkAgent "kubernetes-burst" "Kubernetes Burst Pool" "kubernetes"
       "Launches ephemeral pods in Kubernetes when suites need isolated or GPU-enabled compute." false false "Standby"
       None None ["gpu-enabled"; "ci-only"] [] "" "" "" "" "/etc/babelsuite/kubeconfig" "babelsuite-runs"
       "vault://kv/platform/k8s/token" defaultAPISIXSidecar]
    [mkRegistry "catalog-primary" "Local Zot" "Zot" "http://localhost:5000" "" "" "*" "" true "Indexed"
       (Some (now - 15 * minute))]
    (mkSecrets "vault" "https://vault.internal.company.com" "platform" "babelsuite-runners" "" "kv/platform"
       [mkOverride "HTTPS_PROXY" "http://proxy.internal.company.com:8080"
          "Corporate outbound proxy applied to every suite run." false;
        mkOverride "INTERNAL_ROOT_CA" "-----BEGIN CERTIFICATE-----\nMIIF...\n-----END CERTIFICATE-----"
          "Root certificate injected into suite containers for internal TLS trust." true])
    (mkSMTP "" 0 "" "" "") [] now defaultPlatformDescription.
Definition PluginTriggerRoute (name : string) : string :=
  let name := TrimSpace name in
  if bool_decide (name = "") then "" else "/_babelsuite/plugins/" +:+ name +:+ "/start".

(** ** normalize.go *)
Definition compact (values : list string) : list string :=
  omap (fun value => let trimmed := TrimSpace value in if bool_decide (trimmed = "") then None else Some trimmed) values.

Definition normalizeAPISIXSidecar (s : APISIXSidecarConfig) : APISIXSidecarConfig :=
  let image := TrimSpace (Image s) in
  let path := TrimSpace (ConfigMountPath s) in
  let capabilities := compact (Capabilities s) in
  mkSidecar (if bool_decide (image = "") then Image defaultAPISIXSidecar else image)
    (if bool_decide (path = "") then ConfigMountPath defaultAPISIXSidecar else path)
    (if ListenPort s =? 0 then ListenPort defaultAPISIXSidecar else ListenPort s)
    (if AdminPort s =? 0 then AdminPort defaultAPISIXSidecar else AdminPort s)
    (if bool_decide (capabilities = []) then Capabilities defaultAPISIXSidecar else capabilities).

Definition normalize_agent (a : ExecutionAgent) : ExecutionAgent :=
  mkAgent (TrimSpace (AgentID a)) (TrimSpace (AgentName a)) (TrimSpace (AgentType a)) (AgentDescription a) (Enabled a)
    (Default a) (TrimSpace (Status a)) (RegisteredAt a) (LastHeartbeatAt a) (compact (RoutingTags a))
    (compact (RuntimeCapabilities a)) (DockerSocket a) (HostURL a) (TLSCert a) (TLSKey a) (KubeconfigPath a)
    (TargetNamespace a) (ServiceAccountToken a) (normalizeAPISIXSidecar (APISIXSidecar a)).
Definition normalize_registry (r : OCIRegistry) : OCIRegistry :=
  mkRegistry (TrimSpace (RegistryID r)) (TrimSpace (RegistryName r)) (TrimSpace (RegistryProvider r))
    (TrimSpace (RegistryURL r)) (TrimSpace (RegistryUsername r)) (Secret r) (TrimSpace (RepositoryScope r))
    (TrimSpace (Region r)) (AllowLocalNetwork r) (TrimSpace (SyncStatus r)) (LastSyncedAt r).
Definition normalize_override (o : GlobalOverride) : GlobalOverride :=
  mkOverride (TrimSpace (OverrideKey o)) (OverrideValue o) (TrimSpace (OverrideDescription o)) (Sensitive o).
Definition normalize (s : PlatformSettings) : PlatformSettings :=
  let mode := ToLower (TrimSpace (Mode s)) in
  let secrets := Secrets s in
  let smtp := SMTP s in
  mkSettings (if bool_decide (mode = "") then ModeLocal else mode)
    (normalize_agent <$> Agents s) (normalize_registry <$> Registries s)
    (mkSecrets (SecretsProvider secrets) (VaultAddress secrets) (VaultNamespace secrets) (VaultRole secrets)
       (AWSRegion secrets) (SecretPrefix secrets) (normalize_override <$> GlobalOverrides secrets))
    (mkSMTP (TrimSpace (Host smtp)) (Port smtp) (TrimSpace (Username smtp)) (Password smtp) (TrimSpace (From smtp)))
    (Plugins s) (UpdatedAt s)
    (if bool_decide (Description s = "") then defaultPlatformDescription else Description s).

(** The loop over the agents: the error of the first one that has one, or the
    numbers of enabled and of enabled default agents. *)
Fixpoint validate_agents (agents : list ExecutionAgent) (enabledAgents defaultAgents : Z) : string + (Z * Z) :=
  match agents with
  | [] => inr (enabledAgents, defaultAgents)
  | agent :: rest =>
      let sidecar := APISIXSidecar agent in
      if bool_decide (AgentID agent = "") || bool_decide (AgentName agent = "") || bool_decide (AgentType agent = "")
      then inl "Each execution agent needs an ID, name, and type."
      else if blank (Image sidecar) then inl "Each execution agent needs an APISIX sidecar image."
      else if blank (ConfigMountPath sidecar) then inl "Each execution agent needs an APISIX config mount path."
      else if (ListenPort sidecar <=? 0) || (AdminPort sidecar <=? 0)
      then inl "Each execution agent needs positive APISIX listen and admin ports."
      else validate_agents rest (if Enabled agent then enabledAgents + 1 else enabledAgents)
             (if Enabled agent && Default agent then defaultAgents + 1 else defaultAgents)
  end.
Definition incomplete_registry (r : OCIRegistry) : bool :=
  bool_decide (RegistryID r = "") || bool_decide (RegistryName r = "") || bool_decide (RegistryProvider r = "") ||
  bool_decide (RegistryURL r = "").
Definition usable (mode : string) (agent : ExecutionAgent) : bool :=
  Enabled agent && ModeAllowsAgent mode (AgentType agent).
Definition validate (s : PlatformSettings) : option string :=
  if bool_decide (Agents s = []) then Some "Add at least one execution agent."
  else if bool_decide (Registries s = []) then Some "Add at least one OCI registry."
  else match validate_agents (Agents s) 0 0 with
  | inl message => Some message
  | inr (enabledAgents, defaultAgents) =>
  if enabledAgents =? 0 then Some "Enable at least one execution agent."
  else if 1 <? defaultAgents then Some "Only one enabled execution agent can be the default."
  else if negb (validMode (Mode s)) then Some "Deployment mode must be local, remote, or hybrid."
  else if negb (existsb (usable (Mode s)) (Agents s)) then
    Some (if bool_decide (Mode s = ModeRemote) then "Remote mode needs an enabled remote agent or Kubernetes backend."
          else "Local mode needs an enabled local Docker backend.")
  else if existsb incomplete_registry (Registries s) then
    Some "Each OCI registry needs an ID, name, provider, and registry URL."
  else if existsb (fun override => bool_decide (OverrideKey override = "")) (GlobalOverrides (Secrets s)) then
    Some "Global overrides must have a key."
  else None
  end.

(** ** store.go *)
Definition set_updated (now : Z) (s : PlatformSettings) : PlatformSettings :=
  mkSettings (Mode s) (Agents s) (Registries s) (Secrets s) (SMTP s) (Plugins s) now (Description s).
Definition set_plugins (plugins : list CustomPlugin) (s : PlatformSettings) : PlatformSettings :=
  mkSettings (Mode s) (Agents s) (Registries s) (Secrets s) (SMTP s) plugins (UpdatedAt s) (Description s).
Definition set_password (password : string) (s : PlatformSettings) : PlatformSettings :=
  let smtp := SMTP s in
  mkSettings (Mode s) (Agents s) (Registries s) (Secrets s)
    (mkSMTP (Host smtp) (Port smtp) (Username smtp) password (From smtp)) (Plugins s) (UpdatedAt s) (Description s).

(** The first registry with the identifier is marked as synchronized. *)
Fixpoint sync_registries (now : Z) (registries : list OCIRegistry) (registryID : string) : option (list OCIRegistry) :=
  match registries with
  | [] => None
  | r :: rest =>
      if bool_decide (TrimSpace (RegistryID r) = TrimSpace registryID) then
        Some (mkRegistry (RegistryID r) (RegistryName r) (RegistryProvider r) (RegistryURL r) (RegistryUsername r)
                (Secret r) (RepositoryScope r) (Region r) (AllowLocalNetwork r) "Indexed" (Some now) :: rest)
      else cons r <$> sync_registries now rest registryID
  end.

Section Files.
(** The settings file: [read] gives its text, [write] replaces it. *)
Context {FS : Type} (read : FS -> goerr + string) (write : string -> FS -> option goerr * FS)
  (Unmarshal : string -> goerr + PlatformSettings) (Marshal : PlatformSettings -> goerr + string).

Definition Load (fs : FS) : goerr + PlatformSettings :=
  check data := read fs in
  check settings := Unmarshal data in
  let settings := normalize settings in
  match validate settings with Some message => inl (ErrText message) | None => inr settings end.
Definition Save (now : Z) (settings : PlatformSettings) (fs : FS) : option goerr * FS :=
  match Marshal (set_updated now (normalize settings)) with
  | inl err => (Some err, fs)
  | inr data => write data fs
  end.
Definition SyncRegistry (now : Z) (registryID : string) (fs : FS) : (goerr + PlatformSettings) * FS :=
  match Load fs with
  | inl err => (inl err, fs)
  | inr settings =>
      match sync_registries now (Registries settings) registryID with
      | None => (inl ErrNotFound, fs)
      | Some registries =>
          let settings := mkSettings (Mode settings) (Agents settings) registries (Secrets settings) (SMTP settings)
                            (Plugins settings) now (Description settings) in
          match Save now settings fs with
          | (Some err, fs) => (inl err, fs)
          | (None, fs) => (inr (set_updated now (normalize settings)), fs)
          end
      end
  end.

(** ** handler.go: the status, and the message or the payload *)
Inductive answer :=
  | Refused (status : Z) (message : string)
  | Settings (status : Z) (settings : PlatformSettings)
  | PluginList (plugins : list CustomPlugin)
  | PluginAnswer (status : Z) (plugin : CustomPlugin)
  | NoContent
  | Checked (name : string) (ok : bool) (issues : list string) (deprecated : bool)
  | ValidConfig (note : string)
  | InvalidConfig (error : string).

Definition getSettings (fs : FS) : answer :=
  match Load fs with
  | inl _ => Refused 500 "Could not load platform settings."
  | inr settings => Settings 200 (set_password "" settings)
  end.
(** An empty password keeps the stored one. *)
Definition kept_password (settings : PlatformSettings) (fs : FS) : PlatformSettings :=
  if bool_decide (Password (SMTP settings) = "") then
    match Load fs with inr existing => set_password (Password (SMTP existing)) settings | inl _ => settings end
  else settings.
Definition updateSettings (now : Z) (body : option PlatformSettings) (fs : FS) : answer * FS :=
  match body with
  | None => (Refused 400 "Invalid platform settings payload.", fs)
  | Some settings =>
      let settings := normalize (kept_password settings fs) in
      match validate settings with
      | Some message => (Refused 400 message, fs)
      | None =>
          match Save now settings fs with
          | (Some _, fs) => (Refused 500 "Could not save platform settings.", fs)
          | (None, fs) => (Settings 200 (set_password "" (set_updated now (normalize settings))), fs)
          end
      end
  end.
Definition redactSettings (s : PlatformSettings) : PlatformSettings :=
  set_password ""
    (mkSettings (Mode s) (Agents s)
       ((fun reg => mkRegistry (RegistryID reg) (RegistryName reg) (RegistryProvider reg) (RegistryURL reg)
           (RegistryUsername reg) "" (RepositoryScope reg) (Region reg) (AllowLocalNetwork reg) (SyncStatus reg)
           (LastSyncedAt reg)) <$> Registries s)
       (mkSecrets "" "" "" "" "" "" []) (SMTP s) (Plugins s) (UpdatedAt s) (Description s)).
Definition syncRegistry (now : Z) (registryId : string) (fs : FS) : answer * FS :=
  let registryID := TrimSpace registryId in
  if bool_decide (registryID = "") then (Refused 400 "Registry ID is required.", fs)
  else match SyncRegistry now registryID fs with
       | (inl err, fs) => (if errors_Is err ErrNotFound then Refused 404 "Registry not found."
                           else Refused 500 "Could not sync registry.", fs)
       | (inr settings, fs) => (Settings 200 (redactSettings settings), fs)
       end.

(** *** Plugins *)
Definition listPlugins (fs : FS) : answer :=
  match Load fs with
  | inl _ => Refused 500 "Could not load platform settings."
  | inr settings => PluginList (Plugins settings)
  end.
(** [^[A-Za-z0-9][A-Za-z0-9_-]*$]. *)
Definition name_start (c : ascii) : bool :=
  let b := code c in ((65 <=? b) && (b <=? 90)) || ((97 <=? b) && (b <=? 122)) || ((48 <=? b) && (b <=? 57)).
Definition name_byte (c : ascii) : bool := name_start c || (code c =? 95) || (code c =? 45).
Definition pluginName (name : string) : bool :=
  match of_string name with c :: rest => name_start c && forallb name_byte rest | [] => false end.
Definition with_route (name : string) (p : CustomPlugin) : CustomPlugin :=
  mkPlugin name (PluginTriggerRoute name) (Kind p) (Variants p) (Operations p) (Lua p) (Schema p) (Star p)
    (PluginVersion p) (Deprecated p).
Definition named (name : string) (p : CustomPlugin) : bool := bool_decide (PluginName p = name).

Definition createPlugin (now : Z) (body : option CustomPlugin) (fs : FS) : answer * FS :=
  match body with
  | None => (Refused 400 "Invalid plugin payload.", fs)
  | Some plugin =>
      let name := TrimSpace (PluginName plugin) in
      if bool_decide (name = "") then (Refused 400 "Plugin name is required.", fs)
      else if negb (pluginName name) then
        (Refused 400 "Plugin name must start with a letter or digit and contain only letters, digits, hyphens, and underscores.", fs)
      else if blank (Lua plugin) then (Refused 400 "Plugin Lua source is required.", fs)
      else match Load fs with
      | inl _ => (Refused 500 "Could not load platform settings.", fs)
      | inr settings =>
          if existsb (named name) (Plugins settings) then
            (Refused 409 "A plugin with that name already exists.", fs)
          else
            let plugin := with_route name plugin in
            match Save now (set_plugins (Plugins settings ++ [plugin]) settings) fs with
            | (Some _, fs) => (Refused 500 "Could not save plugin.", fs)
            | (None, fs) => (PluginAnswer 201 plugin, fs)
            end
      end
  end.
(** The first plugin with the name is replaced. *)
Fixpoint replace_plugin (name : string) (plugin : CustomPlugin) (plugins : list CustomPlugin)
    : option (list CustomPlugin) :=
  match plugins with
  | [] => None
  | p :: rest => if named name p then Some (plugin :: rest) else cons p <$> replace_plugin name plugin rest
  end.
Definition updatePlugin (now : Z) (pathName : string) (body : option CustomPlugin) (fs : FS) : answer * FS :=
  let name := TrimSpace pathName in
  if bool_decide (name = "") then (Refused 400 "Plugin name is required.", fs)
  else match body with
  | None => (Refused 400 "Invalid plugin payload.", fs)
  | Some plugin =>
      if blank (Lua plugin) then (Refused 400 "Plugin Lua source is required.", fs)
      else match Load fs with
      | inl _ => (Refused 500 "Could not load platform settings.", fs)
      | inr settings =>
          let plugin := with_route name plugin in
          match replace_plugin name plugin (Plugins settings) with
          | None => (Refused 404 "Plugin not found.", fs)
          | Some plugins =>
              match Save now (set_plugins plugins settings) fs with
              | (Some _, fs) => (Refused 500 "Could not save plugin.", fs)
              | (None, fs) => (PluginAnswer 200 plugin, fs)
              end
          end
      end
  end.
Definition deletePlugin (now : Z) (pathName : string) (fs : FS) : answer * FS :=
  let name := TrimSpace pathName in
  if bool_decide (name = "") then (Refused 400 "Plugin name is required.", fs)
  else match Load fs with
  | inl _ => (Refused 500 "Could not load platform settings.", fs)
  | inr settings =>
      if existsb (named name) (Plugins settings) then
        match Save now (set_plugins (List.filter (fun p => negb (named name p)) (Plugins settings)) settings) fs with
        | (Some _, fs) => (Refused 500 "Could not delete plugin.", fs)
        | (None, fs) => (NoContent, fs)
        end
      else (Refused 404 "Plugin not found.", fs)
  end.

(** [compile] is the error of a CUE schema, if any; [unify] is the error of a
    configuration that does not fit a schema. *)
Context {Config : Type} (compile : string -> option string) (unify : string -> Config -> option string).
Definition checkPlugin (pathName : string) (fs : FS) : answer :=
  match Load fs with
  | inl _ => Refused 500 "Could not load platform settings."
  | inr settings =>
      match List.find (named (TrimSpace pathName)) (Plugins settings) with
      | None => Refused 404 "Plugin not found."
      | Some plugin =>
          let issues := (if HasPrefix (Trigger plugin) "/" then [] else ["trigger must start with /"]) ++
            (if bool_decide (Schema plugin = "") then []
             else match compile (Schema plugin) with Some e => ["schema CUE parse error: " +:+ e] | None => [] end) in
          Checked (PluginName plugin) (bool_decide (issues = [])) issues (Deprecated plugin)
      end
  end.
Definition validatePluginConfig (pathName : string) (body : option Config) (fs : FS) : answer :=
  match Load fs with
  | inl _ => Refused 500 "Could not load platform settings."
  | inr settings =>
      match List.find (named (TrimSpace pathName)) (Plugins settings) with
      | None => Refused 404 "Plugin not found."
      | Some plugin =>
          if bool_decide (Schema plugin = "") then ValidConfig "plugin has no schema defined"
          else match body with
          | None => Refused 400 "Invalid request body."
          | Some config =>
              match compile (Schema plugin) with
              | Some e => Refused 422 ("Plugin schema is invalid CUE: " +:+ e)
              | None => match unify (Schema plugin) config with
                        | Some e => InvalidConfig e
                        | None => ValidConfig ""
                        end
              end
          end
      end
  end.
End Files.

(** * What is accepted *)
Definition agent_ok (a : ExecutionAgent) : Prop :=
  AgentID a <> "" /\ AgentName a <> "" /\ AgentType a <> "" /\
  TrimSpace (Image (APISIXSidecar a)) <> "" /\ TrimSpace (ConfigMountPath (APISIXSidecar a)) <> "" /\
  0 < ListenPort (APISIXSidecar a) /\ 0 < AdminPort (APISIXSidecar a).
Definition enabled_defaults (agents : list ExecutionAgent) : list ExecutionAgent :=
  List.filter (fun a => Enabled a && Default a) agents.
Record acceptable (s : PlatformSettings) : Prop := {
  ok_agents : Forall agent_ok (Agents s);
  ok_registries : Registries s <> [];
  ok_default : (length (enabled_defaults (Agents s)) <= 1)%nat;
  ok_mode : Mode s = "local" \/ Mode s = "remote" \/ Mode s = "hybrid";
  ok_usable : exists a, a ∈ Agents s /\ Enabled a = true /\ ModeAllowsAgent (Mode s) (AgentType a) = true;
  ok_complete : forall r, r ∈ Registries s ->
    RegistryID r <> "" /\ RegistryName r <> "" /\ RegistryProvider r <> "" /\ RegistryURL r <> "";
  ok_overrides : forall o, o ∈ GlobalOverrides (Secrets s) -> OverrideKey o <> "";
}.

Lemma agents_checked agents : forall e d, match validate_agents agents e d with
  | inl _ => ~ Forall agent_ok agents
  | inr (e', d') => Forall agent_ok agents /\ e' = e + Z.of_nat (length (List.filter Enabled agents)) /\
      d' = d + Z.of_nat (length (enabled_defaults agents))
  end.
Proof.
  induction agents as [|a agents IH]; intros e d; cbn [validate_agents].
  { split; [constructor|]. cbn. lia. }
  destruct (bool_decide (AgentID a = "") || bool_decide (AgentName a = "") || bool_decide (AgentType a = "")) eqn:E1.
  { intros Ha%Forall_cons. destruct Ha as [(? & ? & ? & _) _]. repeat rewrite bool_decide_eq_false_2 in E1 by done. done. }
  destruct (blank (Image (APISIXSidecar a))) eqn:E2.
  { intros Ha%Forall_cons. destruct Ha as [(_ & _ & _ & Hi & _) _]. by apply blank_false in Hi; congruence. }
  destruct (blank (ConfigMountPath (APISIXSidecar a))) eqn:E3.
  { intros Ha%Forall_cons. destruct Ha as [(_ & _ & _ & _ & Hi & _) _]. by apply blank_false in Hi; congruence. }
  destruct ((ListenPort (APISIXSidecar a) <=? 0) || (AdminPort (APISIXSidecar a) <=? 0)) eqn:E4.
  { intros Ha%Forall_cons. destruct Ha as [(_ & _ & _ & _ & _ & Hl & Hp) _]. apply orb_true_iff in E4. lia. }
  assert (agent_ok a) as Hok.
  { apply orb_false_iff in E1 as [[? ?]%orb_false_iff ?], E4 as [? ?]. bool_to_prop.
    apply blank_false in E2, E3. split_and!; done || lia. }
  specialize (IH (if Enabled a then e + 1 else e) (if Enabled a && Default a then d + 1 else d)).
  destruct (validate_agents agents _ _) as [message|[e' d']].
  - intros [_ Ha]%Forall_cons. by apply IH.
  - destruct IH as (Ha & -> & ->). split; [by constructor|]. unfold enabled_defaults. cbn [List.filter].
    destruct (Enabled a), (Default a); cbn [andb length]; lia.
Qed.

Lemma existsb_false {A} (f : A -> bool) l : existsb f l = false <-> forall x, x ∈ l -> f x = false.
Proof.
  split.
  - intros E x Hx. destruct (f x) eqn:Ef; [|done]. exfalso.
    assert (existsb f l = true) as Ht; [|congruence]. apply existsb_exists. exists x. by rewrite <- list_elem_of_In.
  - intros H. destruct (existsb f l) eqn:E; [|done]. apply existsb_exists in E as (x & Hx & Hf).
    rewrite H in Hf; [done|]. by apply list_elem_of_In.
Qed.
Lemma existsb_true {A} (f : A -> bool) l : existsb f l = true <-> exists x, x ∈ l /\ f x = true.
Proof. rewrite existsb_exists. by setoid_rewrite list_elem_of_In. Qed.

Lemma usable_enabled mode agents a : a ∈ agents -> usable mode a = true -> 0 < Z.of_nat (length (List.filter Enabled agents)).
Proof.
  intros Ha [He _]%andb_true_iff. assert (a ∈ List.filter Enabled agents) as Hin.
  { apply list_elem_of_In, filter_In. by rewrite <- list_elem_of_In. }
  destruct (List.filter Enabled agents); [set_solver|cbn; lia].
Qed.

Lemma validMode_spec mode : validMode mode = true <-> mode = "local" \/ mode = "remote" \/ mode = "hybrid".
Proof.
  unfold validMode, ModeLocal, ModeRemote, ModeHybrid. rewrite bool_decide_eq_true, !elem_of_cons, elem_of_nil. tauto.
Qed.
Lemma incomplete_false r : incomplete_registry r = false <->
  RegistryID r <> "" /\ RegistryName r <> "" /\ RegistryProvider r <> "" /\ RegistryURL r <> "".
Proof. unfold incomplete_registry. rewrite !orb_false_iff, !bool_decide_eq_false. tauto. Qed.

(** The validation refuses exactly what is not acceptable. *)
Lemma validate_exact s : validate s = None <-> acceptable s.
Proof.
  unfold validate. split.
  - case_bool_decide as Ha; [done|]. case_bool_decide as Hr; [done|].
    pose proof (agents_checked (Agents s) 0 0) as Hc. destruct (validate_agents (Agents s) 0 0) as [|[e d]]; [done|].
    destruct Hc as (Hok & -> & ->). destruct (_ =? 0); [done|]. destruct (Z.ltb_spec 1 (0 + Z.of_nat (length (enabled_defaults (Agents s))))); [done|].
    destruct (validMode (Mode s)) eqn:Em; [|done]. destruct (existsb (usable (Mode s)) (Agents s)) eqn:Eu; [|done].
    cbn [negb]. destruct (existsb incomplete_registry (Registries s)) eqn:Er; [done|].
    destruct (existsb _ (GlobalOverrides (Secrets s))) eqn:Eo; [done|]. intros _.
    apply existsb_true in Eu as (a & Hin & [He Hm]%andb_true_iff).
    split; [done|done|lia|by apply validMode_spec|by exists a| |].
    + intros r Hr'. apply incomplete_false. by apply (proj1 (existsb_false _ _) Er).
    + intros o Ho. pose proof (proj1 (existsb_false _ _) Eo o Ho) as Hb. by apply bool_decide_eq_false in Hb.
  - intros [Hok Hr Hd Hm (a & Hin & He & Hma) Hcomp Hover]. assert (usable (Mode s) a = true) as Hu.
    { unfold usable. by rewrite He, Hma. }
    rewrite bool_decide_eq_false_2 by (intros E; rewrite E in Hin; set_solver). rewrite bool_decide_eq_false_2 by done.
    pose proof (agents_checked (Agents s) 0 0) as Hc. destruct (validate_agents (Agents s) 0 0) as [|[e d]]; [done|].
    destruct Hc as (_ & -> & ->). pose proof (usable_enabled _ _ _ Hin Hu) as Hpos.
    destruct (Z.eqb_spec (0 + Z.of_nat (length (List.filter Enabled (Agents s)))) 0); [lia|].
    destruct (Z.ltb_spec 1 (0 + Z.of_nat (length (enabled_defaults (Agents s))))); [lia|].
    rewrite (proj2 (validMode_spec _) Hm). rewrite (proj2 (existsb_true _ _)) by by exists a. cbn [negb].
    rewrite (proj2 (existsb_false _ _)) by (intros r Hr'; by apply incomplete_false, Hcomp).
    rewrite (proj2 (existsb_false _ _)); [done|]. intros o Ho. by apply bool_decide_eq_false, Hover.
Qed.

(** ** Normalizing twice *)
Lemma tags_idemp values : compact (compact values) = compact values.
Proof.
  induction values as [|v values IH]; [done|]. unfold compact in *. cbn [omap list_omap].
  destruct (bool_decide (TrimSpace v = "")) eqn:E; [done|]. cbn [omap list_omap]. rewrite TrimSpace_idemp, E.
  f_equal. exact IH.
Qed.
Lemma TrimSpace_default a b : TrimSpace b = b -> b <> "" ->
  let c := if bool_decide (TrimSpace a = "") then b else TrimSpace a in
  (if bool_decide (TrimSpace c = "") then b else TrimSpace c) = c.
Proof.
  intros Hb Hne. cbn zeta. destruct (bool_decide (TrimSpace a = "")) eqn:E.
  - rewrite Hb. by destruct (bool_decide (b = "")).
  - by rewrite TrimSpace_idemp, E.
Qed.
Lemma sidecar_idemp s : normalizeAPISIXSidecar (normalizeAPISIXSidecar s) = normalizeAPISIXSidecar s.
Proof.
  unfold normalizeAPISIXSidecar at 1.
  change (Image (normalizeAPISIXSidecar s)) with
    (if bool_decide (TrimSpace (Image s) = "") then Image defaultAPISIXSidecar else TrimSpace (Image s)).
  change (ConfigMountPath (normalizeAPISIXSidecar s)) with
    (if bool_decide (TrimSpace (ConfigMountPath s) = "") then ConfigMountPath defaultAPISIXSidecar
     else TrimSpace (ConfigMountPath s)).
  rewrite (TrimSpace_default (Image s)), (TrimSpace_default (ConfigMountPath s)) by done.
  unfold normalizeAPISIXSidecar. cbn [ListenPort AdminPort Capabilities]. f_equal.
  - destruct (Z.eqb_spec (ListenPort s) 0) as [E|E]; [done|]. by destruct (Z.eqb_spec (ListenPort s) 0).
  - destruct (Z.eqb_spec (AdminPort s) 0) as [E|E]; [done|]. by destruct (Z.eqb_spec (AdminPort s) 0).
  - destruct (bool_decide (compact (Capabilities s) = [])) eqn:E; [done|]. by rewrite tags_idemp, E.
Qed.
Lemma agent_idemp a : normalize_agent (normalize_agent a) = normalize_agent a.
Proof.
  destruct a. unfold normalize_agent. cbn -[TrimSpace compact normalizeAPISIXSidecar].
  by rewrite !TrimSpace_idemp, !tags_idemp, sidecar_idemp.
Qed.
Lemma registry_idemp r : normalize_registry (normalize_registry r) = normalize_registry r.
Proof. destruct r. unfold normalize_registry. cbn -[TrimSpace]. by rewrite !TrimSpace_idemp. Qed.
Lemma override_idemp o : normalize_override (normalize_override o) = normalize_override o.
Proof. destruct o. unfold normalize_override. cbn -[TrimSpace]. by rewrite !TrimSpace_idemp. Qed.
Lemma fmap_idemp {A} (f : A -> A) (l : list A) : (forall x, f (f x) = f x) -> f <$> (f <$> l) = f <$> l.
Proof. intros H. rewrite <- list_fmap_compose. apply list_fmap_ext. intros. apply H. Qed.

(** Settings whose mode is one of the three are settled by one normalization. *)
Lemma normalize_settled s : validMode (Mode (normalize s)) = true -> normalize (normalize s) = normalize s.
Proof.
  intros Hm. unfold normalize at 1.
  assert ((if bool_decide (ToLower (TrimSpace (Mode (normalize s))) = "") then ModeLocal
           else ToLower (TrimSpace (Mode (normalize s)))) = Mode (normalize s)) as ->.
  { apply validMode_spec in Hm as [-> | [-> | ->]]; reflexivity. }
  destruct s as [mode agents registries [] [] plugins updated description].
  unfold normalize. cbn -[TrimSpace ToLower normalize_agent normalize_registry normalize_override fmap].
  rewrite !TrimSpace_idemp, (fmap_idemp _ _ agent_idemp), (fmap_idemp _ _ registry_idemp),
    (fmap_idemp _ _ override_idemp).
  f_equal. by destruct (bool_decide (description = "")) eqn:E; [|rewrite E].
Qed.
Lemma acceptable_settled s : acceptable (normalize s) -> normalize (normalize s) = normalize s.
Proof. intros [_ _ _ Hm _ _ _]. by apply normalize_settled, validMode_spec. Qed.
Lemma normalize_updated now s : normalize (set_updated now s) = set_updated now (normalize s).
Proof. done. Qed.
Lemma validate_updated now s : validate (set_updated now s) = validate s.
Proof. done. Qed.
Lemma normalize_plugins plugins s : normalize (set_plugins plugins s) = set_plugins plugins (normalize s).
Proof. done. Qed.
Lemma acceptable_updated now s : acceptable s -> acceptable (set_updated now s).
Proof. by rewrite <- !validate_exact, validate_updated. Qed.

(** * What is stored *)
Section Laws.
(** What is written is what is read next, and what was encoded is decoded. *)
Context {FS : Type} (read : FS -> goerr + string) (write : string -> FS -> option goerr * FS)
  (Unmarshal : string -> goerr + PlatformSettings) (Marshal : PlatformSettings -> goerr + string).
Context (read_back : forall data fs fs', write data fs = (None, fs') -> read fs' = inr data)
  (decode_back : forall s data, Marshal s = inr data -> Unmarshal data = inr s).
Local Notation load := (Load read Unmarshal).
Local Notation save := (Save write Marshal).
Local Notation update := (updateSettings read write Unmarshal Marshal).

Lemma load_settled fs s : load fs = inr s -> acceptable s /\ normalize s = s.
Proof using Type.
  unfold Load. destruct (read fs) as [|data]; [done|]. cbn. destruct (Unmarshal data) as [|s0]; [done|]. cbn.
  destruct (validate (normalize s0)) eqn:Ev; [done|]. intros <-%(inj inr). apply validate_exact in Ev.
  split; [done|]. by apply acceptable_settled.
Qed.
Lemma saved_is_loaded now s fs fs' :
  acceptable (normalize s) -> save now s fs = (None, fs') -> load fs' = inr (set_updated now (normalize s)).
Proof using read_back decode_back.
  intros Ha. unfold Save. destruct (Marshal _) as [|data] eqn:Em; [done|]. intros Hw.
  unfold Load. rewrite (read_back _ _ _ Hw). cbn. rewrite (decode_back _ _ Em). cbn.
  rewrite normalize_updated, (acceptable_settled _ Ha), validate_updated.
  by rewrite (proj2 (validate_exact _) Ha).
Qed.

(** What an answer to an update says of the settings asked for, once
    normalized, and of the file before and after. *)
Definition update_verdict (now : Z) (asked : PlatformSettings) (fs : FS) (outcome : answer * FS) : Prop :=
  match outcome with
  | (Settings status shown, fs') =>
      status = 200 /\ acceptable asked /\ load fs' = inr (set_updated now asked) /\
      shown = set_password "" (set_updated now asked) /\
      Registries shown = Registries asked /\ Secrets shown = Secrets asked /\ Agents shown = Agents asked
  | (Refused status _, fs') =>
      status = 400 /\ ~ acceptable asked /\ fs' = fs \/
      status = 500 /\ acceptable asked /\ exists err, save now asked fs = (Some err, fs')
  | _ => False
  end.

(** C35: an update of the settings is refused with 400, and leaves the file as
    it is, exactly when the normalized settings are not acceptable (an agent
    or a registry is incomplete, none is usable in the mode, two enabled agents
    are the default, ...); it fails with 500 only when they cannot be written;
    otherwise the next load gives them, and the answer shows them without the
    password of the mail server, and with everything else, the secrets of the
    registries included, which the documentation says are never returned. *)
Theorem settings_update_exact now body fs :
  update_verdict now (normalize (kept_password read Unmarshal body fs)) fs (update now (Some body) fs).
Proof using read_back decode_back.
  unfold updateSettings. set (asked := normalize (kept_password read Unmarshal body fs)).
  destruct (validate asked) as [message|] eqn:Ev; cbn [update_verdict].
  - left. split_and!; [done| |done]. rewrite <- validate_exact. congruence.
  - apply validate_exact in Ev. pose proof (acceptable_settled _ Ev) as Hn. fold asked in Hn.
    destruct (save now asked fs) as [[err|] fs'] eqn:Es; cbn [update_verdict].
    + right. eauto.
    + assert (acceptable (normalize asked)) as Ha by by rewrite Hn.
      pose proof (saved_is_loaded _ _ _ _ Ha Es) as Hl. rewrite Hn in Hl. by rewrite Hn.
Qed.

(** Sending back what was shown keeps everything, the password included. *)
Lemma get_then_put now fs s : load fs = inr s ->
  match update now (Some (set_password "" s)) fs with
  | (Settings status _, fs') => status = 200 /\ load fs' = inr (set_updated now s)
  | (Refused status _, fs') => status = 500
  | _ => False
  end.
Proof using read_back decode_back.
  intros Hl. destruct (load_settled _ _ Hl) as [Ha Hn]. unfold updateSettings.
  assert (kept_password read Unmarshal (set_password "" s) fs = s) as ->.
  { unfold kept_password. rewrite Hl. by destruct s as [? ? ? ? []]. }
  rewrite Hn, (proj2 (validate_exact _) Ha). destruct (save now s fs) as [[err|] fs'] eqn:Es; [done|].
  rewrite <- Hn in Ha. pose proof (saved_is_loaded _ _ _ _ Ha Es) as Hl'. by rewrite Hn in Hl'.
Qed.

(** Every plugin the handlers store has a name of its own. *)
Definition named_apart (settings : PlatformSettings) : Prop := NoDup (PluginName <$> Plugins settings).
Definition stored_apart (fs : FS) : Prop := forall s, load fs = inr s -> named_apart s.
Lemma saved_plugins now s plugins fs fs' : load fs = inr s -> save now (set_plugins plugins s) fs = (None, fs') ->
  load fs' = inr (set_updated now (set_plugins plugins s)).
Proof using read_back decode_back.
  intros Hl Hs. destruct (load_settled _ _ Hl) as [Ha Hn].
  assert (normalize (set_plugins plugins s) = set_plugins plugins s) as Hp by by rewrite normalize_plugins, Hn.
  rewrite <- Hp at 1. eapply saved_is_loaded; [|done]. rewrite Hp. by destruct Ha; split.
Qed.

Lemma named_spec name p : named name p = true <-> PluginName p = name.
Proof using Type. unfold named. by rewrite bool_decide_eq_true. Qed.
Lemma unnamed name plugins : existsb (named name) plugins = false -> name ∉ PluginName <$> plugins.
Proof using Type.
  rewrite existsb_false. intros H (p & -> & Hp)%list_elem_of_fmap. apply H in Hp. unfold named in Hp.
  by apply bool_decide_eq_false in Hp.
Qed.
Lemma replaced_names name plugin plugins plugins' : PluginName plugin = name ->
  replace_plugin name plugin plugins = Some plugins' -> PluginName <$> plugins' = PluginName <$> plugins.
Proof using Type.
  intros Hn. revert plugins'. induction plugins as [|p plugins IH]; intros plugins'; [done|]. cbn [replace_plugin].
  destruct (named name p) eqn:E; [intros [= <-]; apply named_spec in E; cbn; congruence|].
  destruct (replace_plugin name plugin plugins) as [rest|]; [|done]. intros [= <-]. cbn. f_equal. by apply IH.
Qed.

(** A plugin that was created is stored last, under a name no other has; its
    trigger is the route of that name. *)
Lemma create_plugin_stored now body fs plugin fs' s : load fs = inr s ->
  createPlugin read write Unmarshal Marshal now (Some body) fs = (PluginAnswer 201 plugin, fs') ->
  PluginName plugin ∉ PluginName <$> Plugins s /\ Trigger plugin = PluginTriggerRoute (PluginName plugin) /\
  load fs' = inr (set_updated now (set_plugins (Plugins s ++ [plugin]) s)).
Proof using read_back decode_back.
  intros Hl. unfold createPlugin. rewrite Hl. destruct (bool_decide _); [done|]. destruct (negb _); [done|].
  destruct (blank _); [done|]. destruct (existsb _ _) eqn:Ee; [done|].
  destruct (save _ _ fs) as [[err|] fs1] eqn:Es; [done|]. intros E. apply pair_equal_spec in E as [E <-].
  assert (with_route (TrimSpace (PluginName body)) body = plugin) as <- by congruence.
  split_and!; [by apply unnamed|done|]. by eapply saved_plugins.
Qed.
Lemma update_plugin_stored now name body fs plugin fs' s : load fs = inr s ->
  updatePlugin read write Unmarshal Marshal now name (Some body) fs = (PluginAnswer 200 plugin, fs') ->
  exists plugins, load fs' = inr (set_updated now (set_plugins plugins s)) /\ plugin ∈ plugins /\
    PluginName plugin = TrimSpace name /\ PluginName <$> plugins = PluginName <$> Plugins s.
Proof using read_back decode_back.
  intros Hl. unfold updatePlugin. rewrite Hl. destruct (bool_decide _); [done|]. destruct (blank _); [done|].
  destruct (replace_plugin _ _ _) as [plugins|] eqn:Er; [|done].
  destruct (save _ _ fs) as [[err|] fs1] eqn:Es; [done|]. intros E. apply pair_equal_spec in E as [E <-].
  assert (with_route (TrimSpace name) body = plugin) as <- by congruence.
  exists plugins. split_and!; [by eapply saved_plugins| |done|exact (replaced_names (TrimSpace name) (with_route (TrimSpace name) body) _ _ eq_refl Er)].
  clear -Er. revert plugins Er. induction (Plugins s) as [|p l IH]; intros plugins; [done|]. cbn [replace_plugin].
  destruct (named _ p); [intros [= <-]; by left|]. destruct (replace_plugin _ _ l); [|done]. intros [= <-].
  right. by apply IH.
Qed.
Lemma delete_plugin_stored now name fs fs' s : load fs = inr s ->
  deletePlugin read write Unmarshal Marshal now name fs = (NoContent, fs') ->
  exists plugins, load fs' = inr (set_updated now (set_plugins plugins s)) /\
    (forall p, p ∈ plugins <-> p ∈ Plugins s /\ PluginName p <> TrimSpace name).
Proof using read_back decode_back.
  intros Hl. unfold deletePlugin. rewrite Hl. destruct (bool_decide _); [done|]. destruct (existsb _ _); [|done].
  destruct (save _ _ fs) as [[err|] fs1] eqn:Es; [done|]. intros E. apply pair_equal_spec in E as [_ <-].
  eexists. split; [by eapply saved_plugins|]. intros p.
  rewrite list_elem_of_In, filter_In, negb_true_iff, <- list_elem_of_In. unfold named.
  by rewrite bool_decide_eq_false.
Qed.
(** So creation and replacement keep the names distinct. *)
Lemma create_keeps_apart now body fs plugin fs' s : load fs = inr s -> named_apart s ->
  createPlugin read write Unmarshal Marshal now (Some body) fs = (PluginAnswer 201 plugin, fs') -> stored_apart fs'.
Proof using read_back decode_back.
  intros Hl Hd Hc. destruct (create_plugin_stored _ _ _ _ _ _ Hl Hc) as (Hnew & _ & Hl').
  intros s'. rewrite Hl'. intros <-%(inj inr). unfold named_apart. cbn. rewrite fmap_app.
  apply NoDup_app. split_and!; [done| |apply NoDup_singleton]. intros x Hx Hx'. apply list_elem_of_singleton in Hx' as ->. done.
Qed.
End Laws.

(** * Examples and findings *)
#[export] Instance sidecar_eq_dec : EqDecision APISIXSidecarConfig. Proof. solve_decision. Defined.
#[export] Instance agent_eq_dec : EqDecision ExecutionAgent. Proof. solve_decision. Defined.
#[export] Instance registry_eq_dec : EqDecision OCIRegistry. Proof. solve_decision. Defined.
#[export] Instance override_eq_dec : EqDecision GlobalOverride. Proof. solve_decision. Defined.
#[export] Instance secrets_eq_dec : EqDecision SecretsConfig. Proof. solve_decision. Defined.
#[export] Instance smtp_eq_dec : EqDecision SMTPNotificationsConfig. Proof. solve_decision. Defined.
#[export] Instance plugin_eq_dec : EqDecision CustomPlugin. Proof. solve_decision. Defined.
#[export] Instance settings_eq_dec : EqDecision PlatformSettings. Proof. solve_decision. Defined.

(** An encoding of finitely many settings: the text of one is its place. *)
Section Encoding.
Context (known : list PlatformSettings).
Definition encode (s : PlatformSettings) : goerr + string :=
  match list_find (eq s) known with
  | Some (i, _) => inr (String (ascii_of_nat (48 + i)) "")
  | None => inl (ErrText "unknown")
  end.
Definition decode (data : string) : goerr + PlatformSettings :=
  match data with
  | String c "" => match known !! (nat_of_ascii c - 48)%nat with Some s => inr s | None => inl (ErrText "index") end
  | _ => inl (ErrText "text")
  end.
Lemma decode_encode s data : (length known < 200)%nat -> encode s = inr data -> decode data = inr s.
Proof using Type.
  intros Hlen. unfold encode. destruct (list_find (eq s) known) as [[i x]|] eqn:E; [|done]. intros <-%(inj inr).
  apply list_find_Some in E as (Hi & <- & _). cbn [decode]. pose proof (lookup_lt_Some _ _ _ Hi).
  rewrite nat_ascii_embedding by lia. by replace (48 + i - 48)%nat with i by lia; rewrite Hi.
Qed.
End Encoding.
(** A file that can always be written. *)
Definition read_file (fs : string) : goerr + string := inr fs.
Definition write_file (data fs : string) : option goerr * string := (None, data).
Lemma file_read_back data fs fs' : write_file data fs = (None, fs') -> read_file fs' = inr data.
Proof. by intros [= <-]. Qed.

(** The settings of the examples: the defaults with a password, with one
    plugin, with another, and without an enabled agent. *)
Definition demo : PlatformSettings := set_password "s3cret" (DefaultSettings 0).
Definition demo_plugin (name : string) : CustomPlugin :=
  with_route name (mkPlugin "" "" "rest" [] [] "return {}" "" "" "1.0" false).
Definition demo_known : list PlatformSettings :=
  [demo; set_updated 7 demo; set_updated 7 (set_plugins [demo_plugin "a"] demo);
   set_updated 8 (set_plugins [demo_plugin "b"] demo)].
Definition demo_file : string := "0".
Local Notation demo_load := (Load read_file (decode demo_known)).
Local Notation demo_update := (updateSettings read_file write_file (decode demo_known) (encode demo_known)).
Definition disabled (s : PlatformSettings) : PlatformSettings :=
  mkSettings "remote" (Agents s) (Registries s) (Secrets s) (SMTP s) (Plugins s) (UpdatedAt s) (Description s).

Lemma settings_update_exact_witness :
  update_verdict read_file write_file (decode demo_known) (encode demo_known) 7 demo demo_file
    (Settings 200 (set_password "" (set_updated 7 demo)), "1") /\
  update_verdict read_file write_file (decode demo_known) (encode demo_known) 7 (disabled demo) demo_file
    (Refused 400 "Remote mode needs an enabled remote agent or Kubernetes backend.", demo_file).
Proof.
  split.
  - apply (settings_update_exact read_file write_file (decode demo_known) (encode demo_known) file_read_back
             (fun s data => decode_encode demo_known s data ltac:(cbn; lia)) 7 (set_password "" demo) demo_file).
  - apply (settings_update_exact read_file write_file (decode demo_known) (encode demo_known) file_read_back
             (fun s data => decode_encode demo_known s data ltac:(cbn; lia)) 7 (disabled demo) demo_file).
Defined.
Example defaults_are_acceptable : validate (normalize (DefaultSettings 0)) = None.
Proof. by vm_compute. Qed.

(** What a session that is not an administrator's reads: everything but the
    password of the mail server, while the answer to a synchronization hides
    the registries' secrets and the settings of the vault. *)
Lemma settings_show_secrets {FS} (read : FS -> goerr + string) Unmarshal fs s :
  Load read Unmarshal fs = inr s ->
  exists shown, getSettings read Unmarshal fs = Settings 200 shown /\ Registries shown = Registries s /\
    Secrets shown = Secrets s /\ Agents shown = Agents s.
Proof. intros Hl. unfold getSettings. rewrite Hl. by eexists. Qed.
Lemma redacted_hides s : Forall (fun r => Secret r = "") (Registries (redactSettings s)) /\
  GlobalOverrides (Secrets (redactSettings s)) = [] /\ Password (SMTP (redactSettings s)) = "" /\
  Agents (redactSettings s) = Agents s.
Proof. split_and!; [|done..]. cbn. by apply Forall_fmap, Forall_true. Qed.

(** Two creations that both load before either saves: both are answered 201,
    and only the later one is stored. *)
Definition create_after_load (now : Z) (loaded : PlatformSettings) (plugin : CustomPlugin) (fs : string) :
    option goerr * string :=
  Save write_file (encode demo_known) now (set_plugins (Plugins loaded ++ [plugin]) loaded) fs.
Example creation_lost :
  demo_load demo_file = inr demo /\
  exists fs1 fs2, create_after_load 7 demo (demo_plugin "a") demo_file = (None, fs1) /\
    create_after_load 8 demo (demo_plugin "b") fs1 = (None, fs2) /\
    demo_load fs1 = inr (set_updated 7 (set_plugins [demo_plugin "a"] demo)) /\
    demo_load fs2 = inr (set_updated 8 (set_plugins [demo_plugin "b"] demo)).
Proof. split; [by vm_compute|]. exists "2", "3". split_and!; by vm_compute. Qed.

(** An update of the whole settings stores plugins as they are sent: with the
    same name twice, with any trigger. *)
Lemma plugins_unchecked plugins s : validate (set_plugins plugins s) = validate s.
Proof. done. Qed.

(** The modes and the kinds of agents. *)
Lemma mode_local_or_remote agentType :
  ModeAllowsAgent ModeLocal agentType = IsLocalAgentType agentType /\
  ModeAllowsAgent ModeRemote agentType = negb (IsLocalAgentType agentType) /\
  ModeAllowsAgent ModeHybrid agentType = true.
Proof. done. Qed.

End Platform.
