(* ===== verification/BackendChoice.v ===== *)
(** The choice of the backend of an execution,
    [src/backend/internal/execution/backend.go]: the catalogue of the enabled
    backends under the deployment mode, what each can run, and the backend a
    launch gets.

    The settings are those of Platform.v; the Docker daemon and the clusters
    answer whether they are reachable, and the agents are the registry of
    Agents.v.  The answers hold for the time of one call. *)
From Stdlib Require Import ZArith Lia Ascii.
From S2P Require Import Prelude GoStrings Agents Runner StepRun RemoteRun Platform.
Import GoStrings.

Module BackendChoice.
Import Platform.

(** ** Data (types.go) *)
Record BackendOption := mkOption {
  ID : string;
  Label : string;
  Kind : string;
  OptionDescription : string;
  IsDefault : bool;
  Available : bool;
  OptionCapacity : Z;
  Tags : list string;
}.
(** The backends of [internal/runner]; a remote one keeps the id its
    dispatcher asks the registry and the coordinator for. *)
Inductive Backend :=
  | Local (config : Runner.BackendConfig)
  | Kubernetes (config : Runner.BackendConfig) (namespace kubeconfig : string)
  | Remote (config : Runner.BackendConfig) (baseURL secret agentID : string).
Record backendBinding := mkBinding { option_of : BackendOption; backend : Backend }.

(** Why a launch has no backend; the text is what follows the message of the
    wrapped error. *)
Inductive refusal :=
  | ErrBackendNotFound
  | ErrBackendUnavailable
  | ErrNoTaggedBackend (detail : string)
  | ErrModeExcludesBackend (detail : string).

(** ** The world a launch finds *)
Record World := mkWorld {
  settings : option PlatformSettings;
  docker : bool;
  cluster : string -> string -> bool;
  registry : option Agents.Registry;
  registrations : option (list Agents.Registration);
  agentSecret : string;
  max_steps : string;
  num_cpu : Z;
}.

Section Choice.
Context (w : World).

(** [ListRegistrations] and [IsAvailable] of the registry, if there is one. *)
Definition known_agents : list Agents.Registration :=
  match registry w with Some r => Agents.List (registrations w) r | None => [] end.
Definition agent_up (id : string) : bool :=
  match registry w with Some r => Agents.IsAvailable id (registrations w) r | None => false end.

Definition agentCapacity (backendID : string) : Z :=
  match registry w with
  | None => 1
  | Some _ =>
      let total := foldl (fun total reg =>
        if bool_decide (TrimSpace (Agents.AgentID reg) = backendID) && agent_up (Agents.AgentID reg)
        then total + Agents.SlotCount reg else total) 0 known_agents in
      if total <? 1 then 1 else total
  end.

Definition backendAvailable (b : Backend) : bool :=
  match b with
  | Local config => Runner.Config.Permissive config || docker w
  | Kubernetes _ namespace kubeconfig => cluster w namespace kubeconfig
  | Remote _ _ _ agentID => agent_up agentID
  end.
Definition capacity (b : Backend) : Z :=
  match b with
  | Local _ => StepRun.Capacity (max_steps w) (num_cpu w)
  | Kubernetes _ _ _ => 0
  | Remote _ _ _ agentID => agentCapacity agentID
  end.
(** [backendCapacity]: every backend reports one. *)
Definition backendCapacity (b : Backend) : option Z := Some (capacity b).

(** ** The catalogue *)
Definition normalizeBackendKind (kind : string) : string :=
  let kind := ToLower (TrimSpace kind) in
  if bool_decide (kind ∈ [""; "local"; "docker"]) then "local"
  else if bool_decide (kind ∈ ["kubernetes"; "k8s"]) then "kubernetes"
  else if bool_decide (kind ∈ ["remote"; "remote-agent"; "remote-docker"]) then "remote"
  else kind.

Definition fallbackBackendBinding : backendBinding :=
  mkBinding
    (mkOption "local-docker" "Local Docker" "local" "Runs on the host worker without additional remote plumbing."
       true true 0 [])
    (Local (StepRun.NewLocal [Runner.Config.mk "local-docker" "Local Docker" "local" true])).

Definition agent_option (a : ExecutionAgent) : BackendOption :=
  let kind := normalizeBackendKind (AgentType a) in
  mkOption (FirstNonEmpty [AgentID a; AgentName a; kind]) (FirstNonEmpty [AgentName a; AgentID a; kind]) kind
    (AgentDescription a) (Default a) false 0 (RoutingTags a).
Definition agent_backend (a : ExecutionAgent) : option Backend :=
  let o := agent_option a in
  let config := Runner.Config.mk (ID o) (Label o) (Kind o) false in
  if bool_decide (Kind o = "local") then Some (Local (StepRun.NewLocal [config]))
  else if bool_decide (Kind o = "kubernetes") then
    Some (Kubernetes (Runner.normalizeBackendConfig config "kubernetes" "Kubernetes" "kubernetes")
            (FirstNonEmpty [TargetNamespace a; "default"]) (KubeconfigPath a))
  else if bool_decide (Kind o = "remote") then
    let r := RemoteRun.NewRemote config (HostURL a) None (agentSecret w) in
    Some (Remote (RemoteRun.config r) (RemoteRun.baseURL r) (RemoteRun.secret r) (ID o))
  else None.
(** The binding of an enabled agent of a known kind. *)
Definition agent_binding (a : ExecutionAgent) : option backendBinding :=
  if Enabled a then mkBinding (agent_option a) <$> agent_backend a else None.

Fixpoint catalog_loop (mode : string) (agents : list ExecutionAgent) (allowed excluded : list backendBinding)
    : list backendBinding * list backendBinding :=
  match agents with
  | [] => (allowed, excluded)
  | a :: rest =>
      match agent_binding a with
      | None => catalog_loop mode rest allowed excluded
      | Some binding =>
          if ModeAllowsAgent mode (AgentType a) then catalog_loop mode rest (allowed ++ [binding]) excluded
          else catalog_loop mode rest allowed (excluded ++ [binding])
      end
  end.
Definition backendCatalog : list backendBinding * list backendBinding * string :=
  match settings w with
  | None => ([fallbackBackendBinding], [], ModeLocal)
  | Some s =>
      let mode := FirstNonEmpty [ToLower (TrimSpace (Mode s)); ModeLocal] in
      let '(allowed, excluded) := catalog_loop mode (Agents s) [] [] in
      let allowed :=
        if bool_decide (allowed = []) && ModeAllowsAgent mode "local" && bool_decide (excluded = [])
        then [fallbackBackendBinding] else allowed in
      (allowed, excluded, mode)
  end.
Definition configuredBackends : list backendBinding := backendCatalog.1.1.
Definition BackendOptions : list BackendOption :=
  (fun b => let o := option_of b in
     mkOption (ID o) (Label o) (Kind o) (OptionDescription o) (IsDefault o) (backendAvailable (backend b))
       (match backendCapacity (backend b) with Some n => Z.max n 0 | None => OptionCapacity o end) (Tags o))
  <$> configuredBackends.

(** [InventorySources]: the backends whose resources are not the host's. *)
Definition InventorySources : list (string * string * string) :=
  let '(allowed, excluded, _) := backendCatalog in
  (fun b => (ID (option_of b), Label (option_of b), Kind (option_of b))) <$>
    List.filter (fun b => negb (bool_decide (Kind (option_of b) = "local"))) (allowed ++ excluded).

(** ** The choice *)
Definition tag_key (tag : string) : string := ToLower (TrimSpace tag).
Definition missingTags (have required : list string) : list string :=
  List.filter (fun tag => negb (bool_decide (tag_key tag ∈ (tag_key <$> have)))) required.
Definition kindWord (kind : string) : string :=
  if bool_decide (kind = "local") then "local Docker"
  else if bool_decide (kind = "remote") then "remote agent" else kind.

Definition carries (required : list string) (b : backendBinding) : bool :=
  bool_decide (missingTags (Tags (option_of b)) required = []).
Definition called (requested : string) (b : backendBinding) : bool := bool_decide (ID (option_of b) = requested).
Definition up (b : backendBinding) : bool := backendAvailable (backend b).
(** A launch that names a backend other than [auto]. *)
Definition names_backend (requested : string) : bool :=
  negb (bool_decide (requested = "")) && negb (EqualFold requested Runner.AutoBackend).

Definition resolve_named (requested : string) (requiredTags : list string) (bindings excluded : list backendBinding)
    (mode : string) : refusal + backendBinding * list string :=
  match List.find (called requested) bindings with
  | Some b => if up b then inr (b, missingTags (Tags (option_of b)) requiredTags) else inl ErrBackendUnavailable
  | None =>
      match List.find (called requested) excluded with
      | Some b => inl (ErrModeExcludesBackend (Label (option_of b) +:+ " is a " +:+ kindWord (Kind (option_of b)) +:+
                         " backend, which " +:+ mode +:+ " mode does not use"))
      | None => inl ErrBackendNotFound
      end
  end.
Definition resolve_auto (requiredTags : list string) (bindings excluded : list backendBinding) (mode : string)
    : refusal + backendBinding * list string :=
  let tags := Join requiredTags ", " in
  if bool_decide (bindings = []) then inl (ErrModeExcludesBackend (mode +:+ " mode leaves no enabled backend to run on"))
  else
    let candidates := List.filter (carries requiredTags) bindings in
    if bool_decide (candidates = []) then
      match List.find (carries requiredTags) excluded with
      | Some b => inl (ErrModeExcludesBackend ("only " +:+ Label (option_of b) +:+ " carries the profile's agent tags (" +:+
                    tags +:+ "), and " +:+ mode +:+ " mode does not use " +:+ kindWord (Kind (option_of b)) +:+ " backends"))
      | None => inl (ErrNoTaggedBackend ("needs " +:+ tags))
      end
    else match List.find (fun b => IsDefault (option_of b) && up b) candidates with
    | Some b => inr (b, [])
    | None => match List.find up candidates with Some b => inr (b, []) | None => inl ErrBackendUnavailable end
    end.
Definition resolveBackend (requested : string) (requiredTags : list string) : refusal + backendBinding * list string :=
  let '(bindings, excluded, mode) := backendCatalog in
  let requested := TrimSpace requested in
  if names_backend requested then resolve_named requested requiredTags bindings excluded mode
  else resolve_auto requiredTags bindings excluded mode.
End Choice.

(** * What the catalogue holds *)
(** The backends of the enabled agents of known kinds that satisfy [p]. *)
Definition bindings_of (w : World) (p : ExecutionAgent -> bool) (agents : list ExecutionAgent) : list backendBinding :=
  omap (agent_binding w) (List.filter p agents).
Definition mode_of (s : PlatformSettings) : string := FirstNonEmpty [ToLower (TrimSpace (Mode s)); ModeLocal].
Definition allowed_of (w : World) (s : PlatformSettings) : list backendBinding :=
  bindings_of w (fun a => ModeAllowsAgent (mode_of s) (AgentType a)) (Agents s).
Definition excluded_of (w : World) (s : PlatformSettings) : list backendBinding :=
  bindings_of w (fun a => negb (ModeAllowsAgent (mode_of s) (AgentType a))) (Agents s).

Lemma catalog_loop_spec w mode agents allowed excluded : catalog_loop w mode agents allowed excluded =
  (allowed ++ bindings_of w (fun a => ModeAllowsAgent mode (AgentType a)) agents,
   excluded ++ bindings_of w (fun a => negb (ModeAllowsAgent mode (AgentType a))) agents).
Proof.
  unfold bindings_of. revert allowed excluded. induction agents as [|a agents IH]; intros allowed excluded.
  { cbn. by rewrite !app_nil_r. }
  cbn [catalog_loop List.filter].
  destruct (ModeAllowsAgent mode (AgentType a)); cbn [negb omap list_omap]; destruct (agent_binding w a) as [b|];
    rewrite IH; by rewrite <- ?app_assoc.
Qed.

(** The three readings of the settings. *)
Lemma catalog_spec w : backendCatalog w =
  match settings w with
  | None => ([fallbackBackendBinding], [], ModeLocal)
  | Some s =>
      (if bool_decide (allowed_of w s = []) && ModeAllowsAgent (mode_of s) "local" && bool_decide (excluded_of w s = [])
       then [fallbackBackendBinding] else allowed_of w s, excluded_of w s, mode_of s)
  end.
Proof. unfold backendCatalog. destruct (settings w) as [s|]; [|done]. cbn zeta. by rewrite catalog_loop_spec. Qed.

Lemma bindings_of_in w p agents b : b ∈ bindings_of w p agents <->
  exists a, a ∈ agents /\ p a = true /\ agent_binding w a = Some b.
Proof.
  unfold bindings_of. rewrite list_elem_of_omap. setoid_rewrite list_elem_of_In. setoid_rewrite filter_In. naive_solver.
Qed.

(** A kind is local for the catalogue exactly when it is for the mode. *)
Lemma kind_local agentType : normalizeBackendKind agentType = "local" <-> IsLocalAgentType agentType = true.
Proof.
  unfold normalizeBackendKind, IsLocalAgentType. set (k := ToLower (TrimSpace agentType)).
  rewrite bool_decide_eq_true. destruct (bool_decide (k ∈ ["" ; "local"; "docker"])) eqn:E1; bool_to_prop; [done|].
  split; [|done]. repeat case_bool_decide; [done..|]. intros ->. set_solver.
Qed.

(** Where a backend that may run suites comes from. *)
Definition from_settings (w : World) (b : backendBinding) : Prop :=
  match settings w with
  | None => b = fallbackBackendBinding
  | Some s =>
      (exists a, a ∈ Agents s /\ Enabled a = true /\ ModeAllowsAgent (mode_of s) (AgentType a) = true /\
        agent_binding w a = Some b) \/
      allowed_of w s = [] /\ excluded_of w s = [] /\ ModeAllowsAgent (mode_of s) "local" = true /\
        b = fallbackBackendBinding
  end.
Lemma binding_enabled w a b : agent_binding w a = Some b -> Enabled a = true.
Proof. unfold agent_binding. by destruct (Enabled a). Qed.
Lemma allowed_from_settings w b : b ∈ configuredBackends w -> from_settings w b.
Proof.
  unfold configuredBackends, from_settings. rewrite catalog_spec. destruct (settings w) as [s|]; cbn [fst].
  - destruct (bool_decide (allowed_of w s = []) && _ && _) eqn:E.
    + rewrite list_elem_of_singleton. intros ->. right. apply andb_true_iff in E as [[? ?]%andb_true_iff ?].
      bool_to_prop. done.
    + intros (a & Ha & Hm & Hb)%bindings_of_in. left. exists a. split_and!; try done. by eapply binding_enabled.
  - by rewrite list_elem_of_singleton.
Qed.

(** * What a launch gets *)
Definition carries_all (required : list string) (b : backendBinding) : Prop :=
  forall tag, tag ∈ required -> exists carried, carried ∈ Tags (option_of b) /\ tag_key carried = tag_key tag.
Lemma missing_in have required tag : tag ∈ missingTags have required <->
  tag ∈ required /\ forall carried, carried ∈ have -> tag_key carried <> tag_key tag.
Proof.
  unfold missingTags. rewrite !list_elem_of_In, filter_In, <- !list_elem_of_In, negb_true_iff, bool_decide_eq_false.
  rewrite list_elem_of_fmap. naive_solver.
Qed.
Lemma carries_spec required b : carries required b = true <-> carries_all required b.
Proof.
  unfold carries, carries_all. rewrite bool_decide_eq_true. split.
  - intros E tag Ht. destruct (decide (Exists (fun c => tag_key c = tag_key tag) (Tags (option_of b)))) as [H|H].
    + by apply Exists_exists in H.
    + exfalso. assert (tag ∈ missingTags (Tags (option_of b)) required) as Hm; [|rewrite E in Hm; set_solver].
      apply missing_in. split; [done|]. intros c Hc Heq. apply H, Exists_exists. by exists c.
  - intros H. apply elem_of_nil_inv. intros tag [Ht Hn]%missing_in. destruct (H tag Ht) as (c & Hc & E). by eapply Hn.
Qed.

Lemma find_none {A} (f : A -> bool) l : List.find f l = None <-> forall x, x ∈ l -> f x = false.
Proof.
  split; [intros H x Hx; apply (find_none _ _ H); by apply list_elem_of_In|].
  intros H. destruct (List.find f l) as [x|] eqn:E; [|done]. apply find_some in E as [Hx Hf].
  rewrite H in Hf; [done|]. by apply list_elem_of_In.
Qed.
Lemma find_some_in {A} (f : A -> bool) l x : List.find f l = Some x -> x ∈ l /\ f x = true.
Proof. intros [? ?]%find_some. by rewrite list_elem_of_In. Qed.
Lemma filter_nil_iff {A} (f : A -> bool) l : List.filter f l = [] <-> forall x, x ∈ l -> f x = false.
Proof.
  split.
  - intros H x Hx. destruct (f x) eqn:E; [|done]. exfalso.
    assert (In x (List.filter f l)) as Hin; [|by rewrite H in Hin]. apply filter_In. by rewrite <- list_elem_of_In.
  - intros H. apply elem_of_nil_inv. intros x [Hx E]%list_elem_of_In%filter_In. rewrite H in E; [done|].
    by apply list_elem_of_In.
Qed.

(** What the answer to a launch says of the catalogue. *)
Definition choice_verdict (w : World) (requested : string) (tags : list string)
    (outcome : refusal + backendBinding * list string) : Prop :=
  let '(allowed, excluded, _) := backendCatalog w in
  let named := names_backend (TrimSpace requested) in
  let is_named b := ID (option_of b) = TrimSpace requested in
  match outcome with
  | inr (b, missing) =>
      b ∈ allowed /\ from_settings w b /\ up w b = true /\
      if named then is_named b /\ missing = missingTags (Tags (option_of b)) tags
      else missing = [] /\ carries_all tags b /\
        (IsDefault (option_of b) = false ->
         forall d, d ∈ allowed -> carries_all tags d -> IsDefault (option_of d) = true -> up w d = false)
  | inl ErrBackendNotFound => named = true /\ forall b, b ∈ allowed ++ excluded -> ~ is_named b
  | inl ErrBackendUnavailable =>
      if named then exists b, b ∈ allowed /\ is_named b /\ up w b = false
      else (exists b, b ∈ allowed /\ carries_all tags b) /\
        forall b, b ∈ allowed -> carries_all tags b -> up w b = false
  | inl (ErrNoTaggedBackend _) =>
      named = false /\ allowed <> [] /\ forall b, b ∈ allowed ++ excluded -> ~ carries_all tags b
  | inl (ErrModeExcludesBackend _) =>
      if named then (exists b, b ∈ excluded /\ is_named b) /\ forall b, b ∈ allowed -> ~ is_named b
      else allowed = [] \/
        (exists b, b ∈ excluded /\ carries_all tags b) /\ forall b, b ∈ allowed -> ~ carries_all tags b
  end.

Lemma not_carried tags (l : list backendBinding) : (forall b, b ∈ l -> carries tags b = false) -> forall b, b ∈ l -> ~ carries_all tags b.
Proof. intros H b Hb Hc%carries_spec. rewrite H in Hc; done. Qed.
Lemma not_called requested (l : list backendBinding) : (forall b, b ∈ l -> called requested b = false) ->
  forall b, b ∈ l -> ID (option_of b) <> requested.
Proof. intros H b Hb E. specialize (H b Hb). unfold called in H. by rewrite bool_decide_eq_false in H. Qed.

Lemma named_choice w requested tags : names_backend (TrimSpace requested) = true ->
  choice_verdict w requested tags (resolveBackend w requested tags).
Proof.
  intros Hn. pose proof (allowed_from_settings w) as Hfrom. unfold configuredBackends in Hfrom.
  unfold resolveBackend, choice_verdict. destruct (backendCatalog w) as [[allowed excluded] mode]. cbn [fst] in Hfrom.
  rewrite Hn. unfold resolve_named. destruct (List.find _ allowed) as [b|] eqn:Ea.
  - apply find_some_in in Ea as [Hb Hc]. unfold called in Hc. bool_to_prop. destruct (up w b) eqn:Eu; [|by exists b].
    split_and!; try done. by apply Hfrom.
  - pose proof (proj1 (find_none _ _) Ea) as Hnone. destruct (List.find _ excluded) as [b|] eqn:Ee.
    + apply find_some_in in Ee as [Hb Hc]. unfold called in Hc. bool_to_prop. split; [by exists b|].
      by apply not_called.
    + pose proof (proj1 (find_none _ _) Ee) as Hnone'. split; [done|]. intros b [Hb|Hb]%elem_of_app.
      * by apply (not_called _ _ Hnone).
      * by apply (not_called _ _ Hnone').
Qed.
Lemma auto_choice w requested tags : names_backend (TrimSpace requested) = false ->
  choice_verdict w requested tags (resolveBackend w requested tags).
Proof.
  intros Hn. pose proof (allowed_from_settings w) as Hfrom. unfold configuredBackends in Hfrom.
  unfold resolveBackend, choice_verdict. destruct (backendCatalog w) as [[allowed excluded] mode]. cbn [fst] in Hfrom.
  rewrite Hn. unfold resolve_auto. destruct (bool_decide (allowed = [])) eqn:E0; bool_to_prop; [by left|].
  set (candidates := List.filter (carries tags) allowed).
  assert (forall b, b ∈ candidates <-> b ∈ allowed /\ carries_all tags b) as Hin.
  { intros b. unfold candidates. by rewrite !list_elem_of_In, filter_In, carries_spec. }
  destruct (bool_decide (candidates = [])) eqn:E1; bool_to_prop.
  - assert (forall b, b ∈ allowed -> ~ carries_all tags b) as Hna.
    { intros b Hb Hc. assert (b ∈ candidates) as H by by apply Hin. rewrite E1 in H. set_solver. }
    destruct (List.find _ excluded) as [b|] eqn:Ee.
    + apply find_some_in in Ee as [Hb Hc%carries_spec]. right. split; [by exists b|done].
    + pose proof (proj1 (find_none _ _) Ee) as Hnone. split_and!; [done..|].
      intros b [Hb|Hb]%elem_of_app; [by apply Hna|by apply (not_carried _ _ Hnone)].
  - destruct (List.find _ candidates) as [b|] eqn:Ed.
    + apply find_some_in in Ed as [[Hb Hc]%Hin [Hd Hu]%andb_true_iff]. split_and!; try done; [by apply Hfrom|]. congruence.
    + pose proof (proj1 (find_none _ _) Ed) as Hnone. destruct (List.find (up w) candidates) as [b|] eqn:Eu.
      * apply find_some_in in Eu as [[Hb Hc]%Hin Hu]. split_and!; try done; [by apply Hfrom|].
        intros _ d Hd Hcd Hdef. assert (d ∈ candidates) as H by by apply Hin. specialize (Hnone d H). cbn in Hnone.
        by rewrite Hdef in Hnone.
      * pose proof (proj1 (find_none _ _) Eu) as Hdown. split.
        -- destruct candidates as [|b rest]; [done|]. exists b. apply Hin. by left.
        -- intros b Hb Hc. apply Hdown. by apply Hin.
Qed.

(** C17: the backend of a launch is one the deployment mode allows and that can
    be reached: the one the launch names, with exactly the tags it lacks, or
    else one that carries every tag of the profile, a default one if such a one
    can be reached; and each refusal is given exactly for its reason: an
    unknown name, a name or tags only an excluded backend has, tags nobody
    carries, or backends that cannot be reached. *)
Theorem backend_choice_justified w requested tags :
  choice_verdict w requested tags (resolveBackend w requested tags).
Proof. destruct (names_backend (TrimSpace requested)) eqn:E; [by apply named_choice|by apply auto_choice]. Qed.

(** * Accepted settings leave a backend *)
Definition known_kind (a : ExecutionAgent) : Prop :=
  normalizeBackendKind (AgentType a) = "local" \/ normalizeBackendKind (AgentType a) = "kubernetes" \/
  normalizeBackendKind (AgentType a) = "remote".
Lemma known_bound w a : Enabled a = true -> known_kind a -> exists b, agent_binding w a = Some b.
Proof.
  intros He Hk. unfold agent_binding, agent_backend. rewrite He. cbn [Kind agent_option].
  destruct Hk as [-> | [-> | ->]]; cbn; by eexists.
Qed.
(** Settings that were accepted never leave a launch without a backend to try,
    if the agents are of the kinds the catalogue knows. *)
Lemma accepted_settings_leave_backend w s : settings w = Some s -> acceptable s ->
  (forall a, a ∈ Agents s -> known_kind a) -> configuredBackends w = allowed_of w s /\ allowed_of w s <> [].
Proof.
  intros Hs [_ _ _ Hm (a & Hin & He & Ha) _ _] Hk.
  assert (mode_of s = Mode s) as Hmode by (unfold mode_of; by destruct Hm as [-> | [-> | ->]]).
  assert (allowed_of w s <> []) as Hne.
  { destruct (known_bound w a He (Hk a Hin)) as [b Hb]. intros E.
    assert (b ∈ allowed_of w s) as H; [|rewrite E in H; set_solver].
    apply bindings_of_in. exists a. by rewrite Hmode. }
  split; [|done]. unfold configuredBackends. rewrite catalog_spec, Hs. cbn [fst]. by rewrite bool_decide_eq_false_2.
Qed.

(** An agent of another kind is accepted as the only one of the remote mode,
    and every launch is refused. *)
Definition nomad_settings : PlatformSettings :=
  normalize (mkSettings "remote"
    [mkAgent "pool" "Pool" "nomad" "" true true "" None None [] [] "" "" "" "" "" "" "" defaultAPISIXSidecar]
    (Registries (DefaultSettings 0)) (Secrets (DefaultSettings 0)) (SMTP (DefaultSettings 0)) [] 0 "").
Definition quiet_world (s : PlatformSettings) : World := mkWorld (Some s) true (fun _ _ => true) None None "" "" 4.
Example unknown_kind_accepted_and_refused :
  validate nomad_settings = None /\
  resolveBackend (quiet_world nomad_settings) "" [] =
    inl (ErrModeExcludesBackend "remote mode leaves no enabled backend to run on") /\
  resolveBackend (quiet_world nomad_settings) "pool" [] = inl ErrBackendNotFound.
Proof. split_and!; by vm_compute. Qed.
Example default_settings_run_locally :
  match resolveBackend (quiet_world (DefaultSettings 0)) "auto" [" Local"] with
  | inr (b, []) => ID (option_of b) = "local-docker"
  | _ => False
  end.
Proof. by vm_compute. Qed.

End BackendChoice.
