(* ===== verification/Launch.v ===== *)
(** Launching executions and looking at them, [src/backend/internal/execution]
    runtime.go, runtime_store.go, runtime_cache.go, stream.go, topology.go,
    remote_workers.go and inventory.go: the guards of a launch, the boot that
    puts the steps into the queue, what is listed and shown to whom, and what a
    restart brings back.

    The state of the flow is that of Flow.v; beside it are the parts of the
    record that never change after the launch and the places of the semaphore.
    The suites, the answers of the backends, the identifiers and the clock are
    arguments. *)
From Stdlib Require Import ZArith Lia Ascii.
From S2P Require Import Prelude GoStrings Topology TopologyOrder Suites Queue NetworkPlan Flow Runner Platform BackendChoice.
Import GoStrings Topology TopologyOrder Flow.

Module Launch.

(** ** Data (types.go) *)
Definition maxConcurrentExecutions : Z := 10.
Record CreateRequest := mkRequest {
  ReqSuiteID : string; ReqProfile : string; ReqBackend : string; ReqWorkspaceID : string }.
Record suiteRuntimeMeta := mkMeta {
  MetaAuthor : string; MetaBranch : string; MetaMessage : string; FailureTarget : string; DefaultTrigger : string }.
(** The parts of [ExecutionRecord] that a launch fixes. *)
Record LaunchRecord := mkLaunch {
  RecordID : string;
  RecordSuiteID : string;
  RecordSuiteTitle : string;
  RecordProfile : string;
  RecordBackendID : string;
  RecordBackend : string;
  RecordTrigger : string;
  RecordAuthor : string;
  RecordCommit : string;
  RecordBranch : string;
  RecordMessage : string;
}.
Record ExecutionSummary := mkSummary { SummaryRecord : LaunchRecord; SummaryStatus : string; SummaryDuration : string;
  SummaryStartedAt : Z }.
Inductive LaunchError :=
  | ErrSuiteNotFound
  | ErrProfileNotFound
  | ErrBackend (reason : BackendChoice.refusal).
Definition ErrExecutionNotFound : goerr := ErrText "execution not found".

(** [sem] is the number of places of the semaphore that are taken; a launch
    record counts as long as its execution is stored. *)
Record Service := mkService { flow : Flow.Service; records : gmap string LaunchRecord; sem : Z }.

(** ** Texts (topology.go) *)
Definition suiteHasProfile (profiles : list Suites.ProfileOption) (fileName : string) : bool :=
  existsb (fun p => bool_decide (Suites.FileName p = fileName)) profiles.
Definition defaultProfile (profiles : list Suites.ProfileOption) : string :=
  match List.find Suites.Default profiles, profiles with
  | Some p, _ => Suites.FileName p
  | None, p :: _ => Suites.FileName p
  | None, [] => ""
  end.
(** [Round] of a duration that is not negative. *)
Definition formatDuration (duration : Z) : string :=
  let totalSeconds := Z.quot (Z.max 0 duration + Z.quot second 2) second in
  two_digits (Z.quot totalSeconds 60) +:+ ":" +:+ two_digits (Z.rem totalSeconds 60).
Definition duration_of (item : executionState) : string :=
  formatDuration (Z.max (UpdatedAt item) (StartedAt item) - StartedAt item).

Section Messages.
(** The text of a log step. *)
Context (Message : TopologyNode -> string).
Definition log_text (node : TopologyNode) : string :=
  let msg := TrimSpace (Message node) in if bool_decide (msg = "") then Name node else msg.
Definition in_brackets (node : TopologyNode) (text : string) : string := "[" +:+ Name node +:+ "] " +:+ text.
Definition buildStartMessage (node : TopologyNode) (title profile : string) : string :=
  in_brackets node
    (if bool_decide (Kind node = "mock") then
       "Loading mock assets from api/ and mock/ for " +:+ title +:+ " under " +:+ profile +:+ "."
     else if bool_decide (Kind node = "service") then
       "Starting background service infrastructure declared in suite.star under the " +:+ profile +:+ " profile."
     else if bool_decide (Kind node = "task") then
       "Executing one-shot task assets from tasks/ before exposing dependent services."
     else if bool_decide (Kind node = "traffic") then
       "Starting the traffic harness from traffic/ with the " +:+ profile +:+
       " profile and collecting throughput thresholds."
     else if bool_decide (Kind node = "test") then
       "Executing verification assets from tests/ with the " +:+ profile +:+ " profile."
     else if bool_decide (Kind node = "log") then log_text node
     else "Starting workload and waiting for health checks from the parsed suite.star topology.").
Definition buildHealthyMessage (node : TopologyNode) (title profile : string) : string :=
  in_brackets node
    (if bool_decide (Kind node = "mock") then
       "Mock surface is healthy. Exchanges from api/ and mock/ are now routable for " +:+ title +:+ "."
     else if bool_decide (Kind node = "service") then
       "Background service is healthy and reachable for downstream steps in the " +:+ profile +:+ " profile."
     else if bool_decide (Kind node = "task") then
       "Task completed successfully. Outputs were registered for the " +:+ profile +:+ " execution context."
     else if bool_decide (Kind node = "traffic") then
       "Traffic phase completed. Threshold budgets and synthetic-user ramps stayed within the " +:+ profile +:+ " profile."
     else if bool_decide (Kind node = "test") then
       "Test phase passed. Contract assertions and payload policies remained green."
     else if bool_decide (Kind node = "log") then log_text node
     else "Health check passed. Service is ready for downstream services, traffic phases, and tests.").
End Messages.

(** ** Looking at executions *)
Definition summaryLocked (record : LaunchRecord) (item : executionState) : ExecutionSummary :=
  mkSummary record (Status item) (duration_of item) (StartedAt item).
(** An execution of the workspace; the empty workspace sees all. *)
Definition seen_from (workspace : string) (item : executionState) : bool :=
  bool_decide (workspace = "") || bool_decide (workspaceID item = workspace).
Definition find_execution (executionID workspace : string) (s : Service) : option executionState :=
  match executions (flow s) !! executionID with
  | Some item => if seen_from workspace item then Some item else None
  | None => None
  end.
Definition GetExecution (executionID workspace : string) (s : Service) : goerr + (executionState * string) :=
  match find_execution executionID workspace s with
  | None => inl ErrExecutionNotFound
  | Some item => inr (item, duration_of item)
  end.
(** The events a subscriber gets at once, and the room of its channel. *)
Definition replayed (executionID : string) (item : executionState) (since : Z) : list StreamEvent :=
  omap id (imap (fun index event =>
    let position := Z.of_nat index + 1 in
    if position <=? since then None
    else Some (mkStreamEvent position executionID (Status item) event)) (Events item)).
Definition bufferSize (item : executionState) (since : Z) : Z :=
  Z.max 32 (Z.of_nat (length (Events item)) - since + 16).
Definition SubscribeEvents (executionID workspace : string) (since : Z) (s : Service)
    : goerr + (list StreamEvent * Z) :=
  match find_execution executionID workspace s with
  | None => inl ErrExecutionNotFound
  | Some item => let since := Z.max 0 since in inr (replayed executionID item since, bufferSize item since)
  end.
(** [SubscribeLogs] and [SnapshotLogs] up to the hub of the logs. *)
Definition logs_of {Logs} (hub : string -> Logs) (executionID workspace : string) (s : Service) : goerr + Logs :=
  match find_execution executionID workspace s with
  | None => inl ErrExecutionNotFound
  | Some _ => inr (hub executionID)
  end.

(** [snapshotExecution], the counts of the statuses. *)
Record StepSnapshot := mkStepSnapshot { StepID : string; StepName : string; StepKind : string; StepStatus : string;
  StepDependsOn : list string; StepLevel : Z }.
Record Snapshot := mkSnapshot { SnapshotStatus : string; TotalSteps : Z; RunningSteps : Z; HealthySteps : Z;
  FailedSteps : Z; SkippedSteps : Z; PendingSteps : Z; Steps : list StepSnapshot }.
Definition count_status (p : string -> bool) (steps : list StepSnapshot) : Z :=
  Z.of_nat (length (List.filter (fun st => p (StepStatus st)) steps)).
Definition counted_status (status : string) : bool :=
  bool_decide (status ∈ [stepStatusRunning; stepStatusHealthy; stepStatusFailed; stepStatusSkipped]).
Definition is_status (status st : string) : bool := bool_decide (st = status).
Definition take_snapshot (item : executionState) : Snapshot :=
  let item := ensureStepStatusLocked item in
  let steps := (fun node => mkStepSnapshot (ID node) (Name node) (Kind node) (status_of item (ID node))
                              (DependsOn node) (Level node)) <$> Nodes item in
  mkSnapshot (Status item) (Z.of_nat (length steps)) (count_status (is_status stepStatusRunning) steps)
    (count_status (is_status stepStatusHealthy) steps) (count_status (is_status stepStatusFailed) steps)
    (count_status (is_status stepStatusSkipped) steps) (count_status (fun st => negb (counted_status st)) steps) steps.
Definition set_flow (f : Flow.Service) (s : Service) : Service := mkService f (records s) (sem s).
Definition snapshotExecution (executionID : string) (s : Service) : Service * option Snapshot :=
  (set_flow (ensure executionID (flow s)) s, take_snapshot <$> executions (flow s) !! executionID).

(** [RunOwned]: is this process running the execution, or has it just been? *)
Definition runOwnedGrace : Z := 2 * minute.
Definition RunOwned (now : Z) (executionID : string) (s : Service) : bool :=
  match executions (flow s) !! executionID with
  | None => false
  | Some item =>
      hasBackend item && (if ended item then now - UpdatedAt item <? runOwnedGrace else true)
  end.

(** ** A launch

    The suites as their source finds them, each with the steps it was read
    with; the tags of a profile; the catalogue of backends; and what is known
    of a suite. *)
Record Source := mkSource {
  Get : string -> option (Suites.SuiteDefinition * list TopologyNode);
  Resolve : string -> option (Suites.SuiteDefinition * list TopologyNode);
  agent_tags : string -> string -> list string;
  suiteMeta : string -> suiteRuntimeMeta;
  buildCommitHash : string -> string -> string;
}.
Definition set_sem (n : Z) (s : Service) : Service := mkService (flow s) (records s) n.
(** The send that does not block, and the receive that gives the place back. *)
Definition acquire (s : Service) : option Service :=
  if sem s <? maxConcurrentExecutions then Some (set_sem (sem s + 1) s) else None.
Definition release (s : Service) : Service := set_sem (sem s - 1) s.

(** What is decided before anything is stored. *)
Record decision := mkDecision {
  launched : Suites.SuiteDefinition; steps_read : list TopologyNode; chosen_profile : string;
  selected : BackendChoice.backendBinding; missing_tags : list string }.
Definition decide_launch (src : Source) (w : BackendChoice.World) (request : CreateRequest) : LaunchError + decision :=
  let suiteID := TrimSpace (ReqSuiteID request) in
  match (match Get src suiteID with Some found => Some found | None => Resolve src suiteID end) with
  | None => inl ErrSuiteNotFound
  | Some (suite, nodes) =>
      let profile := TrimSpace (ReqProfile request) in
      let profile := if bool_decide (profile = "") then defaultProfile (Suites.Profiles suite) else profile in
      if negb (bool_decide (profile = "")) && negb (suiteHasProfile (Suites.Profiles suite) profile)
      then inl ErrProfileNotFound
      else match BackendChoice.resolveBackend w (ReqBackend request) (agent_tags src (Suites.SuiteID suite) profile) with
      | inl reason => inl (ErrBackend reason)
      | inr (b, missing) => inr (mkDecision suite nodes profile b missing)
      end
  end.
Definition launch_record (src : Source) (executionID : string) (d : decision) : LaunchRecord :=
  let suite := launched d in
  let meta := suiteMeta src (Suites.SuiteID suite) in
  let o := BackendChoice.option_of (selected d) in
  mkLaunch executionID (Suites.SuiteID suite) (Suites.Title suite) (chosen_profile d) (BackendChoice.ID o)
    (BackendChoice.Label o) (FirstNonEmpty [DefaultTrigger meta; "Manual"]) (MetaAuthor meta)
    (buildCommitHash src (Suites.SuiteID suite) executionID) (MetaBranch meta) (MetaMessage meta).
Definition tags_missing_event (executionID : string) (d : decision) (now : Z) (s : Flow.Service) : ExecutionEvent :=
  mkEvent "agent-tags-missing" "boot" (nextTimestamp s executionID now)
    ("Backend " +:+ BackendChoice.Label (BackendChoice.option_of (selected d)) +:+
     " was chosen explicitly but lacks the agent tags the " +:+ chosen_profile d +:+ " profile asks for: " +:+
     Join (missing_tags d) ", " +:+ ".") "" "warn".
(** The critical section, and the event of missing tags after it. *)
Definition store_launch (src : Source) (now : Z) (executionID workspace : string) (d : decision) (s : Service)
    : Service * list effect :=
  let f := store_execution executionID (new_execution now (steps_read d) workspace) (flow s) in
  let '(f, effects) :=
    if bool_decide (missing_tags d = []) then (f, [])
    else appendEvent now executionID (tags_missing_event executionID d now f) f in
  (mkService f (<[executionID := launch_record src executionID d]> (records s)) (sem s), SchedulePersist :: effects).

(** [CreateExecution] with no other request in between; its boot follows. *)
Definition CreateExecution (src : Source) (w : BackendChoice.World) (now : Z) (executionID : string)
    (request : CreateRequest) (s : Service) : (LaunchError + ExecutionSummary) * Service * list effect :=
  match acquire s with
  | None => (inl (ErrBackend BackendChoice.ErrBackendUnavailable), s, [])
  | Some s =>
      match decide_launch src w request with
      | inl reason => (inl reason, release s, [])
      | inr d =>
          let '(s, effects) := store_launch src now executionID (ReqWorkspaceID request) d s in
          let item := default (new_execution now (steps_read d) (ReqWorkspaceID request))
                        (executions (flow s) !! executionID) in
          (inr (summaryLocked (launch_record src executionID d) item), s, effects ++ [SyncObservers executionID])
      end
  end.

(** ** The boot *)

(** What the other components answer: the resolved steps, the overlay of the
    profile, the backend's own setup, and the sidecar. *)
Record answers := mkAnswers {
  resolved : string + list TopologyNode;
  overlay : option string;
  setup : option string;
  sidecar : option string;
}.
Inductive boot_end :=
  | BootFailed
  | BootGone
  | BootStarted.
Definition contested_event (executionID : string) (names : list string) (now : Z) (s : Flow.Service) : ExecutionEvent :=
  mkEvent "contested-service-names" "boot" (nextTimestamp s executionID now)
    ("More than one composed suite declares " +:+ Join names ", " +:+
     ". This suite keeps the bare name; an imported suite's service answers to " +:+
     "<suite>-<service> instead. Point a dependency at its own with inputs: in dependencies.yaml.") "" "info".
Definition forget (executionID : string) (s : Flow.Service) : Flow.Service :=
  Flow.mkService (delete executionID (executions s)) (filterOut (order s) executionID).

Section Boot.
Context (now : Z) (executionID suiteID pool : string) (capacity : option handle)
  (run onCanceled : string -> handle).

(** [failBootedExecution] and the finish it ends with: the group of the
    execution leaves the queue and its backend is released. *)
Definition boot_failed (reason : string) (s : Flow.Service) (q : Queue.Memory)
    : Flow.Service * Queue.Memory * list effect :=
  let '(s, effects) := failBootedExecution now executionID (Some reason) s in
  let '(s, _) := destroyExecutionBackend executionID s in
  (s, Queue.PruneGroup executionID q, effects).

Definition bootExecution (a : answers) (s : Flow.Service) (q : Queue.Memory)
    : Flow.Service * Queue.Memory * list effect * boot_end :=
  match resolved a with
  | inl reason => (boot_failed reason s q, BootFailed)
  | inr nodes =>
      match overlay a with
      | Some reason => (boot_failed reason s q, BootFailed)
      | None =>
          match executions s !! executionID with
          | None => (s, q, [], BootGone)
          | Some item =>
              let s := Flow.put executionID (boot_state nodes item) s in
              let names := NetworkPlan.contestedNames (NetworkPlan.buildNetworkPlan nodes suiteID) in
              let '(s, noted) :=
                if bool_decide (names = []) then (s, [])
                else appendEvent now executionID (contested_event executionID names now s) s in
              match setup a, sidecar a with
              | Some reason, _ =>
                  let '(s, q, effects) := boot_failed ("backend setup: " +:+ reason) s q in
                  (s, q, noted ++ effects, BootFailed)
              | None, Some reason =>
                  let '(s, q, effects) := boot_failed ("APISIX sidecar failed to start: " +:+ reason) s q in
                  (s, q, noted ++ effects, BootFailed)
              | None, None =>
                  match Queue.Enqueue (boot_tasks executionID pool capacity run onCanceled nodes) q with
                  | (q, Some err) =>
                      let '(s, q, effects) := boot_failed (Runner.Error err) s q in
                      (forget executionID s, q, noted ++ effects, BootFailed)
                  | (q, None) => (s, q, noted ++ [SyncObservers executionID], BootStarted)
                  end
              end
          end
      end
  end.
End Boot.

(** ** Reports of remote agents (remote_workers.go) *)
Definition ReleaseKind : string := "release".
Definition assignment_text (name state message : string) : string :=
  if blank message then
    "[" +:+ name +:+ "] Remote worker " +:+
    (if bool_decide (state = "claimed") then "claimed the step and started preparing the runtime."
     else if bool_decide (state = "running") then "started executing the assigned step."
     else if bool_decide (state = "canceled") then "acknowledged the cancel request."
     else "reported state " +:+ state +:+ ".")
  else message.
Definition AssignmentState (now : Z) (executionID nodeID name kind state message : string) (s : Flow.Service)
    : Flow.Service * list effect :=
  if bool_decide (kind = ReleaseKind) then (s, [])
  else appendEvent now executionID
    (mkEvent (nodeID +:+ "-" +:+ state) nodeID (nextTimestamp s executionID now) (assignment_text name state message)
       stepStatusRunning (if bool_decide (state = "canceled") then "warn" else "info")) s.

(** ** Persistence (runtime_store.go, runtime_cache.go) *)
Record PersistedExecution := mkPersisted {
  SavedRecord : LaunchRecord; SavedStatus : string; SavedStartedAt : Z; SavedUpdatedAt : Z;
  SavedEvents : list ExecutionEvent; SavedNodes : list TopologyNode; SavedTotal : Z; SavedCompleted : Z }.
Definition persisted (record : LaunchRecord) (item : executionState) : PersistedExecution :=
  mkPersisted record (Status item) (StartedAt item) (UpdatedAt item) (Events item) (Nodes item) (total item)
    (completed item).
Definition saved (s : Service) (ids : list string) : list PersistedExecution :=
  omap (fun id => match executions (flow s) !! id, records s !! id with
                  | Some item, Some record => Some (persisted record item)
                  | _, _ => None
                  end) ids.
(** What goes to the store, and what goes to the cache, in the order [ids] the
    map is traversed in. *)
Definition persistExecutionStore (ids : list string) (s : Service) : list PersistedExecution := saved s ids.
Definition persistExecutionCache (ids : list string) (s : Service) : list PersistedExecution :=
  List.filter (fun p => negb (bool_decide (SavedStatus p = "Healthy" \/ SavedStatus p = "Failed"))) (saved s ids).

Definition restored (p : PersistedExecution) : executionState :=
  let '(statuses, done) := buildStepStatus (SavedNodes p) (SavedEvents p) in
  mkState (SavedStatus p) (SavedStartedAt p) (SavedUpdatedAt p) (SavedEvents p) (SavedNodes p) ""
    (if SavedTotal p =? 0 then Z.of_nat (length (SavedNodes p)) else SavedTotal p)
    (if (done =? 0) && (0 <? SavedCompleted p) then SavedCompleted p else done) statuses None false false.
Definition restore_one (s : Service) (p : PersistedExecution) : Service :=
  let id := RecordID (SavedRecord p) in
  mkService (Flow.mkService (<[id := restored p]> (executions (flow s))) (order (flow s) ++ [id]))
    (<[id := SavedRecord p]> (records s)) (sem s).
Definition unnamed_record (p : PersistedExecution) : bool := bool_decide (RecordID (SavedRecord p) = "").
(** [sorted] is the store's list in order of its start times. *)
Definition restorePersistedExecutions (sorted : list PersistedExecution) (s : Service) : Service :=
  if bool_decide (sorted = []) then s
  else foldl restore_one (mkService (Flow.mkService ∅ []) ∅ (sem s))
         (List.filter (fun p => negb (unnamed_record p)) sorted).
Definition restoreActiveExecutions (cached : list PersistedExecution) (s : Service) : Service :=
  foldl (fun s p => if unnamed_record p then s
                    else match executions (flow s) !! RecordID (SavedRecord p) with
                         | Some _ => s
                         | None => restore_one s p
                         end) s cached.

(** * What the steps of the flow leave alone *)

(** The same executions, in the same order, of the same workspaces. *)
Definition same_shape (f f' : Flow.Service) : Prop :=
  order f' = order f /\ forall id, workspaceID <$> executions f' !! id = workspaceID <$> executions f !! id.
#[export] Instance same_shape_preorder : PreOrder same_shape.
Proof.
  split; [done|]. intros f g h [Ho Hw] [Ho' Hw']. split; [congruence|]. intros id. by rewrite Hw', Hw.
Qed.
Lemma same_put id item item' f : executions f !! id = Some item -> workspaceID item' = workspaceID item ->
  same_shape f (Flow.put id item' f).
Proof.
  intros Hl Hw. split; [done|]. intros id'. cbn [executions Flow.put]. destruct (decide (id = id')) as [<-|Hne].
  - rewrite lookup_insert_eq, Hl. cbn. by rewrite Hw.
  - by rewrite lookup_insert_ne.
Qed.
Lemma ensure_workspace item : workspaceID (ensureStepStatusLocked item) = workspaceID item.
Proof.
  unfold ensureStepStatusLocked. destruct (negb _); [done|]. by destruct (buildStepStatus _ _).
Qed.
Lemma ensure_status item : Status (ensureStepStatusLocked item) = Status item.
Proof.
  unfold ensureStepStatusLocked. destruct (negb _); [done|]. by destruct (buildStepStatus _ _).
Qed.
Lemma same_ensure id f : same_shape f (ensure id f).
Proof.
  unfold ensure. destruct (executions f !! id) as [item|] eqn:E; [|done].
  eapply same_put; [done|]. apply ensure_workspace.
Qed.
Lemma same_append now id event f : same_shape f (appendEvent now id event f).1.
Proof.
  unfold appendEvent. destruct (executions f !! id) as [item|] eqn:E; [|done]. cbn [fst].
  eapply same_put; [done|]. rewrite <- (ensure_workspace item). cbn [workspaceID add_event].
  destruct (negb _ && _); [|done]. by destruct (stepStatus _ !! _).
Qed.
Lemma same_mark now id nodeID status message level hard f :
  same_shape f (markNodeTerminal now id nodeID status message level hard f).1.1.
Proof.
  unfold markNodeTerminal. destruct (executions f !! id) as [item|] eqn:E; [|done]. cbn zeta.
  destruct (isTerminalStepStatus _); cbn [fst]; (eapply same_put; [done|]); [apply ensure_workspace|].
  rewrite <- (ensure_workspace item). cbn [workspaceID add_event]. destruct (_ && negb _); by destruct hard.
Qed.
Lemma same_destroy id f : same_shape f (destroyExecutionBackend id f).1.
Proof.
  unfold destroyExecutionBackend. destruct (executions f !! id) as [item|] eqn:E; [|done].
  destruct (released item); [done|]. by eapply same_put.
Qed.
Lemma same_fail now id reason f : same_shape f (failBootedExecution now id reason f).1.
Proof.
  unfold failBootedExecution. set (g := match executions f !! id with Some _ => _ | None => f end).
  assert (same_shape f g) as Hg.
  { unfold g. destruct (executions f !! id) as [item|] eqn:E; [|done]. by eapply same_put. }
  destruct reason as [text|]; [|done]. etransitivity; [exact Hg|]. apply same_append.
Qed.
Lemma same_boot_failed now id reason f q : same_shape f (boot_failed now id reason f q).1.1.
Proof.
  unfold boot_failed. pose proof (same_fail now id (Some reason) f) as H1.
  destruct (failBootedExecution now id (Some reason) f) as [f1 effects]. pose proof (same_destroy id f1) as H2.
  destruct (destroyExecutionBackend id f1) as [f2 r]. cbn in *. by etransitivity.
Qed.

(** A boot leaves the executions as they are, or takes its own away. *)
Lemma boot_shape now id suiteID pool capacity run onCanceled a f q :
  exists g, same_shape f g /\
    let f' := (bootExecution now id suiteID pool capacity run onCanceled a f q).1.1.1 in f' = g \/ f' = forget id g.
Proof.
  unfold bootExecution. destruct (resolved a) as [reason|nodes].
  { pose proof (same_boot_failed now id reason f q) as H. destruct (boot_failed now id reason f q) as [[g q'] e]. by eauto. }
  destruct (overlay a) as [reason|].
  { pose proof (same_boot_failed now id reason f q) as H. destruct (boot_failed now id reason f q) as [[g q'] e]. by eauto. }
  destruct (executions f !! id) as [item|] eqn:E; [|exists f; split; [done|by left]].
  assert (same_shape f (Flow.put id (boot_state nodes item) f)) as H0 by by eapply same_put.
  set (names := NetworkPlan.contestedNames _). set (f0 := Flow.put id (boot_state nodes item) f) in *.
  assert (exists f1 noted, (if bool_decide (names = []) then (f0, [])
    else appendEvent now id (contested_event id names now f0) f0) = (f1, noted) /\ same_shape f f1) as (f1 & noted & -> & H1).
  { destruct (bool_decide (names = [])); [by eauto|]. pose proof (same_append now id (contested_event id names now f0) f0).
    destruct (appendEvent _ _ _ f0) as [f1 noted]. exists f1, noted. split; [done|]. by etransitivity. }
  destruct (setup a) as [reason|]; [|destruct (sidecar a) as [reason|]].
  - pose proof (same_boot_failed now id ("backend setup: " +:+ reason) f1 q) as H.
    destruct (boot_failed _ _ _ f1 q) as [[g q'] e]. exists g. split; [by etransitivity|by left].
  - pose proof (same_boot_failed now id ("APISIX sidecar failed to start: " +:+ reason) f1 q) as H.
    destruct (boot_failed _ _ _ f1 q) as [[g q'] e]. exists g. split; [by etransitivity|by left].
  - destruct (Queue.Enqueue _ q) as [q' [err|]]; [|exists f1; split; [done|by left]].
    pose proof (same_boot_failed now id (Runner.Error err) f1 q') as H.
    destruct (boot_failed _ _ _ f1 q') as [[g q''] e]. exists g. split; [by etransitivity|by right].
Qed.

(** * Eviction *)

(** The list has every stored execution once, and no other. *)
Definition listed (f : Flow.Service) : Prop := NoDup (order f) /\ forall id, id ∈ order f <-> is_Some (executions f !! id).
Lemma same_listed f f' : same_shape f f' -> listed f -> listed f'.
Proof.
  intros [Ho Hw] [Hn Hl]. split; [by rewrite Ho|]. intros id. rewrite Ho, Hl, <- !(fmap_is_Some workspaceID).
  by rewrite Hw.
Qed.
Lemma forget_listed id f : listed f -> listed (forget id f).
Proof.
  intros [Hn Hl]. unfold forget, filterOut. split; cbn [order executions]; [by apply NoDup_filter|].
  intros id'. rewrite list_elem_of_filter, Hl, lookup_delete_is_Some. naive_solver.
Qed.

(** Eviction drops the oldest executions, which have ended, until the list is
    short enough or its oldest one has not ended. *)
Definition evicted (dropped : list string) (f f' : Flow.Service) : Prop :=
  order f = dropped ++ order f' /\
  (forall id, executions f' !! id = if bool_decide (id ∈ dropped) then None else executions f !! id) /\
  forall id, id ∈ dropped -> exists item, executions f !! id = Some item /\ ended item = true.
Definition settled (f : Flow.Service) : Prop :=
  (length (order f) <= maxStoredExecutions)%nat \/
  exists oldest rest, order f = oldest :: rest /\ forall item, executions f !! oldest = Some item -> ended item = false.
Lemma foldr_delete_lookup {A} (m : gmap string A) l id :
  foldr delete m l !! id = if bool_decide (id ∈ l) then None else m !! id.
Proof.
  induction l as [|x l IH]; [done|]. cbn [foldr]. destruct (decide (id = x)) as [->|Hne].
  - rewrite lookup_delete_eq, bool_decide_eq_true_2; [done|left].
  - rewrite lookup_delete_ne, IH by done. by repeat case_bool_decide; set_solver.
Qed.
Lemma eviction_spec order executions :
  exists dropped, let f' := evictOldExecutionsLocked (Flow.mkService executions order) in
    evicted dropped (Flow.mkService executions order) f' /\ settled f'.
Proof.
  unfold evictOldExecutionsLocked. cbn [Flow.order Flow.executions]. pose proof (evict_spec order executions) as H.
  destruct (evict order executions) as [o m]. destruct H as (dropped & Ho & Hd & -> & Hs). exists dropped.
  split; [|done]. split_and!; [done| |done]. intros id. apply foldr_delete_lookup.
Qed.

Lemma store_spec id item f : listed f -> executions f !! id = None -> ended item = false ->
  exists dropped,
    let f0 := Flow.mkService (<[id := item]> (executions f)) (order f ++ [id]) in
    let f' := store_execution id item f in
    evicted dropped f0 f' /\ settled f' /\ id ∉ dropped /\ executions f' !! id = Some item /\ last (order f') = Some id /\
    listed f'.
Proof.
  intros [Hn Hl] Hnew He. set (f0 := Flow.mkService _ _). unfold store_execution, evictOldExecutionsLocked. fold f0.
  assert (id ∉ order f) as Hid by (rewrite Hl, Hnew; by intros []).
  assert (NoDup (order f0)) as Hn0.
  { cbn. apply NoDup_app. split_and!; [done|set_solver|apply NoDup_singleton]. }
  assert (forall i, i ∈ order f0 <-> is_Some (executions f0 !! i)) as Hl0.
  { intros i. cbn. rewrite elem_of_app, list_elem_of_singleton, lookup_insert_is_Some, Hl.
    destruct (decide (id = i)); naive_solver. }
  destruct (eviction_spec (order f0) (executions f0)) as (dropped & Hev & Hs).
  change (Flow.mkService (executions f0) (order f0)) with f0 in *.
  unfold evictOldExecutionsLocked in *. destruct (evict (order f0) (executions f0)) as [o' m'].
  pose proof Hev as (Ho & Hx & Hd). cbn [order executions] in Ho, Hx, Hd.
  assert (id ∉ dropped) as Hkept.
  { intros Hc. destruct (Hd _ Hc) as (item' & Hi & He'). cbn in Hi. rewrite lookup_insert_eq in Hi. congruence. }
  assert (o' <> []) as Hne.
  { intros ->. rewrite app_nil_r in Ho. apply Hkept. rewrite <- Ho. cbn. set_solver. }
  exists dropped. cbn zeta. split_and!; try done.
  - cbn. rewrite Hx, bool_decide_eq_false_2 by done. cbn. by rewrite lookup_insert_eq.
  - cbn. assert (last (order f0) = Some id) as Hlast by (cbn; by rewrite last_snoc).
    rewrite Ho, last_app in Hlast. destruct (last o') as [x|] eqn:Ex; [done|]. by apply last_None in Ex.
  - split; [cbn; rewrite Ho in Hn0; by apply NoDup_app in Hn0 as (_ & _ & ?)|]. intros i. cbn. rewrite Hx. assert (i ∈ order f0 <-> i ∈ dropped \/ i ∈ o') as Hi by (rewrite Ho; apply elem_of_app).
    rewrite Ho in Hn0. apply NoDup_app in Hn0 as (_ & Hdis & _). specialize (Hdis i).
    case_bool_decide; [split; [naive_solver|by intros []]|]. rewrite <- Hl0. naive_solver.
Qed.

(** * Launches, boots, steps and readers, interleaved *)

(** [asking] requests hold a place and have stored nothing yet, the executions
    of [booting] hold one until their boot is over; [owner] remembers the
    workspace each execution was launched from. *)
Record system := mkSystem {
  svc : Service;
  queue : Queue.Memory;
  asking : nat;
  booting : gset string;
  owner : gmap string string;
}.
Definition with_flow (f : Flow.Service) (s : system) : system :=
  mkSystem (set_flow f (svc s)) (queue s) (asking s) (booting s) (owner s).

Inductive launch_step (s : system) : system -> Prop :=
  | ask s' : acquire (svc s) = Some s' -> launch_step s (mkSystem s' (queue s) (S (asking s)) (booting s) (owner s))
  | refuse src w request reason n :
      asking s = S n -> decide_launch src w request = inl reason ->
      launch_step s (mkSystem (release (svc s)) (queue s) n (booting s) (owner s))
  | accept src w now id request d n :
      asking s = S n -> decide_launch src w request = inr d ->
      executions (flow (svc s)) !! id = None -> id ∉ booting s ->
      launch_step s (mkSystem (store_launch src now id (ReqWorkspaceID request) d (svc s)).1 (queue s) n
        ({[id]} ∪ booting s) (<[id := ReqWorkspaceID request]> (owner s)))
  | boot now id suiteID pool capacity run onCanceled a :
      id ∈ booting s ->
      let res := bootExecution now id suiteID pool capacity run onCanceled a (flow (svc s)) (queue s) in
      launch_step s (mkSystem (set_flow res.1.1.1 (svc s)) res.1.1.2 (asking s) (booting s) (owner s))
  | boot_over id :
      id ∈ booting s ->
      launch_step s (mkSystem (release (svc s)) (queue s) (asking s) (booting s ∖ {[id]}) (owner s))
  | mark now id nodeID status message level hard :
      launch_step s (with_flow (markNodeTerminal now id nodeID status message level hard (flow (svc s))).1.1 s)
  | note now id event : launch_step s (with_flow (appendEvent now id event (flow (svc s))).1 s)
  | look id : launch_step s (with_flow (ensure id (flow (svc s))) s)
  | free id : launch_step s (with_flow (destroyExecutionBackend id (flow (svc s))).1 s)
  | dispatch q : launch_step s (mkSystem (svc s) q (asking s) (booting s) (owner s)).

(** A process that has just started, with what it restored. *)
Definition started (s : system) : Prop :=
  sem (svc s) = 0 /\ asking s = O /\ booting s = ∅ /\ listed (flow (svc s)) /\
  forall id item, executions (flow (svc s)) !! id = Some item -> owner s !! id = Some (workspaceID item).
Definition reachable (s : system) : Prop := exists s0, started s0 /\ rtc launch_step s0 s.

Record Inv (s : system) : Prop := {
  inv_sem : sem (svc s) = Z.of_nat (asking s) + Z.of_nat (size (booting s));
  inv_max : sem (svc s) <= maxConcurrentExecutions;
  inv_listed : listed (flow (svc s));
  inv_owner : forall id item, executions (flow (svc s)) !! id = Some item -> owner s !! id = Some (workspaceID item);
}.

Lemma same_owner f f' (owner : gmap string string) : same_shape f f' ->
  (forall id item, executions f !! id = Some item -> owner !! id = Some (workspaceID item)) ->
  forall id item, executions f' !! id = Some item -> owner !! id = Some (workspaceID item).
Proof.
  intros [_ Hw] H id item Hi. specialize (Hw id). rewrite Hi in Hw. cbn in Hw.
  destruct (executions f !! id) as [item0|] eqn:E; [|done]. cbn in Hw. rewrite (H _ _ E). congruence.
Qed.
Lemma Inv_flow s f : same_shape (flow (svc s)) f -> Inv s -> Inv (with_flow f s).
Proof.
  intros Hf [H1 H2 H3 H4]. split; [done|done|by eapply same_listed|by eapply same_owner].
Qed.
Lemma Inv_forget s f id : same_shape (flow (svc s)) f -> Inv s -> Inv (with_flow (forget id f) s).
Proof.
  intros Hf [H1 H2 H3 H4]. split; [done|done|by eapply forget_listed, same_listed|].
  intros id' item. cbn. intros [_ Hi]%lookup_delete_Some. by eapply (same_owner (flow (svc s)) f).
Qed.
Lemma store_launch_flow src now id workspace d s : exists f effects,
  same_shape (store_execution id (new_execution now (steps_read d) workspace) (flow s)) f /\
  store_launch src now id workspace d s =
    (mkService f (<[id := launch_record src id d]> (records s)) (sem s), SchedulePersist :: effects).
Proof.
  unfold store_launch. set (f0 := store_execution _ _ _). destruct (bool_decide (missing_tags d = [])); [by exists f0, []|].
  pose proof (same_append now id (tags_missing_event id d now f0) f0) as H. destruct (appendEvent _ _ _ f0) as [f e].
  by exists f, e.
Qed.
Lemma Inv_accept s src now id workspace d n : asking s = S n -> executions (flow (svc s)) !! id = None ->
  id ∉ booting s -> Inv s ->
  Inv (mkSystem (store_launch src now id workspace d (svc s)).1 (queue s) n ({[id]} ∪ booting s)
         (<[id := workspace]> (owner s))).
Proof.
  intros Hn Hnew Hb [H1 H2 H3 H4]. set (item := new_execution now (steps_read d) workspace).
  destruct (store_launch_flow src now id workspace d (svc s)) as (f & e & Hf & ->).
  destruct (store_spec id item (flow (svc s)) H3 Hnew eq_refl) as (dropped & (_ & Hx & _) & _ & _ & _ & _ & Hl).
  split; cbn [svc flow sem asking booting owner fst].
  - rewrite H1, Hn, size_union, size_singleton by set_solver. lia.
  - done.
  - by eapply same_listed.
  - eapply same_owner; [exact Hf|]. intros id' item'. rewrite Hx. case_bool_decide; [done|]. cbn [executions].
    intros [[<- <-]|[Hne Hi]]%lookup_insert_Some; [by rewrite lookup_insert_eq|].
    rewrite lookup_insert_ne by done. by apply H4.
Qed.
Lemma accounted_step s s' : Inv s -> launch_step s s' -> Inv s'.
Proof.
  intros HI Hstep. pose proof HI as [H1 H2 H3 H4]. destruct Hstep.
  - unfold acquire in H. destruct (Z.ltb_spec (sem (svc s)) maxConcurrentExecutions); [|done].
    injection H as <-. split; cbn; [lia|lia|done|done].
  - split; cbn; [lia|lia|done|done].
  - by apply Inv_accept.
  - destruct (boot_shape now id suiteID pool capacity run onCanceled a (flow (svc s)) (queue s)) as (g & Hg & Hf).
    cbn zeta in Hf. unfold res. destruct Hf as [-> | ->].
    + by destruct (Inv_flow s g Hg HI).
    + by destruct (Inv_forget s g id Hg HI).
  - assert (size (booting s ∖ {[id]}) = (size (booting s) - 1)%nat) as Hs.
    { rewrite size_difference by set_solver. by rewrite size_singleton. }
    assert (size (booting s) <> 0%nat) by (intros E%size_empty_inv; set_solver).
    split; cbn; [rewrite Hs; lia|lia|done|done].
  - by apply Inv_flow; [apply same_mark|].
  - by apply Inv_flow; [apply same_append|].
  - by apply Inv_flow; [apply same_ensure|].
  - by apply Inv_flow; [apply same_destroy|].
  - by split.
Qed.
Lemma accounted_reachable s : reachable s -> Inv s.
Proof.
  intros (s0 & (Hs & Ha & Hb & Hl & Ho) & Hrtc).
  assert (Inv s0) as H0.
  { split; [rewrite Hs, Ha, Hb, size_empty; lia|rewrite Hs; unfold maxConcurrentExecutions; lia|done|done]. }
  clear -Hrtc H0. induction Hrtc; [done|]. by eauto using accounted_step.
Qed.

(** C6: over every interleaving of requests, boots, steps and readers, the
    places of the semaphore are exactly the requests being decided and the
    boots under way, at most ten; the list has every stored execution exactly
    once; and a session of a workspace is shown an execution, its events, its
    logs or its place in the list only when it was launched from that
    workspace. *)
Theorem launches_accounted (s : system) (H : reachable s) :
  (sem (svc s) = Z.of_nat (asking s) + Z.of_nat (size (booting s)) /\ sem (svc s) <= maxConcurrentExecutions) /\
  (NoDup (order (flow (svc s))) /\ forall id, id ∈ order (flow (svc s)) <-> is_Some (executions (flow (svc s)) !! id)) /\
  forall id workspace, workspace <> "" ->
    (exists shown, GetExecution id workspace (svc s) = inr shown) \/
    (exists since shown, SubscribeEvents id workspace since (svc s) = inr shown) \/
    (exists Logs (hub : string -> Logs) shown, logs_of hub id workspace (svc s) = inr shown) \/
    id ∈ visible (flow (svc s)) workspace -> owner s !! id = Some workspace.
Proof.
  destruct (accounted_reachable s H) as [H1 H2 H3 H4]. split_and!; [done|done|apply H3|apply H3|].
  intros id workspace Hne Hshown.
  assert (exists item, executions (flow (svc s)) !! id = Some item /\ workspaceID item = workspace) as (item & Hi & <-);
    [|by apply H4].
  unfold GetExecution, SubscribeEvents, logs_of, find_execution, seen_from in Hshown.
  destruct (executions (flow (svc s)) !! id) as [item|] eqn:E.
  - exists item. split; [done|]. rewrite (bool_decide_eq_false_2 (workspace = "")) in Hshown by done. cbn [orb] in Hshown.
    destruct (decide (workspaceID item = workspace)) as [|Hw]; [done|exfalso].
    rewrite bool_decide_eq_false_2 in Hshown by done.
    destruct Hshown as [[? ?]|[(? & ? & ?)|[(? & ? & ? & ?)|Hv]]]; [done..|].
    unfold visible in Hv. apply list_elem_of_filter in Hv as [Hv _]. rewrite E in Hv. bool_to_prop. by destruct Hv.
  - exfalso. destruct Hshown as [[? ?]|[(? & ? & ?)|[(? & ? & ? & ?)|Hv]]]; [done..|].
    unfold visible in Hv. apply list_elem_of_filter in Hv as [Hv _]. by rewrite E in Hv.
Qed.

(** * What one launch does *)

(** What was stored before is there unless it was dropped, which only
    executions that have ended are. *)
Definition others_kept (id : string) (f f' : Flow.Service) : Prop :=
  forall other item, other <> id -> executions f !! other = Some item ->
    executions f' !! other = Some item \/ executions f' !! other = None /\ ended item = true.
(** What is decided of a request. *)
Definition found (src : Source) (request : CreateRequest) (suite : Suites.SuiteDefinition) (nodes : list TopologyNode)
    : Prop :=
  let id := TrimSpace (ReqSuiteID request) in
  Get src id = Some (suite, nodes) \/ Get src id = None /\ Resolve src id = Some (suite, nodes).
(** The profile asked for, or the default one of the suite when none is; a
    suite without profiles has none. *)
Definition profile_of (request : CreateRequest) (suite : Suites.SuiteDefinition) (profile : string) : Prop :=
  let asked := TrimSpace (ReqProfile request) in
  asked <> "" /\ profile = asked \/
  asked = "" /\ profile = defaultProfile (Suites.Profiles suite).
Definition decided (src : Source) (w : BackendChoice.World) (request : CreateRequest) (d : LaunchError + decision) : Prop :=
  match d with
  | inl ErrSuiteNotFound => forall suite nodes, ~ found src request suite nodes
  | inl ErrProfileNotFound => exists suite nodes, found src request suite nodes /\ TrimSpace (ReqProfile request) <> "" /\
      TrimSpace (ReqProfile request) ∉ (Suites.FileName <$> Suites.Profiles suite)
  | inl (ErrBackend reason) => exists suite nodes profile, found src request suite nodes /\ profile_of request suite profile /\
      BackendChoice.resolveBackend w (ReqBackend request) (agent_tags src (Suites.SuiteID suite) profile) = inl reason
  | inr d => found src request (launched d) (steps_read d) /\ profile_of request (launched d) (chosen_profile d) /\
      (chosen_profile d = "" \/ chosen_profile d ∈ (Suites.FileName <$> Suites.Profiles (launched d))) /\
      BackendChoice.resolveBackend w (ReqBackend request)
        (agent_tags src (Suites.SuiteID (launched d)) (chosen_profile d)) = inr (selected d, missing_tags d)
  end.
Lemma has_profile profiles fileName : suiteHasProfile profiles fileName = true <-> fileName ∈ (Suites.FileName <$> profiles).
Proof.
  unfold suiteHasProfile. rewrite Platform.existsb_true, list_elem_of_fmap. setoid_rewrite bool_decide_eq_true. naive_solver.
Qed.
Lemma default_belongs profiles : defaultProfile profiles = "" \/ defaultProfile profiles ∈ (Suites.FileName <$> profiles).
Proof.
  unfold defaultProfile. destruct (List.find Suites.Default profiles) as [p|] eqn:E.
  - apply BackendChoice.find_some_in in E as [Hp _]. right. apply list_elem_of_fmap. eauto.
  - destruct profiles as [|p rest]; [by left|]. right. left.
Qed.
Lemma decide_spec src w request : decided src w request (decide_launch src w request).
Proof.
  unfold decide_launch. set (id := TrimSpace (ReqSuiteID request)).
  assert (forall suite nodes, (match Get src id with Some f => Some f | None => Resolve src id end) = Some (suite, nodes) <->
    found src request suite nodes) as Hfound.
  { intros suite nodes. unfold found. fold id. destruct (Get src id); naive_solver. }
  destruct (match Get src id with Some f => Some f | None => Resolve src id end) as [[suite nodes]|].
  2: { intros suite nodes Hf%Hfound. done. }
  specialize (proj1 (Hfound suite nodes) eq_refl) as Hf. clear Hfound.
  set (asked := TrimSpace (ReqProfile request)).
  set (profile := if bool_decide (asked = "") then defaultProfile (Suites.Profiles suite) else asked).
  assert (profile_of request suite profile) as Hp.
  { unfold profile_of, profile. fold asked. case_bool_decide; [by right|by left]. }
  destruct (negb (bool_decide (profile = "")) && negb (suiteHasProfile (Suites.Profiles suite) profile)) eqn:Eb.
  - apply andb_true_iff in Eb as [E1 E2]. apply negb_true_iff in E1, E2. bool_to_prop.
    assert (profile ∉ (Suites.FileName <$> Suites.Profiles suite)) as Hn by (rewrite <- has_profile; congruence).
    destruct Hp as [[Ha Hp]|[Ha Hp]].
    + exists suite, nodes. fold asked in Ha, Hp |- *. by rewrite <- Hp.
    + destruct (default_belongs (Suites.Profiles suite)); congruence.
  - assert (profile = "" \/ profile ∈ (Suites.FileName <$> Suites.Profiles suite)) as Hin.
    { apply andb_false_iff in Eb as [E|E]; apply negb_false_iff in E; bool_to_prop; [by left|right; by apply has_profile]. }
    destruct (BackendChoice.resolveBackend _ _ _) as [reason|[b missing]] eqn:Er; [by exists suite, nodes, profile|].
    split_and!; done.
Qed.

Definition launch_verdict (src : Source) (w : BackendChoice.World) (now : Z) (id : string) (request : CreateRequest)
    (s : Service) (outcome : (LaunchError + ExecutionSummary) * Service * list effect) : Prop :=
  match outcome with
  | (inl reason, s', _) =>
      s' = s /\ (maxConcurrentExecutions <= sem s /\ reason = ErrBackend BackendChoice.ErrBackendUnavailable \/
                 sem s < maxConcurrentExecutions /\ decided src w request (inl reason))
  | (inr summary, s', _) =>
      sem s < maxConcurrentExecutions /\ sem s' = sem s + 1 /\
      exists d item, decided src w request (inr d) /\ summary = summaryLocked (launch_record src id d) item /\
        executions (flow s') !! id = Some item /\ Status item = "Booting" /\
        workspaceID item = ReqWorkspaceID request /\ records s' !! id = Some (launch_record src id d) /\
        last (order (flow s')) = Some id /\ others_kept id (flow s) (flow s') /\
        (Events item = [] <-> missing_tags d = [])
  end.

Lemma append_other now id event f other : other <> id ->
  executions (appendEvent now id event f).1 !! other = executions f !! other.
Proof.
  intros Hne. unfold appendEvent. destruct (executions f !! id) as [item|]; [|done]. cbn [fst executions Flow.put].
  by rewrite lookup_insert_ne.
Qed.
Lemma append_own now id event f item : executions f !! id = Some item -> exists item',
  executions (appendEvent now id event f).1 !! id = Some item' /\ Status item' = Status item /\
  workspaceID item' = workspaceID item /\ Events item' <> [].
Proof.
  intros Hi. pose proof (same_append now id event f) as [_ Hw]. specialize (Hw id). unfold appendEvent in *.
  rewrite Hi in *. cbn [fst executions Flow.put] in *. rewrite lookup_insert_eq in *. apply (inj Some) in Hw. eexists.
  split; [done|]. split_and!; [|exact Hw|cbn [Events add_event]; by intros [_ ?]%app_nil].
  rewrite <- (ensure_status item). cbn [Status add_event]. destruct (negb _ && _); [|done]. by destruct (stepStatus _ !! _).
Qed.

(** C5: a launch is refused, with nothing changed, exactly when ten launches
    are under way or the suite, the profile or a backend is not there, for that
    reason; otherwise the execution is stored last in the list, booting, for
    the workspace of the request and with the profile and the backend that were
    chosen, it takes a place, it warns when tags are missing, and of the others
    only ones that have ended may have been dropped. *)
Theorem launch_exact src w now id request s (Hl : listed (flow s)) (Hnew : executions (flow s) !! id = None) :
  launch_verdict src w now id request s (CreateExecution src w now id request s).
Proof.
  unfold CreateExecution, acquire. destruct (Z.ltb_spec (sem s) maxConcurrentExecutions) as [Hs|Hs].
  2: { split; [done|]. by left. }
  pose proof (decide_spec src w request) as Hd'. destruct (decide_launch src w request) as [reason|d] eqn:Ed.
  { split; [|by right]. destruct s. unfold release, set_sem. cbn. f_equal. lia. }
  set (workspace := ReqWorkspaceID request). set (item := new_execution now (steps_read d) workspace).
  destruct (store_spec id item (flow s) Hl Hnew eq_refl) as (dropped & (_ & Hx & Hd) & _ & _ & Hi & Hlast & _).
  set (f0 := store_execution id item (flow s)) in *.
  assert (others_kept id (flow s) f0) as Hkept.
  { intros other it Hne Hit. rewrite Hx. cbn [executions]. rewrite lookup_insert_ne by done. case_bool_decide as Hin; [|by left].
    right. split; [done|]. destruct (Hd _ Hin) as (it' & Hit' & He). cbn in Hit'. rewrite lookup_insert_ne in Hit' by done.
    congruence. }
  unfold store_launch. cbn [flow set_sem records sem]. fold workspace item f0.
  destruct (bool_decide (missing_tags d = [])) eqn:Em; bool_to_prop.
  - cbn [launch_verdict flow sem records]. rewrite Hi. split_and!; [done|done|]. exists d, item.
    split_and!; try done. by rewrite lookup_insert_eq.
  - set (event := tags_missing_event id d now f0).
    destruct (append_own now id event f0 item Hi) as (item' & Hi' & Hst & Hw & He).
    pose proof (same_append now id event f0) as [Ho _].
    pose proof (fun other => append_other now id event f0 other) as Hother.
    destruct (appendEvent now id event f0) as [f effects]. cbn [fst] in *.
    cbn [launch_verdict flow sem records default]. rewrite Hi'. split_and!; [done|done|]. exists d, item'.
    split_and!; try done; [by rewrite lookup_insert_eq|by rewrite Ho|].
    intros other it Hne Hit. rewrite Hother by done. by apply Hkept.
Qed.

(** ** Boots *)

(** A resolved suite whose backend and sidecar are ready gets all its steps
    into a queue that has none of them. *)
Lemma boot_enqueues now id suiteID pool capacity run onCanceled nodes ordered f item :
  resolveTopology nodes = Some (inr ordered) -> executions f !! id = Some item ->
  let '(f', q', _, r) := bootExecution now id suiteID pool capacity run onCanceled
                           (mkAnswers (inr ordered) None None None) f Queue.NewMemory in
  r = BootStarted /\ same_shape f f' /\
  Queue.Enqueue (boot_tasks id pool capacity run onCanceled ordered) Queue.NewMemory = (q', None).
Proof.
  intros Hr Hi. unfold bootExecution. cbn [resolved overlay setup sidecar]. rewrite Hi.
  assert (exists m, Queue.Enqueue (boot_tasks id pool capacity run onCanceled ordered) Queue.NewMemory = (m, None))
    as [m Hm] by (unfold Queue.Enqueue, boot_tasks; rewrite boot_tasks_accepted; eauto).
  rewrite Hm. assert (same_shape f (Flow.put id (boot_state ordered item) f)) as H0 by by eapply same_put.
  destruct (bool_decide _); [done|].
  pose proof (same_append now id (contested_event id
    (NetworkPlan.contestedNames (NetworkPlan.buildNetworkPlan ordered suiteID)) now
    (Flow.put id (boot_state ordered item) f)) (Flow.put id (boot_state ordered item) f)) as H1.
  destruct (appendEvent _ _ _ _) as [f1 noted]. split_and!; [done|by etransitivity|done].
Qed.
(** A boot that fails for another reason than the queue shows it: the
    execution has failed, and its last event says why. *)
Lemma boot_failure_shown now id reason f q item : executions f !! id = Some item ->
  exists item' event, executions (boot_failed now id reason f q).1.1 !! id = Some item' /\ Status item' = "Failed" /\
    last (Events item') = Some event /\ Text event = "Execution could not start: " +:+ reason.
Proof.
  intros Hi. unfold boot_failed, failBootedExecution. rewrite Hi. unfold appendEvent. cbn [executions Flow.put].
  rewrite lookup_insert_eq. set (failed := mkState "Failed" _ _ _ _ _ _ _ _ _ _ _).
  set (failed' := add_event _ _ _). unfold destroyExecutionBackend. cbn [executions Flow.put]. rewrite lookup_insert_eq.
  assert (Status failed' = "Failed") as Hs.
  { transitivity (Status (ensureStepStatusLocked failed)); [|apply ensure_status].
    unfold failed'. cbn [Status add_event]. destruct (negb _ && _); [|done]. by destruct (stepStatus _ !! _). }
  destruct (released failed'); cbn [fst executions Flow.put]; rewrite lookup_insert_eq.
  all: eexists _, _; split_and!; [done|exact Hs|cbn [Events add_event set_released]; apply last_snoc|done].
Qed.
(** When the queue refuses the steps, that event is forgotten at once, with
    the execution. *)
Lemma queue_failure_forgotten now id suiteID pool capacity run onCanceled nodes f q q' err :
  Queue.Enqueue (boot_tasks id pool capacity run onCanceled nodes) q = (q', Some err) ->
  executions f !! id <> None ->
  executions (bootExecution now id suiteID pool capacity run onCanceled (mkAnswers (inr nodes) None None None) f q).1.1.1
    !! id = None.
Proof.
  intros Hq Hi. unfold bootExecution. cbn [resolved overlay setup sidecar].
  destruct (executions f !! id) as [item|]; [|done]. destruct (if bool_decide _ then _ else _) as [f1 noted].
  rewrite Hq. destruct (boot_failed _ _ _ _ _) as [[g q2] e]. cbn. apply lookup_delete_eq.
Qed.

(** * Events, snapshots, restarts *)

(** A subscriber's channel holds all it is sent before it can read. *)
Lemma replay_fits executionID item since : 0 <= since ->
  Z.of_nat (length (replayed executionID item since)) <= bufferSize item since.
Proof.
  intros Hs. unfold replayed, bufferSize. set (f := fun (index : nat) event => _).
  assert (forall (l : list ExecutionEvent) (k : nat),
    Z.of_nat (length (omap id (imap (fun i e => f (k + i)%nat e) l))) <= Z.max 0 (Z.of_nat (k + length l) - Z.max since (Z.of_nat k))) as H.
  { induction l as [|e l IH]; intros k; [cbn; lia|]. cbn [imap omap list_omap length].
    specialize (IH (S k)). rewrite Nat.add_0_r.
    assert (imap (fun i x => f (S k + i)%nat x) l = imap ((fun i x => f (k + i)%nat x) ∘ S) l) as <-.
    { apply imap_ext. intros i x _. cbn. f_equal. lia. }
    unfold f at 1. destruct (Z.leb_spec (Z.of_nat k + 1) since); cbn [id length].
    - cbn [omap list_omap length]. lia.
    - rewrite Nat2Z.inj_succ. lia. }
  etransitivity; [exact (H (Events item) 0%nat)|]. lia.
Qed.

(** The tests of a known status. *)
Ltac decide_statuses :=
  repeat match goal with
  | |- context [bool_decide ?P] =>
      let b := eval vm_compute in (bool_decide P) in
      match b with true => idtac | false => idtac end; change (bool_decide P) with b
  end; cbn; lia.
(** The counts of a snapshot add up to its steps. *)
Lemma snapshot_adds_up item :
  let s := take_snapshot item in
  TotalSteps s = RunningSteps s + HealthySteps s + FailedSteps s + SkippedSteps s + PendingSteps s.
Proof.
  cbn zeta. unfold take_snapshot. cbn [TotalSteps RunningSteps HealthySteps FailedSteps SkippedSteps PendingSteps].
  generalize ((fun node => mkStepSnapshot (ID node) (Name node) (Kind node)
    (status_of (ensureStepStatusLocked item) (ID node)) (DependsOn node) (Level node)) <$>
    Nodes (ensureStepStatusLocked item)).
  unfold count_status. induction l as [|st l IH]; [done|]. cbn [List.filter].
  assert (forall n m : nat, Z.of_nat (length (st :: l)) = 1 + Z.of_nat (length l)) as Hlen by (intros; cbn; lia).
  rewrite (Hlen 0 0)%nat, IH. unfold is_status, counted_status. clear. destruct st as [? ? ? status ? ?]. cbn [StepStatus].
  destruct (decide (status = stepStatusRunning)) as [->|]; [decide_statuses|].
  destruct (decide (status = stepStatusHealthy)) as [->|]; [decide_statuses|].
  destruct (decide (status = stepStatusFailed)) as [->|]; [decide_statuses|].
  destruct (decide (status = stepStatusSkipped)) as [->|]; [decide_statuses|].
  rewrite !(bool_decide_eq_false_2 (status = _)) by done.
  rewrite (bool_decide_eq_false_2 (status ∈ _)) by set_solver. cbn. lia.
Qed.

(** A report of an agent that arrives after its step has ended makes the step
    run again: the status is overwritten, the count of the steps that have
    ended is not. *)
Lemma late_report_reopens now id nodeID name kind state message f item st :
  executions f !! id = Some item -> stepStatus item !! nodeID = Some st -> TrimSpace nodeID = nodeID -> nodeID <> "" ->
  kind <> ReleaseKind ->
  exists item', executions (AssignmentState now id nodeID name kind state message f).1 !! id = Some item' /\
    status_of item' nodeID = stepStatusRunning /\ completed item' = completed item.
Proof.
  intros Hi Hs Ht Hne Hk. unfold AssignmentState. rewrite bool_decide_eq_false_2 by done. unfold appendEvent. rewrite Hi.
  assert (ensureStepStatusLocked item = item) as ->.
  { unfold ensureStepStatusLocked. rewrite (bool_decide_eq_false_2 (stepStatus item = ∅)); [done|].
    intros E. by rewrite E, lookup_empty in Hs. }
  cbn [Flow.Source]. rewrite Ht, (bool_decide_eq_false_2 (nodeID = "")) by done.
  change (isKnownStepStatus (EventStatus _)) with true. cbn [negb andb]. rewrite Hs. cbn [fst executions Flow.put].
  rewrite lookup_insert_eq. eexists. split; [done|]. unfold status_of.
  cbn [stepStatus completed add_event set_steps EventStatus]. by rewrite lookup_insert_eq.
Qed.

(** What a restart brings back belongs to no workspace and to no backend. *)
Definition all_restored (s : Service) : Prop :=
  forall id item, executions (flow s) !! id = Some item -> workspaceID item = "" /\ hasBackend item = false.
Lemma restored_fields p : workspaceID (restored p) = "" /\ hasBackend (restored p) = false /\
  Status (restored p) = SavedStatus p.
Proof. unfold restored. by destruct (buildStepStatus _ _). Qed.
Lemma restore_all l s : all_restored s -> all_restored (foldl restore_one s l).
Proof.
  revert s. induction l as [|p l IH]; intros s H; [done|]. cbn [foldl]. apply IH. intros id item.
  unfold restore_one. cbn [flow executions]. destruct (restored_fields p) as (? & ? & _).
  intros [[_ <-]|[_ Hi]]%lookup_insert_Some; [done|by apply (H id)].
Qed.
Lemma restart_hides_executions sorted s : sorted <> [] ->
  let s' := restorePersistedExecutions sorted s in
  (forall id workspace, workspace <> "" -> GetExecution id workspace s' = inl ErrExecutionNotFound) /\
  (forall now id, RunOwned now id s' = false).
Proof.
  intros Hne. cbn zeta. unfold restorePersistedExecutions. rewrite bool_decide_eq_false_2 by done.
  set (s0 := mkService _ _ _). assert (all_restored s0) as H0 by (intros id item; cbn; by rewrite lookup_empty).
  pose proof (restore_all (List.filter (fun p => negb (unnamed_record p)) sorted) s0 H0) as Hall. split.
  - intros id workspace Hw. unfold GetExecution, find_execution.
    destruct (executions _ !! id) as [item|] eqn:E; [|done]. destruct (Hall id item E) as [Hi _].
    unfold seen_from. rewrite Hi, !bool_decide_eq_false_2 by done. done.
  - intros now id. unfold RunOwned. destruct (executions _ !! id) as [item|] eqn:E; [|done].
    destruct (Hall id item E) as [_ ->]. done.
Qed.
(** An execution that was saved before it ended comes back unfinished, nothing
    resumes it, and while it is the oldest nothing is evicted any more. *)
Lemma unfinished_oldest_blocks_eviction f oldest rest item :
  order f = oldest :: rest -> executions f !! oldest = Some item -> ended item = false ->
  evictOldExecutionsLocked f = f.
Proof.
  intros Ho Hi He. unfold evictOldExecutionsLocked. destruct f as [m o]. cbn [order executions] in *. subst o.
  unfold evict. destruct (_ <=? _)%nat; [done|]. by rewrite Hi, He.
Qed.

(** The restored service is one the theorems start from. *)
Definition named (sorted : list PersistedExecution) : list PersistedExecution :=
  List.filter (fun p => negb (unnamed_record p)) sorted.
Lemma restore_listed l s : NoDup ((fun p => RecordID (SavedRecord p)) <$> l) -> listed (flow s) ->
  (forall p, p ∈ l -> RecordID (SavedRecord p) ∉ order (flow s)) -> listed (flow (foldl restore_one s l)).
Proof.
  revert s. induction l as [|p l IH]; intros s Hn Hl Hnew; [done|]. cbn [foldl fmap list_fmap] in *.
  apply NoDup_cons in Hn as [Hp Hn]. assert (RecordID (SavedRecord p) ∉ order (flow s)) as Hp' by (apply Hnew; left).
  apply IH; [done| |].
  - destruct Hl as [Hn' Hl]. split; cbn [order executions flow restore_one].
    + apply NoDup_app. split_and!; [done|set_solver|apply NoDup_singleton].
    + intros id. rewrite elem_of_app, list_elem_of_singleton, lookup_insert_is_Some, Hl.
      destruct (decide (RecordID (SavedRecord p) = id)); naive_solver.
  - intros p' Hp''. cbn [order flow restore_one]. rewrite elem_of_app, list_elem_of_singleton. intros [Hc|Hc].
    + by apply (Hnew p'); [right|].
    + apply Hp. rewrite <- Hc. apply list_elem_of_fmap. eauto.
Qed.
Lemma restart_starts sorted q : NoDup ((fun p => RecordID (SavedRecord p)) <$> named sorted) ->
  exists owner, started (mkSystem (restorePersistedExecutions sorted (mkService (Flow.mkService ∅ []) ∅ 0)) q 0 ∅ owner).
Proof.
  intros Hn. set (s := restorePersistedExecutions _ _). exists (workspaceID <$> executions (flow s)).
  assert (listed (Flow.mkService ∅ [])) as H0.
  { split; [apply NoDup_nil_2|]. intros id. cbn. rewrite lookup_empty. split; [set_solver|by intros []]. }
  assert (forall l s0, sem (foldl restore_one s0 l) = sem s0) as Hsem.
  { induction l as [|p l IH]; [done|]. intros s0. cbn [foldl]. by rewrite IH. }
  split_and!; [|done|done| |].
  - cbn [svc]. unfold s, restorePersistedExecutions. case_bool_decide; [done|]. by rewrite Hsem.
  - cbn [svc]. unfold s, restorePersistedExecutions. case_bool_decide; [done|]. apply restore_listed; [done|done|set_solver].
  - intros id item Hi. cbn. rewrite lookup_fmap. cbn in Hi. by rewrite Hi.
Qed.

(** * Examples *)
Definition demo_suite : Suites.SuiteDefinition :=
  Suites.mkSuite "shop" "Shop" "" "" "1.0" "" [Suites.mkProfileOption "ci.yaml" "CI" "" true] [] [] [].
Definition demo_source : Source :=
  mkSource (fun id => if bool_decide (id = "shop") then Some (demo_suite, []) else None) (fun _ => None)
    (fun _ _ => []) (fun _ => mkMeta "" "" "" "" "") (fun _ _ => "0123456789").
Definition demo_world : BackendChoice.World := BackendChoice.quiet_world (Platform.DefaultSettings 0).
Definition demo_request (workspace : string) : CreateRequest := mkRequest " shop " "" "" workspace.
Definition fresh : Service := mkService (Flow.mkService ∅ []) ∅ 0.
Definition demo_after : Service :=
  (CreateExecution demo_source demo_world 5 "run-1" (demo_request "team-a") fresh).1.2.

Example unknown_profile_refused :
  (CreateExecution demo_source demo_world 5 "run-1" (mkRequest "shop" "prod.yaml" "" "team-a") fresh).1.1 =
  inl ErrProfileNotFound.
Proof. by vm_compute. Qed.
Example eleventh_launch_refused :
  (CreateExecution demo_source demo_world 5 "run-1" (demo_request "team-a") (set_sem 10 fresh)).1.1 =
  inl (ErrBackend BackendChoice.ErrBackendUnavailable).
Proof. by vm_compute. Qed.

Lemma fresh_listed : listed (flow fresh).
Proof. split; [apply NoDup_nil_2|]. intros id. cbn. rewrite lookup_empty. split; [set_solver|by intros []]. Qed.
Lemma launch_exact_witness :
  listed (flow fresh) /\ executions (flow fresh) !! "run-1" = None /\
  launch_verdict demo_source demo_world 5 "run-1" (demo_request "team-a") fresh
    (CreateExecution demo_source demo_world 5 "run-1" (demo_request "team-a") fresh).
Proof.
  split_and!; [exact fresh_listed|done|].
  apply (launch_exact demo_source demo_world 5 "run-1" (demo_request "team-a") fresh fresh_listed). done.
Defined.

Definition demo_system : system := mkSystem demo_after Queue.NewMemory 0 {["run-1"]} {["run-1" := "team-a"]}.
Lemma demo_reachable : reachable demo_system.
Proof.
  exists (mkSystem fresh Queue.NewMemory 0 ∅ ∅). split.
  { split_and!; [done|done|done|exact fresh_listed|]. intros id item. cbn. by rewrite lookup_empty. }
  eapply rtc_l; [by apply (ask _ (set_sem 1 fresh))|].
  destruct (decide_launch demo_source demo_world (demo_request "team-a")) as [reason|d] eqn:Ed; [by vm_compute in Ed|].
  eapply rtc_l.
  { apply (accept _ demo_source demo_world 5 "run-1" (demo_request "team-a") d O); [done|exact Ed|done|set_solver]. }
  assert (forall s s' : system, s = s' -> rtc launch_step s s') as Heq by (by intros s s' ->).
  apply Heq. unfold demo_system, demo_after, CreateExecution.
  change (acquire fresh) with (Some (set_sem 1 fresh)). cbv iota beta. rewrite Ed.
  cbn [svc queue ReqWorkspaceID demo_request owner booting asking].
  destruct (store_launch _ _ _ _ _ _) as [s e]. cbn [fst snd]. f_equal.
Qed.
Lemma launches_accounted_witness :
  reachable demo_system /\ sem (svc demo_system) = 1 /\ owner demo_system !! "run-1" = Some "team-a" /\
  (exists shown, GetExecution "run-1" "team-a" (svc demo_system) = inr shown) /\
  GetExecution "run-1" "team-b" (svc demo_system) = inl ErrExecutionNotFound.
Proof.
  split; [exact demo_reachable|]. destruct (launches_accounted demo_system demo_reachable) as ((Hsem & _) & _ & Hown).
  split; [rewrite Hsem; reflexivity|].
  assert (exists shown, GetExecution "run-1" "team-a" (svc demo_system) = inr shown) as Hshown.
  { eexists. vm_compute. reflexivity. }
  split_and!; [apply Hown; [discriminate|by left]|exact Hshown|vm_compute; reflexivity].
Defined.

End Launch.
