(* ===== verification/Environments.v ===== *)
(** The environments that runs leave behind,
    [src/backend/internal/environments]: reading what Docker prints, grouping
    its containers, networks and volumes into sandboxes, telling zombies from
    live runs, the backends beside the host, and reaping.

    Docker, the backends, the process table, [time.Parse], the JSON decoder
    and the clock are arguments.  A command given to Docker is the list of its
    arguments; [nil] and empty slices are one value.  [sort.Slice] leaves equal
    elements in any order: the stable one is taken here. *)
From Stdlib Require Import ZArith Lia Ascii SpecFloat.
From S2P Require Import Prelude GoStrings Runes Strconv Values Format LoadPlan Containers.
Import GoStrings Runes Strconv Format.

Module Environments.

(** ** types.go *)
Record ResourceUsage := mkUsage {
  CPUPercent : float64; MemoryBytes : Z; MemoryLimitBytes : Z; MemoryPercent : float64 }.
Definition no_usage : ResourceUsage := mkUsage F_zero 0 0 F_zero.
Record Container := mkContainer {
  ContainerID : string; ContainerName : string; Image : string; State : string; ContainerStatus : string;
  Ports : list string; ContainerStartedAt : option Z; ExitCode : Z; Usage : ResourceUsage }.
Record Network := mkNetwork { NetworkID : string; NetworkName : string; NetworkDriver : string; Scope : string }.
Record Volume := mkVolume { VolumeName : string; VolumeDriver : string; Mountpoint : string }.
Record Sandbox := mkSandbox {
  SandboxID : string;
  RunID : string;
  Suite : string;
  Owner : string;
  Profile : string;
  Backend : string;
  BackendLabel : string;
  BackendKind : string;
  Status : string;
  Summary : string;
  StartedAt : option Z;
  LastHeartbeatAt : option Z;
  OrchestratorPID : Z;
  OrchestratorState : string;
  IsZombie : bool;
  CanReap : bool;
  SandboxUsage : ResourceUsage;
  Containers : list Container;
  Networks : list Network;
  Volumes : list Volume;
  Warnings : list string;
}.
Record InventorySummary := mkSummary {
  ActiveSandboxes : Z; ZombieSandboxes : Z; ContainerCount : Z; NetworkCount : Z; VolumeCount : Z;
  TotalCPUPercent : float64; TotalMemoryBytes : Z }.
Record Inventory := mkInventory {
  DockerAvailable : bool; UpdatedAt : Z; InventorySum : InventorySummary; Sandboxes : list Sandbox;
  InventoryWarnings : list string }.
Record ReapResult := mkReap {
  ReapScope : string; ReapTarget : string; RemovedContainers : Z; RemovedNetworks : Z; RemovedVolumes : Z;
  ReapWarnings : list string }.
Notation labels := (gmap string string).
Record dockerContainer := mkDockerContainer {
  DID : string; DName : string; DImage : string; DLabels : labels; DState : string; DStartedAt : option Z;
  DExitCode : Z; DPorts : list string }.
Record dockerNetwork := mkDockerNetwork {
  NID : string; NName : string; NDriver : string; NScope : string; NLabels : labels }.
Record dockerVolume := mkDockerVolume { VName : string; VDriver : string; VMountpoint : string; VLabels : labels }.
(** What [docker inspect] reports of a container; the ports are a map, given in
    the order it is traversed in. *)
Record dockerContainerInspect := mkInspect {
  InspectID : string; InspectName : string; InspectImage : string; InspectLabels : labels; InspectState : string;
  InspectStartedAt : string; InspectExitCode : Z; InspectPorts : list (string * list (string * string)) }.

Definition managedLabelFilter : string := "babelsuite.managed=true".
Definition hostBackendID : string := "host-docker".
Definition hostBackendLabel : string := "Control plane Docker".

(** ** parse.go *)
Definition sortStrings (values : list string) : list string := sort_strings values.

Definition formatPorts (ports : list (string * list (string * string))) : list string :=
  sortStrings (concat ((fun '(containerPort, bindings) =>
    match bindings with
    | [] => [containerPort]
    | _ => (fun '(_, hostPort) => if bool_decide (hostPort = "") then containerPort
                                  else hostPort +:+ " -> " +:+ containerPort) <$> bindings
    end) <$> ports)).

(** [strconv.Atoi] of a number out of range is the nearest one in range. *)
Definition parseInt (value : string) : Z :=
  let value := TrimSpace value in
  match ParseInt value with
  | Some n => n
  | None =>
      let '(neg, digits) := split_sign (of_string value) in
      match digits, digits_value 0 digits with
      | _ :: _, Some _ => if neg then int64_min else int64_max
      | _, _ => 0
      end
  end.
Definition roundFloat (value : float64) : float64 := default F_zero (ParseFloat (fixed 2 value)).
Definition parsePercent (value : string) : float64 :=
  match ParseFloat (TrimSpace (TrimSuffix (TrimSpace value) "%")) with
  | Some number => roundFloat number
  | None => F_zero
  end.

(** [sizePattern]: a number and a unit, letters of either case; the Kelvin
    sign is a [k] to it. *)
Definition pattern_space (c : ascii) : bool := bool_decide (code c ∈ [9; 10; 12; 13; 32]).
Definition take_digits : bytes -> bytes * bytes := Values.take_while Values.decimal.
Definition size_number (l : bytes) : option (bytes * bytes) :=
  match take_digits l with
  | ([], _) => None
  | (whole, c :: rest) =>
      if code c =? 46 then
        match take_digits rest with
        | ([], _) => None
        | (frac, rest) => Some (whole ++ c :: frac, rest)
        end
      else Some (whole, c :: rest)
  | (whole, []) => Some (whole, [])
  end.
Definition optional (p : ascii -> bool) (l : bytes) : bytes * bytes :=
  match l with c :: rest => if p c then ([lower_byte c], rest) else ([], l) | [] => ([], []) end.
Definition size_prefix (l : bytes) : bytes * bytes :=
  match l with
  | c :: d :: e :: rest =>
      if (code c =? 226) && (code d =? 132) && (code e =? 170) then (["k"%char], rest)
      else optional (fun c => bool_decide (lower_byte c ∈ of_string "kmgtp")) l
  | _ => optional (fun c => bool_decide (lower_byte c ∈ of_string "kmgtp")) l
  end.
Definition size_unit (l : bytes) : option string :=
  let '(prefix, l) := size_prefix l in
  let '(binary, l) := optional (fun c => bool_decide (lower_byte c = "i"%char)) l in
  match l with
  | c :: rest =>
      if bool_decide (lower_byte c = "b"%char) && forallb pattern_space rest
      then Some (to_string (prefix ++ binary ++ ["b"%char])) else None
  | [] => None
  end.
Definition match_size (value : string) : option (string * string) :=
  let '(_, l) := Values.take_while pattern_space (of_string value) in
  '(number, l) ← size_number l;
  let '(_, l) := Values.take_while pattern_space l in
  unit ← size_unit l;
  Some (to_string number, unit).
Definition multiplier (unit : string) : float64 :=
  F_of_Z (default 1 (snd <$> List.find (fun p => bool_decide (p.1 = unit))
    [("kb", 1000); ("mb", 1000 ^ 2); ("gb", 1000 ^ 3); ("tb", 1000 ^ 4);
     ("kib", 1024); ("mib", 1024 ^ 2); ("gib", 1024 ^ 3); ("tib", 1024 ^ 4)])).

Section Sizes.
(** [int64(f)] of a float out of range is left to the implementation. *)
Variable overflow_int : float64 -> Z.
Definition parseHumanSize (value : string) : Z :=
  match match_size (TrimSpace value) with
  | None => 0
  | Some (number, unit) =>
      match ParseFloat number with
      | None => 0
      | Some number => LoadPlan.int_of_float overflow_int (F_mul number (multiplier unit))
      end
  end.
Definition parseMemoryUsage (value : string) : Z * Z :=
  match Split value "/"%char with
  | [used; limit] => (parseHumanSize used, parseHumanSize limit)
  | _ => (0, 0)
  end.
End Sizes.

(** Pairs of a carriage return and a newline become newlines. *)
Fixpoint newlines (l : bytes) : bytes :=
  match l with
  | c :: ((d :: rest) as l') => if (code c =? 13) && (code d =? 10) then d :: newlines rest else c :: newlines l'
  | _ => l
  end.
Definition non_blank (values : list string) : list string :=
  omap (fun v => let trimmed := TrimSpace v in if bool_decide (trimmed = "") then None else Some trimmed) values.
Definition splitLines (value : string) : list string :=
  non_blank (Split (to_string (newlines (of_string value))) (byte_of 10)).
Fixpoint compact_loop (seen : gset string) (values : list string) : list string :=
  match values with
  | [] => []
  | v :: rest => if bool_decide (v ∈ seen) then compact_loop seen rest else v :: compact_loop ({[v]} ∪ seen) rest
  end.
Definition compactStrings (values : list string) : list string := compact_loop ∅ (non_blank values).
Definition labelIsTrue (value : string) : bool :=
  bool_decide (ToLower (TrimSpace value) ∈ ["true"; "1"; "yes"]).
Definition slug_byte (c : ascii) : bool :=
  let b := code c in ((97 <=? b) && (b <=? 122)) || ((48 <=? b) && (b <=? 57)).
Fixpoint slug_loop (lastDash : bool) (l : bytes) : bytes :=
  match l with
  | [] => []
  | c :: rest =>
      if slug_byte c then c :: slug_loop false rest
      else if lastDash then slug_loop true rest else "-"%char :: slug_loop true rest
  end.
Definition slugify (value : string) : string :=
  let value := ToLower (TrimSpace value) in
  if bool_decide (value = "") then "unknown"
  else let result := Trim (to_string (slug_loop false (of_string value))) "-"%char in
       if bool_decide (result = "") then "unknown" else result.
Definition has_any (text : string) (subs : list string) : bool := existsb (ContainsSub text) subs.
(** An error of Docker: unavailable, with details, or another one. *)
Inductive docker_error := Unavailable (detail : string) | OtherError (text : string).
Definition error_text (e : docker_error) : string :=
  match e with Unavailable detail => "docker unavailable: " +:+ detail | OtherError text => text end.
Definition humanizeDockerError (e : docker_error) : string := TrimSpace (error_text e).
(** [classifyDockerError] of an error with its text and the command's output;
    [missing] is whether the program was not found. *)
Definition classifyDockerError (missing : bool) (text output : string) : docker_error :=
  if missing then Unavailable "docker CLI was not found in PATH"
  else if has_any (ToLower (output +:+ " " +:+ text))
            ["cannot connect to the docker daemon"; "error during connect"; "daemon is not running"; "docker desktop"]
  then Unavailable (TrimSpace output)
  else OtherError (text +:+ ": " +:+ TrimSpace output).

Section Time.
Variable time_Parse : string -> option Z.
Definition parseDockerTime (value : string) : option Z :=
  let value := TrimSpace value in
  if bool_decide (value = "") || bool_decide (value = "0001-01-01T00:00:00Z") then None else time_Parse value.

(** ** environment_state.go *)
Definition label (l : labels) (key : string) : string := default "" (l !! key).
Definition run_label (l : labels) : string :=
  FirstNonEmpty [label l "babelsuite.run_id"; label l "babelsuite.sandbox_id"; label l "babelsuite.execution_id"].
Definition sandboxKey (l : labels) (kind fallback : string) : string :=
  let runID := run_label l in
  if bool_decide (runID = "") then "orphan-" +:+ kind +:+ "-" +:+ slugify fallback else runID.

Definition new_sandbox (key : string) : Sandbox :=
  mkSandbox key "" "" "" "" "" "" "" "" "" None None 0 "unknown" false false no_usage [] [] [] [].
Definition ensureSandbox (groups : gmap string Sandbox) (key : string) : Sandbox := default (new_sandbox key) (groups !! key).
Definition or_else (s t : string) : string := if bool_decide (s = "") then t else s.
Definition hydrateSandbox (l : labels) (s : Sandbox) : Sandbox :=
  mkSandbox (SandboxID s) (or_else (RunID s) (run_label l))
    (or_else (Suite s) (FirstNonEmpty [label l "babelsuite.suite"; label l "babelsuite.suite_name"; label l "babelsuite.suite_id"]))
    (or_else (Owner s) (FirstNonEmpty [label l "babelsuite.owner"; label l "babelsuite.user"; label l "babelsuite.initiator"]))
    (or_else (Profile s) (label l "babelsuite.profile"))
    (Backend s) (BackendLabel s) (BackendKind s) (Status s) (Summary s)
    (match StartedAt s with
     | Some t => Some t
     | None => parseDockerTime (FirstNonEmpty [label l "babelsuite.started_at"; label l "babelsuite.run_started_at"])
     end)
    (match LastHeartbeatAt s with
     | Some t => Some t
     | None => parseDockerTime (FirstNonEmpty [label l "babelsuite.last_heartbeat"; label l "babelsuite.heartbeat_at"])
     end)
    (if OrchestratorPID s =? 0 then parseInt (label l "babelsuite.orchestrator_pid") else OrchestratorPID s)
    (OrchestratorState s) (IsZombie s || labelIsTrue (label l "babelsuite.zombie")) (CanReap s) (SandboxUsage s)
    (Containers s) (Networks s) (Volumes s) (Warnings s).

(** The sums of int64 wrap around. *)
Definition addUsage (total next : ResourceUsage) : ResourceUsage :=
  let used := wrap64 (MemoryBytes total + MemoryBytes next) in
  let limit := wrap64 (MemoryLimitBytes total + MemoryLimitBytes next) in
  mkUsage (F_add (CPUPercent total) (CPUPercent next)) used limit
    (if 0 <? limit then roundFloat (F_mul (F_div (F_of_Z used) (F_of_Z limit)) (F_of_Z 100)) else MemoryPercent total).
(** The statistics are traversed in the order they are given in. *)
Definition lookupUsage (stats : list (string * ResourceUsage)) (id name : string) : ResourceUsage :=
  match List.find (fun p => bool_decide (p.1 = id)) stats with
  | Some p => p.2
  | None =>
      match List.find (fun p => bool_decide (p.1 = name)) stats with
      | Some p => p.2
      | None => match List.find (fun p => HasPrefix id p.1 || HasPrefix p.1 id) stats with
                | Some p => p.2
                | None => no_usage
                end
      end
  end.
End Time.

Definition by_name {A} (name : A -> string) (a b : A) : Prop := String.ltb (name b) (name a) = false.
#[export] Instance by_name_dec {A} (name : A -> string) : RelDecision (by_name name).
Proof. intros a b. unfold by_name. apply _. Defined.
Definition count {A} (p : A -> bool) (l : list A) : Z := Z.of_nat (length (List.filter p l)).
Definition len {A} (l : list A) : Z := Z.of_nat (length l).
(** The earliest start, of the containers or already known. *)
Definition earlier (known next : option Z) : option Z :=
  match known, next with
  | None, _ => next
  | Some t, Some u => if u <? t then Some u else Some t
  | Some t, None => Some t
  end.
Definition failed_state (state : string) : bool := bool_decide (state ∈ ["exited"; "dead"; "restarting"; "failed"]).
Definition resources (s : Sandbox) : Z := len (Containers s) + len (Networks s) + len (Volumes s).
Definition gone_warning : string := "The orchestrator appears to be gone while managed containers are still alive.".

(** [finalizeSandbox]; [alive] tells whether a process runs. *)
Definition finalizeSandbox (alive : Z -> bool) (now : Z) (s : Sandbox) : Sandbox :=
  let containers := merge_sort (by_name ContainerName) (Containers s) in
  let networks := merge_sort (by_name NetworkName) (Networks s) in
  let volumes := merge_sort (by_name VolumeName) (Volumes s) in
  let startedAt := foldl (fun t c => earlier t (ContainerStartedAt c)) (StartedAt s) containers in
  let running := count (fun c => bool_decide (State c = "running")) containers in
  let failed := count (fun c => failed_state (State c)) containers in
  let orchestrator :=
    if 0 <? OrchestratorPID s then (if alive (OrchestratorPID s) then "alive" else "dead")
    else match LastHeartbeatAt s with
         | Some t => if 2 * minute <? Sub now t then "stale" else "unknown"
         | None => "unknown"
         end in
  let zombie := IsZombie s ||
    ((0 <? running) && (bool_decide (orchestrator = "dead") || bool_decide (orchestrator = "stale"))) in
  let total := len containers + len networks + len volumes in
  let status := if zombie then "Zombie" else if 0 <? failed then "Degraded" else if 0 <? running then "Running"
                else if 0 <? total then "Residual" else "Unknown" in
  let warnings := Warnings s ++
    (if bool_decide (RunID s = "")
     then ["Resources are missing babelsuite.run_id, so cleanup is grouped by fallback labels."] else []) ++
    (if zombie then [gone_warning] else []) in
  let usage := SandboxUsage s in
  mkSandbox (SandboxID s) (RunID s) (or_else (Suite s) "Unattributed sandbox") (or_else (Owner s) "Unknown owner")
    (or_else (Profile s) "No profile label") (Backend s) (BackendLabel s) (BackendKind s) status
    (FormatInt (len containers) +:+ " containers, " +:+ FormatInt (len networks) +:+ " networks, " +:+
     FormatInt (len volumes) +:+ " volumes")
    startedAt (LastHeartbeatAt s) (OrchestratorPID s) orchestrator zombie (0 <? total)
    (mkUsage (roundFloat (CPUPercent usage)) (MemoryBytes usage) (MemoryLimitBytes usage)
       (roundFloat (MemoryPercent usage)))
    containers networks volumes (compactStrings warnings).
Definition sandboxStatusRank (status : string) : Z :=
  if bool_decide (status = "Zombie") then 0 else if bool_decide (status = "Degraded") then 1
  else if bool_decide (status = "Running") then 2 else if bool_decide (status = "Residual") then 3 else 4.

(** ** snapshot.go *)
Definition set_resources (usage : ResourceUsage) (cs : list Container) (ns : list Network) (vs : list Volume) (s : Sandbox)
    : Sandbox :=
  mkSandbox (SandboxID s) (RunID s) (Suite s) (Owner s) (Profile s) (Backend s) (BackendLabel s) (BackendKind s)
    (Status s) (Summary s) (StartedAt s) (LastHeartbeatAt s) (OrchestratorPID s) (OrchestratorState s) (IsZombie s)
    (CanReap s) usage cs ns vs (Warnings s).
Definition set_backend (id lbl kind : string) (s : Sandbox) : Sandbox :=
  mkSandbox (SandboxID s) (RunID s) (Suite s) (Owner s) (Profile s) id lbl kind (Status s) (Summary s) (StartedAt s)
    (LastHeartbeatAt s) (OrchestratorPID s) (OrchestratorState s) (IsZombie s) (CanReap s) (SandboxUsage s)
    (Containers s) (Networks s) (Volumes s) (Warnings s).

(** The order of the sandboxes; a time that is not known is before any other. *)
Definition before_sandbox (a b : Sandbox) : bool :=
  let ra := sandboxStatusRank (Status a) in
  let rb := sandboxStatusRank (Status b) in
  if negb (ra =? rb) then ra <? rb
  else match StartedAt a, StartedAt b with
  | Some t, Some u => if negb (t =? u) then u <? t else String.ltb (SandboxID a) (SandboxID b)
  | Some _, None => true
  | None, Some _ => false
  | None, None => String.ltb (SandboxID a) (SandboxID b)
  end.
Definition sandbox_le (a b : Sandbox) : Prop := before_sandbox b a = false.
#[export] Instance sandbox_le_dec : RelDecision sandbox_le.
Proof. intros a b. unfold sandbox_le. apply _. Defined.
Definition sortSandboxes (sandboxes : list Sandbox) : list Sandbox := merge_sort sandbox_le sandboxes.
Definition summarize (sandboxes : list Sandbox) : InventorySummary :=
  foldl (fun m s => mkSummary (ActiveSandboxes m + 1) (if IsZombie s then ZombieSandboxes m + 1 else ZombieSandboxes m)
           (ContainerCount m + len (Containers s)) (NetworkCount m + len (Networks s)) (VolumeCount m + len (Volumes s))
           (F_add (TotalCPUPercent m) (CPUPercent (SandboxUsage s)))
           (wrap64 (TotalMemoryBytes m + MemoryBytes (SandboxUsage s))))
        (mkSummary 0 0 0 0 0 F_zero 0) sandboxes.

Section Inventory.
Context (time_Parse : string -> option Z) (alive : Z -> bool) (now : Z).
Notation groups := (gmap string Sandbox).

Definition container_of (stats : list (string * ResourceUsage)) (item : dockerContainer) : Container :=
  mkContainer (DID item) (DName item) (DImage item) (DState item) (DState item) (DPorts item) (DStartedAt item)
    (DExitCode item) (lookupUsage stats (DID item) (DName item)).
Definition network_of (item : dockerNetwork) : Network := mkNetwork (NID item) (NName item) (NDriver item) (NScope item).
Definition volume_of (item : dockerVolume) : Volume := mkVolume (VName item) (VDriver item) (VMountpoint item).
Definition container_key (item : dockerContainer) : string := sandboxKey (DLabels item) "container" (DName item).
Definition network_key (item : dockerNetwork) : string := sandboxKey (NLabels item) "network" (NName item).
Definition volume_key (item : dockerVolume) : string := sandboxKey (VLabels item) "volume" (VName item).
Definition hydrated (l : labels) (key : string) (g : groups) : Sandbox := hydrateSandbox time_Parse l (ensureSandbox g key).

Definition place_container (stats : list (string * ResourceUsage)) (g : groups) (item : dockerContainer) : groups :=
  let s := hydrated (DLabels item) (container_key item) g in
  let c := container_of stats item in
  <[container_key item :=
      set_resources (addUsage (SandboxUsage s) (Usage c)) (Containers s ++ [c]) (Networks s) (Volumes s) s]> g.
Definition place_network (g : groups) (item : dockerNetwork) : groups :=
  let s := hydrated (NLabels item) (network_key item) g in
  <[network_key item :=
      set_resources (SandboxUsage s) (Containers s) (Networks s ++ [network_of item]) (Volumes s) s]> g.
Definition place_volume (g : groups) (item : dockerVolume) : groups :=
  let s := hydrated (VLabels item) (volume_key item) g in
  <[volume_key item :=
      set_resources (SandboxUsage s) (Containers s) (Networks s) (Volumes s ++ [volume_of item]) s]> g.
Definition group_all (containers : list dockerContainer) (networks : list dockerNetwork) (volumes : list dockerVolume)
    (stats : list (string * ResourceUsage)) : groups :=
  foldl place_volume (foldl place_network (foldl (place_container stats) ∅ containers) networks) volumes.
Definition finished (s : Sandbox) : Sandbox :=
  set_backend hostBackendID hostBackendLabel "local" (finalizeSandbox alive now s).
Definition buildInventory (containers : list dockerContainer) (networks : list dockerNetwork)
    (volumes : list dockerVolume) (stats : list (string * ResourceUsage)) : Inventory :=
  let sandboxes := sortSandboxes (finished <$> (map_to_list (group_all containers networks volumes stats)).*2) in
  mkInventory false 0 (summarize sandboxes) sandboxes [].

(** ** docker_resources.go

    [docker] is the answer to a command; the decoders read what it printed. *)
Context (docker : list string -> docker_error + string).
Context (decode_containers : string -> string + list dockerContainerInspect)
  (decode_networks : string -> string + list dockerNetwork) (decode_volumes : string -> string + list dockerVolume).
Definition from_inspect (item : dockerContainerInspect) : dockerContainer :=
  mkDockerContainer (InspectID item) (TrimPrefix (InspectName item) "/") (InspectImage item) (InspectLabels item)
    (TrimSpace (InspectState item)) (parseDockerTime time_Parse (InspectStartedAt item)) (InspectExitCode item)
    (formatPorts (InspectPorts item)).
Definition decoded {A} (r : string + A) : docker_error + A := match r with inl text => inl (OtherError text) | inr x => inr x end.
(** List the managed resources of a kind, inspect them, sort them by name. *)
Definition list_managed {A B} (ls inspect : list string) (decode : string -> string + list A) (convert : A -> B)
    (name : B -> string) : docker_error + list B :=
  check out := docker (ls ++ ["--filter"; "label=" +:+ managedLabelFilter]) in
  match splitLines out with
  | [] => inr []
  | ids =>
      check out := docker (inspect ++ ids) in
      check raw := decoded (decode out) in
      inr (merge_sort (by_name name) (convert <$> raw))
  end.
Definition listContainers : docker_error + list dockerContainer :=
  list_managed ["ps"; "-aq"] ["inspect"] decode_containers from_inspect DName.
Definition listNetworks : docker_error + list dockerNetwork :=
  list_managed ["network"; "ls"; "-q"] ["network"; "inspect"] decode_networks id NName.
Definition listVolumes : docker_error + list dockerVolume :=
  list_managed ["volume"; "ls"; "-q"] ["volume"; "inspect"] decode_volumes id VName.

(** A kind that could not be listed is missing, with a warning. *)
Definition listed_or_warn {A} (what : string) (r : docker_error + list A) : list A * list string :=
  match r with
  | inr l => (l, [])
  | inl err => ([], [what +:+ " could not be inspected: " +:+ humanizeDockerError err])
  end.
Record collected := mkCollected {
  found_containers : list dockerContainer; found_networks : list dockerNetwork; found_volumes : list dockerVolume;
  docker_up : bool; found_warnings : list string }.
Definition unavailable (detail : docker_error) : collected := mkCollected [] [] [] false [humanizeDockerError detail].
Definition collectResources : collected :=
  match listContainers with
  | inl (Unavailable d) => unavailable (Unavailable d)
  | rc =>
      match listNetworks with
      | inl (Unavailable d) => unavailable (Unavailable d)
      | rn =>
          match listVolumes with
          | inl (Unavailable d) => unavailable (Unavailable d)
          | rv =>
              let '(cs, w1) := listed_or_warn "Containers" rc in
              let '(ns, w2) := listed_or_warn "Networks" rn in
              let '(vs, w3) := listed_or_warn "Volumes" rv in
              mkCollected cs ns vs true (compactStrings (w1 ++ w2 ++ w3))
          end
      end
  end.

(** ** sources.go *)
Record InventoryItem := mkItem {
  ItemID : string; ItemName : string; ItemKind : string; ItemImage : string; ItemState : string; ItemStartedAt : option Z }.
Record ExecutionInventory := mkRun {
  RunOf : string; RunSuite : string; RunProfile : string; RunStartedAt : option Z;
  RunContainers : list InventoryItem; RunNetworks : list InventoryItem; RunVolumes : list InventoryItem }.
(** A backend: what it lists, and how it answers a reap. *)
Record Source := mkSource {
  SourceID : string; SourceLabel : string; SourceKind : string;
  inventory_of : string + list ExecutionInventory; reap_answer : string -> option string }.
Context (sources : list Source) (runOwned : string -> bool).

Definition remoteSandbox (source : Source) (run : ExecutionInventory) : Sandbox :=
  let owned := runOwned (RunOf run) in
  let cs := (fun i => mkContainer (ItemID i) (ItemName i) (ItemImage i) (ItemState i) (ItemState i) [] (ItemStartedAt i) 0
               no_usage) <$> RunContainers run in
  let ns := (fun i => mkNetwork (ItemID i) (ItemName i) (ItemKind i) "") <$> RunNetworks run in
  let vs := (fun i => mkVolume (ItemName i) (ItemKind i) "") <$> RunVolumes run in
  let s := finalizeSandbox alive now
    (mkSandbox (SourceID source +:+ ":" +:+ RunOf run) (RunOf run) (RunSuite run) "" (RunProfile run) (SourceID source)
       (SourceLabel source) (SourceKind source) "" "" (RunStartedAt run) None 0 "" (negb owned) false no_usage cs ns vs []) in
  let kept := List.filter (fun w => negb (HasPrefix w "The orchestrator appears to be gone")) (Warnings s) in
  let warnings := if owned then kept else kept ++
    ["The control plane is not running this execution, but it still has resources on " +:+ SourceLabel source +:+ "."] in
  mkSandbox (SandboxID s) (RunID s) (Suite s) (Owner s) (Profile s) (Backend s) (BackendLabel s) (BackendKind s)
    (Status s) (Summary s) (StartedAt s) (LastHeartbeatAt s) (OrchestratorPID s) (if owned then "alive" else "gone")
    (IsZombie s) (CanReap s) (SandboxUsage s) (Containers s) (Networks s) (Volumes s) warnings.
Definition sourceSandboxes (source : Source) : string + list Sandbox :=
  match inventory_of source with
  | inl err => inl err
  | inr runs => inr (remoteSandbox source <$> List.filter (fun run => negb (bool_decide (RunOf run = ""))) runs)
  end.
Definition collectRemote : list Sandbox * list string :=
  (concat ((fun source => match sourceSandboxes source with inr l => l | inl _ => [] end) <$> sources),
   omap (fun source => match sourceSandboxes source with
                       | inl err => Some (SourceLabel source +:+ " (" +:+ SourceKind source +:+
                                      ") could not be inventoried: " +:+ err)
                       | inr _ => None
                       end) sources).

(** [Snapshot]; [collectStats] is given by its result on the containers. *)
Context (collectStats : list dockerContainer -> list (string * ResourceUsage) * list string).
Definition Snapshot : Inventory :=
  let found := collectResources in
  let '(own, statWarnings) :=
    if docker_up found then
      let '(stats, w) := collectStats (found_containers found) in
      (Sandboxes (buildInventory (found_containers found) (found_networks found) (found_volumes found) stats), w)
    else ([], []) in
  let '(remote, remoteWarnings) := collectRemote in
  let sandboxes := sortSandboxes (own ++ remote) in
  mkInventory (docker_up found) now (summarize sandboxes) sandboxes
    (compactStrings (found_warnings found ++ statWarnings ++ remoteWarnings)).

(** ** reap.go: the result, and the commands given to Docker and the runs
    given to backends *)
Inductive action := Docker (args : list string) | Reap (source run : string).
Inductive reap_error := SandboxNotFound | DockerDown | ReapFailed (text : string).
Definition remove_all (command : list string) (what : string) (ids : list string) : list string * list action :=
  match List.filter (fun x => negb (bool_decide (x = ""))) ids with
  | [] => ([], [])
  | kept =>
      (match docker (command ++ kept) with
       | inl err => [what +:+ " cleanup reported an error: " +:+ humanizeDockerError err]
       | inr _ => []
       end, [Docker (command ++ kept)])
  end.
Definition reapResources (scope target : string) (containers networks volumes : list string) : ReapResult * list action :=
  let '(w1, a1) := remove_all ["rm"; "-f"] "Container" containers in
  let '(w2, a2) := remove_all ["network"; "rm"] "Network" networks in
  let '(w3, a3) := remove_all ["volume"; "rm"; "-f"] "Volume" volumes in
  (mkReap scope target (len containers) (len networks) (len volumes) (compactStrings (w1 ++ w2 ++ w3)), a1 ++ a2 ++ a3).
Definition sourceFor (sandboxID : string) : option (Source * string) :=
  let '(sourceID, runID, found) := Cut sandboxID ":"%char in
  if negb found || bool_decide (runID = "") then None
  else (fun source => (source, runID)) <$> List.find (fun source => bool_decide (SourceID source = sourceID)) sources.
Definition reapRemote (source : Source) (runID sandboxID : string) : (reap_error + ReapResult) * list action :=
  match sourceSandboxes source with
  | inl err => (inl (ReapFailed err), [])
  | inr sandboxes =>
      match List.find (fun s => bool_decide (RunID s = runID)) sandboxes with
      | None => (inl SandboxNotFound, [])
      | Some s =>
          match reap_answer source runID with
          | Some err => (inl (ReapFailed (SourceLabel source +:+ " could not reap " +:+ runID +:+ ": " +:+ err)),
                         [Reap (SourceID source) runID])
          | None => (inr (mkReap "sandbox" sandboxID (len (Containers s)) (len (Networks s)) (len (Volumes s)) []),
                     [Reap (SourceID source) runID])
          end
      end
  end.
Definition ReapSandbox (sandboxID : string) : (reap_error + ReapResult) * list action :=
  let sandboxID := TrimSpace sandboxID in
  if bool_decide (sandboxID = "") then (inl SandboxNotFound, [])
  else match sourceFor sandboxID with
  | Some (source, runID) => reapRemote source runID sandboxID
  | None =>
      let found := collectResources in
      if negb (docker_up found) then (inl DockerDown, [])
      else
        let inventory := buildInventory (found_containers found) (found_networks found) (found_volumes found) [] in
        match List.find (fun s => bool_decide (SandboxID s = sandboxID)) (Sandboxes inventory) with
        | None => (inl SandboxNotFound, [])
        | Some s =>
            let '(result, actions) := reapResources "sandbox" sandboxID (ContainerID <$> Containers s)
                                        (NetworkID <$> Networks s) (VolumeName <$> Volumes s) in
            (inr result, actions)
        end
  end.
Definition add_result (result : ReapResult) (s : Sandbox) : ReapResult :=
  mkReap (ReapScope result) (ReapTarget result) (RemovedContainers result + len (Containers s))
    (RemovedNetworks result + len (Networks s)) (RemovedVolumes result + len (Volumes s)) (ReapWarnings result).
Definition add_warning (result : ReapResult) (text : string) : ReapResult :=
  mkReap (ReapScope result) (ReapTarget result) (RemovedContainers result) (RemovedNetworks result)
    (RemovedVolumes result) (ReapWarnings result ++ [text]).
Definition reap_run (source : Source) (acc : ReapResult * list action) (s : Sandbox) : ReapResult * list action :=
  let '(result, actions) := acc in
  (match reap_answer source (RunID s) with
   | Some err => add_warning result (SourceLabel source +:+ " could not reap " +:+ RunID s +:+ ": " +:+ err)
   | None => add_result result s
   end, actions ++ [Reap (SourceID source) (RunID s)]).
Definition reapAllRemote (result : ReapResult) : ReapResult * list action :=
  foldl (fun acc source =>
    match sourceSandboxes source with
    | inl err => (add_warning acc.1 (SourceLabel source +:+ " could not be inventoried: " +:+ err), acc.2)
    | inr sandboxes => foldl (reap_run source) acc sandboxes
    end) (result, []) sources.
Definition settle (result : ReapResult) : ReapResult :=
  mkReap (ReapScope result) (ReapTarget result) (RemovedContainers result) (RemovedNetworks result)
    (RemovedVolumes result) (compactStrings (ReapWarnings result)).
Definition ReapAll : (reap_error + ReapResult) * list action :=
  let found := collectResources in
  if negb (docker_up found) then
    if bool_decide (sources = []) then (inl DockerDown, [])
    else
      let '(result, actions) := reapAllRemote (mkReap "global" "all-managed-sandboxes" 0 0 0
        ["The control plane's Docker is unavailable; only remote backends were cleaned."]) in
      (inr (settle result), actions)
  else
    let '(result, own) := reapResources "global" "all-managed-sandboxes" (DID <$> found_containers found)
                            (NID <$> found_networks found) (VName <$> found_volumes found) in
    let '(result, remote) := reapAllRemote result in
    (inr (settle result), own ++ remote).
(** [writeManagerError]: the status of a reap that failed. *)
Definition reap_status (r : reap_error + ReapResult) : Z :=
  match r with inr _ => 200 | inl SandboxNotFound => 404 | inl DockerDown => 503 | inl (ReapFailed _) => 502 end.
End Inventory.

(** * Every resource is in the sandbox of its key *)
Definition with_key {A} (key : A -> string) (k : string) (l : list A) : list A :=
  List.filter (fun x => bool_decide (key x = k)) l.
Lemma with_key_app {A} (key : A -> string) k l x :
  with_key key k (l ++ [x]) = with_key key k l ++ (if bool_decide (key x = k) then [x] else []).
Proof. unfold with_key. rewrite List.filter_app. cbn. by destruct (bool_decide _). Qed.
Lemma with_key_none {A} (key : A -> string) k l : k ∉ (key <$> l) -> with_key key k l = [].
Proof.
  intros Hk. unfold with_key. apply elem_of_nil_inv. intros x [Hx E]%list_elem_of_In%filter_In. bool_to_prop. apply Hk.
  apply list_elem_of_fmap. exists x. split; [done|]. by apply list_elem_of_In.
Qed.

Section Grouping.
Context (time_Parse : string -> option Z) (stats : list (string * ResourceUsage)).

(** The sandboxes hold exactly these resources, each in the one of its key. *)
Record grouped (g : gmap string Sandbox) (cs : list dockerContainer) (ns : list dockerNetwork) (vs : list dockerVolume)
    : Prop := {
  group_id : forall k s, g !! k = Some s -> SandboxID s = k;
  group_containers : forall k s, g !! k = Some s -> Containers s = container_of stats <$> with_key container_key k cs;
  group_networks : forall k s, g !! k = Some s -> Networks s = network_of <$> with_key network_key k ns;
  group_volumes : forall k s, g !! k = Some s -> Volumes s = volume_of <$> with_key volume_key k vs;
  group_keys : forall k, is_Some (g !! k) <->
    k ∈ (container_key <$> cs) \/ k ∈ (network_key <$> ns) \/ k ∈ (volume_key <$> vs);
}.

(** What is known of the sandbox of a key before something is added to it. *)
Lemma ensured g cs ns vs l k : grouped g cs ns vs ->
  let s := hydrated time_Parse l k g in
  SandboxID s = k /\ Containers s = container_of stats <$> with_key container_key k cs /\
  Networks s = network_of <$> with_key network_key k ns /\ Volumes s = volume_of <$> with_key volume_key k vs.
Proof.
  intros [Hid Hc Hn Hv Hk]. unfold hydrated, ensureSandbox.
  cbn [SandboxID Containers Networks Volumes hydrateSandbox]. destruct (g !! k) as [s|] eqn:E; cbn [default].
  - split_and!; [by apply Hid|by apply Hc|by apply Hn|by apply Hv].
  - specialize (Hk k). rewrite E in Hk.
    assert (~ (k ∈ (container_key <$> cs) \/ k ∈ (network_key <$> ns) \/ k ∈ (volume_key <$> vs))) as Hnot.
    { intros H%Hk. by destruct H. }
    rewrite !with_key_none by tauto. done.
Qed.
Ltac placed Hg :=
  let k := fresh "k" in let s := fresh "s" in
  intros k s [[<- <-]|[? Hs]]%lookup_insert_Some;
  [|by rewrite ?with_key_app, ?bool_decide_eq_false_2, ?app_nil_r by done; destruct Hg; eauto].
Lemma grouped_container g cs ns vs c : grouped g cs ns vs ->
  grouped (place_container time_Parse stats g c) (cs ++ [c]) ns vs.
Proof.
  intros Hg. destruct (ensured g cs ns vs (DLabels c) (container_key c) Hg) as (Hid & Hc & Hn & Hv).
  unfold place_container. split.
  - placed Hg. done.
  - placed Hg. rewrite with_key_app, bool_decide_eq_true_2, fmap_app by done. cbn [Containers set_resources]. by rewrite Hc.
  - placed Hg. done.
  - placed Hg. done.
  - intros k. rewrite lookup_insert_is_Some', (group_keys _ _ _ _ Hg k), fmap_app. set_solver.
Qed.
Lemma grouped_network g cs ns vs c : grouped g cs ns vs -> grouped (place_network time_Parse g c) cs (ns ++ [c]) vs.
Proof.
  intros Hg. destruct (ensured g cs ns vs (NLabels c) (network_key c) Hg) as (Hid & Hc & Hn & Hv).
  unfold place_network. split.
  - placed Hg. done.
  - placed Hg. done.
  - placed Hg. rewrite with_key_app, bool_decide_eq_true_2, fmap_app by done. cbn [Networks set_resources]. by rewrite Hn.
  - placed Hg. done.
  - intros k. rewrite lookup_insert_is_Some', (group_keys _ _ _ _ Hg k), fmap_app. set_solver.
Qed.
Lemma grouped_volume g cs ns vs c : grouped g cs ns vs -> grouped (place_volume time_Parse g c) cs ns (vs ++ [c]).
Proof.
  intros Hg. destruct (ensured g cs ns vs (VLabels c) (volume_key c) Hg) as (Hid & Hc & Hn & Hv).
  unfold place_volume. split.
  - placed Hg. done.
  - placed Hg. done.
  - placed Hg. done.
  - placed Hg. rewrite with_key_app, bool_decide_eq_true_2, fmap_app by done. cbn [Volumes set_resources]. by rewrite Hv.
  - intros k. rewrite lookup_insert_is_Some', (group_keys _ _ _ _ Hg k), fmap_app. set_solver.
Qed.
Lemma group_all_grouped cs ns vs : grouped (group_all time_Parse cs ns vs stats) cs ns vs.
Proof.
  unfold group_all.
  assert (grouped (foldl (place_container time_Parse stats) ∅ cs) cs [] []) as Hc.
  { induction cs as [|c cs IH] using rev_ind.
    - cbn. split; try by intros k s; rewrite lookup_empty. intros k. rewrite lookup_empty. split; [by intros []|set_solver].
    - rewrite foldl_app. by apply grouped_container. }
  assert (grouped (foldl (place_network time_Parse) (foldl (place_container time_Parse stats) ∅ cs) ns) cs ns []) as Hn.
  { induction ns as [|n ns IH] using rev_ind; [done|]. rewrite foldl_app. by apply grouped_network. }
  induction vs as [|v vs IH] using rev_ind; [done|]. rewrite foldl_app. by apply grouped_volume.
Qed.
End Grouping.

(** * The inventory *)
Definition keys_of (cs : list dockerContainer) (ns : list dockerNetwork) (vs : list dockerVolume) (k : string) : Prop :=
  k ∈ (container_key <$> cs) \/ k ∈ (network_key <$> ns) \/ k ∈ (volume_key <$> vs).
(** The sandbox holds what has its key, and nothing else. *)
Definition holds_exactly (stats : list (string * ResourceUsage)) (cs : list dockerContainer) (ns : list dockerNetwork)
    (vs : list dockerVolume) (s : Sandbox) : Prop :=
  Containers s ≡ₚ (container_of stats <$> with_key container_key (SandboxID s) cs) /\
  Networks s ≡ₚ (network_of <$> with_key network_key (SandboxID s) ns) /\
  Volumes s ≡ₚ (volume_of <$> with_key volume_key (SandboxID s) vs).
Lemma inventory_partition time_Parse alive now cs ns vs stats :
  let ss := Sandboxes (buildInventory time_Parse alive now cs ns vs stats) in
  NoDup (SandboxID <$> ss) /\ (forall k, k ∈ (SandboxID <$> ss) <-> keys_of cs ns vs k) /\
  forall s, s ∈ ss -> holds_exactly stats cs ns vs s.
Proof.
  cbn zeta. unfold buildInventory. cbn [Sandboxes]. set (g := group_all time_Parse cs ns vs stats).
  pose proof (group_all_grouped time_Parse stats cs ns vs) as [Hid Hc Hn Hv Hk]. fold g in Hid, Hc, Hn, Hv, Hk.
  set (l := finished alive now <$> (map_to_list g).*2).
  assert (sortSandboxes l ≡ₚ l) as Hp by apply merge_sort_Permutation.
  assert (SandboxID <$> l = (map_to_list g).*1) as Hids.
  { unfold l. rewrite <- !list_fmap_compose. apply list_fmap_ext. intros i [k s] Hi. cbn.
    apply list_elem_of_lookup_2, elem_of_map_to_list in Hi. by apply Hid. }
  split_and!.
  - rewrite Hp, Hids. apply NoDup_fst_map_to_list.
  - intros k. rewrite Hp, Hids, list_elem_of_fmap. unfold keys_of. rewrite <- Hk. split.
    + intros ([k' s] & -> & Hi). apply elem_of_map_to_list in Hi. cbn. by rewrite Hi.
    + intros [s Hs]. exists (k, s). split; [done|]. by apply elem_of_map_to_list.
  - intros s. rewrite Hp. unfold l. intros (s0 & -> & Hin)%list_elem_of_fmap.
    apply list_elem_of_fmap in Hin as ([k s1] & -> & Hi). cbn [snd]. apply elem_of_map_to_list in Hi. unfold holds_exactly, finished, set_backend, finalizeSandbox.
    cbn [SandboxID Containers Networks Volumes]. rewrite !merge_sort_Permutation, (Hid k s1 Hi).
    by rewrite (Hc k s1 Hi), (Hn k s1 Hi), (Hv k s1 Hi).
Qed.

(** ** What a run labels is in the sandbox of the run *)
Lemma managed_key pid runID (extra : labels) kind fallback : extra !! Containers.labelRunID = None -> blank runID = false ->
  sandboxKey (Containers.managedLabels pid runID extra) kind fallback = runID.
Proof.
  intros He Hr. unfold sandboxKey, run_label. cbn [FirstNonEmpty].
  assert (label (Containers.managedLabels pid runID extra) "babelsuite.run_id" = runID) as ->.
  { unfold label, Containers.managedLabels. rewrite lookup_union_r; [done|]. apply map_lookup_filter_None. by left. }
  rewrite Hr. cbn [negb]. rewrite bool_decide_eq_false_2; [done|]. intros ->. by apply blank_false in Hr.
Qed.

(** ** Zombies *)
Definition running_in (s : Sandbox) : Z := count (fun c => bool_decide (State c = "running")) (Containers s).
Definition forsaken (alive : Z -> bool) (now : Z) (s : Sandbox) : Prop :=
  0 < OrchestratorPID s /\ alive (OrchestratorPID s) = false \/
  OrchestratorPID s <= 0 /\ exists t, LastHeartbeatAt s = Some t /\ 2 * minute < Sub now t.
Lemma count_perm {A} (p : A -> bool) l l' : l ≡ₚ l' -> count p l = count p l'.
Proof.
  intros H. unfold count. f_equal. induction H; cbn; [done| | |congruence].
  - destruct (p x); cbn; congruence.
  - by destruct (p x), (p y).
Qed.
(** A sandbox is a zombie when it is marked as one, or when containers still
    run that nobody looks after. *)
Lemma zombie_exact alive now s : IsZombie (finalizeSandbox alive now s) = true <->
  IsZombie s = true \/ 0 < running_in s /\ forsaken alive now s.
Proof.
  unfold finalizeSandbox. cbn [IsZombie]. rewrite orb_true_iff, andb_true_iff, orb_true_iff, Z.ltb_lt, !bool_decide_eq_true.
  rewrite (count_perm _ _ _ (merge_sort_Permutation (by_name ContainerName) (Containers s))). fold (running_in s).
  unfold forsaken. destruct (Z.ltb_spec 0 (OrchestratorPID s)).
  - destruct (alive (OrchestratorPID s)); naive_solver lia.
  - destruct (LastHeartbeatAt s) as [t|]; [|naive_solver lia].
    destruct (Z.ltb_spec (2 * minute) (Sub now t)); naive_solver lia.
Qed.

(** A sidecar carries no process and no heartbeat: it is a sandbox of its own
    and never a zombie. *)
Definition quiet_labels (l : labels) : Prop :=
  label l "babelsuite.orchestrator_pid" = "" /\ label l "babelsuite.zombie" = "" /\
  FirstNonEmpty [label l "babelsuite.last_heartbeat"; label l "babelsuite.heartbeat_at"] = "".
Lemma sidecar_labels_quiet pid suiteID profile : quiet_labels (Containers.sidecarLabels pid suiteID profile).
Proof.
  assert (forall key, key ∉ [Containers.labelManaged; Containers.labelRunID; Containers.labelSuite; Containers.labelProfile;
    "babelsuite.kind"] -> label (Containers.sidecarLabels pid suiteID profile) key = "") as H.
  { intros key Hk. unfold label, Containers.sidecarLabels, Containers.managedLabels.
    destruct (decide (key = Containers.labelOrchestratorPID)) as [->|Hne]; [by rewrite lookup_delete_eq|].
    rewrite lookup_delete_ne by done. rewrite lookup_union_r.
    - assert ((list_to_map [(Containers.labelManaged, "true"); (Containers.labelRunID, Containers.sidecarRunID suiteID profile);
        (Containers.labelOrchestratorPID, FormatInt pid)] : labels) !! key = None) as ->; [|done].
      apply not_elem_of_list_to_map_1. cbn. set_solver.
    - apply map_lookup_filter_None. left. apply not_elem_of_list_to_map_1. cbn. set_solver. }
  split_and!; [apply H; set_solver|apply H; set_solver|].
  by rewrite !H by set_solver.
Qed.
Definition quiet (s : Sandbox) : Prop := OrchestratorPID s = 0 /\ LastHeartbeatAt s = None /\ IsZombie s = false.
Lemma hydrate_quiet time_Parse l s : quiet_labels l -> quiet s -> quiet (hydrateSandbox time_Parse l s).
Proof.
  intros (Hp & Hz & Hh) (H1 & H2 & H3). unfold quiet, hydrateSandbox. cbn [OrchestratorPID LastHeartbeatAt IsZombie].
  rewrite H1, H2, H3, Hp, Hz, Hh. done.
Qed.
Lemma quiet_no_zombie alive now s : quiet s -> IsZombie (finalizeSandbox alive now s) = false.
Proof.
  intros (Hp & Hh & Hz). apply not_true_iff_false. rewrite zombie_exact. unfold forsaken. rewrite Hp, Hh, Hz.
  intros [?|[_ [[? _]|(_ & t & ? & _)]]]; [done|lia|done].
Qed.
Lemma sidecars_never_zombies time_Parse alive now stats cs :
  (forall c, c ∈ cs -> exists pid suiteID profile, DLabels c = Containers.sidecarLabels pid suiteID profile) ->
  forall s, s ∈ Sandboxes (buildInventory time_Parse alive now cs [] [] stats) -> IsZombie s = false.
Proof.
  intros Hcs s. unfold buildInventory, group_all. cbn [Sandboxes foldl].
  assert (forall k s, foldl (place_container time_Parse stats) ∅ cs !! k = Some s -> quiet s) as Hquiet.
  { induction cs as [|c cs IH] using rev_ind; [intros k s0; cbn; by rewrite lookup_empty|].
    intros k s0. rewrite foldl_app. cbn [foldl]. set (g := foldl _ _ cs) in *.
    assert (forall k s, g !! k = Some s -> quiet s) as IH' by (apply IH; intros c' Hc'; apply Hcs; set_solver).
    unfold place_container. intros [[<- <-]|[_ Hs]]%lookup_insert_Some; [|by eapply IH'].
    destruct (Hcs c ltac:(set_solver)) as (pid & suiteID & profile & ->).
    apply (hydrate_quiet time_Parse _ (ensureSandbox g (container_key c)) (sidecar_labels_quiet pid suiteID profile)).
    unfold ensureSandbox. destruct (g !! container_key c) eqn:E; [by eapply IH'|done]. }
  unfold sortSandboxes. rewrite merge_sort_Permutation.
  intros (s0 & -> & Hin)%list_elem_of_fmap. apply list_elem_of_fmap in Hin as ([k s1] & -> & Hi).
  apply elem_of_map_to_list in Hi. cbn [snd]. by apply quiet_no_zombie, (Hquiet k).
Qed.

(** * Reaping *)
Lemma index_split c l i : index_bytes c l = Some i -> l = take i l ++ c :: drop (S i) l.
Proof.
  revert i. induction l as [|x l IH]; intros i; [done|]. cbn [index_bytes]. case_bool_decide as E.
  - intros [= <-]. by rewrite E.
  - destruct (index_bytes c l) as [j|]; [|done]. intros [= <-]. cbn. f_equal. by apply IH.
Qed.
Lemma Cut_found s c a b : Cut s c = (a, b, true) -> s = a +:+ String c "" +:+ b.
Proof.
  unfold Cut. destruct (index_bytes c (of_string s)) as [i|] eqn:Ei; [|done]. intros [= <- <-].
  rewrite <- (to_of s) at 1. rewrite (index_split _ _ _ Ei) at 1.
  rewrite <- (to_of (_ +:+ _ +:+ _)). f_equal. by rewrite !of_string_app, !of_to.
Qed.
Lemma index_bytes_notin c l i : index_bytes c l = Some i -> c ∉ take i l.
Proof.
  revert i. induction l as [|x l IH]; intros i; [done|]. cbn [index_bytes]. case_bool_decide as E.
  - intros [= <-]. apply not_elem_of_nil.
  - destruct (index_bytes c l) as [j|]; [|done]. intros [= <-]. cbn. apply not_elem_of_cons.
    split; [congruence|by apply IH].
Qed.
Lemma index_bytes_first c a b : c ∉ a -> index_bytes c (a ++ c :: b) = Some (length a).
Proof.
  induction a as [|x a IH]; cbn [app index_bytes length]; intros Hc.
  - by rewrite bool_decide_eq_true_2.
  - apply not_elem_of_cons in Hc as [Hx Ha]. rewrite bool_decide_eq_false_2 by congruence. by rewrite IH.
Qed.
(** [strings.Cut] cuts at the first separator. *)
Lemma Cut_iff s c a b : Cut s c = (a, b, true) <-> s = a +:+ String c "" +:+ b /\ c ∉ of_string a.
Proof.
  split.
  - intros H. split; [by apply Cut_found|]. unfold Cut in H.
    destruct (index_bytes c (of_string s)) as [i|] eqn:Ei; [|done]. injection H as <- <-.
    rewrite of_to. by apply index_bytes_notin.
  - intros [-> Hc]. unfold Cut. rewrite !of_string_app. cbn [of_string app].
    change (of_string (String c "")) with [c]. cbn [app].
    rewrite index_bytes_first by done. rewrite take_app_length.
    replace (S (length (of_string a))) with (length (of_string a) + 1)%nat by lia.
    rewrite drop_app_add. rewrite (skipn_cons 0), skipn_0. by rewrite !to_of.
Qed.
(** [List.find] answers with the first. *)
Lemma find_first {A} (p : A -> bool) l x : List.find p l = Some x <->
  exists before after, l = before ++ x :: after /\ p x = true /\ Forall (fun y => p y = false) before.
Proof.
  induction l as [|y l IH]; cbn [List.find].
  { split; [done|]. by intros ([|] & ? & ? & _). }
  destruct (p y) eqn:Hy.
  - split; [intros [= <-]; by exists [], l|]. intros ([|z before] & after & [= -> ->] & Hx & Hb); [done|].
    apply Forall_cons in Hb as [Hz _]. congruence.
  - rewrite IH. split.
    + intros (before & after & -> & Hx & Hb). exists (y :: before), after. by repeat constructor.
    + intros ([|z before] & after & [= -> ->] & Hx & Hb); [congruence|]. apply Forall_cons in Hb as [_ Hb]. eauto.
Qed.
Section Reaping.
Context (time_Parse : string -> option Z) (alive : Z -> bool) (now : Z) (docker : list string -> docker_error + string)
  (decode_containers : string -> string + list dockerContainerInspect)
  (decode_networks : string -> string + list dockerNetwork) (decode_volumes : string -> string + list dockerVolume)
  (sources : list Source) (runOwned : string -> bool).
Notation found := (collectResources time_Parse docker decode_containers decode_networks decode_volumes).
Notation reap := (ReapSandbox time_Parse alive now docker decode_containers decode_networks decode_volumes sources runOwned).

Definition non_empty (ids : list string) : list string := List.filter (fun x => negb (bool_decide (x = ""))) ids.
(** The commands that remove these resources. *)
Definition removal (command : list string) (ids : list string) : list action :=
  match non_empty ids with [] => [] | kept => [Docker (command ++ kept)] end.
Definition removals (containers networks volumes : list string) : list action :=
  removal ["rm"; "-f"] containers ++ removal ["network"; "rm"] networks ++ removal ["volume"; "rm"; "-f"] volumes.
Lemma remove_all_actions command what ids : (remove_all docker command what ids).2 = removal command ids.
Proof using Type. unfold remove_all, removal. fold (non_empty ids). by destruct (non_empty ids). Qed.
Lemma reapResources_actions scope target cs ns vs :
  (reapResources docker scope target cs ns vs).2 = removals cs ns vs /\
  exists warnings, (reapResources docker scope target cs ns vs).1 = mkReap scope target (len cs) (len ns) (len vs) warnings.
Proof using Type.
  unfold reapResources, removals. pose proof (remove_all_actions ["rm"; "-f"] "Container" cs) as H1.
  pose proof (remove_all_actions ["network"; "rm"] "Network" ns) as H2.
  pose proof (remove_all_actions ["volume"; "rm"; "-f"] "Volume" vs) as H3.
  destruct (remove_all _ _ _ cs) as [w1 a1], (remove_all _ _ _ ns) as [w2 a2], (remove_all _ _ _ vs) as [w3 a3].
  cbn in *. split; [congruence|eauto].
Qed.

(** An id that names a run of a backend: up to the first colon the id of a
    source, the first one with that id, and the run after it. *)
Definition of_backend (id : string) (source : Source) (runID : string) : Prop :=
  id = SourceID source +:+ ":" +:+ runID /\ ":"%char ∉ of_string (SourceID source) /\ runID <> "" /\
  exists before after, sources = before ++ source :: after /\
    Forall (fun s => SourceID s <> SourceID source) before.
(** What reaping a run of a backend did: the backend was asked for its runs; if
    it listed this one it was told to reap it, once, and the answer is its
    answer. *)
Definition remote_verdict (id : string) (source : Source) (runID : string)
    (outcome : (reap_error + ReapResult) * list action) : Prop :=
  match inventory_of source with
  | inl err => outcome = (inl (ReapFailed err), [])
  | inr runs =>
      match List.find (fun run => bool_decide (RunOf run = runID)) runs with
      | None => outcome = (inl SandboxNotFound, [])
      | Some run =>
          outcome.2 = [Reap (SourceID source) runID] /\
          outcome.1 =
            match reap_answer source runID with
            | Some err => inl (ReapFailed (SourceLabel source +:+ " could not reap " +:+ runID +:+ ": " +:+ err))
            | None => inr (mkReap "sandbox" id (len (RunContainers run)) (len (RunNetworks run))
                             (len (RunVolumes run)) [])
            end
      end
  end.
(** What reaping a sandbox of the host did: nothing when there was nothing to
    remove, or else the removal of the resources with the key. *)
Definition local_verdict (id : string) (outcome : (reap_error + ReapResult) * list action) : Prop :=
  match outcome.1 with
  | inl SandboxNotFound => outcome.2 = [] /\ (id = "" \/ docker_up found = true /\
      ~ keys_of (found_containers found) (found_networks found) (found_volumes found) id)
  | inl DockerDown => outcome.2 = [] /\ docker_up found = false
  | inl (ReapFailed _) => False
  | inr result => docker_up found = true /\ exists cs ns vs, outcome.2 = removals cs ns vs /\
      cs ≡ₚ (DID <$> with_key container_key id (found_containers found)) /\
      ns ≡ₚ (NID <$> with_key network_key id (found_networks found)) /\
      vs ≡ₚ (VName <$> with_key volume_key id (found_volumes found)) /\
      ReapTarget result = id /\ RemovedContainers result = len cs /\ RemovedNetworks result = len ns /\
      RemovedVolumes result = len vs
  end.
Definition reap_verdict (id : string) (outcome : (reap_error + ReapResult) * list action) : Prop :=
  (forall source runID, of_backend id source runID -> remote_verdict id source runID outcome) /\
  ((forall source runID, ~ of_backend id source runID) -> local_verdict id outcome).

Lemma sourceFor_iff id source runID :
  sourceFor sources id = Some (source, runID) <-> of_backend id source runID.
Proof using Type.
  unfold sourceFor, of_backend. pose proof (Cut_iff id ":"%char) as Hcut.
  destruct (Cut id ":"%char) as [[a b] cut]. split.
  - destruct cut; [|done]. cbn [negb orb]. case_bool_decide as Hb; [done|].
    destruct (List.find _ sources) as [s|] eqn:Ef; [|done]. cbn. intros [= <- <-].
    apply find_first in Ef as (before & after & Hs & E & Hbefore). apply bool_decide_eq_true in E. subst a.
    destruct (proj1 (Hcut _ _) eq_refl) as [-> Hc]. split; [done|]. split; [done|]. split; [done|].
    exists before, after. split; [done|]. eapply Forall_impl; [exact Hbefore|].
    intros x Hx. by apply bool_decide_eq_false in Hx.
  - intros (-> & Hc & Hrun & before & after & Hs & Hbefore).
    pose proof (proj2 (Hcut (SourceID source) runID) (conj eq_refl Hc)) as [= -> -> ->].
    cbn [negb orb]. rewrite bool_decide_eq_false_2 by done.
    rewrite (proj2 (find_first _ sources source)); [done|]. exists before, after. split; [done|].
    split; [by apply bool_decide_eq_true|]. eapply Forall_impl; [exact Hbefore|].
    intros x Hx. by apply bool_decide_eq_false.
Qed.

Lemma remoteSandbox_counts source run :
  let s := remoteSandbox alive now runOwned source run in
  RunID s = RunOf run /\ len (Containers s) = len (RunContainers run) /\
  len (Networks s) = len (RunNetworks run) /\ len (Volumes s) = len (RunVolumes run).
Proof using Type.
  cbn. unfold len. rewrite !merge_sort_Permutation, !length_fmap. done.
Qed.

Lemma find_listed source runID runs : runID <> "" ->
  List.find (fun s => bool_decide (RunID s = runID))
    (remoteSandbox alive now runOwned source <$>
       List.filter (fun run => negb (bool_decide (RunOf run = ""))) runs)
  = remoteSandbox alive now runOwned source <$> List.find (fun run => bool_decide (RunOf run = runID)) runs.
Proof using Type.
  intros Hrun. induction runs as [|run runs IH]; [done|]. cbn [List.filter List.find].
  destruct (bool_decide_reflect (RunOf run = "")) as [He|He]; cbn [negb].
  - rewrite IH. by rewrite bool_decide_eq_false_2 by congruence.
  - rewrite fmap_cons. cbn [List.find]. rewrite IH. change (RunID (remoteSandbox _ _ _ _ run)) with (RunOf run).
    by case_bool_decide.
Qed.

Lemma reapRemote_verdict id source runID : runID <> "" ->
  remote_verdict id source runID (reapRemote alive now runOwned source runID id).
Proof using Type.
  intros Hrun. unfold remote_verdict, reapRemote, sourceSandboxes.
  destruct (inventory_of source) as [err|runs]; [done|]. rewrite find_listed by done.
  destruct (List.find _ runs) as [run|]; cbn [fmap option_fmap option_map]; [|done].
  destruct (remoteSandbox_counts source run) as (_ & -> & -> & ->).
  by destruct (reap_answer source runID).
Qed.

(** C36: reaping one sandbox of the host gives Docker exactly the removal of the
    containers, networks and volumes whose labels put them in that sandbox,
    and reports as many; reaping a run of a backend tells that backend to reap
    that run, when it lists it, and nothing else, and answers what the backend
    answered; a reap that finds nothing, or no Docker, removes nothing. *)
Theorem reap_exact sandboxID : reap_verdict (TrimSpace sandboxID) (reap sandboxID).
Proof using Type.
  unfold ReapSandbox. set (sid := TrimSpace sandboxID). split.
  - intros source runID Hof. pose proof Hof as (Hid & _ & Hrun & _). rewrite bool_decide_eq_false_2.
    + rewrite (proj2 (sourceFor_iff sid source runID) Hof). by apply reapRemote_verdict.
    + intros H. rewrite H in Hid. by destruct (SourceID source).
  - intros Hno. unfold local_verdict. destruct (bool_decide (sid = "")) eqn:E0; bool_to_prop.
    { rewrite E0. cbn. by split; [|left]. }
    destruct (sourceFor sources sid) as [[source runID]|] eqn:Es; [by apply sourceFor_iff, Hno in Es|].
    destruct (docker_up found) eqn:Eu; cbn [negb]; [|done]. set (f := found) in *.
    destruct (inventory_partition time_Parse alive now (found_containers f) (found_networks f) (found_volumes f) [])
      as (_ & Hkeys & Hholds). set (ss := Sandboxes _) in *.
    destruct (List.find _ ss) as [s|] eqn:Ef.
    + apply List.find_some in Ef as [Hin E]. bool_to_prop. destruct (Hholds s) as (Hc & Hn & Hv); [by apply list_elem_of_In|].
      rewrite E in Hc, Hn, Hv.
      destruct (reapResources_actions "sandbox" sid (ContainerID <$> Containers s) (NetworkID <$> Networks s)
        (VolumeName <$> Volumes s)) as [Ha [w Hr]].
      destruct (reapResources _ _ _ _ _ _) as [result actions]. cbn [fst snd] in *. subst actions result.
      split; [done|]. eexists _, _, _. split; [done|]. split_and!; try done.
      * rewrite Hc, <- list_fmap_compose. done.
      * rewrite Hn, <- list_fmap_compose. done.
      * rewrite Hv, <- list_fmap_compose. done.
    + cbn [fst snd]. split; [done|]. right. split; [done|]. rewrite <- Hkeys. intros (s & Hid & Hs)%list_elem_of_fmap.
      pose proof (List.find_none _ _ Ef s (proj1 (list_elem_of_In _ _) Hs)) as Hf. cbn in Hf. bool_to_prop. done.
Qed.
End Reaping.

(** * Examples and findings *)
Definition no_overflow (f : float64) : Z := 0.
Example sizes_ex :
  (parseMemoryUsage no_overflow "1.5GiB / 2 gb", parseHumanSize no_overflow "12KB", parseHumanSize no_overflow "1.b",
   parseHumanSize no_overflow "3 MIB ") = (1610612736, 2000000000, 12000, 0, 3145728).
Proof. vm_compute. reflexivity. Qed.
(** Petabytes are recognized and counted as bytes. *)
Example petabytes_are_bytes : parseHumanSize no_overflow "2PiB" = 2 /\ parseHumanSize no_overflow "2TiB" = 2199023255552.
Proof. split; vm_compute; reflexivity. Qed.
Example parse_ex :
  (parseInt " -12 ", parseInt "12a", parseInt "99999999999999999999", slugify " My_DB--v1 ", slugify "--",
   splitLines ("a" +:+ to_string [byte_of 13; byte_of 10] +:+ "  " +:+ to_string [byte_of 10] +:+ "b"),
   compactStrings ["x"; " x"; ""; "y"], labelIsTrue " YES ",
   formatPorts [("80/tcp", [("0.0.0.0", "8080"); ("", "")]); ("53/udp", [])]) =
  (-12, 0, int64_max, "my-db-v1", "unknown", ["a"; "b"], ["x"; "y"], true, ["53/udp"; "80/tcp"; "8080 -> 80/tcp"]).
Proof. vm_compute. reflexivity. Qed.

(** A removal that fails is reported as if it had removed everything. *)
Definition one_container (args : list string) : docker_error + string :=
  if bool_decide (args = ["ps"; "-aq"; "--filter"; "label=babelsuite.managed=true"]) then inr "c1"
  else if bool_decide (args = ["inspect"; "c1"]) then inr "c1"
  else if bool_decide (head args = Some "rm") then inl (OtherError "exit status 1: permission denied")
  else inr "".
Definition inspect_one (text : string) : string + list dockerContainerInspect :=
  inr [mkInspect "c1" "/db" "postgres" {[ "babelsuite.run_id" := "run-1" ]} "running" "" 0 []].
Example failed_removal_counts :
  ReapSandbox (fun _ => None) (fun _ => true) 0 one_container inspect_one (fun _ => inr []) (fun _ => inr []) []
    (fun _ => false) "run-1" =
  (inr (mkReap "sandbox" "run-1" 1 0 0 ["Container cleanup reported an error: exit status 1: permission denied"]),
   [Docker ["rm"; "-f"; "c1"]]).
Proof. vm_compute. reflexivity. Qed.

End Environments.
