(* ===== verification/StepInputs.v ===== *)
(** What one step is given, [src/backend/internal/execution] runtime.go (the
    body of [runNode]) and mock_reset.go: the request to the backend with the
    content of the step's file, the addresses of the gateway and the ports it
    publishes, the configuration of a plugin, and the mocks that are reset
    before a test.

    The steps come from Imports and Topology, the environment from
    ProfileRuntime, the host names from NetworkPlan; the mocks are the service
    of MockService.  Docker's answer about the sidecar and the ports a backend
    reports are arguments. *)
From Stdlib Require Import ZArith Lia Ascii.
From S2P Require Import Prelude GoStrings Topology TopologyOrder Suites Imports NetworkPlan Flow StarNode LoadPlan Values MockTypes MockService Runner Containers ProfileRuntime Launch.
Import GoStrings Topology TopologyOrder.

Module StepInputs.

(** ** Data *)

(** What stands behind the field [Body] of a step. *)
Module Body.
Record StepBody := mk {
  Load : option LoadPlan.Spec.LoadSpec; Security : option Runner.SecuritySpec;
  Plugin : option Runner.PluginSpec; Message : string; Harden : bool; Image : string; File : string;
  Commands : list string; Evaluation : option StarNode.StepEvaluation;
  ArtifactExports : list Runner.ArtifactExport }.
End Body.
Notation StepBody := Body.StepBody.

(** The suite of an execution after its resolution. *)
Record RunningSuite := mkRunning {
  Definition_ : Suites.SuiteDefinition;
  Nodes : list TopologyNode;
  ResolvedDependencies : list Imports.Dep.ResolvedDependency;
}.
Definition suite_id (suite : RunningSuite) : string := Suites.SuiteID (Definition_ suite).

Section Steps.
Context (body : handle -> StepBody).
Definition body_of (node : TopologyNode) : StepBody := body (Topology.Body node).

(** ** The content of a step's file *)
Definition owner_of (node : TopologyNode) (suite : RunningSuite) : string :=
  FirstNonEmpty [SourceSuiteID node; suite_id suite].
Definition nodeSourceFiles (node : TopologyNode) (suite : RunningSuite) : list Suites.SourceFile :=
  let owner := owner_of node suite in
  if bool_decide (owner = suite_id suite) then Suites.SourceFiles (Definition_ suite)
  else
    match List.find (fun d => bool_decide (Imports.Dep.SuiteID d = owner) &&
                              negb (bool_decide (Imports.Dep.SourceFiles d = [])))
                    (ResolvedDependencies suite) with
    | Some d => Imports.Dep.SourceFiles d
    | None => Suites.SourceFiles (Definition_ suite)
    end.
Definition candidates (file : string) : list string := [file; "tasks/" +:+ file; "tests/" +:+ file].
Definition resolveNodeFileContent (node : TopologyNode) (suite : RunningSuite) : string :=
  let file := Body.File (body_of node) in
  if bool_decide (file = "") then ""
  else match List.find (fun sf => bool_decide (Suites.Path sf ∈ candidates file)) (nodeSourceFiles node suite) with
       | Some sf => Suites.Content sf
       | None => ""
       end.

(** ** The gateway *)
Definition gateway_kinds : list string := ["mock"; "traffic"; "security"; "plugin"].
Definition sidecarNeeded (suite : RunningSuite) : bool :=
  existsb (fun n => bool_decide (Kind n ∈ gateway_kinds)) (Nodes suite).
Definition mock_nodes (suite : RunningSuite) : list TopologyNode :=
  List.filter (fun n => bool_decide (Kind n = "mock")) (Nodes suite).
Definition sanitizeContainerID (id : string) : string := Containers.sanitizeID id.
Definition gateway_host (executionID : string) (node : TopologyNode) : string :=
  "babel-" +:+ sanitizeContainerID executionID +:+ "-" +:+ sanitizeContainerID (ID node).
(** [sidecar] is [runner.SuiteSidecarURL]. *)
Definition resolveGatewayURLs (sidecar : string -> string -> string) (executionID : string)
    (suite : RunningSuite) (profile : string) : list string :=
  if negb (sidecarNeeded suite) then []
  else
    let url := sidecar (suite_id suite) profile in
    if negb (bool_decide (url = "")) then
      match mock_nodes suite with
      | [] => [url]
      | mocks => (fun _ => url) <$> mocks
      end
    else (fun n => "http://" +:+ gateway_host executionID n +:+ ":9080") <$> mock_nodes suite.
Definition resolveGatewayURL (sidecar : string -> string -> string) (executionID : string)
    (suite : RunningSuite) (profile : string) : string :=
  match resolveGatewayURLs sidecar executionID suite profile with [] => "" | url :: _ => url end.

(** ** References to other steps in the configuration of a plugin *)

(** A text in pieces: the matches of [pluginHostPortPattern], a host, a colon
    and two to five digits, and what is between them. *)
Inductive piece := Plain (text : bytes) | Ref (host port : bytes).
Definition host_char (c : ascii) : bool :=
  cont 97 122 c || cont 65 90 c || cont 48 57 c || bool_decide (c ∈ ["_"; "."; "-"]%char).
Definition digit (c : ascii) : bool := cont 48 57 c.
Fixpoint span (p : ascii -> bool) (l : bytes) : bytes * bytes :=
  match l with
  | c :: l' => if p c then let '(run, rest) := span p l' in (c :: run, rest) else ([], l)
  | [] => ([], [])
  end.
(** A host is a longest run: it ends at the colon, which is none of its bytes. *)
Fixpoint pieces (fuel : nat) (l : bytes) : list piece :=
  match fuel with
  | O => []
  | S fuel =>
      let '(host, rest) := span host_char l in
      match rest with
      | [] => [Plain host]
      | c :: rest =>
          let port := take 5 (span digit rest).1 in
          if bool_decide (c = ":"%char) && negb (bool_decide (host = [])) && (2 <=? Z.of_nat (length port)) then
            Ref host port :: pieces fuel (drop (length port) rest)
          else Plain (host ++ [c]) :: pieces fuel rest
      end
  end.
Definition pluginHostPortPattern (s : string) : list piece :=
  pieces (S (String.length s)) (of_string s).
Definition piece_text (p : piece) : bytes :=
  match p with Plain text => text | Ref host port => host ++ ":"%char :: port end.

(** The strings of a configuration that is a map, in the order of its [range]. *)
Definition config_entries (config : Values.any) : option (list (string * Values.any)) :=
  match config with
  | Values.AMap entries => Some entries
  | Values.ANilMap => Some []
  | _ => None
  end.
Definition config_strings (config : Values.any) : list string :=
  omap (fun e => match e.2 with Values.AString s => Some s | _ => None end) (default [] (config_entries config)).
Definition container_port (port : bytes) : string := to_string port +:+ "/tcp".
Definition add_port (names : gset string) (refs : gmap string (list string)) (p : piece) : gmap string (list string) :=
  match p with
  | Plain _ => refs
  | Ref host port =>
      let host := to_string host in
      if negb (bool_decide (host ∈ names)) then refs
      else
        let existing := default [] (refs !! host) in
        if bool_decide (container_port port ∈ existing) then refs
        else <[host := existing ++ [container_port port]]> refs
  end.
Definition config_pieces (node : TopologyNode) : list piece :=
  match Body.Plugin (body_of node) with
  | None => []
  | Some spec => mjoin (pluginHostPortPattern <$> config_strings (Runner.Plugin.Config spec))
  end.
Definition node_names (suite : RunningSuite) : gset string := list_to_set (Name <$> Nodes suite).
Definition pluginHostPortRefs (suite : RunningSuite) : gmap string (list string) :=
  foldl (add_port (node_names suite)) ∅ (mjoin (config_pieces <$> Nodes suite)).

(** [HostPort] of a backend that is a [runner.HostPortResolver]. *)
Definition resolver := string -> string -> string -> string.
Definition nodeIDByName (suite : RunningSuite) : gmap string string :=
  foldl (fun m n => <[Name n := ID n]> m) ∅ (Nodes suite).
Definition rewrite_piece (executionID : string) (suite : RunningSuite) (HostPort : resolver) (p : piece) : bytes :=
  match p with
  | Plain text => text
  | Ref host port =>
      match nodeIDByName suite !! to_string host with
      | None => piece_text p
      | Some nodeID =>
          let hostPort := HostPort executionID nodeID (container_port port) in
          if bool_decide (hostPort = "") then piece_text p
          else of_string ("host.docker.internal:" +:+ hostPort)
      end
  end.
Definition rewrite_text (executionID : string) (suite : RunningSuite) (HostPort : resolver) (s : string) : string :=
  to_string (mjoin (rewrite_piece executionID suite HostPort <$> pluginHostPortPattern s)).
Definition rewrite_value (executionID : string) (suite : RunningSuite) (HostPort : resolver) (v : Values.any) : Values.any :=
  match v with Values.AString s => Values.AString (rewrite_text executionID suite HostPort s) | _ => v end.
Definition rewritePluginConfigForHostAccess (executionID : string) (suite : RunningSuite)
    (backend : option resolver) (spec : option Runner.PluginSpec) : option Runner.PluginSpec :=
  match spec, backend with
  | Some spec, Some HostPort =>
      match config_entries (Runner.Plugin.Config spec) with
      | Some entries =>
          Some (Runner.Plugin.mk (Runner.Plugin.Name spec) (Runner.Plugin.Op spec)
            (Values.AMap (prod_map id (rewrite_value executionID suite HostPort) <$> entries)))
      | None => Some spec
      end
  | _, _ => spec
  end.

(** ** The request to the backend *)
Definition ExecutionLease : Z := 8 * second.

(** The state [runNode] reads: the flow, the records of the launches, the
    overlays of the profiles, the host names of the execution and the plugins
    that are registered. *)
Record surroundings := mkSurroundings {
  Running : Flow.Service;
  Records : gmap string Launch.LaunchRecord;
  Overlays : gmap string ProfileRuntime.executionRuntimeOverlay;
  networkPlan : NetworkPlan.networkPlan;
  RegisteredPlugins : list Runner.CustomPlugin;
}.
Definition recorded (field : Launch.LaunchRecord -> string) (env : surroundings) (executionID : string) : string :=
  default "" (field <$> Records env !! executionID).
Definition executionTrigger := recorded Launch.RecordTrigger.
Definition executionBackendID := recorded Launch.RecordBackendID.
Definition executionBackendLabel := recorded Launch.RecordBackend.

Definition step_node (env : surroundings) (executionID : string) (suite : RunningSuite) (node : TopologyNode)
    : Runner.StepNode :=
  let b := body_of node in
  Runner.Node.mk (ID node) (Name node) (Kind node) (Variant node) (Body.Image b) (Body.Message b) (Body.File b)
    (Body.Commands b) (resolveNodeFileContent node suite)
    (ProfileRuntime.resolveNodeDevices (Overlays env) executionID node)
    (ProfileRuntime.resolveNodeMemory (Overlays env) executionID node)
    (ProfileRuntime.resolveNodeCPU (Overlays env) executionID node) (DependsOn node).
(** [kind] is the kind of the backend; [sidecar] and [backend] as above. *)
Definition step_spec (env : surroundings) (executionID : string) (suite : RunningSuite) (profile kind : string)
    (sidecar : string -> string -> string) (backend : option resolver) (node : TopologyNode) : Runner.StepSpec :=
  let b := body_of node in
  let d := Definition_ suite in
  Runner.Step.mk executionID (suite_id suite) (Suites.Title d) (Suites.Repository d) profile
    (FirstNonEmpty [RuntimeProfile node; profile])
    (ProfileRuntime.resolveNodeRuntimeEnv (Overlays env) executionID node) (RuntimeHeaders node)
    (executionTrigger env executionID) (executionBackendID env executionID) (executionBackendLabel env executionID) kind
    (FirstNonEmpty [SourceSuiteID node; suite_id suite]) (FirstNonEmpty [SourceSuiteTitle node; Suites.Title d])
    (FirstNonEmpty [SourceRepository node; Suites.Repository d]) (FirstNonEmpty [SourceVersion node; Suites.Version d])
    (ResolvedRef node) (Digest node) (DependencyAlias node) (Order node) (Z.of_nat (length (Nodes suite)))
    (Flow.countHealthySteps (Running env) executionID) ExecutionLease (Body.Load b) (Body.Security b)
    (rewritePluginConfigForHostAccess executionID suite backend (Body.Plugin b)) (RegisteredPlugins env)
    (Body.Evaluation b) (OnFailure node) (Body.ArtifactExports b) true (step_node env executionID suite node) ""
    (NetworkPlan.aliasesForNode (networkPlan env) node (suite_id suite))
    (resolveGatewayURL sidecar executionID suite profile) (resolveGatewayURLs sidecar executionID suite profile)
    (default [] (pluginHostPortRefs suite !! Name node)).

(** ** The mocks reset before a test (mock_reset.go) *)
Inductive reset_error :=
  | TargetMissing (target : string)
  | TargetNotMock (target : string)
  | Resetter (e : MockService.GetError).
Definition reset_error_text (text : MockService.GetError -> string) (e : reset_error) : string :=
  let quoted s := Flow.quote +:+ s +:+ Flow.quote in
  match e with
  | TargetMissing target => "reset_mocks target " +:+ quoted target +:+ " was not found"
  | TargetNotMock target => "reset_mocks target " +:+ quoted target +:+ " is not a mock node"
  | Resetter e => text e
  end.
(** The loop over the targets: the suites seen so far and the names of the
    first mock of each, in the order of the targets. *)
Fixpoint target_loop (suite : RunningSuite) (targets : list string) (suiteIDs labels : list string)
    : reset_error + (list string * list string) :=
  match targets with
  | [] => inr (suiteIDs, labels)
  | target :: rest =>
      match Flow.topologyNodeByID (Nodes suite) target with
      | None => inl (TargetMissing target)
      | Some mockNode =>
          if negb (bool_decide (Kind mockNode = "mock")) then inl (TargetNotMock target)
          else
            let id := owner_of mockNode suite in
            if bool_decide (id ∈ suiteIDs) then target_loop suite rest suiteIDs labels
            else target_loop suite rest (suiteIDs ++ [id]) (labels ++ [Name mockNode])
      end
  end.
Definition resetMockSuiteTargets (suite : RunningSuite) (targets : list string)
    : reset_error + (list string * list string) :=
  check found := target_loop suite targets [] [] in
  inr (sort_strings found.1, sort_strings found.2).
Fixpoint reset_all (Get : string -> MockService.GetError + MockTypes.Suite.Definition_) (suiteIDs : list string)
    (mocks : MockService.Service) : option reset_error * MockService.Service :=
  match suiteIDs with
  | [] => (None, mocks)
  | id :: rest =>
      match MockService.ResetSuiteState Get mocks id with
      | (Some e, mocks) => (Some (Resetter e), mocks)
      | (None, mocks) => reset_all Get rest mocks
      end
  end.
Definition reset_event (now : Z) (flow : Flow.Service) (executionID : string) (node : TopologyNode)
    (labels : list string) : Flow.ExecutionEvent :=
  Flow.mkEvent (ID node +:+ "-reset-mocks") (ID node) (Flow.nextTimestamp flow executionID now)
    ("[" +:+ Name node +:+ "] Resetting mock state for " +:+ Join labels ", " +:+ " before the test starts.")
    Flow.stepStatusRunning "info".
(** [mockResetter]: the mock service over the suites it finds, [None] until
    [ConfigureMockResetter] is called.  The event goes out before the first
    reset. *)
Notation mockResetter := (option (string -> MockService.GetError + MockTypes.Suite.Definition_)).
Definition resetMockState (now : Z) (resetter : mockResetter) (flow : Flow.Service) (executionID : string) (suite : RunningSuite) (node : TopologyNode)
    (mocks : MockService.Service) : option reset_error * option Flow.ExecutionEvent * MockService.Service :=
  if bool_decide (ResetMocks node = []) then (None, None, mocks)
  else match resetter with
  | None => (None, None, mocks)
  | Some Get =>
      match resetMockSuiteTargets suite (ResetMocks node) with
      | inl e => (Some e, None, mocks)
      | inr ([], _) => (None, None, mocks)
      | inr (suiteIDs, labels) =>
          let '(err, mocks) := reset_all Get suiteIDs mocks in
          (err, Some (reset_event now flow executionID node labels), mocks)
      end
  end.

(** The middle of [runNode]: the backend is given the step when the mocks are
    reset, and not before. *)
Definition perform (now : Z) (resetter : mockResetter)
    (text : MockService.GetError -> string) (env : surroundings) (executionID : string) (suite : RunningSuite)
    (profile kind : string) (sidecar : string -> string -> string) (backend : option resolver)
    (Run : Runner.StepSpec -> Flow.run_result) (node : TopologyNode) (mocks : MockService.Service)
    : Flow.run_result * option Runner.StepSpec * option Flow.ExecutionEvent * MockService.Service :=
  let '(err, noted, mocks) := resetMockState now resetter (Running env) executionID suite node mocks in
  match err with
  | Some e => (Flow.ResetFailed (reset_error_text text e), None, noted, mocks)
  | None =>
      let spec := step_spec env executionID suite profile kind sidecar backend node in
      (Run spec, Some spec, noted, mocks)
  end.

(** * The ports of the steps a plugin talks to *)
Lemma span_spec p l : let '(run, rest) := span p l in
  l = run ++ rest /\ Forall (fun c => p c = true) run /\ (forall c, head rest = Some c -> p c = false).
Proof using Type.
  induction l as [|c l IH]; [done|]. cbn [span]. destruct (p c) eqn:E; [|by repeat split; [constructor|intros ? [= <-]]].
  destruct (span p l) as [run rest]. destruct IH as (-> & Hf & Hr). repeat split; [by constructor|done].
Qed.

(** The pieces are the text, and every reference is a match of the pattern. *)
Definition well_matched (p : piece) : Prop :=
  match p with
  | Plain _ => True
  | Ref host port =>
      host <> [] /\ Forall (fun c => host_char c = true) host /\
      (2 <= length port <= 5)%nat /\ Forall (fun c => digit c = true) port
  end.
Lemma text_cons p ps : mjoin (piece_text <$> p :: ps) = piece_text p ++ mjoin (piece_text <$> ps).
Proof using Type. done. Qed.
Lemma pieces_spec fuel : forall l, (length l < fuel)%nat ->
  mjoin (piece_text <$> pieces fuel l) = l /\ Forall well_matched (pieces fuel l).
Proof using Type.
  induction fuel as [|fuel IH]; intros l Hl; [lia|]. cbn [pieces].
  pose proof (span_spec host_char l) as Hs. destruct (span host_char l) as [host rest]. destruct Hs as (-> & Hhost & _).
  rewrite length_app in Hl. destruct rest as [|c rest]; [split; [by cbn; rewrite app_nil_r|by repeat constructor]|].
  cbn [length] in Hl. destruct (_ && _ && _) eqn:E.
  - bool_to_prop. subst c. pose proof (span_spec digit rest) as Hd. destruct (span digit rest) as [digits more].
    destruct Hd as (-> & Hd & _). cbn [fst] in *. set (port := take 5 digits) in *.
    assert (drop (length port) (digits ++ more) = drop 5 digits ++ more) as Hdrop.
    { subst port. rewrite length_take. destruct (decide (5 <= length digits)%nat).
      - rewrite Nat.min_l by lia. rewrite drop_app_le by lia. done.
      - rewrite Nat.min_r, drop_app_length by lia. by rewrite (drop_ge digits 5) by lia. }
    rewrite Hdrop. destruct (IH (drop 5 digits ++ more)) as [Ht Hf].
    { rewrite length_app, length_drop. rewrite length_app in Hl. lia. }
    split.
    + rewrite text_cons, Ht. cbn [piece_text]. rewrite <-!app_assoc. cbn [app]. rewrite (app_assoc port). subst port. by rewrite take_drop.
    + constructor; [|done]. cbn. split_and!; [done|done| | |].
      * lia.
      * subst port. rewrite length_take. lia.
      * by apply Forall_take.
  - destruct (IH rest) as [Ht Hf]; [lia|]. split; [|by constructor].
    rewrite text_cons, Ht. cbn [piece_text]. by rewrite <-app_assoc.
Qed.
Lemma pattern_spec s :
  mjoin (piece_text <$> pluginHostPortPattern s) = of_string s /\ Forall well_matched (pluginHostPortPattern s).
Proof using Type.
  apply pieces_spec. unfold of_string. enough (length (String.list_ascii_of_string s) = String.length s) by lia.
  induction s as [|c s IH]; [done|]. cbn. by rewrite IH.
Qed.

Lemma add_port_spec names refs pc h p :
  p ∈ default [] (add_port names refs pc !! h) <->
  p ∈ default [] (refs !! h) \/
  h ∈ names /\ exists host port, pc = Ref host port /\ h = to_string host /\ p = container_port port.
Proof using Type.
  destruct pc as [t|host port]; cbn [add_port].
  { split; [by left|]. by intros [?|(_ & ? & ? & ? & _)]. }
  destruct (bool_decide_reflect (to_string host ∈ names)) as [Hn|Hn]; cbn [negb].
  2:{ split; [by left|]. intros [?|(H & h0 & q0 & Hpc & Hh & _)]; [done|]. injection Hpc as <- <-. by subst h. }
  case_bool_decide as Hin.
  - split; [by left|]. intros [?|(_ & h0 & q0 & Hpc & Hh & Hp)]; [done|]. injection Hpc as <- <-. by subst h p.
  - destruct (decide (h = to_string host)) as [->|Hne].
    + rewrite lookup_insert_eq. cbn. rewrite elem_of_app, list_elem_of_singleton. split.
      * intros [?| ->]; [by left|]. right. eauto 6.
      * intros [?|(_ & h0 & q0 & Hpc & _ & Hp)]; [by left|]. injection Hpc as <- <-. by right.
    + rewrite lookup_insert_ne by done. split; [by left|]. intros [?|(_ & h0 & q0 & Hpc & ? & _)]; [done|]. injection Hpc as <- <-. done.
Qed.
Lemma add_port_NoDup names refs pc h :
  NoDup (default [] (refs !! h)) -> NoDup (default [] (add_port names refs pc !! h)).
Proof using Type.
  intros Hnd. destruct pc as [t|host port]; cbn [add_port]; [done|]. destruct (negb _); [done|].
  case_bool_decide as Hin; [done|]. destruct (decide (h = to_string host)) as [->|Hne].
  - rewrite lookup_insert_eq. cbn. apply NoDup_app. split_and!; [done| |apply NoDup_singleton].
    by intros x Hx ->%list_elem_of_singleton.
  - by rewrite lookup_insert_ne.
Qed.
Lemma add_ports_spec names ps : forall refs h,
  (NoDup (default [] (refs !! h)) -> NoDup (default [] (foldl (add_port names) refs ps !! h))) /\
  forall p, p ∈ default [] (foldl (add_port names) refs ps !! h) <->
    p ∈ default [] (refs !! h) \/
    h ∈ names /\ exists host port, Ref host port ∈ ps /\ h = to_string host /\ p = container_port port.
Proof using Type.
  induction ps as [|pc ps IH]; intros refs h; cbn [foldl].
  { split; [done|]. intros p. split; [by left|]. by intros [?|(_ & ? & ? & ?%not_elem_of_nil & _)]. }
  destruct (IH (add_port names refs pc) h) as [Hnd Hp]. split; [intros H; by apply Hnd, add_port_NoDup|].
  intros p. rewrite Hp, add_port_spec. setoid_rewrite elem_of_cons. naive_solver.
Qed.

(** The step a name stands for: the last one that has it. *)
Definition last_named (suite : RunningSuite) (name : string) (m : TopologyNode) : Prop :=
  exists l1 l2, Nodes suite = l1 ++ m :: l2 /\ Name m = name /\ Forall (fun n => Name n <> name) l2.
Lemma nodeIDByName_spec suite name : match nodeIDByName suite !! name with
  | Some id => exists m, last_named suite name m /\ ID m = id
  | None => Forall (fun n => Name n <> name) (Nodes suite)
  end.
Proof using Type.
  unfold nodeIDByName, last_named. induction (Nodes suite) as [|n l IH] using rev_ind; [cbn [foldl]; rewrite lookup_empty; by constructor|].
  rewrite foldl_app. cbn [foldl]. destruct (decide (Name n = name)) as [Hn|Hn].
  - rewrite Hn, lookup_insert_eq. exists n. split; [|done]. exists l, []. by repeat split.
  - rewrite lookup_insert_ne by done. destruct (foldl _ _ _ !! name) as [id|].
    + destruct IH as (m & (l1 & l2 & -> & Hm & Hf) & Hid). exists m. split; [|done]. exists l1, (l2 ++ [n]).
      rewrite <-app_assoc. split_and!; [done|done|]. apply Forall_app. by repeat constructor.
    + apply Forall_app. by repeat constructor.
Qed.

(** What becomes of a piece of a configuration text: it stays, except that a
    reference to a step whose port the backend reports is replaced. *)
Definition piece_rewritten (executionID : string) (suite : RunningSuite) (HostPort : resolver)
    (p : piece) (result : bytes) : Prop :=
  match p with
  | Plain text => result = text
  | Ref host port =>
      (Forall (fun n => Name n <> to_string host) (Nodes suite) /\ result = piece_text p) \/
      exists m, last_named suite (to_string host) m /\
        let hostPort := HostPort executionID (ID m) (container_port port) in
        result = if bool_decide (hostPort = "") then piece_text p
                 else of_string ("host.docker.internal:" +:+ hostPort)
  end.
Lemma rewrite_piece_spec executionID suite HostPort p :
  piece_rewritten executionID suite HostPort p (rewrite_piece executionID suite HostPort p).
Proof using Type.
  destruct p as [t|host port]; cbn [piece_rewritten rewrite_piece]; [done|].
  pose proof (nodeIDByName_spec suite (to_string host)) as H.
  destruct (nodeIDByName suite !! to_string host) as [id|]; [|by left]. destruct H as (m & Hm & <-). right. by exists m.
Qed.
(** A value of the configuration a plugin declares, and the one it is run with. *)
Definition value_rewritten (executionID : string) (suite : RunningSuite) (HostPort : resolver)
    (v v' : Values.any) : Prop :=
  match v with
  | Values.AString s => exists ps results,
      of_string s = mjoin (piece_text <$> ps) /\ Forall well_matched ps /\
      Forall2 (piece_rewritten executionID suite HostPort) ps results /\ v' = Values.AString (to_string (mjoin results))
  | _ => v' = v
  end.
Lemma rewrite_value_spec executionID suite HostPort v :
  value_rewritten executionID suite HostPort v (rewrite_value executionID suite HostPort v).
Proof using Type.
  destruct v; cbn [value_rewritten rewrite_value]; try done. destruct (pattern_spec s) as [Ht Hf].
  exists (pluginHostPortPattern s), (rewrite_piece executionID suite HostPort <$> pluginHostPortPattern s).
  split_and!; [done|done| |done]. apply Forall2_fmap_r, Forall_Forall2_diag, Forall_forall. intros p _. apply rewrite_piece_spec.
Qed.

(** The configurations of the plugins of a suite name the step [name] with the
    port [port]. *)
Definition named_with (suite : RunningSuite) (name port : string) : Prop :=
  exists node spec s host digits, node ∈ Nodes suite /\ Body.Plugin (body_of node) = Some spec /\
    s ∈ config_strings (Runner.Plugin.Config spec) /\ Ref host digits ∈ pluginHostPortPattern s /\
    name = to_string host /\ port = container_port digits.
Lemma refs_named suite name :
  NoDup (default [] (pluginHostPortRefs suite !! name)) /\
  forall port, port ∈ default [] (pluginHostPortRefs suite !! name) <->
    name ∈ node_names suite /\ named_with suite name port.
Proof using Type.
  unfold pluginHostPortRefs. destruct (add_ports_spec (node_names suite) (mjoin (config_pieces <$> Nodes suite)) ∅ name) as [Hnd Hp].
  rewrite lookup_empty in *. split; [apply Hnd, NoDup_nil_2|]. intros port. rewrite Hp. cbn [default].
  split; [intros [?%not_elem_of_nil|(Hn & host & digits & Hin & Hh & Hq)]; [done|]|].
  - split; [done|]. apply list_elem_of_join in Hin as (ps & Hin & (node & -> & Hnode)%list_elem_of_fmap).
    unfold config_pieces in Hin. destruct (Body.Plugin (body_of node)) as [spec|] eqn:Es; [|by apply not_elem_of_nil in Hin].
    apply list_elem_of_join in Hin as (ps & Hin & (s & -> & Hs)%list_elem_of_fmap).
    exists node, spec, s, host, digits. done.
  - intros (Hn & node & spec & s & host & digits & Hnode & Es & Hs & Hin & Hh & Hq). right. split; [done|].
    exists host, digits. split; [|done]. apply list_elem_of_join. exists (config_pieces node).
    split; [|by apply list_elem_of_fmap_2]. unfold config_pieces. rewrite Es. apply list_elem_of_join.
    exists (pluginHostPortPattern s). split; [done|by apply list_elem_of_fmap_2].
Qed.

(** C12: The ports a step publishes to the host are exactly the ones the
    configurations of the suite's plugins name it with, once each; a plugin is
    run with the configuration it declares, except that every reference
    host:port to a step of the suite is replaced where the backend reports a
    port for it; and a port the backend is asked for is one that is published. *)
Theorem plugin_ports_exact env executionID suite profile kind sidecar HostPort node spec entries
    (Hnode : node ∈ Nodes suite) (Hspec : Body.Plugin (body_of node) = Some spec)
    (Hconfig : config_entries (Runner.Plugin.Config spec) = Some entries) :
  let given := step_spec env executionID suite profile kind sidecar (Some HostPort) in
  (exists entries',
     Runner.Step.Plugin (given node) =
       Some (Runner.Plugin.mk (Runner.Plugin.Name spec) (Runner.Plugin.Op spec) (Values.AMap entries')) /\
     Forall2 (fun e e' => e'.1 = e.1 /\ value_rewritten executionID suite HostPort e.2 e'.2) entries entries') /\
  (forall s host port m, (exists key, (key, Values.AString s) ∈ entries) -> Ref host port ∈ pluginHostPortPattern s ->
     m ∈ Nodes suite -> Name m = to_string host -> container_port port ∈ Runner.Step.PublishPorts (given m)) /\
  (forall m, m ∈ Nodes suite -> NoDup (Runner.Step.PublishPorts (given m)) /\
     forall port, port ∈ Runner.Step.PublishPorts (given m) <-> named_with suite (Name m) port).
Proof using Type.
  cbn zeta. cbn [step_spec Runner.Step.Plugin Runner.Step.PublishPorts]. split_and!.
  - exists (prod_map id (rewrite_value executionID suite HostPort) <$> entries).
    rewrite Hspec. cbn [rewritePluginConfigForHostAccess]. rewrite Hconfig. split; [done|].
    apply Forall2_fmap_r, Forall_Forall2_diag, Forall_forall. intros [k v] _. split; [done|]. apply rewrite_value_spec.
  - intros s host port m [key Hkey] Href Hm Hname. apply refs_named. split.
    + apply elem_of_list_to_set, list_elem_of_fmap. by exists m.
    + exists node, spec, s, host, port. split_and!; try done. unfold config_strings. rewrite Hconfig.
      apply list_elem_of_omap. by exists (key, Values.AString s).
  - intros m Hm. destruct (refs_named suite (Name m)) as [Hnd Hp]. split; [done|]. intros port. rewrite Hp.
    assert (Name m ∈ node_names suite) by (apply elem_of_list_to_set, list_elem_of_fmap; by exists m). tauto.
Qed.

(** * The mocks reset before a test *)

(** The suites whose mocks the targets name. *)
Definition targeted (suite : RunningSuite) (targets : list string) (id : string) : Prop :=
  exists target m, target ∈ targets /\ Flow.topologyNodeByID (Nodes suite) target = Some m /\
    Kind m = "mock" /\ id = owner_of m suite.
Definition resettable (suite : RunningSuite) (target : string) : Prop :=
  exists m, Flow.topologyNodeByID (Nodes suite) target = Some m /\ Kind m = "mock".
Lemma target_loop_spec suite targets : forall ids labels, NoDup ids ->
  match target_loop suite targets ids labels with
  | inl e => exists target, target ∈ targets /\ ~ resettable suite target /\
      (e = TargetMissing target \/ e = TargetNotMock target)
  | inr (ids', labels') => NoDup ids' /\ Forall (resettable suite) targets /\
      forall id, id ∈ ids' <-> id ∈ ids \/ targeted suite targets id
  end.
Proof using Type.
  induction targets as [|target rest IH]; intros ids labels Hnd; cbn [target_loop].
  { split_and!; [done|constructor|]. intros id. split; [by left|]. by intros [?|(? & ? & ?%not_elem_of_nil & _)]. }
  destruct (Flow.topologyNodeByID (Nodes suite) target) as [m|] eqn:Hm.
  2:{ exists target. split_and!; [by left| |by left]. intros (m & E & _). congruence. }
  destruct (bool_decide_reflect (Kind m = "mock")) as [Hk|Hk]; cbn [negb].
  2:{ exists target. split_and!; [by left| |by right]. intros (m' & E & ?). congruence. }
  assert (forall id, targeted suite (target :: rest) id <-> id = owner_of m suite \/ targeted suite rest id) as Ht.
  { intros id. unfold targeted. setoid_rewrite elem_of_cons. split.
    - intros (t & m' & [->|Ht] & E & Hk' & Hid); [left; congruence|right; by exists t, m'].
    - intros [->|(t & m' & Ht & E & Hk' & Hid)]; [by exists target, m; auto|exists t, m'; auto]. }
  assert (resettable suite target) as Hr by by exists m.
  case_bool_decide as Hin.
  - specialize (IH ids labels Hnd). destruct (target_loop suite rest ids labels) as [e|[ids' labels']].
    + destruct IH as (t & ? & ? & ?). exists t. split_and!; [by right|done|done].
    + destruct IH as (? & ? & IH). split_and!; [done|by constructor|]. intros id. rewrite IH, Ht. naive_solver.
  - assert (NoDup (ids ++ [owner_of m suite])) as Hnd'.
    { apply NoDup_app. split_and!; [done| |apply NoDup_singleton]. by intros x Hx ->%list_elem_of_singleton. }
    specialize (IH _ (labels ++ [Name m]) Hnd').
    destruct (target_loop suite rest _ _) as [e|[ids' labels']].
    + destruct IH as (t & ? & ? & ?). exists t. split_and!; [by right|done|done].
    + destruct IH as (? & ? & IH). split_and!; [done|by constructor|]. intros id.
      rewrite IH, Ht, elem_of_app, list_elem_of_singleton. tauto.
Qed.

Definition reset_one (mocks : MockService.Service) (id : string) : MockService.Service :=
  if bool_decide (TrimSpace id = "") then mocks else MockService.reset_suite mocks (TrimSpace id).
(** The resets of a list of suites: all of them, or up to one that fails. *)
Lemma reset_all_outcome Get ids : forall mocks,
  let '(err, mocks') := reset_all Get ids mocks in
  match err with
  | None => mocks' = foldl reset_one mocks ids
  | Some e => exists id x, id ∈ ids /\ Get (TrimSpace id) = inl x /\ e = Resetter x
  end.
Proof using Type.
  induction ids as [|id rest IH]; intros mocks; cbn [reset_all foldl]; [done|].
  unfold MockService.ResetSuiteState, reset_one at 2. case_bool_decide as E.
  - specialize (IH mocks). destruct (reset_all Get rest mocks) as [[e|] m]; [|done].
    destruct IH as (i & x & ? & ? & ?). exists i, x. split_and!; [by right|done|done].
  - destruct (Get (TrimSpace id)) as [x|d] eqn:Eg.
    + exists id, x. split_and!; [by left|done|done].
    + specialize (IH (MockService.reset_suite mocks (TrimSpace id))).
      destruct (reset_all Get rest _) as [[e|] m]; [|done].
      destruct IH as (i & x & ? & ? & ?). exists i, x. split_and!; [by right|done|done].
Qed.
(** The suites a list of ids resets. *)
Definition covered (ids : list string) (b : string) : Prop := b <> "" /\ exists id, id ∈ ids /\ TrimSpace id = b.
Lemma covered_cons id ids b : covered (id :: ids) b <-> (b <> "" /\ TrimSpace id = b) \/ covered ids b.
Proof using Type. unfold covered. setoid_rewrite elem_of_cons. naive_solver. Qed.
Lemma reset_one_spec mocks id :
  (forall b, MockService.keys_of (reset_one mocks id) b =
     if bool_decide (b <> "" /\ TrimSpace id = b) then ∅ else MockService.keys_of mocks b) /\
  (forall key, MockService.state (reset_one mocks id) !! key =
     if bool_decide (TrimSpace id <> "" /\ key ∈ MockService.keys_of mocks (TrimSpace id)) then None
     else MockService.state mocks !! key).
Proof using Type.
  unfold reset_one. case_bool_decide as E.
  - split; intros x; rewrite bool_decide_eq_false_2; naive_solver.
  - split; [intros b; rewrite MockService.keys_of_reset|intros key; rewrite MockService.lookup_reset];
      repeat case_bool_decide; naive_solver.
Qed.
Lemma reset_keeps_none ids key : forall mocks, MockService.state mocks !! key = None ->
  MockService.state (foldl reset_one mocks ids) !! key = None.
Proof using Type.
  induction ids as [|id ids IH]; intros mocks H; cbn [foldl]; [done|]. apply IH.
  destruct (reset_one_spec mocks id) as [_ ->]. by case_bool_decide.
Qed.
Lemma reset_many ids : forall mocks,
  (forall b, covered ids b -> MockService.keys_of (foldl reset_one mocks ids) b = ∅) /\
  (forall b, ~ covered ids b -> MockService.keys_of (foldl reset_one mocks ids) b = MockService.keys_of mocks b) /\
  (forall key, (exists b, covered ids b /\ key ∈ MockService.keys_of mocks b) ->
     MockService.state (foldl reset_one mocks ids) !! key = None) /\
  (forall key, ~ (exists b, covered ids b /\ key ∈ MockService.keys_of mocks b) ->
     MockService.state (foldl reset_one mocks ids) !! key = MockService.state mocks !! key).
Proof using Type.
  induction ids as [|id ids IH]; intros mocks; cbn [foldl].
  { split_and!; try done; [intros b (_ & ? & ?%not_elem_of_nil & _)|intros key (b & (_ & ? & ?%not_elem_of_nil & _) & _)]; done. }
  destruct (reset_one_spec mocks id) as [Hk Hs]. destruct (IH (reset_one mocks id)) as (I1 & I2 & I3 & I4).
  assert (forall b, covered ids b \/ ~ covered ids b) as Hdec.
  { intros b. unfold covered. destruct (decide (b = "")) as [->|Hb]; [right; naive_solver|].
    destruct (decide (b ∈ (TrimSpace <$> ids))) as [H|H]; rewrite list_elem_of_fmap in H; naive_solver. }
  split_and!.
  - intros b Hb. apply covered_cons in Hb. destruct (Hdec b) as [Hc|Hc]; [by apply I1|].
    rewrite I2 by done. rewrite Hk, bool_decide_eq_true_2; [done|tauto].
  - intros b Hb. rewrite covered_cons in Hb. rewrite I2 by tauto. rewrite Hk, bool_decide_eq_false_2; [done|tauto].
  - intros key (b & Hb & Hin). apply covered_cons in Hb.
    destruct (bool_decide_reflect (TrimSpace id <> "" /\ key ∈ MockService.keys_of mocks (TrimSpace id))) as [H|H].
    + specialize (Hs key). rewrite bool_decide_eq_true_2 in Hs by done.
      by apply reset_keeps_none.
    + apply I3. exists b. rewrite Hk, bool_decide_eq_false_2 by naive_solver. split; [naive_solver|done].
  - intros key Hno. rewrite I4.
    + rewrite Hs, bool_decide_eq_false_2; [done|]. intros [? ?]. apply Hno. exists (TrimSpace id).
      rewrite covered_cons. by auto.
    + intros (b & Hb & Hin). rewrite Hk in Hin. case_bool_decide; [set_solver|]. apply Hno. exists b.
      rewrite covered_cons. by auto.
Qed.

(** The targets of a step of a resolved suite are mocks of the suite. *)
Lemma resolved_resettable raw suite node :
  resolveTopology raw = Some (inr (Nodes suite)) -> node ∈ Nodes suite ->
  Forall (resettable suite) (ResetMocks node).
Proof using Type.
  intros H Hnode. pose proof (resolve_well_formed_inv _ _ H) as Hwf. pose proof (resolve_resolved _ _ H) as HR.
  destruct (resolved_node _ _ HR _ Hnode) as (n0 & Hn0 & Heq).
  assert (NoDup (ids (Nodes suite))) as Hnd by by rewrite (resolved_ids _ _ HR); apply Hwf.
  assert (ResetMocks node = normalizeDependencies (ResetMocks n0)) as Hr by by rewrite Heq.
  apply Forall_forall. intros t Ht. rewrite Hr in Ht.
  destruct (wf_resets _ Hwf n0 Hn0) as [_ Hall]; [by intros E; rewrite E in Ht; apply not_elem_of_nil in Ht|].
  destruct (Hall t Ht) as (m & Hm & Hid & Hk).
  assert (t ∈ ids (Nodes suite)) as Hin by (rewrite (resolved_ids _ _ HR), <-Hid; by apply list_elem_of_fmap_2).
  apply list_elem_of_fmap in Hin as (m' & Hid' & Hm'). exists m'. split.
  - rewrite Hid'. by apply Flow.topologyNodeByID_NoDup.
  - destruct (resolved_node _ _ HR _ Hm') as (m0 & Hm0 & Heq').
    assert (ID m0 = ID m) as Hsame by (rewrite Hid, Hid', Heq'; done).
    assert (m0 = m) as ->; [|by rewrite Heq'].
    apply list_elem_of_lookup in Hm0 as [i Hi]. apply list_elem_of_lookup in Hm as [j Hj].
    assert (ids raw !! i = Some (ID m)) as Hi' by (unfold ids; rewrite list_lookup_fmap, Hi; cbn; by rewrite Hsame).
    assert (ids raw !! j = Some (ID m)) as Hj' by (unfold ids; by rewrite list_lookup_fmap, Hj).
    pose proof (NoDup_lookup _ _ _ _ (wf_ids _ Hwf) Hi' Hj'). congruence.
Qed.

(** C11: With the resetter configured, a test of a resolved suite that resets mocks is given to the backend
    after the mocks are reset: its targets are always found, the states the
    suites of the targets have stored are gone and every other state is as
    before; when a suite cannot be reset the backend is given nothing and the
    step fails with that reason. *)
Theorem mock_reset_exact now Get text env executionID raw suite profile kind sidecar backend Run node mocks
    (Hresolved : resolveTopology raw = Some (inr (Nodes suite))) (Hnode : node ∈ Nodes suite)
    (Hresets : ResetMocks node <> []) :
  let '(result, given, noted, mocks') :=
    perform now (Some Get) text env executionID suite profile kind sidecar backend Run node mocks in
  (exists labels, noted = Some (reset_event now (Running env) executionID node labels)) /\
  ((exists spec, given = Some spec /\ result = Run spec /\ Runner.Step.Node spec = step_node env executionID suite node /\
      forall key,
        ((exists id, targeted suite (ResetMocks node) id /\ TrimSpace id <> "" /\
            key ∈ MockService.keys_of mocks (TrimSpace id)) -> MockService.state mocks' !! key = None) /\
        (~ (exists id, targeted suite (ResetMocks node) id /\ TrimSpace id <> "" /\
              key ∈ MockService.keys_of mocks (TrimSpace id)) ->
         MockService.state mocks' !! key = MockService.state mocks !! key)) \/
   (exists id e, targeted suite (ResetMocks node) id /\ Get (TrimSpace id) = inl e /\
      given = None /\ result = Flow.ResetFailed (text e))).
Proof using Type.
  unfold perform, resetMockState, resetMockSuiteTargets. rewrite bool_decide_eq_false_2 by done.
  pose proof (resolved_resettable _ _ _ Hresolved Hnode) as Hall.
  pose proof (target_loop_spec suite (ResetMocks node) [] [] (NoDup_nil_2)) as Hloop.
  destruct (target_loop suite (ResetMocks node) [] []) as [e|[ids0 labels0]].
  { destruct Hloop as (t & Ht & Hno & _). rewrite Forall_forall in Hall. by destruct (Hno (Hall t Ht)). }
  destruct Hloop as (_ & _ & Hids). cbn [fst snd].
  assert (forall id, id ∈ sort_strings ids0 <-> targeted suite (ResetMocks node) id) as Hsorted.
  { intros id. rewrite sort_strings_perm, Hids. split; [by intros [?%not_elem_of_nil|]|by right]. }
  assert (exists id, targeted suite (ResetMocks node) id) as [id0 Hid0].
  { destruct (ResetMocks node) as [|t rest]; [done|]. apply Forall_cons in Hall as [(m & Hm & Hk) _].
    exists (owner_of m suite), t, m. split_and!; [by left|done|done|done]. }
  destruct (sort_strings ids0) as [|first more] eqn:Esort; [by apply Hsorted, not_elem_of_nil in Hid0|].
  rewrite <-Esort in *. set (sorted := sort_strings ids0) in *.
  pose proof (reset_all_outcome Get sorted mocks) as Hreset.
  destruct (reset_all Get sorted mocks) as [[e|] mocks'].
  - split; [by eexists|]. right. destruct Hreset as (id & x & Hin & Hg & ->). exists id, x. by rewrite Hsorted in Hin.
  - split; [by eexists|]. left. eexists. split_and!; [done|done|done|]. intros key. subst mocks'.
    destruct (reset_many sorted mocks) as (_ & _ & H3 & H4). unfold covered in H3, H4. setoid_rewrite Hsorted in H3.
    setoid_rewrite Hsorted in H4. split.
    + intros (id & Ht & Hne & Hin). apply H3. exists (TrimSpace id). split; [|done]. split; [done|]. by exists id.
    + intros Hno. apply H4. intros (b & (Hb & id & Ht & <-) & Hin). apply Hno. by exists id.
Qed.

(** Without a resetter the targets are not looked at, and the test runs on the
    mocks as they are. *)
Lemma no_resetter now text env executionID suite profile kind sidecar backend Run node mocks :
  perform now None text env executionID suite profile kind sidecar backend Run node mocks =
  let spec := step_spec env executionID suite profile kind sidecar backend node in (Run spec, Some spec, None, mocks).
Proof using Type. unfold perform, resetMockState. by case_bool_decide. Qed.

(** * The gateway and the file of a step *)

(** Every mock has an address: that of the suite's sidecar while it runs, and
    that of the mock's own container otherwise. *)
Lemma gateway_urls sidecar executionID suite profile :
  sidecarNeeded suite = true ->
  let urls := resolveGatewayURLs sidecar executionID suite profile in
  (sidecar (suite_id suite) profile <> "" ->
     urls <> [] /\ Forall (fun url => url = sidecar (suite_id suite) profile) urls /\
     length urls = Nat.max 1 (length (mock_nodes suite))) /\
  (sidecar (suite_id suite) profile = "" ->
     urls = (fun n => "http://" +:+ Containers.containerName executionID (ID n) +:+ ":9080") <$> mock_nodes suite).
Proof using Type.
  intros Hneed. cbn zeta. unfold resolveGatewayURLs. rewrite Hneed. cbn [negb]. split; intros H.
  - rewrite bool_decide_eq_false_2 by done. cbn [negb]. destruct (mock_nodes suite) as [|m ms].
    + split_and!; [done|by repeat constructor|done].
    + split_and!; [done| |by rewrite length_fmap].
      apply Forall_forall. by intros url (? & -> & _)%list_elem_of_fmap.
  - rewrite bool_decide_eq_true_2 by done. done.
Qed.

(** A step of an imported suite runs the file of the package it comes from. *)
Lemma imported_file node suite d :
  owner_of node suite <> suite_id suite -> Body.File (body_of node) <> "" ->
  d ∈ ResolvedDependencies suite -> Imports.Dep.SuiteID d = owner_of node suite -> Imports.Dep.SourceFiles d <> [] ->
  exists d', d' ∈ ResolvedDependencies suite /\ Imports.Dep.SuiteID d' = owner_of node suite /\
    (resolveNodeFileContent node suite = "" \/
     exists sf, sf ∈ Imports.Dep.SourceFiles d' /\ Suites.Path sf ∈ candidates (Body.File (body_of node)) /\
       resolveNodeFileContent node suite = Suites.Content sf).
Proof using Type.
  intros Howner Hfile Hd Hid Hne. unfold resolveNodeFileContent, nodeSourceFiles.
  rewrite (bool_decide_eq_false_2 (Body.File _ = "")), (bool_decide_eq_false_2 (owner_of node suite = _)) by done.
  destruct (List.find _ (ResolvedDependencies suite)) as [d'|] eqn:Ef.
  - apply List.find_some in Ef as [Hin E]. bool_to_prop. exists d'. split_and!; [by apply list_elem_of_In|done|].
    destruct (List.find _ (Imports.Dep.SourceFiles d')) as [sf|] eqn:Es; [|by left]. right.
    apply List.find_some in Es as [Hsf E]. bool_to_prop. exists sf. by rewrite list_elem_of_In.
  - pose proof (List.find_none _ _ Ef d) as E. rewrite <-list_elem_of_In in E. specialize (E Hd). cbn in E.
    rewrite bool_decide_eq_true_2, bool_decide_eq_false_2 in E by done. done.
Qed.
End Steps.

(** * Examples *)
Definition sample_body (h : handle) : StepBody :=
  match h with
  | 1%nat => Body.mk None None
      (Some (Runner.Plugin.mk "consumer-lag" "" (Values.AMap [("url", Values.AString "http://broker:8082/topics"); ("max", Values.AInt 5)])))
      "" false "" "" [] None []
  | _ => Body.mk None None None "" false "" "" [] None []
  end.
Definition sample_step (id kind owner : string) (resets : list string) (h : handle) : TopologyNode :=
  mkNode id id kind "" h [] resets [] false 0 owner "" "" "" "" "" "" "" ∅ ∅ 0.
Definition sample_raw : list TopologyNode :=
  [sample_step "broker" "service" "" [] 0%nat; sample_step "lag" "plugin" "" [] 1%nat;
   sample_step "orders" "mock" "orders-suite" [] 0%nat; sample_step "smoke" "test" "" ["orders"] 0%nat].
Definition sample_running : RunningSuite :=
  mkRunning (Suites.mkSuite "shop" "Shop" "" "" "" "" [] [] [] [])
    (match resolveTopology sample_raw with Some (inr nodes) => nodes | _ => [] end) [].
Definition sample_surroundings : surroundings :=
  mkSurroundings (Flow.mkService ∅ []) ∅ ∅ (NetworkPlan.mkPlan "shop" ∅) [].
Definition sample_node_of (id : string) : TopologyNode :=
  default (sample_step "" "" "" [] 0%nat) (Flow.topologyNodeByID (Nodes sample_running) id).
Definition sample_ports (executionID nodeID port : string) : string :=
  if bool_decide (nodeID = "broker" /\ port = "8082/tcp") then "32768" else "".
Definition no_sidecar (suiteID profile : string) : string := "".
Definition sample_given (id : string) : Runner.StepSpec :=
  step_spec sample_body sample_surroundings "run-1" sample_running "local.yaml" "local" no_sidecar (Some sample_ports)
    (sample_node_of id).

Lemma plugin_ports_exact_witness :
  Runner.Step.PublishPorts (sample_given "broker") = ["8082/tcp"] /\
  (Runner.Plugin.Config <$> Runner.Step.Plugin (sample_given "lag")) =
    Some (Values.AMap [("url", Values.AString "http://host.docker.internal:32768/topics"); ("max", Values.AInt 5)]) /\
  (forall port, port ∈ Runner.Step.PublishPorts (sample_given "broker") <->
     named_with sample_body sample_running "broker" port).
Proof.
  assert (sample_node_of "broker" ∈ Nodes sample_running) as Hb by (vm_compute; left).
  assert (sample_node_of "lag" ∈ Nodes sample_running) as Hl by (vm_compute; right; left).
  split; [vm_compute; reflexivity|]. split; [vm_compute; reflexivity|].
  destruct (plugin_ports_exact sample_body sample_surroundings "run-1" sample_running "local.yaml" "local" no_sidecar
    sample_ports (sample_node_of "lag") _ _ Hl eq_refl eq_refl) as (_ & _ & H).
  destruct (H _ Hb) as [_ Hp]. exact Hp.
Defined.

Definition sample_mocks : MockService.Service :=
  MockService.storeState (MockService.storeState MockService.NewService "orders-suite" "orders" {["count" := "1"]})
    "other" "kept" {["a" := "b"]}.
Definition sample_get (id : string) : MockService.GetError + MockTypes.Suite.Definition_ :=
  inr (MockTypes.Suite.mk id "" "" [] []).
Lemma mock_reset_exact_witness :
  let '(result, given, noted, mocks') :=
    perform sample_body 0 (Some sample_get) (fun _ => "") sample_surroundings "run-1" sample_running "local.yaml" "local"
      no_sidecar None (fun _ => Flow.RunOk) (sample_node_of "smoke") sample_mocks in
  result = Flow.RunOk /\ MockService.state mocks' !! "orders" = None /\
  MockService.state mocks' !! "kept" = Some {["a" := "b"]} /\ exists labels,
    noted = Some (reset_event 0 (Running sample_surroundings) "run-1" (sample_node_of "smoke") labels).
Proof.
  assert (sample_node_of "smoke" ∈ Nodes sample_running) as Hs by (vm_compute; right; right; right; left).
  pose proof (mock_reset_exact sample_body 0 sample_get (fun _ => "") sample_surroundings "run-1" sample_raw sample_running
    "local.yaml" "local" no_sidecar None (fun _ => Flow.RunOk) (sample_node_of "smoke") sample_mocks eq_refl Hs
    ltac:(discriminate)) as [Hnoted _].
  split; [reflexivity|]. split; [vm_compute; reflexivity|]. split; [vm_compute; reflexivity|exact Hnoted].
Defined.
Example pattern_ex :
  piece_text <$> pluginHostPortPattern "a:1:22x b.c:123456" =
    of_string <$> ["a:"; "1:22"; "x "; "b.c:12345"; "6"].
Proof. reflexivity. Qed.
End StepInputs.
