(* ===== verification/Artifacts.v ===== *)
(** The artifacts of an execution, [src/backend/internal/execution]
    artifacts.go and report_formats.go: which exports of an ended step become
    artifacts, their identifiers, and the summaries of test and coverage
    reports.

    The documents are what encoding/xml and encoding/json decode from the
    content; the decoders are arguments.  A decoded JUnit suite is a tree. *)
From Stdlib Require Import ZArith Lia Ascii.
From S2P Require Import Prelude GoStrings Runes Strconv Topology Runner Containers StepInputs.
Import GoStrings Strconv Topology StepInputs.

Module Artifacts.

(** ** Data (types.go, report_formats.go) *)
Record ExecutionTestSummary := mkTests {
  Total : Z; Passed : Z; Failures : Z; Errors : Z; Skipped : Z; DurationSeconds : float64 }.
Definition no_tests : ExecutionTestSummary := mkTests 0 0 0 0 0 F_zero.
Record ExecutionCoverageSummary := mkCoverage {
  LineRate : float64; BranchRate : float64; LinesCovered : Z; LinesValid : Z; BranchesCovered : Z; BranchesValid : Z }.
Definition no_coverage : ExecutionCoverageSummary := mkCoverage F_zero F_zero 0 0 0 0.
Record ExecutionArtifact := mkArtifact {
  ArtifactID : string; StepID : string; StepName : string; Path : string; ArtifactName : string; On : string;
  Format : string; Content : string; TestSummary : option ExecutionTestSummary;
  CoverageSummary : option ExecutionCoverageSummary }.

Module Case.
Record junitCaseDocument := mk { Time : string; Failure : bool; Error : bool; Skipped : bool }.
End Case.
Notation junitCaseDocument := Case.junitCaseDocument.
Inductive junitSuiteDocument := mkSuite
  (Tests Failures Errors Skipped Time : string) (Suites : list junitSuiteDocument) (Cases : list junitCaseDocument).
Record coberturaDocument := mkCobertura {
  LineRateText : string; BranchRateText : string; LinesCoveredText : string; LinesValidText : string;
  BranchesCoveredText : string; BranchesValidText : string }.
(** The results of a CTRF document: the summary, and status and duration of
    each test. *)
Record ctrfDocument := mkCtrf {
  CtrfTests : Z; CtrfPassed : Z; CtrfFailed : Z; CtrfSkipped : Z; CtrfPending : Z; CtrfOther : Z;
  Start : Z; Stop : Z; Results : list (string * float64) }.

(** ** Reports *)
Definition normalizeArtifactFormat (value : string) : string := ToLower (TrimSpace value).
Definition parseXMLInt (value : string) : Z := default 0 (ParseInt (TrimSpace value)).
Definition parseXMLFloat (value : string) : float64 := default F_zero (ParseFloat (TrimSpace value)).

Definition add_summary (s child : ExecutionTestSummary) : ExecutionTestSummary :=
  mkTests (wrap64 (Total s + Total child)) (wrap64 (Passed s + Passed child)) (wrap64 (Failures s + Failures child))
    (wrap64 (Errors s + Errors child)) (wrap64 (Skipped s + Skipped child))
    (F_add (DurationSeconds s) (DurationSeconds child)).
(** The loop over the cases of a suite without counts. *)
Definition count_case (s : ExecutionTestSummary) (testCase : junitCaseDocument) : ExecutionTestSummary :=
  let d := F_add (DurationSeconds s) (parseXMLFloat (Case.Time testCase)) in
  if Case.Failure testCase then mkTests (Total s) (Passed s) (wrap64 (Failures s + 1)) (Errors s) (Skipped s) d
  else if Case.Error testCase then mkTests (Total s) (Passed s) (Failures s) (wrap64 (Errors s + 1)) (Skipped s) d
  else if Case.Skipped testCase then mkTests (Total s) (Passed s) (Failures s) (Errors s) (wrap64 (Skipped s + 1)) d
  else mkTests (Total s) (Passed s) (Failures s) (Errors s) (Skipped s) d.
Definition set_passed (s : ExecutionTestSummary) : ExecutionTestSummary :=
  let passed := wrap64 (wrap64 (wrap64 (Total s - Failures s) - Errors s) - Skipped s) in
  mkTests (Total s) (if passed <? 0 then 0 else passed) (Failures s) (Errors s) (Skipped s) (DurationSeconds s).
(** A suite without suites of its own. *)
Definition summarize_leaf (tests failures errors skipped time : string) (cases : list junitCaseDocument)
    : ExecutionTestSummary :=
  let s := mkTests (parseXMLInt tests) 0 (parseXMLInt failures) (parseXMLInt errors) (parseXMLInt skipped)
             (parseXMLFloat time) in
  let n := Z.of_nat (length cases) in
  let s := if (0 <? n) && (Total s =? 0)
           then mkTests n (Passed s) (Failures s) (Errors s) (Skipped s) (DurationSeconds s) else s in
  let s := if (0 <? n) && (Failures s =? 0) && (Errors s =? 0) && (Skipped s =? 0)
           then foldl count_case s cases else s in
  set_passed s.
Fixpoint summarizeJUnitSuite (suite : junitSuiteDocument) : ExecutionTestSummary :=
  match suite with
  | mkSuite tests failures errors skipped time suites cases =>
      match suites with
      | [] => summarize_leaf tests failures errors skipped time cases
      | _ => fold_left add_summary (map summarizeJUnitSuite suites) no_tests
      end
  end.

Section Reports.
(** [xml.Unmarshal] and [json.Unmarshal]: the name of the root element, and
    the document of each shape. *)
Context (root_of : string -> option string)
  (decode_testsuite : string -> option junitSuiteDocument)
  (decode_testsuites : string -> option (list junitSuiteDocument))
  (decode_coverage : string -> option coberturaDocument)
  (decode_ctrf : string -> option ctrfDocument).

(** The errors are only looked at for whether there is one. *)
Definition parseJUnitSummary (document : string) : option ExecutionTestSummary :=
  let trimmed := TrimSpace document in
  if bool_decide (trimmed = "") then None
  else
    root ← root_of trimmed;
    if bool_decide (root = "testsuite") then summarizeJUnitSuite <$> decode_testsuite trimmed
    else if bool_decide (root = "testsuites") then
      (fun suites => fold_left add_summary (map summarizeJUnitSuite suites) no_tests) <$> decode_testsuites trimmed
    else None.
Definition parseCoberturaSummary (document : string) : option ExecutionCoverageSummary :=
  let trimmed := TrimSpace document in
  if bool_decide (trimmed = "") then None
  else
    (fun c => mkCoverage (parseXMLFloat (LineRateText c)) (parseXMLFloat (BranchRateText c))
       (parseXMLInt (LinesCoveredText c)) (parseXMLInt (LinesValidText c)) (parseXMLInt (BranchesCoveredText c))
       (parseXMLInt (BranchesValidText c))) <$> decode_coverage trimmed.

(** The counts of a CTRF report: passed, failures, skipped, errors. *)
Definition count_result (counts : Z * Z * Z * Z) (status : string) : Z * Z * Z * Z :=
  let '(passed, failures, skipped, errors) := counts in
  let status := ToLower status in
  if bool_decide (status = "passed") then (wrap64 (passed + 1), failures, skipped, errors)
  else if bool_decide (status = "failed") then (passed, wrap64 (failures + 1), skipped, errors)
  else if bool_decide (status ∈ ["skipped"; "pending"]) then (passed, failures, wrap64 (skipped + 1), errors)
  else (passed, failures, skipped, wrap64 (errors + 1)).
Definition summarize_ctrf (doc : ctrfDocument) : ExecutionTestSummary :=
  let total := if CtrfTests doc =? 0 then Z.of_nat (length (Results doc)) else CtrfTests doc in
  let durationMs :=
    if (0 <? Start doc) && (Start doc <? Stop doc) then F_of_Z (wrap64 (Stop doc - Start doc))
    else foldl (fun d t => F_add d t.2) F_zero (Results doc) in
  let errors := CtrfOther doc in
  let passed := CtrfPassed doc in
  let failures := CtrfFailed doc in
  let skipped := wrap64 (CtrfSkipped doc + CtrfPending doc) in
  let '(passed, failures, skipped, errors) :=
    if (0 <? total) && (passed =? 0) && (failures =? 0) && (skipped =? 0)
    then foldl count_result (passed, failures, skipped, errors) (Results doc).*1
    else (passed, failures, skipped, errors) in
  mkTests total passed failures errors skipped (F_div durationMs (F_of_Z 1000)).
Definition parseCTRFSummary (document : string) : option ExecutionTestSummary :=
  let trimmed := TrimSpace document in
  if bool_decide (trimmed = "") then None else summarize_ctrf <$> decode_ctrf trimmed.

(** ** Artifacts *)
Context (body : handle -> StepBody) (Marshal : junitSuiteDocument -> string -> string -> string).

Definition artifactExportMatchesStatus (trigger status : string) : bool :=
  let trigger := TrimSpace trigger in
  if bool_decide (trigger ∈ [""; "success"]) then bool_decide (status = "healthy")
  else if bool_decide (trigger = "failure") then bool_decide (status = "failed")
  else if bool_decide (trigger = "always") then bool_decide (status ∈ ["healthy"; "failed"])
  else false.

(** [path.Base]. *)
Fixpoint drop_slashes (l : bytes) : bytes :=
  match l with
  | c :: l' => if bool_decide (c = "/"%char) then drop_slashes l' else l
  | [] => []
  end.
Definition Base (path : string) : string :=
  if bool_decide (path = "") then "."
  else
    let trimmed := to_string (reverse (drop_slashes (reverse (of_string path)))) in
    let base := slice_from trimmed (LastIndex trimmed "/" + 1) in
    if bool_decide (base = "") then "/" else base.
Definition executionArtifactName (export : Runner.ArtifactExport) : string :=
  let name := TrimSpace (Runner.Artifact.Name export) in
  if negb (bool_decide (name = "")) then name
  else
    let path := TrimSpace (Runner.Artifact.Path export) in
    let base := TrimSpace (Base path) in
    if bool_decide (base ∈ ["."; "/"; ""]) then path else base.
Definition backslash : ascii := ascii_of_nat 92.
Definition replaced (c : ascii) : bytes :=
  if bool_decide (c ∈ ["/"%char; backslash; " "%char; ":"%char]) then ["-"%char]
  else if bool_decide (c = "*"%char) then of_string "wildcard" else [c].
Definition executionArtifactID (stepID : string) (export : Runner.ArtifactExport) : string :=
  let format := normalizeArtifactFormat (Runner.Artifact.Format export) in
  let format := if bool_decide (format = "") then "raw" else format in
  to_string (mjoin (replaced <$> of_string (stepID +:+ "-" +:+ executionArtifactName export +:+ "-" +:+ format))).

(** What [xml.Marshal] is given for a step without a report: the counts, and
    the name and the kind of the step. *)
Definition synthetic_document (status : string) : junitSuiteDocument :=
  let failed := bool_decide (status = "failed") in
  mkSuite "1" (if failed then "1" else "0") "0" "0" "0" [] [Case.mk "0" failed false false].
Definition syntheticJUnitReport (node : TopologyNode) (status : string) : string :=
  Marshal (synthetic_document status) (Name node) (Kind node).

Definition buildExecutionArtifact (node : TopologyNode) (export : Runner.ArtifactExport) (status : string)
    (collected : gmap string string) : ExecutionArtifact :=
  let format := normalizeArtifactFormat (Runner.Artifact.Format export) in
  let path := TrimSpace (Runner.Artifact.Path export) in
  let make := mkArtifact (executionArtifactID (ID node) export) (ID node) (Name node) path (executionArtifactName export)
                (FirstNonEmpty [TrimSpace (Runner.Artifact.On export); "success"]) format in
  let realContent := default "" (collected !! path) in
  let real := negb (bool_decide (realContent = "")) in
  if bool_decide (format = "junit") then
    let content := if real then realContent else syntheticJUnitReport node status in
    make content (parseJUnitSummary content) None
  else if bool_decide (format = "ctrf") then
    if real then make realContent (parseCTRFSummary realContent) None else make "" (Some no_tests) None
  else if bool_decide (format = "cobertura") then
    if real then make realContent None (parseCoberturaSummary realContent) else make "" None (Some no_coverage)
  else make realContent None None.
Definition exports_of (node : TopologyNode) : list Runner.ArtifactExport := Body.ArtifactExports (body_of body node).
Definition materializeExecutionArtifacts (node : TopologyNode) (status : string) (collected : gmap string string)
    : list ExecutionArtifact :=
  (fun export => buildExecutionArtifact node export status collected) <$>
    List.filter (fun export => artifactExportMatchesStatus (Runner.Artifact.On export) status) (exports_of node).

(** The callback [OnArtifact] keeps the content of a path when there is any. *)
Definition OnArtifact (collected : gmap string string) (path content : string) : gmap string string :=
  if bool_decide (content = "") then collected else <[path := content]> collected.

Definition executionArtifactExists (items : list ExecutionArtifact) (targetID : string) : bool :=
  existsb (fun item => bool_decide (ArtifactID item = targetID)) items.
Definition add_artifact (items : list ExecutionArtifact) (artifact : ExecutionArtifact) : list ExecutionArtifact :=
  if executionArtifactExists items (ArtifactID artifact) then items else items ++ [artifact].
(** The artifacts of the record after a step ended, and whether the record is
    touched, persisted and shown to the observers. *)
Definition registerStepArtifacts (node : TopologyNode) (status : string) (collected : gmap string string)
    (items : list ExecutionArtifact) : list ExecutionArtifact * bool :=
  let items' := foldl add_artifact items (materializeExecutionArtifacts node status collected) in
  (items', negb (bool_decide (length items' = length items))).

(** * What is recorded *)
Lemma exists_spec items targetID :
  executionArtifactExists items targetID = true <-> targetID ∈ (ArtifactID <$> items).
Proof using Type.
  unfold executionArtifactExists. rewrite existsb_exists. setoid_rewrite list_elem_of_fmap. split.
  - intros (a & Ha & E). bool_to_prop. exists a. by rewrite list_elem_of_In.
  - intros (a & -> & Ha). exists a. by rewrite <-list_elem_of_In, bool_decide_eq_true_2.
Qed.
Lemma add_artifacts_spec fresh : forall items, exists added,
  foldl add_artifact items fresh = items ++ added /\
  (NoDup (ArtifactID <$> items) -> NoDup (ArtifactID <$> items ++ added)) /\
  (forall a, a ∈ added -> a ∈ fresh) /\
  (forall a, a ∈ fresh -> ArtifactID a ∈ (ArtifactID <$> items ++ added)).
Proof using Type.
  induction fresh as [|x fresh IH]; intros items; cbn [foldl].
  { exists []. rewrite app_nil_r. split_and!; [done|done| |]; by intros a ?%not_elem_of_nil. }
  destruct (IH (add_artifact items x)) as (added & -> & Hnd & Hin & Hall). unfold add_artifact in *.
  destruct (executionArtifactExists items (ArtifactID x)) eqn:E.
  - exists added. split_and!; [done|done|intros a Ha; right; by apply Hin|].
    intros a [->|Ha]%elem_of_cons; [|by apply Hall]. rewrite fmap_app, elem_of_app. left. by apply exists_spec.
  - exists (x :: added). rewrite <-app_assoc in *. cbn [app] in *. split_and!; [done| | |].
    + intros H. apply Hnd. rewrite fmap_app. apply NoDup_app. split_and!; [done| |apply NoDup_singleton].
      intros y Hy ->%list_elem_of_singleton. apply exists_spec in Hy. congruence.
    + intros a [->|Ha]%elem_of_cons; [by left|right; by apply Hin].
    + intros a [->|Ha]%elem_of_cons; [|by apply Hall]. apply list_elem_of_fmap_2, elem_of_app. right. by left.
Qed.
Lemma add_artifacts_present fresh : forall items,
  (forall a, a ∈ fresh -> ArtifactID a ∈ (ArtifactID <$> items)) -> foldl add_artifact items fresh = items.
Proof using Type.
  induction fresh as [|x fresh IH]; intros items H; [done|]. cbn [foldl]. unfold add_artifact at 2.
  rewrite (proj2 (exists_spec items (ArtifactID x))) by (apply H; by left). apply IH. intros a Ha. apply H. by right.
Qed.

(** Recording the artifacts of an ended step only appends to the record,
    and keeps its identifiers distinct; what it appends are artifacts of the
    step's exports whose trigger fits the way the step ended; afterwards every
    such export has an artifact under its identifier, and recording the step
    once more changes nothing. *)
Theorem artifacts_recorded node status collected items :
  let due export := export ∈ exports_of node /\ artifactExportMatchesStatus (Runner.Artifact.On export) status = true in
  let '(items', changed) := registerStepArtifacts node status collected items in
  (exists added, items' = items ++ added /\ changed = negb (bool_decide (added = [])) /\
     forall a, a ∈ added -> exists export, due export /\ a = buildExecutionArtifact node export status collected) /\
  (NoDup (ArtifactID <$> items) -> NoDup (ArtifactID <$> items')) /\
  (forall export, due export -> executionArtifactID (ID node) export ∈ (ArtifactID <$> items')) /\
  registerStepArtifacts node status collected items' = (items', false).
Proof using Type.
  cbn zeta. unfold registerStepArtifacts. set (fresh := materializeExecutionArtifacts node status collected).
  destruct (add_artifacts_spec fresh items) as (added & -> & Hnd & Hin & Hall).
  assert (forall a, a ∈ fresh <-> exists export, (export ∈ exports_of node /\
    artifactExportMatchesStatus (Runner.Artifact.On export) status = true) /\
    a = buildExecutionArtifact node export status collected) as Hfresh.
  { intros a. unfold fresh, materializeExecutionArtifacts. rewrite list_elem_of_fmap.
    setoid_rewrite list_elem_of_In at 1. setoid_rewrite filter_In. setoid_rewrite <-list_elem_of_In. naive_solver. }
  split_and!.
  - exists added. split_and!; [done| |intros a Ha; by apply Hfresh, Hin].
    f_equal. apply bool_decide_ext. rewrite length_app. destruct added; cbn; [split; [done|lia]|split; [lia|done]].
  - done.
  - intros export Hdue. specialize (Hall (buildExecutionArtifact node export status collected)).
    assert (ArtifactID (buildExecutionArtifact node export status collected) = executionArtifactID (ID node) export) as <-.
    { unfold buildExecutionArtifact. cbn zeta. by repeat case_bool_decide; cbn [negb]. }
    apply Hall, Hfresh. by exists export.
  - rewrite add_artifacts_present by done. f_equal. by rewrite bool_decide_eq_true_2.
Qed.
End Reports.

(** * The counts of a JUnit report *)
Section JUnitInduction.
Context (P : junitSuiteDocument -> Prop).
Context (H : forall tests failures errors skipped time suites cases, Forall P suites ->
  P (mkSuite tests failures errors skipped time suites cases)).
Fixpoint junit_ind (suite : junitSuiteDocument) : P suite :=
  match suite with
  | mkSuite tests failures errors skipped time suites cases =>
      H tests failures errors skipped time suites cases
        ((fix all (l : list junitSuiteDocument) : Forall P l :=
            match l with [] => Forall_nil_2 _ | s :: l => Forall_cons_2 _ _ _ (junit_ind s) (all l) end) suites)
  end.
End JUnitInduction.

(** The number of tests of a report, and what makes one consistent: a suite
    counts no less tests than it counts or lists failures, errors and skips. *)
Definition leaf_total (tests : string) (cases : list junitCaseDocument) : Z :=
  if parseXMLInt tests =? 0 then Z.of_nat (length cases) else parseXMLInt tests.
Fixpoint sum_with {A} (f : A -> Z) (l : list A) : Z := match l with [] => 0 | x :: l => f x + sum_with f l end.
Fixpoint tests_of (suite : junitSuiteDocument) : Z :=
  match suite with
  | mkSuite tests failures errors skipped time suites cases =>
      match suites with [] => leaf_total tests cases | _ => sum_with tests_of suites end
  end.
Definition leaf_consistent (tests failures errors skipped : string) (cases : list junitCaseDocument) : Prop :=
  0 <= parseXMLInt tests /\ 0 <= parseXMLInt failures /\ 0 <= parseXMLInt errors /\ 0 <= parseXMLInt skipped /\
  parseXMLInt failures + parseXMLInt errors + parseXMLInt skipped <= leaf_total tests cases /\
  Z.of_nat (length cases) <= leaf_total tests cases.
Fixpoint consistent (suite : junitSuiteDocument) : Prop :=
  match suite with
  | mkSuite tests failures errors skipped time suites cases =>
      match suites with
      | [] => leaf_consistent tests failures errors skipped cases
      | _ => fold_right and True (map consistent suites)
      end
  end.

(** Every test is counted once, as passed, failed, in error or skipped. *)
Definition adds_up (s : ExecutionTestSummary) (total : Z) : Prop :=
  Total s = total /\ 0 <= Passed s /\ 0 <= Failures s /\ 0 <= Errors s /\ 0 <= Skipped s /\
  Passed s + Failures s + Errors s + Skipped s = total.
Ltac small_ints := repeat (rewrite wrap64_small by (unfold int64_min, int64_max in *; lia)).

Lemma count_cases_spec cases : forall s,
  0 <= Failures s -> 0 <= Errors s -> 0 <= Skipped s ->
  Failures s + Errors s + Skipped s + Z.of_nat (length cases) <= int64_max ->
  let s' := foldl count_case s cases in
  Total s' = Total s /\ 0 <= Failures s' /\ 0 <= Errors s' /\ 0 <= Skipped s' /\
  Failures s' + Errors s' + Skipped s' <= Failures s + Errors s + Skipped s + Z.of_nat (length cases).
Proof.
  induction cases as [|c cases IH]; intros s HF HE HS Hb; cbn [foldl]; [lia|]. cbn [length] in *.
  assert (exists F E S, Failures (count_case s c) = F /\ Errors (count_case s c) = E /\ Skipped (count_case s c) = S /\
    Total (count_case s c) = Total s /\ 0 <= F /\ 0 <= E /\ 0 <= S /\
    F + E + S <= Failures s + Errors s + Skipped s + 1) as (F & E & S & <- & <- & <- & Ht & ? & ? & ? & ?).
  { unfold count_case. destruct (Case.Failure c), (Case.Error c), (Case.Skipped c); cbn; small_ints; eexists _, _, _; split_and!; try done; lia. }
  destruct (IH (count_case s c)) as (-> & ? & ? & ? & ?); [done..|lia|]. split_and!; [done..|lia].
Qed.
Lemma leaf_adds_up tests failures errors skipped time cases :
  leaf_consistent tests failures errors skipped cases -> leaf_total tests cases <= int64_max ->
  adds_up (summarize_leaf tests failures errors skipped time cases) (leaf_total tests cases).
Proof.
  intros (HT & HF & HE & HS & Hsum & Hlen) Hmax. unfold summarize_leaf. cbn zeta. cbn [Total Passed Failures Errors Skipped].
  set (n := Z.of_nat (length cases)) in *.
  assert (forall s, Total s = leaf_total tests cases -> 0 <= Failures s -> 0 <= Errors s -> 0 <= Skipped s ->
    Failures s + Errors s + Skipped s <= leaf_total tests cases -> adds_up (set_passed s) (leaf_total tests cases)) as Hset.
  { intros s Ht ? ? ? ?. unfold set_passed, adds_up. cbn zeta. cbn [Total Passed Failures Errors Skipped].
    rewrite Ht. unfold int64_max in *.
    rewrite (wrap64_small (_ - Failures s)), (wrap64_small (_ - Errors s)), (wrap64_small (_ - Skipped s))
      by (unfold int64_min, int64_max; lia).
    destruct (Z.ltb_spec (leaf_total tests cases - Failures s - Errors s - Skipped s) 0); lia. }
  set (s0 := if (0 <? n) && (parseXMLInt tests =? 0) then _ else _).
  assert (Total s0 = leaf_total tests cases /\ Failures s0 = parseXMLInt failures /\ Errors s0 = parseXMLInt errors /\
    Skipped s0 = parseXMLInt skipped) as (Ht & Hf & He & Hs).
  { unfold s0, leaf_total. fold n. destruct (Z.ltb_spec 0 n), (Z.eqb_spec (parseXMLInt tests) 0); cbn; split_and!; try done; lia. }
  destruct (_ && _ && _ && _) eqn:Ez; [|apply Hset; lia].
  bool_to_prop. destruct (count_cases_spec cases s0) as (Ht' & ? & ? & ? & ?); [lia..|].
  apply Hset; [congruence|done..|]. subst n. lia.
Qed.
Lemma add_adds_up s t a b : adds_up s a -> adds_up t b -> a + b <= int64_max -> adds_up (add_summary s t) (a + b).
Proof.
  intros (? & ? & ? & ? & ? & ?) (? & ? & ? & ? & ? & ?) Hb. unfold adds_up, add_summary.
  cbn [Total Passed Failures Errors Skipped]. small_ints. lia.
Qed.
Lemma tests_nonneg suite : consistent suite -> 0 <= tests_of suite.
Proof.
  induction suite as [tests failures errors skipped time suites cases IH] using junit_ind. cbn [consistent tests_of].
  destruct suites as [|x suites]; [intros (? & ? & ? & ? & ? & ?); lia|].
  induction IH as [|y l Hy _ IHl]; [done|]. cbn [map fold_right sum_with]. intros [Hc Hl]. specialize (Hy Hc). specialize (IHl Hl). lia.
Qed.
Lemma sum_adds_up suites : fold_right and True (map consistent suites) ->
  Forall (fun s => consistent s -> tests_of s <= int64_max -> adds_up (summarizeJUnitSuite s) (tests_of s)) suites ->
  forall acc a, adds_up acc a -> a + sum_with tests_of suites <= int64_max ->
  adds_up (fold_left add_summary (map summarizeJUnitSuite suites) acc) (a + sum_with tests_of suites).
Proof.
  intros Hc Hf. induction Hf as [|s suites Hs Hf IH]; intros acc a Ha Hmax; cbn [map fold_left sum_with] in *.
  { by rewrite Z.add_0_r. }
  destruct Hc as [Hcs Hc]. specialize (IH Hc).
  assert (0 <= sum_with tests_of suites) as Hpos.
  { clear -Hc. induction suites as [|x l IHl]; [done|]. cbn [map fold_right sum_with] in *. destruct Hc as [Hx Hl].
    pose proof (tests_nonneg x Hx). specialize (IHl Hl). lia. }
  pose proof (tests_nonneg s Hcs). assert (0 <= a) by (destruct Ha as (? & ? & ? & ? & ? & ?); lia).
  rewrite Z.add_assoc. apply IH; [|lia]. apply add_adds_up; [done|apply Hs; [done|lia]|lia].
Qed.

(** The summary of a consistent JUnit report, however its suites are
    nested, counts each of its tests once, as passed, failed, in error or
    skipped, when there are fewer than 2^63 of them. *)
Theorem junit_counts_add_up suite (Hc : consistent suite) (Hmax : tests_of suite <= int64_max) :
  adds_up (summarizeJUnitSuite suite) (tests_of suite).
Proof.
  revert Hc Hmax. induction suite as [tests failures errors skipped time suites cases IH] using junit_ind.
  destruct suites as [|x suites]; cbn [consistent tests_of summarizeJUnitSuite]; intros Hc Hmax; [by apply leaf_adds_up|].
  apply (sum_adds_up (x :: suites) Hc IH no_tests 0); [|done]. unfold adds_up, no_tests. cbn. lia.
Qed.
Definition passing_case (time : string) : junitCaseDocument := Case.mk time false false false.
Definition sample_report : junitSuiteDocument :=
  mkSuite "" "" "" "" "" [mkSuite "3" "1" "0" "1" "1.5" [] [passing_case "0.2"; Case.mk "0.6" true false false; Case.mk "0.7" false false true];
                          mkSuite "" "" "" "" "" [] [passing_case "1"; Case.mk "1" false true false]] [].
Lemma junit_counts_add_up_witness :
  summarizeJUnitSuite sample_report =
    mkTests 5 2 1 1 1 (F_add (default F_zero (ParseFloat "1.5")) (F_of_Z 2)) /\ adds_up (summarizeJUnitSuite sample_report) 5.
Proof.
  split; [vm_compute; reflexivity|]. apply (junit_counts_add_up sample_report).
  - vm_compute. repeat split; intros ?; discriminate.
  - vm_compute. intros ?; discriminate.
Defined.

(** The report of a step that left none is one test, passed or failed as the
    step, when the decoder reads what the encoder writes. *)
Lemma synthetic_summary root_of decode_testsuite decode_testsuites Marshal node status :
  (forall d name kind, TrimSpace (Marshal d name kind) = Marshal d name kind /\ Marshal d name kind <> "" /\
     root_of (Marshal d name kind) = Some "testsuite" /\ decode_testsuite (Marshal d name kind) = Some d) ->
  let failed := b2z (bool_decide (status = "failed")) in
  parseJUnitSummary root_of decode_testsuite decode_testsuites (syntheticJUnitReport Marshal node status) =
    Some (mkTests 1 (1 - failed) failed 0 0 F_zero).
Proof.
  intros H. unfold parseJUnitSummary, syntheticJUnitReport.
  destruct (H (synthetic_document status) (Name node) (Kind node)) as (-> & Hne & Hr & Hd).
  rewrite bool_decide_eq_false_2 by done. cbn zeta. rewrite Hr. cbn [mbind option_bind]. rewrite bool_decide_eq_true_2 by done.
  rewrite Hd. unfold synthetic_document. by case_bool_decide; vm_compute.
Qed.

(** * Findings *)

(** The time of a suite is the sum of its own time and that of its cases when
    nothing failed, so that it is counted twice. *)
Example passing_suite_takes_twice_as_long :
  DurationSeconds (summarizeJUnitSuite (mkSuite "2" "0" "0" "0" "3" [] [passing_case "1"; passing_case "2"])) = F_of_Z 6 /\
  DurationSeconds (summarizeJUnitSuite
    (mkSuite "2" "1" "0" "0" "3" [] [passing_case "1"; Case.mk "2" true false false])) = F_of_Z 3.
Proof. split; vm_compute; reflexivity. Qed.
(** The cases of a suite that also has suites are not counted. *)
Example cases_beside_suites_lost :
  summarizeJUnitSuite (mkSuite "2" "1" "0" "0" "" [mkSuite "1" "0" "0" "0" "" [] [passing_case ""]] [Case.mk "" true false false]) =
    mkTests 1 1 0 0 0 F_zero.
Proof. vm_compute. reflexivity. Qed.
(** Tests with another status are in the summary of the report, and are added
    once more when nothing passed, failed or was skipped. *)
Example other_results_counted_twice :
  let s := summarize_ctrf (mkCtrf 1 0 0 0 0 1 0 0 [("other", F_zero)]) in (Total s, Errors s) = (1, 2).
Proof. vm_compute. reflexivity. Qed.

Definition no_body (h : handle) : StepBody := Body.mk None None None "" false "" "" [] None [].
Definition export (path name format : string) : Runner.ArtifactExport := Runner.Artifact.mk path name "" format.
Definition exporting (exports : list Runner.ArtifactExport) (h : handle) : StepBody :=
  Body.mk None None None "" false "" "" [] None exports.
(** Two exports of one step whose files have the same name and format have one
    identifier, and the second is not recorded. *)
Lemma same_file_name_not_recorded :
  let exports := [export "unit/junit.xml" "" "raw"; export "e2e/junit.xml" "" "raw"] in
  let collected := {["unit/junit.xml" := "u"; "e2e/junit.xml" := "e"]} in
  (Path <$> (registerStepArtifacts (fun _ => None) (fun _ => None) (fun _ => None) (fun _ => None) (fun _ => None)
     (exporting exports) (fun _ _ _ => "") (StepInputs.sample_step "tests" "test" "" [] 0%nat) "healthy" collected []).1) =
  ["unit/junit.xml"].
Proof. vm_compute. reflexivity. Qed.
(** Exports of different steps can share an identifier. *)
Example steps_share_an_identifier :
  executionArtifactID "api" (export "out" "v2-log" "") = executionArtifactID "api-v2" (export "out" "log" "").
Proof. vm_compute. reflexivity. Qed.
(** A step whose container ends with status 0 and that fails on what it
    logged: the runner reads the exports of success, the execution records
    the ones of failure. *)
Lemma failed_expectation_loses_exports on :
  Containers.artifactTriggerMatchesStatus on "success" = true -> artifactExportMatchesStatus on "failed" = true ->
  TrimSpace on = "always".
Proof.
  unfold Containers.artifactTriggerMatchesStatus, artifactExportMatchesStatus. cbn zeta.
  repeat case_bool_decide; cbn; try done; set_solver.
Qed.
End Artifacts.
