(* ===== verification/SingleSignOn.v ===== *)
(** Single sign-on and the sessions of requests, [src/backend/internal/auth]
    oidc.go, config.go, http.go and the OIDC handlers of handler.go: the state
    cookie, the exchange with the provider, the account an identity gets, and
    what a request must present to reach a protected handler.

    The accounts, the tokens and the one-time codes are those of AuthHandlers
    and Sessions.  HMAC-SHA256, the JSON of the cookie, the random source, the
    OAuth and OIDC libraries and what the provider answers are arguments. *)
From Stdlib Require Import ZArith Lia Ascii.
From S2P Require Import Prelude GoStrings Runes Strconv Url Values Limits Sessions AuthHandlers Templates MockRequests.
Import GoStrings Runes Url Values.

Module SingleSignOn.

(** ** Configuration (config.go) *)
Module OIDC.
Record OIDCConfig := mk {
  Enabled : bool; ProviderID : string; ProviderName : string; IssuerURL : string; ClientID : string;
  RedirectURL : string; FrontendCallbackURL : string; Scopes : list string; PKCEEnabled : bool;
  StateCookieName : string; StateSecret : string; EmailClaim : string; NameClaim : string; GroupsClaim : string;
  AdminGroups : list string }.
End OIDC.
Notation OIDCConfig := OIDC.OIDCConfig.
Definition IsConfigured (c : OIDCConfig) : bool :=
  negb (blank (OIDC.IssuerURL c)) && negb (blank (OIDC.ClientID c)) && negb (blank (OIDC.RedirectURL c)) &&
  negb (bool_decide (OIDC.StateSecret c = "")).
Definition OIDCEnabled (c : OIDCConfig) : bool := OIDC.Enabled c && IsConfigured c.
Definition or_default (fallback value : string) : string :=
  let value := TrimSpace value in if bool_decide (value = "") then fallback else value.
Definition NormalizedProviderID (c : OIDCConfig) : string := or_default "oidc" (OIDC.ProviderID c).
Definition NormalizedProviderName (c : OIDCConfig) : string := or_default "Single Sign-On" (OIDC.ProviderName c).
Definition NormalizedStateCookieName (c : OIDCConfig) : string := or_default "babelsuite_oidc_state" (OIDC.StateCookieName c).
Definition NormalizedEmailClaim (c : OIDCConfig) : string := or_default "email" (OIDC.EmailClaim c).
Definition NormalizedNameClaim (c : OIDCConfig) : string := or_default "name" (OIDC.NameClaim c).
Definition NormalizedGroupsClaim (c : OIDCConfig) : string := or_default "groups" (OIDC.GroupsClaim c).
(** The items that are not blank, trimmed. *)
Definition trimmed_items (l : list string) : list string :=
  List.filter (fun s => negb (bool_decide (s = ""))) (TrimSpace <$> l).
Definition NormalizedScopes (c : OIDCConfig) : list string :=
  match trimmed_items (OIDC.Scopes c) with [] => ["openid"; "profile"; "email"; "groups"] | scopes => scopes end.

Record SSOProvider := mkProvider {
  ProviderID : string; ProviderLabel : string; ButtonLabel : string; ProviderEnabled : bool; StartURL : string; Hint : string }.
Definition Provider (c : OIDCConfig) (baseURL : string) : SSOProvider :=
  let name := NormalizedProviderName c in
  let make := mkProvider (NormalizedProviderID c) name ("Continue with " +:+ name) (OIDCEnabled c) in
  if OIDCEnabled c then make (TrimRight baseURL "/" +:+ "/api/v1/auth/oidc/login") ""
  else make "" "Set OIDC issuer, client, redirect, and state settings on the backend to enable this SSO path.".

(** ** base64.RawURLEncoding *)
Definition url64_char (v : Z) : ascii :=
  byte_of (if v <? 26 then 65 + v else if v <? 52 then 71 + v else if v <? 62 then v - 4 else if v =? 62 then 45 else 95).
Definition url64_value (c : ascii) : option Z :=
  let b := code c in
  if (65 <=? b) && (b <=? 90) then Some (b - 65)
  else if (97 <=? b) && (b <=? 122) then Some (b - 71)
  else if (48 <=? b) && (b <=? 57) then Some (b + 4)
  else if b =? 45 then Some 62 else if b =? 95 then Some 63 else None.
Fixpoint encode_bytes (l : bytes) : bytes :=
  match l with
  | a :: b :: c :: rest =>
      let n := code a * 65536 + code b * 256 + code c in
      url64_char (n / 262144) :: url64_char (n / 4096 mod 64) :: url64_char (n / 64 mod 64) :: url64_char (n mod 64) ::
      encode_bytes rest
  | [a; b] =>
      let n := code a * 1024 + code b * 4 in
      [url64_char (n / 4096); url64_char (n / 64 mod 64); url64_char (n mod 64)]
  | [a] => let n := code a * 16 in [url64_char (n / 64); url64_char (n mod 64)]
  | [] => []
  end.
Definition EncodeToString (s : string) : string := to_string (encode_bytes (of_string s)).
(** Four values give three bytes; two or three give one or two bytes, and the
    bits left over are not looked at. *)
Fixpoint decode_values (l : list Z) : option bytes :=
  match l with
  | a :: b :: c :: d :: rest =>
      let n := a * 262144 + b * 4096 + c * 64 + d in
      more ← decode_values rest;
      Some (byte_of (n / 65536) :: byte_of (n / 256 mod 256) :: byte_of (n mod 256) :: more)
  | [a; b; c] => let n := a * 1024 + b * 16 + c / 4 in Some [byte_of (n / 256); byte_of (n mod 256)]
  | [a; b] => Some [byte_of (a * 4 + b / 16)]
  | [_] => None
  | [] => Some []
  end.
Definition newline_byte (c : ascii) : bool := (code c =? 10) || (code c =? 13).
Definition DecodeString (s : string) : option string :=
  values ← mapM url64_value (List.filter (fun c => negb (newline_byte c)) (of_string s));
  to_string <$> decode_values values.

(** ** Addresses *)

(** [url.ParseQuery]: [None] is an error; the values of a key in order. *)
Definition query_pair (part : bytes) : option (string * string) :=
  let '(key, value, _) := cut_bytes "="%char part in
  key ← unescape encodeQuery key; value ← unescape encodeQuery value; Some (to_string key, to_string value).
Definition ParseQuery (query : string) : option (gmap string (list string)) :=
  foldl (fun m part =>
    m ← m;
    if bool_decide (part = []) then Some m
    else if bool_decide (";"%char ∈ part) then None
    else '(key, value) ← query_pair part; Some (<[key := default [] (m !! key) ++ [value]]> m))
    (Some ∅) (split_bytes "&" (of_string query)).
Definition Encode (values : gmap string (list string)) : string :=
  Join (concat ((fun k => (fun v => escape encodeQuery k +:+ "=" +:+ escape encodeQuery v) <$> default [] (values !! k)) <$>
    sort_strings (map_to_list values).*1)) "&".

Section Addresses.
Context (ip_literal : string -> bool).
Definition sanitizeReturnURL (frontendURL candidate : string) : string :=
  let candidate := TrimSpace candidate in
  if bool_decide (candidate = "") then "/"
  else if HasPrefix candidate "/" && negb (HasPrefix candidate "//") then candidate
  else match Url.Parse ip_literal frontendURL, Url.Parse ip_literal candidate with
  | Some base, Some target =>
      if bool_decide (Scheme target = "") || negb (EqualFold (Scheme base) (Scheme target)) ||
         negb (EqualFold (Host base) (Host target)) then "/"
      else
        let result := EscapedPath target in
        let result := if bool_decide (result = "") then "/" else result in
        if negb (bool_decide (RawQuery target = "")) then result +:+ "?" +:+ RawQuery target else result
  | _, _ => "/"
  end.
Definition set_fragment (fragment : string) (u : URL) : URL :=
  {| Scheme := Scheme u; Opaque := Opaque u; User := User u; Host := Host u; Path := Path u; RawQuery := RawQuery u;
     Fragment := fragment; RawPath := RawPath u; RawFragment := RawFragment u; ForceQuery := ForceQuery u;
     OmitHost := OmitHost u |}.
(** The values are a map: the order they are set in does not matter. *)
Definition appendFragmentParams (base : string) (values : list (string * string)) : string :=
  if blank base then ""
  else match Url.Parse ip_literal base with
  | None => base
  | Some parsed =>
      let params := if bool_decide (Fragment parsed = "") then ∅ else default ∅ (ParseQuery (Fragment parsed)) in
      let params := foldl (fun m kv => if blank kv.2 then m else <[kv.1 := [kv.2]]> m) params values in
      URL_String (set_fragment (Encode params) parsed)
  end.
End Addresses.

(** ** Identities (oidc.go) *)
Record oidcIdentity := mkIdentity { Subject : string; IdentityEmail : string; IdentityName : string; IdentityGroups : list string }.
Definition claims := list (string * any).
Fixpoint claim (key : string) (c : claims) : option any :=
  match c with
  | [] => None
  | (k, v) :: rest => if bool_decide (k = key) then Some v else claim key rest
  end.
Fixpoint extractStringClaim (c : claims) (keys : list string) : string :=
  match keys with
  | [] => ""
  | key :: rest =>
      let key := TrimSpace key in
      match claim key c with
      | Some (AString value) =>
          if bool_decide (key = "") || blank value then extractStringClaim c rest else TrimSpace value
      | _ => extractStringClaim c rest
      end
  end.
Definition normalizeGroups (groups : list string) : list string := trimmed_items groups.
Definition any_strings (items : list any) : list string :=
  omap (fun v => match v with AString s => Some s | _ => None end) items.
Fixpoint extractGroupsClaim (c : claims) (keys : list string) : list string :=
  match keys with
  | [] => []
  | key :: rest =>
      let key := TrimSpace key in
      if bool_decide (key = "") then extractGroupsClaim c rest
      else match claim key c with
      | Some (AStrings value) => normalizeGroups value
      | Some (AList items) => normalizeGroups (any_strings items)
      | Some (AString value) => normalizeGroups (Split value ",")
      | _ => extractGroupsClaim c rest
      end
  end.
Definition identityFromClaims (config : OIDCConfig) (c : claims) : oidcIdentity :=
  mkIdentity "" (extractStringClaim c [NormalizedEmailClaim config; "email"])
    (extractStringClaim c [NormalizedNameClaim config; "name"; "preferred_username"])
    (extractGroupsClaim c [NormalizedGroupsClaim config; "groups"]).
Definition first_of (a b : string) : string := if bool_decide (a = "") then b else a.
Definition mergeOIDCIdentity (primary fallback : oidcIdentity) : oidcIdentity :=
  mkIdentity (Subject primary) (first_of (IdentityEmail primary) (IdentityEmail fallback))
    (first_of (IdentityName primary) (IdentityName fallback))
    (match IdentityGroups primary with [] => IdentityGroups fallback | groups => groups end).

(** What the provider answers: the claims of the verified ID token and its
    subject, and the claims and the email of [UserInfo]. *)
Record verified_token := mkVerified { TokenClaims : goerr + claims; TokenSubject : string }.
Record user_info := mkInfo { InfoClaims : goerr + claims; InfoEmail : string }.
Definition lacks_something (i : oidcIdentity) : bool :=
  bool_decide (IdentityEmail i = "") || bool_decide (IdentityName i = "") || bool_decide (IdentityGroups i = []).
Definition with_user_info (config : OIDCConfig) (i : oidcIdentity) (info : goerr + user_info) : oidcIdentity :=
  match info with
  | inl _ => i
  | inr info =>
      let i := match InfoClaims info with
               | inr extra => mergeOIDCIdentity i (identityFromClaims config extra)
               | inl _ => i
               end in
      mkIdentity (Subject i) (first_of (IdentityEmail i) (TrimSpace (InfoEmail info))) (IdentityName i) (IdentityGroups i)
  end.
Definition identityFromToken (config : OIDCConfig) (accessToken : string) (token : verified_token)
    (info : goerr + user_info) : goerr + oidcIdentity :=
  check c := TokenClaims token in
  let i := identityFromClaims config c in
  let i := if negb (blank accessToken) && lacks_something i then with_user_info config i info else i in
  if bool_decide (IdentityEmail i = "") then inl (ErrText "oidc identity did not include an email claim")
  else inr (mkIdentity (TrimSpace (TokenSubject token)) (IdentityEmail i)
              (if bool_decide (IdentityName i = "") then FirstNonEmpty [IdentityEmail i; "Member"] else IdentityName i)
              (IdentityGroups i)).
Definition group_key (group : string) : string := ToLower (TrimSpace group).
Definition MapsGroupsToAdmin (config : OIDCConfig) (groups : list string) : bool :=
  existsb (fun g => bool_decide (group_key g <> "" /\ group_key g ∈ (group_key <$> OIDC.AdminGroups config))) groups.

(** ** The state cookie *)
Definition oidcStateTTL : Z := 10 * minute.
Record oidcState := mkOIDCState { State : string; CodeVerifier : string; ReturnURL : string; ExpiresAt : Z }.
Inductive sso_error :=
  | errOIDCDisabled
  | errInvalidOIDCState
  | errMissingOIDCCookie
  | SsoError (e : goerr).

Section Cookie.
(** [signWithHMAC] is [sign payload secret]; [Marshal] and [Unmarshal] are those
    of encoding/json for the state. *)
Context (sign : string -> string -> string) (Marshal : oidcState -> string) (Unmarshal : string -> option oidcState).

Definition signStateCookie (config : OIDCConfig) (state : oidcState) : string :=
  let encodedPayload := EncodeToString (Marshal state) in
  encodedPayload +:+ "." +:+ EncodeToString (sign encodedPayload (OIDC.StateSecret config)).
(** The two random tokens are drawn in this order. *)
Definition newStateCookie (config : OIDCConfig) (now : Z) (stateValue verifier : goerr + string) (returnURL : string)
    : goerr + (oidcState * string) :=
  check stateValue := stateValue in
  check verifier := verifier in
  let state := mkOIDCState stateValue verifier returnURL (now + oidcStateTTL) in
  inr (state, signStateCookie config state).
Definition readStateCookie (config : OIDCConfig) (cookie : option string) : sso_error + oidcState :=
  match cookie with
  | None => inl errMissingOIDCCookie
  | Some value =>
      if blank value then inl errMissingOIDCCookie
      else match Split value "." with
      | [payload; mac] =>
          match DecodeString mac with
          | None => inl errInvalidOIDCState
          | Some signature =>
              if negb (bool_decide (signature = sign payload (OIDC.StateSecret config))) then inl errInvalidOIDCState
              else match (payload ← DecodeString payload; Unmarshal payload) with
                   | Some state => inr state
                   | None => inl errInvalidOIDCState
                   end
          end
      | _ => inl errInvalidOIDCState
      end
  end.

(** ** The exchange *)

(** The provider: whether its configuration can be fetched, the token endpoint,
    which gives an access token and an ID token for a code and, with PKCE, its
    verifier, the verifier of ID tokens, and [UserInfo] for an access token. *)
Record provider := mkProviderCalls {
  Discover : option goerr;
  TokenFor : string -> option string -> goerr + (string * string);
  VerifyIDToken : string -> goerr + verified_token;
  UserInfo : string -> goerr + user_info;
}.
(** [providerConfig]: the configuration is fetched until it was once. *)
Definition providerConfig (p : provider) (resolved : bool) : bool * option goerr :=
  if resolved then (true, None) else match Discover p with Some e => (false, Some e) | None => (true, None) end.
Definition pkce_verifier (config : OIDCConfig) (state : oidcState) : option string :=
  if OIDC.PKCEEnabled config then Some (CodeVerifier state) else None.
Definition as_sso {A} (r : goerr + A) : sso_error + A := match r with inl e => inl (SsoError e) | inr x => inr x end.
Definition Exchange (config : OIDCConfig) (now : Z) (p : provider) (requestState code : string)
    (stateCookie : option string) (resolved : bool) : bool * (sso_error + (oidcIdentity * string)) :=
  if negb (OIDCEnabled config) then (resolved, inl errOIDCDisabled)
  else match readStateCookie config stateCookie with
  | inl e => (resolved, inl e)
  | inr state =>
      if After now (ExpiresAt state) then (resolved, inl errInvalidOIDCState)
      else if negb (bool_decide (State state = requestState)) then (resolved, inl errInvalidOIDCState)
      else match providerConfig p resolved with
      | (resolved, Some e) => (resolved, inl (SsoError e))
      | (resolved, None) => (resolved, as_sso (
          check tokens := TokenFor p code (pkce_verifier config state) in
          let '(accessToken, rawIDToken) := tokens in
          if blank rawIDToken then inl (ErrText "oidc response did not include an id token")
          else
            check idToken := VerifyIDToken p rawIDToken in
            check identity := identityFromToken config accessToken idToken (UserInfo p accessToken) in
            inr (identity, ReturnURL state)))
      end
  end.
(** What the login sends the browser to is made of the state and, with PKCE,
    the challenge. *)
Definition BeginLogin (config : OIDCConfig) (now : Z) (p : provider) (AuthCodeURL : string -> option string -> string)
    (sha256 : string -> string) (stateValue verifier : goerr + string) (returnURL : string) (resolved : bool)
    : bool * (sso_error + (string * string)) :=
  if negb (OIDCEnabled config) then (resolved, inl errOIDCDisabled)
  else match providerConfig p resolved with
  | (resolved, Some e) => (resolved, inl (SsoError e))
  | (resolved, None) => (resolved, as_sso (
      check made := newStateCookie config now stateValue verifier returnURL in
      let '(state, cookie) := made in
      inr (AuthCodeURL (State state)
             (if OIDC.PKCEEnabled config then Some (EncodeToString (sha256 (CodeVerifier state))) else None), cookie)))
  end.
End Cookie.

(** ** Sessions of requests (http.go) *)

(** What a request presents: the session an outer handler has found, the
    Authorization header and the token of the query. *)
Record credentials := mkCredentials { InContext : option Sessions.Claims; Authorization : string; QueryToken : string }.
Record VerifyOptions := mkOptions { AllowQueryToken : bool; Optional : bool }.
Inductive gate := Refused (status : Z) (message : string) | Passed (session : option Sessions.Claims).
Definition tokenFromRequest (r : credentials) (allowQueryToken : bool) : option string :=
  let bearer := TrimSpace (Authorization r) in
  let token := TrimSpace (TrimPrefix bearer "Bearer ") in
  if HasPrefix bearer "Bearer " && negb (bool_decide (token = "")) then Some token
  else if negb allowQueryToken then None
  else let token := TrimSpace (QueryToken r) in if bool_decide (token = "") then None else Some token.

Section Requests.
Context (lib : Sessions.jwt_library) (hashToken : string -> string).
Definition withSession (options : VerifyOptions) (parsed_at checked_at : Z) (r : credentials) (j : Sessions.JWTService)
    : Sessions.JWTService * gate :=
  match InContext r with
  | Some session => (j, Passed (Some session))
  | None =>
      match tokenFromRequest r (AllowQueryToken options) with
      | None => (j, if Optional options then Passed None else Refused 401 "Sign in required.")
      | Some token =>
          let (j, verified) := Sessions.Verify lib hashToken parsed_at checked_at token j in
          (j, match verified with
              | inr session => Passed (Some session)
              | inl _ => if Optional options then Passed None else Refused 401 "Session expired or invalid."
              end)
      end
  end.
Definition PopulateSession (allowQueryToken : bool) := withSession (mkOptions allowQueryToken true).
Definition RequireSession (allowQueryToken : bool) := withSession (mkOptions allowQueryToken false).
Definition RequireAdmin (parsed_at checked_at : Z) (r : credentials) (j : Sessions.JWTService)
    : Sessions.JWTService * gate :=
  let (j, g) := RequireSession false parsed_at checked_at r j in
  (j, match g with
      | Passed session =>
          if existsb Sessions.IsAdmin (option_list session) then Passed session
          else Refused 403 "Admin access required."
      | Refused _ _ => g
      end).
End Requests.

(** ** The handlers (handler.go) *)
Inductive sso_response :=
  | Failed (status : Z) (message : string)
  | Redirect (url : string).

Section Handlers.
Context {S : Type} `{store : AuthHandlers.Store S}.
Context (lib : Sessions.jwt_library) (NewString : nat -> string) (ip_literal : string -> bool)
  (sign : string -> string -> string) (Marshal : oidcState -> string) (Unmarshal : string -> option oidcState).

(** The account of an identity: the one with its email, or a new one in a new
    workspace, which goes away again when the account cannot be created. *)
Definition resolveOIDCUser (config : OIDCConfig) (clock : nat -> Z) (identity : oidcIdentity) (s : S)
    : S * (goerr + (AuthHandlers.User * AuthHandlers.Workspace * bool)) :=
  let email := AuthHandlers.normalize (IdentityEmail identity) in
  let admin := MapsGroupsToAdmin config (IdentityGroups identity) in
  if bool_decide (email = "") then (s, inl AuthHandlers.ErrNotFound)
  else match AuthHandlers.GetUserByEmail email s with
  | inr user =>
      (s, check workspace := AuthHandlers.GetWorkspaceByID (AuthHandlers.UserWorkspace user) s in
          inr (user, workspace, AuthHandlers.Admin user || admin))
  | inl e =>
      if negb (errors_Is e AuthHandlers.ErrNotFound) then (s, inl e)
      else
        let fullName := TrimSpace (IdentityName identity) in
        let fullName := if bool_decide (fullName = "") then AuthHandlers.emailPrefix email else fullName in
        match AuthHandlers.createWorkspace NewString clock fullName email s with
        | (s, _, inl e) => (s, inl e)
        | (s, drawn, inr workspace) =>
            match AuthHandlers.createUser NewString (fun k => clock (5 + k)%nat) drawn fullName email ""
                    (AuthHandlers.WorkspaceID workspace) admin s with
            | (s, inl e) => ((AuthHandlers.DeleteWorkspace (AuthHandlers.WorkspaceID workspace) s).1, inl e)
            | (s, inr user) => (s, inr (user, workspace, admin))
            end
        end
  end.

Definition redirectOIDCError (config : OIDCConfig) (message : string) : sso_response :=
  Redirect (appendFragmentParams ip_literal (OIDC.FrontendCallbackURL config) [("error", message)]).
Definition no_sso_session : string := "Could not create your session right now.".
(** The query of the callback. *)
Record callback := mkCallback { ErrorDescription : string; CallbackError : string; Code : string; CallbackState : string }.

(** The end of [oidcCallback]: the account, the two tokens and the one-time
    code.  [clock] has the readings after the exchange. *)
Definition oidc_session (config : OIDCConfig) (clock : nat -> Z) (draw : goerr + string) (identity : oidcIdentity)
    (returnURL : string) (h : AuthHandlers.Handler) : AuthHandlers.Handler (S := S) * sso_response :=
  let refuse h := (h, redirectOIDCError config no_sso_session) in
  let (s, found) := resolveOIDCUser config clock identity (AuthHandlers.accounts h) in
  let h := AuthHandlers.set_accounts s h in
  match found with
  | inl _ => refuse h
  | inr (user, workspace, isAdmin) =>
      let provider := NormalizedProviderID config in
      let id := AuthHandlers.ID user in
      let workspaceID := AuthHandlers.WorkspaceID workspace in
      match Sessions.Sign lib (clock 10%nat) (clock 11%nat) id workspaceID isAdmin (IdentityGroups identity) provider
              (AuthHandlers.jwt h),
            Sessions.SignRefresh lib (clock 12%nat) (clock 13%nat) id workspaceID isAdmin provider (AuthHandlers.jwt h) with
      | inr (token, expiresAt), inr (refresh, refreshExpiresAt) =>
          match Sessions.store (clock 14%nat) draw token expiresAt refresh refreshExpiresAt (AuthHandlers.pending h) with
          | (_, inl _) => refuse h
          | (pending, inr code) =>
              (AuthHandlers.mkHandler (AuthHandlers.accounts h) (AuthHandlers.jwt h) pending (AuthHandlers.lockout h),
               Redirect (appendFragmentParams ip_literal (OIDC.FrontendCallbackURL config)
                           [("code", code); ("return_url", returnURL)]))
          end
      | _, _ => refuse h
      end
  end.
Definition oidcCallback (config : OIDCConfig) (now : Z) (clock : nat -> Z) (p : provider) (draw : goerr + string)
    (query : callback) (cookie : option string) (resolved : bool) (h : AuthHandlers.Handler)
    : bool * AuthHandlers.Handler * sso_response :=
  if negb (OIDCEnabled config) then (resolved, h, Failed 404 "Single sign-on is not configured.")
  else if negb (blank (ErrorDescription query)) || negb (blank (CallbackError query)) then
    (resolved, h, redirectOIDCError config "Single sign-on failed.")
  else match cookie with
  | None => (resolved, h, redirectOIDCError config "Single sign-on state has expired. Please try again.")
  | Some _ =>
      let code := TrimSpace (Code query) in
      let stateValue := TrimSpace (CallbackState query) in
      if bool_decide (code = "") || bool_decide (stateValue = "") then
        (resolved, h, redirectOIDCError config "Single sign-on response is missing the required state.")
      else match Exchange sign Unmarshal config now p stateValue code cookie resolved with
      | (resolved, inl _) =>
          (resolved, h, redirectOIDCError config "Could not complete single sign-on right now.")
      | (resolved, inr (identity, returnURL)) =>
          let (h, response) := oidc_session config clock draw identity returnURL h in (resolved, h, response)
      end
  end.
Definition oidcLogin (config : OIDCConfig) (frontendURL : string) (now : Z) (p : provider)
    (AuthCodeURL : string -> option string -> string) (sha256 : string -> string) (stateValue verifier : goerr + string)
    (return_url : string) (resolved : bool) : bool * option string * sso_response :=
  if negb (OIDCEnabled config) then (resolved, None, Failed 404 "Single sign-on is not configured.")
  else
    let returnURL := sanitizeReturnURL ip_literal frontendURL return_url in
    match BeginLogin sign Marshal config now p AuthCodeURL sha256 stateValue verifier returnURL resolved with
    | (resolved, inl _) => (resolved, None, Failed 502 "Could not start single sign-on right now.")
    | (resolved, inr (url, cookie)) => (resolved, Some cookie, Redirect url)
    end.
End Handlers.

(** * The state cookie *)
Definition six_bits : list Z := seqZ 0 64.
Lemma url64_table : Forall (fun v => url64_value (url64_char v) = Some v /\ newline_byte (url64_char v) = false /\
  url64_char v <> "."%char /\ (32 <? code (url64_char v)) && (code (url64_char v) <? 128) = true) six_bits.
Proof. repeat constructor; vm_compute; done. Qed.
Lemma url64_inverse v : 0 <= v < 64 -> url64_value (url64_char v) = Some v /\ newline_byte (url64_char v) = false /\
  url64_char v <> "."%char /\ (32 <? code (url64_char v)) && (code (url64_char v) <? 128) = true.
Proof. intros Hv. apply (proj1 (Forall_forall _ _) url64_table). apply elem_of_seqZ. lia. Qed.
Lemma byte_code z c : z = code c -> byte_of z = c.
Proof. intros ->. apply byte_of_code. Qed.

Ltac div_mod := cbv beta; Z.to_euclidean_division_equations; lia.
(** The encoded text stands for values below 64, which give the bytes back. *)
Lemma encode_values n : forall l, (length l <= n)%nat -> exists vs, encode_bytes l = url64_char <$> vs /\
  Forall (fun v => 0 <= v < 64) vs /\ decode_values vs = Some l.
Proof.
  induction n as [|n IH]; intros l Hl; [destruct l; [by exists []|cbn in Hl; lia]|].
  destruct l as [|a [|b [|c rest]]].
  - by exists [].
  - pose proof (code_range a). exists [code a * 16 / 64; (code a * 16) mod 64]. split; [done|]. split.
    + repeat (apply Forall_cons_2; [by split; div_mod|]). apply Forall_nil_2.
    + cbn [decode_values]. f_equal. f_equal. apply byte_code. div_mod.
  - pose proof (code_range a). pose proof (code_range b). set (m := code a * 1024 + code b * 4).
    exists [m / 4096; m / 64 mod 64; m mod 64]. split; [done|]. split.
    + repeat (apply Forall_cons_2; [by split; div_mod|]). apply Forall_nil_2.
    + cbn [decode_values]. f_equal. f_equal; [apply byte_code; div_mod|]. f_equal. apply byte_code. div_mod.
  - pose proof (code_range a). pose proof (code_range b). pose proof (code_range c).
    set (m := code a * 65536 + code b * 256 + code c). destruct (IH rest) as (vs & Hvs & Hf & Hd); [cbn in Hl; lia|].
    exists (m / 262144 :: m / 4096 mod 64 :: m / 64 mod 64 :: m mod 64 :: vs). split; [|split].
    + cbn [encode_bytes fmap list_fmap]. fold m. by rewrite Hvs.
    + repeat (apply Forall_cons_2; [by split; div_mod|]). done.
    + cbn [decode_values]. rewrite Hd. cbn [mbind option_bind].
      assert (m / 262144 * 262144 + m / 4096 mod 64 * 4096 + m / 64 mod 64 * 64 + m mod 64 = m) as -> by (clearbody m; div_mod).
      f_equal. f_equal; [apply byte_code; div_mod|]. f_equal; [apply byte_code; div_mod|]. f_equal. apply byte_code. div_mod.
Qed.
Lemma mapM_values vs : Forall (fun v => 0 <= v < 64) vs ->
  mapM url64_value (List.filter (fun c => negb (newline_byte c)) (url64_char <$> vs)) = Some vs.
Proof.
  induction 1 as [|v vs Hv _ IH]; [done|]. destruct (url64_inverse v Hv) as (Hval & Hnl & _).
  cbn [fmap list_fmap List.filter]. rewrite Hnl. cbn [negb mapM]. rewrite Hval. cbn [mbind option_bind]. by rewrite IH.
Qed.
Lemma decode_encoded s : DecodeString (EncodeToString s) = Some s.
Proof.
  destruct (encode_values _ (of_string s) (le_n _)) as (vs & Hvs & Hf & Hd). unfold DecodeString, EncodeToString.
  rewrite of_to, Hvs, mapM_values by done. cbn [mbind option_bind]. rewrite Hd. cbn. by rewrite to_of.
Qed.
Lemma encoded_no_dot s : Forall (fun c => c <> "."%char) (of_string (EncodeToString s)).
Proof.
  destruct (encode_values _ (of_string s) (le_n _)) as (vs & Hvs & Hf & _). unfold EncodeToString. rewrite of_to, Hvs.
  apply Forall_fmap. eapply Forall_impl; [exact Hf|]. intros v Hv. apply (url64_inverse v Hv).
Qed.
Lemma to_string_app (a b : bytes) : to_string (a ++ b) = to_string a +:+ to_string b.
Proof. induction a as [|c a IH]; [done|]. cbn. unfold to_string in *. by rewrite IH. Qed.
Lemma split_joined a b : Forall (fun c => c <> "."%char) (of_string a) -> Forall (fun c => c <> "."%char) (of_string b) ->
  Split (a +:+ "." +:+ b) "." = [a; b].
Proof.
  intros Ha Hb. unfold Split. rewrite !Runes.of_string_app. change (of_string "." ++ of_string b) with ("."%char :: of_string b).
  rewrite split_app, !split_no_sep by done. cbn. by rewrite !to_of.
Qed.

Lemma encoded_visible s : Forall Templates.visible (of_string (EncodeToString s)).
Proof.
  destruct (encode_values _ (of_string s) (le_n _)) as (vs & Hvs & Hf & _). unfold EncodeToString. rewrite of_to, Hvs.
  apply Forall_fmap. eapply Forall_impl; [exact Hf|]. intros v Hv. destruct (url64_inverse v Hv) as (_ & _ & _ & E).
  bool_to_prop. by split.
Qed.
Lemma signed_not_blank a b : blank (EncodeToString a +:+ "." +:+ EncodeToString b) = false.
Proof.
  apply blank_false. unfold TrimSpace. rewrite MockRequests.trim_all_visible, to_of.
  - intros H. apply (f_equal of_string) in H. rewrite Runes.of_string_app in H. by destruct (of_string (EncodeToString a)).
  - rewrite !Runes.of_string_app. apply Forall_app. split; [apply encoded_visible|]. apply Forall_app.
    split; [|apply encoded_visible]. constructor; [by vm_compute|constructor].
Qed.

(** What a cookie that is accepted holds: a state, and the signature of it
    under the server's secret. *)
Definition signed_state sign Unmarshal (config : OIDCConfig) (cookie : string) (state : oidcState) : Prop :=
  exists payload mac json, Split cookie "." = [payload; mac] /\
    DecodeString mac = Some (sign payload (OIDC.StateSecret config)) /\
    DecodeString payload = Some json /\ Unmarshal json = Some state.

Lemma read_signed sign Unmarshal config cookie state :
  readStateCookie sign Unmarshal config (Some cookie) = inr state <->
  blank cookie = false /\ signed_state sign Unmarshal config cookie state.
Proof.
  cbn [readStateCookie]. destruct (blank cookie) eqn:Hb; [split; [done|by intros [? _]]|].
  unfold signed_state. split.
  - intros H. split; [done|]. destruct (Split cookie ".") as [|payload [|mac [|]]] eqn:Hs; try done.
    destruct (DecodeString mac) as [signature|] eqn:Hm; [|done]. case_bool_decide as Hsig; cbn [negb] in H; [|done].
    destruct (DecodeString payload) as [json|] eqn:Hp; cbn [mbind option_bind] in H; [|done].
    destruct (Unmarshal json) as [st|] eqn:Hu; [|done]. injection H as ->. exists payload, mac, json. by rewrite Hm, Hsig.
  - intros (_ & payload & mac & json & -> & -> & Hp & Hu). rewrite bool_decide_eq_true_2 by done. cbn [negb].
    rewrite Hp. cbn [mbind option_bind]. by rewrite Hu.
Qed.

(** The state cookie the login sets is read back by the callback, and a
    cookie is accepted exactly when it is a state with the signature of it
    under the server's secret. *)
Theorem state_cookie_round_trip (sign : string -> string -> string) Marshal Unmarshal config
    (Hjson : forall state, Unmarshal (Marshal state) = Some state) :
  (forall state, readStateCookie sign Unmarshal config (Some (signStateCookie sign Marshal config state)) = inr state) /\
  (forall cookie state, readStateCookie sign Unmarshal config (Some cookie) = inr state <->
     blank cookie = false /\ signed_state sign Unmarshal config cookie state).
Proof.
  split; [|apply read_signed]. intros state. apply read_signed. unfold signStateCookie. split; [apply signed_not_blank|].
  eexists _, _, _. split_and!; [apply split_joined; apply encoded_no_dot|apply decode_encoded|apply decode_encoded|apply Hjson].
Qed.

(** * Sessions through single sign-on *)
Section Justified.
Context {S : Type} `{store : AuthHandlers.Store S} `{laws : !AuthHandlers.StoreLaws S}.
Context (lib : Sessions.jwt_library) (NewString : nat -> string) (ip_literal : string -> bool)
  (sign : string -> string -> string) (Unmarshal : string -> option oidcState).

(** The provider vouched for the identity: the code of the request was
    exchanged, with the verifier of the state, for an ID token that verifies. *)
Definition vouched (config : OIDCConfig) (p : provider) (code : string) (state : oidcState) (identity : oidcIdentity) : Prop :=
  exists accessToken rawIDToken idToken,
    TokenFor p code (pkce_verifier config state) = inr (accessToken, rawIDToken) /\
    VerifyIDToken p rawIDToken = inr idToken /\
    identityFromToken config accessToken idToken (UserInfo p accessToken) = inr identity.
Lemma exchange_spec config now p requestState code cookie resolved resolved' identity returnURL :
  Exchange sign Unmarshal config now p requestState code cookie resolved = (resolved', inr (identity, returnURL)) ->
  exists value state, cookie = Some value /\ signed_state sign Unmarshal config value state /\
    now <= ExpiresAt state /\ State state = requestState /\ returnURL = ReturnURL state /\
    vouched config p code state identity.
Proof using Type.
  unfold Exchange. destruct (negb (OIDCEnabled config)); [done|].
  destruct (readStateCookie sign Unmarshal config cookie) as [e|state] eqn:Hread; [done|].
  destruct (After now (ExpiresAt state)) eqn:Ht; [done|]. case_bool_decide as Hst; cbn [negb]; [|done].
  destruct (providerConfig p resolved) as [b [e|]]; [done|]. intros [= _ H].
  destruct (TokenFor p code _) as [e|[accessToken raw]] eqn:Htok; [done|]. destruct (blank raw); [done|].
  destruct (VerifyIDToken p raw) as [e|idToken] eqn:Hver; [done|].
  destruct (identityFromToken _ _ _ _) as [e|i] eqn:Hid; [done|]. injection H as <- <-.
  destruct cookie as [value|]; [|done]. exists value, state. unfold After in Ht. bool_to_prop.
  split_and!; [done|by apply read_signed|done|done|done|by exists accessToken, raw, idToken].
Qed.
Lemma resolve_account config clock identity s s' result :
  resolveOIDCUser NewString config clock identity s = (s', result) ->
  match result with
  | inl _ => s' = s
  | inr (user, workspace, isAdmin) =>
      AuthHandlers.normalize (IdentityEmail identity) <> "" /\
      AuthHandlers.GetUserByEmail (AuthHandlers.normalize (IdentityEmail identity)) s' = inr user /\
      (isAdmin = true -> AuthHandlers.Admin user = true \/ MapsGroupsToAdmin config (IdentityGroups identity) = true) /\
      (s' = s \/ exists e, AuthHandlers.GetUserByEmail (AuthHandlers.normalize (IdentityEmail identity)) s = inl e /\
                           errors_Is e AuthHandlers.ErrNotFound = true)
  end.
Proof using laws.
  unfold resolveOIDCUser. set (email := AuthHandlers.normalize _). case_bool_decide as He; [by intros [= <- <-]|].
  destruct (AuthHandlers.GetUserByEmail email s) as [e|user] eqn:Hu.
  2:{ intros [= <- <-]. destruct (AuthHandlers.GetWorkspaceByID _ s) as [e|workspace]; [done|].
      split; [done|]. split; [done|]. split; [by intros [?|?]%orb_true_iff; auto|by left]. }
  destruct (errors_Is e AuthHandlers.ErrNotFound) eqn:Hnf; cbn [negb]; [|by intros [= <- <-]].
  set (fullName := if bool_decide (TrimSpace (IdentityName identity) = "") then _ else _).
  destruct (AuthHandlers.createWorkspace NewString clock fullName email s) as [[s1 drawn] [e1|workspace]] eqn:Hw;
    unfold AuthHandlers.createWorkspace in Hw; apply (AuthHandlers.workspace_loop_spec NewString (StoreLaws0 := laws)) in Hw; [by subst; intros [= <- <-]|].
  destruct (AuthHandlers.createUser _ _ _ _ _ _ _ _ s1) as [s2 [e2|user]] eqn:Hc;
    unfold AuthHandlers.createUser in Hc; apply (AuthHandlers.user_loop_spec NewString (StoreLaws0 := laws)) in Hc.
  - subst s2. intros [= <- <-]. by apply AuthHandlers.delete_created.
  - destruct Hc as (Hc & Hemail & _). intros [= <- <-]. split; [done|]. split; [|split; [by right|right; by exists e]].
    rewrite <-Hemail. by eapply AuthHandlers.get_created_user.
Qed.

(** A one-time code for a session of the account: the tokens behind it carry
    the account, whether the session is an administrator's, and the groups. *)
Definition code_issued config clock identity user (isAdmin : bool) (code : string) (h h' : AuthHandlers.Handler (S := S)) : Prop :=
  exists workspaceID token expires refresh refreshExpires,
    Sessions.Sign lib (clock 10%nat) (clock 11%nat) (AuthHandlers.ID user) workspaceID isAdmin (IdentityGroups identity)
      (NormalizedProviderID config) (AuthHandlers.jwt h) = inr (token, expires) /\
    Sessions.SignRefresh lib (clock 12%nat) (clock 13%nat) (AuthHandlers.ID user) workspaceID isAdmin
      (NormalizedProviderID config) (AuthHandlers.jwt h) = inr (refresh, refreshExpires) /\
    AuthHandlers.pending h' = <[code := Sessions.mkPending token expires (clock 14%nat) refresh refreshExpires]>
      (Sessions.drop_expired (clock 14%nat) (AuthHandlers.pending h)).
Lemma session_spec config clock draw identity returnURL h h' response :
  oidc_session lib NewString ip_literal config clock draw identity returnURL h = (h', response) ->
  AuthHandlers.jwt h' = AuthHandlers.jwt h /\ AuthHandlers.lockout h' = AuthHandlers.lockout h /\
  ((AuthHandlers.pending h' = AuthHandlers.pending h /\ response = redirectOIDCError ip_literal config no_sso_session) \/
   exists user workspace isAdmin code, draw = inr code /\
     resolveOIDCUser NewString config clock identity (AuthHandlers.accounts h) =
       (AuthHandlers.accounts h', inr (user, workspace, isAdmin)) /\
     code_issued config clock identity user isAdmin code h h' /\
     response = Redirect (appendFragmentParams ip_literal (OIDC.FrontendCallbackURL config)
                            [("code", code); ("return_url", returnURL)])).
Proof using Type.
  unfold oidc_session. destruct (resolveOIDCUser _ _ _ _ _) as [s [e|[[user workspace] isAdmin]]] eqn:Hr.
  { intros [= <- <-]. split_and!; [done|done|by left]. }
  cbn [AuthHandlers.set_accounts AuthHandlers.jwt AuthHandlers.pending AuthHandlers.accounts AuthHandlers.lockout].
  destruct (Sessions.Sign _ _ _ _ _ _ _ _ _) as [e|[token expires]] eqn:Hs; [intros [= <- <-]; split_and!; [done|done|by left]|].
  destruct (Sessions.SignRefresh _ _ _ _ _ _ _ _) as [e|[refresh refreshExpires]] eqn:Hf;
    [intros [= <- <-]; split_and!; [done|done|by left]|].
  destruct draw as [e|code]; cbn [Sessions.store]; intros [= <- <-]; (split_and!; [done|done|]); [by left|].
  right. exists user, workspace, isAdmin, code. split_and!; [done|done| |done].
  eexists _, _, _, _, _. split_and!; [exact Hs|exact Hf|done].
Qed.

(** What is answered when no code is handed out. *)
Definition refusal (config : OIDCConfig) (response : sso_response) : Prop :=
  (exists status message, response = Failed status message) \/
  exists message, response = redirectOIDCError ip_literal config message.

(** C18: The callback of single sign-on hands out a code for a session only
    when the browser returned a state this server signed, not expired and the
    one of the request, and the provider vouched for the identity in exchange
    for the code of the request; the session is that of the account with the
    identity's email, an administrator's only when the account or one of the
    identity's groups is; in every other case no code is handed out. *)
Theorem sso_session_justified config now clock p draw query cookie resolved resolved' h h' response
    (H : oidcCallback lib NewString ip_literal sign Unmarshal config now clock p draw query cookie resolved h =
         (resolved', h', response)) :
  AuthHandlers.jwt h' = AuthHandlers.jwt h /\ AuthHandlers.lockout h' = AuthHandlers.lockout h /\
  ((AuthHandlers.pending h' = AuthHandlers.pending h /\ refusal config response) \/
   exists value state identity user isAdmin code,
     cookie = Some value /\ signed_state sign Unmarshal config value state /\ now <= ExpiresAt state /\
     State state = TrimSpace (CallbackState query) /\ vouched config p (TrimSpace (Code query)) state identity /\
     draw = inr code /\ code_issued config clock identity user isAdmin code h h' /\
     AuthHandlers.GetUserByEmail (AuthHandlers.normalize (IdentityEmail identity)) (AuthHandlers.accounts h') = inr user /\
     (isAdmin = true -> AuthHandlers.Admin user = true \/ MapsGroupsToAdmin config (IdentityGroups identity) = true) /\
     response = Redirect (appendFragmentParams ip_literal (OIDC.FrontendCallbackURL config)
                            [("code", code); ("return_url", ReturnURL state)])).
Proof using laws.
  unfold oidcCallback in H. destruct (negb (OIDCEnabled config)).
  { injection H as <- <- <-. split_and!; [done|done|]. left. split; [done|]. left. by eexists _, _. }
  assert (forall message, refusal config (redirectOIDCError ip_literal config message)) as Hrefused
    by (intros message; right; by exists message).
  destruct (negb (blank (ErrorDescription query)) || negb (blank (CallbackError query))).
  { injection H as <- <- <-. split_and!; [done|done|]. left. by split. }
  destruct cookie as [value|]; [|injection H as <- <- <-; split_and!; [done|done|]; left; by split].
  destruct (_ || _); [injection H as <- <- <-; split_and!; [done|done|]; left; by split|].
  destruct (Exchange _ _ _ _ _ _ _ _ _) as [r [e|[identity returnURL]]] eqn:He;
    [injection H as <- <- <-; split_and!; [done|done|]; left; by split|].
  destruct (oidc_session _ _ _ _ _ _ _ _ _) as [h1 response1] eqn:Hs. injection H as _ <- <-.
  apply exchange_spec in He as (v & state & [= <-] & Hsigned & Ht & Hst & -> & Hv).
  apply session_spec in Hs as (Hj & Hl & [[Hp ->]|(user & workspace & isAdmin & code & Hd & Hr & Hc & ->)]).
  - split_and!; [done|done|]. left. by split.
  - split_and!; [done|done|]. right. apply resolve_account in Hr as (_ & Hu & Ha & _).
    exists value, state, identity, user, isAdmin, code. by split_and!.
Qed.
End Justified.

(** * Requests *)

(** A handler for administrators is reached by a request only with a bearer
    token that verifies and says so; the token of the query never counts. *)
Lemma admin_gate lib hashToken parsed_at checked_at r j session :
  InContext r = None ->
  (RequireAdmin lib hashToken parsed_at checked_at r j).2 = Passed session <->
  exists token claims, tokenFromRequest r false = Some token /\ HasPrefix (TrimSpace (Authorization r)) "Bearer " = true /\
    (Sessions.Verify lib hashToken parsed_at checked_at token j).2 = inr claims /\
    Sessions.IsAdmin claims = true /\ session = Some claims.
Proof.
  intros Hc. unfold RequireAdmin, RequireSession, withSession. rewrite Hc. cbn [AllowQueryToken Optional].
  destruct (tokenFromRequest r false) as [token|] eqn:Ht.
  2:{ cbn. split; [done|]. by intros (? & ? & ? & _). }
  assert (HasPrefix (TrimSpace (Authorization r)) "Bearer " = true) as Hp.
  { unfold tokenFromRequest in Ht. cbn [negb] in Ht. destruct (HasPrefix _ _); [done|]. by cbn in Ht. }
  destruct (Sessions.Verify lib hashToken parsed_at checked_at token j) as [j' [e|claims]] eqn:Hv; cbn.
  - split; [done|]. intros (? & ? & [= <-] & _ & H & _). by rewrite Hv in H.
  - destruct (Sessions.IsAdmin claims) eqn:Ha; cbn.
    + split; [intros [= <-]; exists token, claims; by rewrite Hv|]. intros (? & ? & [= <-] & _ & H & _ & ->).
      rewrite Hv in H. cbn in H. by injection H as ->.
    + split; [done|]. intros (? & ? & [= <-] & _ & H & Ha' & _). rewrite Hv in H. cbn in H. injection H as ->. congruence.
Qed.
(** Every handler inside a gate sees the session the gate has found. *)
Lemma inner_gate lib hashToken options parsed_at checked_at r j session :
  InContext r = Some session ->
  withSession lib hashToken options parsed_at checked_at r j = (j, Passed (Some session)).
Proof. intros Hc. unfold withSession. by rewrite Hc. Qed.

(** * Witnesses *)
#[local] Existing Instance AuthHandlers.memory_store.
#[local] Existing Instance AuthHandlers.memory_laws.
Fixpoint bits (p : positive) : string :=
  match p with xH => "" | xO p => String "0" (bits p) | xI p => String "1" (bits p) end.
Fixpoint unbits (s : string) : positive :=
  match s with
  | "" => xH
  | String c s => if bool_decide (c = "0"%char) then xO (unbits s) else xI (unbits s)
  end.
Lemma unbits_bits p : unbits (bits p) = p.
Proof. induction p as [p IH|p IH|]; cbn; by rewrite ?IH. Qed.
Definition toy_marshal (st : oidcState) : string :=
  bits (encode (State st, CodeVerifier st, ReturnURL st, ExpiresAt st)).
Definition toy_unmarshal (s : string) : option oidcState :=
  (fun '(a, b, c, d) => mkOIDCState a b c d) <$> decode (A := string * string * string * Z) (unbits s).
Lemma toy_json st : toy_unmarshal (toy_marshal st) = Some st.
Proof. unfold toy_unmarshal, toy_marshal. rewrite unbits_bits, decode_encode. by destruct st. Qed.
Definition toy_sign (payload secret : string) : string := secret +:+ payload.
Definition sample_config : OIDCConfig :=
  OIDC.mk true "" "" "https://issuer.example" "client" "https://api.example/callback" "https://app.example/auth/callback"
    [] true "" "secret" "" "" "" ["Admins"].
Definition sample_state : oidcState := mkOIDCState "st" "ver" "/catalog" 600.
Definition sample_cookie : string := signStateCookie toy_sign toy_marshal sample_config sample_state.
Lemma state_cookie_round_trip_witness :
  readStateCookie toy_sign toy_unmarshal sample_config (Some sample_cookie) = inr sample_state /\
  readStateCookie toy_sign toy_unmarshal sample_config (Some ("x" +:+ sample_cookie)) = inl errInvalidOIDCState.
Proof.
  split; [|vm_compute; reflexivity].
  exact (proj1 (state_cookie_round_trip toy_sign toy_marshal toy_unmarshal sample_config toy_json) sample_state).
Defined.

Definition sample_provider : provider :=
  mkProviderCalls None
    (fun code verifier => if bool_decide (code = "code" /\ verifier = Some "ver") then inr ("access", "raw") else inl (ErrText "bad"))
    (fun raw => inr (mkVerified (inr [("email", AString "Ada@Example.org"); ("name", AString "Ada");
                                      ("groups", AList [AString " admins "])]) "subject"))
    (fun _ => inl (ErrText "")).
Definition sample_query : callback := mkCallback "" "" "code" "st".
Definition signed_on : bool * AuthHandlers.Handler * sso_response :=
  oidcCallback AuthHandlers.plain_library AuthHandlers.ids (fun _ => false) toy_sign toy_unmarshal sample_config 10
    AuthHandlers.tick sample_provider (inr "once") sample_query (Some sample_cookie) false AuthHandlers.with_account.
Lemma sso_session_justified_witness :
  (exists entry, AuthHandlers.pending signed_on.1.2 !! "once" = Some entry) /\
  exists state identity, signed_state toy_sign toy_unmarshal sample_config sample_cookie state /\ State state = "st" /\
    vouched sample_config sample_provider "code" state identity.
Proof.
  split; [eexists; vm_compute; reflexivity|].
  assert (signed_on = (signed_on.1.1, signed_on.1.2, signed_on.2)) as E by by destruct signed_on as [[? ?] ?].
  unfold signed_on at 1 in E. apply sso_session_justified in E
    as (_ & _ & [[Hp _]|(value & state & identity & user & isAdmin & code & [= <-] & Hs & _ & Hst & Hv & _)]).
  - exfalso. apply (f_equal (lookup "once")) in Hp. vm_compute in Hp. discriminate Hp.
  - exists state, identity. split; [exact Hs|]. split; [exact Hst|exact Hv].
Defined.

(** * Findings *)

(** An address of the server itself whose path starts with two slashes comes
    out as an address of another server. *)
Example return_url_leaves_the_site :
  sanitizeReturnURL (fun _ => false) "https://app.example" "//evil.example/x" = "/" /\
  sanitizeReturnURL (fun _ => false) "https://app.example" "https://app.example//evil.example/x" = "//evil.example/x" /\
  sanitizeReturnURL (fun _ => false) "https://app.example" ("/" +:+ String Strconv.backslash "evil.example") =
    "/" +:+ String Strconv.backslash "evil.example".
Proof. repeat split; vm_compute; reflexivity. Qed.
(** The parameters of the fragment are escaped twice. *)
Example fragment_escaped_twice :
  appendFragmentParams (fun _ => false) "https://app.example/auth/callback" [("code", "c"); ("return_url", "/catalog")] =
    "https://app.example/auth/callback#code=c&return_url=%252Fcatalog".
Proof. vm_compute. reflexivity. Qed.
Lemma extract_string_other k v (c : claims) keys : Forall (fun key => TrimSpace key <> k) keys ->
  extractStringClaim ((k, v) :: c) keys = extractStringClaim c keys.
Proof.
  induction 1 as [|key keys Hk _ IH]; [done|]. cbn [extractStringClaim claim]. cbn zeta.
  rewrite bool_decide_eq_false_2 by congruence. by rewrite IH.
Qed.
Lemma extract_groups_other k v (c : claims) keys : Forall (fun key => TrimSpace key <> k) keys ->
  extractGroupsClaim ((k, v) :: c) keys = extractGroupsClaim c keys.
Proof.
  induction 1 as [|key keys Hk _ IH]; [done|]. cbn [extractGroupsClaim claim]. cbn zeta.
  rewrite (bool_decide_eq_false_2 (k = _)) by congruence. by rewrite IH.
Qed.
(** What the provider says about the email being verified is not looked at. *)
Lemma unverified_email_is_enough config (c : claims) (verified : any) :
  Forall (fun key => TrimSpace key <> "email_verified")
    [NormalizedEmailClaim config; NormalizedNameClaim config; NormalizedGroupsClaim config] ->
  identityFromClaims config (("email_verified", verified) :: c) = identityFromClaims config c.
Proof.
  intros [He [Hn [Hg _]%Forall_cons]%Forall_cons]%Forall_cons. unfold identityFromClaims.
  rewrite !extract_string_other, extract_groups_other; [done| | |]; repeat (apply Forall_cons_2; [done|]); apply Forall_nil_2.
Qed.
End SingleSignOn.
