(* ===== verification/Catalog.v ===== *)
(** The catalogue of packages, [src/backend/internal/catalog]: what is
    discovered in the configured registries, the requests this sends, how the
    versions of a package are ordered and chosen, the stars of users, and the
    handlers.

    The registries of the settings are those of Platform.v.  The HTTP client,
    the JSON decoder, the resolver of host names, the address validation of
    package netip and the shared cache are arguments; they hold for the time
    of one call.  [nil] and empty slices are one value. *)
From Stdlib Require Import ZArith Lia Ascii.
From S2P Require Import Prelude GoStrings Runes Strconv Url ProxyTarget Profiles ProfileRuntime Platform.
Import GoStrings Runes Strconv ProxyTarget.

Module Catalog.

(** ** types.go *)
Record Package := mkPackage {
  ID : string;
  Kind : string;
  Title : string;
  Repository : string;
  Owner : string;
  Provider : string;
  Version : string;
  Tags : list string;
  Description : string;
  Modules : list string;
  Status : string;
  Score : Z;
  PullCommand : string;
  ForkCommand : string;
  Inspectable : bool;
  Starred : bool;
}.
(** The fields of [suites.Definition] that the catalogue reads. *)
Record Suite := mkSuite {
  SuiteID : string;
  SuiteTitle : string;
  SuiteRepository : string;
  SuiteOwner : string;
  SuiteProvider : string;
  SuiteVersion : string;
  SuiteTags : list string;
  SuiteDescription : string;
  SuiteModules : list string;
  SuiteStatus : string;
  SuiteScore : Z;
  SuitePull : string;
  SuiteFork : string;
}.
Record discoveredRepository := mkDiscovered {
  registry : Platform.OCIRegistry; name : string; fullName : string; path : string; tags : list string }.
Record catalogIndex := mkIndex { packages : list Package; byID : gmap string Package }.
Record knownPackageIndex := mkKnown { byFullName : gmap string Package; byPath : gmap string Package }.
Definition ErrNotFound : goerr := ErrText "catalog package not found".

(** [sort.Slice], which sorts up to twelve elements by insertion.  Where the
    order decides every pair, every other way to sort gives the same list. *)
Section Sorting.
Context {A : Type} (less : A -> A -> bool).
(** [x] moves to the left over the sorted elements, the last one first. *)
Fixpoint insert_last (x : A) (reversed : list A) : list A :=
  match reversed with
  | [] => [x]
  | y :: rest => if less x y then y :: insert_last x rest else x :: reversed
  end.
Definition sort_slice (l : list A) : list A := reverse (foldl (fun reversed x => insert_last x reversed) [] l).
End Sorting.

(** ** version.go *)
Definition isNumeric (value : string) : bool :=
  negb (bool_decide (value = "")) && forallb (fun c => (48 <=? code c) && (code c <=? 57)) (of_string value).
Definition splitVersionParts (value : string) : list string :=
  Profiles.FieldsFunc value (fun c => bool_decide (c ∈ ["."; "-"; "_"]%char)).
Definition version_text (value : string) : string := TrimPrefix (ToLower (TrimSpace value)) "v".
(** One turn of the loop: [None] goes on with the next parts. *)
Definition compare_part (leftPart rightPart : string) : option Z :=
  if bool_decide (leftPart = rightPart) then None
  else if isNumeric leftPart && isNumeric rightPart &&
          negb (String.length leftPart =? String.length rightPart)%nat
  then Some (if (String.length rightPart <? String.length leftPart)%nat then 1 else -1)
  else Some (if String.ltb rightPart leftPart then 1 else -1).
Fixpoint compare_parts (turns : nat) (leftParts rightParts : list string) : Z :=
  match turns with
  | O => 0
  | S turns =>
      match compare_part (default "" (head leftParts)) (default "" (head rightParts)) with
      | Some c => c
      | None => compare_parts turns (tail leftParts) (tail rightParts)
      end
  end.
Definition compareVersionLike (left right : string) : Z :=
  let leftParts := splitVersionParts (version_text left) in
  let rightParts := splitVersionParts (version_text right) in
  compare_parts (Nat.max (length leftParts) (length rightParts)) leftParts rightParts.

Definition tag_less (a b : string) : bool :=
  if bool_decide (ToLower a = "latest") || bool_decide (ToLower b = "latest") then bool_decide (ToLower a = "latest")
  else 0 <? compareVersionLike a b.
Definition sortTags (tags : list string) : list string := sort_slice tag_less tags.

Definition chooseVersion (tags : list string) (preferred : string) : string :=
  let preferred := TrimSpace preferred in
  if negb (bool_decide (preferred = "")) && bool_decide (preferred ∈ tags) then preferred
  else match List.find (fun tag => negb (EqualFold tag "latest")) tags with
       | Some tag => tag
       | None =>
           match tags with
           | tag :: _ => tag
           | [] => if negb (bool_decide (preferred = "")) then preferred else "latest"
           end
       end.

(** ** naming.go *)
(** Whether the text before the first slash looks like a host. *)
Definition host_like (host : string) : bool :=
  Contains host "." || Contains host ":" || EqualFold host "localhost".
Definition without_host (repository : string) : string :=
  match index_bytes "/" (of_string repository) with
  | Some slash => if host_like (to_string (take slash (of_string repository)))
                  then to_string (drop (S slash) (of_string repository)) else repository
  | None => repository
  end.
Definition last_part (parts : list string) : string := default "" (last parts).
Definition packageID (repository kind : string) : string :=
  let repository := without_host (TrimSpace repository) in
  let last := last_part (Split (Trim (ToLower repository) "/") "/") in
  let last := if bool_decide (last = "") then "package" else last in
  if bool_decide (kind = "suite") then last else kind +:+ "-" +:+ last.

Definition inferKind (repository : string) : string :=
  let repository := ToLower (TrimSpace repository) in
  if HasPrefix repository "babelsuite/" || ContainsSub repository "/babelsuite/" then "stdlib" else "suite".

Definition humanize_part (part : string) : string :=
  if bool_decide (part = ToUpper (Profiles.readable part)) then part else Profiles.capitalized part.
Definition humanize (value : string) : string :=
  let parts := Profiles.FieldsFunc (TrimSpace value) (fun c => bool_decide (c ∈ ["-"; "_"; "."]%char)) in
  if bool_decide (parts = []) then value else Join (humanize_part <$> parts) " ".

Definition titleForRepository (repository kind : string) : string :=
  let repository := TrimSpace repository in
  if bool_decide (kind = "stdlib") then
    "@babelsuite/" +:+ match index_bytes "/" (of_string repository) with
                       | Some index => to_string (drop (S index) (of_string repository))
                       | None => repository
                       end
  else humanize (last_part (Split repository "/")).
Definition ownerForRepository (repository fallback : string) : string :=
  match Split (Trim repository "/") "/" with
  | [] => FirstNonEmpty [fallback; "Registry Package"]
  | part :: _ => humanize part
  end.
Definition genericDescription (repository registryName kind : string) : string :=
  let source := FirstNonEmpty [registryName; "the configured registry"] in
  if bool_decide (kind = "stdlib") then
    "Discovered in " +:+ source +:+ " and treated as a BabelSuite standard library module because of its repository path."
  else "Discovered directly from " +:+ source +:+
       ". Publish richer suite metadata inside BabelSuite to unlock deep inspect, topology, and contract views.".
Definition inferModules (repository : string) : list string :=
  let repository := ToLower (TrimSpace repository) in
  List.filter (fun candidate => ContainsSub repository candidate ||
                 bool_decide (candidate = "mock-api") && ContainsSub repository "mock")
    ["postgres"; "kafka"; "wiremock"; "mock-api"; "playwright"; "grpc"; "redis"; "prometheus"; "vault"].

Definition buildRunCommand (repository version : string) : string :=
  "babelctl run " +:+ repository +:+ ":" +:+ chooseVersion [] version.
Definition buildForkCommand (repository version : string) : string :=
  "babelctl fork " +:+ repository +:+ ":" +:+ chooseVersion [] version +:+
  " ./" +:+ last_part (Split (Trim repository "/") "/").

(** ** registry.go *)
Section Discovery.
Context (ip_literal : string -> bool) (LookupHost : string -> option (list string)).

Inductive RegistryError :=
  EmptyURL | BadURL | EmptyHost | BadScheme | PrivateAddress | Unresolved | RequestFailed | BadStatus | BadBody.

(** The address to call and the host of the names. *)
Definition normalizeRegistryURL (raw : string) : RegistryError + (string * string) :=
  let value := TrimSpace raw in
  if bool_decide (value = "") then inl EmptyURL
  else
    let value := if ContainsSub value "://" then value else "https://" +:+ value in
    match Url.Parse ip_literal value with
    | None => inl BadURL
    | Some u =>
        if bool_decide (Url.Host u = "") then inl EmptyHost
        else
          let u := Url.Build_URL (Url.Scheme u) (Url.Opaque u) (Url.User u) (Url.Host u) (TrimSuffix (Url.Path u) "/")
                     (Url.RawQuery u) (Url.Fragment u) (Url.RawPath u) (Url.RawFragment u) (Url.ForceQuery u)
                     (Url.OmitHost u) in
          inr (Url.URL_String u, Url.Host u)
    end.

Definition registryBlockedNets : list IPNet :=
  omap ParseCIDR
    ["0.0.0.0/8"; "127.0.0.0/8"; "10.0.0.0/8"; "172.16.0.0/12"; "192.168.0.0/16";
     "169.254.0.0/16"; "100.64.0.0/10"; "192.0.0.0/24"; "198.18.0.0/15";
     "240.0.0.0/4"; "255.255.255.255/32";
     "::1/128"; "fc00::/7"; "fe80::/10"; "::/128"].
Definition isRegistryBlockedIP (ip : IP) : bool := existsb (fun n => NetContains n ip) registryBlockedNets.
Definition registry_blocked_text (addr : string) : bool :=
  match ParseIP addr with Some ip => isRegistryBlockedIP ip | None => false end.

Definition validateRegistryURL (raw : string) : option RegistryError :=
  match Url.Parse ip_literal raw with
  | None => Some BadURL
  | Some u =>
      if negb (bool_decide (Url.Scheme u = "http")) && negb (bool_decide (Url.Scheme u = "https")) then Some BadScheme
      else
        let host := Hostname (Url.Host u) in
        match ParseIP host with
        | Some ip => if isRegistryBlockedIP ip then Some PrivateAddress else None
        | None =>
            match LookupHost host with
            | None => Some Unresolved
            | Some addrs => if existsb registry_blocked_text addrs then Some PrivateAddress else None
            end
        end
  end.

(** [url.PathEscape]. *)
Definition segment_escape (c : ascii) : bool :=
  if Url.alnum c || Url.one_of "-_.~" c then false
  else if Url.one_of "$&+,/:;=?@" c then Url.one_of "/;,?" c else true.
Definition PathEscape (s : string) : string :=
  to_string (concat ((fun c => if segment_escape c
                               then ["%"%char; Url.upper_hex (code c / 16); Url.upper_hex (code c mod 16)]
                               else [c]) <$> of_string s)).
Definition encodeRepositoryPath (repository : string) : string :=
  Join (PathEscape <$> Split (Trim repository "/") "/") "/".

Definition scope_candidate (repository candidate : string) : bool :=
  let candidate := Trim (ToLower candidate) "/" in
  bool_decide (candidate = "") || bool_decide (candidate = "*") ||
  bool_decide (repository = candidate) || HasPrefix repository (candidate +:+ "/").
Definition matchesRepositoryScope (repository scope : string) : bool :=
  let repository := Trim (ToLower repository) "/" in
  let scope := TrimSpace scope in
  bool_decide (scope = "") || bool_decide (scope = "*") ||
  existsb (scope_candidate repository) (Split scope ",").

Definition normalizeRepository (repository : string) : string := ToLower (TrimSpace repository).

Definition path_of (repository : string) : string :=
  match index_bytes "/" (of_string repository) with
  | Some slash =>
      if host_like (to_string (take slash (of_string repository)))
      then Trim (to_string (drop (S slash) (of_string repository))) "/"
      else Trim repository "/"
  | None => Trim repository "/"
  end.
Definition repositoryPath (repository : string) : string :=
  let repository := TrimSpace repository in
  if bool_decide (repository = "") then ""
  else if ContainsSub repository "://" then
    match Url.Parse ip_literal repository with
    | Some u => Trim (Url.Path u) "/"
    | None => path_of repository
    end
  else path_of repository.

(** ** package_build.go *)
Definition suite_package (suite : Suite) : Package :=
  mkPackage (SuiteID suite) "suite" (SuiteTitle suite) (SuiteRepository suite) (SuiteOwner suite) (SuiteProvider suite)
    (SuiteVersion suite) (SuiteTags suite) (SuiteDescription suite) (SuiteModules suite) (SuiteStatus suite)
    (SuiteScore suite) (SuitePull suite) (SuiteFork suite) true false.
Definition add (k : knownPackageIndex) (item : Package) : knownPackageIndex :=
  let byFullName := <[normalizeRepository (Repository item) := item]> (byFullName k) in
  let repositoryPath := normalizeRepository (repositoryPath (Repository item)) in
  mkKnown byFullName
    (if negb (bool_decide (repositoryPath = "")) && negb (bool_decide (is_Some (byPath k !! repositoryPath)))
     then <[repositoryPath := item]> (byPath k) else byPath k).
(** stdlib.go: no package is built in. *)
Definition seedStdlib : list Package := [].
Definition knownPackages (suites : list Suite) : knownPackageIndex :=
  foldl add (mkKnown ∅ ∅) ((suite_package <$> suites) ++ seedStdlib).
(** A package that is not known has the empty identifier. *)
Definition lookup (k : knownPackageIndex) (repo : discoveredRepository) : option Package :=
  match byFullName k !! normalizeRepository (fullName repo) with
  | Some item => Some item
  | None => byPath k !! normalizeRepository (path repo)
  end.
Definition packageForRepository (repo : discoveredRepository) (known : option Package) : Package :=
  let provider := FirstNonEmpty [TrimSpace (Platform.RegistryProvider (registry repo));
                                 TrimSpace (Platform.RegistryName (registry repo)); "OCI"] in
  let unknown :=
    let kind := inferKind (name repo) in
    let version := chooseVersion (tags repo) "" in
    mkPackage (packageID (fullName repo) kind) kind (titleForRepository (name repo) kind) (fullName repo)
      (ownerForRepository (name repo) (Platform.RegistryName (registry repo))) provider version (tags repo)
      (genericDescription (name repo) (Platform.RegistryName (registry repo)) kind) (inferModules (name repo))
      "Verified" 80 (buildRunCommand (fullName repo) version) (buildForkCommand (fullName repo) version)
      (bool_decide (kind = "suite")) false in
  match known with
  | Some item =>
      if bool_decide (ID item = "") then unknown
      else
        let version := chooseVersion (tags repo) (Version item) in
        mkPackage (ID item) (Kind item) (Title item) (fullName repo) (Owner item) provider version (tags repo)
          (Description item) (Modules item) (Status item) (Score item) (buildRunCommand (fullName repo) version)
          (buildForkCommand (fullName repo) version) (bool_decide (Kind item = "suite")) (Starred item)
  | None => unknown
  end.

(** ** discovery.go *)
Record Request := mkRequest { Target : string; BasicAuth : option (string * string) }.
(** [client.Do]: the status and the body of the response, or an error. *)
Context (Do : Request -> option (Z * string)).
Context (decode_catalog decode_tags : string -> option (list string)).

(** The result, and the requests that were sent. *)
Definition getJSON (target : string) (registry : Platform.OCIRegistry) (decode : string -> option (list string))
    : (RegistryError + list string) * list Request :=
  if bool_decide (Url.Parse ip_literal target = None) then (inl BadURL, [])
  else
    let username := TrimSpace (Platform.RegistryUsername registry) in
    let secret := TrimSpace (Platform.Secret registry) in
    let secret := if ContainsSub secret "://" then "" else secret in
    let request := mkRequest target (if negb (bool_decide (username = "")) && negb (bool_decide (secret = ""))
                                     then Some (username, secret) else None) in
    (match Do request with
     | None => inl RequestFailed
     | Some (status, body) =>
         if (status <? 200) || (300 <=? status) then inl BadStatus
         else match decode body with Some v => inr v | None => inl BadBody end
     end, [request]).

(** One turn of the loop over the repositories of a registry. *)
Definition discover_repository (registry : Platform.OCIRegistry) (baseURL host repository : string)
    : list discoveredRepository * list Request :=
  let repository := TrimSpace repository in
  if bool_decide (repository = "") || negb (matchesRepositoryScope repository (Platform.RepositoryScope registry))
  then ([], [])
  else
    let tagsURL := TrimRight baseURL "/" +:+ "/v2/" +:+ encodeRepositoryPath repository +:+ "/tags/list" in
    let (result, sent) := getJSON tagsURL registry decode_tags in
    (match result with
     | inl _ => []
     | inr [] => []
     | inr tags => [mkDiscovered registry repository (host +:+ "/" +:+ repository) repository (sortTags tags)]
     end, sent).
Definition discoverRegistry (registry : Platform.OCIRegistry)
    : (RegistryError + list discoveredRepository) * list Request :=
  match normalizeRegistryURL (Platform.RegistryURL registry) with
  | inl err => (inl err, [])
  | inr (baseURL, host) =>
      match (if Platform.AllowLocalNetwork registry then None else validateRegistryURL baseURL) with
      | Some err => (inl err, [])
      | None =>
          match getJSON (TrimRight baseURL "/" +:+ "/v2/_catalog?n=1000") registry decode_catalog with
          | (inl err, sent) => (inl err, sent)
          | (inr repositories, sent) =>
              let turns := discover_repository registry baseURL host <$> repositories in
              (inr (mjoin turns.*1), sent ++ mjoin turns.*2)
          end
      end
  end.

(** The repositories of one registry, added to the packages found so far. *)
Definition add_repository (known : knownPackageIndex) (found : catalogIndex * gset string) (repo : discoveredRepository)
    : catalogIndex * gset string :=
  let (index, seenRepositories) := found in
  let key := normalizeRepository (fullName repo) in
  if bool_decide (key ∈ seenRepositories) then found
  else
    let item := packageForRepository repo (lookup known repo) in
    (mkIndex (packages index ++ [item]) (<[ID item := item]> (byID index)), {[key]} ∪ seenRepositories).
Definition discover (settings : goerr + list Platform.OCIRegistry) (suites : list Suite)
    : (goerr + catalogIndex) * list Request :=
  match settings with
  | inl err => (inl err, [])
  | inr registries =>
      let known := knownPackages suites in
      let results := discoverRegistry <$> registries in
      let found := mjoin ((fun r => match r.1 with inr repos => repos | inl _ => [] end) <$> results) in
      (inr (foldl (add_repository known) (mkIndex [] ∅, ∅) found).1, mjoin results.*2)
  end.
End Discovery.

(** ** service_core.go, on what [discover] returned *)
Definition package_less (a b : Package) : bool :=
  if negb (bool_decide (Kind a = Kind b)) then String.ltb (Kind a) (Kind b)
  else String.ltb (ToLower (Title a)) (ToLower (Title b)).
Definition ListPackages (discovered : goerr + catalogIndex) : goerr + list Package :=
  match discovered with
  | inl err => inl err
  | inr index => inr (sort_slice package_less (packages index))
  end.
Definition GetPackage (discovered : goerr + catalogIndex) (id : string) : goerr + Package :=
  match discovered with
  | inl err => inl err
  | inr index => match byID index !! TrimSpace id with Some item => inr item | None => inl ErrNotFound end
  end.

(** ** cache.go: [cached] is what the shared cache has under the key, the last
    component what is written to it. *)
Definition cached_ListPackages (cached : option (list Package)) (base : goerr + list Package)
    : (goerr + list Package) * option (list Package) :=
  match cached with
  | Some packages => (inr packages, None)
  | None => match base with inl err => (inl err, None) | inr packages => (inr packages, Some packages) end
  end.
Definition cached_GetPackage (cached : option Package) (base : goerr + Package)
    : (goerr + Package) * option Package :=
  match cached with
  | Some item => (inr item, None)
  | None => match base with inl err => (inl err, None) | inr item => (inr item, Some item) end
  end.

(** ** handler.go

    The stars of the users are a set of pairs in the store, each with the time
    it was saved at; a call of the store can fail and then changes nothing. *)
Notation Favorites := (gmap (string * string) Z).
(** The order of the Postgres store: the latest star first. *)
Definition favorite_less (a b : string * Z) : bool :=
  (b.2 <? a.2) || (b.2 =? a.2) && String.ltb a.1 b.1.
Definition ListFavoritePackageIDs (fault : option goerr) (userID : string) (s : Favorites) : goerr + list string :=
  match fault with
  | Some err => inl err
  | None =>
      inr (List.filter (fun id => negb (bool_decide (id = "")))
             (sort_slice favorite_less
                (omap (fun f => if bool_decide (f.1.1 = userID) then Some (f.1.2, f.2) else None) (map_to_list s))).*1)
  end.
Definition SaveFavoritePackage (fault : option goerr) (userID packageID : string) (now : Z) (s : Favorites)
    : option goerr * Favorites :=
  match fault with
  | Some err => (Some err, s)
  | None => (None, match s !! (userID, packageID) with Some _ => s | None => <[(userID, packageID) := now]> s end)
  end.
Definition RemoveFavoritePackage (fault : option goerr) (userID packageID : string) (s : Favorites)
    : option goerr * Favorites :=
  match fault with Some err => (Some err, s) | None => (None, delete (userID, packageID) s) end.

Inductive answer :=
  | Refused (status : Z) (message : string)
  | Listed (packages : list Package) (total : Z)
  | Shown (item : Package)
  | Stars (packageIDs : list string)
  | Star (packageID : string) (starred : bool).

Definition starred (packageIDs : list string) (item : Package) : Package :=
  mkPackage (ID item) (Kind item) (Title item) (Repository item) (Owner item) (Provider item) (Version item)
    (Tags item) (Description item) (Modules item) (Status item) (Score item) (PullCommand item) (ForkCommand item)
    (Inspectable item) (bool_decide (ID item ∈ packageIDs)).
(** The session is the user of the request; the parameters are the texts of
    the query, the empty one when it is missing. *)
Definition page_limit (raw : string) : Z :=
  let raw := TrimSpace raw in
  let limit := if negb (bool_decide (raw = "")) then
                 match ParseInt raw with Some v => if 0 <? v then v else 50 | None => 50 end
               else 50 in
  if 200 <? limit then 200 else limit.
Definition page_offset (raw : string) : Z :=
  let raw := TrimSpace raw in
  if negb (bool_decide (raw = "")) then match ParseInt raw with Some v => if 0 <=? v then v else 0 | None => 0 end else 0.
Definition page {A} (items : list A) (offset limit : Z) : list A :=
  let total := Z.of_nat (length items) in
  if total <=? offset then []
  else
    let end_ := offset + limit in
    let end_ := if total <? end_ then total else end_ in
    take (Z.to_nat (end_ - offset)) (drop (Z.to_nat offset) items).
Definition listPackages (session : option string) (listed : goerr + list Package) (fault : option goerr)
    (limit offset : string) (s : Favorites) : answer :=
  match session with
  | None => Refused 401 "Sign in required."
  | Some user =>
      match listed with
      | inl _ => Refused 500 "Could not load catalog packages from the configured registries."
      | inr packages =>
          match ListFavoritePackageIDs fault user s with
          | inl _ => Refused 500 "Could not load saved stars."
          | inr ids =>
              let packages := starred ids <$> packages in
              Listed (page packages (page_offset offset) (page_limit limit)) (Z.of_nat (length packages))
          end
      end
  end.
Definition getPackage (session : option string) (got : goerr + Package) (fault : option goerr) (s : Favorites) : answer :=
  match session with
  | None => Refused 401 "Sign in required."
  | Some user =>
      match got with
      | inl err => if errors_Is err ErrNotFound then Refused 404 "Catalog package not found."
                   else Refused 500 "Could not load catalog package."
      | inr item =>
          match ListFavoritePackageIDs fault user s with
          | inl _ => Refused 500 "Could not load saved stars."
          | inr ids => Shown (starred ids item)
          end
      end
  end.
Definition listFavorites (session : option string) (fault : option goerr) (s : Favorites) : answer :=
  match session with
  | None => Refused 401 "Sign in required."
  | Some user => match ListFavoritePackageIDs fault user s with
                 | inl _ => Refused 500 "Could not load saved stars."
                 | inr ids => Stars ids
                 end
  end.
(** [got] is what [GetPackage] answers for an identifier. *)
Definition addFavorite (session : option string) (got : string -> goerr + Package) (fault : option goerr) (now : Z)
    (packageID : string) (s : Favorites) : answer * Favorites :=
  match session with
  | None => (Refused 401 "Sign in required.", s)
  | Some user =>
      let packageID := TrimSpace packageID in
      if bool_decide (packageID = "") then (Refused 400 "Catalog package is required.", s)
      else match got packageID with
           | inl err => (if errors_Is err ErrNotFound then Refused 404 "Catalog package not found."
                         else Refused 500 "Could not load catalog package.", s)
           | inr _ => match SaveFavoritePackage fault user packageID now s with
                      | (Some _, s) => (Refused 500 "Could not save star.", s)
                      | (None, s) => (Star packageID true, s)
                      end
           end
  end.
Definition removeFavorite (session : option string) (fault : option goerr) (packageID : string) (s : Favorites)
    : answer * Favorites :=
  match session with
  | None => (Refused 401 "Sign in required.", s)
  | Some user =>
      let packageID := TrimSpace packageID in
      if bool_decide (packageID = "") then (Refused 400 "Catalog package is required.", s)
      else match RemoveFavoritePackage fault user packageID s with
           | (Some _, s) => (Refused 500 "Could not remove star.", s)
           | (None, s) => (Star packageID false, s)
           end
  end.

(** * Sorting *)
Section Sorted.
Context {A : Type} (less : A -> A -> bool) (P : A -> Prop) (later : A -> A -> Prop).
(** [later x y]: [x] may stand behind [y]. *)
Context (later_not_less : forall x y, P x -> P y -> less x y = false -> later x y).
Context (less_later : forall x y, P x -> P y -> less x y = true -> later y x).
Context (later_trans : forall x y z, P x -> P y -> P z -> less x y = false -> later y z -> later x z).

Lemma insert_last_perm x reversed : insert_last less x reversed ≡ₚ x :: reversed.
Proof.
  induction reversed as [|y rest IH]; [done|]. cbn [insert_last].
  destruct (less x y); [rewrite IH; constructor|done].
Qed.
Lemma insert_last_sorted x reversed : P x -> Forall P reversed -> StronglySorted later reversed ->
  StronglySorted later (insert_last less x reversed).
Proof.
  intros Hx. induction reversed as [|y rest IH]; intros HP Hs; [repeat constructor|].
  apply Forall_cons in HP as [Hy HP]. pose proof (StronglySorted_inv Hs) as [Hr Hf]. cbn [insert_last].
  destruct (less x y) eqn:E.
  - constructor; [by apply IH|]. rewrite insert_last_perm. constructor; [by apply less_later|done].
  - constructor; [done|]. constructor; [by apply later_not_less|].
    rewrite Forall_forall in Hf |- *. rewrite Forall_forall in HP. intros z Hz. apply (later_trans x y z); auto.
Qed.
Lemma sort_slice_perm l : sort_slice less l ≡ₚ l.
Proof.
  unfold sort_slice. rewrite reverse_Permutation.
  assert (forall acc, foldl (fun reversed x => insert_last less x reversed) acc l ≡ₚ l ++ acc) as H.
  { induction l as [|x l IH]; intros acc; [done|]. cbn [foldl]. rewrite IH, insert_last_perm.
    symmetry. apply Permutation_middle. }
  by rewrite H, app_nil_r.
Qed.
Lemma sort_slice_sorted l : Forall P l -> StronglySorted (flip later) (sort_slice less l).
Proof.
  intros HP. unfold sort_slice.
  assert (forall k : list A, StronglySorted later k -> StronglySorted (flip later) (reverse k)) as Hrev.
  { induction k as [|x k IH]; intros H; [constructor|]. apply StronglySorted_inv in H as [Hk Hf].
    rewrite reverse_cons. apply StronglySorted_app_2; [|by apply IH|repeat constructor].
    intros y z Hy ->%list_elem_of_singleton. rewrite elem_of_reverse in Hy. rewrite Forall_forall in Hf. by apply Hf. }
  apply Hrev.
  assert (forall acc, Forall P acc -> StronglySorted later acc ->
    StronglySorted later (foldl (fun reversed x => insert_last less x reversed) acc l)) as H; [|apply H; constructor].
  induction l as [|x l IH]; intros acc Ha Hs; [done|]. apply Forall_cons in HP as [Hx HP]. cbn [foldl]. apply IH; [done| |].
  - rewrite insert_last_perm. by constructor.
  - by apply insert_last_sorted.
Qed.
End Sorted.

(** * Versions *)

(** A number as versions are written: decimal digits, no zero in front. *)
Definition number (part : string) (v : Z) : Prop :=
  Forall is_digit (of_string part) /\ digits_value 0 (of_string part) = Some v /\
  (String.length part = 1%nat \/ exists c l, of_string part = c :: l /\ 49 <= code c).
Definition version_of (tag : string) (numbers : list Z) : Prop :=
  Forall2 number (splitVersionParts (version_text tag)) numbers.
(** The order of versions: the first number that differs decides, a version
    comes before the longer ones that begin with it. *)
Fixpoint version_order (a b : list Z) : Z :=
  match a, b with
  | [], [] => 0
  | [], _ :: _ => -1
  | _ :: _, [] => 1
  | x :: a, y :: b => if x <? y then -1 else if y <? x then 1 else version_order a b
  end.

Lemma digits_bounds l : forall a v, Forall is_digit l -> digits_value a l = Some v ->
  a * 10 ^ Z.of_nat (length l) <= v < (a + 1) * 10 ^ Z.of_nat (length l).
Proof.
  induction l as [|c l IH]; intros a v HF E.
  - cbn in E. injection E as <-. change (10 ^ Z.of_nat (length [])) with 1. lia.
  - apply Forall_cons in HF as [Hc HF]. unfold is_digit in Hc. cbn [digits_value] in E. unfold digit in E.
    replace (48 <=? code c) with true in E by lia. replace (code c <=? 57) with true in E by lia. cbn in E.
    apply IH in E; [|done]. cbn [length]. rewrite Nat2Z.inj_succ, Z.pow_succ_r by lia. nia.
Qed.
Lemma digits_ltb l : forall k a v w, length l = length k -> Forall is_digit l -> Forall is_digit k ->
  digits_value a l = Some v -> digits_value a k = Some w -> String.ltb (to_string l) (to_string k) = (v <? w).
Proof.
  induction l as [|c l IH]; intros [|d k] a v w Hlen Hl Hk Ev Ew; try done.
  - cbn in Ev, Ew. simplify_eq. by rewrite Z.ltb_irrefl.
  - apply Forall_cons in Hl as [Hc Hl]. apply Forall_cons in Hk as [Hd Hk]. unfold is_digit in Hc, Hd.
    injection Hlen as Hlen. cbn [digits_value] in Ev, Ew. unfold digit in Ev, Ew.
    replace (48 <=? code c) with true in Ev by lia. replace (code c <=? 57) with true in Ev by lia.
    replace (48 <=? code d) with true in Ew by lia. replace (code d <=? 57) with true in Ew by lia. cbn in Ev, Ew.
    change (to_string (c :: l)) with (String c (to_string l)). change (to_string (d :: k)) with (String d (to_string k)).
    rewrite ltb_cons. pose proof (digits_bounds _ _ _ Hl Ev) as Rv. pose proof (digits_bounds _ _ _ Hk Ew) as Rw.
    rewrite <-Hlen in Rw. pose proof (Z.pow_pos_nonneg 10 (Z.of_nat (length l)) ltac:(lia) ltac:(lia)) as Hp.
    destruct (Z.ltb_spec (code c) (code d)); [symmetry; apply Z.ltb_lt; nia|].
    destruct (Z.eqb_spec (code c) (code d)) as [He|]; cbn [orb andb]; [|symmetry; apply Z.ltb_ge; nia].
    rewrite He in Ev. by apply (IH k (a * 10 + (code d - 48))).
Qed.
Lemma length_of part : length (of_string part) = String.length part.
Proof. induction part as [|c s IH]; [done|]. cbn. by f_equal. Qed.
Lemma number_numeric part v : number part v -> isNumeric part = true /\ part <> "" /\ 0 <= v.
Proof.
  intros (HF & Hv & Hs). assert (part <> "") as Hne by (intros ->; destruct Hs as [?|(?&?&?&?)]; done).
  split_and!; [|done|apply digits_bounds in Hv; [lia|done]]. unfold isNumeric. rewrite bool_decide_eq_false_2 by done. cbn [negb andb].
  apply forallb_forall. intros c Hc. rewrite Forall_forall in HF. specialize (HF c).
  rewrite <-list_elem_of_In in Hc. specialize (HF Hc). unfold is_digit in HF. lia.
Qed.
(** More digits are a greater number. *)
Lemma number_length p q v w : number p v -> number q w -> (String.length p < String.length q)%nat -> v < w.
Proof.
  intros Hp (HG & Hw & Hs) Hlen. pose proof (number_numeric _ _ Hp) as (_ & Hne & _). destruct Hp as (HF & Hv & _).
  destruct Hs as [Hs|(c & l & Hl & Hc)]; [destruct p; [done|cbn in Hlen; lia]|].
  pose proof (digits_bounds _ _ _ HF Hv) as Rv. rewrite <-!length_of in Hlen.
  rewrite Hl in HG, Hw, Hlen. apply Forall_cons in HG as [Hd HG]. unfold is_digit in Hd. cbn [digits_value] in Hw. unfold digit in Hw.
  replace (48 <=? code c) with true in Hw by lia. replace (code c <=? 57) with true in Hw by lia. cbn in Hw.
  apply digits_bounds in Hw; [|done]. cbn [length] in Hlen.
  assert (10 ^ Z.of_nat (length (of_string p)) <= 10 ^ Z.of_nat (length l)) by (apply Z.pow_le_mono_r; lia). nia.
Qed.
Lemma compare_numbers p q v w : number p v -> number q w ->
  compare_part p q = if v <? w then Some (-1) else if w <? v then Some 1 else None.
Proof.
  intros Hp Hq. pose proof (number_numeric _ _ Hp) as (Np & _ & _). pose proof (number_numeric _ _ Hq) as (Nq & _ & _).
  unfold compare_part. rewrite Np, Nq. cbn [andb].
  destruct (decide (p = q)) as [->|Hne].
  { rewrite bool_decide_eq_true_2 by done. destruct Hp as (_ & Ep & _), Hq as (_ & Eq & _).
    rewrite Ep in Eq. injection Eq as <-. by rewrite Z.ltb_irrefl. }
  rewrite bool_decide_eq_false_2 by done.
  destruct (Nat.eqb_spec (String.length p) (String.length q)) as [Hlen|Hlen]; cbn [negb].
  - destruct Hp as (Fp & Ep & _), Hq as (Fq & Eq & _). rewrite <-!length_of in Hlen.
    pose proof (digits_ltb _ _ _ _ _ Hlen Fp Fq Ep Eq) as L1. pose proof (digits_ltb _ _ _ _ _ (eq_sym Hlen) Fq Fp Eq Ep) as L2.
    rewrite !to_of in L1, L2. rewrite L2. destruct (ltb_total p q) as [H|[H|H]]; [rewrite H in L1|done|rewrite H in L2].
    + replace (w <? v) with false by lia. by rewrite <-L1.
    + rewrite <-L2. by replace (v <? w) with false by lia.
  - destruct (Nat.ltb_spec (String.length q) (String.length p)) as [H|H].
    + pose proof (number_length _ _ _ _ Hq Hp H). replace (v <? w) with false by lia. by replace (w <? v) with true by lia.
    + assert (String.length p < String.length q)%nat as H' by lia. pose proof (number_length _ _ _ _ Hp Hq H').
      by replace (v <? w) with true by lia.
Qed.
Lemma ltb_empty s : String.ltb "" s = negb (bool_decide (s = "")).
Proof. by destruct s. Qed.
Lemma compare_parts_numbers turns : forall ps qs a b, Forall2 number ps a -> Forall2 number qs b ->
  (Nat.max (length ps) (length qs) <= turns)%nat -> compare_parts turns ps qs = version_order a b.
Proof.
  induction turns as [|turns IH]; intros ps qs a b Ha Hb Hn.
  - destruct Ha, Hb; cbn in Hn; try lia. done.
  - cbn [compare_parts]. destruct Ha as [|p x ps a Hp Ha], Hb as [|q y qs b Hq Hb]; cbn [head tail default].
    + apply (IH [] [] [] []); [constructor..|cbn; lia].
    + pose proof (number_numeric _ _ Hq) as (_ & Hne & _). unfold compare_part. rewrite bool_decide_eq_false_2 by done.
      cbn. by destruct q.
    + pose proof (number_numeric _ _ Hp) as (_ & Hne & _). unfold compare_part. rewrite bool_decide_eq_false_2 by done.
      rewrite andb_false_r. cbn [andb]. change (default "" None) with "". rewrite ltb_empty. by rewrite bool_decide_eq_false_2.
    + change (compare_part _ _) with (compare_part p q).
      rewrite (compare_numbers p q x y) by done.
      cbn [version_order]. destruct (x <? y); [done|]. destruct (y <? x); [done|]. apply IH; [done|done|cbn in Hn |- *; lia].
Qed.
Lemma compareVersionLike_numbers left right a b : version_of left a -> version_of right b ->
  compareVersionLike left right = version_order a b.
Proof. intros Ha Hb. unfold compareVersionLike. by apply compare_parts_numbers. Qed.

Lemma version_order_flip a : forall b, version_order b a = - version_order a b.
Proof.
  induction a as [|x a IH]; intros [|y b]; try done. cbn [version_order].
  destruct (Z.ltb_spec x y), (Z.ltb_spec y x); try lia. apply IH.
Qed.
Lemma version_order_trans a : forall b c, version_order a b <= 0 -> version_order b c <= 0 -> version_order a c <= 0.
Proof.
  induction a as [|x a IH]; intros [|y b] [|z c]; cbn [version_order]; try lia.
  intros H1 H2. destruct (Z.ltb_spec x y), (Z.ltb_spec y z); destruct (Z.ltb_spec x z); try lia;
    destruct (Z.ltb_spec y x); try lia; destruct (Z.ltb_spec z y); try lia; destruct (Z.ltb_spec z x); try lia.
  by apply (IH b).
Qed.

(** The tags of a package that is published with numbered versions. *)
Definition latest (tag : string) : Prop := ToLower tag = "latest" /\ EqualFold tag "latest" = true.
Definition release (tag : string) (numbers : list Z) : Prop :=
  ToLower tag <> "latest" /\ EqualFold tag "latest" = false /\ version_of tag numbers.
Definition tag_ok (tag : string) : Prop := latest tag \/ exists numbers, release tag numbers.
Definition behind (x y : string) : Prop := tag_less x y = false \/ (latest x /\ latest y).

Lemma tag_less_latest x y : latest x -> tag_less x y = true.
Proof. intros [H _]. unfold tag_less. by rewrite H. Qed.
Lemma tag_less_release x y a : release x a -> latest y -> tag_less x y = false.
Proof. intros (H & _) [H' _]. unfold tag_less. rewrite H', (bool_decide_eq_false_2 _ H). done. Qed.
Lemma tag_less_releases x y a b : release x a -> release y b -> tag_less x y = (0 <? version_order a b).
Proof.
  intros (H & _ & Ha) (H' & _ & Hb). unfold tag_less. rewrite !bool_decide_eq_false_2 by done. cbn [orb].
  by rewrite (compareVersionLike_numbers _ _ _ _ Ha Hb).
Qed.
Lemma sortTags_sorted tags : Forall tag_ok tags -> StronglySorted (flip behind) (sortTags tags).
Proof.
  apply sort_slice_sorted.
  - intros x y _ _ H. by left.
  - intros x y [Hx|[a Hx]] [Hy|[b Hy]] E; [by right|left; by apply (tag_less_release _ _ b)|
      by rewrite (tag_less_release _ _ a) in E|left].
    rewrite (tag_less_releases _ _ a b) in E by done. rewrite (tag_less_releases _ _ b a) by done.
    rewrite version_order_flip. lia.
  - intros x y z [Hx|[a Hx]] Hy Hz E H; [by rewrite tag_less_latest in E|]. left.
    destruct Hz as [Hz|[c Hz]]; [by apply (tag_less_release _ _ a)|].
    destruct Hy as [Hy|[b Hy]].
    + destruct H as [H|[_ [H _]]]; [by rewrite tag_less_latest in H|]. by destruct Hz.
    + destruct H as [H|[[H _] _]]; [|by destruct Hy]. rewrite (tag_less_releases _ _ a b) in E by done.
      rewrite (tag_less_releases _ _ b c) in H by done. rewrite (tag_less_releases _ _ a c) by done.
      pose proof (version_order_trans a b c). lia.
Qed.

Lemma chosen_first tags : chooseVersion tags "" =
  match List.find (fun tag => negb (EqualFold tag "latest")) tags with
  | Some tag => tag
  | None => default "latest" (head tags)
  end.
Proof. unfold chooseVersion. cbn. destruct (List.find _ tags); [done|]. by destruct tags. Qed.
Lemma tag_ok_release tag : tag_ok tag -> EqualFold tag "latest" = false -> exists numbers, release tag numbers.
Proof. intros [[_ H]|H] E; [by rewrite H in E|done]. Qed.
(** In a sorted list the first numbered version is the greatest. *)
Lemma first_release tags tag others : Forall tag_ok tags -> StronglySorted (flip behind) tags -> tag ∈ tags ->
  release tag others -> exists version numbers,
    List.find (fun tag => negb (EqualFold tag "latest")) tags = Some version /\ version ∈ tags /\
    release version numbers /\ version_order others numbers <= 0.
Proof.
  intros Hok Hs Hin Hr. induction tags as [|x tags IH]; [by apply elem_of_nil in Hin|].
  apply Forall_cons in Hok as [Hx Hok]. apply StronglySorted_inv in Hs as [Hs Hf]. cbn [List.find].
  destruct (EqualFold x "latest") eqn:E; cbn [negb].
  - apply elem_of_cons in Hin as [->|Hin]; [by destruct Hr as (_ & Hr & _); rewrite E in Hr|].
    destruct (IH Hok Hs Hin) as (v & ns & ? & ? & ? & ?). exists v, ns. split_and!; [done|by right|done..].
  - destruct (tag_ok_release _ Hx E) as [ns Hx']. exists x, ns. split_and!; [done|by left|done|].
    apply elem_of_cons in Hin as [->|Hin].
    + destruct (tag_less_releases x x ns others Hx' Hr), (tag_less_releases x x others others Hr Hr).
      pose proof (compareVersionLike_numbers x x _ _ (proj2 (proj2 Hx')) (proj2 (proj2 Hr))).
      pose proof (compareVersionLike_numbers x x _ _ (proj2 (proj2 Hr)) (proj2 (proj2 Hx'))).
      pose proof (version_order_flip ns others). lia.
    + rewrite Forall_forall in Hf. destruct (Hf _ Hin) as [H|[H _]].
      * rewrite (tag_less_releases _ _ others ns Hr Hx') in H. lia.
      * by destruct H, Hr.
Qed.

(** C40: The version shown for a repository with no known suite: of tags that
    are "latest" or numbered versions it is one of the numbered ones that no
    other exceeds, if there is any; otherwise it is "latest" as it is written.
    Sorting drops no tag. *)
Theorem default_version_is_greatest tags : Forall tag_ok tags ->
  let version := chooseVersion (sortTags tags) "" in
  sortTags tags ≡ₚ tags /\
  (forall tag others, tag ∈ tags -> release tag others ->
     version ∈ tags /\ exists numbers, release version numbers /\ version_order others numbers <= 0) /\
  (Forall latest tags -> version = default "latest" (head (sortTags tags))).
Proof.
  intros Hok version. pose proof (sort_slice_perm tag_less tags) as Hp. pose proof (sortTags_sorted tags Hok) as Hs.
  split_and!; [done| |].
  - intros tag others Hin Hr. assert (Forall tag_ok (sortTags tags)) as Hok' by (unfold sortTags; by rewrite Hp).
    destruct (first_release (sortTags tags) tag others Hok' Hs) as (v & ns & Hf & Hv & Hn & Ho); [unfold sortTags; by rewrite Hp|done|].
    unfold version. rewrite chosen_first, Hf. split; [unfold sortTags in Hv; by rewrite Hp in Hv|eauto].
  - intros Hl. unfold version. rewrite chosen_first. destruct (List.find _ _) as [v|] eqn:E; [|done].
    apply List.find_some in E as [Hv E]. rewrite <-list_elem_of_In in Hv. unfold sortTags in Hv. rewrite Hp in Hv.
    rewrite Forall_forall in Hl. destruct (Hl _ Hv) as [_ H]. by rewrite H in E.
Qed.

(** * What is discovered, and what is asked for it *)
Section Discovered.
Context (ip_literal : string -> bool) (LookupHost : string -> option (list string))
  (Do : Request -> option (Z * string)) (decode_catalog decode_tags : string -> option (list string)).
Notation getJSON := (getJSON ip_literal Do).
Notation discover_repository := (discover_repository ip_literal Do decode_tags).
Notation discoverRegistry := (discoverRegistry ip_literal LookupHost Do decode_catalog decode_tags).
Notation discover := (discover ip_literal LookupHost Do decode_catalog decode_tags).
Notation knownPackages := (knownPackages ip_literal).

(** A registry may be asked: it is allowed to be in the local network, or its
    address is valid. *)
Definition permitted (registry : Platform.OCIRegistry) (baseURL host : string) : Prop :=
  normalizeRegistryURL ip_literal (Platform.RegistryURL registry) = inr (baseURL, host) /\
  (Platform.AllowLocalNetwork registry = true \/ validateRegistryURL ip_literal LookupHost baseURL = None).
Definition catalog_url (baseURL : string) : string := TrimRight baseURL "/" +:+ "/v2/_catalog?n=1000".
Definition tags_url (baseURL repository : string) : string :=
  TrimRight baseURL "/" +:+ "/v2/" +:+ encodeRepositoryPath repository +:+ "/tags/list".
(** A repository a registry lists in its scope. *)
Definition listed (registry : Platform.OCIRegistry) (baseURL repository : string) : Prop :=
  exists names entry, (getJSON (catalog_url baseURL) registry decode_catalog).1 = inr names /\ entry ∈ names /\
    repository = TrimSpace entry /\ repository <> "" /\
    matchesRepositoryScope repository (Platform.RepositoryScope registry) = true.
(** A repository with tags. *)
Definition offered (registry : Platform.OCIRegistry) (repo : discoveredRepository) : Prop :=
  exists baseURL host repository tags, permitted registry baseURL host /\ listed registry baseURL repository /\
    (getJSON (tags_url baseURL repository) registry decode_tags).1 = inr tags /\ tags <> [] /\
    repo = mkDiscovered registry repository (host +:+ "/" +:+ repository) repository (sortTags tags).

Lemma permitted_if registry baseURL host :
  permitted registry baseURL host <->
  normalizeRegistryURL ip_literal (Platform.RegistryURL registry) = inr (baseURL, host) /\
  (if Platform.AllowLocalNetwork registry then None else validateRegistryURL ip_literal LookupHost baseURL) = None.
Proof using Type.
  clear. unfold permitted. destruct (Platform.AllowLocalNetwork registry); split; intros [H1 H2]; auto. by destruct H2.
Qed.
Lemma validated_registry_public baseURL : validateRegistryURL ip_literal LookupHost baseURL = None ->
  ProfileRuntime.public_address ip_literal LookupHost baseURL.
Proof using Type.
  intros Hv. apply ProfileRuntime.validated_public. revert Hv. unfold validateRegistryURL, ProfileRuntime.validateVaultAddress.
  destruct (Url.Parse ip_literal baseURL) as [u|]; [|done]. destruct (negb _ && negb _); [done|]. cbn zeta.
  destruct (ParseIP _) as [ip|]; [|destruct (LookupHost _) as [addrs|]; [|done]].
  - change (ProfileRuntime.isVaultBlockedIP ip) with (isRegistryBlockedIP ip). by destruct (isRegistryBlockedIP ip).
  - change ProfileRuntime.vault_blocked_text with registry_blocked_text. by destruct (existsb _ addrs).
Qed.

Lemma discover_repository_found registry baseURL host entry repo :
  repo ∈ (discover_repository registry baseURL host entry).1 <->
  let repository := TrimSpace entry in
  repository <> "" /\ matchesRepositoryScope repository (Platform.RepositoryScope registry) = true /\
  exists tags, (getJSON (tags_url baseURL repository) registry decode_tags).1 = inr tags /\ tags <> [] /\
    repo = mkDiscovered registry repository (host +:+ "/" +:+ repository) repository (sortTags tags).
Proof using Type.
  clear LookupHost decode_catalog. unfold Catalog.discover_repository. cbn zeta. fold (tags_url baseURL (TrimSpace entry)).
  destruct (decide (TrimSpace entry = "")) as [He|He].
  { rewrite bool_decide_eq_true_2 by done. cbn. rewrite elem_of_nil. naive_solver. }
  rewrite bool_decide_eq_false_2 by done. destruct (matchesRepositoryScope _ _) eqn:Em; cbn [negb orb].
  - destruct (getJSON _ _ _) as [[err|[|tag tags]] sent] eqn:Eg; cbn [fst]; rewrite ?elem_of_nil, ?list_elem_of_singleton.
    + split; [done|naive_solver].
    + split; [done|]. intros (_ & _ & ts & H & Hn & _). injection H as <-. done.
    + split; [intros ->; eauto 10|]. intros (_ & _ & ts & H & Hn & ->). by injection H as <-.
  - cbn. rewrite elem_of_nil. naive_solver.
Qed.
Definition repositories_of (registry : Platform.OCIRegistry) : list discoveredRepository :=
  match (discoverRegistry registry).1 with inr repos => repos | inl _ => [] end.
Lemma repositories_offered registry repo : repo ∈ repositories_of registry <-> offered registry repo.
Proof using Type.
  unfold repositories_of, Catalog.discoverRegistry, offered, listed. setoid_rewrite permitted_if.
  destruct (normalizeRegistryURL _ _) as [err|[baseURL host]]; [cbn; rewrite elem_of_nil; naive_solver|].
  destruct (if Platform.AllowLocalNetwork registry then _ else _) as [err|] eqn:Ev.
  { cbn. rewrite elem_of_nil. split; [done|]. intros (b & h & r & ts & [[= <- <-] Hv] & _). by rewrite Ev in Hv. }
  fold (catalog_url baseURL). destruct (getJSON (catalog_url baseURL) registry decode_catalog) as [[err|names] sent] eqn:Eg.
  { cbn. rewrite elem_of_nil. split; [done|].
    intros (b & h & r & ts & [[= <- <-] Hv] & (ns & e & Hc & _) & _). by rewrite Eg in Hc. }
  cbn [fst]. rewrite list_elem_of_join. split.
  - intros (found & Hr & (turn & -> & (entry & -> & Hin)%list_elem_of_fmap)%list_elem_of_fmap).
    apply discover_repository_found in Hr as (Hne & Hm & ts & Ht & Hts & ->). exists baseURL, host, (TrimSpace entry), ts.
    split_and!; [done|done| |done..]. exists names, entry. by rewrite Eg.
  - intros (b & h & r & ts & [[= <- <-] _] & (ns & entry & Hc & Hin & -> & Hne & Hm) & Ht & Hts & ->). rewrite Eg in Hc.
    injection Hc as <-. eexists. split; [|apply list_elem_of_fmap; eexists; split; [done|by apply list_elem_of_fmap_2]].
    apply discover_repository_found. naive_solver.
Qed.

(** The same with the place of its entry in the list of the registry. *)
Definition offered_at (registry : Platform.OCIRegistry) (n : nat) (repo : discoveredRepository) : Prop :=
  exists baseURL host names entry tags, permitted registry baseURL host /\
    (getJSON (catalog_url baseURL) registry decode_catalog).1 = inr names /\ names !! n = Some entry /\
    TrimSpace entry <> "" /\ matchesRepositoryScope (TrimSpace entry) (Platform.RepositoryScope registry) = true /\
    (getJSON (tags_url baseURL (TrimSpace entry)) registry decode_tags).1 = inr tags /\ tags <> [] /\
    repo = mkDiscovered registry (TrimSpace entry) (host +:+ "/" +:+ TrimSpace entry) (TrimSpace entry) (sortTags tags).
Lemma offered_somewhere registry repo : offered registry repo <-> exists n, offered_at registry n repo.
Proof using Type.
  unfold offered, listed, offered_at. split.
  - intros (b & h & r & ts & Hp & (names & entry & Hc & [n Hn]%list_elem_of_lookup & -> & Hne & Hm) & Ht & Hts & ->).
    exists n, b, h, names, entry, ts. done.
  - intros (n & b & h & names & entry & ts & Hp & Hc & Hn%list_elem_of_lookup_2 & Hne & Hm & Ht & Hts & ->).
    exists b, h, (TrimSpace entry), ts. split; [done|]. split; [|done]. by exists names, entry.
Qed.

(** Where an element of joined lists comes from. *)
Lemma join_split {A B} (f : A -> list B) l before x after : mjoin (f <$> l) = before ++ x :: after ->
  exists l1 a l2 b1 b2, l = l1 ++ a :: l2 /\ f a = b1 ++ x :: b2 /\ before = mjoin (f <$> l1) ++ b1.
Proof using Type.
  clear. revert before. induction l as [|a l IH]; intros before H; [by destruct before|].
  cbn in H. apply app_eq_inv in H as [(k & Hfa & Hk)|(k & Hb & Hk)].
  - destruct k as [|y k].
    + cbn in Hk. rewrite app_nil_r in Hfa. symmetry in Hk.
      apply (IH []) in Hk as (l1 & a' & l2 & b1 & b2 & -> & Ha & Hnil).
      exists (a :: l1), a', l2, b1, b2. split; [done|]. split; [done|].
      change (mjoin (f <$> a :: l1)) with (f a ++ mjoin (f <$> l1)). by rewrite <-app_assoc, <-Hnil, app_nil_r, Hfa.
    + injection Hk as -> _. by exists [], a, l, before, k.
  - apply IH in Hk as (l1 & a' & l2 & b1 & b2 & -> & Ha & Hk).
    exists (a :: l1), a', l2, b1, b2. split; [done|]. split; [done|]. rewrite Hb, Hk.
    change (mjoin (f <$> a :: l1)) with (f a ++ mjoin (f <$> l1)). by rewrite app_assoc.
Qed.

(** The repositories of a registry are in the order of its list. *)
Lemma repositories_ordered registry before repo after : repositories_of registry = before ++ repo :: after ->
  exists n, offered_at registry n repo /\
    forall n' repo', (n' < n)%nat -> offered_at registry n' repo' -> repo' ∈ before.
Proof using Type.
  unfold repositories_of, Catalog.discoverRegistry, offered_at. setoid_rewrite permitted_if.
  destruct (normalizeRegistryURL _ _) as [err|[baseURL host]]; [by destruct before|].
  destruct (if Platform.AllowLocalNetwork registry then _ else _) as [err|] eqn:Ev; [by destruct before|].
  fold (catalog_url baseURL).
  destruct (getJSON (catalog_url baseURL) registry decode_catalog) as [[err|names] sent] eqn:Eg; [by destruct before|].
  cbn [fst]. rewrite <-list_fmap_compose. intros (n1 & entry & n2 & b1 & b2 & -> & Hentry & ->)%join_split.
  assert (repo ∈ (discover_repository registry baseURL host entry).1) as Hin
    by (cbn in Hentry; rewrite Hentry; apply elem_of_app; right; left).
  apply discover_repository_found in Hin as (Hne & Hm & ts & Ht & Hts & ->).
  exists (length n1). split.
  - exists baseURL, host, (n1 ++ entry :: n2), entry, ts. rewrite Eg. split_and!; try done.
    by rewrite list_lookup_middle.
  - intros n' repo' Hn' (b & h & ns & e & ts' & [[= <- <-] _] & Hc & Hl & Hne' & Hm' & Ht' & Hts' & ->).
    rewrite Eg in Hc. injection Hc as <-. rewrite lookup_app_l in Hl by done. apply elem_of_app. left.
    apply list_elem_of_join. apply list_elem_of_lookup_2 in Hl.
    eexists. split; [|apply list_elem_of_fmap; exists e; split; [reflexivity|exact Hl]].
    apply discover_repository_found. cbn zeta. split; [done|]. split; [done|]. by exists ts'.
Qed.

(** The first repository of each name. *)
Fixpoint first_seen (seen : gset string) (found : list discoveredRepository) : list discoveredRepository :=
  match found with
  | [] => []
  | repo :: rest =>
      let key := normalizeRepository (fullName repo) in
      if bool_decide (key ∈ seen) then first_seen seen rest else repo :: first_seen ({[key]} ∪ seen) rest
  end.
Definition key_of (repo : discoveredRepository) : string := normalizeRepository (fullName repo).
Lemma first_seen_spec found : forall seen,
  (forall repo, repo ∈ first_seen seen found -> repo ∈ found) /\
  (forall repo, repo ∈ found -> key_of repo ∈ seen \/ exists first, first ∈ first_seen seen found /\ key_of first = key_of repo) /\
  NoDup (key_of <$> first_seen seen found) /\ Forall (fun key => key ∉ seen) (key_of <$> first_seen seen found).
Proof using Type.
  clear. induction found as [|repo found IH]; intros seen; cbn [first_seen].
  { split_and!; [done| |constructor|constructor]. intros repo H. by apply elem_of_nil in H. }
  fold (key_of repo). case_bool_decide as Hk; [destruct (IH seen) as (I1 & I2 & I3 & I4)|destruct (IH ({[key_of repo]} ∪ seen)) as (I1 & I2 & I3 & I4)].
  - split_and!; [intros r Hr; right; by apply I1| |done|done].
    intros r [->|Hr]%elem_of_cons; [by left|by apply I2].
  - split_and!.
    + intros r [->|Hr]%elem_of_cons; [by left|right; by apply I1].
    + intros r [->|Hr]%elem_of_cons; [right; exists repo; split; [by left|done]|].
      destruct (I2 r Hr) as [H|(f & Hf & He)]; [|right; exists f; split; [by right|done]].
      apply elem_of_union in H as [H%elem_of_singleton|H]; [|by left]. right. exists repo. split; [by left|done].
    + cbn. constructor; [|done]. rewrite Forall_forall in I4. intros H. specialize (I4 _ H). set_solver.
    + cbn. constructor; [done|]. eapply Forall_impl; [exact I4|]. cbn. set_solver.
Qed.
Lemma first_seen_first found : forall seen repo, repo ∈ first_seen seen found ->
  exists before after, found = before ++ repo :: after /\ Forall (fun r => key_of r <> key_of repo) before.
Proof using Type.
  clear. induction found as [|r found IH]; intros seen repo; cbn [first_seen]; [by intros ?%elem_of_nil|].
  fold (key_of r). case_bool_decide as Hk.
  - intros Hin. assert (key_of repo ∉ seen) as Hrepo.
    { destruct (first_seen_spec found seen) as (_ & _ & _ & H). rewrite Forall_forall in H.
      apply H. by apply list_elem_of_fmap_2. }
    apply IH in Hin as (before & after & -> & Hb). exists (r :: before), after. split; [done|].
    constructor; [|done]. congruence.
  - intros [->|Hin]%elem_of_cons; [by exists [], found|].
    assert (key_of repo ∉ ({[key_of r]} ∪ seen : gset string)) as Hrepo.
    { destruct (first_seen_spec found ({[key_of r]} ∪ seen)) as (_ & _ & _ & H). rewrite Forall_forall in H.
      apply H. by apply list_elem_of_fmap_2. }
    apply IH in Hin as (before & after & -> & Hb). exists (r :: before), after. split; [done|].
    constructor; [|done]. set_solver.
Qed.
Lemma add_repositories known found : forall index seen,
  let items := (fun repo => packageForRepository repo (lookup known repo)) <$> first_seen seen found in
  (foldl (add_repository known) (index, seen) found).1 =
    mkIndex (packages index ++ items) (foldl (fun m item => <[ID item := item]> m) (byID index) items).
Proof using Type.
  clear. induction found as [|repo found IH]; intros index seen; cbn [first_seen foldl].
  { cbn. rewrite app_nil_r. by destruct index. }
  unfold add_repository at 2. case_bool_decide; [apply IH|]. rewrite IH. cbn. by rewrite <-app_assoc.
Qed.
Lemma last_by_id (items : list Package) id :
  foldl (fun m item => <[ID item := item]> m) (∅ : gmap string Package) items !! id =
  last (filter (fun item => ID item = id) items).
Proof using Type.
  clear. induction items as [|item items IH] using rev_ind; [done|]. rewrite foldl_app, filter_app, filter_cons, filter_nil.
  cbn [foldl]. case_decide as H.
  - subst id. by rewrite lookup_insert_eq, last_snoc.
  - by rewrite lookup_insert_ne, app_nil_r.
Qed.
Lemma repository_kept repo known : Repository (packageForRepository repo known) = fullName repo.
Proof using Type. clear. unfold packageForRepository. destruct known; [|done]. by case_bool_decide. Qed.

(** C39: What the catalogue shows: one package for each name that a permitted
    registry lists in its scope and has tags for, and no other package.  The
    package is that of the first registry, in the order of the settings, that
    offers the name, and of the first entry of its list that does.  Listing the
    packages only sorts them, and an identifier gives the last package that has
    it. *)
Theorem catalog_exact registries suites : exists index sent,
  discover (inr registries) suites = (inr index, sent) /\
  NoDup ((fun item => normalizeRepository (Repository item)) <$> packages index) /\
  (forall registry repo, registry ∈ registries -> offered registry repo ->
     exists item, item ∈ packages index /\ normalizeRepository (Repository item) = normalizeRepository (fullName repo)) /\
  (forall item, item ∈ packages index -> exists earlier registry later n repo,
     registries = earlier ++ registry :: later /\ offered_at registry n repo /\
     item = packageForRepository repo (lookup (knownPackages suites) repo) /\
     (forall registry' repo', registry' ∈ earlier -> offered registry' repo' ->
        normalizeRepository (fullName repo') <> normalizeRepository (fullName repo)) /\
     (forall n' repo', (n' < n)%nat -> offered_at registry n' repo' ->
        normalizeRepository (fullName repo') <> normalizeRepository (fullName repo))) /\
  (forall id, GetPackage (inr index) id =
     match last (filter (fun item => ID item = TrimSpace id) (packages index)) with
     | Some item => inr item
     | None => inl ErrNotFound
     end) /\
  exists sorted, ListPackages (inr index) = inr sorted /\ sorted ≡ₚ packages index.
Proof using Type.
  unfold Catalog.discover. cbn zeta. rewrite <-list_fmap_compose. set (found := mjoin _) at 1.
  change found with (mjoin (repositories_of <$> registries)) in *. subst found.
  set (found := mjoin (repositories_of <$> registries)).
  destruct (first_seen_spec found ∅) as (F1 & F2 & F3 & _). rewrite add_repositories. cbn [packages byID app].
  eexists _, _. split; [done|]. cbn [packages byID]. rewrite <-list_fmap_compose. split_and!.
  - erewrite list_fmap_ext; [exact F3|]. intros i repo _. cbn. by rewrite repository_kept.
  - intros registry repo Hr Ho%repositories_offered. destruct (F2 repo) as [H|(first & Hf & He)]; [|by apply elem_of_empty in H|].
    { apply list_elem_of_join. exists (repositories_of registry). split; [done|]. by apply list_elem_of_fmap_2. }
    eexists. split; [by apply list_elem_of_fmap_2|]. by rewrite repository_kept.
  - intros item (repo & -> & Hr)%list_elem_of_fmap.
    apply first_seen_first in Hr as (before & after & Hfound & Hb). rewrite Forall_forall in Hb.
    apply join_split in Hfound as (earlier & registry & later & b1 & b2 & -> & Hreg & ->).
    apply repositories_ordered in Hreg as (n & Hn & Hfirst).
    exists earlier, registry, later, n, repo. split; [done|]. split; [done|]. split; [done|]. split.
    + intros registry' repo' Hr' Ho%repositories_offered. apply Hb, elem_of_app. left.
      apply list_elem_of_join. exists (repositories_of registry'). split; [done|]. by apply list_elem_of_fmap_2.
    + intros n' repo' Hn' Ho. apply Hb, elem_of_app. right. by eapply Hfirst.
  - intros id. unfold GetPackage. cbn [byID]. by rewrite last_by_id.
  - eexists. split; [done|]. apply sort_slice_perm.
Qed.

(** The requests: to permitted registries of the settings, for their list and
    for the tags of repositories in it, and with the credentials of the same
    registry, never with the name of a secret kept elsewhere. *)
Definition credentials_of (registry : Platform.OCIRegistry) (auth : option (string * string)) : Prop :=
  match auth with
  | None => True
  | Some (username, secret) =>
      username = TrimSpace (Platform.RegistryUsername registry) /\ secret = TrimSpace (Platform.Secret registry) /\
      username <> "" /\ secret <> "" /\ ContainsSub secret "://" = false
  end.
Lemma getJSON_sent target registry decode request : request ∈ (getJSON target registry decode).2 ->
  Target request = target /\ credentials_of registry (BasicAuth request).
Proof using Type.
  clear LookupHost decode_catalog decode_tags. unfold Catalog.getJSON. case_bool_decide; [by intros ?%elem_of_nil|]. cbn [snd].
  intros ->%list_elem_of_singleton. split; [done|]. unfold credentials_of. cbn [BasicAuth].
  destruct (ContainsSub (TrimSpace (Platform.Secret registry)) "://") eqn:E; [by rewrite andb_false_r|].
  case_bool_decide; [done|]. by case_bool_decide.
Qed.
Theorem registry_requests_justified settings suites request : request ∈ (discover settings suites).2 ->
  exists registries registry baseURL host,
    settings = inr registries /\ registry ∈ registries /\
    normalizeRegistryURL ip_literal (Platform.RegistryURL registry) = inr (baseURL, host) /\
    (Platform.AllowLocalNetwork registry = true \/ ProfileRuntime.public_address ip_literal LookupHost baseURL) /\
    credentials_of registry (BasicAuth request) /\
    (Target request = catalog_url baseURL \/
     exists repository, listed registry baseURL repository /\ Target request = tags_url baseURL repository).
Proof using Type.
  unfold Catalog.discover. destruct settings as [err|registries]; [by intros ?%elem_of_nil|]. cbn [snd].
  rewrite list_elem_of_join. intros (sent & Hs & (result & -> & (registry & -> & Hin)%list_elem_of_fmap)%list_elem_of_fmap).
  unfold Catalog.discoverRegistry in Hs. destruct (normalizeRegistryURL _ _) as [err|[baseURL host]] eqn:En; [by apply elem_of_nil in Hs|].
  destruct (if Platform.AllowLocalNetwork registry then _ else _) eqn:Ev; [by apply elem_of_nil in Hs|].
  exists registries, registry, baseURL, host. do 3 (split; [done|]). split.
  { destruct (Platform.AllowLocalNetwork registry); [by left|right; by apply validated_registry_public]. }
  fold (catalog_url baseURL) in Hs. destruct (getJSON (catalog_url baseURL) registry decode_catalog) as [[err|names] asked] eqn:Eg;
    pose proof (getJSON_sent (catalog_url baseURL) registry decode_catalog request) as Hc; rewrite Eg in Hc; cbn [snd] in Hs, Hc.
  { destruct (Hc Hs). auto. }
  apply elem_of_app in Hs as [Hs|Hs]; [destruct (Hc Hs); auto|].
  apply list_elem_of_join in Hs as (s & Hs & (turn & -> & (entry & -> & Hentry)%list_elem_of_fmap)%list_elem_of_fmap).
  unfold Catalog.discover_repository in Hs. case_bool_decide as Hne; [by apply elem_of_nil in Hs|].
  destruct (matchesRepositoryScope _ _) eqn:Em; cbn [negb orb] in Hs; [|by apply elem_of_nil in Hs].
  fold (tags_url baseURL (TrimSpace entry)) in Hs. destruct (getJSON (tags_url baseURL (TrimSpace entry)) registry decode_tags) as [answer asked'] eqn:Et.
  cbn [snd] in Hs. destruct (getJSON_sent (tags_url baseURL (TrimSpace entry)) registry decode_tags request) as [Ht Ha]; [by rewrite Et|].
  split; [done|]. right. exists (TrimSpace entry). split; [|done]. exists names, entry. by rewrite Eg.
Qed.
End Discovered.

(** * Stars and pages *)
Lemma favorites_listed user s : exists ids, ListFavoritePackageIDs None user s = inr ids /\
  forall id, id ∈ ids <-> id <> "" /\ is_Some (s !! (user, id)).
Proof.
  eexists. split; [done|]. intros id. rewrite list_elem_of_In, filter_In, <-list_elem_of_In, negb_true_iff, bool_decide_eq_false.
  rewrite list_elem_of_fmap. setoid_rewrite sort_slice_perm. setoid_rewrite list_elem_of_omap. split.
  - intros [([id' at_] & -> & ([[u i] t] & Hm & E)) Hne]. split; [done|]. apply elem_of_map_to_list in Hm. cbn in E.
    case_bool_decide as Hu; [|done]. injection E as -> ->. subst u. cbn. eauto.
  - intros [Hne [t Ht]]. split; [|done]. exists (id, t). split; [done|]. exists ((user, id), t).
    split; [by apply elem_of_map_to_list|]. cbn. by rewrite bool_decide_eq_true_2.
Qed.

(** A star that is answered is listed, one that is taken back is not, and no
    other star of any user changes; a refused request changes none. *)
Theorem stars_exact got fault user now packageID s :
  let shown s u id := exists ids, ListFavoritePackageIDs None u s = inr ids /\ id ∈ ids in
  (forall reply s', addFavorite (Some user) got fault now packageID s = (reply, s') ->
     match reply with
     | Star id on => on = true /\ id = TrimSpace packageID /\ (exists item, got id = inr item) /\
         forall u id', shown s' u id' <-> (u = user /\ id' = id) \/ shown s u id'
     | _ => s' = s
     end) /\
  (forall reply s', removeFavorite (Some user) fault packageID s = (reply, s') ->
     match reply with
     | Star id on => on = false /\ id = TrimSpace packageID /\
         forall u id', shown s' u id' <-> ~ (u = user /\ id' = id) /\ shown s u id'
     | _ => s' = s
     end).
Proof.
  cbn zeta. assert (forall s u id, (exists ids, ListFavoritePackageIDs None u s = inr ids /\ id ∈ ids) <->
    id <> "" /\ is_Some (s !! (u, id))) as Hs.
  { intros s0 u id. destruct (favorites_listed u s0) as (ids & E & Hids). rewrite <-Hids. split; [|eauto].
    intros (ids' & E' & H). rewrite E in E'. by injection E' as <-. }
  split; intros reply s' E; unfold addFavorite, removeFavorite in E.
  - case_bool_decide as Hne; [by injection E as <- <-|]. destruct (got (TrimSpace packageID)) as [err|item] eqn:Eg.
    { injection E as <- <-. by destruct (errors_Is err ErrNotFound). }
    destruct fault as [err|]; cbn in E; injection E as <- <-; [done|]. split_and!; [done|done|by eexists|].
    intros u id'. rewrite !Hs. destruct (s !! (user, TrimSpace packageID)) as [t|] eqn:Et.
    + split; [by right|]. intros [[-> ->]|H]; [split; [done|by eexists]|done].
    + destruct (decide ((user, TrimSpace packageID) = (u, id'))) as [[= <- <-]|Hd].
      * rewrite lookup_insert_eq. split; [by left|]. intros _. split; [done|by eexists].
      * rewrite lookup_insert_ne by done. split; [by right|]. intros [[-> ->]|H]; [done|done].
  - case_bool_decide as Hne; [by injection E as <- <-|]. destruct fault as [err|]; cbn in E; injection E as <- <-; [done|].
    split_and!; [done|done|]. intros u id'. rewrite !Hs.
    destruct (decide ((user, TrimSpace packageID) = (u, id'))) as [[= <- <-]|Hd].
    + rewrite lookup_delete_eq. split; [|naive_solver]. intros [_ H]. by apply is_Some_None in H.
    + rewrite lookup_delete_ne by done. split; [|naive_solver]. intros H. split; [|done]. intros [-> ->]. done.
Qed.

(** The pages of a list, each as long as asked for, put together again. *)
Lemma page_is {A} (items : list A) offset limit : 0 <= offset -> 0 < limit ->
  page items offset limit = take (Z.to_nat limit) (drop (Z.to_nat offset) items).
Proof.
  intros Ho Hl. unfold page. destruct (Z.leb_spec (Z.of_nat (length items)) offset) as [H|H].
  { by rewrite drop_ge, take_nil by lia. }
  destruct (Z.ltb_spec (Z.of_nat (length items)) (offset + limit)).
  - rewrite !take_ge; [done|rewrite length_drop; lia..].
  - f_equal. lia.
Qed.
Theorem pages_cover {A} (items : list A) limit n : 0 < limit -> Z.of_nat (length items) <= Z.of_nat n * limit ->
  mjoin ((fun k => page items (Z.of_nat k * limit) limit) <$> seq 0 n) = items.
Proof.
  intros Hl. revert items. assert (forall m start (items : list A), Z.of_nat (length (drop (Z.to_nat (Z.of_nat start * limit)) items)) <= Z.of_nat m * limit ->
    mjoin ((fun k => page items (Z.of_nat k * limit) limit) <$> seq start m) = drop (Z.to_nat (Z.of_nat start * limit)) items) as H.
  { induction m as [|m IH]; intros start items Hn.
    - cbn in Hn |- *. by destruct (drop _ items).
    - cbn [seq fmap list_fmap mjoin list_join]. rewrite IH.
      + rewrite page_is by lia. replace (Z.to_nat (Z.of_nat (S start) * limit)) with (Z.to_nat (Z.of_nat start * limit) + Z.to_nat limit)%nat by lia.
        rewrite <-drop_drop. apply take_drop.
      + rewrite length_drop in Hn |- *. lia. }
  intros items Hn. by rewrite (H n 0%nat items).
Qed.
Lemma page_limit_range raw : 1 <= page_limit raw <= 200.
Proof.
  unfold page_limit. set (limit := if negb _ then _ else _). assert (0 < limit) as H.
  { unfold limit. destruct (negb _); [|lia]. destruct (ParseInt _) as [v|]; [|lia]. destruct (Z.ltb_spec 0 v); lia. }
  destruct (Z.ltb_spec 200 limit); lia.
Qed.

(** * Concrete catalogues *)
Ltac number := split_and!; [repeat constructor; vm_compute; done|reflexivity|
  first [left; reflexivity|right; do 2 eexists; split; [reflexivity|vm_compute; done]]].
Ltac release numbers := right; exists numbers; split_and!; [vm_compute; done|reflexivity|
  repeat (constructor; [number|]); constructor].
Lemma default_version_is_greatest_witness :
  chooseVersion (sortTags ["v1.9.3"; "latest"; "1.10.0"; "v1.10"]) "" = "1.10.0" /\
  Forall tag_ok ["v1.9.3"; "latest"; "1.10.0"; "v1.10"] /\
  sortTags ["v1.9.3"; "latest"; "1.10.0"; "v1.10"] ≡ₚ ["v1.9.3"; "latest"; "1.10.0"; "v1.10"].
Proof.
  assert (Forall tag_ok ["v1.9.3"; "latest"; "1.10.0"; "v1.10"]) as H.
  { constructor; [release [1; 9; 3]|]. constructor; [left; split; reflexivity|].
    constructor; [release [1; 10; 0]|]. constructor; [release [1; 10]|constructor]. }
  split_and!; [vm_compute; reflexivity|exact H|]. exact (proj1 (default_version_is_greatest _ H)).
Defined.

Example humanize_ex : humanize <$> ["payment-suite"; "API_gateway.v2"; "--"] = ["Payment Suite"; "API Gateway V2"; "--"].
Proof. vm_compute. reflexivity. Qed.
Example normalize_ex :
  normalizeRegistryURL (fun _ => true) <$> ["localhost:5000"; "https://ghcr.io/"; " "; "http://"] =
  [inr ("https://localhost:5000", "localhost:5000"); inr ("https://ghcr.io", "ghcr.io"); inl EmptyURL; inl EmptyHost].
Proof. vm_compute. reflexivity. Qed.

(** A version that precedes a release comes behind it in the order, so it is
    the one that is shown and run. *)
Lemma candidate_preferred_to_release :
  sortTags ["1.0.0"; "1.0.0-rc1"] = ["1.0.0-rc1"; "1.0.0"] /\ chooseVersion (sortTags ["1.0.0"; "1.0.0-rc1"]) "" = "1.0.0-rc1".
Proof. split; vm_compute; reflexivity. Qed.
(** The comparison has circles: no order of these tags respects it. *)
Lemma comparison_has_circles :
  compareVersionLike "9" "10" = -1 /\ compareVersionLike "10" "1a" = -1 /\ compareVersionLike "1a" "9" = -1.
Proof. split_and!; vm_compute; reflexivity. Qed.
(** The scope the documentation gives as an example lists no repository of the
    namespace, and an entry behind a comma and a space none either. *)
Lemma documented_scope_matches_nothing :
  matchesRepositoryScope "core-platform/payment-suite" "core-platform/*" = false /\
  matchesRepositoryScope "core-platform/payment-suite" "core-platform" = true /\
  matchesRepositoryScope "team/api" "core-platform, team" = false.
Proof. split_and!; vm_compute; reflexivity. Qed.
(** Repositories with the same last part share an identifier, and only one of
    their packages can be shown by it. *)
Lemma last_part_is_shared :
  let registry := Platform.mkRegistry "r" "Registry" "generic" "https://ghcr.io" "" "" "*" "" false "" None in
  let payments := mkDiscovered registry "payments/api" "ghcr.io/payments/api" "payments/api" ["1.0.0"] in
  let orders := mkDiscovered registry "orders/api" "ghcr.io/orders/api" "orders/api" ["2.0.0"] in
  let index := (foldl (add_repository (mkKnown ∅ ∅)) (mkIndex [] ∅, ∅) [payments; orders]).1 in
  (fun item => (ID item, Repository item)) <$> packages index =
    [("api", "ghcr.io/payments/api"); ("api", "ghcr.io/orders/api")] /\
  match GetPackage (inr index) "api" with inr item => Repository item = "ghcr.io/orders/api" | inl _ => False end.
Proof. split; vm_compute; reflexivity. Qed.
(** The title of a module below a team repeats the namespace. *)
Lemma module_title_repeats :
  inferKind "team/babelsuite/kafka" = "stdlib" /\
  titleForRepository "team/babelsuite/kafka" "stdlib" = "@babelsuite/babelsuite/kafka".
Proof. split; vm_compute; reflexivity. Qed.
End Catalog.
